(* ===== verification/_CoqProject ===== *)
-Q . S2P
Prelude.v
Utf8.v
Utf8Facts.v
Probe.v
SmallIntSet.v
SmallIntSetFacts.v
Identity.v
IdSet.v
IdSetFacts.v
IdDict.v
IdDictFacts.v
Rle.v
MethodRoots.v
Hashing.v
HashingFacts.v
Engine.v
EngineFacts.v
Int2str.v
Symbol.v
SymbolFacts.v
Bytes.v
Codelocs.v
CodelocsFacts.v
IRCode.v
IRCodeFacts.v
Serializer.v
SerializerFacts.v
IRRoundTrip.v
Argnames.v
CodeInfo.v
CodeInfoFacts.v
Ios.v
IosFacts.v
IosText.v
WorkQueue.v
WorkQueueFacts.v
Objects.v
Egal.v
EgalFacts.v
EgalIdentity.v
HeapMonad.v
LayoutCore.v
LayoutCoreFacts.v
Layout.v
LayoutHeap.v
LayoutFacts.v
LayoutSound.v
Bits.v
Fields.v
BitsFacts.v
BoxCaches.v
FieldsFacts.v
Construct.v
FieldsSound.v
GenericMemory.v
GenericMemoryFacts.v
GenericMemorySound.v
ArrayList.v
BitVector.v
Eytzinger.v
EytzingerFacts.v
HTable.v
HTableFacts.v
Crc32cTables.v
Crc32c.v
Crc32cFacts.v
