(* ===== verification/Prelude.v ===== *)
(** * Verification of the Julia C runtime vendored under src/reference/julia/src

    The repository keeps the C sources of the Julia runtime as the reference
    for its own implementation.  This library models core parts of that
    runtime and proves them correct.

    ** The parts and how they interact

    Text and bytes
    - [Utf8], [Utf8Facts] (support/utf8.c): UTF-8 validation, conversion,
      indexing, escaping and search.  The facts relate every function to one
      reference, the encoding of a list of Unicode scalar values.
    - [Hashing], [HashingFacts] (support/hashing.c, support/MurmurHash3.c):
      integer and memory hashes on machine words and their injectivity.
    - [Int2str] (support/int2str.c): numbers as digits.
    - [Ios], [IosFacts], [IosText] (support/ios.c): streams in memory, their
      buffer growth and position, refined to files; text on streams.
    - [Bytes] (serialize.h): fixed-width integers on byte streams.

    Containers
    - [Probe], [SmallIntSet], [SmallIntSetFacts] (smallintset.c): open
      addressing sets of indices with tombstones, rehashing and widening.
    - [ArrayList], [BitVector] (support/arraylist.c, support/bitvector.c):
      growing arrays and bit vectors.
    - [Eytzinger], [EytzingerFacts] (support/eytzinger.c): address ranges in a
      search tree laid out in an array, on top of [ArrayList].
    - [HTable], [HTableFacts] (support/htable.inc, ptrhash.c): hash tables with
      pointers as keys, probed at triangular distances.
    - [Crc32cTables], [Crc32c], [Crc32cFacts] (crc32c.c): checksums, in
      software and with crc instructions, and the generator of their tables.
    - [Objects] (julia.h), [Egal], [EgalFacts], [EgalIdentity] (builtins.c):
      the heap of tagged objects, egal and object identity on it.
    - [LayoutCore], [LayoutCoreFacts], [Layout], [LayoutHeap], [LayoutFacts],
      [LayoutSound] (datatype.c, jltypes.c): layouts of structs and memories.
      [LayoutCore] is the arithmetic of offsets, sizes and descriptors;
      [Layout] is jl_compute_field_offsets on the heap of [Objects], with what
      it asks about types (inline storage, free type variables, singletons),
      in the monad of [HeapMonad] (heap changes and thrown errors);
      [LayoutFacts] shows how it changes the heap and [LayoutSound] that the
      layouts are those [Egal] reads fields with.
    - [Bits], [BitsFacts], [BoxCaches] (datatype.c, julia_internal.h,
      threading.c): boxes made from memory and the caches of small ones, plain
      and atomic copies of values, the locks of large atomic fields.
    - [Fields], [FieldsFacts], [Construct], [FieldsSound] (datatype.c): fields
      of structs through the layouts of [Layout] and the boxes of [Bits]
      (reading, storing, swapping, replacing, modifying, setting once), and
      the constructors.  [FieldsFacts] shows what one store does to the memory
      of a struct and what a read makes of it, [Construct] puts the stores of
      a constructor together.
    - [GenericMemory], [GenericMemoryFacts], [GenericMemorySound]
      (genericmemory.c): memories, the arrays below all others: allocation,
      copies, references to elements and what is done through them, with the
      same stores and boxes as fields.
    - [Identity] (the interface of jl_egal and jl_object_id, which
      [EgalIdentity] implements), [IdSet], [IdSetFacts] (idset.c, and the table of global roots of
      staticdata.c, which sits on it and on [SmallIntSet]; what jl_as_global_root
      returns before it looks there is not modelled), [IdDict], [IdDictFacts]
      (iddict.c): tables keyed by identity.
    - [Symbol], [SymbolFacts] (symbol.c): interning, with lock-free searches
      by any number of threads.
    - [Rle], [MethodRoots] (support/rle.c, method.c): the roots of a method and
      the relocatable references to them.

    Code
    - [IRCode], [IRCodeFacts], [Serializer], [SerializerFacts], [IRRoundTrip]
      (ircode.c): compact encoding of IR values and its tables; uses [Bytes]
      and [MethodRoots].
    - [Codelocs], [CodelocsFacts]: inlining costs and code locations;
      [Argnames]: argument names, interned with [Symbol].
    - [CodeInfo], [CodeInfoFacts]: whole methods, put together from the parts
      above, and the accessors that read the compressed form in place.

    Concurrency
    - [Engine], [EngineFacts] (engine.c): leases on inference work between
      threads.
    - [WorkQueue], [WorkQueueFacts] (work-stealing-queue.h): the deques the
      parallel collector takes its work from.

    ** Conventions

    A pure C function is a Rocq function; a function that changes memory takes
    and returns it.  Words are integers with the wrap-around of every
    operation written out ([u8], [u32], [u64], ...).  A function that reads or
    writes memory returns an [outcome]: a result, undefined behaviour, or a
    loop that ran out of fuel.  The theorems conclude that the result is
    [Ok], so they show that no access is out of bounds, no assertion fails and
    every loop ends.  Code that takes callbacks or calls another component is
    a section over that interface ([Identity], the hash and equality of
    [SmallIntSet], the runtime objects of [Serializer]).  Code not written in
    this repository (the allocator, utf8proc, the IR objects the runtime
    creates at start) is a parameter.  [Bits] and [Fields] take the address and
    the old contents of a new object from the allocator, the current task, the
    subtype test [jl_isa], calls of Julia functions and the types of the
    results of replacing and modifying as arguments.

    Threads are interleaved one shared access at a time ([Symbol.step],
    [WorkQueue.step], the steps of [Engine]); critical sections are one step.  Memory is
    sequentially consistent.

    ** What the theorems show

    - Round trips: UTF-8 and escapes ([Utf8Facts]), IR values, whole
      methods, code locations, argument names and root references.
    - Refinement: identity sets and dictionaries are sets and maps up to
      jl_egal, whatever sequence of operations is run; memory streams are
      files; the work-stealing queue is a deque; the tree of address ranges
      is a map from addresses to ranges (shifted by one against its header); pointer hash tables are finite maps;
      the table of global roots and
      the symbol table are canonical.
    - Invariants and progress under concurrency: the waits-for relation of the
      engine stays acyclic, symbol searches finish.
    - Bounds: no buffer is written beyond its size, for any input.
    - Identity: egal is equality of canonical forms and the object identity
      depends on the canonical form only.
    - Layouts: fields are aligned, inside the object and disjoint, the table
      of references is exact, and computing one layout keeps all layouts of
      the heap what the types of their fields demand: inline where they can be,
      references where they cannot.
    - Fields: a value that is stored is read back, with nothing else changed,
      however it is stored (reference, inline, inline union, atomic, under the
      lock); a constructor makes what its arguments say; the caches hold the
      numbers they should, and numbers survive boxing; the selector of an
      inline union leads back to the type.
    - Memories: an element that is stored is read back and the others stay; an
      allocation has the length asked for or is refused.
    - Equivalence: all versions of the checksum are division bit by bit.
    - Errors: inputs on which the code is wrong are exhibited
      ([smallintset_insert_narrowing], [codelocs_truncation],
      [egal_unionall_shared_body], [layout_offsets_wrap],
      [bottom_alias_not_normalized], [modify_union_corrupts],
      [eyt_touching_ranges], [wide_elements_cut]).

    ** Fuel

    Loops that grow a table by doubling get fuel logarithmic in the sizes an
    address space allows ([table_fuel], [dict_fuel], 64 for the doubling in
    [Ios]); the theorems show the fuel is enough.  The IR coder gets the
    height of the value, the decoder the length of the stream.  Searches in a
    tree or along a chain get the number of nodes.  Egal and object identity
    get a bound on the length of reference chains; an object that has a
    canonical form within the bound is compared within it.  Layouts get the
    nesting of inline fields as fuel and the height of type terms as depth.
    Loops that start over when another thread changed a field get a number of
    tries, which the round trips do not depend on.

    ** Not modelled

    The garbage collector, subtyping and dispatch, code generation, the
    platform layer and image files work on raw memory, signals or the type
    graph as a whole; instantiating the field types of a parametric type is
    left to its caller in [Layout], where such a type is undefined behaviour;
    the fields of a struct are accessed by one thread at a time, and a lock
    that another task holds is waited for without end;
    the list of components says why for each.  Strings made from memories and
    memory the user owns, streams with a file descriptor, the debug-info
    readers of ircode.c and the tables of the support library with strings as
    keys are left for later work. *)

From stdpp Require Import base list numbers option.
From Stdlib Require Import ZArith Lia.

#[global] Open Scope Z_scope.
#[global] Set Default Goal Selector "!".

(** ** Outcomes of C code

    [Ok a] is a normal result, [UB] an access outside the object the code was
    given (or another undefined operation, a failed [assert] or a call to
    [abort]), [Timeout] a loop that used up the fuel it was given.  A theorem that concludes [= Ok r] rules out both. *)
Inductive outcome (A : Type) : Type :=
| Ok (a : A)
| UB
| Timeout.
Arguments Ok {A} _.
Arguments UB {A}.
Arguments Timeout {A}.

Definition obind {A B} (m : outcome A) (k : A -> outcome B) : outcome B :=
  match m with
  | Ok a => k a
  | UB => UB
  | Timeout => Timeout
  end.

Definition omap_ok {A B} (f : A -> B) (m : outcome A) : outcome B :=
  obind m (fun a => Ok (f a)).

Declare Scope outcome_scope.
Delimit Scope outcome_scope with outcome.
Notation "'let!' x := m 'in' k" := (obind m (fun x => k))
  (at level 10, x pattern, m at level 100, k at level 200) : outcome_scope.
#[global] Open Scope outcome_scope.

#[global] Instance outcome_eq_dec `{EqDecision A} : EqDecision (outcome A).
Proof. solve_decision. Defined.

Lemma obind_Ok_inv {A B} (m : outcome A) (k : A -> outcome B) b :
  obind m k = Ok b -> exists a, m = Ok a /\ k a = Ok b.
Proof. destruct m; cbn; [eauto | discriminate | discriminate]. Qed.

(** ** Machine integers

    A [w]-bit unsigned value is a [Z] in [0, 2^w); the conversions below are
    C's conversions to the unsigned types (and to [int] and [int64_t], two's
    complement). *)
Definition u8 (x : Z) : Z := x mod 2 ^ 8.
Definition u16 (x : Z) : Z := x mod 2 ^ 16.
Definition u32 (x : Z) : Z := x mod 2 ^ 32.
Definition u64 (x : Z) : Z := x mod 2 ^ 64.
Definition i32 (x : Z) : Z := (x + 2 ^ 31) mod 2 ^ 32 - 2 ^ 31.
Definition i64 (x : Z) : Z := (x + 2 ^ 63) mod 2 ^ 64 - 2 ^ 63.

Definition is_byte (x : Z) : Prop := 0 <= x < 256.
Definition is_u32 (x : Z) : Prop := 0 <= x < 2 ^ 32.
Definition is_u64 (x : Z) : Prop := 0 <= x < 2 ^ 64.

#[global] Instance is_byte_dec x : Decision (is_byte x).
Proof. unfold is_byte. apply _. Defined.

(** [zwrap] unfolds the conversions; [dlia] is [lia] on goals with [/] and
    [mod]. *)
Ltac zwrap := unfold u8, u16, u32, u64, i32, i64, is_byte, is_u32, is_u64 in *.
Ltac dlia := Z.to_euclidean_division_equations; lia.

Lemma u8_small x : 0 <= x < 256 -> u8 x = x.
Proof. intros. apply Z.mod_small. lia. Qed.

Lemma u16_small x : 0 <= x < 2 ^ 16 -> u16 x = x.
Proof. intros. apply Z.mod_small. lia. Qed.

Lemma u32_small x : 0 <= x < 2 ^ 32 -> u32 x = x.
Proof. intros. apply Z.mod_small. lia. Qed.

Lemma u64_small x : 0 <= x < 2 ^ 64 -> u64 x = x.
Proof. intros. apply Z.mod_small. lia. Qed.

Lemma i32_small x : - 2 ^ 31 <= x < 2 ^ 31 -> i32 x = x.
Proof. intros. unfold i32. rewrite Z.mod_small; lia. Qed.

Lemma u64_range x : 0 <= u64 x < 2 ^ 64.
Proof. apply Z.mod_pos_bound. lia. Qed.

Lemma u32_range x : 0 <= u32 x < 2 ^ 32.
Proof. apply Z.mod_pos_bound. lia. Qed.

Lemma u8_range x : is_byte (u8 x).
Proof. apply Z.mod_pos_bound. lia. Qed.

Create HintDb mach.
Create Rewrite HintDb mach.
#[export] Hint Rewrite u8_small u16_small u32_small u64_small using lia : mach.
#[export] Hint Resolve u64_range u32_range u8_range : mach.

(** Drops an innermost conversion of a value in range. *)
Ltac u64s :=
  match goal with
  | |- context [u64 ?x] =>
      lazymatch x with
      | context [u64 _] => fail
      | _ => rewrite (u64_small x) by lia
      end
  end.

(** ** Exhaustive checks over an initial segment of the integers *)
Fixpoint all_from (n : nat) (x : Z) (P : Z -> bool) : bool :=
  match n with
  | O => true
  | S n' => P x && all_from n' (x + 1) P
  end.

Definition all_below (n : Z) (P : Z -> bool) : bool := all_from (Z.to_nat n) 0 P.

Lemma all_from_spec n P : forall x, all_from n x P = true -> forall y, x <= y < x + Z.of_nat n -> P y = true.
Proof.
  induction n as [| n IH]; intros x H y Hy; [lia |]. cbn in H. apply andb_prop in H as [Hx H].
  destruct (Z.eq_dec y x) as [-> |]; [done | apply (IH (x + 1)); [done | lia]].
Qed.

Lemma all_below_spec n P :
  all_below n P = true -> forall x, 0 <= x < n -> P x = true.
Proof. intros H x Hx. apply (all_from_spec _ _ _ H). lia. Qed.

(** ** Shifts and masks as arithmetic *)
Lemma land_0x3f x : Z.land x 0x3F = x mod 64.
Proof. change 0x3F with (Z.ones 6). rewrite Z.land_ones by lia. reflexivity. Qed.

Lemma shiftr_pow x n : 0 <= n -> Z.shiftr x n = x / 2 ^ n.
Proof. apply Z.shiftr_div_pow2. Qed.

Lemma shiftl_pow x n : 0 <= n -> Z.shiftl x n = x * 2 ^ n.
Proof. apply Z.shiftl_mul_pow2. Qed.

(** Case analysis on a comparison of the goal. *)
Ltac zcase :=
  match goal with
  | |- context [?a <? ?b] => destruct (Z.ltb_spec a b)
  | |- context [?a <=? ?b] => destruct (Z.leb_spec a b)
  | |- context [?a =? ?b] => destruct (Z.eqb_spec a b)
  end;
  rewrite ?andb_false_r, ?andb_true_r, ?orb_true_r, ?orb_false_r; cbn [andb orb negb].

(** ** Reads from a C array

    [rd s i] is [s[i]]; an index outside the array is [UB]. *)
Definition rd {A} (s : list A) (i : Z) : outcome A :=
  if i <? 0 then UB
  else match s !! Z.to_nat i with Some b => Ok b | None => UB end.

Lemma rd_lookup {A} (s : list A) i x :
  rd s i = Ok x <-> 0 <= i /\ s !! Z.to_nat i = Some x.
Proof.
  unfold rd. destruct (Z.ltb_spec i 0); [split; [discriminate | lia] |].
  destruct (s !! Z.to_nat i); split; intros; naive_solver.
Qed.

Lemma rd_app_r {A} (s t : list A) i :
  Z.of_nat (length s) <= i -> rd (s ++ t) i = rd t (i - Z.of_nat (length s)).
Proof.
  intros. unfold rd.
  destruct (Z.ltb_spec i 0), (Z.ltb_spec (i - Z.of_nat (length s)) 0); try lia.
  rewrite lookup_app_r by lia.
  replace (Z.to_nat i - length s)%nat with (Z.to_nat (i - Z.of_nat (length s))) by lia.
  done.
Qed.

Lemma rd_app_l {A} (s t : list A) i :
  i < Z.of_nat (length s) -> rd (s ++ t) i = rd s i.
Proof.
  intros. unfold rd. destruct (Z.ltb_spec i 0); [done |].
  rewrite lookup_app_l by lia. done.
Qed.

Lemma rd_in_range {A} (s : list A) i :
  0 <= i < Z.of_nat (length s) -> exists x, rd s i = Ok x /\ s !! Z.to_nat i = Some x.
Proof.
  intros. destruct (lookup_lt_is_Some_2 s (Z.to_nat i)) as [x Hx]; [lia |].
  exists x. split; [apply rd_lookup; split; [lia | done] | done].
Qed.

(** [wr s i x] is [s[i] = x]. *)
Definition wr {A} (s : list A) (i : Z) (x : A) : outcome (list A) :=
  if (0 <=? i) && (i <? Z.of_nat (length s)) then Ok (<[Z.to_nat i := x]> s) else UB.

Lemma wr_in_range {A} (s : list A) i x :
  0 <= i < Z.of_nat (length s) -> wr s i x = Ok (<[Z.to_nat i := x]> s).
Proof.
  intros. unfold wr. destruct (Z.leb_spec 0 i), (Z.ltb_spec i (Z.of_nat (length s))); try lia.
  done.
Qed.

(** ** Lists *)
Lemma concat_map_app {A B} (f : A -> list B) l1 l2 :
  concat (map f (l1 ++ l2)) = concat (map f l1) ++ concat (map f l2).
Proof. rewrite map_app, concat_app. done. Qed.

Lemma strong_list_ind {A} (P : list A -> Prop) :
  (forall l, (forall l', (length l' < length l)%nat -> P l') -> P l) -> forall l, P l.
Proof.
  intros H l. remember (length l) as n eqn:E. revert l E.
  induction n as [n IH] using lt_wf_ind. intros l ->.
  apply H. intros l' Hl. eapply IH; eauto.
Qed.
