(* ===== verification/Utf8.v ===== *)
(** * UTF-8 support (support/utf8.c)

    Byte strings are [list Z] of values in [0, 256).  A pointer that walks
    forward through a buffer is the suffix it points to; an index into a
    buffer is a [Z], read with [rd].  Functions that write into a caller's
    buffer return the list of the items they store; the count they return in C
    is its length. *)

From stdpp Require Import base list numbers option.
From Stdlib Require Import ZArith Lia.
From S2P Require Import Prelude.

(** ** Tables and classification *)

Definition isutf (c : Z) : bool := negb (Z.land c 0xC0 =? 0x80).

Definition offsetsFromUTF8 : list Z :=
  [0x00000000; 0x00003080; 0x000E2080; 0x03C82080; 0xFA082080; 0x82082080].

Definition trailingBytesForUTF8 : list Z :=
  repeat 0 192 ++ repeat 1 32 ++ repeat 2 16 ++ repeat 3 8 ++ repeat 4 4 ++ repeat 5 4.

Definition u8_seqlen (c : Z) : outcome Z :=
  let! t := rd trailingBytesForUTF8 (u8 c) in Ok (t + 1).

Definition u8_charlen (ch : Z) : Z :=
  if ch <? 0x80 then 1
  else if ch <? 0x800 then 2
  else if ch <? 0x10000 then 3
  else if ch <? 0x110000 then 4
  else 0.

(** ** Conversions *)

(** The fall-through switch that sums the bytes of one sequence: [nb] trailing
    bytes are left to read after the next one. *)
Fixpoint u8_switch (nb : nat) (ch : Z) (src : list Z) : outcome (Z * list Z) :=
  match src with
  | [] => UB
  | b :: src' =>
      let ch := u32 (ch + b) in
      match nb with
      | O => Ok (ch, src')
      | S nb' => u8_switch nb' (u32 (Z.shiftl ch 6)) src'
      end
  end.

(** The loop of [u8_toucs]: [n] is [sz - i], [src] the memory from the source
    pointer on, [rem] is [src_end - src].  Every iteration stores a character
    or leaves the loop. *)
Fixpoint u8_toucs_loop (n : nat) (src : list Z) (rem : Z) : outcome (list Z) :=
  match n with
  | O => Ok []
  | S n' =>
      match src with
      | [] => UB
      | c :: src1 =>
          if negb (isutf c) then
            if rem - 1 <=? 0 then Ok [0xFFFD]
            else omap_ok (cons 0xFFFD) (u8_toucs_loop n' src1 (rem - 1))
          else
            let! nb := rd trailingBytesForUTF8 (u8 c) in
            if rem - nb <=? 0 then Ok []
            else
              let! (ch, src2) := u8_switch (Z.to_nat nb) 0 src in
              let! off := rd offsetsFromUTF8 nb in
              omap_ok (cons (u32 (ch - off))) (u8_toucs_loop n' src2 (rem - (nb + 1)))
      end
  end.

Definition u8_toucs (sz : nat) (src : list Z) (srcsz : Z) : outcome (list Z) :=
  if (Z.of_nat sz =? 0) || (srcsz =? 0) then Ok []
  else u8_toucs_loop sz src srcsz.

(** [room] is [dest_end - dest]. *)
Fixpoint u8_toutf8 (room : Z) (src : list Z) : list Z :=
  match src with
  | [] => []
  | ch :: src' =>
      if ch <? 0x80 then
        if room <=? 0 then []
        else u8 ch :: u8_toutf8 (room - 1) src'
      else if ch <? 0x800 then
        if room <=? 1 then []
        else u8 (Z.lor (Z.shiftr ch 6) 0xC0)
             :: u8 (Z.lor (Z.land ch 0x3F) 0x80)
             :: u8_toutf8 (room - 2) src'
      else if ch <? 0x10000 then
        if room <=? 2 then []
        else u8 (Z.lor (Z.shiftr ch 12) 0xE0)
             :: u8 (Z.lor (Z.land (Z.shiftr ch 6) 0x3F) 0x80)
             :: u8 (Z.lor (Z.land ch 0x3F) 0x80)
             :: u8_toutf8 (room - 3) src'
      else if ch <? 0x110000 then
        if room <=? 3 then []
        else u8 (Z.lor (Z.shiftr ch 18) 0xF0)
             :: u8 (Z.lor (Z.land (Z.shiftr ch 12) 0x3F) 0x80)
             :: u8 (Z.lor (Z.land (Z.shiftr ch 6) 0x3F) 0x80)
             :: u8 (Z.lor (Z.land ch 0x3F) 0x80)
             :: u8_toutf8 (room - 4) src'
      else
        if room <=? 2 then []
        else 0xef :: 0xbf :: 0xbd :: u8_toutf8 (room - 3) src'
  end.

Definition u8_wc_toutf8 (ch : Z) : list Z :=
  if ch <? 0x80 then [u8 ch]
  else if ch <? 0x800 then
    [u8 (Z.lor (Z.shiftr ch 6) 0xC0); u8 (Z.lor (Z.land ch 0x3F) 0x80)]
  else if ch <? 0x10000 then
    [u8 (Z.lor (Z.shiftr ch 12) 0xE0);
     u8 (Z.lor (Z.land (Z.shiftr ch 6) 0x3F) 0x80);
     u8 (Z.lor (Z.land ch 0x3F) 0x80)]
  else if ch <? 0x110000 then
    [u8 (Z.lor (Z.shiftr ch 18) 0xF0);
     u8 (Z.lor (Z.land (Z.shiftr ch 12) 0x3F) 0x80);
     u8 (Z.lor (Z.land (Z.shiftr ch 6) 0x3F) 0x80);
     u8 (Z.lor (Z.land ch 0x3F) 0x80)]
  else [0xef; 0xbf; 0xbd].

(** ** Indexing *)

(** One step of [u8_offset]: the index after the character that starts at
    [i]. *)
Definition u8_offset_step (s : list Z) (i : Z) : outcome Z :=
  let! c := rd s i in
  let i := u64 (i + 1) in
  if negb (Z.land c 0x80 =? 0) then
    let i := u64 (i + 1) in
    let! c1 := rd s i in
    if isutf c1 then Ok i
    else
      let i := u64 (i + 1) in
      let! c2 := rd s i in
      if isutf c2 then Ok i else Ok (u64 (i + 1))
  else Ok i.

Fixpoint u8_offset_loop (charnum : nat) (s : list Z) (i : Z) : outcome Z :=
  match charnum with
  | O => Ok i
  | S n => let! i' := u8_offset_step s i in u8_offset_loop n s i'
  end.

Definition u8_offset (s : list Z) (charnum : nat) : outcome Z := u8_offset_loop charnum s 0.

Fixpoint u8_charnum (s : list Z) (offset : nat) : outcome Z :=
  match offset with
  | O => Ok 0
  | S n =>
      match s with
      | [] => UB
      | c :: s' =>
          omap_ok (fun k => k + (if Z.land c 0xc0 =? 0x80 then 0 else 1)) (u8_charnum s' n)
      end
  end.

(** The loop of [u8_nextchar] that reads [n] bytes. *)
Fixpoint u8_nextchar_loop (n : nat) (s : list Z) (i ch : Z) : outcome (Z * Z) :=
  match n with
  | O => Ok (ch, i)
  | S n' =>
      let! b := rd s i in
      u8_nextchar_loop n' s (u64 (i + 1)) (u32 (u32 (Z.shiftl ch 6) + b))
  end.

Definition u8_nextchar (s : list Z) (i : Z) : outcome (Z * Z) :=
  let! c0 := rd s i in
  let! sz := u8_seqlen c0 in
  let! (ch, i') := u8_nextchar_loop (Z.to_nat sz) s i 0 in
  let! off := rd offsetsFromUTF8 (sz - 1) in
  Ok (u32 (ch - off), i').

Definition u8_nextmemchar (s : list Z) (i : Z) : outcome (Z * Z) := u8_nextchar s i.

Definition u8_inc (s : list Z) (i : Z) : outcome Z :=
  let i := u64 (i + 1) in
  let! c1 := rd s i in
  if isutf c1 then Ok i
  else
    let i := u64 (i + 1) in
    let! c2 := rd s i in
    if isutf c2 then Ok i
    else
      let i := u64 (i + 1) in
      let! c3 := rd s i in
      if isutf c3 then Ok i else Ok (u64 (i + 1)).

Definition u8_dec (s : list Z) (i : Z) : outcome Z :=
  let i := u64 (i - 1) in
  let! c1 := rd s i in
  if isutf c1 then Ok i
  else
    let i := u64 (i - 1) in
    let! c2 := rd s i in
    if isutf c2 then Ok i
    else
      let i := u64 (i - 1) in
      let! c3 := rd s i in
      if isutf c3 then Ok i else Ok (u64 (i - 1)).

(** ** Validation *)

(** [u8_isvalid]: [seen] is whether [chkutf8] was reached before, which is
    what distinguishes the two final [return]s. *)
Fixpoint u8_isvalid_loop (seen : bool) (s : list Z) : Z :=
  match s with
  | [] => if seen then 2 else 1
  | byt :: p =>
      if Z.land byt 0x80 =? 0 then u8_isvalid_loop seen p
      else
        match p with
        | [] => 0
        | c1 :: p1 =>
            if 0xf4 - 0xc2 <? u32 (byt - 0xc2) then 0
            else if byt <? 0xe0 then
              if negb (Z.land c1 0xc0 =? 0x80) then 0
              else u8_isvalid_loop true p1
            else if byt <? 0xf0 then
              match p1 with
              | [] => 0
              | c2 :: p2 =>
                  if negb (Z.land c1 0xc0 =? 0x80) || negb (Z.land c2 0xc0 =? 0x80) then 0
                  else if (byt =? 0xed) && (0x9f <? c1) then 0
                  else if (byt =? 0xe0) && (c1 <? 0xa0) then 0
                  else u8_isvalid_loop true p2
              end
            else
              match p1 with
              | c2 :: c3 :: p3 =>
                  if negb (Z.land c1 0xc0 =? 0x80) || negb (Z.land c2 0xc0 =? 0x80)
                     || negb (Z.land c3 0xc0 =? 0x80) then 0
                  else if (byt =? 0xf0) && (c1 <? 0x90) then 0
                  else if (byt =? 0xf4) && (0x8f <? c1) then 0
                  else u8_isvalid_loop true p3
              | _ => 0
              end
        end
  end.

Definition u8_isvalid (s : list Z) : Z :=
  match s with
  | [] => 1
  | _ => u8_isvalid_loop false s
  end.

(** ** Column width

    [utf8proc_charwidth] is the third-party table of display widths. *)
Section Width.
Context (utf8proc_charwidth : Z -> Z).

(** [s] starts at the pointer; every iteration consumes a byte, so
    [length s] iterations reach the NUL that stops the loop. *)
Fixpoint u8_strwidth_loop (fuel : nat) (s : list Z) (tot : Z) : outcome Z :=
  match fuel with
  | O => Timeout
  | S fuel' =>
      match s with
      | [] => UB
      | sc :: s' =>
          if sc =? 0 then Ok tot
          else if sc <? 0x80 then u8_strwidth_loop fuel' s' (u64 (tot + 1))
          else if negb (isutf sc) then u8_strwidth_loop fuel' s' (u64 (tot + 1))
          else
            let! nb := rd trailingBytesForUTF8 (u8 sc) in
            let! (ch, s2) := u8_switch (Z.to_nat nb) 0 s in
            let! off := rd offsetsFromUTF8 nb in
            u8_strwidth_loop fuel' s2 (u64 (tot + utf8proc_charwidth (u32 (ch - off))))
      end
  end.

Definition u8_strwidth (s : list Z) : outcome Z := u8_strwidth_loop (length s) s 0.
End Width.

(** ** Escape sequences *)

Definition octal_digit (c : Z) : bool := (0x30 <=? c) && (c <=? 0x37).

Definition hex_digit (c : Z) : bool :=
  ((0x30 <=? c) && (c <=? 0x39)) || ((0x41 <=? c) && (c <=? 0x46))
  || ((0x61 <=? c) && (c <=? 0x66)).

Definition read_escape_control_char (c : Z) : Z :=
  if c =? 0x6E then 0x0A            (* n *)
  else if c =? 0x74 then 0x09       (* t *)
  else if c =? 0x72 then 0x0D       (* r *)
  else if c =? 0x65 then 0x1B       (* e *)
  else if c =? 0x62 then 0x08       (* b *)
  else if c =? 0x66 then 0x0C       (* f *)
  else if c =? 0x76 then 0x0B       (* v *)
  else if c =? 0x61 then 0x07       (* a *)
  else c.

(** The conversion of a [char] (signed on the supported targets) to
    [uint32_t]. *)
Definition char_to_u32 (c : Z) : Z := if c <? 0x80 then c else u32 (c - 256).

Definition digit_val (c : Z) : Z :=
  if c <=? 0x39 then c - 0x30 else if c <=? 0x46 then c - 0x41 + 10 else c - 0x61 + 10.

(** [strtol] of a string made of digits only. *)
Definition strtol (base : Z) (digs : list Z) : Z :=
  fold_left (fun acc d => acc * base + digit_val d) digs 0.

(** [while (i<ssz && p(str[i]) && dno<n) digs[dno++] = str[i++]] *)
Fixpoint take_digits (p : Z -> bool) (n : nat) (str : list Z) : list Z :=
  match n, str with
  | S n', c :: str' => if p c then c :: take_digits p n' str' else []
  | _, _ => []
  end.

(** [str] is the input after the backslash, [ssz] its length.  The result is
    [None] for the error return 0, and otherwise the number of characters
    processed with the value stored in [*dest]. *)
Definition u8_read_escape_sequence (str : list Z) : outcome (option (Z * Z)) :=
  match str with
  | [] => UB
  | c0 :: str1 =>
      if octal_digit c0 then
        let digs := c0 :: take_digits octal_digit 2 str1 in
        Ok (Some (Z.of_nat (length digs), u32 (strtol 8 digs)))
      else if (c0 =? 0x78) || (c0 =? 0x75) || (c0 =? 0x55) then
        let ndig := if c0 =? 0x78 then 2%nat else if c0 =? 0x75 then 4%nat else 8%nat in
        let digs := take_digits hex_digit ndig str1 in
        if (length digs =? 0)%nat then Ok None
        else Ok (Some (1 + Z.of_nat (length digs), u32 (strtol 16 digs)))
      else Ok (Some (1, char_to_u32 (read_escape_control_char c0)))
  end.

Definition hexdig (v : Z) : Z := if v <? 10 then 0x30 + v else 0x61 + (v - 10).

(** [%.<n>x] of a value below [16^n]. *)
Fixpoint hexn (n : nat) (v : Z) : list Z :=
  match n with
  | O => []
  | S n' => hexn n' (v / 16) ++ [hexdig (v mod 16)]
  end.

(** [snprintf] of the text [full] into a buffer of [sz] bytes: what is stored
    before the NUL, and the returned length of the untruncated text. *)
Definition snprintf (sz : nat) (full : list Z) : list Z * Z :=
  (take (sz - 1) full, Z.of_nat (length full)).

Definition buf_put2c (src : list Z) : list Z * Z := (take 2 src, 2).

(** What [u8_escape_wchar] stores before the NUL, and the count it returns. *)
Definition escape_wchar_text (sz : nat) (ch : Z) : list Z * Z :=
  if ch =? 0x0A then buf_put2c [0x5C; 0x6E]
  else if ch =? 0x09 then buf_put2c [0x5C; 0x74]
  else if ch =? 0x0D then buf_put2c [0x5C; 0x72]
  else if ch =? 0x1B then buf_put2c [0x5C; 0x65]
  else if ch =? 0x08 then buf_put2c [0x5C; 0x62]
  else if ch =? 0x0C then buf_put2c [0x5C; 0x66]
  else if ch =? 0x0B then buf_put2c [0x5C; 0x76]
  else if ch =? 0x07 then buf_put2c [0x5C; 0x61]
  else if ch =? 0x5C then buf_put2c [0x5C; 0x5C]
  else if (ch <? 32) || (ch =? 0x7f) then
    snprintf sz ([0x5C; 0x78] ++ hexn 2 (u8 ch))
  else if 0xFFFF <? ch then
    snprintf sz ([0x5C; 0x55] ++ hexn 8 (u32 ch))
  else if 0x80 <=? ch then
    snprintf sz ([0x5C; 0x75] ++ hexn 4 (u16 ch))
  else ([u8 ch], 1).

Definition u8_escape_wchar (sz : nat) (ch : Z) : outcome (list Z * Z) :=
  if (sz <=? 2)%nat then UB else Ok (escape_wchar_text sz ch).

(** [strchr(escapes, c) != NULL]: the terminating NUL is part of the string. *)
Definition strchr (escapes : list Z) (c : Z) : bool :=
  existsb (Z.eqb c) (escapes ++ [0]).

Section Escape.
(** The C library's (locale dependent) classification. *)
Context (iswprint : Z -> bool).

(** [do { *buf++ = src[i++]; } while (!isutf(src[i]))] *)
Fixpoint u8_escape_copy (fuel : nat) (src : list Z) (i : Z) : outcome (list Z * Z) :=
  match fuel with
  | O => Timeout
  | S fuel' =>
      let! b := rd src i in
      let i := u64 (i + 1) in
      let! c := rd src i in
      if isutf c then Ok ([b], i)
      else
        let! (rest, i') := u8_escape_copy fuel' src i in
        Ok (b :: rest, i')
  end.

(** [n] is [buf - start]; the result is what is stored, the NUL included,
    and the index written back to [*pi]. *)
Fixpoint u8_escape_loop (fuel : nat) (sz n : Z) (src : list Z) (i iend : Z)
    (escapes : option (list Z)) (ascii : bool) : outcome (list Z * Z) :=
  match fuel with
  | O => Timeout
  | S fuel' =>
      if (i <? iend) && (n <? sz - 11) then
        let! c := rd src i in
        if (c =? 0x5C) || match escapes with Some e => strchr e c | None => false end then
          let! (rest, i') :=
            u8_escape_loop fuel' sz (n + 2) src (u64 (i + 1)) iend escapes ascii in
          Ok ([0x5C; c] ++ rest, i')
        else
          let! (ch, i1) := u8_nextmemchar src i in
          if ascii || negb (iswprint ch) then
            let! (out, k) := u8_escape_wchar (Z.to_nat (sz - n)) ch in
            let! (rest, i') := u8_escape_loop fuel' sz (n + k) src i1 iend escapes ascii in
            Ok (out ++ rest, i')
          else
            let! (out, i1) := u8_escape_copy (length src) src i in
            let! (rest, i') :=
              u8_escape_loop fuel' sz (n + Z.of_nat (length out)) src i1 iend escapes ascii in
            Ok (out ++ rest, i')
      else Ok ([0], i)
  end.

Definition u8_escape (sz : Z) (src : list Z) (i iend : Z)
    (escapes : option (list Z)) (ascii : bool) : outcome (list Z * Z) :=
  if sz <=? 11 then UB
  else u8_escape_loop (S (Z.to_nat (iend - i))) sz 0 src i iend escapes ascii.
End Escape.

(** ** Searching *)

(** The tail of [u8_memchr]'s inner [do]/[while]. *)
Fixpoint u8_memchr_cont (s : list Z) (c csz : Z) : Z * Z * list Z :=
  match s with
  | b :: s' =>
      if isutf b then (c, csz, s)
      else u8_memchr_cont s' (u32 (u32 (Z.shiftl c 6) + b)) (csz + 1)
  | [] => (c, csz, [])
  end.

(** [s] is the buffer from [lasti] on.  The result is the index of the match
    (or [None]) and [*charn]. *)
Fixpoint u8_memchr_loop (fuel : nat) (s : list Z) (ch lasti charn : Z)
    : outcome (option Z * Z) :=
  match fuel with
  | O => Timeout
  | S fuel' =>
      match s with
      | [] => Ok (None, charn)
      | b :: s' =>
          let '(c, csz, rest) := u8_memchr_cont s' (u32 b) 1 in
          let! off := rd offsetsFromUTF8 (csz - 1) in
          if u32 (c - off) =? ch then Ok (Some lasti, charn)
          else u8_memchr_loop fuel' rest ch (lasti + csz) (charn + 1)
      end
  end.

Definition u8_memchr (s : list Z) (ch : Z) : outcome (option Z * Z) :=
  u8_memchr_loop (S (length s)) s ch 0 0.

(** [while (i && !isutf(s[i])) i--] *)
Fixpoint u8_memrchr_align (fuel : nat) (s : list Z) (i : Z) : outcome Z :=
  match fuel with
  | O => Timeout
  | S fuel' =>
      if i =? 0 then Ok i
      else
        let! c := rd s i in
        if isutf c then Ok i else u8_memrchr_align fuel' s (u64 (i - 1))
  end.

Fixpoint u8_memrchr_loop (fuel : nat) (s : list Z) (ch i : Z) : outcome (option Z) :=
  match fuel with
  | O => Timeout
  | S fuel' =>
      let! (c, _) := u8_nextmemchar s i in
      if c =? ch then Ok (Some i)
      else if i =? 0 then Ok None
      else
        let! i' := u8_dec s i in
        if i <? i' then Ok None else u8_memrchr_loop fuel' s ch i'
  end.

Definition u8_memrchr (s : list Z) (ch : Z) : outcome (option Z) :=
  let sz := Z.of_nat (length s) in
  if sz =? 0 then Ok None
  else
    let! i := u8_memrchr_align (length s) s (u64 (sz - 1)) in
    u8_memrchr_loop (length s) s ch i.
