(* ===== verification/Utf8Facts.v ===== *)
(** * Theorems about the UTF-8 support

    The reference notion is the encoding of a list of Unicode scalar values:
    validation accepts exactly those byte strings, and the converters, the
    index functions, the searches and the escapes agree with it. *)

From stdpp Require Import base sets list numbers option.
From Stdlib Require Import ZArith Lia.
From S2P Require Import Prelude Utf8.

(** ** Reference encoding *)

(** Unicode scalar values: code points that are not surrogates. *)
Definition scalar (c : Z) : Prop := 0 <= c < 0xD800 \/ 0xE000 <= c < 0x110000.

#[global] Instance scalar_dec c : Decision (scalar c).
Proof. unfold scalar. apply _. Defined.

Definition encode (cs : list Z) : list Z := concat (map u8_wc_toutf8 cs).

Definition wf_utf8 (s : list Z) : Prop := exists cs, Forall scalar cs /\ s = encode cs.

(** ** The encoding in arithmetic form *)

Lemma lor_C0 x : 0 <= x < 0x20 -> Z.lor x 0xC0 = 0xC0 + x.
Proof.
  intros H. apply Z.eqb_eq.
  exact (all_below_spec 0x20 (fun x => Z.lor x 0xC0 =? 0xC0 + x) eq_refl x H).
Qed.

Lemma lor_E0 x : 0 <= x < 0x10 -> Z.lor x 0xE0 = 0xE0 + x.
Proof.
  intros H. apply Z.eqb_eq.
  exact (all_below_spec 0x10 (fun x => Z.lor x 0xE0 =? 0xE0 + x) eq_refl x H).
Qed.

Lemma lor_F0 x : 0 <= x < 8 -> Z.lor x 0xF0 = 0xF0 + x.
Proof.
  intros H. apply Z.eqb_eq.
  exact (all_below_spec 8 (fun x => Z.lor x 0xF0 =? 0xF0 + x) eq_refl x H).
Qed.

Lemma lor_80 x : 0 <= x < 0x40 -> Z.lor x 0x80 = 0x80 + x.
Proof.
  intros H. apply Z.eqb_eq.
  exact (all_below_spec 0x40 (fun x => Z.lor x 0x80 =? 0x80 + x) eq_refl x H).
Qed.

Lemma land_C0_80 c : is_byte c -> (Z.land c 0xc0 =? 0x80) = (0x80 <=? c) && (c <? 0xC0).
Proof.
  intros H. apply eqb_prop.
  exact (all_below_spec 256
    (fun c => eqb (Z.land c 0xc0 =? 0x80) ((0x80 <=? c) && (c <? 0xC0))) eq_refl c H).
Qed.

Lemma land_80 c : is_byte c -> (Z.land c 0x80 =? 0) = (c <? 0x80).
Proof.
  intros H. apply eqb_prop.
  exact (all_below_spec 256 (fun c => eqb (Z.land c 0x80 =? 0) (c <? 0x80)) eq_refl c H).
Qed.

Lemma isutf_spec c : is_byte c -> isutf c = (c <? 0x80) || (0xC0 <=? c).
Proof.
  intros H. unfold isutf. rewrite (land_C0_80 c H).
  destruct (Z.leb_spec 0x80 c), (Z.ltb_spec c 0xC0), (Z.ltb_spec c 0x80), (Z.leb_spec 0xC0 c);
    try lia; done.
Qed.

Lemma trailing_spec c :
  is_byte c ->
  rd trailingBytesForUTF8 (u8 c) =
  Ok (if c <? 0xC0 then 0 else if c <? 0xE0 then 1 else if c <? 0xF0 then 2
      else if c <? 0xF8 then 3 else if c <? 0xFC then 4 else 5).
Proof.
  intros H.
  pose proof (all_below_spec 256 (fun c => bool_decide (rd trailingBytesForUTF8 (u8 c) =
  Ok (if c <? 0xC0 then 0 else if c <? 0xE0 then 1 else if c <? 0xF0 then 2
      else if c <? 0xF8 then 3 else if c <? 0xFC then 4 else 5))) eq_refl c H) as E.
  by apply bool_decide_eq_true in E.
Qed.

(** The four shapes of an encoded code point. *)
Inductive enc_view (c : Z) : list Z -> Prop :=
| EV1 : 0 <= c < 0x80 -> enc_view c [c]
| EV2 a b :
    c = a * 64 + b -> 2 <= a < 0x20 -> 0 <= b < 64 -> enc_view c [0xC0 + a; 0x80 + b]
| EV3 a b d :
    c = (a * 64 + b) * 64 + d -> 0 <= a < 0x10 -> 0 <= b < 64 -> 0 <= d < 64 ->
    0x800 <= c -> enc_view c [0xE0 + a; 0x80 + b; 0x80 + d]
| EV4 a b d e :
    c = ((a * 64 + b) * 64 + d) * 64 + e -> 0 <= a < 5 -> 0 <= b < 64 -> 0 <= d < 64 ->
    0 <= e < 64 -> 0x10000 <= c < 0x110000 ->
    enc_view c [0xF0 + a; 0x80 + b; 0x80 + d; 0x80 + e].

Lemma enc_view_intro c : 0 <= c < 0x110000 -> enc_view c (u8_wc_toutf8 c).
Proof.
  intros H. unfold u8_wc_toutf8.
  destruct (Z.ltb_spec c 0x80).
  { rewrite u8_small by lia. constructor. lia. }
  destruct (Z.ltb_spec c 0x800).
  { rewrite !land_0x3f, !shiftr_pow by lia. change (2 ^ 6) with 64.
    rewrite lor_C0, lor_80, !u8_small by dlia. apply EV2; dlia. }
  destruct (Z.ltb_spec c 0x10000).
  { rewrite !land_0x3f, !shiftr_pow by lia. change (2 ^ 6) with 64. change (2 ^ 12) with 4096.
    rewrite lor_E0, !lor_80, !u8_small by dlia. apply EV3; dlia. }
  destruct (Z.ltb_spec c 0x110000); [| lia].
  rewrite !land_0x3f, !shiftr_pow by lia.
  change (2 ^ 6) with 64. change (2 ^ 12) with 4096. change (2 ^ 18) with 262144.
  rewrite lor_F0, !lor_80, !u8_small by dlia. apply EV4; dlia.
Qed.

Lemma enc_view_det c l : enc_view c l -> u8_wc_toutf8 c = l.
Proof.
  intros V.
  assert (H : 0 <= c < 0x110000) by (inversion V; lia).
  pose proof (enc_view_intro c H) as W.
  inversion V; inversion W; subst; try lia; repeat (f_equal; try lia).
Qed.

Lemma scalar_range c : scalar c -> 0 <= c < 0x110000.
Proof. unfold scalar. lia. Qed.

Lemma encode_cons c cs : encode (c :: cs) = u8_wc_toutf8 c ++ encode cs.
Proof. done. Qed.

Lemma encode_app cs ds : encode (cs ++ ds) = encode cs ++ encode ds.
Proof. apply concat_map_app. Qed.

Lemma enc_bytes c : scalar c -> Forall is_byte (u8_wc_toutf8 c).
Proof.
  intros H%scalar_range%enc_view_intro.
  inversion H; subst; repeat constructor; unfold is_byte; lia.
Qed.

Lemma encode_bytes cs : Forall scalar cs -> Forall is_byte (encode cs).
Proof.
  induction 1; [constructor |]. rewrite encode_cons. apply Forall_app_2; auto using enc_bytes.
Qed.

(** ** Validation *)

Lemma byte_Forall_cons b s : Forall is_byte (b :: s) -> is_byte b /\ Forall is_byte s.
Proof. apply Forall_cons_1. Qed.

(** Splits the byte hypotheses and turns the bit tests into comparisons. *)
Ltac bytes :=
  repeat match goal with
  | H : Forall is_byte (_ :: _) |- _ => apply byte_Forall_cons in H; destruct H
  end;
  repeat match goal with
  | H : is_byte ?c |- context [Z.land ?c 0xc0 =? 0x80] => rewrite (land_C0_80 c H)
  | H : is_byte ?c |- context [Z.land ?c 0x80 =? 0] => rewrite (land_80 c H)
  end;
  repeat match goal with H : is_byte _ |- _ => unfold is_byte in H end.

Lemma wf_utf8_cons c s l : scalar c -> enc_view c l -> wf_utf8 s -> wf_utf8 (l ++ s).
Proof.
  intros Hc Hv (cs & Hcs & ->). exists (c :: cs).
  rewrite encode_cons, (enc_view_det c l Hv). split; [by constructor | done].
Qed.

(** Two, three and four byte sequences, from the bytes. *)
Lemma enc_view_2 b0 b1 :
  0xC2 <= b0 < 0xE0 -> 0x80 <= b1 < 0xC0 ->
  enc_view ((b0 - 0xC0) * 64 + (b1 - 0x80)) [b0; b1].
Proof.
  intros. replace [b0; b1] with [0xC0 + (b0 - 0xC0); 0x80 + (b1 - 0x80)]
    by (repeat f_equal; lia).
  apply EV2; lia.
Qed.

Lemma enc_view_3 b0 b1 b2 :
  0xE0 <= b0 < 0xF0 -> 0x80 <= b1 < 0xC0 -> 0x80 <= b2 < 0xC0 ->
  (b0 = 0xE0 -> 0xA0 <= b1) ->
  enc_view (((b0 - 0xE0) * 64 + (b1 - 0x80)) * 64 + (b2 - 0x80)) [b0; b1; b2].
Proof.
  intros. replace [b0; b1; b2] with [0xE0 + (b0 - 0xE0); 0x80 + (b1 - 0x80); 0x80 + (b2 - 0x80)]
    by (repeat f_equal; lia).
  apply EV3; lia.
Qed.

Lemma enc_view_4 b0 b1 b2 b3 :
  0xF0 <= b0 < 0xF5 -> 0x80 <= b1 < 0xC0 -> 0x80 <= b2 < 0xC0 -> 0x80 <= b3 < 0xC0 ->
  (b0 = 0xF0 -> 0x90 <= b1) -> (b0 = 0xF4 -> b1 < 0x90) ->
  enc_view ((((b0 - 0xF0) * 64 + (b1 - 0x80)) * 64 + (b2 - 0x80)) * 64 + (b3 - 0x80))
           [b0; b1; b2; b3].
Proof.
  intros. replace [b0; b1; b2; b3]
    with [0xF0 + (b0 - 0xF0); 0x80 + (b1 - 0x80); 0x80 + (b2 - 0x80); 0x80 + (b3 - 0x80)]
    by (repeat f_equal; lia).
  apply EV4; lia.
Qed.

(** What one round of the validator establishes about the first bytes. *)
Lemma u8_isvalid_loop_step seen byt p :
  Forall is_byte (byt :: p) -> u8_isvalid_loop seen (byt :: p) <> 0 ->
  exists c l p',
    byt :: p = l ++ p' /\ scalar c /\ enc_view c l /\
    u8_isvalid_loop seen (byt :: p) = u8_isvalid_loop (seen || (0x80 <=? byt)) p'.
Proof.
  intros Hs Hv. revert Hv. cbn [u8_isvalid_loop]. unfold u32. bytes.
  zcase; [intros _; exists byt, [byt], p; split_and!; [done | unfold scalar; lia | apply EV1; lia |];
          zcase; [lia | done] |].
  destruct p as [| c1 p1]; [done |]. bytes.
  destruct (Z.ltb_spec (0xf4 - 0xc2) ((byt - 0xc2) mod 2 ^ 32)) as [|Hlead]; [done |].
  assert (0xc2 <= byt <= 0xf4) by dlia. clear Hlead.
  replace (seen || (0x80 <=? byt)) with true by (zcase; [done | lia]).
  zcase.
  - repeat (zcase; try lia); try done. intros _.
    exists ((byt - 0xC0) * 64 + (c1 - 0x80)), [byt; c1], p1.
    split_and!; [done | unfold scalar; lia | apply enc_view_2; lia | done].
  - destruct (Z.ltb_spec byt 0xf0).
    + destruct p1 as [| c2 p2]; [done |]. bytes.
      repeat (zcase; try lia); try done; intros _; eexists _, [byt; c1; c2], p2;
        (split_and!; [done | | apply enc_view_3; lia | done]); unfold scalar; lia.
    + destruct p1 as [| c2 [| c3 p3]]; [done | done |]. bytes.
      repeat (zcase; try lia); try done; intros _; eexists _, [byt; c1; c2; c3], p3;
        (split_and!; [done | | apply enc_view_4; lia | done]); unfold scalar; lia.
Qed.

Lemma u8_isvalid_loop_sound s :
  forall seen, Forall is_byte s -> u8_isvalid_loop seen s <> 0 -> wf_utf8 s.
Proof.
  induction s as [s IH] using strong_list_ind. intros seen Hs Hv.
  destruct s as [| byt p]; [by exists [] |].
  destruct (u8_isvalid_loop_step seen byt p Hs Hv) as (c & l & p' & E & Hc & V & Hr).
  rewrite E in Hs |- *. rewrite Hr in Hv. apply Forall_app in Hs as [_ Hp].
  apply (wf_utf8_cons c); [done | done |].
  eapply IH; [| done | exact Hv].
  rewrite E, length_app. inversion V; cbn; lia.
Qed.

(** Destructs the encoding of the scalar value [c] into its byte patterns. *)
Ltac enc_cases c Hc :=
  let V := fresh "V" in
  pose proof (enc_view_intro c (scalar_range c Hc)) as V;
  inversion V as [? E1 | a b ? ? ? E1 | a b d ? ? ? ? ? E1 | a b d e ? ? ? ? ? ? E1];
  clear V; try rewrite <- E1.

Lemma u8_isvalid_loop_enc seen c s :
  scalar c ->
  u8_isvalid_loop seen (u8_wc_toutf8 c ++ s) = u8_isvalid_loop (seen || (0x80 <=? c)) s.
Proof.
  intros Hc. unfold scalar in Hc.
  enc_cases c Hc; cbn [u8_isvalid_loop app]; unfold u32;
    rewrite ?land_80, ?land_C0_80 by (unfold is_byte; lia);
    repeat (zcase; try dlia); done.
Qed.

Lemma u8_isvalid_loop_encode cs : forall seen,
  Forall scalar cs ->
  u8_isvalid_loop seen (encode cs) = if seen || existsb (Z.leb 0x80) cs then 2 else 1.
Proof.
  induction cs as [| c cs IH]; intros seen Hs; cbn [existsb].
  - by rewrite orb_false_r.
  - apply Forall_cons_1 in Hs as [Hc Hs].
    by rewrite encode_cons, u8_isvalid_loop_enc, IH, orb_assoc.
Qed.

Lemma u8_isvalid_unfold s : u8_isvalid s = u8_isvalid_loop false s.
Proof. by destruct s. Qed.

Lemma enc_ascii c : scalar c -> (Forall (fun b => b < 0x80) (u8_wc_toutf8 c) <-> c < 0x80).
Proof.
  intros Hc. enc_cases c Hc; split; intros; try lia; repeat constructor; try done;
    repeat match goal with H : Forall _ (_ :: _) |- _ => apply Forall_cons_1 in H as [? ?] end;
    lia.
Qed.

Lemma encode_ascii cs :
  Forall scalar cs ->
  (Forall (fun b => b < 0x80) (encode cs) <-> existsb (Z.leb 0x80) cs = false).
Proof.
  induction 1 as [| c cs Hc Hs IH]; [done |].
  rewrite encode_cons, Forall_app, enc_ascii, IH by done. cbn [existsb].
  destruct (Z.leb_spec 0x80 c); cbn [orb]; intuition (try lia; try done).
Qed.

Lemma ascii_wf s : Forall is_byte s -> Forall (fun b => b < 0x80) s -> wf_utf8 s.
Proof.
  intros Hb. induction Hb as [| x s Hx Hs IH]; intros Ha; [by exists [] |].
  apply Forall_cons_1 in Ha as [Hx' Ha]. unfold is_byte in Hx.
  apply (wf_utf8_cons x s [x]); [unfold scalar; lia | apply EV1; lia | auto].
Qed.

(** C21: [u8_isvalid] classifies every byte string: it returns 1 exactly on
    pure ASCII, 2 exactly on the UTF-8 encodings of lists of Unicode scalar
    values that are not pure ASCII, and 0 exactly on everything else; overlong
    forms, surrogates, values above U+10FFFF, stray and missing continuation
    bytes are all rejected. *)
Theorem u8_isvalid_correct s :
  Forall is_byte s ->
  (u8_isvalid s = 1 <-> Forall (fun b => b < 0x80) s) /\
  (u8_isvalid s = 2 <-> wf_utf8 s /\ ~ Forall (fun b => b < 0x80) s) /\
  (u8_isvalid s = 0 <-> ~ wf_utf8 s).
Proof.
  intros Hs. rewrite u8_isvalid_unfold.
  assert (Hwf : forall cs, Forall scalar cs -> s = encode cs ->
    u8_isvalid_loop false s = if existsb (Z.leb 0x80) cs then 2 else 1).
  { intros cs Hcs ->. by rewrite u8_isvalid_loop_encode. }
  destruct (Z.eq_dec (u8_isvalid_loop false s) 0) as [E | E].
  - assert (~ wf_utf8 s).
    { intros (cs & Hcs & Ecs). rewrite (Hwf cs Hcs Ecs) in E. by destruct (existsb _ _). }
    pose proof (ascii_wf s Hs). rewrite E. intuition lia || tauto.
  - destruct (u8_isvalid_loop_sound s false Hs E) as (cs & Hcs & Ecs).
    assert (wf_utf8 s) by (by exists cs).
    pose proof (encode_ascii cs Hcs) as Ha. rewrite <- Ecs in Ha.
    rewrite (Hwf cs Hcs Ecs). destruct (existsb _ _); intuition congruence.
Qed.

Lemma u8_isvalid_correct_witness :
  u8_isvalid [0xE2; 0x82; 0xAC] = 2 /\ wf_utf8 [0xE2; 0x82; 0xAC].
Proof.
  assert (H : u8_isvalid [0xE2; 0x82; 0xAC] = 2) by reflexivity.
  split; [exact H |].
  apply (u8_isvalid_correct [0xE2; 0x82; 0xAC]); [| exact H].
  repeat constructor; unfold is_byte; lia.
Defined.

(** ** Decoding *)

Definition is_cont (b : Z) : Prop := 0x80 <= b < 0xC0.

Lemma is_cont_isutf b : is_cont b -> isutf b = false.
Proof.
  unfold is_cont. intros H. rewrite isutf_spec by (unfold is_byte; lia).
  repeat (zcase; try lia); done.
Qed.

(** The lead byte of an encoding announces its length, and the other bytes are
    continuation bytes. *)
Lemma enc_shape c :
  scalar c ->
  exists b0 l,
    u8_wc_toutf8 c = b0 :: l /\ is_byte b0 /\ isutf b0 = true /\ Forall is_cont l /\
    rd trailingBytesForUTF8 (u8 b0) = Ok (Z.of_nat (length l)) /\
    (length l <= 3)%nat /\ (b0 < 0x80 <-> l = []).
Proof.
  intros Hc. enc_cases c Hc; eexists _, _; (split; [reflexivity |]);
    rewrite isutf_spec, trailing_spec by (unfold is_byte; lia);
    (split_and!; [unfold is_byte; lia | repeat (zcase; try lia); done
                 | repeat constructor; unfold is_cont; lia
                 | repeat (zcase; try lia); done | cbn; lia
                 | split; intros; (done || lia)]).
Qed.

(** Both accumulation loops compute the code point plus its table offset. *)
Lemma u8_switch_enc c b0 l s :
  scalar c -> u8_wc_toutf8 c = b0 :: l ->
  exists ch off,
    u8_switch (length l) 0 (b0 :: l ++ s) = Ok (ch, s) /\
    rd offsetsFromUTF8 (Z.of_nat (length l)) = Ok off /\ u32 (ch - off) = c.
Proof.
  intros Hc E. enc_cases c Hc; rewrite <- E1 in E; injection E as <- <-;
    cbn [length app u8_switch]; eexists _, _; (split; [reflexivity |]); (split; [reflexivity |]);
    rewrite ?shiftl_pow by lia; unfold u32; dlia.
Qed.

Lemma u8_toucs_loop_enc n c s rem :
  scalar c -> Z.of_nat (length (u8_wc_toutf8 c)) <= rem ->
  u8_toucs_loop (S n) (u8_wc_toutf8 c ++ s) rem =
  omap_ok (cons c) (u8_toucs_loop n s (rem - Z.of_nat (length (u8_wc_toutf8 c)))).
Proof.
  intros Hc Hrem. destruct (enc_shape c Hc) as (b0 & l & E & Hb & Hu & _ & Ht & _).
  destruct (u8_switch_enc c b0 l s Hc E) as (ch & off & Hsw & Ho & Hv).
  rewrite E in *. cbn [app u8_toucs_loop length] in *. rewrite Hu, Ht. cbn [negb obind].
  destruct (Z.leb_spec (rem - Z.of_nat (length l)) 0); [lia |].
  rewrite Nat2Z.id, Hsw. cbn [obind]. rewrite Ho. cbn [obind]. rewrite Hv.
  do 2 f_equal. lia.
Qed.

Lemma encode_length_ge cs : Forall scalar cs -> (length cs <= length (encode cs))%nat.
Proof.
  induction 1 as [| c cs Hc Hs IH]; [done |]. rewrite encode_cons, length_app.
  destruct (enc_shape c Hc) as (b0 & l & -> & _). cbn. lia.
Qed.

Lemma u8_toucs_loop_encode cs : forall n tl,
  Forall scalar cs -> (length cs < n)%nat ->
  u8_toucs_loop n (encode cs ++ 0 :: tl) (Z.of_nat (length (encode cs))) = Ok cs.
Proof.
  induction cs as [| c cs IH]; intros n tl Hs Hn; (destruct n as [| n]; [cbn in Hn; lia |]).
  - done.
  - apply Forall_cons_1 in Hs as [Hc Hs]. rewrite encode_cons, <- app_assoc.
    rewrite u8_toucs_loop_enc by (done || (rewrite length_app; lia)).
    rewrite length_app.
    replace (Z.of_nat _ - _) with (Z.of_nat (length (encode cs))) by lia.
    rewrite IH by (done || (cbn in Hn; lia)). done.
Qed.

Lemma u8_toutf8_encode cs : forall room,
  Forall scalar cs -> Z.of_nat (length (encode cs)) <= room -> u8_toutf8 room cs = encode cs.
Proof.
  induction cs as [| c cs IH]; intros room Hs Hr; [done |].
  apply Forall_cons_1 in Hs as [Hc Hs]. apply scalar_range in Hc.
  rewrite encode_cons in *. rewrite length_app in Hr. revert Hr.
  unfold u8_wc_toutf8. cbn [u8_toutf8].
  repeat (zcase; try lia; cbn [length app]); intros Hr; try lia; repeat f_equal; rewrite IH by (done || lia); done.
Qed.

(** encoding a list of scalar values with [u8_toutf8] into a buffer with
    room for it and decoding the NUL terminated result with [u8_toucs] gives
    the list back, for every destination size that leaves one spare slot. *)
Theorem u8_toucs_toutf8_roundtrip cs room sz tl :
  Forall scalar cs -> Z.of_nat (length (encode cs)) <= room -> (length cs < sz)%nat ->
  u8_toucs sz (u8_toutf8 room cs ++ 0 :: tl) (Z.of_nat (length (u8_toutf8 room cs))) = Ok cs.
Proof.
  intros Hs Hr Hn. rewrite u8_toutf8_encode by done. unfold u8_toucs.
  destruct (Z.eqb_spec (Z.of_nat sz) 0); [lia |]. cbn [orb].
  destruct (Z.eqb_spec (Z.of_nat (length (encode cs))) 0) as [E |].
  - pose proof (encode_length_ge cs Hs). destruct cs; [done | cbn in *; lia].
  - by apply u8_toucs_loop_encode.
Qed.

Lemma u8_toucs_toutf8_roundtrip_witness :
  u8_toucs 5 (u8_toutf8 16 [0x24; 0xE9; 0x20AC; 0x1F600] ++ [0])
    (Z.of_nat (length (u8_toutf8 16 [0x24; 0xE9; 0x20AC; 0x1F600])))
  = Ok [0x24; 0xE9; 0x20AC; 0x1F600].
Proof.
  apply (u8_toucs_toutf8_roundtrip [0x24; 0xE9; 0x20AC; 0x1F600] 16 5 []).
  - repeat constructor; unfold scalar; lia.
  - vm_compute. discriminate.
  - cbn. lia.
Defined.

(** ** Bounded output *)

Lemma u8_toutf8_cons room ch src :
  u8_toutf8 room (ch :: src) =
  if room <? Z.of_nat (length (u8_wc_toutf8 ch)) then []
  else u8_wc_toutf8 ch ++ u8_toutf8 (room - Z.of_nat (length (u8_wc_toutf8 ch))) src.
Proof.
  cbn [u8_toutf8]. unfold u8_wc_toutf8.
  repeat (zcase; cbn [length app] in *; try lia); done.
Qed.

(** C29: [u8_toutf8] never stores more than the destination holds, for any
    source (code points above U+10FFFF become U+FFFD); what it stores is the
    encoding of a prefix of the source, and the prefix is maximal: the next
    character, if there is one, does not fit. *)
Theorem u8_toutf8_bounded src : forall room,
  0 <= room ->
  exists k,
    (k <= length src)%nat /\
    u8_toutf8 room src = encode (take k src) /\
    Z.of_nat (length (u8_toutf8 room src)) <= room /\
    (forall ch, src !! k = Some ch ->
       room < Z.of_nat (length (encode (take k src))) + Z.of_nat (length (u8_wc_toutf8 ch))).
Proof.
  induction src as [| ch src IH]; intros room Hr.
  - exists 0%nat. split_and!; [done | done | done | by intros ch ?].
  - rewrite u8_toutf8_cons. destruct (Z.ltb_spec room (Z.of_nat (length (u8_wc_toutf8 ch)))).
    + exists 0%nat. split_and!; [cbn; lia | done | done |]. intros ? [= <-]. cbn. lia.
    + destruct (IH (room - Z.of_nat (length (u8_wc_toutf8 ch)))) as (k & Hk & E & Hl & Hn); [lia |].
      exists (S k). cbn [take length lookup list_lookup]. rewrite encode_cons, E, !length_app.
      rewrite E in Hl. split_and!; [lia | done | lia |].
      intros c Hc. specialize (Hn c Hc). lia.
Qed.

Lemma u8_toutf8_bounded_witness :
  exists k, (k <= 3)%nat /\ u8_toutf8 4 [0x20AC; 0x20AC; 0x41] = encode (take k [0x20AC; 0x20AC; 0x41]).
Proof.
  destruct (u8_toutf8_bounded [0x20AC; 0x20AC; 0x41] 4) as (k & Hk & E & _); [lia |].
  exists k. split; [exact Hk | exact E].
Defined.

(** ** Indexing *)

Lemma rd_mid {A} (p q : list A) k :
  0 <= k -> rd (p ++ q) (Z.of_nat (length p) + k) = rd q k.
Proof. intros. rewrite rd_app_r by lia. f_equal. lia. Qed.

Lemma rd_mid0 {A} (p q : list A) : rd (p ++ q) (Z.of_nat (length p)) = rd q 0.
Proof. rewrite rd_app_r by lia. f_equal. lia. Qed.

(** What follows a character: the lead byte of the next one or a NUL. *)
Definition starts_char (s : list Z) : Prop :=
  exists b s', s = b :: s' /\ is_byte b /\ isutf b = true.

Lemma starts_char_encode cs tl : Forall scalar cs -> starts_char (encode cs ++ 0 :: tl).
Proof.
  destruct 1 as [| c cs Hc Hs]; [by exists 0, tl |].
  destruct (enc_shape c Hc) as (b0 & l & E & Hb & Hu & _).
  exists b0, (l ++ encode cs ++ 0 :: tl). rewrite encode_cons, E. by rewrite <- app_assoc.
Qed.

Lemma rd_c0 {A} (a : A) l : rd (a :: l) 0 = Ok a.
Proof. done. Qed.
Lemma rd_c1 {A} (a b : A) l : rd (a :: b :: l) 1 = Ok b.
Proof. done. Qed.
Lemma rd_c2 {A} (a b c : A) l : rd (a :: b :: c :: l) 2 = Ok c.
Proof. done. Qed.
Lemma rd_c3 {A} (a b c d : A) l : rd (a :: b :: c :: d :: l) 3 = Ok d.
Proof. done. Qed.

(** Evaluates the reads of an index function at the character after [p]. *)
Ltac read_chars :=
  repeat first
    [ u64s | rewrite <- Z.add_assoc
    | progress change (1 + 1) with 2 | progress change (2 + 1) with 3
    | progress change (3 + 1) with 4
    | rewrite rd_mid by lia | rewrite rd_mid0
    | rewrite rd_c0 | rewrite rd_c1 | rewrite rd_c2 | rewrite rd_c3
    | progress cbn [obind app negb] ].

(** Same, deciding the tests on lead and continuation bytes on the way. *)
Ltac read_tests H :=
  repeat (read_chars; first [rewrite H | rewrite is_cont_isutf by (unfold is_cont; lia)]);
  read_chars.

Lemma u8_offset_step_enc p c s :
  scalar c -> starts_char s -> Z.of_nat (length p) + 8 < 2 ^ 64 ->
  u8_offset_step (p ++ u8_wc_toutf8 c ++ s) (Z.of_nat (length p)) =
  Ok (Z.of_nat (length p) + Z.of_nat (length (u8_wc_toutf8 c))).
Proof.
  intros Hc (b' & s' & -> & Hb' & Hu') Hlen. unfold u8_offset_step.
  enc_cases c Hc; read_chars; rewrite land_80 by (unfold is_byte; lia);
    repeat (zcase; try lia); read_tests Hu'; done.
Qed.

Lemma u8_inc_enc p c s :
  scalar c -> starts_char s -> Z.of_nat (length p) + 8 < 2 ^ 64 ->
  u8_inc (p ++ u8_wc_toutf8 c ++ s) (Z.of_nat (length p)) =
  Ok (Z.of_nat (length p) + Z.of_nat (length (u8_wc_toutf8 c))).
Proof.
  intros Hc (b' & s' & -> & Hb' & Hu') Hlen. unfold u8_inc.
  enc_cases c Hc; read_tests Hu'; done.
Qed.

Lemma u8_nextchar_enc p c s :
  scalar c -> Z.of_nat (length p) + 8 < 2 ^ 64 ->
  u8_nextchar (p ++ u8_wc_toutf8 c ++ s) (Z.of_nat (length p)) =
  Ok (c, Z.of_nat (length p) + Z.of_nat (length (u8_wc_toutf8 c))).
Proof.
  intros Hc Hlen. unfold u8_nextchar, u8_seqlen.
  enc_cases c Hc; read_chars; rewrite trailing_spec by (unfold is_byte; lia);
    repeat (zcase; try lia); cbn [obind];
    lazymatch goal with
    | |- context [Z.to_nat ?k] => let n := eval cbv in (Z.to_nat k) in change (Z.to_nat k) with n
    end;
    lazymatch goal with
    | |- context [rd offsetsFromUTF8 ?k] =>
        let o := eval cbv in (rd offsetsFromUTF8 k) in change (rd offsetsFromUTF8 k) with o
    end;
    repeat (cbn [u8_nextchar_loop]; read_chars);
    f_equal; f_equal; rewrite ?shiftl_pow by lia; unfold u32; dlia.
Qed.

Lemma u8_dec_enc p c s :
  scalar c -> Z.of_nat (length p) + 8 < 2 ^ 64 ->
  u8_dec (p ++ u8_wc_toutf8 c ++ s) (Z.of_nat (length p) + Z.of_nat (length (u8_wc_toutf8 c))) =
  Ok (Z.of_nat (length p)).
Proof.
  intros Hc Hlen. destruct (enc_shape c Hc) as (b0 & l & E & _ & Hu & Hl & _ & H3 & _).
  unfold u8_dec. rewrite E.
  destruct l as [| l1 [| l2 [| l3 [| l4 l]]]]; cbn [length] in *; try lia;
    repeat match goal with H : Forall is_cont (_ :: _) |- _ => apply Forall_cons_1 in H as [? ?] end;
    repeat (lazymatch goal with
            | |- context [Z.of_nat ?n + ?a - 1] =>
                let b := eval cbv in (a - 1) in
                replace (Z.of_nat n + a - 1) with (Z.of_nat n + b) by lia
            | _ => idtac
            end; rewrite ?Z.add_0_r;
            read_chars; rewrite ?Hu, ?is_cont_isutf by done); done.
Qed.

Lemma u8_charnum_enc c s n :
  scalar c ->
  u8_charnum (u8_wc_toutf8 c ++ s) (length (u8_wc_toutf8 c) + n) =
  omap_ok (Z.add 1) (u8_charnum s n).
Proof.
  intros Hc. enc_cases c Hc; cbn [length app u8_charnum Nat.add];
    rewrite !land_C0_80 by (unfold is_byte; lia); repeat (zcase; try lia);
    destruct (u8_charnum s n); cbn; try done; f_equal; lia.
Qed.

Lemma u8_charnum_encode cs s :
  Forall scalar cs -> u8_charnum (encode cs ++ s) (length (encode cs)) = Ok (Z.of_nat (length cs)).
Proof.
  induction 1 as [| c cs Hc Hs IH]; [by destruct s |].
  rewrite encode_cons, length_app, <- app_assoc, u8_charnum_enc, IH by done.
  cbn. f_equal. lia.
Qed.

Lemma u8_offset_loop_encode cs : forall p ds tl,
  Forall scalar cs -> Forall scalar ds ->
  Z.of_nat (length p) + Z.of_nat (length (encode (cs ++ ds))) + 8 < 2 ^ 64 ->
  u8_offset_loop (length cs) (p ++ encode (cs ++ ds) ++ 0 :: tl) (Z.of_nat (length p)) =
  Ok (Z.of_nat (length p) + Z.of_nat (length (encode cs))).
Proof.
  induction cs as [| c cs IH]; intros p ds tl Hs Hd Hlen.
  - cbn. f_equal. lia.
  - apply Forall_cons_1 in Hs as [Hc Hs]. cbn [length u8_offset_loop].
    rewrite <- app_comm_cons, encode_cons, length_app in *.
    rewrite <- app_assoc, u8_offset_step_enc;
      [| done | apply starts_char_encode; by apply Forall_app | lia].
    cbn [obind]. rewrite app_assoc, <- Nat2Z.inj_add, <- length_app.
    rewrite IH by (done || (rewrite length_app; lia)).
    f_equal. rewrite length_app, encode_cons, length_app. lia.
Qed.

(** on the encoding of a list of scalar values (followed by a NUL),
    [u8_offset] maps a character number to the byte offset where that
    character starts, reading only inside the string and its terminator, and
    [u8_charnum] maps that offset back. *)
Theorem u8_offset_charnum cs k tl :
  Forall scalar cs -> (k <= length cs)%nat ->
  Z.of_nat (length (encode cs)) + 8 < 2 ^ 64 ->
  u8_offset (encode cs ++ 0 :: tl) k = Ok (Z.of_nat (length (encode (take k cs)))) /\
  u8_charnum (encode cs ++ 0 :: tl) (length (encode (take k cs))) = Ok (Z.of_nat k).
Proof.
  intros Hs Hk Hlen. rewrite <- (take_drop k cs) in Hs, Hlen.
  apply Forall_app in Hs as [H1 H2]. rewrite <- (take_drop k cs) at 1 3. split.
  - unfold u8_offset. rewrite <- (length_take_le cs k Hk) at 1.
    exact (u8_offset_loop_encode (take k cs) [] (drop k cs) tl H1 H2 Hlen).
  - rewrite encode_app, <- app_assoc, u8_charnum_encode by done.
    rewrite length_take_le by done. done.
Qed.

Lemma u8_offset_charnum_witness :
  u8_offset (encode [0x41; 0x20AC; 0x42] ++ [0]) 2 = Ok 4 /\
  u8_charnum (encode [0x41; 0x20AC; 0x42] ++ [0]) 4 = Ok 2.
Proof.
  apply (u8_offset_charnum [0x41; 0x20AC; 0x42] 2 []);
    [repeat constructor; unfold scalar; lia | cbn; lia | vm_compute; reflexivity].
Defined.

(** stepping through an encoded string is exact: at the start of a
    character [u8_nextchar] returns that character and the start of the next
    one, [u8_inc] moves to the same place and [u8_dec] moves back. *)
Theorem u8_walk pre c post tl :
  Forall scalar (pre ++ c :: post) ->
  Z.of_nat (length (encode (pre ++ c :: post))) + 8 < 2 ^ 64 ->
  let s := encode (pre ++ c :: post) ++ 0 :: tl in
  let i := Z.of_nat (length (encode pre)) in
  let j := Z.of_nat (length (encode (pre ++ [c]))) in
  u8_nextchar s i = Ok (c, j) /\ u8_inc s i = Ok j /\ u8_dec s j = Ok i.
Proof.
  intros Hs Hlen. cbn zeta. apply Forall_app in Hs as [Hp [Hc Hq]%Forall_cons_1].
  rewrite !encode_app, encode_cons, !length_app in Hlen.
  rewrite !encode_app, !encode_cons, <- !app_assoc. rewrite length_app, app_nil_r, Nat2Z.inj_add.
  split_and!.
  - apply u8_nextchar_enc; [done | lia].
  - apply u8_inc_enc; [done | by apply starts_char_encode | lia].
  - apply u8_dec_enc; [done | lia].
Qed.

Lemma u8_walk_witness :
  u8_nextchar (encode [0x41; 0x20AC; 0x42] ++ [0]) 1 = Ok (0x20AC, 4) /\
  u8_inc (encode [0x41; 0x20AC; 0x42] ++ [0]) 1 = Ok 4 /\
  u8_dec (encode [0x41; 0x20AC; 0x42] ++ [0]) 4 = Ok 1.
Proof.
  apply (u8_walk [0x41] 0x20AC [0x42] []);
    [repeat constructor; unfold scalar; lia | vm_compute; reflexivity].
Defined.

(** ** Escapes *)

Lemma hexdig_spec v : 0 <= v < 16 -> hex_digit (hexdig v) = true /\ digit_val (hexdig v) = v.
Proof.
  intros H.
  pose proof (all_below_spec 16
    (fun v => hex_digit (hexdig v) && (digit_val (hexdig v) =? v)) eq_refl v H) as E.
  apply andb_true_iff in E as [E1 E2]. apply Z.eqb_eq in E2. done.
Qed.

Lemma hexn_length n v : length (hexn n v) = n.
Proof. revert v. induction n; intros; cbn; [done |]. rewrite length_app, IHn. cbn. lia. Qed.

Lemma hexn_digits n v : 0 <= v -> Forall (fun c => hex_digit c = true) (hexn n v).
Proof.
  revert v. induction n; intros v Hv; cbn; [constructor |].
  apply Forall_app_2; [apply IHn; dlia |]. repeat constructor. apply hexdig_spec. dlia.
Qed.

Lemma strtol_hexn n : forall v, 0 <= v < 16 ^ Z.of_nat n -> strtol 16 (hexn n v) = v.
Proof.
  induction n as [| n IH]; intros v Hv; cbn [hexn]; [cbn in *; lia |].
  unfold strtol. rewrite fold_left_app. cbn [fold_left].
  fold (strtol 16 (hexn n (v / 16))). rewrite IH.
  - destruct (hexdig_spec (v mod 16)) as [_ ->]; dlia.
  - rewrite Nat2Z.inj_succ, Z.pow_succ_r in Hv by lia. dlia.
Qed.

Lemma take_digits_all p n l tl :
  length l = n -> Forall (fun c => p c = true) l -> take_digits p n (l ++ tl) = l.
Proof.
  intros <-. induction 1 as [| c l Hc Hl IH]; [by destruct tl |].
  cbn. by rewrite Hc, IH.
Qed.

(** Reading back [\x], [\u] and [\U] followed by all their digits. *)
Lemma u8_read_escape_hex c0 n v tl :
  (c0 = 0x78 /\ n = 2%nat) \/ (c0 = 0x75 /\ n = 4%nat) \/ (c0 = 0x55 /\ n = 8%nat) ->
  0 <= v < 16 ^ Z.of_nat n ->
  u8_read_escape_sequence (c0 :: hexn n v ++ tl) = Ok (Some (1 + Z.of_nat n, v)).
Proof.
  intros Hc Hv. assert (Hb : 16 ^ Z.of_nat n <= 2 ^ 32) by (destruct Hc as [[_ ->] | [[_ ->] | [_ ->]]]; vm_compute; discriminate).
  assert (Hd : take_digits hex_digit n (hexn n v ++ tl) = hexn n v)
    by (apply take_digits_all; [apply hexn_length | apply hexn_digits; lia]).
  destruct Hc as [[-> ->] | [[-> ->] | [-> ->]]]; unfold u8_read_escape_sequence;
    cbn [octal_digit Z.leb Z.compare Pos.compare Pos.compare_cont andb Z.eqb Pos.eqb orb];
    rewrite Hd, hexn_length, strtol_hexn, u32_small by lia; done.
Qed.

(** The escape of [ch] is the character itself or a backslash form that reads
    back as [ch]. *)
Definition escapes_to (ch : Z) (out : list Z) : Prop :=
  (32 <= ch < 0x7f /\ ch <> 0x5C /\ out = [ch]) \/
  exists rest, out = 0x5C :: rest /\
    forall tl, u8_read_escape_sequence (rest ++ tl) = Ok (Some (Z.of_nat (length rest), ch)).

Lemma escapes_to_snprintf sz c0 n v :
  (c0 = 0x78 /\ n = 2%nat) \/ (c0 = 0x75 /\ n = 4%nat) \/ (c0 = 0x55 /\ n = 8%nat) ->
  0 <= v < 16 ^ Z.of_nat n -> (11 <= sz)%nat ->
  escapes_to v (fst (snprintf sz ([0x5C; c0] ++ hexn n v))) /\
  snd (snprintf sz ([0x5C; c0] ++ hexn n v)) =
    Z.of_nat (length (fst (snprintf sz ([0x5C; c0] ++ hexn n v)))) /\
  snd (snprintf sz ([0x5C; c0] ++ hexn n v)) <= 10.
Proof.
  intros Hc Hv Hsz. unfold snprintf. cbn [fst snd app].
  rewrite take_ge by (cbn [length]; rewrite hexn_length; lia).
  split_and!; [| done | cbn [length]; rewrite hexn_length; lia]. right. exists (c0 :: hexn n v). split; [done |]. intros tl.
  cbn [length]. rewrite hexn_length, <- app_comm_cons, u8_read_escape_hex by done.
  do 3 f_equal. lia.
Qed.

Lemma escape_wchar_text_spec sz ch :
  is_u32 ch -> (11 <= sz)%nat ->
  escapes_to ch (fst (escape_wchar_text sz ch)) /\
  snd (escape_wchar_text sz ch) = Z.of_nat (length (fst (escape_wchar_text sz ch))) /\
  snd (escape_wchar_text sz ch) <= 10.
Proof.
  intros Hch Hsz. unfold is_u32 in Hch. unfold escape_wchar_text.
  repeat match goal with
  | |- context [ch =? ?k] =>
      destruct (Z.eqb_spec ch k) as [-> |];
      [split_and!; [right; eexists; split; [reflexivity | done] | done | done] |]
  end.
  destruct (Z.ltb_spec ch 32), (Z.eqb_spec ch 0x7f); cbn [orb];
    try (rewrite u8_small by lia; apply escapes_to_snprintf; [auto | cbn; lia | done]).
  destruct (Z.ltb_spec 0xFFFF ch).
  { rewrite u32_small by lia. apply escapes_to_snprintf; [auto | cbn; lia | done]. }
  destruct (Z.leb_spec 0x80 ch).
  { rewrite u16_small by lia. apply escapes_to_snprintf; [auto | cbn; lia | done]. }
  cbn [fst snd]. rewrite u8_small by lia. split_and!; [left; split; [lia | split; [lia | done]] | done | lia].
Qed.

(** [u8_escape_wchar] and [u8_read_escape_sequence] are inverse on every
    32-bit code: the escape of [ch] is [ch] itself exactly for printable ASCII
    other than the backslash, and otherwise a backslash followed by text that
    reads back as [ch], consuming exactly that text whatever follows it; the
    returned count is the number of bytes stored, at most 10. *)
Theorem u8_escape_roundtrip sz ch :
  is_u32 ch -> (11 <= sz)%nat ->
  exists out, u8_escape_wchar sz ch = Ok (out, Z.of_nat (length out)) /\
    escapes_to ch out /\ (length out <= 10)%nat.
Proof.
  intros Hch Hsz. destruct (escape_wchar_text_spec sz ch Hch Hsz) as (H1 & H2 & H3).
  unfold u8_escape_wchar. destruct (Nat.leb_spec sz 2); [lia |].
  destruct (escape_wchar_text sz ch) as [out k]. cbn [fst snd] in *. subst k.
  exists out. split_and!; [done | done | lia].
Qed.

Lemma u8_escape_roundtrip_witness :
  exists out, u8_escape_wchar 16 0x1F600 = Ok (out, 10) /\ escapes_to 0x1F600 out.
Proof.
  destruct (u8_escape_roundtrip 16 0x1F600) as (out & E & H & _); [unfold is_u32; lia | lia |].
  exists out. split; [| exact H]. rewrite E. vm_compute in E. injection E as <-. reflexivity.
Defined.

Lemma u8_escape_copy_enc p c s fuel :
  scalar c -> starts_char s -> Z.of_nat (length p) + 8 < 2 ^ 64 -> (length (u8_wc_toutf8 c) <= fuel)%nat ->
  u8_escape_copy fuel (p ++ u8_wc_toutf8 c ++ s) (Z.of_nat (length p)) =
  Ok (u8_wc_toutf8 c, Z.of_nat (length p) + Z.of_nat (length (u8_wc_toutf8 c))).
Proof.
  intros Hc (b' & s' & -> & Hb' & Hu') Hlen Hf.
  enc_cases c Hc; rewrite <- E1 in *; cbn [length] in Hf;
    do 4 (try (destruct fuel as [| fuel]; [lia |])); repeat (cbn [u8_escape_copy]; read_tests Hu'); done.
Qed.

(** How [u8_escape] renders the character [c]: backslash-escaped as it is, by
    [u8_escape_wchar], or copied. *)
Definition renders (c : Z) (out : list Z) : Prop :=
  (c < 0x80 /\ out = [0x5C; c]) \/ escapes_to c out \/ out = u8_wc_toutf8 c.

Section EscapeLoop.
Context (iswprint : Z -> bool) (sz iend : Z) (escapes : option (list Z)) (ascii : bool).
Hypothesis Hesc : forall e, escapes = Some e -> Forall (fun b => 0 <= b < 0x80) e.

Lemma u8_escape_loop_enc fuel n p c s :
  scalar c -> starts_char s -> Z.of_nat (length p) + 8 < 2 ^ 64 ->
  Z.of_nat (length p) < iend -> 0 <= n < sz - 11 ->
  exists out, renders c out /\ (1 <= length out <= 10)%nat /\
    u8_escape_loop iswprint (S fuel) sz n (p ++ u8_wc_toutf8 c ++ s) (Z.of_nat (length p)) iend escapes ascii =
    (let! (rest, i') := u8_escape_loop iswprint fuel sz (n + Z.of_nat (length out)) (p ++ u8_wc_toutf8 c ++ s)
       (Z.of_nat (length p) + Z.of_nat (length (u8_wc_toutf8 c))) iend escapes ascii in
     Ok (out ++ rest, i')).
Proof using Hesc.
  intros Hc Hs Hlen Hi Hn. cbn [u8_escape_loop].
  destruct (Z.ltb_spec (Z.of_nat (length p)) iend), (Z.ltb_spec n (sz - 11)); try lia. cbn [andb].
  destruct (enc_shape c Hc) as (b0 & l & E & Hb & Hu & Hl & _ & Hl3 & Hb0).
  rewrite rd_mid0, E. cbn [app]. rewrite rd_c0. cbn [obind].
  destruct ((b0 =? 0x5C) || match escapes with Some e => strchr e b0 | None => false end) eqn:Em.
  - assert (Hb80 : b0 < 0x80).
    { destruct (Z.eqb_spec b0 0x5C) as [-> |]; [lia |]. cbn [orb] in Em.
      destruct escapes as [e |]; [| done]. unfold strchr in Em. rewrite existsb_app in Em.
      apply orb_true_iff in Em as [Em | Em].
      - apply existsb_exists in Em as (x & Hx & ->%Z.eqb_eq).
        specialize (Hesc e eq_refl). rewrite List.Forall_forall in Hesc. specialize (Hesc x Hx). lia.
      - cbn in Em. destruct (Z.eqb_spec b0 0); [lia | done]. }
    apply Hb0 in Hb80 as Hnil. subst l.
    assert (c = b0) as ->.
    { pose proof (scalar_range c Hc). revert E. unfold u8_wc_toutf8. repeat zcase; try done.
      rewrite u8_small by lia. congruence. }
    exists [0x5C; b0]. split; [left; done |]. split; [cbn; lia |]. cbn [length app].
    by u64s.
  - unfold u8_nextmemchar. pose proof (u8_nextchar_enc p c s Hc Hlen) as Hnx.
    rewrite E in Hnx. cbn [app] in Hnx. rewrite Hnx. cbn [obind].
    destruct (ascii || negb (iswprint c)).
    + pose proof (scalar_range c Hc).
      destruct (escape_wchar_text_spec (Z.to_nat (sz - n)) c) as (Ht1 & Ht2 & Ht3);
        [unfold is_u32; lia | lia |].
      unfold u8_escape_wchar. destruct (Nat.leb_spec (Z.to_nat (sz - n)) 2); [lia |].
      destruct (escape_wchar_text (Z.to_nat (sz - n)) c) as [out k]. cbn [fst snd obind] in *. subst k.
      exists out. split; [right; by left |]. split; [| done]. split; [| lia].
      destruct Ht1 as [(_ & _ & ->) | (r & -> & _)]; cbn; lia.
    + pose proof (u8_escape_copy_enc p c s (length (p ++ b0 :: l ++ s)) Hc Hs Hlen) as Hcp.
      rewrite E in Hcp. cbn [app] in Hcp. rewrite Hcp by (rewrite length_app; cbn; rewrite length_app; lia).
      cbn [obind].
      exists (b0 :: l). split; [right; right; done |]. split; [cbn; lia | done].
Qed.
(** The loop renders a prefix of the remaining characters. *)
Lemma u8_escape_loop_prefix cs tl : forall p n fuel,
  Forall scalar cs -> Z.of_nat (length (p ++ encode cs)) + 16 < 2 ^ 64 ->
  iend = Z.of_nat (length (p ++ encode cs)) -> 0 <= n <= sz - 2 ->
  (length (encode cs) < fuel)%nat ->
  exists done rest outs, cs = done ++ rest /\ Forall2 renders done outs /\
    u8_escape_loop iswprint fuel sz n (p ++ encode cs ++ 0 :: tl) (Z.of_nat (length p)) iend escapes ascii
      = Ok (concat outs ++ [0], Z.of_nat (length (p ++ encode done))) /\
    n + Z.of_nat (length (concat outs ++ [0])) <= sz /\
    (rest = [] \/ sz - 11 <= n + Z.of_nat (length (concat outs))).
Proof using Hesc.
  induction cs as [| c cs IH]; intros p n fuel Hcs Hlen Hend Hn Hf;
    (destruct fuel as [| fuel]; [lia |]).
  - exists [], [], []. rewrite app_nil_r in Hend. subst iend. cbn [u8_escape_loop].
    rewrite Z.ltb_irrefl. cbn [andb concat app length encode map]. rewrite app_nil_r.
    split_and!; try done; [lia | by left].
  - apply List.Forall_cons_iff in Hcs as [Hc Hcs]. rewrite encode_cons in *.
    pose proof (enc_shape c Hc) as (b0 & l & E & _).
    assert (H1 : (1 <= length (u8_wc_toutf8 c))%nat) by (rewrite E; cbn; lia).
    destruct (Z.ltb_spec n (sz - 11)) as [Hroom | Hfull].
    + rewrite <- (app_assoc (u8_wc_toutf8 c)). rewrite !length_app in *.
      destruct (u8_escape_loop_enc fuel n p c (encode cs ++ 0 :: tl))
        as (out & Hr & Ho & ->); try done; try lia; [by apply starts_char_encode |].
      destruct (IH (p ++ u8_wc_toutf8 c) (n + Z.of_nat (length out)) fuel)
        as (d & r & o & -> & H2 & H3 & H4 & H5); try done; try lia; [rewrite !length_app; lia.. |].
      rewrite <- app_assoc, length_app, Nat2Z.inj_add in H3. rewrite H3. cbn [obind].
      exists (c :: d), r, (out :: o). cbn [concat]. rewrite encode_cons.
      split_and!; [done | by constructor | | |].
      * by rewrite <- !app_assoc.
      * rewrite <- app_assoc, length_app. lia.
      * destruct H5 as [-> | H5]; [by left | right]. rewrite length_app. lia.
    + exists [], (c :: cs), []. cbn [u8_escape_loop].
      destruct (Z.ltb_spec n (sz - 11)); [lia |]. rewrite andb_false_r. cbn [concat app length encode map].
      rewrite app_nil_r. split_and!; try done; lia.
Qed.
End EscapeLoop.

(** [u8_escape] on an encoded string stays inside its buffer and stops at
    a character boundary: it renders a prefix of the characters, each copied,
    backslash-escaped or escaped so that it reads back, appends a NUL, stores
    at most [sz] bytes in all, reports how far it got, and stops before the
    end only when fewer than eleven bytes were left. *)
Theorem u8_escape_bounded iswprint sz escapes ascii cs tl :
  Forall scalar cs -> Z.of_nat (length (encode cs)) + 16 < 2 ^ 64 -> 11 < sz ->
  (forall e, escapes = Some e -> Forall (fun b => 0 <= b < 0x80) e) ->
  exists done rest outs i,
    cs = done ++ rest /\ Forall2 renders done outs /\
    u8_escape iswprint sz (encode cs ++ 0 :: tl) 0 (Z.of_nat (length (encode cs))) escapes ascii
      = Ok (concat outs ++ [0], i) /\
    i = Z.of_nat (length (encode done)) /\
    Z.of_nat (length (concat outs ++ [0])) <= sz /\
    (rest = [] \/ sz - 11 <= Z.of_nat (length (concat outs))).
Proof.
  intros Hcs Hlen Hsz Hesc. unfold u8_escape. destruct (Z.leb_spec sz 11); [lia |].
  destruct (u8_escape_loop_prefix iswprint sz (Z.of_nat (length (encode cs))) escapes ascii Hesc cs tl
    [] 0 (S (Z.to_nat (Z.of_nat (length (encode cs)) - 0)))) as (d & r & o & H1 & H2 & H3 & H4 & H5);
    try done; try (cbn; lia).
  exists d, r, o, (Z.of_nat (length (encode d))). split_and!; done.
Qed.

Lemma u8_escape_bounded_witness :
  exists done rest outs i,
    [0x41; 0x5C; 0x20AC; 0x42] = done ++ rest /\ Forall2 renders done outs /\
    u8_escape (fun c => c <? 0x7F) 16 (encode [0x41; 0x5C; 0x20AC; 0x42] ++ [0]) 0 6 (Some [0x42]) false
      = Ok (concat outs ++ [0], i) /\ Z.of_nat (length (concat outs ++ [0])) <= 16.
Proof.
  destruct (u8_escape_bounded (fun c => c <? 0x7F) 16 (Some [0x42]) false [0x41; 0x5C; 0x20AC; 0x42] [])
    as (d & r & o & i & H1 & H2 & H3 & _ & H5 & _).
  - repeat constructor; unfold scalar; lia.
  - vm_compute. reflexivity.
  - lia.
  - intros e [= <-]. repeat constructor; lia.
  - exists d, r, o, i. split; [exact H1 |]. split; [exact H2 |]. split; [exact H3 | exact H5].
Defined.

(** ** Searching *)

Lemma u8_memchr_cont_enc c b0 l s :
  scalar c -> u8_wc_toutf8 c = b0 :: l -> s = [] \/ starts_char s ->
  exists ch off,
    u8_memchr_cont (l ++ s) (u32 b0) 1 = (ch, 1 + Z.of_nat (length l), s) /\
    rd offsetsFromUTF8 (Z.of_nat (length l)) = Ok off /\ u32 (ch - off) = c.
Proof.
  intros Hc E Hs.
  assert (Hstop : forall ch n, u8_memchr_cont s ch n = (ch, n, s)).
  { intros ch n. destruct Hs as [-> | (b & s' & -> & _ & Hu)]; cbn; [done | by rewrite Hu]. }
  enc_cases c Hc; rewrite <- E1 in E; injection E as <- <-; cbn [length app u8_memchr_cont];
    rewrite ?is_cont_isutf by (unfold is_cont; lia); rewrite Hstop;
    eexists _, _; (split; [reflexivity |]); (split; [reflexivity |]);
    rewrite ?shiftl_pow by lia; unfold u32; dlia.
Qed.

Lemma starts_encode cs : Forall scalar cs -> encode cs = [] \/ starts_char (encode cs).
Proof.
  destruct 1 as [| c cs Hc Hs]; [by left |]. right.
  destruct (enc_shape c Hc) as (b0 & l & E & Hb & Hu & _).
  exists b0, (l ++ encode cs). by rewrite encode_cons, E.
Qed.

Lemma u8_memchr_loop_step fuel c cs ch lasti charn :
  scalar c -> Forall scalar cs ->
  u8_memchr_loop (S fuel) (encode (c :: cs)) ch lasti charn =
  if c =? ch then Ok (Some lasti, charn)
  else u8_memchr_loop fuel (encode cs) ch
         (lasti + Z.of_nat (length (u8_wc_toutf8 c))) (charn + 1).
Proof.
  intros Hc Hs. rewrite encode_cons.
  destruct (enc_shape c Hc) as (b0 & l & E & _).
  destruct (u8_memchr_cont_enc c b0 l (encode cs) Hc E (starts_encode cs Hs))
    as (v & off & Hk & Ho & Hv).
  rewrite E. cbn [app u8_memchr_loop length]. rewrite Hk.
  replace (1 + Z.of_nat (length l) - 1) with (Z.of_nat (length l)) by lia.
  rewrite Ho. cbn [obind]. rewrite Hv. by rewrite Nat2Z.inj_succ, Z.add_1_l.
Qed.

Lemma u8_memchr_loop_found pre : forall fuel ch post lasti charn,
  Forall scalar (pre ++ ch :: post) -> ch ∉ pre -> (length pre < fuel)%nat ->
  u8_memchr_loop fuel (encode (pre ++ ch :: post)) ch lasti charn =
  Ok (Some (lasti + Z.of_nat (length (encode pre))), charn + Z.of_nat (length pre)).
Proof.
  induction pre as [| c pre IH]; intros fuel ch post lasti charn Hs Hn Hf;
    (destruct fuel as [| fuel]; [cbn in Hf; lia |]); cbn [app] in *;
    apply Forall_cons_1 in Hs as [Hc Hs]; rewrite u8_memchr_loop_step by done.
  - rewrite Z.eqb_refl. cbn. do 2 f_equal; [f_equal |]; lia.
  - apply not_elem_of_cons in Hn as [Hne Hn].
    destruct (Z.eqb_spec c ch); [congruence |].
    rewrite IH by (done || (cbn in Hf; lia)).
    rewrite encode_cons, length_app. cbn [length]. do 2 f_equal; [f_equal |]; lia.
Qed.

Lemma u8_memchr_loop_none cs : forall fuel ch lasti charn,
  Forall scalar cs -> ch ∉ cs -> (length cs < fuel)%nat ->
  u8_memchr_loop fuel (encode cs) ch lasti charn = Ok (None, charn + Z.of_nat (length cs)).
Proof.
  induction cs as [| c cs IH]; intros fuel ch lasti charn Hs Hn Hf;
    (destruct fuel as [| fuel]; [cbn in Hf; lia |]).
  - cbn. do 2 f_equal. lia.
  - apply Forall_cons_1 in Hs as [Hc Hs]. apply not_elem_of_cons in Hn as [Hne Hn].
    rewrite u8_memchr_loop_step by done. destruct (Z.eqb_spec c ch); [congruence |].
    rewrite IH by (done || (cbn in Hf; lia)). cbn [length]. do 2 f_equal. lia.
Qed.

Lemma u8_memrchr_align_cont p b0 l : forall j fuel,
  Forall is_cont l -> isutf b0 = true -> (j <= length l)%nat -> (j < fuel)%nat ->
  Z.of_nat (length p + length l) + 8 < 2 ^ 64 ->
  u8_memrchr_align fuel (p ++ b0 :: l) (Z.of_nat (length p) + Z.of_nat j) =
  Ok (Z.of_nat (length p)).
Proof.
  induction j as [| j IH]; intros fuel Hl Hu Hj Hf Hlen;
    (destruct fuel as [| fuel]; [lia |]); cbn [u8_memrchr_align].
  - rewrite Z.add_0_r. destruct (Z.eqb_spec (Z.of_nat (length p)) 0); [done |].
    rewrite rd_mid0, rd_c0. cbn [obind]. by rewrite Hu.
  - destruct (Z.eqb_spec (Z.of_nat (length p) + Z.of_nat (S j)) 0); [lia |].
    destruct (lookup_lt_is_Some_2 l j) as [x Hx]; [lia |].
    assert (Hr : rd (p ++ b0 :: l) (Z.of_nat (length p) + Z.of_nat (S j)) = Ok x).
    { rewrite rd_mid by lia. apply rd_lookup. split; [lia |]. by rewrite Nat2Z.id. }
    rewrite Hr. cbn [obind]. rewrite is_cont_isutf by (eapply Forall_lookup_1; eauto).
    rewrite u64_small by lia.
    replace (Z.of_nat (length p) + Z.of_nat (S j) - 1) with (Z.of_nat (length p) + Z.of_nat j) by lia.
    apply IH; done || lia.
Qed.

(** The position the search loop of [u8_memrchr] is at, for each outcome. *)
Lemma u8_memrchr_loop_last pre : forall fuel c post ch,
  Forall scalar (pre ++ [c]) -> (length pre < fuel)%nat ->
  Z.of_nat (length (encode (pre ++ [c]))) + 8 < 2 ^ 64 ->
  (ch ∉ pre ++ [c] ->
   u8_memrchr_loop fuel (encode (pre ++ [c]) ++ post) ch (Z.of_nat (length (encode pre))) = Ok None) /\
  (forall p1 p2, pre ++ [c] = p1 ++ ch :: p2 -> ch ∉ p2 ->
   u8_memrchr_loop fuel (encode (pre ++ [c]) ++ post) ch (Z.of_nat (length (encode pre))) =
   Ok (Some (Z.of_nat (length (encode p1))))).
Proof.
  induction pre as [| d pre IH] using rev_ind; intros fuel c post ch Hs Hf Hlen;
    (destruct fuel as [| fuel]; [lia |]); cbn [u8_memrchr_loop];
    apply Forall_app in Hs as [Hp [Hc _]%Forall_cons_1];
    rewrite (encode_app _ [c]), length_app in Hlen; unfold u8_nextmemchar;
    rewrite (encode_app _ [c]), <- (app_assoc _ (encode [c]));
    rewrite (encode_cons c []) in *; rewrite length_app in Hlen;
    rewrite <- (app_assoc (u8_wc_toutf8 c)), u8_nextchar_enc by (done || lia); cbn [obind].
  - cbn [encode map concat length Z.of_nat Z.eqb app]. split.
    + intros Hn. destruct (Z.eqb_spec c ch); [set_solver | done].
    + intros p1 p2 E Hn. destruct p1 as [| x p1]; cbn in E; injection E as -> E2.
      * by rewrite Z.eqb_refl.
      * by destruct p1.
  - assert (Hdec : u8_dec (encode (pre ++ [d]) ++ u8_wc_toutf8 c ++ encode [] ++ post)
                     (Z.of_nat (length (encode (pre ++ [d])))) = Ok (Z.of_nat (length (encode pre)))).
    { rewrite encode_app, encode_cons, !length_app in *. cbn [encode map concat length] in *.
      rewrite <- !app_assoc, Nat.add_0_r, Nat2Z.inj_add.
      apply Forall_app in Hp as [_ [Hd _]%Forall_cons_1]. apply u8_dec_enc; [done | lia]. }
    rewrite Hdec. cbn [obind].
    assert (Hpos : 0 < Z.of_nat (length (encode (pre ++ [d]))) - Z.of_nat (length (encode pre))).
    { apply Forall_app in Hp as [_ [Hd _]%Forall_cons_1].
      destruct (enc_shape d Hd) as (b0 & l & E & _).
      rewrite encode_app, encode_cons, !length_app, E. cbn [length]. lia. }
    destruct (Z.eqb_spec (Z.of_nat (length (encode (pre ++ [d])))) 0); [lia |].
    destruct (Z.ltb_spec (Z.of_nat (length (encode (pre ++ [d])))) (Z.of_nat (length (encode pre)))); [lia |].
    rewrite length_app in Hf. cbn in Hf.
    destruct (IH fuel d (u8_wc_toutf8 c ++ encode [] ++ post) ch) as [IH1 IH2]; [done | lia | lia |].
    split.
    + intros Hn. destruct (Z.eqb_spec c ch); [set_solver |]. apply IH1. set_solver.
    + intros p1 p2 E Hn. destruct (Z.eqb_spec c ch) as [-> | Hne].
      * destruct p2 as [| x p2 _] using rev_ind.
        -- apply app_inj_tail in E as [-> _]. done.
        -- rewrite app_comm_cons, app_assoc in E. apply app_inj_tail in E as [_ ->]. set_solver.
      * destruct p2 as [| x p2 _] using rev_ind.
        -- apply app_inj_tail in E as [_ ->]. done.
        -- rewrite app_comm_cons, app_assoc in E. apply app_inj_tail in E as [E ->].
           apply (IH2 p1 p2); [done | set_solver].
Qed.

Lemma u8_memrchr_start pre c ch :
  Forall scalar (pre ++ [c]) -> Z.of_nat (length (encode (pre ++ [c]))) + 8 < 2 ^ 64 ->
  u8_memrchr (encode (pre ++ [c])) ch =
  u8_memrchr_loop (length (encode (pre ++ [c]))) (encode (pre ++ [c])) ch
    (Z.of_nat (length (encode pre))).
Proof.
  intros [_ [Hc _]%Forall_cons_1]%Forall_app Hlen.
  destruct (enc_shape c Hc) as (b0 & l & E & _ & Hu & Hl & _).
  assert (Ep : encode (pre ++ [c]) = encode pre ++ b0 :: l)
    by (rewrite encode_app, encode_cons, E; unfold encode at 2; cbn; by rewrite app_nil_r).
  unfold u8_memrchr. rewrite Ep in *. rewrite length_app in *. cbn [length] in *.
  destruct (Z.eqb_spec (Z.of_nat (length (encode pre) + S (length l))) 0); [lia |].
  rewrite u64_small by lia.
  replace (Z.of_nat (length (encode pre) + S (length l)) - 1)
    with (Z.of_nat (length (encode pre)) + Z.of_nat (length l)) by lia.
  rewrite u8_memrchr_align_cont by (done || lia). done.
Qed.

(** on an encoded string [u8_memchr] finds the first and [u8_memrchr] the
    last occurrence of a character, giving its byte offset (and, for
    [u8_memchr], its character number, or the number of characters when there
    is none); both fail exactly when the character does not occur. *)
Theorem u8_memchr_memrchr_correct cs ch :
  Forall scalar cs -> Z.of_nat (length (encode cs)) + 8 < 2 ^ 64 ->
  (ch ∉ cs -> u8_memchr (encode cs) ch = Ok (None, Z.of_nat (length cs)) /\
              u8_memrchr (encode cs) ch = Ok None) /\
  (forall p1 p2, cs = p1 ++ ch :: p2 ->
     (ch ∉ p1 -> u8_memchr (encode cs) ch =
                 Ok (Some (Z.of_nat (length (encode p1))), Z.of_nat (length p1))) /\
     (ch ∉ p2 -> u8_memrchr (encode cs) ch = Ok (Some (Z.of_nat (length (encode p1)))))).
Proof.
  intros Hs Hlen. pose proof (encode_length_ge cs Hs) as Hge. unfold u8_memchr. split.
  - intros Hn. split.
    + rewrite u8_memchr_loop_none by (done || lia). done.
    + destruct cs as [| c pre _] using rev_ind; [done |].
      rewrite u8_memrchr_start by done. rewrite <- (app_nil_r (encode _)) at 2.
      rewrite length_app in Hge. cbn in Hge. apply u8_memrchr_loop_last; done || lia.
  - intros p1 p2 ->. split; intros Hn.
    + rewrite length_app in Hge. cbn in Hge. rewrite u8_memchr_loop_found by (done || lia). done.
    + remember (p1 ++ ch :: p2) as cs eqn:E. destruct cs as [| c pre _] using rev_ind.
      { by destruct p1. }
      rewrite u8_memrchr_start by done. rewrite <- (app_nil_r (encode (pre ++ [c]))) at 2.
      rewrite length_app in Hge. cbn in Hge.
      apply (u8_memrchr_loop_last pre) with (p2 := p2); done || lia.
Qed.

Lemma u8_memchr_memrchr_correct_witness :
  u8_memchr (encode [0xE9; 0x41; 0xE9; 0x42]) 0xE9 = Ok (Some 0, 0) /\
  u8_memrchr (encode [0xE9; 0x41; 0xE9; 0x42]) 0xE9 = Ok (Some 3).
Proof.
  destruct (u8_memchr_memrchr_correct [0xE9; 0x41; 0xE9; 0x42] 0xE9) as [_ H];
    [repeat constructor; unfold scalar; lia | vm_compute; reflexivity |].
  split.
  - apply (H [] [0x41; 0xE9; 0x42] eq_refl). set_solver.
  - apply (H [0xE9; 0x41] [0x42] eq_refl). set_solver.
Defined.

(** The column width of an encoded string is the sum over its characters, an
    ASCII character counting 1 whatever its tabulated width. *)
Lemma u8_strwidth_encode w cs tl : forall fuel tot,
  Forall scalar cs -> 0 ∉ cs -> (length cs < fuel)%nat -> is_u64 tot ->
  u8_strwidth_loop w fuel (encode cs ++ 0 :: tl) tot =
  Ok (fold_left (fun t c => u64 (t + if c <? 0x80 then 1 else w c)) cs tot).
Proof.
  induction cs as [| c cs IH]; intros fuel tot Hs Hn Hf Ht;
    (destruct fuel as [| fuel]; [lia |]); cbn [fold_left]; [done |].
  apply Forall_cons_1 in Hs as [Hc Hs]. apply not_elem_of_cons in Hn as [Hz Hn].
  cbn [length] in Hf. rewrite encode_cons, <- app_assoc.
  destruct (enc_shape c Hc) as (b0 & l & E & Hb & Hu & _ & Ht' & _ & Hasc).
  destruct (u8_switch_enc c b0 l (encode cs ++ 0 :: tl) Hc E) as (v & off & Hsw & Ho & Hv).
  assert (Hlow : (b0 <? 0x80) = (c <? 0x80) /\ (b0 =? 0) = false).
  { enc_cases c Hc; rewrite <- E1 in E; injection E as <- <-; split; repeat (zcase; try lia); done. }
  destruct Hlow as [Hlow Hnz]. rewrite E. cbn [app u8_strwidth_loop]. rewrite Hnz, Hlow, Hu.
  cbn [negb]. destruct (Z.ltb_spec c 0x80) as [Hc' | Hc'].
  - assert (l = []) as -> by (apply Hasc; destruct (Z.ltb_spec b0 0x80); [done | discriminate]).
    apply IH; try done; try lia. apply u64_range.
  - rewrite Ht'. cbn [obind]. rewrite Nat2Z.id, Hsw. cbn [obind]. rewrite Ho. cbn [obind].
    rewrite Hv. apply IH; try done; try lia. apply u64_range.
Qed.
