(* ===== verification/Probe.v ===== *)
(** * Bounded linear probing

    The open-addressing tables of smallintset.c share one loop shape: start at
    the home slot, test, advance by one modulo the power-of-two size, and stop
    after [maxprobe + 1] tests or back at the start.  [probe] is that
    [do]/[while]; the lemmas describe it by the window of slots it visits. *)

From stdpp Require Import base sets list numbers option.
From Stdlib Require Import ZArith Lia.
From S2P Require Import Prelude.

(** [do { test(index); index = (index+1) & (sz-1); iter++; }
     while (iter <= maxprobe && index != orig)], leaving the loop as soon as
    the test answers.  [n] is [maxprobe - iter]. *)
Fixpoint probe {R} (test : Z -> outcome (option R)) (n : nat) (sz index orig : Z)
    : outcome (option R) :=
  let! r := test index in
  match r with
  | Some x => Ok (Some x)
  | None =>
      let index' := Z.land (index + 1) (sz - 1) in
      match n with
      | O => Ok None
      | S n' => if index' =? orig then Ok None else probe test n' sz index' orig
      end
  end.

(** ** Slots of the window *)

(** The [k]-th slot after the home slot [o]. *)
Definition slot_pos (sz o k : Z) : Z := (o + k) mod sz.

(** The number of slots visited at most. *)
Definition window (maxprobe sz : Z) : Z := Z.min (maxprobe + 1) sz.

Definition pow2 (x : Z) : Prop := exists m, 0 <= m /\ x = 2 ^ m.

Lemma pow2_pos x : pow2 x -> 0 < x.
Proof. intros (m & Hm & ->). apply Z.pow_pos_nonneg; lia. Qed.

Lemma pow2_double x : pow2 x -> pow2 (Z.shiftl x 1).
Proof.
  intros (m & Hm & ->). exists (m + 1). rewrite shiftl_pow, Z.pow_add_r by lia. lia.
Qed.

Lemma pow2_quadruple x : pow2 x -> pow2 (Z.shiftl x 2).
Proof.
  intros (m & Hm & ->). exists (m + 2). rewrite shiftl_pow, Z.pow_add_r by lia. lia.
Qed.

Lemma land_pow2 x sz : pow2 sz -> Z.land x (sz - 1) = x mod sz.
Proof.
  intros (m & Hm & ->). replace (2 ^ m - 1) with (Z.ones m) by (rewrite Z.ones_equiv; lia).
  apply Z.land_ones. lia.
Qed.

Lemma slot_pos_range sz o k : 0 < sz -> 0 <= slot_pos sz o k < sz.
Proof. intros. apply Z.mod_pos_bound. lia. Qed.

Lemma slot_pos_0 sz o : 0 <= o < sz -> slot_pos sz o 0 = o.
Proof. intros. unfold slot_pos. rewrite Z.add_0_r. by apply Z.mod_small. Qed.

Lemma slot_pos_succ sz o k :
  pow2 sz -> Z.land (slot_pos sz o k + 1) (sz - 1) = slot_pos sz o (k + 1).
Proof.
  intros Hp. pose proof (pow2_pos _ Hp). rewrite land_pow2 by done. unfold slot_pos.
  rewrite Z.add_mod_idemp_l by lia. f_equal. lia.
Qed.

Lemma slot_pos_inj sz o j k :
  0 < sz -> 0 <= j < sz -> 0 <= k < sz -> slot_pos sz o j = slot_pos sz o k -> j = k.
Proof.
  unfold slot_pos. intros Hs Hj Hk E.
  pose proof (Z.div_mod (o + j) sz) as H1. pose proof (Z.div_mod (o + k) sz) as H2.
  rewrite E in H1. assert ((o + j) / sz = (o + k) / sz) as Hq by nia. rewrite Hq in H1. lia.
Qed.

(** ** What the loop finds *)

Section Probe.
Context {R : Type} (test : Z -> outcome (option R)) (g : Z -> option R) (sz : Z).
Hypothesis Hpow : pow2 sz.
Hypothesis Htest : forall i, 0 <= i < sz -> test i = Ok (g i).

(** From the [k]-th slot on: the first slot of the rest of the window that
    answers, or none. *)
Lemma probe_from n : forall o k,
  0 <= o < sz -> 0 <= k < sz ->
  (exists j x, k <= j < sz /\ j <= k + Z.of_nat n /\ g (slot_pos sz o j) = Some x /\
     (forall i, k <= i < j -> g (slot_pos sz o i) = None) /\
     probe test n sz (slot_pos sz o k) o = Ok (Some x)) \/
  ((forall j, k <= j < sz -> j <= k + Z.of_nat n -> g (slot_pos sz o j) = None) /\
   probe test n sz (slot_pos sz o k) o = Ok None).
Proof using Hpow Htest.
  pose proof (pow2_pos _ Hpow) as Hsz.
  induction n as [| n IH]; intros o k Ho Hk; cbn [probe];
    rewrite Htest by (by apply slot_pos_range); cbn [obind];
    destruct (g (slot_pos sz o k)) as [x |] eqn:Eg.
  - left. exists k, x. split_and!; try lia; done.
  - right. split; [| done]. intros j ? ?. by replace j with k by lia.
  - left. exists k, x. split_and!; try lia; done.
  - rewrite slot_pos_succ by done.
    assert (Hend : (slot_pos sz o (k + 1) =? o) = (k + 1 =? sz)).
    { destruct (Z.eqb_spec (k + 1) sz) as [-> | Hne].
      - unfold slot_pos. rewrite <- Z.add_mod_idemp_r, Z.mod_same, Z.add_0_r by lia.
        rewrite Z.mod_small by lia. apply Z.eqb_refl.
      - apply Z.eqb_neq. intros E. rewrite <- (slot_pos_0 sz o) in E at 2 by done.
        apply slot_pos_inj in E; lia. }
    rewrite Hend. destruct (Z.eqb_spec (k + 1) sz) as [Hs | Hs].
    + right. split; [| done]. intros j ? ?. by replace j with k by lia.
    + destruct (IH o (k + 1) Ho) as [(j & x & Hj1 & Hj2 & Hx & Hi & E) | [Hn E]]; [lia | left | right].
      * exists j, x. split_and!; try lia; [done | | done]. intros i Hi'.
        destruct (Z.eq_dec i k) as [-> |]; [done | apply Hi; lia].
      * split; [| done]. intros j ? ?.
        destruct (Z.eq_dec j k) as [-> |]; [done | apply Hn; lia].
Qed.

(** The loop finds the first slot of the window that answers. *)
Lemma probe_window maxprobe o :
  0 <= maxprobe -> 0 <= o < sz ->
  (exists j x, 0 <= j < window maxprobe sz /\ g (slot_pos sz o j) = Some x /\
     (forall i, 0 <= i < j -> g (slot_pos sz o i) = None) /\
     probe test (Z.to_nat maxprobe) sz o o = Ok (Some x)) \/
  ((forall j, 0 <= j < window maxprobe sz -> g (slot_pos sz o j) = None) /\
   probe test (Z.to_nat maxprobe) sz o o = Ok None).
Proof using Hpow Htest.
  intros Hm Ho. unfold window.
  destruct (probe_from (Z.to_nat maxprobe) o 0 Ho) as [(j & x & Hj1 & Hj2 & Hx & Hi & E) | [Hn E]];
    [lia | left | right]; rewrite slot_pos_0 in E by done.
  - exists j, x. split_and!; try lia; done.
  - split; [| done]. intros j Hj. apply Hn; lia.
Qed.
End Probe.
