(* ===== verification/SmallIntSet.v ===== *)
(** * Sets of small integers (smallintset.c)

    A [jl_genericmemory_t] of unsigned integers that serves as an open
    addressing table: slot value 0 is empty, the largest value of the element
    type is a tombstone, and [v + 1] stands for the index [v] into another
    collection.  The callbacks [hash] and [eq] are arguments, closed over the
    [key], [data] and [hv] the C code passes through. *)

From stdpp Require Import base sets list numbers option.
From Stdlib Require Import ZArith Lia.
From S2P Require Import Prelude Probe.

Definition HT_N_INLINE : Z := 32.

(** The type tags a table can have: [jl_memory_uint8_type], [..uint16..],
    [..uint32..], and [jl_memory_any_type] for the empty memory every set
    starts from. *)
Inductive memty := MemUInt8 | MemUInt16 | MemUInt32 | MemAny.

#[global] Instance memty_eq_dec : EqDecision memty.
Proof. solve_decision. Defined.

Record intmem := IntMem { im_type : memty; im_data : list Z }.

Definition im_length (a : intmem) : Z := Z.of_nat (length (im_data a)).

Definition max_probe (size : Z) : Z := if size <=? 1024 then 16 else Z.shiftr size 6.
Definition h2index (hv sz : Z) : Z := Z.land hv (sz - 1).

Definition ignore_tombstone (val tombstone : Z) : Z := if val =? tombstone then 0 else val.

Definition jl_intref (arr : intmem) (idx : Z) : outcome Z :=
  match im_type arr with
  | MemUInt8 => let! v := rd (im_data arr) idx in Ok (ignore_tombstone v 0xFF)
  | MemUInt16 => let! v := rd (im_data arr) idx in Ok (ignore_tombstone v 0xFFFF)
  | MemUInt32 => let! v := rd (im_data arr) idx in Ok (ignore_tombstone v 0xFFFFFFFF)
  | MemAny => UB
  end.

Definition SIZE_MAX : Z := 2 ^ 64 - 1.

Definition acquire_tombstone (val tombstone : Z) : Z := if val =? tombstone then SIZE_MAX else val.

Definition jl_intref_acquire (arr : intmem) (idx : Z) : outcome Z :=
  match im_type arr with
  | MemUInt8 => let! v := rd (im_data arr) idx in Ok (acquire_tombstone v 0xFF)
  | MemUInt16 => let! v := rd (im_data arr) idx in Ok (acquire_tombstone v 0xFFFF)
  | MemUInt32 => let! v := rd (im_data arr) idx in Ok (acquire_tombstone v 0xFFFFFFFF)
  | MemAny => UB
  end.

(** The store converts the [size_t] to the element type. *)
Definition jl_intset_release (arr : intmem) (idx val : Z) : outcome intmem :=
  match im_type arr with
  | MemUInt8 => let! d := wr (im_data arr) idx (u8 val) in Ok (IntMem MemUInt8 d)
  | MemUInt16 => let! d := wr (im_data arr) idx (u16 val) in Ok (IntMem MemUInt16 d)
  | MemUInt32 => let! d := wr (im_data arr) idx (u32 val) in Ok (IntMem MemUInt32 d)
  | MemAny => UB
  end.

Definition jl_max_int (arr : intmem) : Z :=
  match im_type arr with
  | MemUInt8 => 0xFF
  | MemUInt16 => 0xFFFF
  | MemUInt32 => 0xFFFFFFFF
  | MemAny => 0
  end.

(** [memset] over [length * elsize] bytes, [elsize] being 0 for
    [jl_memory_any_type]. *)
Definition smallintset_empty (a : intmem) : intmem :=
  match im_type a with
  | MemAny => a
  | ty => IntMem ty (replicate (length (im_data a)) 0)
  end.

Definition jl_alloc_int_1d (np len : Z) : outcome intmem :=
  let ty := if np <? 0xFF then MemUInt8 else if np <? 0xFFFF then MemUInt16 else MemUInt32 in
  if np <? 0x7FFFFFFF then
    Ok (smallintset_empty (IntMem ty (replicate (Z.to_nat len) 0)))
  else UB.

(** The body of the probe loop of [jl_smallintset_lookup]: [Some (idx, v)]
    leaves the loop returning [v], found at slot [idx]; [Some (idx, -1)]
    returns -1 at an empty slot. *)
Definition lookup_test (cache : intmem) (eq : Z -> bool) (index : Z)
    : outcome (option (Z * Z)) :=
  let! val1 := jl_intref_acquire cache index in
  if val1 =? 0 then Ok (Some (index, -1))
  else if negb (val1 =? SIZE_MAX) && eq (val1 - 1) then Ok (Some (index, val1 - 1))
  else Ok None.

(** The result is the returned [ssize_t] and the table after the call. *)
Definition jl_smallintset_lookup (cache : intmem) (eq : Z -> bool) (hv : Z) (pop : bool)
    : outcome (Z * intmem) :=
  let sz := im_length cache in
  if sz =? 0 then Ok (-1, cache)
  else
    let index := h2index hv sz in
    let! r := probe (lookup_test cache eq) (Z.to_nat (max_probe sz)) sz index index in
    match r with
    | None => Ok (-1, cache)
    | Some (idx, v) =>
        if v =? -1 then Ok (-1, cache)
        else if pop then
          let! cache' := jl_intset_release cache idx SIZE_MAX in
          Ok (v, cache')
        else Ok (v, cache)
    end.

Definition insert_test (a : intmem) (index : Z) : outcome (option Z) :=
  let! v := jl_intref a index in
  if v =? 0 then Ok (Some index) else Ok None.

(** [Some a'] is the return value 1 with the table after the store. *)
Definition smallintset_insert_ (a : intmem) (hv val1 : Z) : outcome (option intmem) :=
  let sz := im_length a in
  if sz <=? 1 then Ok None
  else
    let index := h2index hv sz in
    let! r := probe (insert_test a) (Z.to_nat (max_probe sz)) sz index index in
    match r with
    | Some idx => let! a' := jl_intset_release a idx val1 in Ok (Some a')
    | None => Ok None
    end.

(** The first loop of [smallintset_rehash], over the slots from [i] on. *)
Fixpoint rehash_max (a : intmem) (n : nat) (i np : Z) : outcome Z :=
  match n with
  | O => Ok np
  | S n' =>
      let! val := jl_intref a i in
      rehash_max a n' (i + 1) (if np <? val then val else np)
  end.

(** The copying loop; [None] when it breaks because an insertion failed. *)
Fixpoint rehash_copy (a : intmem) (hash : Z -> Z) (n : nat) (i : Z) (newa : intmem)
    : outcome (option intmem) :=
  match n with
  | O => Ok (Some newa)
  | S n' =>
      let! val1 := jl_intref a i in
      if negb (val1 =? 0) then
        let! r := smallintset_insert_ newa (hash (val1 - 1)) val1 in
        match r with
        | Some newa' => rehash_copy a hash n' (i + 1) newa'
        | None => Ok None
        end
      else rehash_copy a hash n' (i + 1) newa
  end.

Fixpoint rehash_loop (fuel : nat) (a : intmem) (hash : Z -> Z) (newsz np : Z) : outcome intmem :=
  match fuel with
  | O => Timeout
  | S fuel' =>
      let! newa := jl_alloc_int_1d (np + 1) newsz in
      let! r := rehash_copy a hash (length (im_data a)) 0 newa in
      match r with
      | Some newa' => Ok newa'
      | None => rehash_loop fuel' a hash (Z.shiftl newsz 1) np
      end
  end.

Definition smallintset_rehash (fuel : nat) (a : intmem) (hash : Z -> Z) (newsz np : Z)
    : outcome intmem :=
  let! np := rehash_max a (length (im_data a)) 0 np in
  rehash_loop fuel a hash newsz np.

(** The size the table grows to when an insertion failed. *)
Definition grow_size (sz : Z) : Z :=
  if sz <? HT_N_INLINE then HT_N_INLINE
  else if (Z.shiftl 1 19 <=? sz) || (sz <=? Z.shiftl 1 8) then Z.shiftl sz 1
  else Z.shiftl sz 2.

Fixpoint insert_loop (fuel : nat) (a : intmem) (hash : Z -> Z) (val : Z) : outcome intmem :=
  match fuel with
  | O => Timeout
  | S fuel' =>
      let! r := smallintset_insert_ a (hash val) (val + 1) in
      match r with
      | Some a' => Ok a'
      | None =>
          let! a' := smallintset_rehash fuel' a hash (grow_size (im_length a)) 0 in
          insert_loop fuel' a' hash val
      end
  end.

(** The table after the call, i.e. what [*pcache] holds. *)
Definition jl_smallintset_insert (fuel : nat) (a : intmem) (hash : Z -> Z) (val : Z)
    : outcome intmem :=
  let! a :=
    if jl_max_int a <=? val + 1 then smallintset_rehash fuel a hash (im_length a) (val + 1)
    else Ok a in
  insert_loop fuel a hash val.
