(* ===== verification/SmallIntSetFacts.v ===== *)
(** * Correctness of the small integer sets

    The invariant says that every stored index sits within the probe window of
    its home slot with no empty slot before it, at most once, and below the
    tombstone value of the element type.  Insertion, removal and rehashing
    preserve it and change the set of stored indices in the expected way;
    lookup decides membership; the growing loops terminate. *)

From stdpp Require Import base sets list numbers option.
From Stdlib Require Import ZArith Lia.
From S2P Require Import Prelude Probe SmallIntSet.

(** ** Slots *)

(** The raw value of slot [p]. *)
Definition raw (a : intmem) (p : Z) : Z := default 0 (im_data a !! Z.to_nat p).

(** Slot [p] is neither empty nor a tombstone. *)
Definition occupied (a : intmem) (p : Z) : bool :=
  negb (raw a p =? 0) && negb (raw a p =? jl_max_int a).

Record wf_mem (a : intmem) : Prop := {
  wf_any : im_type a = MemAny -> im_length a = 0;
  wf_range : forall p, 0 <= p < im_length a -> 0 <= raw a p <= jl_max_int a;
  wf_size : im_length a = 0 \/ pow2 (im_length a)
}.

Lemma rd_raw a p : 0 <= p < im_length a -> rd (im_data a) p = Ok (raw a p).
Proof.
  unfold im_length, raw. intros Hp. destruct (rd_in_range (im_data a) p Hp) as (x & -> & ->). done.
Qed.

Lemma jl_intref_raw a p :
  wf_mem a -> 0 <= p < im_length a ->
  jl_intref a p = Ok (if occupied a p then raw a p else 0).
Proof.
  intros Hw Hp. pose proof (wf_any a Hw) as Hany. unfold jl_intref, occupied, ignore_tombstone, jl_max_int.
  destruct (im_type a); try (specialize (Hany eq_refl); lia); rewrite rd_raw by done; cbn [obind];
    repeat (zcase; try lia); try done; congruence.
Qed.

Lemma max_int_lt_SIZE_MAX a : jl_max_int a < SIZE_MAX.
Proof. unfold jl_max_int, SIZE_MAX. destruct (im_type a); lia. Qed.

Lemma jl_intref_acquire_raw a p :
  wf_mem a -> 0 <= p < im_length a ->
  jl_intref_acquire a p = Ok (if raw a p =? jl_max_int a then SIZE_MAX else raw a p).
Proof.
  intros Hw Hp. pose proof (wf_any a Hw) as Hany.
  unfold jl_intref_acquire, acquire_tombstone, jl_max_int.
  destruct (im_type a); try (specialize (Hany eq_refl); lia); rewrite rd_raw by done; done.
Qed.

(** The table after a store of [v] at [p]. *)
Definition set_slot (a : intmem) (p v : Z) : intmem :=
  IntMem (im_type a) (<[Z.to_nat p := v]> (im_data a)).

Lemma set_slot_length a p v : im_length (set_slot a p v) = im_length a.
Proof. unfold im_length, set_slot. cbn. by rewrite length_insert. Qed.

Lemma set_slot_max a p v : jl_max_int (set_slot a p v) = jl_max_int a.
Proof. done. Qed.

Lemma raw_set_slot a p v q :
  0 <= p < im_length a -> 0 <= q ->
  raw (set_slot a p v) q = if q =? p then v else raw a q.
Proof.
  unfold im_length, raw, set_slot. cbn. intros Hp Hq.
  destruct (Z.eqb_spec q p) as [-> | Hne].
  - rewrite list_lookup_insert_eq by lia. done.
  - rewrite list_lookup_insert_ne by lia. done.
Qed.

Lemma jl_intset_release_spec a p v :
  wf_mem a -> 0 <= p < im_length a -> 0 <= v <= jl_max_int a ->
  jl_intset_release a p v = Ok (set_slot a p v).
Proof.
  intros Hw Hp Hv. pose proof (wf_any a Hw) as Hany.
  unfold jl_intset_release, set_slot, jl_max_int in *. unfold im_length in *.
  destruct (im_type a); try (specialize (Hany eq_refl); lia); rewrite wr_in_range by done; cbn [obind].
  - by rewrite u8_small by lia.
  - by rewrite u16_small by lia.
  - by rewrite u32_small by lia.
Qed.

(** Storing the [size_t] -1 leaves the tombstone of the element type. *)
Lemma jl_intset_release_tombstone a p :
  wf_mem a -> 0 <= p < im_length a ->
  jl_intset_release a p SIZE_MAX = Ok (set_slot a p (jl_max_int a)).
Proof.
  intros Hw Hp. pose proof (wf_any a Hw) as Hany.
  unfold jl_intset_release, set_slot, jl_max_int in *. unfold im_length in *.
  destruct (im_type a); try (specialize (Hany eq_refl); lia); rewrite wr_in_range by done; done.
Qed.

Lemma wf_set_slot a p v :
  wf_mem a -> 0 <= p < im_length a -> 0 <= v <= jl_max_int a -> wf_mem (set_slot a p v).
Proof.
  intros Hw Hp Hv. split.
  - rewrite set_slot_length. apply (wf_any a Hw).
  - rewrite set_slot_length, set_slot_max. intros q Hq. rewrite raw_set_slot by lia.
    zcase; [lia | by apply (wf_range a Hw)].
  - rewrite set_slot_length. apply (wf_size a Hw).
Qed.

Lemma max_probe_nonneg sz : 0 <= sz -> 0 <= max_probe sz.
Proof. unfold max_probe. intros. zcase; [lia |]. by apply Z.shiftr_nonneg. Qed.

(** ** The invariant *)

Section IntSet.
Context (hash : Z -> Z).

(** The home slot of index [v] and its [k]-th successor. *)
Definition chain_pos (a : intmem) (v k : Z) : Z := slot_pos (im_length a) (hash v mod im_length a) k.

(** Slot [p] stores index [v]. *)
Definition stored_at (a : intmem) (p v : Z) : Prop :=
  0 <= p < im_length a /\ 0 <= v /\ v + 1 < jl_max_int a /\ raw a p = v + 1.

Definition stored (a : intmem) (v : Z) : Prop := exists p, stored_at a p v.

Record sis_inv (a : intmem) : Prop := {
  inv_wf : wf_mem a;
  inv_chain : forall p v, stored_at a p v ->
    exists d, 0 <= d < window (max_probe (im_length a)) (im_length a) /\
      p = chain_pos a v d /\
      forall k, 0 <= k < d -> raw a (chain_pos a v k) <> 0;
  inv_uniq : forall p q v, stored_at a p v -> stored_at a q v -> p = q
}.

Lemma stored_at_occupied a p v : stored_at a p v -> occupied a p = true.
Proof.
  intros (_ & Hv & Hm & E). unfold occupied. rewrite E. repeat (zcase; try lia); done.
Qed.

Lemma occupied_stored_at a p :
  wf_mem a -> 0 <= p < im_length a -> occupied a p = true -> stored_at a p (raw a p - 1).
Proof.
  intros Hw Hp Ho. pose proof (wf_range a Hw p Hp). unfold occupied in Ho.
  revert Ho. repeat (zcase; try done). intros _. unfold stored_at. lia.
Qed.

(** A store that never empties a slot keeps the chains of the other
    indices. *)
Lemma chain_set_slot a p v w d :
  0 <= p < im_length a -> v <> 0 ->
  (forall k, 0 <= k < d -> raw a (chain_pos a w k) <> 0) ->
  forall k, 0 <= k < d -> raw (set_slot a p v) (chain_pos (set_slot a p v) w k) <> 0.
Proof.
  intros Hp Hv Hc k Hk. unfold chain_pos in *. rewrite set_slot_length.
  rewrite raw_set_slot by (done || apply slot_pos_range; lia).
  zcase; [done | by apply Hc].
Qed.

Lemma stored_at_set_slot a p v q w :
  0 <= p < im_length a ->
  stored_at (set_slot a p v) q w <->
  (q = p /\ v = w + 1 /\ 0 <= w /\ w + 1 < jl_max_int a) \/ (q <> p /\ stored_at a q w).
Proof.
  intros Hp. unfold stored_at. rewrite set_slot_length, set_slot_max. split.
  - intros (Hq & Hw & Hm & E). rewrite raw_set_slot in E by lia.
    destruct (Z.eqb_spec q p); [left | right]; lia.
  - intros [(-> & -> & ? & ?) | (Hne & Hq & ? & ? & E)]; split_and!; try lia;
      rewrite raw_set_slot by lia; zcase; lia.
Qed.

(** ** Occupancy *)

Definition positions (n : Z) : list Z := map Z.of_nat (seq 0 (Z.to_nat n)).

Lemma elem_of_positions n p : In p (positions n) <-> 0 <= p < n.
Proof.
  unfold positions. rewrite in_map_iff. setoid_rewrite in_seq. split.
  - intros (k & <- & ?). lia.
  - intros. exists (Z.to_nat p). lia.
Qed.

Lemma positions_NoDup n : List.NoDup (positions n).
Proof.
  unfold positions. apply Finite.Injective_map_NoDup; [intros ? ? ?; lia | apply seq_NoDup].
Qed.

(** The number of occupied slots. *)
Definition count (a : intmem) : nat :=
  length (List.filter (occupied a) (positions (im_length a))).

Lemma count_set_slot a p v :
  0 <= p < im_length a -> (count (set_slot a p v) <= S (count a))%nat.
Proof.
  intros Hp. unfold count. rewrite set_slot_length.
  apply (List.NoDup_incl_length (l' := p :: List.filter (occupied a) (positions (im_length a)))).
  - apply List.NoDup_filter, positions_NoDup.
  - intros q [Hq Ho]%filter_In. apply elem_of_positions in Hq as Hq'.
    destruct (Z.eq_dec q p) as [-> |]; [by left |]. right. apply filter_In. split; [done |].
    unfold occupied in *. rewrite raw_set_slot, set_slot_max in Ho by lia.
    by destruct (Z.eqb_spec q p).
Qed.

(** If a whole probe window is occupied, the table holds at least as many
    entries as the window has slots. *)
Lemma count_window a o w :
  0 < im_length a -> 0 <= w <= im_length a ->
  (forall k, 0 <= k < w -> occupied a (slot_pos (im_length a) o k) = true) ->
  (Z.to_nat w <= count a)%nat.
Proof.
  intros Hsz Hw Hall. unfold count.
  replace (Z.to_nat w) with (length (map (slot_pos (im_length a) o) (positions w)))
    by (unfold positions; rewrite !length_map, length_seq; done).
  apply List.NoDup_incl_length.
  - apply NoDup_ListNoDup, NoDup_fmap_2_strong.
    + intros x y Hx Hy. apply list_elem_of_In, elem_of_positions in Hx.
      apply list_elem_of_In, elem_of_positions in Hy. apply slot_pos_inj; lia.
    + apply NoDup_ListNoDup, positions_NoDup.
  - intros q (k & <- & Hk)%in_map_iff. apply elem_of_positions in Hk.
    apply filter_In. split; [apply elem_of_positions, slot_pos_range; lia | by apply Hall].
Qed.

(** ** Insertion into a slot *)

Lemma insert_test_spec a i :
  wf_mem a -> 0 <= i < im_length a ->
  insert_test a i = Ok (if occupied a i then None else Some i).
Proof.
  intros Hw Hi. unfold insert_test. rewrite jl_intref_raw by done. cbn [obind].
  unfold occupied. repeat (zcase; try lia); done.
Qed.

Lemma set_slot_inv a v d :
  sis_inv a -> 0 < im_length a -> 0 <= v -> v + 1 < jl_max_int a -> ~ stored a v ->
  0 <= d < window (max_probe (im_length a)) (im_length a) ->
  occupied a (chain_pos a v d) = false ->
  (forall k, 0 <= k < d -> occupied a (chain_pos a v k) = true) ->
  let a' := set_slot a (chain_pos a v d) (v + 1) in
  sis_inv a' /\ (forall w, stored a' w <-> stored a w \/ w = v).
Proof.
  intros Hi Hlen Hv Hm Hn Hd Hfree Hocc. cbn zeta.
  assert (Hp : 0 <= chain_pos a v d < im_length a) by (apply slot_pos_range; lia).
  assert (Hat : forall q w, stored_at (set_slot a (chain_pos a v d) (v + 1)) q w <->
                  (q = chain_pos a v d /\ w = v) \/ stored_at a q w).
  { intros q w. rewrite stored_at_set_slot by done. split.
    - intros [(-> & E & _) | [_ ?]]; [left; split; [done | lia] | by right].
    - intros [[-> ->] | Hs]; [left; lia | right]. split; [| done]. intros ->.
      apply stored_at_occupied in Hs. congruence. }
  split; [split |].
  - apply wf_set_slot; [apply Hi | done | lia].
  - intros q w [[-> ->] | Hs]%Hat; rewrite set_slot_length.
    + exists d. split; [done |]. split; [unfold chain_pos; by rewrite set_slot_length |].
      apply chain_set_slot; [done | lia |]. intros k Hk. specialize (Hocc k Hk).
      unfold occupied in Hocc. by destruct (Z.eqb_spec (raw a (chain_pos a v k)) 0).
    + destruct (inv_chain a Hi q w Hs) as (e & He & -> & Hc). exists e. split; [done |].
      split; [unfold chain_pos; by rewrite set_slot_length |].
      apply chain_set_slot; [done | lia | done].
  - intros q1 q2 w [[-> ->] | H1]%Hat [[-> E] | H2]%Hat; try done.
    + exfalso. apply Hn. by exists q2.
    + exfalso. apply Hn. exists q1. by rewrite <- E.
    + by apply (inv_uniq a Hi q1 q2 w).
  - intros w. unfold stored. setoid_rewrite Hat. naive_solver.
Qed.

Lemma smallintset_insert__spec a v :
  sis_inv a -> 0 <= v -> v + 1 < jl_max_int a -> ~ stored a v ->
  (exists p, 0 <= p < im_length a /\
     smallintset_insert_ a (hash v) (v + 1) = Ok (Some (set_slot a p (v + 1))) /\
     sis_inv (set_slot a p (v + 1)) /\
     (forall w, stored (set_slot a p (v + 1)) w <-> stored a w \/ w = v)) \/
  (smallintset_insert_ a (hash v) (v + 1) = Ok None /\
   (im_length a <= 1 \/
    (Z.to_nat (window (max_probe (im_length a)) (im_length a)) <= count a)%nat)).
Proof.
  intros Hi Hv Hm Hn. pose proof (inv_wf a Hi) as Hw. unfold smallintset_insert_.
  destruct (Z.leb_spec (im_length a) 1) as [|Hlen]; [right; split; [done | by left] |].
  assert (Hp2 : pow2 (im_length a)) by (destruct (wf_size a Hw); [lia | done]).
  unfold h2index. rewrite land_pow2 by done.
  assert (Hmp : 0 <= max_probe (im_length a)) by (apply max_probe_nonneg; lia).
  assert (Ho : 0 <= hash v mod im_length a < im_length a) by (apply Z.mod_pos_bound; lia).
  destruct (probe_window (insert_test a) (fun i => if occupied a i then None else Some i)
              (im_length a) Hp2 (fun i => insert_test_spec a i Hw) _ _ Hmp Ho)
    as [(d & x & Hd & Hx & Hb & ->) | [Hall ->]]; cbn [obind].
  - left. fold (chain_pos a v d) in Hx. destruct (occupied a (chain_pos a v d)) eqn:Ed; [done |].
    injection Hx as <-. exists (chain_pos a v d).
    assert (Hr : 0 <= chain_pos a v d < im_length a) by (apply slot_pos_range; lia).
    destruct (set_slot_inv a v d) as [Hi' Hst]; try done; [lia | |].
    { intros k Hk. specialize (Hb k Hk). fold (chain_pos a v k) in Hb.
      by destruct (occupied a (chain_pos a v k)). }
    rewrite jl_intset_release_spec by (done || lia). done.
  - right. split; [done | right]. apply (count_window a (hash v mod im_length a)); [lia | |].
    + unfold window. lia.
    + intros k Hk. specialize (Hall k Hk).
      by destruct (occupied a (slot_pos (im_length a) (hash v mod im_length a) k)).
Qed.

(** ** Lookup and removal *)

Lemma lookup_test_spec a eq i :
  wf_mem a -> 0 <= i < im_length a ->
  lookup_test a eq i =
  Ok (if raw a i =? 0 then Some (i, -1)
      else if occupied a i && eq (raw a i - 1) then Some (i, raw a i - 1) else None).
Proof.
  intros Hw Hi. pose proof (wf_range a Hw i Hi). pose proof (max_int_lt_SIZE_MAX a).
  unfold lookup_test. rewrite jl_intref_acquire_raw by done. cbn [obind]. unfold occupied.
  destruct (Z.eqb_spec (raw a i) (jl_max_int a)) as [E |].
  - destruct (Z.eqb_spec (raw a i) 0).
    + exfalso. unfold jl_max_int in E. pose proof (wf_any a Hw) as Hany.
      destruct (im_type a); try lia. specialize (Hany eq_refl). lia.
    + rewrite andb_false_r. done.
  - destruct (Z.eqb_spec (raw a i) SIZE_MAX); [lia |].
    destruct (Z.eqb_spec (raw a i) 0); cbn [negb andb]; [done |]. by destruct (eq _).
Qed.

(** [eq] selects at most indices whose hash is [hv]. *)
Definition eq_hash_compat (a : intmem) (eq : Z -> bool) (hv : Z) : Prop :=
  forall v, stored a v -> eq v = true -> hash v = hv.

Lemma jl_smallintset_lookup_spec a eq hv pop :
  sis_inv a -> eq_hash_compat a eq hv ->
  (exists p v, stored_at a p v /\ eq v = true /\
     jl_smallintset_lookup a eq hv pop =
     Ok (v, if pop then set_slot a p (jl_max_int a) else a)) \/
  ((forall v, stored a v -> eq v = false) /\ jl_smallintset_lookup a eq hv pop = Ok (-1, a)).
Proof.
  intros Hi Hcomp. pose proof (inv_wf a Hi) as Hw. unfold jl_smallintset_lookup.
  destruct (Z.eqb_spec (im_length a) 0) as [E0 | Hne].
  { right. split; [| done]. intros v (p & Hp & _). lia. }
  assert (Hp2 : pow2 (im_length a)) by (destruct (wf_size a Hw); [lia | done]).
  pose proof (pow2_pos _ Hp2) as Hpos.
  unfold h2index. rewrite land_pow2 by done.
  assert (Hmp : 0 <= max_probe (im_length a)) by (apply max_probe_nonneg; lia).
  assert (Ho : 0 <= hv mod im_length a < im_length a) by (apply Z.mod_pos_bound; lia).
  destruct (probe_window (lookup_test a eq) _ (im_length a) Hp2
              (fun i => lookup_test_spec a eq i Hw) _ _ Hmp Ho)
    as [(d & [i v] & Hd & Hx & Hb & ->) | [Hall ->]]; cbn [obind].
  - set (q := slot_pos (im_length a) (hv mod im_length a) d) in *.
    assert (Hq : 0 <= q < im_length a) by (apply slot_pos_range; lia).
    destruct (Z.eqb_spec (raw a q) 0) as [Hz | Hnz].
    + injection Hx as <- <-. rewrite Z.eqb_refl. right. split; [| done].
      intros w Hs. destruct (eq w) eqn:Ew; [| done]. exfalso.
      pose proof (Hcomp w Hs Ew) as Hh. destruct Hs as (p & Hp).
      destruct (inv_chain a Hi p w Hp) as (e & He & -> & Hc). unfold chain_pos in *.
      rewrite Hh in *. fold q in Hb.
      destruct (Z_lt_le_dec d e) as [Hlt | Hge]; [by apply (Hc d); [lia | fold q] |].
      destruct Hp as (_ & Hw0 & Hwm & Er).
      destruct (Z.eq_dec e d) as [-> | Hne']; [fold q in Er; lia |].
      specialize (Hb e ltac:(lia)). rewrite Er in Hb. cbn beta in Hb.
      destruct (Z.eqb_spec (w + 1) 0); [lia |]. unfold occupied in Hb. rewrite Er in Hb.
      destruct (Z.eqb_spec (w + 1) 0), (Z.eqb_spec (w + 1) (jl_max_int a)); try lia.
      replace (w + 1 - 1) with w in Hb by lia. by rewrite Ew in Hb.
    + destruct (occupied a q && eq (raw a q - 1)) eqn:Eo; [| done].
      injection Hx as <- <-. apply andb_true_iff in Eo as [Eocc Eeq].
      pose proof (occupied_stored_at a q Hw Hq Eocc) as Hs.
      destruct (Z.eqb_spec (raw a q - 1) (-1)); [destruct Hs; lia |].
      left. exists q, (raw a q - 1). split; [done |]. split; [done |].
      destruct pop; [by rewrite jl_intset_release_tombstone | done].
  - right. split; [| done]. intros w Hs. destruct (eq w) eqn:Ew; [| done]. exfalso.
    pose proof (Hcomp w Hs Ew) as Hh. destruct Hs as (p & Hp).
    destruct (inv_chain a Hi p w Hp) as (e & He & -> & Hc). unfold chain_pos in *.
    rewrite Hh in *. specialize (Hall e He). pose proof (stored_at_occupied _ _ _ Hp) as Hoc.
    destruct Hp as (_ & Hw0 & Hwm & Er). rewrite Hoc, Er in Hall.
    destruct (Z.eqb_spec (w + 1) 0); [lia |]. replace (w + 1 - 1) with w in Hall by lia.
    by rewrite Ew in Hall.
Qed.

Lemma pop_inv a p v :
  sis_inv a -> stored_at a p v ->
  sis_inv (set_slot a p (jl_max_int a)) /\
  (forall w, stored (set_slot a p (jl_max_int a)) w <-> stored a w /\ w <> v).
Proof.
  intros Hi Hs. pose proof Hs as (Hp & Hv & Hm & Er).
  assert (Hat : forall q w, stored_at (set_slot a p (jl_max_int a)) q w <-> q <> p /\ stored_at a q w).
  { intros q w. rewrite stored_at_set_slot by done. split; [intros [? | ?]; [lia | done] | by right]. }
  split; [split |].
  - apply wf_set_slot; [apply Hi | done | lia].
  - intros q w [Hne Hq]%Hat. rewrite set_slot_length.
    destruct (inv_chain a Hi q w Hq) as (e & He & -> & Hc). exists e. split; [done |].
    split; [unfold chain_pos; by rewrite set_slot_length |].
    apply chain_set_slot; [done | lia | done].
  - intros q1 q2 w [_ H1]%Hat [_ H2]%Hat. by apply (inv_uniq a Hi q1 q2 w).
  - intros w. unfold stored. setoid_rewrite Hat. split.
    + intros (q & Hne & Hq). split; [by exists q |]. intros ->. apply Hne.
      by apply (inv_uniq a Hi q p v).
    + intros [(q & Hq) Hne]. exists q. split; [| done]. intros ->. apply Hne.
      destruct Hq as (_ & _ & _ & E'). lia.
Qed.

(** ** Rehashing *)

Definition count_upto (a : intmem) (i : Z) : nat :=
  length (List.filter (occupied a) (positions i)).

Lemma count_upto_succ a i :
  0 <= i -> count_upto a (i + 1) = (count_upto a i + if occupied a i then 1 else 0)%nat.
Proof.
  intros Hi. unfold count_upto, positions.
  replace (Z.to_nat (i + 1)) with (Z.to_nat i + 1)%nat by lia.
  rewrite seq_app, map_app, List.filter_app, length_app. cbn [seq map Nat.add].
  rewrite Z2Nat.id by done. cbn. by destruct (occupied a i).
Qed.

Lemma raw_replicate ty n p : raw (IntMem ty (replicate n 0)) p = 0.
Proof.
  unfold raw. cbn. destruct (replicate n 0 !! Z.to_nat p) eqn:E; [| done].
  apply lookup_replicate_1 in E as [-> _]. done.
Qed.

Lemma occupied_replicate ty n p : occupied (IntMem ty (replicate n 0)) p = false.
Proof. unfold occupied. rewrite raw_replicate. done. Qed.

Lemma zeros_inv ty n :
  (ty = MemAny -> n = 0%nat) -> n = 0%nat \/ pow2 (Z.of_nat n) ->
  sis_inv (IntMem ty (replicate n 0)) /\
  (forall v, ~ stored (IntMem ty (replicate n 0)) v) /\
  count (IntMem ty (replicate n 0)) = 0%nat.
Proof.
  intros Hany Hsz.
  assert (Hst : forall p v, ~ stored_at (IntMem ty (replicate n 0)) p v).
  { intros p v Hs%stored_at_occupied. by rewrite occupied_replicate in Hs. }
  split_and!.
  - split; [split | |].
    + cbn. intros ->. unfold im_length. cbn. rewrite (Hany eq_refl). done.
    + intros p Hp. rewrite raw_replicate. unfold jl_max_int. cbn. destruct ty; lia.
    + unfold im_length. cbn. rewrite length_replicate. destruct Hsz as [-> |]; [by left | by right].
    + intros p v Hs. by apply Hst in Hs.
    + intros p q v Hs. by apply Hst in Hs.
  - intros v (p & Hs). by apply Hst in Hs.
  - unfold count. rewrite (List.filter_ext _ (fun _ => false)) by (intros; apply occupied_replicate).
    induction (positions _); done.
Qed.

Lemma jl_alloc_int_1d_spec np len :
  np < 0x7FFFFFFF -> len = 0 \/ pow2 len ->
  exists e, jl_alloc_int_1d np len = Ok e /\ sis_inv e /\ (forall v, ~ stored e v) /\
    count e = 0%nat /\ im_length e = len /\ np < jl_max_int e /\
    0xFF <= jl_max_int e.
Proof.
  intros Hnp Hlen. unfold jl_alloc_int_1d. destruct (Z.ltb_spec np 0x7FFFFFFF); [| lia].
  assert (Hpos : 0 <= len) by (destruct Hlen as [-> | Hp%pow2_pos]; lia).
  eexists. split; [reflexivity |].
  match goal with |- context [smallintset_empty (IntMem ?t _)] => set (ty := t) end.
  assert (Hty : ty <> MemAny) by (unfold ty; repeat zcase; done).
  assert (E : smallintset_empty (IntMem ty (replicate (Z.to_nat len) 0))
              = IntMem ty (replicate (Z.to_nat len) 0)).
  { unfold smallintset_empty. cbn. rewrite length_replicate. by destruct ty. }
  rewrite E. destruct (zeros_inv ty (Z.to_nat len)) as (H1 & H2 & H3); [done | |].
  { destruct Hlen as [-> | Hp]; [by left | right; by rewrite Z2Nat.id]. }
  split_and!; try done.
  - unfold im_length. cbn. rewrite length_replicate. lia.
  - unfold jl_max_int, ty. cbn. repeat (zcase; try lia).
  - unfold jl_max_int, ty. cbn. repeat (zcase; try lia).
Qed.

Lemma rehash_max_spec a n : forall i np,
  wf_mem a -> 0 <= np -> 0 <= i -> i + Z.of_nat n = im_length a ->
  exists m, rehash_max a n i np = Ok m /\ np <= m /\
    (forall p, i <= p < im_length a -> occupied a p = true -> raw a p <= m) /\
    (m = np \/ exists p, i <= p < im_length a /\ occupied a p = true /\ raw a p = m).
Proof.
  induction n as [| n IH]; intros i np Hw Hnp Hi Hn; cbn [rehash_max].
  - exists np. split_and!; [done | lia | intros; lia | by left].
  - rewrite jl_intref_raw by (done || lia). cbn [obind].
    pose proof (wf_range a Hw i ltac:(lia)) as Hr.
    set (np' := if np <? (if occupied a i then raw a i else 0)
                then (if occupied a i then raw a i else 0) else np).
    assert (Hnp' : np <= np' /\ (occupied a i = true -> raw a i <= np') /\
                   (np' = np \/ (occupied a i = true /\ raw a i = np'))).
    { unfold np'. destruct (occupied a i); zcase; split_and!; try lia; intros; try done; try lia;
        try (by left); by right. }
    destruct Hnp' as (H1 & H2 & H3).
    destruct (IH (i + 1) np') as (m & E & Hm & Hall & Hex); [done | lia | lia | lia |].
    exists m. split; [done |]. split; [lia |]. split.
    + intros p Hp Ho. destruct (Z.eq_dec p i) as [-> |]; [specialize (H2 Ho); lia | apply Hall; [lia | done]].
    + destruct Hex as [-> | (p & Hp & Ho & Er)]; [| right; exists p; split; [lia | done]].
      destruct H3 as [| [Ho Er]]; [by left | right; exists i; split; [lia | done]].
Qed.

(** The copying loop, from slot [i] on: it moves every index that is still
    to come, or stops at a full window. *)
Lemma rehash_copy_spec a n : forall i newa,
  sis_inv a -> sis_inv newa -> 0 <= i -> i + Z.of_nat n = im_length a ->
  (forall w, stored newa w <-> exists p, p < i /\ stored_at a p w) ->
  (forall p w, stored_at a p w -> w + 1 < jl_max_int newa) ->
  (count newa <= count_upto a i)%nat ->
  (exists b, rehash_copy a hash n i newa = Ok (Some b) /\ sis_inv b /\
     (forall w, stored b w <-> stored a w) /\ (count b <= count a)%nat /\
     im_length b = im_length newa /\ jl_max_int b = jl_max_int newa) \/
  ((0 < n)%nat /\ rehash_copy a hash n i newa = Ok None /\
   (im_length newa <= 1 \/
    (Z.to_nat (window (max_probe (im_length newa)) (im_length newa)) <= count a)%nat)).
Proof.
  induction n as [| n IH]; intros i newa Ha Hna Hi Hn Hst Hmax Hcnt; cbn [rehash_copy].
  - left. exists newa. split_and!; try done.
    + intros w. rewrite Hst. split; [intros (p & _ & Hp); by exists p |].
      intros (p & Hp). exists p. split; [destruct Hp; lia | done].
    + by replace i with (im_length a) in Hcnt by lia.
  - assert (Hir : 0 <= i < im_length a) by lia. pose proof (inv_wf a Ha) as Hw.
    rewrite jl_intref_raw by done. cbn [obind]. pose proof (count_upto_succ a i Hi) as Hcs.
    destruct (occupied a i) eqn:Eo.
    + pose proof (occupied_stored_at a i Hw Hir Eo) as Hs.
      set (v := raw a i - 1) in *. replace (raw a i) with (v + 1) by lia.
      pose proof Hs as (_ & Hv & _). destruct (Z.eqb_spec (v + 1) 0); [lia |]. cbn [negb].
      replace (v + 1 - 1) with v by lia.
      assert (Hnew : ~ stored newa v).
      { rewrite Hst. intros (p & Hp & Hp'). pose proof (inv_uniq a Ha p i v Hp' Hs). lia. }
      destruct (smallintset_insert__spec newa v Hna Hv (Hmax _ _ Hs) Hnew)
        as [(p & Hp & -> & Hinv & Hst') | [-> Hfull]]; cbn [obind].
      * destruct (IH (i + 1) (set_slot newa p (v + 1)) Ha Hinv) as [HL | HR]; try lia; try done.
        -- intros w. rewrite Hst', Hst. split.
           ++ intros [(q & Hq & Hqs) | ->]; [exists q; split; [lia | done] | exists i; split; [lia | done]].
           ++ intros (q & Hq & Hqs). destruct (Z.eq_dec q i) as [-> |]; [right | left; exists q; split; [lia | done]].
              destruct Hqs as (_ & _ & _ & E). lia.
        -- pose proof (count_set_slot newa p (v + 1) Hp). lia.
        -- rewrite set_slot_length, set_slot_max in HL. by left.
        -- rewrite set_slot_length in HR. right. split; [lia | apply HR].
      * right. split; [lia |]. split; [done |]. destruct Hfull as [? | Hf]; [by left | right].
        enough (count_upto a i <= count a)%nat by lia.
        unfold count, count_upto. replace (im_length a) with (i + Z.of_nat (S n)) by lia.
        unfold positions. rewrite Z2Nat.inj_add, seq_app, map_app, List.filter_app, length_app by lia. lia.
    + cbn [Z.eqb negb].
      destruct (IH (i + 1) newa Ha Hna) as [HL | HR]; try done; try lia;
        [| by left | right; split; [lia | apply HR]].
      intros w. rewrite Hst. split; intros (q & Hq & Hqs); exists q; (split; [| done]); [lia |].
      destruct (Z.eq_dec q i) as [-> |]; [| lia]. apply stored_at_occupied in Hqs. congruence.
Qed.

(** A window this large cannot be full. *)
Lemma window_large sz n :
  64 * Z.of_nat n + 1024 < sz -> (n < Z.to_nat (window (max_probe sz) sz))%nat.
Proof.
  clear hash. intros H. unfold window, max_probe. destruct (Z.leb_spec sz 1024); [lia |].
  rewrite shiftr_pow by lia. change (2 ^ 6) with 64. dlia.
Qed.

(** What [smallintset_rehash] promises. *)
Definition rehashed (a b : intmem) (newsz np : Z) : Prop :=
  sis_inv b /\ (forall w, stored b w <-> stored a w) /\ (count b <= count a)%nat /\
  newsz <= im_length b /\ np + 1 < jl_max_int b /\ 0xFF <= jl_max_int b.

Lemma rehash_loop_spec a np : forall fuel newsz,
  sis_inv a -> 0 <= np -> np + 1 < 0x7FFFFFFF ->
  (forall p, 0 <= p < im_length a -> occupied a p = true -> raw a p <= np) ->
  (newsz = 0 /\ im_length a = 0 /\ (0 < fuel)%nat) \/
  (pow2 newsz /\ 64 * Z.of_nat (count a) + 1024 < newsz * 2 ^ (Z.of_nat fuel - 1)) ->
  exists b, rehash_loop fuel a hash newsz np = Ok b /\ rehashed a b newsz np.
Proof.
  induction fuel as [| fuel IH]; intros newsz Ha Hnp Hmx Hall Hf.
  { exfalso. destruct Hf as [(_ & _ & ?) | [_ Hf]]; [lia |]. cbn in Hf. lia. }
  cbn [rehash_loop].
  destruct (jl_alloc_int_1d_spec (np + 1) newsz) as (e & -> & He & Hne & Hce & Hle & Hmax & Hff);
    [done | destruct Hf as [(? & _) | [? _]]; [by left | by right] |].
  cbn [obind].
  destruct (rehash_copy_spec a (length (im_data a)) 0 e Ha He)
    as [(b & -> & Hb & Hst & Hcnt & Hlen & Hmb) | (Hn & -> & Hfull)]; try lia; try done.
  - intros w. split; [intros Hs; by apply Hne in Hs |]. intros (p & Hp & Hs). destruct Hs; lia.
  - intros p w Hs. pose proof (stored_at_occupied a p w Hs) as Ho. destruct Hs as (Hp & _ & _ & E).
    specialize (Hall p Hp Ho). lia.
  - cbn [obind]. exists b. split; [done |]. unfold rehashed. rewrite Hlen, Hmb, Hle.
    split_and!; try done; lia.
  - cbn [obind]. destruct Hf as [(-> & Hz & _) | [Hp2 Hf]]; [unfold im_length in Hz; lia |].
    pose proof (pow2_pos _ Hp2) as Hpos. rewrite Hle in Hfull.
    assert (Hsmall : newsz <= 64 * Z.of_nat (count a) + 1024).
    { apply Z.nlt_ge. intros Hlt. pose proof (window_large newsz (count a) Hlt). lia. }
    rewrite Nat2Z.inj_succ in Hf.
    destruct fuel as [| fuel]; [cbn in Hf; lia |].
    destruct (IH (Z.shiftl newsz 1) Ha Hnp Hmx Hall) as (b & Eb & Hb).
    { right. split; [by apply pow2_double |]. rewrite shiftl_pow by lia.
      rewrite Nat2Z.inj_succ in *.
      replace (Z.succ (Z.succ (Z.of_nat fuel)) - 1) with (1 + (Z.succ (Z.of_nat fuel) - 1)) in Hf by lia.
      rewrite Z.pow_add_r in Hf by lia. lia. }
    exists b. split; [done |]. unfold rehashed in *. rewrite shiftl_pow in Hb by lia.
    split_and!; try apply Hb. lia.
Qed.

Lemma smallintset_rehash_spec fuel a newsz np :
  sis_inv a -> 0 <= np -> np + 1 < 0x7FFFFFFF ->
  (forall w, stored a w -> w + 2 < 0x7FFFFFFF) ->
  (newsz = 0 /\ im_length a = 0 /\ (0 < fuel)%nat) \/
  (pow2 newsz /\ 64 * Z.of_nat (count a) + 1024 < newsz * 2 ^ (Z.of_nat fuel - 1)) ->
  exists b, smallintset_rehash fuel a hash newsz np = Ok b /\
    rehashed a b newsz np /\ (forall w, stored a w -> w + 2 < jl_max_int b).
Proof.
  intros Ha Hnp Hmx Hst Hf. pose proof (inv_wf a Ha) as Hw. unfold smallintset_rehash.
  destruct (rehash_max_spec a (length (im_data a)) 0 np Hw Hnp) as (m & -> & Hm & Hall & Hex);
    [lia | unfold im_length; lia |]. cbn [obind].
  assert (Hmb : m + 1 < 0x7FFFFFFF).
  { destruct Hex as [-> | (p & Hp & Ho & <-)]; [done |].
    pose proof (occupied_stored_at a p Hw Hp Ho) as Hs.
    assert (Hs' : stored a (raw a p - 1)) by (by exists p). apply Hst in Hs'. lia. }
  destruct (rehash_loop_spec a m fuel newsz Ha) as (b & -> & Hb); [lia | done | done | done |].
  exists b. split; [done |]. unfold rehashed in *. split; [split_and!; try apply Hb; lia |].
  intros w (p & Hs). pose proof (stored_at_occupied a p w Hs) as Ho. destruct Hs as (Hp & _ & _ & E).
  specialize (Hall p Hp Ho). lia.
Qed.

(** ** Insertion *)

Lemma grow_size_spec sz :
  0 <= sz -> sz = 0 \/ pow2 sz -> pow2 (grow_size sz) /\ 2 * Z.max sz 1 <= grow_size sz.
Proof.
  intros Hsz Hp. unfold grow_size, HT_N_INLINE. change (Z.shiftl 1 19) with 524288.
  change (Z.shiftl 1 8) with 256.
  destruct (Z.ltb_spec sz 32) as [Hlt |].
  { split; [exists 5; split; [lia | reflexivity] |].
    destruct Hp as [-> | (m & Hm & ->)]; [lia |].
    assert (m < 5) by (apply (Z.pow_lt_mono_r_iff 2); lia).
    assert (2 ^ m <= 2 ^ 4) by (apply Z.pow_le_mono_r; lia). lia. }
  assert (Hp' : pow2 sz) by (destruct Hp; [lia | done]).
  destruct ((524288 <=? sz) || (sz <=? 256)).
  - split; [by apply pow2_double |]. rewrite shiftl_pow by lia. lia.
  - split; [by apply pow2_quadruple |]. rewrite shiftl_pow by lia. lia.
Qed.

(** The index fits the element type after every growth: it is below the
    smallest tombstone, or at most one above a stored index. *)
Definition fits (a : intmem) (val : Z) : Prop :=
  val + 1 < 0xFF \/ exists w, stored a w /\ val <= w + 1.

Lemma insert_loop_spec : forall fuel a val,
  sis_inv a -> 0 <= val -> val + 1 < jl_max_int a -> ~ stored a val -> fits a val ->
  (forall w, stored a w -> w + 2 < 0x7FFFFFFF) ->
  64 * Z.of_nat (count a) + 1024 < Z.max (im_length a) 1 * 2 ^ (Z.of_nat fuel - 1) ->
  exists b, insert_loop fuel a hash val = Ok b /\ sis_inv b /\
    (forall w, stored b w <-> stored a w \/ w = val).
Proof.
  induction fuel as [| fuel IH]; intros a val Ha Hv Hm Hn Hfit Hst Hf; [cbn in Hf; lia |].
  cbn [insert_loop].
  destruct (smallintset_insert__spec a val Ha Hv Hm Hn) as [(p & Hp & -> & Hi & Hst') | [-> Hfull]];
    cbn [obind]; [by exists (set_slot a p (val + 1)) |].
  assert (Hsmall : Z.max (im_length a) 1 <= 64 * Z.of_nat (count a) + 1024).
  { apply Z.nlt_ge. intros Hlt. pose proof (window_large (im_length a) (count a)). lia. }
  destruct fuel as [| fuel]; [cbn in Hf; lia |]. rewrite !Nat2Z.inj_succ in Hf.
  assert (Hlen : 0 <= im_length a) by (unfold im_length; lia).
  destruct (grow_size_spec (im_length a) Hlen (wf_size a (inv_wf a Ha))) as [Hp2 Hgrow].
  replace (Z.succ (Z.succ (Z.of_nat fuel)) - 1) with (1 + Z.of_nat fuel) in Hf by lia.
  rewrite Z.pow_add_r in Hf by lia. change (2 ^ 1) with 2 in Hf.
  assert (H2 : 0 < 2 ^ Z.of_nat fuel) by (apply Z.pow_pos_nonneg; lia).
  destruct (smallintset_rehash_spec (S fuel) a (grow_size (im_length a)) 0)
    as (b & -> & Hb & Hroom); try done; try lia.
  { right. split; [done |]. rewrite Nat2Z.inj_succ.
    replace (Z.succ (Z.of_nat fuel) - 1) with (Z.of_nat fuel) by lia. nia. }
  cbn [obind]. destruct Hb as (Hbi & Hbs & Hbc & Hbl & _ & Hff).
  destruct (IH b val) as (c & Ec & Hc & Hcs); try done.
  - destruct Hfit as [? | (w & Hw & ?)]; [lia |]. specialize (Hroom w Hw). lia.
  - by rewrite Hbs.
  - destruct Hfit as [? | (w & Hw & ?)]; [by left | right; exists w; by rewrite Hbs].
  - intros w Hw. apply Hst. by apply Hbs.
  - rewrite Nat2Z.inj_succ. replace (Z.succ (Z.of_nat fuel) - 1) with (Z.of_nat fuel) by lia. nia.
  - exists c. split; [done |]. split; [done |]. intros w. by rewrite Hcs, Hbs.
Qed.

Lemma count_le_length a : (count a <= length (im_data a))%nat.
Proof.
  unfold count. etransitivity; [apply List.filter_length_le |].
  unfold positions. rewrite length_map, length_seq. unfold im_length. lia.
Qed.

Lemma jl_smallintset_insert_spec fuel a val :
  sis_inv a -> 0 <= val -> val + 2 < 0x7FFFFFFF -> ~ stored a val -> fits a val ->
  (forall w, stored a w -> w + 2 < 0x7FFFFFFF) ->
  64 * im_length a + 1024 < 2 ^ (Z.of_nat fuel - 1) ->
  exists b, jl_smallintset_insert fuel a hash val = Ok b /\ sis_inv b /\
    (forall w, stored b w <-> stored a w \/ w = val).
Proof.
  intros Ha Hv Hvm Hn Hfit Hst Hf. unfold jl_smallintset_insert.
  pose proof (count_le_length a) as Hcl. unfold im_length in Hf.
  destruct (Z.leb_spec (jl_max_int a) (val + 1)) as [Hbig | Hok]; cbn [obind].
  - destruct (smallintset_rehash_spec fuel a (im_length a) (val + 1))
      as (b & -> & Hb & Hroom); try done; try lia.
    { destruct (wf_size a (inv_wf a Ha)) as [H0 | Hp].
      - left. split_and!; [done | done |]. destruct fuel; [cbn in Hf; lia | lia].
      - right. split; [done |]. apply pow2_pos in Hp. unfold im_length in *. nia. }
    cbn [obind]. destruct Hb as (Hbi & Hbs & Hbc & Hbl & Hbm & Hff).
    destruct (insert_loop_spec fuel b val) as (c & Ec & Hc & Hcs); try done; try lia.
    + by rewrite Hbs.
    + destruct Hfit as [? | (w & Hw & ?)]; [by left | right; exists w; by rewrite Hbs].
    + intros w Hw. apply Hst. by apply Hbs.
    + nia.
    + exists c. split; [done |]. split; [done |]. intros w. by rewrite Hcs, Hbs.
  - apply insert_loop_spec; try done. nia.
Qed.
End IntSet.

(** ** Properties *)

(** in a table that satisfies the invariant, [jl_smallintset_lookup]
    decides membership: given an equality callback that only accepts indices
    whose hash is [hv], it returns -1 exactly when no stored index is
    accepted, and otherwise an accepted stored index.  Without [pop] the table
    is unchanged; with [pop] the invariant is kept and exactly the returned
    index is removed. *)
Theorem jl_smallintset_lookup_correct hash a eq hv pop :
  sis_inv hash a -> eq_hash_compat hash a eq hv ->
  exists r b, jl_smallintset_lookup a eq hv pop = Ok (r, b) /\
    (r = -1 <-> forall v, stored a v -> eq v = false) /\
    (r <> -1 -> stored a r /\ eq r = true) /\
    sis_inv hash b /\
    (forall w, stored b w <-> stored a w /\ ~ (pop = true /\ w = r)).
Proof.
  intros Hi Hc.
  destruct (jl_smallintset_lookup_spec hash a eq hv pop Hi Hc)
    as [(p & v & Hs & He & ->) | [Hn ->]].
  - pose proof Hs as (_ & Hv & _). exists v. eexists. split; [reflexivity |].
    split; [split; [lia |] |].
    { intros H. rewrite (H v) in He by (by exists p). done. }
    split; [intros _; split; [by exists p | done] |].
    destruct pop.
    + destruct (pop_inv hash a p v Hi Hs) as [Hi' Hs']. split; [done |].
      intros w. rewrite Hs'. naive_solver.
    + split; [done |]. naive_solver.
  - exists (-1), a. split; [done |]. split; [done |]. split; [done |]. split; [done |].
    intros w. split; [| by intros [? _]]. intros Hw. split; [done |]. intros [_ ->].
    destruct Hw as (p & _ & ? & _). lia.
Qed.


Definition empty_intmem : intmem := IntMem MemAny [].

Lemma empty_intmem_inv hash : sis_inv hash empty_intmem /\ forall v, ~ stored empty_intmem v.
Proof. destruct (zeros_inv hash MemAny 0) as (? & ? & _); [done | by left | done]. Qed.


Lemma jl_smallintset_lookup_correct_witness :
  exists r b, jl_smallintset_lookup empty_intmem (Z.eqb 3) 5 true = Ok (r, b) /\ r = -1.
Proof.
  destruct (empty_intmem_inv (fun _ => 5)) as [Hi Hn].
  destruct (jl_smallintset_lookup_correct (fun _ => 5) empty_intmem (Z.eqb 3) 5 true)
    as (r & b & E & Hr & _); [exact Hi | intros v _ _; reflexivity |].
  exists r, b. split; [exact E |]. apply Hr. intros v Hv. destruct (Hn v Hv).
Defined.

(** A [uint8] table whose 17 indices share a home slot and fill its window. *)
Definition crowded : intmem :=
  IntMem MemUInt8 (map (fun i => if i <? 17 then i + 1 else 0) (map Z.of_nat (seq 0 32))).

(** C31: without [fits] insertion can corrupt the table.  Inserting 300 into
    [crowded] first widens it to [uint16], then finds the window full; the
    growing rehash passes 0 for [np], so the new table is [uint8] again, and
    301 is stored as 45: afterwards 300 is not found and 44, never inserted,
    is. *)
Theorem smallintset_insert_narrowing :
  exists b,
    jl_smallintset_insert 12 crowded (fun _ => 0) 300 = Ok b /\
    im_type b = MemUInt8 /\
    jl_smallintset_lookup b (Z.eqb 300) 0 false = Ok (-1, b) /\
    jl_smallintset_lookup b (Z.eqb 44) 0 false = Ok (44, b) /\
    jl_smallintset_lookup crowded (Z.eqb 44) 0 false = Ok (-1, crowded).
Proof.
  eexists. split; [vm_compute; reflexivity |]. vm_compute. repeat split.
Qed.

(** C30: [smallintset_rehash] returns a table with exactly the same indices, at
    least as large as asked and wide enough for [np + 1], in enough fuel. *)
Theorem smallintset_rehash_correct hash fuel a newsz np :
  sis_inv hash a -> 0 <= np -> np + 1 < 0x7FFFFFFF ->
  (forall w, stored a w -> w + 2 < 0x7FFFFFFF) ->
  pow2 newsz -> 64 * im_length a + 1024 < newsz * 2 ^ (Z.of_nat fuel - 1) ->
  exists b, smallintset_rehash fuel a hash newsz np = Ok b /\ sis_inv hash b /\
    (forall w, stored b w <-> stored a w) /\ newsz <= im_length b /\ np + 1 < jl_max_int b.
Proof.
  intros Ha Hnp Hm Hst Hp Hf.
  destruct (smallintset_rehash_spec hash fuel a newsz np) as (b & E & Hb & _); try done.
  { right. split; [done |]. pose proof (count_le_length a). unfold im_length in Hf. lia. }
  exists b. split; [done |]. destruct Hb as (? & ? & _ & ? & ? & _). done.
Qed.

Lemma smallintset_rehash_correct_witness :
  exists b, smallintset_rehash 12 empty_intmem (fun v => v) 64 10 = Ok b /\ 64 <= im_length b.
Proof.
  destruct (empty_intmem_inv (fun v => v)) as [Hi Hn].
  destruct (smallintset_rehash_correct (fun v => v) 12 empty_intmem 64 10) as (b & E & _ & _ & Hl & _);
    [exact Hi | lia | lia | intros w Hw; destruct (Hn w Hw) | exists 6; split; [lia | reflexivity]
    | vm_compute; reflexivity |].
  exists b. split; [exact E | exact Hl].
Defined.
