(* ===== verification/Identity.v ===== *)
(** * Object identity as the tables see it (builtins.c)

    The identity tables of iddict.c and idset.c rest on two functions of
    builtins.c, [jl_egal] and [jl_object_id].  What they rely on is stated
    here as an interface: [jl_egal] is an equivalence and equal objects have
    the same hash. *)

From stdpp Require Import base list numbers option.
From Stdlib Require Import ZArith Lia.
From S2P Require Import Prelude Probe.

Class Identity (V : Type) := {
  jl_egal : V -> V -> bool;
  jl_object_id : V -> Z;
  jl_egal_refl : forall x, jl_egal x x = true;
  jl_egal_sym : forall x y, jl_egal x y = jl_egal y x;
  jl_egal_trans : forall x y z, jl_egal x y = true -> jl_egal y z = true -> jl_egal x z = true;
  jl_egal_object_id : forall x y, jl_egal x y = true -> jl_object_id x = jl_object_id y
}.

(** Boxed integers compared by value, with the hash [hash]. *)
Program Definition Z_identity (hash : Z -> Z) : Identity Z :=
  {| jl_egal := Z.eqb; jl_object_id := hash |}.
Next Obligation. intros. apply Z.eqb_refl. Qed.
Next Obligation. intros. apply Z.eqb_sym. Qed.
Next Obligation. intros hash x y z ->%Z.eqb_eq. done. Qed.
Next Obligation. intros hash x y ->%Z.eqb_eq. done. Qed.

(** ** Rounding up to a power of two (support/dtypes.h)

    The argument is an [unsigned int]. *)
Definition next_power_of_two (val : Z) : Z :=
  let val := u32 (u32 val - 1) in
  let val := Z.lor val (Z.shiftr val 1) in
  let val := Z.lor val (Z.shiftr val 2) in
  let val := Z.lor val (Z.shiftr val 4) in
  let val := Z.lor val (Z.shiftr val 8) in
  let val := Z.lor val (Z.shiftr val 16) in
  u32 (val + 1).

(** [x] has its [k] top bits from [n] down set, and nothing above. *)
Definition top_ones (n k x : Z) : Prop :=
  (forall i, n <= i -> Z.testbit x i = false) /\
  (forall i, n - k <= i < n -> 0 <= i -> Z.testbit x i = true).

Lemma top_ones_double n k x :
  0 <= k -> top_ones n k x -> top_ones n (2 * k) (Z.lor x (Z.shiftr x k)).
Proof.
  intros Hk [Hhi Hlo]. split; intros i Hi.
  - destruct (Z_lt_le_dec i 0); [by rewrite Z.testbit_neg_r |].
    rewrite Z.lor_spec, Z.shiftr_spec, !Hhi by lia. done.
  - intros Hi0. rewrite Z.lor_spec, Z.shiftr_spec by lia.
    destruct (Z_lt_le_dec i (n - k)); [rewrite (Hlo (i + k)) by lia; apply orb_true_r |].
    by rewrite Hlo by lia.
Qed.

Lemma top_ones_full n k x : 0 <= n <= k -> top_ones n k x -> x = Z.ones n.
Proof.
  intros Hn [Hhi Hlo]. apply Z.bits_inj'. intros i Hi. rewrite Z.testbit_ones_nonneg by lia.
  destruct (Z.ltb_spec i n); [apply Hlo | apply Hhi]; lia.
Qed.

Lemma next_power_of_two_spec val :
  1 <= val <= 2 ^ 31 ->
  pow2 (next_power_of_two val) /\ val <= next_power_of_two val < 2 * val.
Proof.
  intros Hv. unfold next_power_of_two. rewrite (u32_small val), (u32_small (val - 1)) by lia.
  destruct (Z.eq_dec val 1) as [-> | Hv1]; [vm_compute; split; [by exists 0 | done] |].
  set (n := Z.log2 (val - 1) + 1).
  assert (Hn : 1 <= n <= 31).
  { unfold n. pose proof (Z.log2_nonneg (val - 1)). split; [lia |].
    enough (Z.log2 (val - 1) < 31) by lia. apply Z.log2_lt_pow2; lia. }
  assert (H0 : top_ones n 1 (val - 1)).
  { unfold n. split; intros i Hi; [apply Z.bits_above_log2; lia |]. intros _.
    replace i with (Z.log2 (val - 1)) by lia. apply Z.bit_log2. lia. }
  repeat lazymatch goal with
  | H : top_ones n ?k ?x |- context [Z.lor ?x (Z.shiftr ?x ?k')] =>
      apply top_ones_double in H; [| lia]; change (2 * k) with (2 * k') in H;
      change (k) with k' in H; let m := eval cbv in (2 * k') in change (2 * k') with m in H
  end.
  apply top_ones_full in H0; [| lia]. rewrite H0, Z.ones_equiv.
  assert (Hp : 2 ^ n <= 2 ^ 31) by (apply Z.pow_le_mono_r; lia).
  assert (0 < 2 ^ n) by (apply Z.pow_pos_nonneg; lia).
  rewrite u32_small by lia. replace (Z.pred (2 ^ n) + 1) with (2 ^ n) by lia.
  pose proof (Z.log2_spec (val - 1) ltac:(lia)) as Hs. rewrite <- Z.add_1_r in Hs. fold n in Hs.
  assert (2 ^ n = 2 * 2 ^ Z.log2 (val - 1)) by (unfold n; rewrite Z.pow_add_r by (try apply Z.log2_nonneg; lia); lia).
  split; [exists n; split; [lia | done] | lia].
Qed.
