(* ===== verification/IdSet.v ===== *)
(** * Identity sets (idset.c)

    An [IdSet] is a memory of keys, [NULL] ([None]) where there is none, and a
    small integer set of the indices of the keys, hashed by [jl_object_id] of
    the key and compared by [jl_egal].  The two memories are returned by the
    operations the way the C functions return them or update them in place. *)

From stdpp Require Import base sets list numbers option.
From Stdlib Require Import ZArith Lia.
From S2P Require Import Prelude Probe Identity SmallIntSet.

Section IdSet.
Context {V : Type} `{!Identity V}.

(** An index past the end, a failed assertion of [jl_genericmemory_ptr_ref],
    is treated like a [NULL] key by the two callbacks. *)
Definition key_at (keys : list (option V)) (idx : Z) : option V :=
  default None (keys !! Z.to_nat idx).

Definition idset_hash (keys : list (option V)) (idx : Z) : Z :=
  match key_at keys idx with
  | None => 0
  | Some x => jl_object_id x
  end.

Definition idset_eq (keys : list (option V)) (y : V) (idx : Z) : bool :=
  match key_at keys idx with
  | None => false
  | Some x => jl_egal x y
  end.

(** Iterations that always suffice for a table of this size. *)
Definition table_fuel (idxs : intmem) : nat :=
  Z.to_nat (Z.log2 (64 * im_length idxs + 1024) + 2).

Definition jl_idset_rehash (keys : list (option V)) (idxs : intmem) (newsz : Z)
    : outcome intmem :=
  if newsz =? 0 then Ok idxs
  else
    let newsz := next_power_of_two newsz in
    smallintset_rehash (table_fuel idxs) idxs (idset_hash keys) newsz 0.

Definition jl_idset_peek_bp (keys : list (option V)) (idxs : intmem) (key : V) : outcome Z :=
  let hv := jl_object_id key in
  let! (idx, _) := jl_smallintset_lookup idxs (idset_eq keys key) hv false in
  Ok idx.

Definition jl_idset_get (keys : list (option V)) (idxs : intmem) (key : V)
    : outcome (option V) :=
  let! idx := jl_idset_peek_bp keys idxs key in
  if idx =? -1 then Ok None
  else rd keys idx.

(** The loop of [idset_compact], [n] slots before the end. *)
Fixpoint compact_loop (n : nat) (keys : list (option V)) (i j : Z) (rehash : bool)
    : outcome (list (option V) * Z) :=
  match n with
  | O => Ok (keys, if rehash then - j else j)
  | S n' =>
      let! k := rd keys i in
      match k with
      | Some _ =>
          if negb (i =? j) then
            let! keys := wr keys j k in
            let! keys := wr keys i None in
            compact_loop n' keys (i + 1) (j + 1) true
          else compact_loop n' keys (i + 1) (j + 1) rehash
      | None => compact_loop n' keys (i + 1) j rehash
      end
  end.

Definition idset_compact (keys : list (option V)) : outcome (list (option V) * Z) :=
  compact_loop (length keys) keys 0 0 false.

(** [while (i > 0 && keys[i - 1] == NULL) i--] *)
Fixpoint put_key_scan (keys : list (option V)) (i : nat) : outcome Z :=
  match i with
  | O => Ok 0
  | S i' =>
      let! k := rd keys (Z.of_nat i') in
      match k with
      | None => put_key_scan keys i'
      | Some _ => Ok (Z.of_nat i)
      end
  end.

(** The keys returned and [*newidx]. *)
Definition jl_idset_put_key (keys : list (option V)) (key : V)
    : outcome (list (option V) * Z) :=
  let l := Z.of_nat (length keys) in
  let! i := put_key_scan keys (length keys) in
  let newidx := i in
  let! (keys, i, newidx) :=
    if i =? l then
      let! (keys, i) := idset_compact keys in
      let (newidx, i) := if i <? 0 then (i - 1, - i) else (newidx, i) in
      if l / 3 * 2 <=? i then
        let nl := if l <? 4 then 4 else Z.shiftr (l * 3) 1 in
        let nk := take (Z.to_nat i) keys ++ replicate (Z.to_nat (nl - i)) None in
        Ok (nk, i, newidx)
      else Ok (keys, i, newidx)
    else Ok (keys, i, newidx) in
  let! k := rd keys i in
  match k with
  | Some _ => UB
  | None =>
      let! keys := wr keys i (Some key) in
      Ok (keys, newidx)
  end.

(** The full rehash, [n] indices from [i] on. *)
Fixpoint put_idx_loop (n : nat) (keys : list (option V)) (newidxs : intmem) (i : Z)
    : outcome intmem :=
  match n with
  | O => Ok newidxs
  | S n' =>
      let! k := rd keys i in
      match k with
      | Some _ =>
          let! newidxs :=
            jl_smallintset_insert (table_fuel newidxs) newidxs (idset_hash keys) i in
          put_idx_loop n' keys newidxs (i + 1)
      | None => put_idx_loop n' keys newidxs (i + 1)
      end
  end.

Definition jl_idset_put_idx (keys : list (option V)) (idxs : intmem) (idx : Z)
    : outcome intmem :=
  if idx <? 0 then
    put_idx_loop (Z.to_nat (- idx)) keys (smallintset_empty idxs) 0
  else jl_smallintset_insert (table_fuel idxs) idxs (idset_hash keys) idx.

(** The returned index, and both memories after the call. *)
Definition jl_idset_pop (keys : list (option V)) (idxs : intmem) (key : V)
    : outcome (Z * list (option V) * intmem) :=
  let hv := jl_object_id key in
  let! (idx, idxs) := jl_smallintset_lookup idxs (idset_eq keys key) hv true in
  if negb (idx =? -1) then
    let! keys := wr keys idx None in
    Ok (idx, keys, idxs)
  else Ok (idx, keys, idxs).

(** ** The table of global roots (staticdata.c)

    What [jl_as_global_root] does from its first lookup on, for a value that is
    not globally rooted already, no wrapper of a type and no small boxed
    integer: for those it has returned before.  The lookup is repeated under
    the lock. *)
Definition global_root_in_table (keys : list (option V)) (idxs : intmem) (val : V) (insert : bool)
    : outcome (option V * list (option V) * intmem) :=
  let! rval := jl_idset_get keys idxs val in
  match rval with
  | Some r => Ok (Some r, keys, idxs)
  | None =>
      let! rval := jl_idset_get keys idxs val in
      match rval with
      | Some r => Ok (Some r, keys, idxs)
      | None =>
          if insert then
            let! (keys, idx) := jl_idset_put_key keys val in
            let! idxs := jl_idset_put_idx keys idxs idx in
            Ok (Some val, keys, idxs)
          else Ok (None, keys, idxs)
      end
  end.

(** A sequence of calls that get that far, each with its [insert] flag. *)
Fixpoint global_roots_run (ops : list (V * bool)) (keys : list (option V)) (idxs : intmem)
    : outcome (list (option V) * list (option V) * intmem) :=
  match ops with
  | [] => Ok ([], keys, idxs)
  | (val, insert) :: ops' =>
      let! (r, keys, idxs) := global_root_in_table keys idxs val insert in
      let! (rs, keys, idxs) := global_roots_run ops' keys idxs in
      Ok (r :: rs, keys, idxs)
  end.
End IdSet.
