(* ===== verification/IdSetFacts.v ===== *)
(** * Correctness of the identity sets

    The invariant ties the index table to the keys: the stored indices are
    exactly those of the non-[NULL] keys, and no two keys are [jl_egal].  The
    operations implement a set up to [jl_egal]. *)

From stdpp Require Import base sets list numbers option.
From Stdlib Require Import ZArith Lia.
From S2P Require Import Prelude Probe Identity SmallIntSet SmallIntSetFacts IdSet.

Section IdSetFacts.
Context {V : Type} `{!Identity V}.
Implicit Types (keys : list (option V)) (idxs : intmem).

Record idset_inv keys idxs : Prop := {
  is_table : sis_inv (idset_hash keys) idxs;
  is_live : forall i, stored idxs i <-> 0 <= i /\ exists k, key_at keys i = Some k;
  is_distinct : forall i j x y, 0 <= i -> 0 <= j ->
    key_at keys i = Some x -> key_at keys j = Some y -> jl_egal x y = true -> i = j;
  is_small : Z.of_nat (length keys) <= 2 ^ 30
}.

(** [x] is in the set: some key is [jl_egal] to it. *)
Definition member keys (x : V) : Prop := exists k, Some k ∈ keys /\ jl_egal k x = true.

Lemma key_at_Some keys i k :
  0 <= i -> key_at keys i = Some k <-> keys !! Z.to_nat i = Some (Some k).
Proof. intros. unfold key_at. destruct (keys !! Z.to_nat i) as [[?|]|]; naive_solver. Qed.

Lemma key_at_range keys i k : 0 <= i -> key_at keys i = Some k -> i < Z.of_nat (length keys).
Proof. intros Hi E%key_at_Some; [| done]. apply lookup_lt_Some in E. lia. Qed.

Lemma member_key_at keys x :
  member keys x <-> exists i k, 0 <= i /\ key_at keys i = Some k /\ jl_egal k x = true.
Proof.
  split.
  - intros (k & (i & Hi)%list_elem_of_lookup & Hk). exists (Z.of_nat i), k. split; [lia |].
    split; [| done]. apply key_at_Some; [lia |]. by rewrite Nat2Z.id.
  - intros (i & k & Hi & E & Hk). exists k. split; [| done]. apply key_at_Some in E; [| done].
    by eapply list_elem_of_lookup_2.
Qed.

Lemma sis_inv_ext hash hash' a :
  (forall v, stored a v -> hash v = hash' v) -> sis_inv hash a -> sis_inv hash' a.
Proof.
  intros Hh Ha. split; [apply Ha | | apply Ha].
  intros p v Hs. destruct (inv_chain _ a Ha p v Hs) as (d & Hd & Hp & Hc).
  assert (E : hash v = hash' v) by (apply Hh; by exists p).
  unfold chain_pos in *. rewrite E in *. exists d. done.
Qed.

Lemma table_fuel_enough idxs : 64 * im_length idxs + 1024 < 2 ^ (Z.of_nat (table_fuel idxs) - 1).
Proof.
  unfold table_fuel. set (x := 64 * im_length idxs + 1024).
  assert (0 < x) by (unfold x, im_length; lia). pose proof (Z.log2_nonneg x).
  replace (Z.of_nat (Z.to_nat (Z.log2 x + 2)) - 1) with (Z.succ (Z.log2 x)) by lia.
  apply Z.log2_spec. done.
Qed.

(** ** Lookup *)

Lemma idset_eq_compat keys idxs key :
  eq_hash_compat (idset_hash keys) idxs (idset_eq keys key) (jl_object_id key).
Proof.
  intros v _. unfold idset_eq, idset_hash. destruct (key_at keys v); [| done].
  apply jl_egal_object_id.
Qed.

Lemma jl_idset_peek_bp_spec keys idxs key :
  idset_inv keys idxs ->
  (exists i k, jl_idset_peek_bp keys idxs key = Ok i /\ 0 <= i /\
     key_at keys i = Some k /\ jl_egal k key = true) \/
  (jl_idset_peek_bp keys idxs key = Ok (-1) /\ ~ member keys key).
Proof.
  intros Hi. unfold jl_idset_peek_bp.
  destruct (jl_smallintset_lookup_spec (idset_hash keys) idxs (idset_eq keys key)
              (jl_object_id key) false (is_table _ _ Hi) (idset_eq_compat keys idxs key))
    as [(p & v & Hs & He & ->) | [Hn ->]]; cbn [obind].
  - left. assert (Hst : stored idxs v) by (by exists p).
    apply (is_live _ _ Hi) in Hst as (Hv & k & Hk). exists v, k. split_and!; try done.
    unfold idset_eq in He. by rewrite Hk in He.
  - right. split; [done |]. intros (i & k & Hi0 & Hk & Hek)%member_key_at.
    specialize (Hn i). unfold idset_eq in Hn. rewrite Hk, Hek in Hn.
    discriminate Hn. apply (is_live _ _ Hi). split; [done |]. by exists k.
Qed.

(** ** Removal *)

Lemma key_at_insert keys p v i :
  0 <= p < Z.of_nat (length keys) -> 0 <= i ->
  key_at (<[Z.to_nat p := v]> keys) i = if i =? p then v else key_at keys i.
Proof.
  intros Hp Hi. unfold key_at. destruct (Z.eqb_spec i p) as [-> |].
  - by rewrite list_lookup_insert_eq by lia.
  - by rewrite list_lookup_insert_ne by lia.
Qed.

Lemma jl_idset_pop_spec keys idxs key :
  idset_inv keys idxs ->
  (exists i k idxs', jl_idset_pop keys idxs key = Ok (i, <[Z.to_nat i := None]> keys, idxs') /\
     0 <= i /\ key_at keys i = Some k /\ jl_egal k key = true /\
     idset_inv (<[Z.to_nat i := None]> keys) idxs') \/
  (jl_idset_pop keys idxs key = Ok (-1, keys, idxs) /\ ~ member keys key).
Proof.
  intros Hi. unfold jl_idset_pop.
  destruct (jl_smallintset_lookup_spec (idset_hash keys) idxs (idset_eq keys key)
              (jl_object_id key) true (is_table _ _ Hi) (idset_eq_compat keys idxs key))
    as [(p & v & Hs & He & ->) | [Hn ->]]; cbn [obind].
  - left. assert (Hst : stored idxs v) by (by exists p).
    apply (is_live _ _ Hi) in Hst as (Hv & k & Hk). pose proof (key_at_range _ _ _ Hv Hk).
    destruct (Z.eqb_spec v (-1)); [lia |]. cbn [negb]. rewrite wr_in_range by lia. cbn [obind].
    exists v, k. eexists. split; [reflexivity |]. unfold idset_eq in He. rewrite Hk in He.
    split_and!; try done.
    destruct (pop_inv (idset_hash keys) idxs p v (is_table _ _ Hi) Hs) as [Hi' Hs'].
    split.
    + eapply sis_inv_ext; [| exact Hi']. intros w [Hw Hne]%Hs'.
      apply (is_live _ _ Hi) in Hw as (Hw & _). unfold idset_hash.
      rewrite key_at_insert by lia. by destruct (Z.eqb_spec w v).
    + intros w. rewrite Hs', (is_live _ _ Hi). split.
      * intros [(Hw & k' & Hk') Hne]. split; [done |]. exists k'.
        rewrite key_at_insert by lia. by destruct (Z.eqb_spec w v).
      * intros (Hw & k' & Hk'). rewrite key_at_insert in Hk' by lia.
        destruct (Z.eqb_spec w v); [done |]. split; [split; [done | by exists k'] | done].
    + intros i j x y Hi0 Hj0. rewrite !key_at_insert by lia. repeat zcase; try done.
      by apply (is_distinct _ _ Hi).
    + rewrite length_insert. apply Hi.
  - right. split; [done |]. intros (i & k & Hi0 & Hk & Hek)%member_key_at.
    specialize (Hn i). unfold idset_eq in Hn. rewrite Hk, Hek in Hn.
    discriminate Hn. apply (is_live _ _ Hi). split; [done |]. by exists k.
Qed.

(** ** Compaction *)

(** The keys that are not [NULL], in order. *)
Definition live keys : list V := omap id keys.

Lemma live_length keys : (length (live keys) <= length keys)%nat.
Proof.
  induction keys as [| [k |] keys IH]; [done | |].
  - change (live (Some k :: keys)) with (k :: live keys). cbn. lia.
  - change (live (None :: keys)) with (live keys). cbn. lia.
Qed.

Lemma replicate_shift {A} m (x : A) rest : replicate m x ++ x :: rest = x :: replicate m x ++ rest.
Proof. induction m as [| m IH]; cbn; [done | by rewrite IH]. Qed.

(** Moving the key behind a gap to the front of the gap. *)
Lemma compact_move (L : list V) m x (rest : list (option V)) :
  <[(length L + S m)%nat := None]>
    (<[length L := Some x]> ((map Some L ++ replicate (S m) None) ++ Some x :: rest))
  = map Some (L ++ [x]) ++ replicate (S m) None ++ rest.
Proof.
  rewrite <- app_assoc, <- (length_map Some L).
  rewrite <- (Nat.add_0_r (length (map Some L))) at 2. rewrite !insert_app_r, map_app, <- app_assoc.
  f_equal. cbn [replicate app map]. change (<[0%nat := Some x]> (None :: replicate m None ++ Some x :: rest))
    with (Some x :: replicate m None ++ Some x :: rest).
  change (<[S m := None]> (Some x :: replicate m None ++ Some x :: rest))
    with (Some x :: <[m := None]> (replicate m None ++ Some x :: rest)).
  f_equal. rewrite <- (length_replicate m (@None V)) at 1. rewrite <- (Nat.add_0_r (length (replicate m None))), insert_app_r.
  change (<[0%nat := None]> (Some x :: rest)) with (None :: rest).
  apply replicate_shift.
Qed.

Lemma compact_loop_spec rest : forall L m rehash,
  let keys := map Some L ++ replicate m None ++ rest in
  exists rh : bool, compact_loop (length rest) keys (Z.of_nat (length L + m)) (Z.of_nat (length L)) rehash
    = Ok (map Some (L ++ live rest) ++ replicate (m + (length rest - length (live rest))) None,
          if rh then - Z.of_nat (length (L ++ live rest)) else Z.of_nat (length (L ++ live rest))) /\
    (rehash = true -> rh = true) /\
    (rh = true -> rehash = true \/ live rest <> []) /\
    (rh = false -> keys = map Some (L ++ live rest) ++ replicate (m + (length rest - length (live rest))) None).
Proof.
  induction rest as [| k rest IH]; intros L m rehash; cbn zeta.
  - exists rehash. cbn [length live omap list_omap compact_loop]. rewrite !app_nil_r, Nat.sub_0_r, Nat.add_0_r.
    split; [done |]. split; [done |]. split; [by left |]. intros _. done.
  - assert (Hle : (length (live rest) <= length rest)%nat) by apply live_length.
    cbn [length compact_loop].
    replace (map Some L ++ replicate m None ++ k :: rest)
      with ((map Some L ++ replicate m None) ++ k :: rest) by (by rewrite <- app_assoc).
    assert (Hl : length (map (@Some V) L ++ replicate m None) = (length L + m)%nat)
      by (rewrite length_app, length_map, length_replicate; done).
    rewrite rd_app_r, Hl by (rewrite Hl; lia). rewrite Z.sub_diag.
    change (rd (k :: rest) 0) with (Ok k). cbn [obind].
    destruct k as [x |].
    + destruct m as [| m].
      * rewrite Nat.add_0_r. rewrite Z.eqb_refl. cbn [negb replicate]. rewrite app_nil_r.
        destruct (IH (L ++ [x]) 0%nat rehash) as (rh & E & H1 & H2 & H3). exists rh.
        cbn [replicate app] in *. rewrite length_app, Nat.add_0_r in E. cbn [length] in E.
        rewrite map_app, <- app_assoc in E, H3. cbn [map app] in E, H3.
        replace (Z.of_nat (length L) + 1) with (Z.of_nat (length L + 1)) by lia. rewrite E.
        change (live (Some x :: rest)) with (x :: live rest). rewrite <- app_assoc. cbn [app length].
        rewrite Nat.sub_succ. split; [done |]. split; [done |]. split; [intros Hr; apply H2 in Hr as [?|?]; [by left | by right] |].
        intros Hr. rewrite H3 by done. rewrite <- app_assoc. done.
      * destruct (Z.eqb_spec (Z.of_nat (length L + S m)) (Z.of_nat (length L))); [lia |]. cbn [negb].
        rewrite wr_in_range by (rewrite length_app, Hl; cbn; lia). cbn [obind].
        rewrite wr_in_range by (rewrite length_insert, length_app, Hl; cbn; lia). cbn [obind].
        rewrite !Nat2Z.id.
        rewrite compact_move.
        destruct (IH (L ++ [x]) (S m) true) as (rh & E & H1 & H2 & H3). exists rh.
        rewrite length_app in E. cbn [length] in E.
        replace (Z.of_nat (length L + S m) + 1) with (Z.of_nat (length L + 1 + S m)) by lia.
        replace (Z.of_nat (length L) + 1) with (Z.of_nat (length L + 1)) by lia. rewrite E.
        change (live (Some x :: rest)) with (x :: live rest). rewrite <- !app_assoc. cbn [app length].
        rewrite Nat.sub_succ. specialize (H1 eq_refl). subst rh.
        split_and!; try done. intros _. by right.
    + destruct (IH L (S m) rehash) as (rh & E & H1 & H2 & H3). exists rh.
      assert (Hk : (map Some L ++ replicate m None) ++ None :: rest = map Some L ++ replicate (S m) None ++ rest).
      { rewrite <- app_assoc. f_equal. apply replicate_shift. }
      rewrite Hk. replace (Z.of_nat (length L + m) + 1) with (Z.of_nat (length L + S m)) by lia.
      rewrite E. change (live (None :: rest)) with (live rest).
      replace (S (length rest) - length (live rest))%nat with (S (length rest - length (live rest))) by lia.
      replace (m + S (length rest - length (live rest)))%nat with (S m + (length rest - length (live rest)))%nat by lia.
      done.
Qed.
Lemma idset_compact_spec keys :
  exists rh : bool, idset_compact keys
    = Ok (map Some (live keys) ++ replicate (length keys - length (live keys)) None,
          if rh then - Z.of_nat (length (live keys)) else Z.of_nat (length (live keys))) /\
    (rh = true -> live keys <> []) /\
    (rh = false -> keys = map Some (live keys) ++ replicate (length keys - length (live keys)) None).
Proof.
  destruct (compact_loop_spec keys [] 0 false) as (rh & E & _ & H2 & H3). exists rh.
  cbn [app map replicate length Nat.add] in *. change (Z.of_nat 0) with 0 in E.
  unfold idset_compact. rewrite E.
  split; [done |]. split; [| done]. intros Hr. by destruct (H2 Hr).
Qed.

(** ** Insertion of a key *)

Lemma put_key_scan_spec keys n :
  (n <= length keys)%nat ->
  exists i, put_key_scan keys n = Ok i /\ 0 <= i <= Z.of_nat n /\
    (forall p, i <= p < Z.of_nat n -> key_at keys p = None) /\
    (i = 0 \/ exists k, key_at keys (i - 1) = Some k).
Proof.
  induction n as [| n IH]; intros Hn; cbn [put_key_scan].
  - exists 0. split_and!; try done; lia.
  - destruct (rd_in_range keys (Z.of_nat n)) as (k & -> & Ek); [lia |]. cbn [obind].
    assert (Hk : key_at keys (Z.of_nat n) = k) by (unfold key_at; by rewrite Ek).
    destruct k as [k |].
    + exists (Z.of_nat (S n)). split_and!; try lia; try done. right.
      exists k. by replace (Z.of_nat (S n) - 1) with (Z.of_nat n) by lia.
    + destruct IH as (i & -> & Hi & Hnone & Hlast); [lia |]. exists i.
      split_and!; try lia; [done | | done]. intros p Hp.
      destruct (Z.eq_dec p (Z.of_nat n)) as [-> |]; [done | apply Hnone; lia].
Qed.

(** A key put at a free index above every other key. *)
Definition put_at keys (key : V) keys' (idx : Z) : Prop :=
  0 <= idx < Z.of_nat (length keys') /\ key_at keys idx = None /\
  (forall p, 0 <= p -> key_at keys' p = if p =? idx then Some key else key_at keys p) /\
  (idx = 0 \/ exists k, key_at keys (idx - 1) = Some k).

(** A key put behind the compacted keys, all of which have to be indexed
    again. *)
Definition put_compacted keys (key : V) keys' (idx : Z) : Prop :=
  exists m, keys' = map Some (live keys ++ [key]) ++ replicate m None /\
    idx = - Z.of_nat (length (live keys) + 1).

Lemma put_compacted_write keys key r :
  let ck := map Some (live keys) ++ replicate (S r) None in
  let j := Z.of_nat (length (live keys)) in
  rd ck j = Ok None /\
  wr ck j (Some key) = Ok (map Some (live keys ++ [key]) ++ replicate r None).
Proof.
  cbn zeta. assert (Hl : length (map Some (live keys)) = length (live keys)) by apply length_map.
  split.
  - rewrite rd_app_r, Hl, Z.sub_diag by lia. done.
  - rewrite wr_in_range by (rewrite length_app, Hl, length_replicate; lia).
    rewrite Nat2Z.id. rewrite <- Hl at 1. rewrite <- (Nat.add_0_r (length (map Some (live keys)))).
    rewrite insert_app_r. change (<[0%nat := Some key]> (replicate (S r) None)) with (Some key :: replicate r None).
    by rewrite map_app, <- app_assoc.
Qed.

Lemma key_at_map_Some (L : list V) m i :
  0 <= i -> key_at (map Some L ++ replicate m None) i = L !! Z.to_nat i.
Proof.
  intros Hi. unfold key_at. destruct (L !! Z.to_nat i) as [x |] eqn:E.
  - rewrite lookup_app_l by (rewrite length_map; by apply lookup_lt_Some in E).
    rewrite list_lookup_fmap, E. done.
  - apply lookup_ge_None in E. rewrite lookup_app_r by (rewrite length_map; lia).
    destruct (replicate m None !! _) eqn:E'; [| done]. apply lookup_replicate_1 in E' as [-> _]. done.
Qed.

(** Compact keys whose last slot is taken are full. *)
Lemma last_key_full keys :
  keys = map Some (live keys) ++ replicate (length keys - length (live keys)) None ->
  (Z.of_nat (length keys) = 0 \/ exists k, key_at keys (Z.of_nat (length keys) - 1) = Some k) ->
  length (live keys) = length keys.
Proof.
  intros Hsame Hlast. pose proof (live_length keys). destruct Hlast as [H0 | (k & Hk)]; [lia |].
  rewrite Hsame in Hk at 1. destruct (Z.eq_dec (Z.of_nat (length keys)) 0); [lia |].
  rewrite key_at_map_Some in Hk by lia. apply lookup_lt_Some in Hk. lia.
Qed.

(** The size of the memory the keys move to. *)
Lemma new_length_spec l :
  0 <= l ->
  let nl := if l <? 4 then 4 else Z.shiftr (l * 3) 1 in
  l < nl /\ 2 * nl <= Z.max 8 (3 * l) /\ forall j, l / 3 * 2 <= j -> nl <= 3 * j + 4.
Proof.
  intros Hl. cbn zeta. destruct (Z.ltb_spec l 4); [split_and!; [lia | lia | intros; dlia] |].
  rewrite shiftr_pow by lia. change (2 ^ 1) with 2. split_and!; [dlia | dlia |]. intros. dlia.
Qed.

(** What the caller gets from [jl_idset_put_key]. *)
Definition put_result keys (key : V) keys' (idx : Z) : Prop :=
  2 * Z.of_nat (length keys') <= Z.max 8 (3 * Z.of_nat (length keys)) /\
  (length keys' = length keys \/ Z.of_nat (length keys') <= 3 * Z.of_nat (length (live keys)) + 4) /\
  (put_at keys key keys' idx \/ put_compacted keys key keys' idx).

(** Writing into a free slot above the last key. *)
Lemma put_free keys key i :
  0 <= i < Z.of_nat (length keys) -> key_at keys i = None ->
  (i = 0 \/ exists k, key_at keys (i - 1) = Some k) ->
  rd keys i = Ok None /\ wr keys i (Some key) = Ok (<[Z.to_nat i := Some key]> keys) /\
  put_result keys key (<[Z.to_nat i := Some key]> keys) i.
Proof.
  intros Hi Hk Hlast. destruct (rd_in_range keys i) as (k & -> & Ek); [lia |].
  unfold key_at in Hk. rewrite Ek in Hk. cbn in Hk. subst k. rewrite wr_in_range by lia.
  split; [done |]. split; [done |]. unfold put_result, put_at. rewrite length_insert.
  split; [lia |]. split; [by left |]. left.
  assert (Hk : key_at keys i = None) by (unfold key_at; by rewrite Ek).
  split_and!; try lia; try done. intros p Hp. apply key_at_insert; lia.
Qed.

(** Without a free slot the keys move to a larger memory. *)
Lemma put_full keys key m :
  keys = map Some (live keys) ->
  let nk := keys ++ replicate (S m) None in
  let l := Z.of_nat (length keys) in
  rd nk l = Ok None /\ wr nk l (Some key) = Ok (<[length keys := Some key]> nk) /\
  put_at keys key (<[length keys := Some key]> nk) l.
Proof.
  intros Hfull. cbn zeta. rewrite rd_app_r, Z.sub_diag by lia. split; [done |].
  rewrite wr_in_range by (rewrite length_app, length_replicate; lia). rewrite Nat2Z.id. split; [done |].
  unfold put_at. rewrite length_insert, length_app, length_replicate.
  assert (Hnone : forall p, Z.of_nat (length keys) <= p -> key_at keys p = None).
  { intros p Hp. unfold key_at. rewrite lookup_ge_None_2 by lia. done. }
  assert (Hat : forall m p, 0 <= p -> key_at (keys ++ replicate m None) p = live keys !! Z.to_nat p)
    by (intros; rewrite Hfull at 1; by apply key_at_map_Some).
  assert (Hat0 : forall p, 0 <= p -> key_at keys p = live keys !! Z.to_nat p)
    by (intros; rewrite <- (Hat 0%nat) by done; cbn; by rewrite app_nil_r).
  split; [lia |]. split; [by apply Hnone |]. split.
  - intros p Hp. replace (length keys) with (Z.to_nat (Z.of_nat (length keys))) at 1 by lia.
    rewrite key_at_insert by (try rewrite length_app, length_replicate; lia).
    destruct (Z.eqb_spec p (Z.of_nat (length keys))); [done |]. by rewrite Hat, Hat0.
  - destruct (Z.eq_dec (Z.of_nat (length keys)) 0); [by left | right].
    rewrite Hat0 by lia. apply lookup_lt_is_Some_2.
    assert (length keys = length (live keys)) by (rewrite Hfull at 1; apply length_map). lia.
Qed.

Lemma jl_idset_put_key_spec keys key :
  exists keys' idx, jl_idset_put_key keys key = Ok (keys', idx) /\ put_result keys key keys' idx.
Proof.
  unfold jl_idset_put_key.
  destruct (put_key_scan_spec keys (length keys)) as (i & -> & Hi & Hnone & Hlast); [lia |].
  cbn [obind]. destruct (Z.eqb_spec i (Z.of_nat (length keys))) as [-> | Hne]; cbn [obind].
  2: { destruct (put_free keys key i) as (-> & Ew & Hr); [lia | apply Hnone; lia | done |].
    cbn [obind]. rewrite Ew. by eexists _, _. }
  destruct (idset_compact_spec keys) as (rh & -> & Hrh & Hsame). cbn [obind].
  pose proof (live_length keys) as Hle. set (l := length keys) in *. set (j := length (live keys)) in *.
  destruct (new_length_spec (Z.of_nat l)) as (Hn1 & Hn2 & Hn3); [lia |].
  set (nl := if Z.of_nat l <? 4 then 4 else Z.shiftr (Z.of_nat l * 3) 1) in *. clearbody nl.
  destruct rh.
  - specialize (Hrh eq_refl). assert (0 < j)%nat by (unfold j; destruct (live keys); [done | cbn; lia]).
    destruct (Z.ltb_spec (- Z.of_nat j) 0); [| lia]. rewrite Z.opp_involutive.
    set (cond := Z.of_nat l / 3 * 2 <=? Z.of_nat j).
    set (r := (if cond then Z.to_nat (nl - Z.of_nat j) - 1 else l - j - 1)%nat).
    match goal with |- context [obind ?m _] => replace m with
      (Ok (map Some (live keys) ++ replicate (S r) None, Z.of_nat j, - Z.of_nat j - 1)) end.
    2: { unfold r. destruct cond eqn:Ec; unfold cond in Ec.
      - rewrite Nat2Z.id, take_app_le, take_ge by (rewrite length_map; unfold j; lia).
        by replace (S (Z.to_nat (nl - Z.of_nat j) - 1)) with (Z.to_nat (nl - Z.of_nat j)) by lia.
      - apply Z.leb_gt in Ec. assert (j < l)%nat by dlia.
        by replace (S (l - j - 1)) with (l - j)%nat by lia. }
    cbn [obind]. destruct (put_compacted_write keys key r) as [E1 E]. fold j in E1, E.
    rewrite E1. cbn [obind]. rewrite E. cbn [obind]. eexists _, _. split; [reflexivity |].
    unfold put_result. rewrite length_app, length_map, length_app, length_replicate. cbn [length]. fold j l.
    assert (Hr : (r = l - j - 1 /\ j < l)%nat \/
      (r = (Z.to_nat (nl - Z.of_nat j) - 1)%nat /\ nl <= 3 * Z.of_nat j + 4)).
    { unfold r. destruct cond eqn:Ec; unfold cond in Ec; [right | left].
      - split; [done |]. apply Hn3. by apply Z.leb_le.
      - split; [done |]. apply Z.leb_gt in Ec. dlia. }
    split; [lia |]. split; [lia |]. right. exists r. split; [done |]. fold j. lia.
  - destruct (Z.ltb_spec (Z.of_nat j) 0); [lia |]. specialize (Hsame eq_refl).
    assert (Hjl : j = l) by (by apply last_key_full).
    destruct (Z.leb_spec (Z.of_nat l / 3 * 2) (Z.of_nat j)); [| dlia]. cbn [obind].
    assert (Hfull : keys = map Some (live keys)).
    { rewrite Hsame at 1. rewrite Hjl, Nat.sub_diag. apply app_nil_r. }
    rewrite Hjl, Nat.sub_diag, app_nil_r, <- Hfull, Nat2Z.id, take_ge by lia.
    replace (Z.to_nat (nl - Z.of_nat l)) with (S (Z.to_nat (nl - Z.of_nat l) - 1)) by lia.
    destruct (put_full keys key (Z.to_nat (nl - Z.of_nat l) - 1) Hfull) as (Er & Ew & Hput).
    fold l in Er, Ew, Hput. rewrite Er. cbn [obind]. rewrite Ew. cbn [obind].
    eexists _, _. split; [reflexivity |]. unfold put_result.
    rewrite length_insert, length_app, length_replicate. fold l j.
    split; [lia |]. split; [right; lia | by left].
Qed.

(** ** Indexing *)

Lemma put_idx_loop_spec keys n : forall idxs i,
  sis_inv (idset_hash keys) idxs -> 0 <= i -> i + Z.of_nat n < 2 ^ 31 - 4 ->
  (forall v, stored idxs v <-> 0 <= v < i) ->
  (forall p, i <= p < i + Z.of_nat n -> exists k, key_at keys p = Some k) ->
  exists b, put_idx_loop n keys idxs i = Ok b /\ sis_inv (idset_hash keys) b /\
    (forall v, stored b v <-> 0 <= v < i + Z.of_nat n).
Proof.
  induction n as [| n IH]; intros idxs i Ha Hi Hb Hst Hall; cbn [put_idx_loop].
  - exists idxs. split; [done |]. split; [done |]. intros v. rewrite Hst. lia.
  - destruct (Hall i) as (k & Hk); [lia |]. pose proof (key_at_range _ _ _ Hi Hk).
    apply key_at_Some in Hk as Hk'; [| done]. rewrite (proj2 (rd_lookup keys i (Some k))) by done.
    cbn [obind].
    destruct (jl_smallintset_insert_spec (idset_hash keys) (table_fuel idxs) idxs i)
      as (b & -> & Hbi & Hbs); [done | done | lia | rewrite Hst; lia | |
                                intros w; rewrite Hst; lia | apply table_fuel_enough |].
    + destruct (Z.eq_dec i 0) as [-> |]; [left; lia | right]. exists (i - 1). rewrite Hst. lia.
    + cbn [obind]. destruct (IH b (i + 1)) as (c & -> & Hci & Hcs); try done; try lia.
      * intros v. rewrite Hbs, Hst. lia.
      * intros p Hp. apply Hall. lia.
      * exists c. split; [done |]. split; [done |]. intros v. rewrite Hcs. lia.
Qed.

Lemma smallintset_empty_inv hash hash' a :
  sis_inv hash a -> sis_inv hash' (smallintset_empty a) /\ forall v, ~ stored (smallintset_empty a) v.
Proof.
  intros Ha. pose proof (inv_wf _ a Ha) as Hw. destruct a as [ty d].
  assert (Hz : forall n, length d = n -> (ty = MemAny -> n = 0%nat) /\ (n = 0%nat \/ pow2 (Z.of_nat n))).
  { intros n <-. split; [intros ->; pose proof (wf_any _ Hw eq_refl); unfold im_length in *; cbn in *; lia |].
    destruct (wf_size _ Hw) as [H | H]; unfold im_length in H; cbn in H; [left; lia | by right]. }
  destruct (Hz _ eq_refl) as [H1 H2].
  destruct (zeros_inv hash' ty (length d) H1 H2) as (Hi & Hn & _).
  unfold smallintset_empty. cbn [im_type im_data]. destruct ty; try done.
  specialize (H1 eq_refl). destruct d; [done | done].
Qed.

(** ** Adding a key *)

Lemma elem_of_live keys x : x ∈ live keys <-> Some x ∈ keys.
Proof.
  unfold live. rewrite list_elem_of_omap. split; [intros (y & Hy & E); cbn in E; by subst y |].
  intros H. by exists (Some x).
Qed.

Lemma put_at_elem keys key keys' idx y :
  put_at keys key keys' idx -> Some y ∈ keys' <-> Some y ∈ keys \/ y = key.
Proof.
  intros (Hi & Hn & Hk & _). split.
  - intros (i & E)%list_elem_of_lookup.
    assert (E' : key_at keys' (Z.of_nat i) = Some y) by (apply key_at_Some; [lia | by rewrite Nat2Z.id]).
    rewrite Hk in E' by lia. destruct (Z.eqb_spec (Z.of_nat i) idx); [right; congruence | left].
    apply key_at_Some in E'; [| lia]. by eapply list_elem_of_lookup_2.
  - intros [(i & E)%list_elem_of_lookup | ->].
    + assert (E' : key_at keys (Z.of_nat i) = Some y) by (apply key_at_Some; [lia | by rewrite Nat2Z.id]).
      specialize (Hk (Z.of_nat i) ltac:(lia)). rewrite E' in Hk.
      destruct (Z.eqb_spec (Z.of_nat i) idx) as [<- |]; [congruence |].
      apply key_at_Some in Hk; [| lia]. by eapply list_elem_of_lookup_2.
    + specialize (Hk idx ltac:(lia)). rewrite Z.eqb_refl in Hk.
      apply key_at_Some in Hk; [| lia]. by eapply list_elem_of_lookup_2.
Qed.

Lemma put_compacted_elem keys key keys' idx y :
  put_compacted keys key keys' idx -> Some y ∈ keys' <-> Some y ∈ keys \/ y = key.
Proof.
  intros (m & -> & _). rewrite elem_of_app, elem_of_replicate.
  rewrite (list_elem_of_fmap Some), <- elem_of_live. split.
  - intros [(z & [= ->] & Hz) | [? _]]; [| done].
    apply elem_of_app in Hz as [? | ?%list_elem_of_singleton]; [by left | by right].
  - intros [H | ->]; left; [exists y | exists key]; (split; [done |]); apply elem_of_app; [by left |].
    right. by apply list_elem_of_singleton.
Qed.

(** A set whose keys are distinct and whose indices are those of the keys
    satisfies the invariant. *)
Lemma live_distinct keys idxs :
  idset_inv keys idxs -> forall i j x y,
  live keys !! i = Some x -> live keys !! j = Some y -> jl_egal x y = true -> i = j.
Proof.
  intros Hi. pose proof (is_distinct _ _ Hi) as Hd. revert Hd. clear Hi.
  induction keys as [| [k |] keys IH]; intros Hd i j x y; [done | |].
  - change (live (Some k :: keys)) with (k :: live keys).
    assert (Htail : forall z, z ∈ live keys -> jl_egal k z = true -> False).
    { intros z (p & Hp)%elem_of_live%list_elem_of_lookup Hz.
      assert (0 = Z.of_nat p + 1); [| lia].
      apply (Hd 0 (Z.of_nat p + 1) k z); try lia; [done | | done].
      apply key_at_Some; [lia |]. by replace (Z.to_nat (Z.of_nat p + 1)) with (S p) by lia. }
    destruct i as [| i], j as [| j]; cbn; [done | | |].
    + intros [= <-] Hy He. exfalso. eapply Htail; [by eapply list_elem_of_lookup_2 | done].
    + intros Hx [= <-] He. exfalso. eapply Htail; [by eapply list_elem_of_lookup_2 |].
      by rewrite jl_egal_sym.
    + intros Hx Hy He. f_equal. eapply IH; try done. intros p q u v Hp Hq Hu Hv Huv.
      enough (p + 1 = q + 1) by lia. eapply (Hd (p + 1) (q + 1) u v); try lia; try done;
      (apply key_at_Some; [lia |]; rewrite Z2Nat.inj_add, Nat.add_1_r by lia; cbn; by apply key_at_Some).
  - change (live (None :: keys)) with (live keys). apply IH. intros p q u v Hp Hq Hu Hv Huv.
    enough (p + 1 = q + 1) by lia. eapply (Hd (p + 1) (q + 1) u v); try lia; try done;
    (apply key_at_Some; [lia |]; rewrite Z2Nat.inj_add, Nat.add_1_r by lia; cbn; by apply key_at_Some).
Qed.

Lemma put_at_indexed keys idxs key keys' idx :
  idset_inv keys idxs -> ~ member keys key -> Z.of_nat (length keys') <= 2 ^ 30 ->
  put_at keys key keys' idx ->
  exists idxs', jl_idset_put_idx keys' idxs idx = Ok idxs' /\ idset_inv keys' idxs'.
Proof.
  intros Hi Hn Hlen (Hr & Hnone & Hk & Hprev). unfold jl_idset_put_idx.
  destruct (Z.ltb_spec idx 0); [lia |].
  assert (Hst : forall v, stored idxs v -> 0 <= v < 2 ^ 30 /\ v <> idx).
  { intros v (Hv & k & Ev)%(is_live _ _ Hi). pose proof (key_at_range _ _ _ Hv Ev).
    pose proof (is_small _ _ Hi). split; [lia |]. intros ->. congruence. }
  destruct (jl_smallintset_insert_spec (idset_hash keys') (table_fuel idxs) idxs idx)
    as (b & -> & Hbi & Hbs); [| lia | lia | intros Hs; apply Hst in Hs; lia | |
      intros w Hw; apply Hst in Hw; lia | apply table_fuel_enough |].
  - eapply sis_inv_ext; [| apply Hi]. intros v Hv%Hst. unfold idset_hash.
    rewrite Hk by lia. destruct (Z.eqb_spec v idx); [lia | done].
  - destruct Hprev as [-> | (k & Ek)]; [left; lia | right]. exists (idx - 1). split; [| lia].
    apply (is_live _ _ Hi). split; [| by exists k].
    destruct (Z.eq_dec idx 0) as [-> |]; [| lia].
    change (key_at keys (0 - 1)) with (key_at keys 0) in Ek. congruence.
  - exists b. split; [done |]. split; [done | | | done].
    + intros v. rewrite Hbs, (is_live _ _ Hi). split.
      * intros [(Hv & k & Ek) | ->]; [split; [done |]; exists k | split; [lia |]; exists key];
          rewrite Hk by lia; [| by rewrite Z.eqb_refl].
        destruct (Z.eqb_spec v idx) as [-> |]; [congruence | done].
      * intros (Hv & k & Ek). rewrite Hk in Ek by done.
        destruct (Z.eqb_spec v idx); [by right | left; split; [done | by exists k]].
    + intros p q x y Hp Hq Ex Ey He. rewrite Hk in Ex, Ey by done.
      destruct (Z.eqb_spec p idx) as [-> |], (Z.eqb_spec q idx) as [-> |]; try done.
      * exfalso. apply Hn, member_key_at. exists q, y. injection Ex as ->. by rewrite jl_egal_sym.
      * exfalso. apply Hn, member_key_at. exists p, x. injection Ey as ->. done.
      * by apply (is_distinct _ _ Hi p q x y).
Qed.

Lemma put_compacted_indexed keys idxs key keys' idx :
  idset_inv keys idxs -> ~ member keys key -> Z.of_nat (length keys') <= 2 ^ 30 ->
  put_compacted keys key keys' idx ->
  exists idxs', jl_idset_put_idx keys' idxs idx = Ok idxs' /\ idset_inv keys' idxs'.
Proof.
  intros Hi Hn Hlen (m & Ek & ->). unfold jl_idset_put_idx.
  destruct (Z.ltb_spec (- Z.of_nat (length (live keys) + 1)) 0); [| lia].
  rewrite Z.opp_involutive, Nat2Z.id.
  assert (Hat : forall p, 0 <= p -> key_at keys' p = (live keys ++ [key]) !! Z.to_nat p)
    by (intros; rewrite Ek; by apply key_at_map_Some).
  assert (Hsz : Z.of_nat (length (live keys) + 1) <= 2 ^ 30).
  { rewrite Ek, length_app, length_map, length_app in Hlen. cbn [length] in Hlen. lia. }
  destruct (smallintset_empty_inv _ (idset_hash keys') idxs (is_table _ _ Hi)) as [He Hne].
  destruct (put_idx_loop_spec keys' (length (live keys) + 1) (smallintset_empty idxs) 0)
    as (b & -> & Hbi & Hbs); [done | lia | lia | | |].
  - intros v. split; [intros Hs; by apply Hne in Hs | lia].
  - intros p Hp. rewrite Hat by lia. apply lookup_lt_is_Some_2. rewrite length_app. cbn. lia.
  - exists b. split; [done |]. split; [done | | | done].
    + intros v. rewrite Hbs. split; [intros Hv; split; [lia |] | intros (Hv & k & E)].
      * rewrite Hat by lia. apply lookup_lt_is_Some_2. rewrite length_app. cbn. lia.
      * rewrite Hat in E by lia. apply lookup_lt_Some in E. rewrite length_app in E. cbn in E. lia.
    + intros p q x y Hp Hq. rewrite !Hat by done. intros Ex Ey He'.
      enough (Z.to_nat p = Z.to_nat q) by lia.
      apply lookup_snoc_Some in Ex as [[Hpl Ex] | [Hpl ->]], Ey as [[Hql Ey] | [Hql ->]].
      * by apply (live_distinct _ _ Hi _ _ x y).
      * exfalso. apply Hn. exists x. split; [| done]. by eapply elem_of_live, list_elem_of_lookup_2.
      * exfalso. apply Hn. exists y. split; [by eapply elem_of_live, list_elem_of_lookup_2 |].
        by rewrite jl_egal_sym.
      * lia.
Qed.

Lemma idset_put_spec keys idxs key :
  idset_inv keys idxs -> ~ member keys key -> 3 * Z.of_nat (length keys) <= 2 ^ 31 ->
  exists keys' idx idxs',
    jl_idset_put_key keys key = Ok (keys', idx) /\
    jl_idset_put_idx keys' idxs idx = Ok idxs' /\ idset_inv keys' idxs' /\
    (forall y, Some y ∈ keys' <-> Some y ∈ keys \/ y = key) /\
    (length keys' = length keys \/ Z.of_nat (length keys') <= 3 * Z.of_nat (length (live keys)) + 4).
Proof.
  intros Hi Hn Hlen. destruct (jl_idset_put_key_spec keys key) as (keys' & idx & E & Hl & Hl' & Hput).
  destruct Hput as [Hput | Hput].
  - destruct (put_at_indexed keys idxs key keys' idx) as (b & Eb & Hb); try done; [lia |].
    exists keys', idx, b. split_and!; try done. intros y. by eapply put_at_elem.
  - destruct (put_compacted_indexed keys idxs key keys' idx) as (b & Eb & Hb); try done; [lia |].
    exists keys', idx, b. split_and!; try done. intros y. by eapply put_compacted_elem.
Qed.

Lemma live_NoDup keys idxs : idset_inv keys idxs -> NoDup (live keys).
Proof.
  intros Hi. apply NoDup_alt. intros i j x Ex Ey. eapply (live_distinct keys idxs Hi); try done.
  apply jl_egal_refl.
Qed.

Lemma put_live_length keys idxs keys' idxs' key :
  idset_inv keys idxs -> idset_inv keys' idxs' -> ~ member keys key ->
  (forall y, Some y ∈ keys' <-> Some y ∈ keys \/ y = key) ->
  length (live keys') = S (length (live keys)).
Proof.
  intros Hi Hi' Hn Hel. change (S (length (live keys))) with (length (key :: live keys)).
  apply Permutation_length, NoDup_Permutation; [by eapply live_NoDup | |].
  - constructor; [| by eapply live_NoDup]. intros Hk%elem_of_live. apply Hn.
    exists key. split; [done | apply jl_egal_refl].
  - intros y. rewrite elem_of_live, Hel, elem_of_cons, elem_of_live. tauto.
Qed.

(** ** The table of global roots *)

Lemma jl_idset_get_spec keys idxs key :
  idset_inv keys idxs ->
  (exists k, jl_idset_get keys idxs key = Ok (Some k) /\ Some k ∈ keys /\ jl_egal k key = true) \/
  (jl_idset_get keys idxs key = Ok None /\ ~ member keys key).
Proof.
  intros Hi. unfold jl_idset_get.
  destruct (jl_idset_peek_bp_spec keys idxs key Hi) as [(i & k & -> & Hi0 & Hk & He) | [-> Hn]];
    cbn [obind]; [left | right; done].
  exists k. destruct (Z.eqb_spec i (-1)); [lia |]. apply key_at_Some in Hk; [| done].
  split; [by apply rd_lookup |]. split; [by eapply list_elem_of_lookup_2 | done].
Qed.

Lemma idset_elem_egal keys idxs j k :
  idset_inv keys idxs -> Some j ∈ keys -> Some k ∈ keys -> jl_egal j k = true -> j = k.
Proof.
  intros Hi (p & Hp)%list_elem_of_lookup (q & Hq)%list_elem_of_lookup He.
  assert (Z.of_nat p = Z.of_nat q) as E%Nat2Z.inj.
  { apply (is_distinct _ _ Hi _ _ j k); try lia; try done; (apply key_at_Some; [lia |]; by rewrite Nat2Z.id). }
  congruence.
Qed.

(** The size of the keys after [n] insertions. *)
Definition roots_size keys (n : nat) : Prop :=
  (length (live keys) <= n)%nat /\ Z.of_nat (length keys) <= 3 * Z.of_nat n + 4.

Lemma global_root_in_table_spec keys idxs val insert n :
  idset_inv keys idxs -> roots_size keys n -> Z.of_nat n <= 2 ^ 27 ->
  exists r keys' idxs', global_root_in_table keys idxs val insert = Ok (r, keys', idxs') /\
    idset_inv keys' idxs' /\ roots_size keys' (S n) /\
    (forall y, Some y ∈ keys -> Some y ∈ keys') /\
    (insert = true -> r <> None) /\
    (forall k, r = Some k -> Some k ∈ keys' /\ jl_egal k val = true).
Proof.
  intros Hi [Hs1 Hs2] Hn. unfold global_root_in_table.
  destruct (jl_idset_get_spec keys idxs val Hi) as [(k & -> & Hk & He) | [Eg Hm]]; cbn [obind].
  { exists (Some k), keys, idxs. unfold roots_size. split_and!; try done; try lia.
    by intros k' [= <-]. }
  rewrite Eg. cbn [obind]. destruct insert.
  - destruct (idset_put_spec keys idxs val Hi Hm) as (keys' & idx & idxs' & E1 & E2 & Hi' & Hel & Hlen); [lia |].
    rewrite E1. cbn [obind]. rewrite E2. cbn [obind]. exists (Some val), keys', idxs'.
    pose proof (put_live_length _ _ _ _ _ Hi Hi' Hm Hel) as Hll. unfold roots_size.
    split_and!; try done; try lia.
    + intros y Hy. apply Hel. by left.
    + intros k [= <-]. split; [apply Hel; by right | apply jl_egal_refl].
  - exists None, keys, idxs. unfold roots_size. split_and!; try done; lia.
Qed.

Lemma global_roots_run_spec ops : forall keys idxs n,
  idset_inv keys idxs -> roots_size keys n -> Z.of_nat (n + length ops) <= 2 ^ 27 ->
  exists rs keys' idxs', global_roots_run ops keys idxs = Ok (rs, keys', idxs') /\
    idset_inv keys' idxs' /\ (forall y, Some y ∈ keys -> Some y ∈ keys') /\
    Forall2 (fun op r => (op.2 = true -> r <> None) /\
      forall k, r = Some k -> Some k ∈ keys' /\ jl_egal k op.1 = true) ops rs.
Proof.
  induction ops as [| [val insert] ops IH]; intros keys idxs n Hi Hs Hn; cbn [global_roots_run].
  { exists [], keys, idxs. split_and!; try done. }
  cbn [length] in Hn.
  destruct (global_root_in_table_spec keys idxs val insert n Hi Hs) as (r & k1 & i1 & -> & Hi1 & Hs1 & Hm1 & Hr1 & Hr2);
    [lia |]. cbn [obind].
  destruct (IH k1 i1 (S n) Hi1 Hs1) as (rs & k2 & i2 & -> & Hi2 & Hm2 & Hall); [lia |]. cbn [obind].
  exists (r :: rs), k2, i2. split_and!; try done; [naive_solver |].
  constructor; [| done]. cbn. split; [done |]. naive_solver.
Qed.

Lemma empty_idset_inv : idset_inv [] empty_intmem.
Proof.
  destruct (empty_intmem_inv (idset_hash [])) as [He Hn].
  split; [done | | done | cbn; lia]. intros i. split; [intros Hs; by apply Hn in Hs |].
  intros (_ & k & Hk). done.
Qed.

(** C17: The table of global roots, which [jl_as_global_root] uses for the values
    it has no other root for (the cases before its first lookup are not part of
    this claim): for any sequence of such calls on an initially empty table,
    every call returns (the table grows, is compacted and rehashed on the way),
    inserting calls always get an object, every object returned is [jl_egal] to
    the argument, and the table canonicalises: two calls of the sequence that
    both get an object get the same one exactly when their arguments are
    [jl_egal]. *)
Theorem global_roots_canonical (ops : list (V * bool)) :
  Z.of_nat (length ops) <= 2 ^ 27 ->
  exists rs keys idxs, global_roots_run ops [] empty_intmem = Ok (rs, keys, idxs) /\
    idset_inv keys idxs /\
    Forall2 (fun op r => (op.2 = true -> r <> None) /\
      forall k, r = Some k -> jl_egal k op.1 = true) ops rs /\
    forall i j v w b c k1 k2,
      ops !! i = Some (v, b) -> ops !! j = Some (w, c) ->
      rs !! i = Some (Some k1) -> rs !! j = Some (Some k2) ->
      (jl_egal v w = true <-> k1 = k2).
Proof.
  intros Hlen. destruct (global_roots_run_spec ops [] empty_intmem 0) as (rs & keys & idxs & E & Hi & _ & Hall);
    [apply empty_idset_inv | split; cbn; lia | done |].
  exists rs, keys, idxs. split_and!; try done.
  - eapply Forall2_impl; [| exact Hall]. intros op r [H1 H2]. split; [done |]. intros k Hk. by apply H2.
  - intros i j v w b c k1 k2 Hv Hw H1 H2.
    assert (Hf : forall p u d k, ops !! p = Some (u, d) -> rs !! p = Some (Some k) ->
              Some k ∈ keys /\ jl_egal k u = true).
    { intros p u d k Hu Hk. destruct (Forall2_lookup_lr _ _ _ _ _ _ Hall Hu Hk) as [_ H]. by apply H. }
    destruct (Hf _ _ _ _ Hv H1) as [Hk1 He1]. destruct (Hf _ _ _ _ Hw H2) as [Hk2 He2]. split.
    + intros He. apply (idset_elem_egal keys idxs k1 k2 Hi Hk1 Hk2).
      apply (jl_egal_trans _ v); [done |]. apply (jl_egal_trans _ w); [done |]. by rewrite jl_egal_sym.
    + intros <-. apply (jl_egal_trans _ k1); [by rewrite jl_egal_sym | done].
Qed.

(** [jl_idset_peek_bp], [jl_idset_get] and [jl_idset_pop] decide
    membership up to [jl_egal]: they answer -1 (or [NULL]) exactly when no
    key is [jl_egal] to the argument; [jl_idset_pop] then changes nothing,
    and otherwise removes exactly the matching key and keeps the
    invariant. *)
Theorem jl_idset_lookup_pop_correct keys idxs key :
  idset_inv keys idxs ->
  exists i keys' idxs',
    jl_idset_peek_bp keys idxs key = Ok i /\
    jl_idset_get keys idxs key = Ok (if i =? -1 then None else key_at keys i) /\
    jl_idset_pop keys idxs key = Ok (i, keys', idxs') /\
    (i = -1 <-> ~ member keys key) /\
    (i <> -1 -> exists k, key_at keys i = Some k /\ jl_egal k key = true) /\
    idset_inv keys' idxs' /\
    (forall y, Some y ∈ keys' <-> Some y ∈ keys /\ jl_egal y key = false).
Proof.
  intros Hi. pose proof (is_distinct _ _ Hi) as Hd.
  destruct (jl_idset_pop_spec keys idxs key Hi) as [(i & k & idxs' & Ep & Hi0 & Hk & He & Hi') | [Ep Hn]].
  - destruct (jl_idset_peek_bp_spec keys idxs key Hi) as [(j & k' & Ej & Hj0 & Hk' & He') | [_ Hn]].
    2: { exfalso. apply Hn, member_key_at. by exists i, k. }
    assert (j = i) as ->.
    { apply (Hd j i k' k); try done. apply (jl_egal_trans _ key); [done |]. by rewrite jl_egal_sym. }
    exists i, (<[Z.to_nat i := None]> keys), idxs'. unfold jl_idset_get. rewrite Ej. cbn [obind].
    destruct (Z.eqb_spec i (-1)); [lia |].
    split; [done |]. split; [rewrite Hk; apply rd_lookup; split; [done | by apply key_at_Some] |].
    split; [done |]. split.
    { split; [done |]. intros Hn. exfalso. apply Hn, member_key_at. by exists i, k. }
    split; [by exists k |]. split; [done |]. intros y. pose proof (key_at_range _ _ _ Hi0 Hk).
    apply key_at_Some in Hk as Hki; [| done]. split.
    + intros (p & Hp)%list_elem_of_lookup.
      destruct (Nat.eq_dec p (Z.to_nat i)) as [-> | Hne]; [rewrite list_lookup_insert_eq in Hp by lia; done |].
      rewrite list_lookup_insert_ne in Hp by done. split; [by eapply list_elem_of_lookup_2 |].
      destruct (jl_egal y key) eqn:Ey; [| done]. exfalso. apply Hne.
      enough (Z.of_nat p = i) by lia. apply (Hd _ _ y k); [lia | done | | done |].
      * apply key_at_Some; [lia |]. by rewrite Nat2Z.id.
      * apply (jl_egal_trans _ key); [done |]. by rewrite jl_egal_sym.
    + intros [(p & Hp)%list_elem_of_lookup Ey]. apply list_elem_of_lookup. exists p.
      rewrite list_lookup_insert_ne; [done |]. intros <-. rewrite Hki in Hp. injection Hp as ->. congruence.
  - destruct (jl_idset_peek_bp_spec keys idxs key Hi) as [(j & k' & Ej & Hj0 & Hk' & He') | [Ej _]].
    { exfalso. apply Hn, member_key_at. by exists j, k'. }
    exists (-1), keys, idxs. unfold jl_idset_get. rewrite Ej. cbn [obind]. split_and!; try done.
    intros y. split; [| by intros [? _]]. intros Hy. split; [done |].
    destruct (jl_egal y key) eqn:Ey; [| done]. exfalso. apply Hn. by exists y.
Qed.
End IdSetFacts.

(** ** Witnesses *)

Lemma global_roots_canonical_witness :
  exists rs keys idxs,
    @global_roots_run Z (Z_identity (fun x => 3 * x)) [(5, true); (8, true); (5, false)] [] empty_intmem
      = Ok (rs, keys, idxs) /\ length rs = 3%nat.
Proof.
  destruct (@global_roots_canonical Z (Z_identity (fun x => 3 * x)) [(5, true); (8, true); (5, false)])
    as (rs & keys & idxs & E & _ & H & _); [cbn; lia |].
  exists rs, keys, idxs. split; [exact E |]. apply Forall2_length in H. cbn in H. congruence.
Defined.

Lemma jl_idset_lookup_pop_correct_witness :
  exists i keys' idxs',
    @jl_idset_pop Z (Z_identity (fun x => x)) [] empty_intmem 5 = Ok (i, keys', idxs') /\
    i = -1.
Proof.
  destruct (@jl_idset_lookup_pop_correct Z (Z_identity (fun x => x)) [] empty_intmem 5)
    as (i & keys' & idxs' & _ & _ & E & Hi & _).
  - apply empty_idset_inv.
  - exists i, keys', idxs'. split; [exact E |]. apply Hi. intros (k & Hk & _). by apply not_elem_of_nil in Hk.
Defined.
