(* ===== verification/IdDict.v ===== *)
(** * Identity dictionaries (iddict.c)

    An [IdDict] is a memory of pointers used as an open addressing table: slot
    [i] has its key at index [2 * i] and its value at [2 * i + 1], [NULL] being
    [None].  An entry is deleted by setting its key to [nothing] and its value
    to [NULL].  [V] is the type of object pointers. *)

From stdpp Require Import base sets list numbers option.
From Stdlib Require Import ZArith Lia.
From S2P Require Import Prelude Probe Identity SmallIntSet.

(** How a probe of [jl_table_assign_bp] ends: at the index of an entry for the
    key, or with the slot to use, if any. *)
Inductive probe_result := Found (index : Z) | NotFound (empty_slot : option Z).

Section IdDict.
Context {V : Type} `{!EqDecision V, !Identity V} (jl_nothing : V).
Implicit Types (a tab : list (option V)) (key val : V).

Definition hash_size a : Z := Z.of_nat (length a) / 2.
Definition h2index2 (hv sz : Z) : Z := Z.land hv (sz - 1) * 2.
Definition keyhash key : Z := jl_object_id key.

Definition jl_alloc_memory_any (n : Z) : list (option V) := replicate (Z.to_nat n) None.

(** The loop of [jl_idtable_rehash]; [assign] is the recursive call.  [n]
    pairs are left from index [i] on. *)
Fixpoint rehash_pairs (assign : list (option V) -> V -> V -> outcome (Z * list (option V)))
    (n : nat) (ol : list (option V)) (i : Z) (newa : list (option V)) : outcome (list (option V)) :=
  match n with
  | O => Ok newa
  | S n' =>
      let! v := rd ol (i + 1) in
      match v with
      | Some v =>
          let! k := rd ol i in
          match k with
          | Some k =>
              let! (_, newa) := assign newa k v in
              rehash_pairs assign n' ol (i + 2) newa
          | None => UB
          end
      | None => rehash_pairs assign n' ol (i + 2) newa
      end
  end.

(** The probe loop of [jl_table_assign_bp]; [n] is [maxprobe - iter]. *)
Fixpoint assign_probe (n : nat) tab key (sz index orig : Z) (empty_slot : option Z)
    : outcome probe_result :=
  let! k2 := rd tab index in
  match k2 with
  | None => Ok (NotFound (Some (default index empty_slot)))
  | Some k2 =>
      let! stop :=
        if jl_egal key k2 then
          let! v2 := rd tab (index + 1) in
          match v2 with
          | Some _ => Ok (inl index)
          | None =>
              if bool_decide (key = jl_nothing) then Ok (inr (Some (default index empty_slot)))
              else UB
          end
        else Ok (inr empty_slot) in
      match stop with
      | inl index => Ok (Found index)
      | inr empty_slot =>
          let! empty_slot :=
            match empty_slot with
            | Some _ => Ok empty_slot
            | None =>
                let! v2 := rd tab (index + 1) in
                match v2 with
                | None => if bool_decide (k2 = jl_nothing) then Ok (Some index) else UB
                | Some _ => Ok None
                end
            end in
          let index := Z.land (index + 2) (sz - 1) in
          match n with
          | O => Ok (NotFound empty_slot)
          | S n' =>
              if index =? orig then Ok (NotFound empty_slot)
              else assign_probe n' tab key sz index orig empty_slot
          end
      end
  end.

(** The outer loop; the result is the return value with what [*pa] holds. *)
Fixpoint assign_loop (fuel : nat) a key val : outcome (Z * list (option V)) :=
  match fuel with
  | O => Timeout
  | S fuel' =>
      let sz := hash_size a in
      let maxprobe := max_probe sz in
      let hv := keyhash key in
      let index := h2index2 hv sz in
      let! r := assign_probe (Z.to_nat maxprobe) a key (sz * 2) index index None in
      match r with
      | Found index =>
          let! a := wr a (index + 1) (Some val) in
          Ok (0, a)
      | NotFound (Some empty_slot) =>
          let! a := wr a empty_slot (Some key) in
          let! a := wr a (empty_slot + 1) (Some val) in
          Ok (1, a)
      | NotFound None =>
          let newsz := grow_size (Z.of_nat (length a)) in
          let! a :=
            rehash_pairs
              (fun newa k v =>
                 assign_loop fuel' (if hash_size newa =? 0 then jl_alloc_memory_any HT_N_INLINE else newa) k v)
              ((length a + 1) / 2) a 0 (jl_alloc_memory_any newsz) in
          assign_loop fuel' a key val
      end
  end.

Definition jl_table_assign_bp (fuel : nat) a key val : outcome (Z * list (option V)) :=
  let a := if hash_size a =? 0 then jl_alloc_memory_any HT_N_INLINE else a in
  assign_loop fuel a key val.

Definition jl_idtable_rehash (fuel : nat) a (newsz : Z) : outcome (list (option V)) :=
  rehash_pairs (jl_table_assign_bp fuel) ((length a + 1) / 2) a 0 (jl_alloc_memory_any newsz).

Fixpoint peek_loop (n : nat) tab key (sz index orig : Z) : outcome (option Z) :=
  let! k2 := rd tab index in
  match k2 with
  | None => Ok None
  | Some k2 =>
      let! stop :=
        if jl_egal key k2 then
          let! v2 := rd tab (index + 1) in
          match v2 with
          | Some _ => Ok (Some (Some (index + 1)))
          | None => if bool_decide (key = jl_nothing) then Ok None else Ok (Some None)
          end
        else Ok None in
      match stop with
      | Some r => Ok r
      | None =>
          let index := Z.land (index + 2) (sz - 1) in
          match n with
          | O => Ok None
          | S n' => if index =? orig then Ok None else peek_loop n' tab key sz index orig
          end
      end
  end.

(** The index of the value, or [None] for [NULL]. *)
Definition jl_table_peek_bp a key : outcome (option Z) :=
  let sz := hash_size a in
  if sz =? 0 then Ok None
  else
    let index := h2index2 (keyhash key) sz in
    peek_loop (Z.to_nat (max_probe sz)) a key (sz * 2) index index.

(** The returned table and [*p_inserted]. *)
Definition jl_eqtable_put (fuel : nat) a key val : outcome (list (option V) * Z) :=
  let! (inserted, a) := jl_table_assign_bp fuel a key val in
  Ok (a, inserted).

Definition jl_eqtable_get a key (deflt : option V) : outcome (option V) :=
  let! bp := jl_table_peek_bp a key in
  match bp with
  | None => Ok deflt
  | Some bp => rd a bp
  end.

Definition jl_eqtable_getkey a key (deflt : option V) : outcome (option V) :=
  let! bp := jl_table_peek_bp a key in
  match bp with
  | None => Ok deflt
  | Some bp => rd a (bp - 1)
  end.

(** The returned value, [*found], and the table after the call. *)
Definition jl_eqtable_pop a key (deflt : option V)
    : outcome (option V * bool * list (option V)) :=
  let! bp := jl_table_peek_bp a key in
  match bp with
  | None => Ok (deflt, false, a)
  | Some bp =>
      let! v := rd a bp in
      let! a := wr a (bp - 1) (Some jl_nothing) in
      let! a := wr a bp None in
      Ok (v, true, a)
  end.

Fixpoint nextind_loop (n : nat) a (i : Z) : outcome Z :=
  if i <? Z.of_nat (length a) then
    let! v := rd a (i + 1) in
    match v with
    | None => match n with O => Timeout | S n' => nextind_loop n' a (i + 2) end
    | Some _ => Ok i
    end
  else Ok i.

Definition jl_eqtable_nextind a (i : Z) : outcome Z :=
  let i := if negb (Z.land i 1 =? 0) then i + 1 else i in
  let! i := nextind_loop (length a) a i in
  if Z.of_nat (length a) <=? i then Ok SIZE_MAX else Ok i.

(** ** Sequences of operations *)

Inductive dict_op := Put (key val : V) | Get (key : V) | Pop (key : V).

(** Iterations that always suffice for a table of this size. *)
Definition dict_fuel a : nat := Z.to_nat (Z.log2 (64 * Z.of_nat (length a) + 1024) + 2).

(** What [Get] and [Pop] return, [NULL] being their default, and the table at
    the end. *)
Fixpoint dict_run (ops : list dict_op) a : outcome (list (option V) * list (option V)) :=
  match ops with
  | [] => Ok ([], a)
  | Put key val :: ops' =>
      let! (a, _) := jl_eqtable_put (dict_fuel a) a key val in
      dict_run ops' a
  | Get key :: ops' =>
      let! r := jl_eqtable_get a key None in
      let! (rs, a) := dict_run ops' a in
      Ok (r :: rs, a)
  | Pop key :: ops' =>
      let! (r, _, a) := jl_eqtable_pop a key None in
      let! (rs, a) := dict_run ops' a in
      Ok (r :: rs, a)
  end.
End IdDict.
