(* ===== verification/IdDictFacts.v ===== *)
(** * Correctness of the identity dictionaries

    The probe loops are first reduced to walks over the list of slots they
    visit.  The invariant says that a live entry lies in the window of its
    home slot with no unused slot before it, that a slot without value has no
    key or the key [nothing], and that no two live keys are [jl_egal]. *)

From stdpp Require Import base sets list numbers option.
From Stdlib Require Import ZArith Lia.
From S2P Require Import Prelude Probe Identity SmallIntSet SmallIntSetFacts IdDict.

Section IdDictFacts.
Context {V : Type} `{!EqDecision V, !Identity V} (jl_nothing : V).
Hypothesis nothing_egal : forall x, jl_egal x jl_nothing = true -> x = jl_nothing.
Implicit Types (a : list (option V)) (key val : V).

Definition dkey a (i : Z) : option V := default None (a !! Z.to_nat (2 * i)).
Definition dval a (i : Z) : option V := default None (a !! Z.to_nat (2 * i + 1)).

(** Slot [i] is an entry for [k] with value [v]. *)
Definition live a (i : Z) k v : Prop :=
  0 <= i < hash_size a /\ dkey a i = Some k /\ dval a i = Some v.

(** The [d]-th slot of the window of [key]. *)
Definition chain a key (d : Z) : Z := slot_pos (hash_size a) (keyhash key mod hash_size a) d.

Definition dwindow a : Z := window (max_probe (hash_size a)) (hash_size a).

Record dict_shape a : Prop := {
  d_len : Z.of_nat (length a) = 2 * hash_size a;
  d_size : hash_size a = 0 \/ pow2 (hash_size a);
  d_empty : forall i, 0 <= i < hash_size a -> dkey a i = None -> dval a i = None;
  d_del : forall i k, 0 <= i < hash_size a -> dkey a i = Some k -> dval a i = None -> k = jl_nothing
}.

Record dict_inv a : Prop := {
  d_shape : dict_shape a;
  d_chain : forall i k v, live a i k v ->
    exists d, 0 <= d < dwindow a /\ i = chain a k d /\
      forall e, 0 <= e < d -> dkey a (chain a k e) <> None;
  d_uniq : forall i j k k' v v', live a i k v -> live a j k' v' -> jl_egal k k' = true -> i = j
}.

(** [key] is mapped to [v]. *)
Definition maps a key v : Prop := exists i k, live a i k v /\ jl_egal key k = true.

Lemma rd_key a i : Z.of_nat (length a) = 2 * hash_size a -> 0 <= i < hash_size a ->
  rd a (2 * i) = Ok (dkey a i).
Proof.
  intros Hl Hi. destruct (rd_in_range a (2 * i)) as (x & -> & E); [lia |].
  unfold dkey. by rewrite E.
Qed.

Lemma rd_val a i : Z.of_nat (length a) = 2 * hash_size a -> 0 <= i < hash_size a ->
  rd a (2 * i + 1) = Ok (dval a i).
Proof.
  intros Hl Hi. destruct (rd_in_range a (2 * i + 1)) as (x & -> & E); [lia |].
  unfold dval. by rewrite E.
Qed.

(** ** Probes as walks over a list of slots *)

(** [n] slots of the window with home [o], from the [k]-th on. *)
Fixpoint slots (sz o k : Z) (n : nat) : list Z :=
  match n with
  | O => []
  | S n' => slot_pos sz o k :: slots sz o (k + 1) n'
  end.

Lemma elem_of_slots sz o k n i :
  i ∈ slots sz o k n <-> exists d, k <= d < k + Z.of_nat n /\ i = slot_pos sz o d.
Proof.
  revert k. induction n as [| n IH]; intros k; cbn [slots].
  - split; [intros H; by apply not_elem_of_nil in H | intros (d & Hd & _); lia].
  - rewrite elem_of_cons, IH. split.
    + intros [-> | (d & Hd & ->)]; [exists k | exists d]; split; (lia || done).
    + intros (d & Hd & ->). destruct (Z.eq_dec d k) as [-> |]; [by left | right; exists d; split; [lia | done]].
Qed.

Lemma step2 sz p : pow2 sz -> Z.land (2 * p + 2) (sz * 2 - 1) = 2 * ((p + 1) mod sz).
Proof.
  intros Hp. pose proof (pow2_pos _ Hp).
  rewrite land_pow2 by (pose proof (pow2_double _ Hp) as H'; by rewrite shiftl_pow in H' by lia).
  replace (2 * p + 2) with (2 * (p + 1)) by lia. rewrite (Z.mul_comm sz 2).
  apply Z.mul_mod_distr_l; lia.
Qed.

(** The next slot, and the test for the end of the loop. *)
Lemma next_slot sz o k :
  pow2 sz -> 0 <= o < sz -> 0 <= k < sz ->
  Z.land (2 * slot_pos sz o k + 2) (sz * 2 - 1) = 2 * slot_pos sz o (k + 1) /\
  (2 * slot_pos sz o (k + 1) =? 2 * o) = (k + 1 =? sz).
Proof.
  intros Hp Ho Hk. pose proof (pow2_pos _ Hp). rewrite step2 by done. split.
  - unfold slot_pos. rewrite Z.add_mod_idemp_l by lia. do 2 f_equal. lia.
  - destruct (Z.eqb_spec (k + 1) sz) as [-> | Hne].
    + unfold slot_pos. rewrite <- Z.add_mod_idemp_r, Z.mod_same, Z.add_0_r by lia.
      rewrite Z.mod_small by lia. apply Z.eqb_refl.
    + apply Z.eqb_neq. intros E. assert (E' : slot_pos sz o (k + 1) = slot_pos sz o 0)
        by (rewrite slot_pos_0 by done; lia). apply slot_pos_inj in E'; lia.
Qed.

Fixpoint peek_list a key (l : list Z) : option Z :=
  match l with
  | [] => None
  | i :: l' =>
      match dkey a i with
      | None => None
      | Some k2 =>
          if jl_egal key k2 then
            match dval a i with
            | Some _ => Some i
            | None => if bool_decide (key = jl_nothing) then peek_list a key l' else None
            end
          else peek_list a key l'
      end
  end.

Lemma peek_loop_list a key n : forall o k,
  Z.of_nat (length a) = 2 * hash_size a -> pow2 (hash_size a) ->
  0 <= o < hash_size a -> 0 <= k < hash_size a ->
  peek_loop jl_nothing n a key (hash_size a * 2) (2 * slot_pos (hash_size a) o k) (2 * o) =
  Ok (option_map (fun i => 2 * i + 1)
        (peek_list a key (slots (hash_size a) o k (Z.to_nat (Z.min (Z.of_nat n + 1) (hash_size a - k)))))).
Proof.
  induction n as [| n IH]; intros o k Hl Hp Ho Hk; pose proof (pow2_pos _ Hp);
    pose proof (slot_pos_range (hash_size a) o k ltac:(lia)) as Hr;
    destruct (next_slot _ o k Hp Ho Hk) as [Hnx He];
    cbn [peek_loop]; rewrite rd_key, ?Hnx, ?He by done; cbn [obind].
  - replace (Z.to_nat (Z.min (Z.of_nat 0 + 1) (hash_size a - k))) with 1%nat by lia.
    cbn [slots peek_list]. destruct (dkey a _) as [k2 |]; [| done].
    destruct (jl_egal key k2); [| done]. rewrite rd_val by done. cbn [obind].
    destruct (dval a _); [done |]. by destruct (bool_decide _).
  - replace (Z.to_nat (Z.min (Z.of_nat (S n) + 1) (hash_size a - k)))
      with (S (Z.to_nat (Z.min (Z.of_nat n + 1) (hash_size a - (k + 1))))) by lia.
    cbn [slots peek_list]. destruct (dkey a _) as [k2 |]; [| done].
    assert (Hrec : (if k + 1 =? hash_size a then Ok None
       else peek_loop jl_nothing n a key (hash_size a * 2) (2 * slot_pos (hash_size a) o (k + 1)) (2 * o)) =
       Ok (option_map (fun i => 2 * i + 1) (peek_list a key (slots (hash_size a) o (k + 1)
         (Z.to_nat (Z.min (Z.of_nat n + 1) (hash_size a - (k + 1)))))))).
    { destruct (Z.eqb_spec (k + 1) (hash_size a)) as [E |]; [| apply IH; try done; lia].
      by replace (Z.to_nat _) with 0%nat by lia. }
    destruct (jl_egal key k2); [| exact Hrec]. rewrite rd_val by done. cbn [obind].
    destruct (dval a _); [done |]. destruct (bool_decide _); [exact Hrec | done].
Qed.

(** The slot found, or the slot to use. *)
Fixpoint assign_list a key (l : list Z) (empty : option Z) : probe_result :=
  match l with
  | [] => NotFound empty
  | i :: l' =>
      match dkey a i with
      | None => NotFound (Some (default i empty))
      | Some k2 =>
          if jl_egal key k2 && bool_decide (dval a i <> None) then Found i
          else assign_list a key l'
                 (if decide (dval a i = None) then Some (default i empty) else empty)
      end
  end.

Definition to_index (r : probe_result) : probe_result :=
  match r with
  | Found i => Found (2 * i)
  | NotFound e => NotFound (option_map (Z.mul 2) e)
  end.

Lemma assign_probe_list a key n : forall o k empty,
  dict_shape a -> pow2 (hash_size a) -> 0 <= o < hash_size a -> 0 <= k < hash_size a ->
  assign_probe jl_nothing n a key (hash_size a * 2) (2 * slot_pos (hash_size a) o k) (2 * o)
    (option_map (Z.mul 2) empty) =
  Ok (to_index (assign_list a key
        (slots (hash_size a) o k (Z.to_nat (Z.min (Z.of_nat n + 1) (hash_size a - k)))) empty)).
Proof using nothing_egal.
  induction n as [| n IH]; intros o k empty Hs Hp Ho Hk; pose proof (pow2_pos _ Hp);
    pose proof (d_len _ Hs) as Hl;
    pose proof (slot_pos_range (hash_size a) o k ltac:(lia)) as Hr;
    destruct (next_slot _ o k Hp Ho Hk) as [Hnx He];
    cbn [assign_probe]; rewrite rd_key, ?Hnx, ?He by done; cbn [obind];
    set (i := slot_pos (hash_size a) o k) in *.
  - replace (Z.to_nat (Z.min (Z.of_nat 0 + 1) (hash_size a - k))) with 1%nat by lia.
    cbn [slots assign_list]. fold i. destruct (dkey a i) as [k2 |] eqn:Ek; [| by destruct empty].
    rewrite rd_val by done. cbn [obind].
    destruct (dval a i) as [v2 |] eqn:Ev.
    + rewrite bool_decide_true, decide_False by done. rewrite andb_true_r.
      destruct (jl_egal key k2); cbn [obind]; [done |].
      by destruct empty; cbn.
    + rewrite (bool_decide_false (@None V <> None)) by (intros Hx; by apply Hx). rewrite decide_True by done. rewrite andb_false_r.
      pose proof (d_del _ Hs i k2 Hr Ek Ev) as ->.
      rewrite (bool_decide_true (jl_nothing = jl_nothing)) by done.
      destruct (jl_egal key jl_nothing) eqn:Eg.
      * apply nothing_egal in Eg as ->. rewrite (bool_decide_true (jl_nothing = jl_nothing)) by done.
        by destruct empty.
      * by destruct empty.
  - replace (Z.to_nat (Z.min (Z.of_nat (S n) + 1) (hash_size a - k)))
      with (S (Z.to_nat (Z.min (Z.of_nat n + 1) (hash_size a - (k + 1))))) by lia.
    cbn [slots assign_list]. fold i. destruct (dkey a i) as [k2 |] eqn:Ek; [| by destruct empty].
    assert (Hrec : forall empty', (if k + 1 =? hash_size a then Ok (NotFound (option_map (Z.mul 2) empty'))
       else assign_probe jl_nothing n a key (hash_size a * 2) (2 * slot_pos (hash_size a) o (k + 1)) (2 * o)
              (option_map (Z.mul 2) empty')) =
       Ok (to_index (assign_list a key (slots (hash_size a) o (k + 1)
         (Z.to_nat (Z.min (Z.of_nat n + 1) (hash_size a - (k + 1))))) empty'))).
    { intros empty'. destruct (Z.eqb_spec (k + 1) (hash_size a)) as [E |]; [| apply IH; try done; lia].
      by replace (Z.to_nat _) with 0%nat by lia. }
    rewrite rd_val by done. cbn [obind].
    destruct (dval a i) as [v2 |] eqn:Ev.
    + rewrite bool_decide_true, decide_False by done. rewrite andb_true_r.
      destruct (jl_egal key k2); cbn [obind]; [done |].
      rewrite <- Hrec. by destruct empty; cbn.
    + rewrite (bool_decide_false (@None V <> None)) by (intros Hx; by apply Hx). rewrite decide_True by done. rewrite andb_false_r.
      pose proof (d_del _ Hs i k2 Hr Ek Ev) as ->.
      rewrite (bool_decide_true (jl_nothing = jl_nothing)) by done.
      rewrite <- Hrec. destruct (jl_egal key jl_nothing) eqn:Eg.
      * apply nothing_egal in Eg as ->. rewrite (bool_decide_true (jl_nothing = jl_nothing)) by done.
        by destruct empty.
      * by destruct empty.
Qed.

Lemma slots_app sz o k m n : slots sz o k (m + n) = slots sz o k m ++ slots sz o (k + Z.of_nat m) n.
Proof.
  revert k. induction m as [| m IH]; intros k; cbn [slots Nat.add app].
  - by rewrite Z.add_0_r.
  - rewrite IH. by replace (k + 1 + Z.of_nat m) with (k + Z.of_nat (S m)) by lia.
Qed.

Lemma slots_length sz o k n : length (slots sz o k n) = n.
Proof. revert k. induction n as [| n IH]; intros k; cbn; [done | by rewrite IH]. Qed.

(** ** What the walks find *)

(** Slot [i] holds an entry for [key]. *)
Definition hit a key (i : Z) : Prop := exists k v, live a i k v /\ jl_egal key k = true.

Definition in_table a (l : list Z) : Prop := Forall (fun i => 0 <= i < hash_size a) l.

Lemma peek_list_Some a key l i : in_table a l -> peek_list a key l = Some i -> hit a key i.
Proof.
  induction 1 as [| j l Hj Hl IH]; cbn [peek_list]; [done |].
  destruct (dkey a j) as [k2 |] eqn:Ek; [| done]. destruct (jl_egal key k2) eqn:Eg; [| done].
  destruct (dval a j) as [v |] eqn:Ev; [| by destruct (bool_decide _)].
  intros [= <-]. by exists k2, v.
Qed.

Lemma walk_deleted a key i k :
  dict_shape a -> 0 <= i < hash_size a -> dkey a i = Some k -> dval a i = None ->
  jl_egal key k = true -> key = jl_nothing.
Proof using nothing_egal.
  intros Hs Hi Ek Ev Eg. pose proof (d_del _ Hs i k Hi Ek Ev) as ->. by apply nothing_egal.
Qed.

Lemma peek_list_hit a key pre i post :
  dict_shape a -> in_table a pre -> Forall (fun j => dkey a j <> None) pre -> hit a key i ->
  exists j, peek_list a key (pre ++ i :: post) = Some j.
Proof using nothing_egal.
  intros Hs Hin Hpre (k & v & (Hi & Ek & Ev) & Eg).
  induction Hpre as [| j pre Hj Hpre IH]; cbn [app peek_list].
  - rewrite Ek, Eg, Ev. by exists i.
  - apply List.Forall_cons_iff in Hin as [Hj' Hin]. destruct (dkey a j) as [k2 |] eqn:Ek2; [| done].
    destruct (jl_egal key k2) eqn:Eg2; [| by apply IH].
    destruct (dval a j) eqn:Ev2; [by exists j |].
    rewrite bool_decide_true by (by apply (walk_deleted a key j k2)). by apply IH.
Qed.

Lemma assign_list_Found a key l i : forall empty,
  in_table a l -> assign_list a key l empty = Found i -> hit a key i.
Proof.
  induction l as [| j l IH]; intros empty Hin; cbn [assign_list]; [done |].
  apply List.Forall_cons_iff in Hin as [Hj Hin]. destruct (dkey a j) as [k2 |] eqn:Ek; [| done].
  destruct (jl_egal key k2) eqn:Eg; cbn [andb]; [| by apply IH].
  destruct (dval a j) as [v |] eqn:Ev; [| rewrite bool_decide_false by (intros Hx; by apply Hx); by apply IH].
  rewrite bool_decide_true by done. intros [= <-]. by exists k2, v.
Qed.

Lemma assign_list_hit a key pre i post : forall empty,
  Forall (fun j => dkey a j <> None) pre -> hit a key i ->
  exists j, assign_list a key (pre ++ i :: post) empty = Found j.
Proof.
  intros empty Hpre (k & v & (Hi & Ek & Ev) & Eg). revert empty.
  induction Hpre as [| j pre Hj Hpre IH]; intros empty; cbn [app assign_list].
  - rewrite Ek, Eg, Ev, bool_decide_true by done. by exists i.
  - destruct (dkey a j) as [k2 |]; [| done].
    destruct (jl_egal key k2 && bool_decide (dval a j <> None)); [by exists j | by apply IH].
Qed.

Lemma assign_list_Some_empty a key l : forall e r,
  assign_list a key l (Some e) = NotFound r -> r = Some e.
Proof.
  induction l as [| j l IH]; intros e r; cbn [assign_list]; [congruence |].
  destruct (dkey a j) as [k2 |]; [| cbn; congruence].
  destruct (jl_egal key k2 && _); [done |]. destruct (decide _); apply IH.
Qed.

(** A free slot for the key, with no unused slot before it; or a window full
    of entries. *)
Lemma assign_list_NotFound a key l r :
  assign_list a key l None = NotFound r ->
  (exists e pre post, r = Some e /\ l = pre ++ e :: post /\ Forall (fun j => dkey a j <> None) pre /\
     (dkey a e = None \/ dval a e = None)) \/
  (r = None /\ Forall (fun j => dval a j <> None) l).
Proof.
  induction l as [| j l IH]; cbn [assign_list]; [intros [= <-]; right; by split |].
  destruct (dkey a j) as [k2 |] eqn:Ek.
  2: { intros [= <-]. left. exists j, [], l. split_and!; try done. by left. }
  destruct (jl_egal key k2 && _); [done |]. destruct (decide (dval a j = None)) as [Ev | Ev].
  - intros E%assign_list_Some_empty. left. exists j, [], l. split_and!; try done. by right.
  - intros E. destruct (IH E) as [(e & pre & post & -> & -> & Hpre & He) | [-> Hall]]; [left | right; by split; [| constructor]].
    exists e, (j :: pre), post. split_and!; try done. constructor; [congruence | done].
Qed.

(** ** Walks over the window of a key *)

Definition wslots a key : list Z :=
  slots (hash_size a) (keyhash key mod hash_size a) 0 (Z.to_nat (dwindow a)).

Lemma wslots_in a key : 0 < hash_size a -> in_table a (wslots a key).
Proof.
  intros Hp. apply List.Forall_forall. intros i (d & _ & ->)%list_elem_of_In%elem_of_slots. by apply slot_pos_range.
Qed.

Lemma wslots_split a key d :
  0 <= d < dwindow a ->
  wslots a key = slots (hash_size a) (keyhash key mod hash_size a) 0 (Z.to_nat d) ++
    chain a key d :: slots (hash_size a) (keyhash key mod hash_size a) (d + 1) (Z.to_nat (dwindow a - d - 1)).
Proof.
  intros Hd. unfold wslots.
  replace (Z.to_nat (dwindow a)) with (Z.to_nat d + S (Z.to_nat (dwindow a - d - 1)))%nat by lia.
  rewrite slots_app. cbn [slots]. rewrite Z2Nat.id, Z.add_0_l by lia. done.
Qed.

Lemma chain_egal a key k d : jl_egal key k = true -> chain a k d = chain a key d.
Proof. intros E. unfold chain, keyhash. by rewrite (jl_egal_object_id _ _ E). Qed.

Lemma hit_split a key i :
  dict_inv a -> hit a key i ->
  exists pre post, wslots a key = pre ++ i :: post /\ Forall (fun j => dkey a j <> None) pre.
Proof.
  intros Hi (k & v & Hl & Eg). destruct (d_chain _ Hi i k v Hl) as (d & Hd & -> & Hc).
  rewrite (chain_egal _ _ _ _ Eg). rewrite wslots_split with (d := d) by done.
  eexists _, _. split; [reflexivity |]. apply List.Forall_forall.
  intros j (e & He & ->)%list_elem_of_In%elem_of_slots. specialize (Hc e ltac:(lia)).
  by rewrite (chain_egal _ _ _ _ Eg) in Hc.
Qed.

Lemma probe_start a key :
  pow2 (hash_size a) -> h2index2 (keyhash key) (hash_size a) = 2 * slot_pos (hash_size a) (keyhash key mod hash_size a) 0 /\
  h2index2 (keyhash key) (hash_size a) = 2 * (keyhash key mod hash_size a).
Proof.
  intros Hp. pose proof (pow2_pos _ Hp). unfold h2index2. rewrite land_pow2 by done.
  rewrite slot_pos_0 by (apply Z.mod_pos_bound; lia). lia.
Qed.

Lemma min_dwindow a :
  0 < hash_size a ->
  Z.min (Z.of_nat (Z.to_nat (max_probe (hash_size a))) + 1) (hash_size a - 0) = dwindow a.
Proof.
  intros Hpos. assert (0 <= max_probe (hash_size a)) by (apply max_probe_nonneg; lia).
  unfold dwindow, window. lia.
Qed.

Lemma jl_table_peek_bp_list a key :
  dict_shape a -> 0 < hash_size a ->
  jl_table_peek_bp jl_nothing a key = Ok (option_map (fun i => 2 * i + 1) (peek_list a key (wslots a key))).
Proof.
  intros Hs Hpos. assert (Hp : pow2 (hash_size a)) by (destruct (d_size _ Hs); [lia | done]).
  unfold jl_table_peek_bp. destruct (Z.eqb_spec (hash_size a) 0); [lia |].
  destruct (probe_start a key Hp) as [E1 E2]. rewrite E1 at 1. rewrite E2, peek_loop_list
    by first [done | by apply d_len | apply Z.mod_pos_bound; lia | lia].
  by rewrite min_dwindow.
Qed.

Lemma jl_table_peek_bp_spec a key :
  dict_inv a ->
  (exists i, hit a key i /\ jl_table_peek_bp jl_nothing a key = Ok (Some (2 * i + 1))) \/
  ((forall i, ~ hit a key i) /\ jl_table_peek_bp jl_nothing a key = Ok None).
Proof using nothing_egal.
  intros Hi. pose proof (d_shape _ Hi) as Hs.
  destruct (Z.eq_dec (hash_size a) 0) as [E0 | Hne].
  { right. unfold jl_table_peek_bp. rewrite E0. split; [| done]. intros i (k & v & (Hr & _) & _). lia. }
  assert (Hpos : 0 < hash_size a) by (destruct (d_size _ Hs) as [| Hp%pow2_pos]; lia).
  rewrite jl_table_peek_bp_list by done.
  destruct (peek_list a key (wslots a key)) as [i |] eqn:Epk.
  - left. exists i. split; [| done]. eapply peek_list_Some; [by apply wslots_in | done].
  - right. split; [| done]. intros i Hh. destruct (hit_split a key i Hi Hh) as (pre & post & Ew & Hpre).
    pose proof (wslots_in a key Hpos) as Hin. rewrite Ew in Epk, Hin.
    destruct (peek_list_hit a key pre i post) as (j & Ej); try done; [by apply List.Forall_app in Hin as [? _] |].
    congruence.
Qed.

(** ** Updates of a slot *)

Definition dset a (i : Z) (ko vo : option V) : list (option V) :=
  <[Z.to_nat (2 * i + 1) := vo]> (<[Z.to_nat (2 * i) := ko]> a).

Lemma hash_size_dset a i ko vo : hash_size (dset a i ko vo) = hash_size a.
Proof. unfold hash_size, dset. by rewrite !length_insert. Qed.

Lemma wr_dset a i ko vo :
  Z.of_nat (length a) = 2 * hash_size a -> 0 <= i < hash_size a ->
  (let! a := wr a (2 * i) ko in wr a (2 * i + 1) vo) = Ok (dset a i ko vo).
Proof.
  intros Hl Hi. rewrite wr_in_range by lia. cbn [obind].
  rewrite wr_in_range by (rewrite length_insert; lia). done.
Qed.

Lemma dkey_dset a i ko vo j :
  Z.of_nat (length a) = 2 * hash_size a -> 0 <= i < hash_size a -> 0 <= j ->
  dkey (dset a i ko vo) j = if j =? i then ko else dkey a j.
Proof.
  intros Hl Hi Hj. unfold dkey, dset. rewrite list_lookup_insert_ne by lia.
  destruct (Z.eqb_spec j i) as [-> |].
  - by rewrite list_lookup_insert_eq by lia.
  - by rewrite list_lookup_insert_ne by lia.
Qed.

Lemma dval_dset a i ko vo j :
  Z.of_nat (length a) = 2 * hash_size a -> 0 <= i < hash_size a -> 0 <= j ->
  dval (dset a i ko vo) j = if j =? i then vo else dval a j.
Proof.
  intros Hl Hi Hj. unfold dval, dset. destruct (Z.eqb_spec j i) as [-> |].
  - by rewrite list_lookup_insert_eq by (rewrite length_insert; lia).
  - by rewrite !list_lookup_insert_ne by lia.
Qed.

Lemma live_dset a i ko vo j k v :
  dict_shape a -> 0 <= i < hash_size a ->
  live (dset a i ko vo) j k v <->
  (j = i /\ ko = Some k /\ vo = Some v) \/ (j <> i /\ live a j k v).
Proof.
  intros Hs Hi. unfold live. rewrite hash_size_dset. split.
  - intros (Hj & Ek & Ev). rewrite dkey_dset in Ek by (try apply Hs; lia).
    rewrite dval_dset in Ev by (try apply Hs; lia).
    destruct (Z.eqb_spec j i); [left; done | right; done].
  - intros [(-> & -> & ->) | (Hne & Hj & Ek & Ev)];
      rewrite dkey_dset, dval_dset by (try apply Hs; lia).
    + by rewrite Z.eqb_refl.
    + by destruct (Z.eqb_spec j i).
Qed.

Lemma dset_shape a i ko vo :
  dict_shape a -> 0 <= i < hash_size a -> (ko = None -> vo = None) ->
  (vo = None -> ko = Some jl_nothing) -> dict_shape (dset a i ko vo).
Proof.
  intros Hs Hi H1 H2. pose proof (d_len _ Hs) as Hl. split; rewrite ?hash_size_dset.
  - unfold dset. rewrite !length_insert. apply Hs.
  - apply Hs.
  - intros j Hj. rewrite dkey_dset, dval_dset by (done || lia). zcase; [done | by apply Hs].
  - intros j k Hj. rewrite dkey_dset, dval_dset by (done || lia).
    zcase; [intros -> Hv; specialize (H2 Hv); congruence | by apply Hs].
Qed.

(** The invariant survives an update that keeps every used slot used. *)
Lemma dset_chain a i k0 vo k d :
  dict_shape a -> 0 <= i < hash_size a ->
  (forall e, 0 <= e < d -> dkey a (chain a k e) <> None) ->
  forall e, 0 <= e < d -> dkey (dset a i (Some k0) vo) (chain (dset a i (Some k0) vo) k e) <> None.
Proof.
  intros Hs Hi Hc e He. unfold chain. rewrite hash_size_dset. fold (chain a k e).
  assert (0 <= chain a k e) by (apply slot_pos_range; lia).
  rewrite dkey_dset by (try apply Hs; lia). zcase; [done | by apply Hc].
Qed.

(** Slot [i] may become an entry for [k]: it is in the window of [k], and an
    entry for a key equal to [k] can only be in that slot. *)
Record can_hold a (i : Z) k : Prop := {
  ch_chain : exists d, 0 <= d < dwindow a /\ i = chain a k d /\
    forall e, 0 <= e < d -> dkey a (chain a k e) <> None;
  ch_only : forall j k' v', live a j k' v' -> jl_egal k k' = true -> j = i;
  ch_same : forall k' v', live a i k' v' -> jl_egal k k' = true
}.

Lemma dset_inv a i k v :
  dict_inv a -> 0 <= i < hash_size a -> can_hold a i k -> dict_inv (dset a i (Some k) (Some v)).
Proof.
  intros Hi Hr Hc. pose proof (d_shape _ Hi) as Hs. split.
  - by apply dset_shape.
  - intros j k' v' Hl. unfold dwindow. rewrite hash_size_dset. fold (dwindow a).
    apply live_dset in Hl as [(-> & [= <-] & _) | [Hne Hl]]; try done.
    + destruct (ch_chain _ _ _ Hc) as (d & Hd & E & Hch). exists d.
      split; [done |]. split; [unfold chain; by rewrite hash_size_dset |]. by apply dset_chain.
    + destruct (d_chain _ Hi j k' v' Hl) as (d & Hd & E & Hch). exists d.
      split; [done |]. split; [unfold chain; by rewrite hash_size_dset |]. by apply dset_chain.
  - intros j j' k1 k2 v1 v2 H1 H2 Eg.
    apply live_dset in H1 as [(-> & [= <-] & _) | [Hne1 H1]]; try done;
      (apply live_dset in H2 as [(-> & [= <-] & _) | [Hne2 H2]]; try done).
    + exfalso. apply Hne2. by eapply (ch_only _ _ _ Hc).
    + exfalso. apply Hne1. eapply (ch_only _ _ _ Hc); [done |]. by rewrite jl_egal_sym.
    + by eapply (d_uniq _ Hi).
Qed.

Lemma jl_egal_cong x y z : jl_egal x y = true -> jl_egal z x = jl_egal z y.
Proof.
  intros E. destruct (jl_egal z x) eqn:E1, (jl_egal z y) eqn:E2; try done.
  - by rewrite (jl_egal_trans _ _ _ E1 E) in E2.
  - rewrite jl_egal_sym in E. by rewrite (jl_egal_trans _ _ _ E2 E) in E1.
Qed.

Lemma dset_maps a i k v x w :
  dict_inv a -> 0 <= i < hash_size a -> can_hold a i k ->
  maps (dset a i (Some k) (Some v)) x w <-> if jl_egal x k then w = v else maps a x w.
Proof.
  intros Hi Hr Hc. pose proof (d_shape _ Hi) as Hs. unfold maps. setoid_rewrite live_dset; [| done | done].
  destruct (jl_egal x k) eqn:Ex.
  - split.
    + intros (j & k' & [(-> & [= <-] & [= <-]) | [Hne Hl]] & Ek); [done |]. exfalso. apply Hne.
      eapply (ch_only _ _ _ Hc); [done |]. rewrite jl_egal_sym in Ex. by eapply jl_egal_trans.
    + intros ->. exists i, k. split; [by left | done].
  - split.
    + intros (j & k' & [(-> & [= <-] & [= <-]) | [Hne Hl]] & Ek); [congruence | by exists j, k'].
    + intros (j & k' & Hl & Ek). exists j, k'. split; [right; split; [| done] | done]. intros ->.
      pose proof (ch_same _ _ _ Hc k' w Hl) as E. rewrite (jl_egal_cong _ _ x E) in Ex. congruence.
Qed.

(** ** Counting entries *)

Definition live_slot a (i : Z) : bool := match dval a i with Some _ => true | None => false end.

Definition dcount a : nat := length (List.filter (live_slot a) (positions (hash_size a))).

Lemma dcount_dset a i ko vo :
  dict_shape a -> 0 <= i < hash_size a ->
  (dcount (dset a i ko vo) <= dcount a + if live_slot a i then 0 else 1)%nat.
Proof.
  intros Hs Hi. unfold dcount. rewrite hash_size_dset.
  replace (length (List.filter (live_slot a) (positions (hash_size a))) + if live_slot a i then 0 else 1)%nat
    with (length ((if live_slot a i then [] else [i]) ++ List.filter (live_slot a) (positions (hash_size a))))
    by (rewrite length_app; destruct (live_slot a i); cbn; lia).
  apply List.NoDup_incl_length; [apply List.NoDup_filter, positions_NoDup |].
  intros q [Hq Ho]%filter_In. apply elem_of_positions in Hq as Hq'. apply in_app_iff.
  unfold live_slot in Ho. rewrite dval_dset in Ho by (try apply Hs; lia).
  destruct (Z.eqb_spec q i) as [-> |].
  - destruct (live_slot a i) eqn:El; [right; by apply filter_In | left; by left].
  - right. by apply filter_In.
Qed.

(** A window full of entries bounds the number of entries from below. *)
Lemma dcount_window a key :
  0 < hash_size a -> Forall (fun j => dval a j <> None) (wslots a key) ->
  (Z.to_nat (dwindow a) <= dcount a)%nat.
Proof.
  intros Hp Hall. unfold dcount. set (o := keyhash key mod hash_size a).
  replace (Z.to_nat (dwindow a)) with (length (map (slot_pos (hash_size a) o) (positions (dwindow a))))
    by (unfold positions; rewrite !length_map, length_seq; done).
  assert (Hw : dwindow a <= hash_size a) by (unfold dwindow, window; lia).
  apply List.NoDup_incl_length.
  - apply NoDup_ListNoDup, NoDup_fmap_2_strong.
    + intros x y Hx Hy. apply list_elem_of_In, elem_of_positions in Hx.
      apply list_elem_of_In, elem_of_positions in Hy. apply slot_pos_inj; lia.
    + apply NoDup_ListNoDup, positions_NoDup.
  - intros q (d & <- & Hd)%in_map_iff. apply elem_of_positions in Hd. apply filter_In.
    split; [by apply elem_of_positions, slot_pos_range |].
    rewrite List.Forall_forall in Hall. specialize (Hall (slot_pos (hash_size a) o d)).
    unfold live_slot. destruct (dval a _); [done |]. exfalso. apply Hall; [| done].
    apply list_elem_of_In, elem_of_slots. exists d. split; [lia | done].
Qed.

(** ** Assignment *)

(** What [jl_table_assign_bp] promises: exactly [key] is mapped to [val]
    now, and the result tells whether it was mapped before. *)
Record assigned a key val (r : Z) a' : Prop := {
  as_inv : dict_inv a';
  as_size : hash_size a <= hash_size a' /\ 0 < hash_size a';
  as_maps : forall x w, maps a' x w <-> if jl_egal x key then w = val else maps a x w;
  as_ret : (r = 0 /\ exists v, maps a key v) \/ (r = 1 /\ forall v, ~ maps a key v);
  as_count : (dcount a' <= dcount a + if (r =? 0)%Z then 0 else 1)%nat
}.

Lemma assign_probe_window a key :
  dict_shape a -> 0 < hash_size a ->
  assign_probe jl_nothing (Z.to_nat (max_probe (hash_size a))) a key (hash_size a * 2)
    (h2index2 (keyhash key) (hash_size a)) (h2index2 (keyhash key) (hash_size a)) None =
  Ok (to_index (assign_list a key (wslots a key) None)).
Proof using nothing_egal.
  intros Hs Hpos. assert (Hp : pow2 (hash_size a)) by (destruct (d_size _ Hs); [lia | done]).
  destruct (probe_start a key Hp) as [E1 E2]. rewrite E1 at 1. rewrite E2.
  rewrite (assign_probe_list a key _ _ _ None)
    by first [done | apply Z.mod_pos_bound; lia | lia].
  by rewrite min_dwindow.
Qed.

Lemma no_hit_maps a key : (forall i, ~ hit a key i) -> forall v, ~ maps a key v.
Proof. intros Hn v (i & k & Hl & Eg). apply (Hn i). by exists k, v. Qed.

(** The value of an existing entry is replaced. *)
Lemma assign_found a key val i k v :
  dict_inv a -> live a i k v -> jl_egal key k = true ->
  wr a (2 * i + 1) (Some val) = Ok (dset a i (Some k) (Some val)) /\
  assigned a key val 0 (dset a i (Some k) (Some val)).
Proof.
  intros Hi Hl Eg. pose proof Hl as (Hr & Ek & Ev). pose proof (d_shape _ Hi) as Hs.
  pose proof (d_len _ Hs) as Hlen.
  assert (Hc : can_hold a i k).
  { split; [by apply (d_chain _ Hi i k v) | |].
    - intros j k' v' Hl' E. symmetry. by eapply (d_uniq _ Hi).
    - intros k' v' (_ & Ek' & _). assert (k' = k) as -> by congruence. apply jl_egal_refl. }
  assert (Hid : <[Z.to_nat (2 * i) := Some k]> a = a).
  { apply list_insert_id. unfold dkey in Ek. destruct (a !! Z.to_nat (2 * i)) as [o |]; [| done].
    cbn in Ek. congruence. }
  split; [unfold dset; rewrite Hid; by rewrite wr_in_range by lia |].
  split.
  - by apply dset_inv.
  - rewrite hash_size_dset. lia.
  - intros x w. rewrite dset_maps by done. by rewrite (jl_egal_cong _ _ x Eg).
  - left. split; [done |]. exists v, i, k. done.
  - cbn. rewrite Nat.add_0_r. etransitivity; [by apply dcount_dset |].
    unfold live_slot. rewrite Ev. lia.
Qed.

(** A new entry goes to the slot the probe chose. *)
Lemma assign_new a key val e pre post :
  dict_inv a -> 0 < hash_size a -> (forall i, ~ hit a key i) ->
  wslots a key = pre ++ e :: post -> Forall (fun j => dkey a j <> None) pre ->
  (dkey a e = None \/ dval a e = None) ->
  0 <= e < hash_size a /\ assigned a key val 1 (dset a e (Some key) (Some val)).
Proof.
  intros Hi Hpos Hn Hw Hpre Hfree. pose proof (d_shape _ Hi) as Hs.
  assert (He : 0 <= e < hash_size a).
  { pose proof (wslots_in a key Hpos) as Hin. rewrite Hw in Hin.
    apply List.Forall_app in Hin as [_ Hin]. by apply List.Forall_cons_iff in Hin as [? _]. }
  assert (Hv : dval a e = None) by (destruct Hfree; [by apply (d_empty _ Hs) | done]).
  assert (Hc : can_hold a e key).
  { split.
    - exists (Z.of_nat (length pre)).
      assert (Hlen : (length pre < Z.to_nat (dwindow a))%nat).
      { rewrite <- (slots_length (hash_size a) (keyhash key mod hash_size a) 0).
        fold (wslots a key). rewrite Hw, length_app. cbn. lia. }
      rewrite wslots_split with (d := Z.of_nat (length pre)) in Hw by lia.
      apply app_inj_1 in Hw as [Hp' [= <- _]]; [| rewrite slots_length; lia].
      split; [lia |]. split; [done |]. intros d Hd. rewrite <- Hp', List.Forall_forall in Hpre.
      apply Hpre, list_elem_of_In, elem_of_slots. exists d. split; [lia | done].
    - intros j k' v' Hl Eg. exfalso. apply (Hn j). by exists k', v'.
    - intros k' v' (_ & _ & Ev). congruence. }
  split; [done |]. split.
  - by apply dset_inv.
  - rewrite hash_size_dset. lia.
  - intros x w. by apply dset_maps.
  - right. split; [done |]. by apply no_hit_maps.
  - cbn. etransitivity; [by apply dcount_dset |]. destruct (live_slot a e); lia.
Qed.

(** An empty table. *)
Lemma empty_dict_inv n :
  n = 0 \/ pow2 n ->
  dict_inv (jl_alloc_memory_any (2 * n)) /\ hash_size (@jl_alloc_memory_any V (2 * n)) = n /\
  dcount (jl_alloc_memory_any (2 * n)) = 0%nat /\ forall x w, ~ maps (jl_alloc_memory_any (2 * n)) x w.
Proof.
  intros Hn. assert (0 <= n) by (destruct Hn as [-> | Hp%pow2_pos]; lia).
  set (a := @jl_alloc_memory_any V (2 * n)).
  assert (Hsz : hash_size a = n).
  { unfold hash_size, a, jl_alloc_memory_any. rewrite length_replicate, Z2Nat.id by lia.
    rewrite Z.mul_comm. apply Z.div_mul. lia. }
  assert (Hk : forall i, dkey a i = None /\ dval a i = None).
  { intros i. unfold dkey, dval, a, jl_alloc_memory_any.
    split; (destruct (replicate _ _ !! _) eqn:E; [by apply lookup_replicate_1 in E as [-> _] | done]). }
  assert (Hl : forall i k v, ~ live a i k v) by (intros i k v (_ & E & _); by rewrite (proj1 (Hk i)) in E).
  split; [split; [split |..] |]; rewrite ?Hsz; try done.
  - unfold a, jl_alloc_memory_any. rewrite length_replicate. lia.
  - intros i _ _. apply Hk.
  - intros i k _ E. by rewrite (proj1 (Hk i)) in E.
  - intros i k v Hx. by apply Hl in Hx.
  - intros i j k k' v v' Hx. by apply Hl in Hx.
  - split; [done |]. split; [| intros x w (i & k & Hx & _); by apply Hl in Hx].
    unfold dcount. rewrite (List.filter_ext _ (fun _ => false))
      by (intros i; unfold live_slot; by rewrite (proj2 (Hk i))).
    by induction (positions _).
Qed.

(** ** Rehashing and growing *)

Definition dcount_upto a (i : Z) : nat := length (List.filter (live_slot a) (positions i)).

Lemma dcount_upto_succ a i :
  0 <= i -> dcount_upto a (i + 1) = (dcount_upto a i + if live_slot a i then 1 else 0)%nat.
Proof.
  intros Hi. unfold dcount_upto, positions.
  replace (Z.to_nat (i + 1)) with (Z.to_nat i + 1)%nat by lia.
  rewrite seq_app, map_app, List.filter_app, length_app. cbn [seq map Nat.add].
  rewrite Z2Nat.id by done. cbn. by destruct (live_slot a i).
Qed.

Lemma dcount_upto_le a i : 0 <= i <= hash_size a -> (dcount_upto a i <= dcount a)%nat.
Proof.
  intros Hi. unfold dcount, dcount_upto, positions.
  replace (Z.to_nat (hash_size a)) with (Z.to_nat i + Z.to_nat (hash_size a - i))%nat by lia.
  rewrite seq_app, map_app, List.filter_app, length_app. lia.
Qed.

(** Enough fuel for a table with [n] entries and [sz] slots. *)
Definition enough (fuel : nat) (n : nat) (sz : Z) : Prop :=
  64 * Z.of_nat n + 1024 < Z.max sz 1 * 2 ^ (Z.of_nat fuel - 1).

Lemma enough_mono fuel n n' sz sz' :
  (n' <= n)%nat -> sz <= sz' -> enough fuel n sz -> enough fuel n' sz'.
Proof.
  unfold enough. intros Hn Hs Hf.
  assert (0 <= 2 ^ (Z.of_nat fuel - 1)) by (apply Z.pow_nonneg; lia). nia.
Qed.

(** [assign] meets its specification on tables for which [fuel] is enough. *)
Definition assigns (fuel : nat) : Prop := forall a key val,
  dict_inv a -> enough fuel (dcount a) (hash_size a) ->
  exists r a', jl_table_assign_bp jl_nothing fuel a key val = Ok (r, a') /\ assigned a key val r a'.

(** [newa] has the entries of the first [i] slots of [ol]. *)
Definition copied ol (i : Z) newa : Prop :=
  dict_inv newa /\ (dcount newa <= dcount_upto ol i)%nat /\
  forall x w, maps newa x w <-> exists p k, p < i /\ live ol p k w /\ jl_egal x k = true.

Lemma copied_step ol i newa k v r newa' :
  dict_inv ol -> copied ol i newa -> live ol i k v -> assigned newa k v r newa' -> copied ol (i + 1) newa'.
Proof.
  intros Ho (Hn & Hc & Hm) Hl Ha. pose proof Hl as (Hr & Ek & Ev). split; [apply Ha |]. split.
  - rewrite dcount_upto_succ by lia. pose proof (as_count _ _ _ _ _ Ha).
    unfold live_slot. rewrite Ev. destruct (Z.eqb_spec r 0); lia.
  - intros x w. rewrite (as_maps _ _ _ _ _ Ha). destruct (jl_egal x k) eqn:Ex; [| rewrite Hm].
    + split; [intros ->; exists i, k; split_and!; try done; lia |].
      intros (p & k' & Hp & Hl' & Ex'). assert (p = i) as ->.
      { eapply (d_uniq _ Ho p i k' k); try done. rewrite jl_egal_sym in Ex'. by eapply jl_egal_trans. }
      destruct Hl' as (_ & _ & Ev'). congruence.
    + split; intros (p & k' & Hp & Hl' & Ex'); exists p, k'; (split; [| done]); [lia |].
      destruct (Z.eq_dec p i) as [-> |]; [| lia]. destruct Hl' as (_ & Ek' & _). congruence.
Qed.

Lemma rehash_pairs_spec fuel ol n : forall i newa,
  assigns fuel -> dict_inv ol -> 0 <= i -> i + Z.of_nat n = hash_size ol ->
  copied ol i newa -> enough fuel (dcount ol) (hash_size newa) ->
  exists b, rehash_pairs (jl_table_assign_bp jl_nothing fuel) n ol (2 * i) newa = Ok b /\
    copied ol (hash_size ol) b /\ hash_size newa <= hash_size b.
Proof.
  induction n as [| n IH]; intros i newa Has Ho Hi Hn Hcp Hf; cbn [rehash_pairs].
  - exists newa. replace i with (hash_size ol) in * by lia. split; [done |]. split; [done | lia].
  - pose proof (d_shape _ Ho) as Hs. pose proof (d_len _ Hs) as Hlen. rewrite rd_val by (done || lia). cbn [obind].
    replace (2 * i + 2) with (2 * (i + 1)) by lia.
    destruct (dval ol i) as [v |] eqn:Ev.
    + rewrite rd_key by (done || lia). cbn [obind].
      destruct (dkey ol i) as [k |] eqn:Ek; [| rewrite (d_empty _ Hs i) in Ev by (done || lia); done].
      assert (Hl : live ol i k v) by (split; [lia | done]).
      destruct (Has newa k v) as (r & newa' & -> & Ha).
      { apply Hcp. }
      { eapply enough_mono; [| reflexivity | exact Hf]. destruct Hcp as (_ & Hc & _).
        pose proof (dcount_upto_le ol i ltac:(lia)). lia. }
      cbn [obind]. pose proof (as_size _ _ _ _ _ Ha) as [Hsz _].
      destruct (IH (i + 1) newa') as (b & Eb & Hb & Hsb); try done; try lia.
      * by eapply copied_step.
      * by eapply enough_mono.
      * exists b. split; [done |]. split; [done | lia].
    + destruct (IH (i + 1) newa) as (b & Eb & Hb & Hsb); try done; try lia; [| by exists b].
      destruct Hcp as (H1 & H2 & H3). split; [done |]. split.
      * rewrite dcount_upto_succ by lia. unfold live_slot. rewrite Ev. lia.
      * intros x w. rewrite H3. split; intros (p & k' & Hp & Hl' & Ex'); exists p, k'; (split; [| done]); [lia |].
        destruct (Z.eq_dec p i) as [-> |]; [| lia]. destruct Hl' as (_ & _ & Ev'). congruence.
Qed.

Lemma copied_all ol b :
  copied ol (hash_size ol) b -> (dcount b <= dcount ol)%nat /\ forall x w, maps b x w <-> maps ol x w.
Proof.
  intros (_ & Hc & Hm). split; [exact Hc |]. intros x w. rewrite Hm. unfold maps. split.
  - intros (p & k & _ & H). by exists p, k.
  - intros (p & k & Hl & E). exists p, k. split; [destruct Hl; lia | done].
Qed.

Lemma copied_none ol newa :
  dict_inv newa -> dcount newa = 0%nat -> (forall x w, ~ maps newa x w) -> copied ol 0 newa.
Proof.
  intros Hn Hc Hm. split; [done |]. split; [cbn; lia |]. intros x w. split; [intros H; by apply Hm in H |].
  intros (p & k & Hp & (Hr & _) & _). lia.
Qed.

Lemma half_length a : Z.of_nat (length a) = 2 * hash_size a -> Z.of_nat ((length a + 1) / 2) = hash_size a.
Proof. intros H. rewrite Nat2Z.inj_div. rewrite Nat2Z.inj_add, H. dlia. Qed.

Definition loop_assigns (fuel : nat) : Prop := forall a key val,
  dict_inv a -> 0 < hash_size a -> enough fuel (dcount a) (hash_size a) ->
  exists r a', assign_loop jl_nothing fuel a key val = Ok (r, a') /\ assigned a key val r a'.

(** An assignment to a table without slots allocates one first. *)
Lemma loop_assigns_assigns fuel : loop_assigns fuel -> assigns fuel.
Proof.
  intros IH b k v Hb Hfb. unfold jl_table_assign_bp. destruct (Z.eqb_spec (hash_size b) 0) as [E0 |].
  2: { apply IH; try done. destruct (d_size _ (d_shape _ Hb)) as [| Hp%pow2_pos]; lia. }
  destruct (empty_dict_inv 16) as (Hz1 & Hz2 & Hz3 & Hz4); [right; exists 4; lia |].
  change (2 * 16) with HT_N_INLINE in *.
  destruct (IH (jl_alloc_memory_any HT_N_INLINE) k v) as (r & b' & E & [H1 H2 H3 H4 H5]); try done; try lia.
  { eapply enough_mono; [| | exact Hfb]; lia. }
  exists r, b'. split; [done |].
  assert (Hbm : forall x w, ~ maps b x w) by (intros x w (p & ? & (? & _) & _); lia).
  split; try done; try lia.
  - intros x w. rewrite H3. destruct (jl_egal x k); [done |]. split; intros H; [by apply Hz4 in H | by apply Hbm in H].
  - destruct H4 as [[_ (w & Hw)] | [-> _]]; [by apply Hz4 in Hw | right]. split; [done | apply Hbm].
Qed.

(** The table grown into has at least twice the slots. *)
Lemma grown_table a :
  dict_inv a -> 0 < hash_size a ->
  exists n, grow_size (Z.of_nat (length a)) = 2 * n /\ pow2 n /\ 2 * hash_size a <= n.
Proof.
  intros Hi Hpos. pose proof (d_shape _ Hi) as Hs. pose proof (d_len _ Hs) as Hlen.
  destruct (grow_size_spec (Z.of_nat (length a))) as [(m & Hm & Egr) Hgrow];
    [lia | right; destruct (d_size _ Hs) as [| Hp]; [lia |]; apply pow2_double in Hp;
           rewrite shiftl_pow in Hp by lia; by rewrite Hlen, Z.mul_comm |].
  assert (Hm0 : 0 < m) by (destruct (Z.eq_dec m 0) as [-> |]; lia).
  exists (2 ^ (m - 1)).
  assert (E2 : grow_size (Z.of_nat (length a)) = 2 * 2 ^ (m - 1)).
  { rewrite Egr. replace m with (1 + (m - 1)) at 1 by lia. rewrite Z.pow_add_r by lia. lia. }
  split; [done |]. split; [exists (m - 1); lia | lia].
Qed.

(** A full window means that the table is small for its entries, and that
    fuel is left for the growing. *)
Lemma full_enough fuel a key n :
  0 < hash_size a -> Forall (fun j => dval a j <> None) (wslots a key) -> 2 * hash_size a <= n ->
  enough (S fuel) (dcount a) (hash_size a) -> enough fuel (dcount a) n.
Proof.
  intros Hpos Hall Hn Hf. pose proof (dcount_window a key Hpos Hall) as Hfull.
  assert (Hsmall : hash_size a <= 64 * Z.of_nat (dcount a) + 1024).
  { apply Z.nlt_ge. intros Hlt. pose proof (window_large (hash_size a) (dcount a) Hlt).
    unfold dwindow in Hfull. lia. }
  unfold enough in *. destruct fuel as [| fuel]; [cbn in Hf; lia |]. rewrite !Nat2Z.inj_succ in *.
  replace (Z.succ (Z.succ (Z.of_nat fuel)) - 1) with (1 + Z.of_nat fuel) in Hf by lia.
  rewrite Z.pow_add_r in Hf by lia. replace (Z.succ (Z.of_nat fuel) - 1) with (Z.of_nat fuel) by lia.
  assert (0 < 2 ^ Z.of_nat fuel) by (apply Z.pow_pos_nonneg; lia). nia.
Qed.

(** Rehashing into a fresh table of [n] slots. *)
Lemma rehash_fresh fuel a n :
  assigns fuel -> dict_inv a -> pow2 n -> enough fuel (dcount a) n ->
  exists b, rehash_pairs (jl_table_assign_bp jl_nothing fuel) ((length a + 1) / 2) a 0
      (jl_alloc_memory_any (2 * n)) = Ok b /\
    dict_inv b /\ n <= hash_size b /\ (dcount b <= dcount a)%nat /\ forall x w, maps b x w <-> maps a x w.
Proof.
  intros Has Hi Hp Hen. destruct (empty_dict_inv n) as (He1 & He2 & He3 & He4); [by right |].
  destruct (rehash_pairs_spec fuel a ((length a + 1) / 2) 0 (jl_alloc_memory_any (2 * n)))
    as (b & Eb & Hb & Hsb); try done; try lia.
  { rewrite half_length by (apply d_len, Hi). lia. }
  { by apply copied_none. }
  { by rewrite He2. }
  exists b. split; [exact Eb |]. rewrite He2 in Hsb. pose proof (copied_all _ _ Hb) as [Hc Hm].
  split; [apply Hb | done].
Qed.

Lemma assign_loop_spec fuel : loop_assigns fuel.
Proof using nothing_egal.
  induction fuel as [| fuel IH]; intros a key val Hi Hpos Hf; [unfold enough in Hf; cbn in Hf; lia |].
  pose proof (d_shape _ Hi) as Hs. pose proof (d_len _ Hs) as Hlen. cbn [assign_loop].
  rewrite assign_probe_window by done. cbn [obind].
  destruct (assign_list a key (wslots a key) None) as [i | r] eqn:Ea; cbn [to_index].
  { apply assign_list_Found in Ea as (k & v & Hl & Eg); [| by apply wslots_in].
    destruct (assign_found a key val i k v Hi Hl Eg) as [-> Has]. cbn [obind]. by eexists _, _. }
  assert (Hn : forall i, ~ hit a key i).
  { intros i Hh. destruct (hit_split a key i Hi Hh) as (pre & post & Ew & Hpre).
    rewrite Ew in Ea. destruct (assign_list_hit a key pre i post None Hpre Hh) as (j & Ej). congruence. }
  apply assign_list_NotFound in Ea as [(e & pre & post & -> & Ew & Hpre & Hfree) | [-> Hall]]; cbn [option_map].
  { destruct (assign_new a key val e pre post) as [He Has]; try done.
    pose proof (wr_dset a e (Some key) (Some val) Hlen He) as Hw.
    destruct (wr a (2 * e) (Some key)) as [a1 | |]; cbn [obind] in *; try done. rewrite Hw. cbn [obind]. by eexists _, _. }
  destruct (grown_table a Hi Hpos) as (n & -> & Hp & Hn2).
  pose proof (full_enough fuel a key n Hpos Hall Hn2 Hf) as Hen.
  destruct (rehash_fresh fuel a n) as (b & Eb & Hb & Hsb & Hcb & Hmb); try done; [by apply loop_assigns_assigns |].
  match goal with |- context [rehash_pairs ?f _ _ _ _] => change f with (jl_table_assign_bp jl_nothing fuel) end.
  rewrite Eb. cbn [obind].
  destruct (IH b key val) as (r & a' & E & [H1 H2 H3 H4 H5]); [done | lia | by eapply enough_mono |].
  exists r, a'. split; [done |]. split; try done; try lia.
  - intros x w. rewrite H3. destruct (jl_egal x key); [done | apply Hmb].
  - destruct H4 as [[-> (w & Hw)] | [-> Hnw]]; [left | right]; (split; [done |]).
    + exists w. by apply Hmb.
    + intros w Hw. apply (Hnw w). by apply Hmb.
Qed.

Lemma jl_table_assign_bp_spec fuel : assigns fuel.
Proof using nothing_egal. apply loop_assigns_assigns, assign_loop_spec. Qed.

(** ** Lookup and removal *)

Lemma maps_unique a key v w : dict_inv a -> maps a key v -> maps a key w -> v = w.
Proof.
  intros Hi (i & k & Hl & Ek) (j & k' & Hl' & Ek'). assert (i = j) as ->.
  { eapply (d_uniq _ Hi); [exact Hl | exact Hl' |]. rewrite jl_egal_sym in Ek. by eapply jl_egal_trans. }
  destruct Hl as (_ & _ & Ev), Hl' as (_ & _ & Ev'). congruence.
Qed.

Lemma jl_eqtable_get_spec a key deflt :
  dict_inv a ->
  (exists v, maps a key v /\ jl_eqtable_get jl_nothing a key deflt = Ok (Some v)) \/
  ((forall v, ~ maps a key v) /\ jl_eqtable_get jl_nothing a key deflt = Ok deflt).
Proof using nothing_egal.
  intros Hi. unfold jl_eqtable_get.
  destruct (jl_table_peek_bp_spec a key Hi) as [(i & (k & v & Hl & Eg) & ->) | [Hn ->]]; cbn [obind].
  - left. exists v. split; [by exists i, k |]. destruct Hl as (Hr & _ & Ev).
    rewrite rd_val by (try apply d_len, Hi; done). by rewrite Ev.
  - right. split; [by apply no_hit_maps | done].
Qed.

Lemma pop_dict_inv a i :
  dict_inv a -> 0 <= i < hash_size a -> dict_inv (dset a i (Some jl_nothing) None).
Proof.
  intros Hi Hr. pose proof (d_shape _ Hi) as Hs. split; [by apply dset_shape | |].
  - intros j k v Hl. unfold dwindow. rewrite hash_size_dset. fold (dwindow a).
    apply live_dset in Hl as [(_ & _ & ?) | [Hne Hl]]; try done.
    destruct (d_chain _ Hi j k v Hl) as (d & Hd & E & Hch). exists d.
    split; [done |]. split; [unfold chain; by rewrite hash_size_dset |]. by apply dset_chain.
  - intros j j' k1 k2 v1 v2 H1 H2.
    apply live_dset in H1 as [(_ & _ & ?) | [_ H1]]; try done.
    apply live_dset in H2 as [(_ & _ & ?) | [_ H2]]; try done. by eapply (d_uniq _ Hi).
Qed.

Lemma pop_maps a i key k v x w :
  dict_inv a -> live a i k v -> jl_egal key k = true ->
  maps (dset a i (Some jl_nothing) None) x w <-> jl_egal x key = false /\ maps a x w.
Proof.
  intros Hi Hl Eg. pose proof (d_shape _ Hi) as Hs. pose proof Hl as (Hr & _). unfold maps.
  setoid_rewrite live_dset; [| done | done]. rewrite (jl_egal_cong _ _ x Eg). split.
  - intros (j & k' & [(_ & _ & ?) | [Hne Hl']] & Ex); [done |]. split; [| by exists j, k'].
    destruct (jl_egal x k) eqn:E; [| done]. exfalso. apply Hne.
    eapply (d_uniq _ Hi); [exact Hl' | exact Hl |]. rewrite jl_egal_sym in Ex. by eapply jl_egal_trans.
  - intros (Ex & j & k' & Hl' & Ex'). exists j, k'. split; [right; split; [| done] | done]. intros ->.
    destruct Hl as (_ & Ek & _), Hl' as (_ & Ek' & _). congruence.
Qed.

Lemma jl_eqtable_pop_spec a key deflt :
  dict_inv a ->
  (exists v a', maps a key v /\ jl_eqtable_pop jl_nothing a key deflt = Ok (Some v, true, a') /\
     dict_inv a' /\ forall x w, maps a' x w <-> jl_egal x key = false /\ maps a x w) \/
  ((forall v, ~ maps a key v) /\ jl_eqtable_pop jl_nothing a key deflt = Ok (deflt, false, a)).
Proof using nothing_egal.
  intros Hi. pose proof (d_len _ (d_shape _ Hi)) as Hlen. unfold jl_eqtable_pop.
  destruct (jl_table_peek_bp_spec a key Hi) as [(i & (k & v & Hl & Eg) & ->) | [Hn ->]]; cbn [obind].
  - left. pose proof Hl as (Hr & _ & Ev). rewrite rd_val by done. rewrite Ev. cbn [obind].
    exists v, (dset a i (Some jl_nothing) None). split; [by exists i, k |]. split.
    + pose proof (wr_dset a i (Some jl_nothing) None Hlen Hr) as Hw.
      replace (2 * i + 1 - 1) with (2 * i) by lia.
      destruct (wr a (2 * i) (Some jl_nothing)); cbn [obind] in *; try done. by rewrite Hw.
    + split; [by apply pop_dict_inv |]. intros x w. by apply (pop_maps a i key k v).
  - right. split; [by apply no_hit_maps | done].
Qed.

Lemma dict_fuel_enough a : dict_inv a -> enough (dict_fuel a) (dcount a) (hash_size a).
Proof.
  intros Hi. pose proof (d_len _ (d_shape _ Hi)) as Hlen. unfold enough, dict_fuel.
  assert (Hc : Z.of_nat (dcount a) <= Z.of_nat (length a)).
  { unfold dcount. etransitivity; [apply inj_le, List.filter_length_le |].
    unfold positions. rewrite length_map, length_seq. lia. }
  set (x := 64 * Z.of_nat (length a) + 1024) in *. assert (0 < x) by lia. pose proof (Z.log2_nonneg x).
  replace (Z.of_nat (Z.to_nat (Z.log2 x + 2)) - 1) with (Z.succ (Z.log2 x)) by lia.
  pose proof (Z.log2_spec x ltac:(lia)). nia.
Qed.

(** ** The dictionary as a finite map *)

Definition abs_get (m : list (V * V)) (x : V) : option V :=
  match List.find (fun p => jl_egal x p.1) m with Some p => Some p.2 | None => None end.

Definition abs_del (m : list (V * V)) (x : V) : list (V * V) :=
  List.filter (fun p => negb (jl_egal x p.1)) m.

(** The reference: an association list compared with [jl_egal]. *)
Fixpoint abs_run (ops : list (@dict_op V)) (m : list (V * V)) : list (option V) :=
  match ops with
  | [] => []
  | Put key val :: ops' => abs_run ops' ((key, val) :: m)
  | Get key :: ops' => abs_get m key :: abs_run ops' m
  | Pop key :: ops' => abs_get m key :: abs_run ops' (abs_del m key)
  end.

Lemma abs_get_cons m k v x :
  abs_get ((k, v) :: m) x = if jl_egal x k then Some v else abs_get m x.
Proof. unfold abs_get. cbn. by destruct (jl_egal x k). Qed.

Lemma abs_get_del m y x : abs_get (abs_del m y) x = if jl_egal x y then None else abs_get m x.
Proof.
  induction m as [| [k v] m IH]; [by destruct (jl_egal x y) |].
  unfold abs_del. cbn [List.filter fst]. fold (abs_del m y). rewrite abs_get_cons.
  destruct (jl_egal y k) eqn:Ey; cbn [negb].
  - rewrite IH, (jl_egal_cong _ _ x Ey). by destruct (jl_egal x k).
  - rewrite abs_get_cons, IH. destruct (jl_egal x k) eqn:Ex; [| done].
    destruct (jl_egal x y) eqn:Exy; [| done].
    rewrite jl_egal_sym in Exy. by rewrite (jl_egal_trans _ _ _ Exy Ex) in Ey.
Qed.

Definition represents a (m : list (V * V)) : Prop :=
  dict_inv a /\ forall x w, maps a x w <-> abs_get m x = Some w.

Lemma represents_get a m key (r : option V) :
  represents a m ->
  (exists v, maps a key v /\ r = Some v) \/ ((forall v, ~ maps a key v) /\ r = None) ->
  r = abs_get m key.
Proof.
  intros [_ Hm] [(v & Hv & ->) | [Hn ->]].
  - symmetry. by apply Hm.
  - destruct (abs_get m key) as [w |] eqn:E; [| done]. exfalso. by apply (Hn w), Hm.
Qed.

Lemma dict_run_spec ops : forall a m,
  represents a m ->
  exists a', dict_run jl_nothing ops a = Ok (abs_run ops m, a') /\ dict_inv a'.
Proof using nothing_egal.
  induction ops as [| [key val | key | key] ops IH]; intros a m [Hi Hm]; cbn [dict_run abs_run].
  - by exists a.
  - unfold jl_eqtable_put.
    destruct (jl_table_assign_bp_spec (dict_fuel a) a key val Hi (dict_fuel_enough a Hi))
      as (r & a1 & -> & [H1 H2 H3 H4 H5]). cbn [obind].
    destruct (IH a1 ((key, val) :: m)) as (a' & -> & Ha'); [| by exists a'].
    split; [done |]. intros x w. rewrite H3, abs_get_cons.
    destruct (jl_egal x key); [| apply Hm]. split; [by intros -> | by intros [= ->]].
  - assert (Hr : exists r, jl_eqtable_get jl_nothing a key None = Ok r /\ r = abs_get m key).
    { destruct (jl_eqtable_get_spec a key None Hi) as [(v & Hv & E) | [Hn E]]; eexists;
        (split; [exact E |]); apply (represents_get a m key); [done | left | done | right]; [by exists v | done]. }
    destruct Hr as (r & -> & ->). cbn [obind].
    destruct (IH a m) as (a' & -> & Ha'); [done |]. by exists a'.
  - destruct (jl_eqtable_pop_spec a key None Hi) as [(v & a1 & Hv & -> & Hi1 & Hm1) | [Hn ->]]; cbn [obind].
    + destruct (IH a1 (abs_del m key)) as (a' & -> & Ha').
      { split; [done |]. intros x w. rewrite Hm1, abs_get_del. destruct (jl_egal x key); [naive_solver |].
        rewrite Hm. naive_solver. }
      cbn [obind]. apply Hm in Hv as ->. by exists a'.
    + destruct (IH a (abs_del m key)) as (a' & -> & Ha').
      { split; [done |]. intros x w. rewrite abs_get_del, Hm. destruct (jl_egal x key) eqn:Ex; [| done].
        split; [| done]. intros Hw%Hm. exfalso. destruct Hw as (i & k & Hl & Ek).
        apply (Hn w). exists i, k. split; [done |]. rewrite jl_egal_sym in Ex. by eapply jl_egal_trans. }
      cbn [obind]. exists a'. split; [| done]. by rewrite (represents_get a m key None (conj Hi Hm) (or_intror (conj Hn eq_refl))).
Qed.

(** C14: the identity dictionary implements a finite map up to [jl_egal]: from
    the empty table, every sequence of [jl_eqtable_put], [jl_eqtable_get] and
    [jl_eqtable_pop] calls runs to its end (no assertion fails, no read is
    out of range, every growing rehash terminates) and returns what the same
    operations on an association list return, for any hash function
    compatible with [jl_egal], with [nothing] as an ordinary key too. *)
Theorem iddict_refines_map (ops : list (@dict_op V)) :
  exists a', dict_run jl_nothing ops [] = Ok (abs_run ops [], a') /\ dict_inv a'.
Proof using nothing_egal.
  apply dict_run_spec. destruct (empty_dict_inv 0) as (H1 & _ & _ & H4); [by left |].
  split; [exact H1 |]. intros x w. split; [intros H; by apply H4 in H | done].
Qed.

(** [jl_eqtable_put] on a table that satisfies the invariant returns a
    table of at least that size in which exactly [key] is remapped, reports
    through [*p_inserted] whether the key was new, and keeps the invariant;
    [jl_eqtable_getkey] then returns a key [jl_egal] to the one given. *)
Theorem jl_eqtable_put_correct a key val fuel deflt :
  dict_inv a -> enough fuel (dcount a) (hash_size a) ->
  exists a' r k, jl_eqtable_put jl_nothing fuel a key val = Ok (a', r) /\ dict_inv a' /\
    hash_size a <= hash_size a' /\
    (forall x w, maps a' x w <-> if jl_egal x key then w = val else maps a x w) /\
    ((r = 0 /\ exists v, maps a key v) \/ (r = 1 /\ forall v, ~ maps a key v)) /\
    jl_eqtable_getkey jl_nothing a' key deflt = Ok (Some k) /\ jl_egal key k = true.
Proof using nothing_egal.
  intros Hi Hf. unfold jl_eqtable_put.
  destruct (jl_table_assign_bp_spec fuel a key val Hi Hf) as (r & a' & -> & [H1 [H2 _] H3 H4 H5]).
  cbn [obind]. unfold jl_eqtable_getkey.
  destruct (jl_table_peek_bp_spec a' key H1) as [(i & (k & v & Hl & Eg) & Ep) | [Hn _]].
  - exists a', r, k. split_and!; try done. rewrite Ep. cbn [obind]. replace (2 * i + 1 - 1) with (2 * i) by lia.
    destruct Hl as (Hr & Ek & _). rewrite rd_key by (try apply d_len, H1; done). by rewrite Ek.
  - exfalso. apply (no_hit_maps a' key Hn val), H3. by rewrite jl_egal_refl.
Qed.

Lemma nextind_loop_spec a n : forall i,
  Z.of_nat (length a) = 2 * hash_size a -> 0 <= i -> hash_size a - i <= Z.of_nat n ->
  exists j, nextind_loop n a (2 * i) = Ok (2 * j) /\ i <= j /\
    (forall p, i <= p < j -> dval a p = None) /\ (hash_size a <= j \/ exists v, dval a j = Some v).
Proof.
  induction n as [| n IH]; intros i Hl Hi Hn; cbn [nextind_loop].
  - destruct (Z.ltb_spec (2 * i) (Z.of_nat (length a))); [lia |]. exists i. split_and!; try done; lia.
  - destruct (Z.ltb_spec (2 * i) (Z.of_nat (length a))); [| exists i; split_and!; try done; lia].
    rewrite rd_val by (done || lia). cbn [obind]. destruct (dval a i) as [v |] eqn:Ev.
    + exists i. split_and!; try done; try lia. right. by exists v.
    + replace (2 * i + 2) with (2 * (i + 1)) by lia. destruct (IH (i + 1)) as (j & -> & Hj & Hp & He); try done; try lia.
      exists j. split_and!; try done; try lia. intros p Hp'.
      destruct (Z.eq_dec p i) as [-> |]; [done | apply Hp; lia].
Qed.

(** [jl_eqtable_nextind] iterates over the entries: from index [i] it
    returns the even index of the first entry at or after [i] (no entry is
    skipped), or [(size_t)-1] when there is none. *)
Theorem jl_eqtable_nextind_correct a i :
  dict_shape a -> 0 <= i ->
  (exists j, jl_eqtable_nextind a i = Ok (2 * j) /\ i <= 2 * j /\ 0 <= j < hash_size a /\
     (exists v, dval a j = Some v) /\ forall p, i <= 2 * p < 2 * j -> dval a p = None) \/
  (jl_eqtable_nextind a i = Ok SIZE_MAX /\ forall p, i <= 2 * p < 2 * hash_size a -> dval a p = None).
Proof.
  intros Hs Hi. pose proof (d_len _ Hs) as Hl. unfold jl_eqtable_nextind.
  assert (He : exists h, (if negb (Z.land i 1 =? 0) then i + 1 else i) = 2 * h /\ 0 <= h /\
            forall p, h <= p <-> i <= 2 * p).
  { change 1 with (Z.ones 1) at 1. rewrite Z.land_ones by lia. change (2 ^ 1) with 2.
    destruct (Z.eqb_spec (i mod 2) 0); cbn [negb]; [exists (i / 2) | exists (i / 2 + 1)]; split_and!; intros; dlia. }
  destruct He as (h & -> & Hh & Hp).
  destruct (nextind_loop_spec a (length a) h) as (j & -> & Hj & Hnone & Hend); try done; try lia.
  cbn [obind]. destruct (Z.leb_spec (Z.of_nat (length a)) (2 * j)).
  - right. split; [done |]. intros p Hp'. apply Hnone. pose proof (Hp p). lia.
  - left. exists j. split; [done |]. pose proof (Hp j). split; [lia |]. split; [lia |].
    split; [destruct Hend; [lia | done] |]. intros p Hp'. apply Hnone. pose proof (Hp p). lia.
Qed.
End IdDictFacts.

(** ** Witnesses: boxed integers with a colliding hash *)

#[local] Instance Zid : Identity Z := Z_identity (fun x => x / 4).

Lemma Znothing x : jl_egal x 0 = true -> x = 0.
Proof. apply Z.eqb_eq. Qed.

Lemma iddict_refines_map_witness :
  exists a', dict_run 0 [Put 5 1; Put 6 2; Pop 5; Get 6; Get 5; Put 0 3; Get 0] []
    = Ok ([Some 1; Some 2; None; Some 3], a') /\ dict_inv 0 a'.
Proof. exact (iddict_refines_map 0 Znothing [Put 5 1; Put 6 2; Pop 5; Get 6; Get 5; Put 0 3; Get 0]). Defined.

Lemma jl_eqtable_put_correct_witness :
  exists a' r k, jl_eqtable_put 0 12 [] 5 7 = Ok (a', r) /\
    jl_eqtable_getkey 0 a' 5 None = Ok (Some k) /\ jl_egal 5 k = true.
Proof.
  destruct (empty_dict_inv 0 0) as (H1 & _ & _ & _); [left; reflexivity |].
  destruct (jl_eqtable_put_correct 0 Znothing [] 5 7 12 None) as (a' & r & k & E & _ & _ & _ & _ & E2 & E3);
    [exact H1 | vm_compute; reflexivity |].
  exists a', r, k. split; [exact E |]. split; [exact E2 | exact E3].
Defined.

Lemma jl_eqtable_nextind_correct_witness :
  jl_eqtable_nextind ([] : list (option Z)) 0 = Ok SIZE_MAX.
Proof.
  destruct (empty_dict_inv 0 0) as ([H1 _ _] & _); [left; reflexivity |].
  destruct (jl_eqtable_nextind_correct 0 [] 0 H1) as [(j & _ & _ & Hj & _) | [E _]]; [lia | | exact E].
  change (hash_size ([] : list (option Z))) with 0 in Hj. lia.
Defined.
