(* ===== verification/Rle.v ===== *)
(** * Run-length encoded keys (support/rle.c)

    A method's root table records, for each item, the key of the block that
    added it, as an array of pairs: [rletable[j]] is a key and [rletable[j+1]]
    the index of the first item that has it.  Items before the first pair have
    [key0].  A missing table ([NULL]) is [None]. *)

From stdpp Require Import base sets list numbers option.
From Stdlib Require Import ZArith Lia.
From S2P Require Import Prelude.

Record rle_iter_state := RleIter { it_i : Z; it_j : Z; it_key : Z }.

Definition rle_iter_init (key0 : Z) : rle_iter_state := RleIter (u64 (-1)) 0 key0.

(** [while (j < npairs && i >= rletable[j+1]) { key = rletable[j]; j += 2; }]:
    the key and [j] after the loop. *)
Fixpoint rle_advance (fuel : nat) (rletable : list Z) (npairs i j key : Z) : outcome (Z * Z) :=
  match fuel with
  | O => Timeout
  | S fuel' =>
      if j <? npairs then
        let! s := rd rletable (j + 1) in
        if s <=? i then
          let! key := rd rletable j in
          rle_advance fuel' rletable npairs i (j + 2) key
        else Ok (key, j)
      else Ok (key, j)
  end.

(** The returned [int] and the state after the call. *)
Definition rle_iter_increment (state : rle_iter_state) (len : Z) (rletable : option (list Z)) (npairs : Z)
    : outcome (Z * rle_iter_state) :=
  let i := u64 (it_i state + 1) in
  let state := RleIter i (it_j state) (it_key state) in
  if len <=? i then Ok (0, state)
  else
    match rletable with
    | None => Ok (1, state)
    | Some tab =>
        let! (key, j) := rle_advance (S (length tab)) tab npairs i (it_j state) (it_key state) in
        Ok (1, RleIter i j key)
    end.

(** [rr_index] is an [int]. *)
Record rle_reference := RleRef { rr_key : Z; rr_index : Z }.

(** [for (j = 0; j < jj; j+=2)] of [rle_index_to_reference]. *)
Fixpoint rle_subtract (fuel : nat) (rletable : list Z) (jj j key ckey start index : Z) : outcome Z :=
  match fuel with
  | O => Timeout
  | S fuel' =>
      if j <? jj then
        let! s := rd rletable (j + 1) in
        let index := if negb (key =? ckey) then u64 (index - u64 (s - start)) else index in
        let! ckey := rd rletable j in
        rle_subtract fuel' rletable jj (j + 2) key ckey s index
      else Ok index
  end.

Definition rle_index_to_reference (i : Z) (rletable : option (list Z)) (npairs key0 : Z)
    : outcome rle_reference :=
  match rletable with
  | None => Ok (RleRef key0 (i32 i))
  | Some tab =>
      let! (key, jj) := rle_advance (S (length tab)) tab npairs i 0 key0 in
      let! index := rle_subtract (S (length tab)) tab jj 0 key key0 0 i in
      Ok (RleRef key (i32 index))
  end.

(** [for (j = 0; j < npairs; j+=2)] of [rle_reference_to_index]. *)
Fixpoint rle_skip (fuel : nat) (rletable : list Z) (npairs j key ckey start index i : Z) : outcome Z :=
  match fuel with
  | O => Timeout
  | S fuel' =>
      if j <? npairs then
        let! s := rd rletable (j + 1) in
        let n := u64 (s - start) in
        if negb (key =? ckey) then
          let! ckey := rd rletable j in
          rle_skip fuel' rletable npairs (j + 2) key ckey s index (u64 (i + n))
        else if index <? n then Ok i
        else
          let! ckey := rd rletable j in
          rle_skip fuel' rletable npairs (j + 2) key ckey s (u64 (index - n)) i
      else Ok i
  end.

Definition rle_reference_to_index (rr : rle_reference) (rletable : option (list Z)) (npairs key0 : Z)
    : outcome Z :=
  let key := rr_key rr in
  let index := u64 (rr_index rr) in
  match rletable with
  | None => if key =? key0 then Ok index else UB
  | Some tab => rle_skip (S (length tab)) tab npairs 0 key key0 0 index index
  end.

(** ** Reference semantics *)

(** The key of item [x]: that of the last pair that starts at or before it. *)
Fixpoint key_of (key0 : Z) (ps : list (Z * Z)) (x : Z) : Z :=
  match ps with
  | [] => key0
  | (k, s) :: ps' => if s <=? x then key_of k ps' x else key0
  end.

(** The number of items before [x] that have the key [key]. *)
Definition rank (key0 : Z) (ps : list (Z * Z)) (key x : Z) : Z :=
  Z.of_nat (length (List.filter (fun y => key_of key0 ps y =? key) (map Z.of_nat (seq 0 (Z.to_nat x))))).

(** The table as the array the code reads. *)
Definition flat (ps : list (Z * Z)) : list Z := concat (map (fun '(k, s) => [k; s]) ps).

(** Starts do not decrease and fit a [uint64_t]. *)
Fixpoint sorted_from (lo : Z) (ps : list (Z * Z)) : Prop :=
  match ps with
  | [] => True
  | (_, s) :: ps' => lo <= s < 2 ^ 64 /\ sorted_from s ps'
  end.

Lemma flat_cons k s ps : flat ((k, s) :: ps) = k :: s :: flat ps.
Proof. done. Qed.

Lemma flat_length ps : Z.of_nat (length (flat ps)) = 2 * Z.of_nat (length ps).
Proof. induction ps as [| [k s] ps IH]; [done |]. rewrite flat_cons. cbn [length]. lia. Qed.

Lemma flat_app ps qs : flat (ps ++ qs) = flat ps ++ flat qs.
Proof. apply concat_map_app. Qed.

(** The two words of the pair after [pre]. *)
Lemma rd_flat pre k s ps :
  rd (flat (pre ++ (k, s) :: ps)) (2 * Z.of_nat (length pre)) = Ok k /\
  rd (flat (pre ++ (k, s) :: ps)) (2 * Z.of_nat (length pre) + 1) = Ok s.
Proof.
  rewrite flat_app, flat_cons. rewrite !rd_app_r by (rewrite flat_length; lia). rewrite flat_length.
  replace (2 * Z.of_nat (length pre) - 2 * Z.of_nat (length pre)) with 0 by lia.
  replace (2 * Z.of_nat (length pre) + 1 - 2 * Z.of_nat (length pre)) with 1 by lia. done.
Qed.

(** Pairs that start at or before [x]. *)
Fixpoint started (ps : list (Z * Z)) (x : Z) : list (Z * Z) :=
  match ps with
  | [] => []
  | (k, s) :: ps' => if s <=? x then (k, s) :: started ps' x else []
  end.

Lemma rle_advance_spec ps x : forall pre fuel key,
  (length ps < fuel)%nat ->
  rle_advance fuel (flat (pre ++ ps)) (Z.of_nat (length (flat (pre ++ ps)))) x (2 * Z.of_nat (length pre)) key =
  Ok (key_of key ps x, 2 * Z.of_nat (length pre + length (started ps x))).
Proof.
  induction ps as [| [k s] ps IH]; intros pre fuel key Hf; (destruct fuel as [| fuel]; [lia |]);
    cbn [rle_advance key_of started]; rewrite flat_length, length_app; cbn [length].
  - destruct (Z.ltb_spec (2 * Z.of_nat (length pre)) (2 * Z.of_nat (length pre + 0))); [lia |].
    by rewrite Nat.add_0_r.
  - destruct (Z.ltb_spec (2 * Z.of_nat (length pre)) (2 * Z.of_nat (length pre + S (length ps)))); [| lia].
    destruct (rd_flat pre k s ps) as [-> ->]. cbn [obind]. destruct (s <=? x); cbn [length]; [| by rewrite Nat.add_0_r].
    specialize (IH (pre ++ [(k, s)]) fuel k ltac:(cbn in Hf; lia)).
    rewrite <- app_assoc in IH. cbn [app] in IH. rewrite flat_length, !length_app in IH. cbn [length] in IH.
    replace (2 * Z.of_nat (length pre + 1)) with (2 * Z.of_nat (length pre) + 2) in IH by lia.
    rewrite IH. do 3 f_equal. lia.
Qed.

(** Items from [start] to [x] with key [key], when [ps] starts after [start]. *)
Fixpoint rank_from (ckey start : Z) (ps : list (Z * Z)) (key x : Z) : Z :=
  match ps with
  | [] => if key =? ckey then x - start else 0
  | (k, s) :: ps' =>
      if s <=? x then (if key =? ckey then s - start else 0) + rank_from k s ps' key x
      else if key =? ckey then x - start else 0
  end.

Lemma key_of_before ckey ps lo x : sorted_from lo ps -> x < lo -> key_of ckey ps x = ckey.
Proof.
  destruct ps as [| [k s] ps]; [done |]. cbn. intros [Hs _] Hx. destruct (Z.leb_spec s x); [lia | done].
Qed.

(** Counting over a stretch of constant truth value. *)
Lemma filter_const (f : Z -> bool) (b : bool) a n :
  (forall y, a <= y < a + Z.of_nat n -> f y = b) ->
  length (List.filter f (map (fun m => a + Z.of_nat m) (seq 0 n))) = if b then n else 0%nat.
Proof.
  revert a. induction n as [| n IH]; intros a Hf; [by destruct b |].
  cbn [seq map List.filter]. rewrite Z.add_0_r, (Hf a) by lia.
  rewrite <- seq_shift, map_map.
  rewrite (map_ext _ (fun m => (a + 1) + Z.of_nat m)) by (intros; lia).
  specialize (IH (a + 1)). destruct b; cbn [length]; rewrite IH; try done; intros; apply Hf; lia.
Qed.

Lemma seq_split_at (g : nat -> Z) a b : map g (seq 0 (a + b)) = map g (seq 0 a) ++ map (fun m => g (a + m)%nat) (seq 0 b).
Proof.
  rewrite seq_app, map_app. f_equal. cbn [Nat.add].
  rewrite <- (Nat.add_0_r a) at 1. rewrite <- (map_map (fun m => (a + m)%nat) g). f_equal.
  clear. revert a. generalize 0%nat as o. induction b as [| b IH]; intros o a; [done |].
  cbn. f_equal. rewrite <- Nat.add_succ_r. apply IH.
Qed.

Lemma rank_from_count ps : forall ckey start key x,
  sorted_from start ps -> start <= x ->
  Z.of_nat (length (List.filter (fun y => key_of ckey ps y =? key)
    (map (fun m => start + Z.of_nat m) (seq 0 (Z.to_nat (x - start)))))) = rank_from ckey start ps key x.
Proof.
  induction ps as [| [k s] ps IH]; intros ckey start key x Hs Hx; cbn [rank_from].
  - rewrite filter_const with (b := ckey =? key) by done.
    rewrite Z.eqb_sym. destruct (key =? ckey); lia.
  - destruct Hs as [Hr Hs]. destruct (Z.leb_spec s x) as [Hle | Hgt].
    + replace (Z.to_nat (x - start)) with (Z.to_nat (s - start) + Z.to_nat (x - s))%nat by lia.
      rewrite (seq_split_at (fun m => start + Z.of_nat m)), List.filter_app, length_app, Nat2Z.inj_add.
      f_equal.
      * rewrite filter_const with (b := ckey =? key).
        -- rewrite Z.eqb_sym. destruct (key =? ckey); lia.
        -- intros y Hy. cbn [key_of]. destruct (Z.leb_spec s y); [lia | done].
      * rewrite <- IH by done. do 2 f_equal.
        rewrite (map_ext _ (fun m => s + Z.of_nat m)) by (intros; lia).
        apply List.filter_ext_in. intros y (m & <- & _)%in_map_iff. cbn [key_of].
        destruct (Z.leb_spec s (s + Z.of_nat m)); [done | lia].
    + rewrite filter_const with (b := ckey =? key).
      * rewrite Z.eqb_sym. destruct (key =? ckey); lia.
      * intros y Hy. cbn [key_of]. destruct (Z.leb_spec s y); [lia | done].
Qed.

Lemma rank_rank_from key0 ps key x : sorted_from 0 ps -> 0 <= x -> rank key0 ps key x = rank_from key0 0 ps key x.
Proof.
  intros Hs Hx. rewrite <- rank_from_count by done. unfold rank. rewrite Z.sub_0_r. done.
Qed.

Lemma rank_from_range ps : forall ckey start key x,
  sorted_from start ps -> start <= x -> 0 <= rank_from ckey start ps key x <= x - start.
Proof.
  induction ps as [| [k s] ps IH]; intros ckey start key x Hs Hx; cbn [rank_from].
  - destruct (key =? ckey); lia.
  - destruct Hs as [Hr Hs]. destruct (Z.leb_spec s x); [| destruct (key =? ckey); lia].
    specialize (IH k s key x Hs ltac:(lia)). destruct (key =? ckey); lia.
Qed.

(** ** The loops *)

Lemma rle_subtract_spec ps x : forall pre fuel key ckey start index,
  (length ps < fuel)%nat -> sorted_from start ps -> start <= x -> x - start <= index < 2 ^ 64 ->
  0 <= start -> key = key_of ckey ps x ->
  rle_subtract fuel (flat (pre ++ ps)) (2 * Z.of_nat (length pre + length (started ps x)))
    (2 * Z.of_nat (length pre)) key ckey start index =
  Ok (index - ((x - start) - rank_from ckey start ps key x)).
Proof.
  induction ps as [| [k s] ps IH]; intros pre fuel key ckey start index Hf Hs Hx Hi Hst Hk;
    (destruct fuel as [| fuel]; [lia |]); cbn [rle_subtract started key_of rank_from length] in *.
  - rewrite Nat.add_0_r, Z.ltb_irrefl, Hk, Z.eqb_refl. f_equal. lia.
  - destruct Hs as [Hr Hs]. destruct (Z.leb_spec s x) as [Hle | Hgt]; cbn [length].
    2: { rewrite Nat.add_0_r, Z.ltb_irrefl, Hk, Z.eqb_refl. f_equal. lia. }
    destruct (Z.ltb_spec (2 * Z.of_nat (length pre)) (2 * Z.of_nat (length pre + S (length (started ps x))))); [| lia].
    destruct (rd_flat pre k s ps) as [-> ->]. cbn [obind].
    set (index' := if negb (key =? ckey) then u64 (index - u64 (s - start)) else index).
    assert (Hi' : index' = index - (if key =? ckey then 0 else s - start)).
    { unfold index'. destruct (key =? ckey); cbn [negb]; [lia |]. rewrite !u64_small by (try rewrite u64_small; lia). done. }
    specialize (IH (pre ++ [(k, s)]) fuel key k s index' ltac:(lia) Hs Hle).
    rewrite <- app_assoc in IH. cbn [app] in IH. rewrite length_app in IH. cbn [length] in IH.
    replace (2 * Z.of_nat (length pre + 1)) with (2 * Z.of_nat (length pre) + 2) in IH by lia.
    replace (length pre + 1 + length (started ps x))%nat with (length pre + S (length (started ps x)))%nat in IH by lia.
    rewrite IH; [| destruct (key =? ckey); lia | lia | done].
    f_equal. destruct (key =? ckey); lia.
Qed.

Lemma rle_skip_spec ps x : forall pre fuel key ckey start index i,
  (length ps < fuel)%nat -> sorted_from start ps -> 0 <= start <= x -> x < 2 ^ 64 -> key = key_of ckey ps x ->
  index = rank_from ckey start ps key x -> 0 <= i -> i + ((x - start) - index) < 2 ^ 64 ->
  rle_skip fuel (flat (pre ++ ps)) (Z.of_nat (length (flat (pre ++ ps))))
    (2 * Z.of_nat (length pre)) key ckey start index i = Ok (i + ((x - start) - index)).
Proof.
  induction ps as [| [k s] ps IH]; intros pre fuel key ckey start index i Hf Hs Hx Hx' Hk Hi Hi0 Hb;
    (destruct fuel as [| fuel]; [lia |]); cbn [rle_skip key_of rank_from length] in *;
    rewrite flat_length, length_app; cbn [length].
  - rewrite Nat.add_0_r, Z.ltb_irrefl. rewrite Hk, Z.eqb_refl in Hi. f_equal. lia.
  - destruct Hs as [Hr Hs].
    destruct (Z.ltb_spec (2 * Z.of_nat (length pre)) (2 * Z.of_nat (length pre + S (length ps)))); [| lia].
    destruct (rd_flat pre k s ps) as [-> ->]. cbn [obind]. rewrite (u64_small (s - start)) by lia.
    assert (Hrec : forall index' i', s <= x -> key = key_of k ps x -> index' = rank_from k s ps key x ->
      0 <= i' -> i' + (x - s - index') < 2 ^ 64 ->
      rle_skip fuel (flat (pre ++ (k, s) :: ps)) (2 * Z.of_nat (length pre + S (length ps)))
        (2 * Z.of_nat (length pre) + 2) key k s index' i' = Ok (i' + (x - s - index'))).
    { intros index' i' Hle Hk' Hi' Hi0' Hb'.
      specialize (IH (pre ++ [(k, s)]) fuel key k s index' i' ltac:(lia) Hs ltac:(lia) Hx' Hk' Hi' Hi0' Hb').
      rewrite <- app_assoc in IH. cbn [app] in IH. rewrite flat_length, !length_app in IH. cbn [length] in IH.
      by replace (2 * Z.of_nat (length pre + 1)) with (2 * Z.of_nat (length pre) + 2) in IH by lia. }
    destruct (Z.leb_spec s x) as [Hle | Hgt].
    + pose proof (rank_from_range ps k s key x Hs Hle).
      destruct (Z.eqb_spec key ckey) as [E | E]; cbn [negb].
      * destruct (Z.ltb_spec index (s - start)); [lia |]. rewrite u64_small by lia.
        rewrite Hrec; try done; try lia. f_equal. lia.
      * rewrite u64_small by lia. rewrite Hrec; try done; try lia. f_equal. lia.
    + rewrite Hk, Z.eqb_refl in *. cbn [negb]. destruct (Z.ltb_spec index (s - start)); [| lia]. f_equal. lia.
Qed.

(** ** Properties *)

Lemma rle_index_to_reference_spec key0 ps x :
  sorted_from 0 ps -> 0 <= x < 2 ^ 31 ->
  rle_index_to_reference x (Some (flat ps)) (Z.of_nat (length (flat ps))) key0 =
  Ok (RleRef (key_of key0 ps x) (rank key0 ps (key_of key0 ps x) x)).
Proof.
  intros Hs Hx. rewrite rank_rank_from by (done || lia).
  pose proof (rank_from_range ps key0 0 (key_of key0 ps x) x Hs ltac:(lia)) as Hr.
  assert (Hl : (length ps < S (length (flat ps)))%nat) by (pose proof (flat_length ps); lia).
  unfold rle_index_to_reference. rewrite (rle_advance_spec ps x [] _ key0) by done. cbn [obind].
  rewrite (rle_subtract_spec ps x [] _ (key_of key0 ps x) key0 0 x) by (done || lia). cbn [obind].
  rewrite i32_small by lia. do 2 f_equal. lia.
Qed.

Lemma rle_reference_to_index_spec key0 ps x :
  sorted_from 0 ps -> 0 <= x < 2 ^ 31 ->
  rle_reference_to_index (RleRef (key_of key0 ps x) (rank key0 ps (key_of key0 ps x) x))
    (Some (flat ps)) (Z.of_nat (length (flat ps))) key0 = Ok x.
Proof.
  intros Hs Hx. rewrite rank_rank_from by (done || lia).
  pose proof (rank_from_range ps key0 0 (key_of key0 ps x) x Hs ltac:(lia)) as Hr.
  assert (Hl : (length ps < S (length (flat ps)))%nat) by (pose proof (flat_length ps); lia).
  unfold rle_reference_to_index. cbn [rr_key rr_index]. rewrite u64_small by lia.
  rewrite (rle_skip_spec ps x [] _ (key_of key0 ps x) key0 0 _ _) by (done || lia). f_equal. lia.
Qed.

Lemma rle_no_table key0 n x :
  0 <= x < 2 ^ 31 ->
  rle_index_to_reference x None n key0 = Ok (RleRef key0 x) /\ rle_reference_to_index (RleRef key0 x) None n key0 = Ok x.
Proof.
  intros Hx. unfold rle_index_to_reference, rle_reference_to_index. cbn [rr_key rr_index].
  rewrite Z.eqb_refl, u64_small, i32_small by lia. done.
Qed.

(** [rle_index_to_reference] maps item [x] to its key and to the number of
    earlier items with the same key, and [rle_reference_to_index] maps that
    reference back to [x], for every table with non-decreasing starts and
    every item index that fits the [int] of the reference, with or without a
    table. *)
Theorem rle_reference_roundtrip key0 ps x :
  sorted_from 0 ps -> 0 <= x < 2 ^ 31 ->
  let tab := Some (flat ps) in
  let n := Z.of_nat (length (flat ps)) in
  rle_index_to_reference x tab n key0 = Ok (RleRef (key_of key0 ps x) (rank key0 ps (key_of key0 ps x) x)) /\
  rle_reference_to_index (RleRef (key_of key0 ps x) (rank key0 ps (key_of key0 ps x) x)) tab n key0 = Ok x /\
  rle_index_to_reference x None n key0 = Ok (RleRef key0 x) /\
  rle_reference_to_index (RleRef key0 x) None n key0 = Ok x.
Proof.
  intros Hs Hx. cbn zeta. split; [by apply rle_index_to_reference_spec |].
  split; [by apply rle_reference_to_index_spec | by apply rle_no_table].
Qed.

Lemma rle_reference_roundtrip_witness :
  rle_index_to_reference 8 (Some [77; 3; 88; 5; 77; 8]) 6 11 = Ok (RleRef 77 2) /\
  rle_reference_to_index (RleRef 77 2) (Some [77; 3; 88; 5; 77; 8]) 6 11 = Ok 8.
Proof.
  destruct (rle_reference_roundtrip 11 [(77, 3); (88, 5); (77, 8)] 8) as (H1 & H2 & _).
  - repeat split; lia.
  - lia.
  - split; [exact H1 | exact H2].
Defined.

Lemma key_of_started ckey ps x : key_of ckey ps x = key_of ckey (started ps x) x.
Proof.
  revert ckey. induction ps as [| [k s] ps IH]; intros ckey; [done |]. cbn.
  destruct (Z.leb_spec s x) as [Hle |]; [| done]. cbn. destruct (Z.leb_spec s x); [apply IH | lia].
Qed.

(** Advancing from the pairs already started at [x] gives the key at [y]. *)
Lemma key_of_split ckey ps x y :
  x <= y -> exists rest, ps = started ps x ++ rest /\
    key_of (key_of ckey ps x) rest y = key_of ckey ps y /\ started ps y = started ps x ++ started rest y.
Proof.
  intros Hxy. revert ckey. induction ps as [| [k s] ps IH]; intros ckey; [by exists [] |].
  cbn [started key_of]. destruct (Z.leb_spec s x) as [Hle | Hgt].
  - destruct (IH k) as (rest & E1 & E2 & E3). exists rest. destruct (Z.leb_spec s y); [| lia].
    split; [cbn; by rewrite <- E1 |]. split; [done |]. cbn. by rewrite <- E3.
  - exists ((k, s) :: ps). split; [done |]. split; [done |]. done.
Qed.

(** [n] calls of [rle_iter_increment] in a row. *)
Fixpoint rle_iterate (n : nat) (state : rle_iter_state) (len : Z) (rletable : option (list Z)) (npairs : Z)
    : outcome (list (Z * Z) * rle_iter_state) :=
  match n with
  | O => Ok ([], state)
  | S n' =>
      let! (r, state) := rle_iter_increment state len rletable npairs in
      let! (out, state') := rle_iterate n' state len rletable npairs in
      Ok ((r, it_key state) :: out, state')
  end.

(** The state in which item [x] was just visited, or none for [x = -1]. *)
Definition iter_at (key0 : Z) (ps : list (Z * Z)) (x : Z) : rle_iter_state :=
  RleIter (u64 x) (2 * Z.of_nat (length (started ps x))) (key_of key0 ps x).

Lemma rle_iter_increment_spec key0 ps len x :
  sorted_from 0 ps -> -1 <= x -> x + 1 < len <= 2 ^ 64 - 1 ->
  rle_iter_increment (iter_at key0 ps x) len (Some (flat ps)) (Z.of_nat (length (flat ps)))
    = Ok (1, iter_at key0 ps (x + 1)).
Proof.
  intros Hs Hx Hlen. unfold rle_iter_increment, iter_at. cbn [it_i it_j it_key].
  assert (E : u64 (u64 x + 1) = x + 1) by (unfold u64; rewrite Zplus_mod_idemp_l; apply Z.mod_small; lia).
  rewrite E, (u64_small (x + 1)) by lia. destruct (Z.leb_spec len (x + 1)); [lia |].
  destruct (key_of_split key0 ps x (x + 1)) as (rest & E1 & E2 & E3); [lia |].
  assert (Hl : (length rest < S (length (flat ps)))%nat).
  { pose proof (flat_length ps). pose proof (f_equal length E1) as E4. rewrite length_app in E4. lia. }
  revert Hl. replace (flat ps) with (flat (started ps x ++ rest)) by (by rewrite <- E1). intros Hl. rewrite rle_advance_spec by done. cbn [obind].
  rewrite E2, E3, length_app. done.
Qed.

(** iterating with [rle_iter_increment] from [rle_iter_init] visits every
    item once, in order, with its key, and then reports the end. *)
Theorem rle_iterate_correct key0 ps n :
  sorted_from 0 ps -> Z.of_nat n <= 2 ^ 64 - 1 ->
  exists st st', rle_iterate n (rle_iter_init key0) (Z.of_nat n) (Some (flat ps)) (Z.of_nat (length (flat ps)))
    = Ok (map (fun m => (1, key_of key0 ps (Z.of_nat m))) (seq 0 n), st) /\
    rle_iter_increment st (Z.of_nat n) (Some (flat ps)) (Z.of_nat (length (flat ps))) = Ok (0, st').
Proof.
  intros Hs Hn.
  assert (Hgen : forall m x, (x + m = n)%nat ->
    rle_iterate m (iter_at key0 ps (Z.of_nat x - 1)) (Z.of_nat n) (Some (flat ps)) (Z.of_nat (length (flat ps)))
    = Ok (map (fun p => (1, key_of key0 ps (Z.of_nat p))) (seq x m), iter_at key0 ps (Z.of_nat n - 1))).
  { induction m as [| m IH]; intros x Hx; cbn [rle_iterate].
    - replace n with x by lia. done.
    - rewrite rle_iter_increment_spec by (done || lia). cbn [obind].
      replace (Z.of_nat x - 1 + 1) with (Z.of_nat (S x) - 1) by lia. rewrite IH by lia. cbn [obind seq map].
      unfold iter_at. cbn [it_key]. by replace (Z.of_nat (S x) - 1) with (Z.of_nat x) by lia. }
  assert (Hinit : rle_iter_init key0 = iter_at key0 ps (Z.of_nat 0 - 1)).
  { unfold rle_iter_init, iter_at. destruct ps as [| [k s] ps]; [done |]. cbn in Hs. cbn [started key_of].
    destruct (Z.leb_spec s (Z.of_nat 0 - 1)); [lia | done]. }
  rewrite Hinit, Hgen by lia. eexists _, _. split; [reflexivity |].
  unfold rle_iter_increment, iter_at. cbn [it_i].
  assert (E : u64 (u64 (Z.of_nat n - 1) + 1) = Z.of_nat n)
    by (unfold u64; rewrite Zplus_mod_idemp_l; rewrite Z.mod_small; lia).
  rewrite E, Z.leb_refl. reflexivity.
Qed.

Lemma rle_iterate_correct_witness :
  exists st st', rle_iterate 4 (rle_iter_init 9) 4 (Some [7; 1; 8; 3]) 4
    = Ok ([(1, 9); (1, 7); (1, 7); (1, 8)], st) /\
    rle_iter_increment st 4 (Some [7; 1; 8; 3]) 4 = Ok (0, st').
Proof. apply (rle_iterate_correct 9 [(7, 1); (8, 3)] 4); [repeat split; lia | lia]. Defined.
