(* ===== verification/MethodRoots.v ===== *)
(** * The roots of a method (method.c, "root blocks")

    [roots] lists the objects compressed code refers to, [root_blocks] the
    run-length encoded keys of the modules that added them.  A relocatable
    reference is a key and an index among the roots with that key. *)

From stdpp Require Import base numbers option relations list.
From Stdlib Require Import ZArith Lia.
From S2P Require Import Prelude Rle.

(** The fields of [jl_method_t] these operations use; [NULL] is [None]. *)
Record method_roots (V : Type) := MethodRoots {
  roots : option (list V);
  root_blocks : option (list Z);
  nroots_sysimg : Z
}.
Arguments MethodRoots {V} _ _ _.
Arguments roots {V} _.
Arguments root_blocks {V} _.
Arguments nroots_sysimg {V} _.

Section MethodRoots.
Context {V : Type}.
Implicit Types (m : method_roots V).

Definition current_root_id (root_blocks : option (list Z)) : outcome Z :=
  match root_blocks with
  | None => Ok 0
  | Some blocks =>
      let nx2 := Z.of_nat (length blocks) in
      if nx2 =? 0 then Ok 0 else rd blocks (nx2 - 2)
  end.

Definition add_root_block (root_blocks : option (list Z)) (modid len : Z) : outcome (option (list Z)) :=
  match root_blocks with
  | None => UB
  | Some blocks => Ok (Some (blocks ++ [modid; len]))
  end.

Definition prepare_method_for_roots m (modid : Z) : method_roots V :=
  let m := match roots m with
           | None => MethodRoots (Some []) (root_blocks m) (nroots_sysimg m)
           | Some _ => m
           end in
  match root_blocks m with
  | None => if negb (modid =? 0) then MethodRoots (roots m) (Some []) (nroots_sysimg m) else m
  | Some _ => m
  end.

(** The length of [m->roots], and a push or an append to it. *)
Definition nroots m : Z := Z.of_nat (length (default [] (roots m))).

Definition push_roots m (l : list V) : method_roots V :=
  MethodRoots (Some (default [] (roots m) ++ l)) (root_blocks m) (nroots_sysimg m).

(** [module_] is the [build_id.lo] of the module, [None] for [NULL]. *)
Definition jl_add_method_root m (module_ : option Z) (root : V) : outcome (method_roots V) :=
  let modid := default 0 module_ in
  let m := prepare_method_for_roots m modid in
  let! id := current_root_id (root_blocks m) in
  let! blocks :=
    if negb (id =? modid) then add_root_block (root_blocks m) modid (nroots m) else Ok (root_blocks m) in
  Ok (push_roots (MethodRoots (roots m) blocks (nroots_sysimg m)) [root]).

Definition jl_append_method_roots m (modid : Z) (rs : list V) : outcome (method_roots V) :=
  let m := prepare_method_for_roots m modid in
  let! blocks := add_root_block (root_blocks m) modid (nroots m) in
  Ok (push_roots (MethodRoots (roots m) blocks (nroots_sysimg m)) rs).

(** Is the root relocatable, and its reference. *)
Definition get_root_reference m (i : Z) : outcome (bool * rle_reference) :=
  match root_blocks m with
  | None => Ok (i <? nroots_sysimg m, RleRef 0 (i32 i))
  | Some blocks =>
      let! rr := rle_index_to_reference i (Some blocks) (Z.of_nat (length blocks)) 0 in
      if negb (rr_key rr =? 0) then Ok (true, rr) else Ok (i <? nroots_sysimg m, rr)
  end.

Definition lookup_root m (key index : Z) : outcome V :=
  match root_blocks m with
  | None => if negb (key =? 0) then UB else rd (default [] (roots m)) index
  | Some blocks =>
      let! i := rle_reference_to_index (RleRef key index) (Some blocks) (Z.of_nat (length blocks)) 0 in
      rd (default [] (roots m)) i
  end.

(** The loop over the blocks. *)
Fixpoint count_roots (fuel : nat) (rletable : list Z) (nblocks2 nroots j key nwithkey : Z) : outcome Z :=
  match fuel with
  | O => Timeout
  | S fuel' =>
      if j <? nblocks2 then
        let! k := rd rletable j in
        let! n :=
          if k =? key then
            let! e := if j + 3 <? nblocks2 then rd rletable (j + 3) else Ok nroots in
            let! s := rd rletable (j + 1) in
            Ok (i32 (nwithkey + u64 (e - s)))
          else Ok nwithkey in
        count_roots fuel' rletable nblocks2 nroots (j + 2) key n
      else Ok nwithkey
  end.

Definition nroots_with_key m (key : Z) : outcome Z :=
  match root_blocks m with
  | None => Ok (if key =? 0 then i32 (nroots m) else 0)
  | Some blocks => count_roots (S (length blocks)) blocks (Z.of_nat (length blocks)) (nroots m) 0 key 0
  end.
End MethodRoots.

(** ** References to roots are stable *)

(** The pairs of the block table. *)
Record wf {V} (m : method_roots V) (ps : list (Z * Z)) : Prop := {
  wf_blocks : root_blocks m = Some (flat ps) \/ (root_blocks m = None /\ ps = []);
  wf_sorted : sorted_from 0 ps;
  wf_starts : Forall (fun p => 0 <= p.2 <= nroots m) ps;
  wf_bound : nroots m < 2 ^ 31
}.

Section Facts.
Context {V : Type}.
Implicit Types (m : method_roots V).

Lemma key_of_app key0 ps qs x : Forall (fun p => x < p.2) qs -> key_of key0 (ps ++ qs) x = key_of key0 ps x.
Proof.
  intros Hq. revert key0. induction ps as [| [k s] ps IH]; intros key0; cbn.
  - destruct Hq as [| [k s] qs Hs _]; [done |]. cbn in *. by rewrite (proj2 (Z.leb_gt s x)).
  - destruct (s <=? x); [apply IH | done].
Qed.

Lemma rank_app key0 ps qs key x : Forall (fun p => x <= p.2) qs -> rank key0 (ps ++ qs) key x = rank key0 ps key x.
Proof.
  intros Hq. unfold rank. do 2 f_equal. apply filter_ext_in. intros y Hy.
  apply in_map_iff in Hy as (n & <- & Hn%in_seq). f_equal. apply key_of_app.
  eapply Forall_impl; [exact Hq |]. cbn. intros p Hp. lia.
Qed.

Lemma rank_nil key x : 0 <= x -> rank key [] key x = x.
Proof.
  intros Hx. unfold rank. cbn [key_of]. rewrite forallb_filter_id.
  - rewrite length_map, length_seq. lia.
  - apply forallb_forall. intros. apply Z.eqb_refl.
Qed.

Lemma sorted_from_app lo ps s k :
  sorted_from lo ps -> Forall (fun p => p.2 <= s) ps -> lo <= s < 2 ^ 64 -> sorted_from lo (ps ++ [(k, s)]).
Proof.
  revert lo. induction ps as [| [k' s'] ps IH]; intros lo Hs Hf Hl; cbn in *; [done |].
  apply Forall_cons in Hf as [Hs' Hf]. cbn in Hs'. split; [apply Hs |]. apply IH; [apply Hs | done | lia].
Qed.

Lemma current_root_id_ok m ps : wf m ps -> exists id, current_root_id (root_blocks m) = Ok id.
Proof.
  intros [[-> | [-> ->]] _ _ _]; cbn; [| eauto]. destruct (Z.eqb_spec (Z.of_nat (length (flat ps))) 0); [eauto |].
  destruct (rd_in_range (flat ps) (Z.of_nat (length (flat ps)) - 2)) as (x & Hx & _); [pose proof (flat_length ps); lia | eauto].
Qed.

Lemma get_root_reference_spec m ps i :
  wf m ps -> 0 <= i < nroots m ->
  exists b, get_root_reference m i = Ok (b, RleRef (key_of 0 ps i) (rank 0 ps (key_of 0 ps i) i)).
Proof.
  intros [Hb Hs Hst Hn] Hi. unfold get_root_reference. destruct Hb as [-> | [-> ->]].
  - rewrite rle_index_to_reference_spec by (done || lia). cbn [obind]. destruct (negb _); eauto.
  - eexists. rewrite i32_small by lia. cbn [key_of]. by rewrite rank_nil by lia.
Qed.

Lemma lookup_root_spec m ps i v :
  wf m ps -> default [] (roots m) !! Z.to_nat i = Some v -> 0 <= i ->
  lookup_root m (key_of 0 ps i) (rank 0 ps (key_of 0 ps i) i) = Ok v.
Proof.
  intros [Hb Hs Hst Hn] Hv Hi. pose proof (lookup_lt_Some _ _ _ Hv) as Hlt. unfold nroots in *. unfold lookup_root.
  assert (Hrd : rd (default [] (roots m)) i = Ok v) by (by apply rd_lookup).
  destruct Hb as [-> | [-> ->]].
  - rewrite rle_reference_to_index_spec by (done || lia). exact Hrd.
  - cbn [key_of]. rewrite rank_nil by lia. exact Hrd.
Qed.

(** [m'] has the roots and blocks of [m] and more of both. *)
Definition extends m (ps : list (Z * Z)) m' (ps' : list (Z * Z)) : Prop :=
  exists rs qs, default [] (roots m') = default [] (roots m) ++ rs /\ ps' = ps ++ qs /\ Forall (fun p => nroots m <= p.2) qs.

Lemma extends_refl m ps : extends m ps m ps.
Proof. exists [], []. by rewrite !app_nil_r. Qed.

Lemma extends_nroots m ps m' ps' : extends m ps m' ps' -> nroots m <= nroots m'.
Proof. intros (rs & qs & E & _). unfold nroots. rewrite E, length_app. lia. Qed.

Lemma extends_trans m ps m' ps' m'' ps'' : extends m ps m' ps' -> extends m' ps' m'' ps'' -> extends m ps m'' ps''.
Proof.
  intros Hx (rs' & qs' & E1' & -> & Hq'). pose proof (extends_nroots _ _ _ _ Hx) as Hn. destruct Hx as (rs & qs & E1 & -> & Hq).
  exists (rs ++ rs'), (qs ++ qs'). rewrite E1', E1, <- !app_assoc. split; [done |]. split; [done |].
  apply Forall_app. split; [done |]. eapply Forall_impl; [exact Hq' |]. cbn. intros p. lia.
Qed.

(** A reference taken in [m] resolves to the same root in every extension. *)
Lemma reference_stable m ps m' ps' i v :
  wf m ps -> wf m' ps' -> extends m ps m' ps' -> default [] (roots m) !! Z.to_nat i = Some v -> 0 <= i ->
  exists b rr, get_root_reference m i = Ok (b, rr) /\ lookup_root m' (rr_key rr) (rr_index rr) = Ok v /\
    0 <= rr_index rr <= i.
Proof.
  intros Hwf Hwf' (rs & qs & E & -> & Hq) Hv Hi. pose proof (lookup_lt_Some _ _ _ Hv) as Hlt.
  assert (Hn : i < nroots m) by (unfold nroots; lia).
  destruct (get_root_reference_spec m ps i Hwf) as [b Hb]; [lia |]. eexists b, _. split; [exact Hb |]. cbn [rr_key rr_index].
  split.
  - assert (Hk : key_of 0 (ps ++ qs) i = key_of 0 ps i).
    { apply key_of_app. eapply Forall_impl; [exact Hq |]. cbn. intros p. lia. }
    pose proof (lookup_root_spec m' (ps ++ qs) i v Hwf') as H. rewrite Hk, rank_app in H.
    + apply H; [| done]. rewrite E. by apply lookup_app_l_Some.
    + eapply Forall_impl; [exact Hq |]. cbn. intros p. lia.
  - rewrite rank_rank_from by (apply Hwf || lia).
    pose proof (rank_from_range ps 0 0 (key_of 0 ps i) i (wf_sorted _ _ Hwf) Hi). lia.
Qed.

Lemma wf_push m ps rs :
  wf m ps -> nroots m + Z.of_nat (length rs) < 2 ^ 31 ->
  wf (push_roots m rs) ps /\ extends m ps (push_roots m rs) ps.
Proof.
  intros [Hb Hs Hst Hn] Hlen. assert (Hnr : nroots (push_roots m rs) = nroots m + Z.of_nat (length rs)).
  { unfold nroots, push_roots. cbn. rewrite length_app. lia. }
  split.
  - split; [done | done | | lia]. eapply Forall_impl; [exact Hst |]. cbn. rewrite Hnr. intros p. lia.
  - exists rs, []. rewrite app_nil_r. done.
Qed.

Lemma prepare_cases m modid :
  let m1 := prepare_method_for_roots m modid in
  default [] (roots m1) = default [] (roots m) /\
  (root_blocks m1 = root_blocks m \/ (root_blocks m = None /\ root_blocks m1 = Some [])) /\
  (modid <> 0 -> root_blocks m1 <> None).
Proof.
  unfold prepare_method_for_roots. destruct m as [[rs |] [bl |] n]; cbn; destruct (Z.eqb_spec modid 0); cbn; auto.
Qed.

Lemma wf_prepare m ps modid :
  wf m ps -> wf (prepare_method_for_roots m modid) ps /\ extends m ps (prepare_method_for_roots m modid) ps /\
    nroots (prepare_method_for_roots m modid) = nroots m /\
    (modid <> 0 -> root_blocks (prepare_method_for_roots m modid) = Some (flat ps)).
Proof.
  intros [Hb Hs Hst Hn]. destruct (prepare_cases m modid) as (Hr & Hbl & Hnn). cbn zeta in *.
  set (m1 := prepare_method_for_roots m modid) in *.
  assert (Hnr : nroots m1 = nroots m) by (unfold nroots; by rewrite Hr).
  assert (Hb1 : root_blocks m1 = Some (flat ps) \/ (root_blocks m1 = None /\ ps = [])).
  { destruct Hbl as [-> | [E ->]]; [done |]. left. destruct Hb as [Hb | [_ ->]]; [congruence | done]. }
  split; [split; [done | done | by rewrite Hnr | by rewrite Hnr] |].
  split; [exists [], []; by rewrite !app_nil_r |]. split; [done |].
  intros Hm. destruct Hb1 as [-> | [E _]]; [done | by apply Hnn in Hm].
Qed.

Lemma wf_add_block m ps modid :
  wf m ps -> root_blocks m = Some (flat ps) ->
  exists m', add_root_block (root_blocks m) modid (nroots m) = Ok (root_blocks m') /\
    m' = MethodRoots (roots m) (Some (flat ps ++ [modid; nroots m])) (nroots_sysimg m) /\
    wf m' (ps ++ [(modid, nroots m)]) /\ extends m ps m' (ps ++ [(modid, nroots m)]).
Proof.
  intros [Hb Hs Hst Hn] E. exists (MethodRoots (roots m) (Some (flat ps ++ [modid; nroots m])) (nroots_sysimg m)).
  split; [by rewrite E |]. split; [reflexivity |]. split.
  - assert (0 <= nroots m) by (unfold nroots; lia). split; cbn.
    + left. rewrite flat_app. done.
    + apply sorted_from_app; [done | | lia]. eapply Forall_impl; [exact Hst |]. cbn. intros p. lia.
    + apply Forall_app. split; [exact Hst |]. constructor; [cbn; unfold nroots in *; cbn in *; lia | constructor].
    + exact Hn.
  - exists [], [(modid, nroots m)]. rewrite app_nil_r. split; [done |]. split; [done |].
    constructor; [cbn; lia | constructor].
Qed.

Lemma jl_add_method_root_spec m ps module_ root :
  wf m ps -> nroots m + 1 < 2 ^ 31 ->
  exists m' ps', jl_add_method_root m module_ root = Ok m' /\ wf m' ps' /\ extends m ps m' ps' /\
    default [] (roots m') = default [] (roots m) ++ [root] /\ (roots m' <> None) /\
    (ps' = ps \/ ps' = ps ++ [(default 0 module_, nroots m)]).
Proof.
  intros Hwf Hn. unfold jl_add_method_root. set (modid := default 0 module_).
  destruct (wf_prepare m ps modid Hwf) as (Hwf1 & Hx1 & Hn1 & Hb1).
  destruct (prepare_cases m modid) as (Hr1 & _ & _).
  set (m1 := prepare_method_for_roots m modid) in *.
  destruct (current_root_id_ok m1 ps Hwf1) as [id Hid]. rewrite Hid. cbn [obind].
  destruct (Z.eqb_spec id modid) as [-> | Hne]; cbn [negb obind].
  - destruct (wf_push m1 ps [root] Hwf1) as [Hwf2 Hx2]; [cbn; lia |].
    eexists _, ps. split; [reflexivity |]. destruct m1 as [r b n]. cbn in *. split; [exact Hwf2 |].
    split; [eapply extends_trans; [exact Hx1 | exact Hx2] |]. rewrite Hr1. auto.
  - assert (Hblocks : root_blocks m1 = Some (flat ps)).
    { destruct (wf_blocks _ _ Hwf1) as [E | [E ->]]; [done |]. apply Hb1. intros Hz.
      rewrite E in Hid. cbn in Hid. injection Hid as <-. by destruct Hne. }
    destruct (wf_add_block m1 ps modid Hwf1 Hblocks) as (m2 & -> & -> & Hwf2 & Hx2). cbn [obind root_blocks].
    destruct (wf_push _ _ [root] Hwf2) as [Hwf3 Hx3]; [unfold nroots in *; cbn in *; lia |].
    eexists _, _. split; [reflexivity |]. split; [exact Hwf3 |].
    split; [eapply extends_trans; [exact Hx1 |]; eapply extends_trans; [exact Hx2 | exact Hx3] |].
    cbn. rewrite Hr1, Hn1. auto.
Qed.

Lemma jl_append_method_roots_spec m ps modid rs :
  wf m ps -> modid <> 0 -> nroots m + Z.of_nat (length rs) < 2 ^ 31 ->
  exists m' ps', jl_append_method_roots m modid rs = Ok m' /\ wf m' ps' /\ extends m ps m' ps'.
Proof.
  intros Hwf Hmod Hn. unfold jl_append_method_roots.
  destruct (wf_prepare m ps modid Hwf) as (Hwf1 & Hx1 & Hn1 & Hb1).
  set (m1 := prepare_method_for_roots m modid) in *.
  destruct (wf_add_block m1 ps modid Hwf1 (Hb1 Hmod)) as (m2 & -> & -> & Hwf2 & Hx2). cbn [obind root_blocks].
  destruct (wf_push _ _ rs Hwf2) as [Hwf3 Hx3]; [unfold nroots in *; cbn in *; lia |].
  eexists _, _. split; [reflexivity |]. split; [exact Hwf3 |].
  eapply extends_trans; [exact Hx1 |]. eapply extends_trans; [exact Hx2 | exact Hx3].
Qed.
End Facts.

(** One addition to the roots, while fewer than 2^31 fit. *)
Inductive adds {V} : method_roots V -> method_roots V -> Prop :=
| adds_one m module_ root m' :
    nroots m + 1 < 2 ^ 31 -> jl_add_method_root m module_ root = Ok m' -> adds m m'
| adds_many m modid rs m' :
    modid <> 0 -> nroots m + Z.of_nat (length rs) < 2 ^ 31 -> jl_append_method_roots m modid rs = Ok m' -> adds m m'.

Lemma adds_extends {V} (m m' : method_roots V) ps :
  adds m m' -> wf m ps -> exists ps', wf m' ps' /\ extends m ps m' ps'.
Proof.
  intros [m0 module_ root m1 Hn E | m0 modid rs m1 Hmod Hn E] Hwf.
  - destruct (jl_add_method_root_spec m0 ps module_ root Hwf Hn) as (m2 & ps' & E' & H1 & H2 & _).
    assert (m2 = m1) as -> by congruence. eauto.
  - destruct (jl_append_method_roots_spec m0 ps modid rs Hwf Hmod Hn) as (m2 & ps' & E' & H1 & H2).
    assert (m2 = m1) as -> by congruence. eauto.
Qed.

Lemma rtc_adds_extends {V} (m m' : method_roots V) :
  rtc adds m m' -> forall ps, wf m ps -> exists ps', wf m' ps' /\ extends m ps m' ps'.
Proof.
  induction 1 as [m | m m1 m' Hs _ IH]; intros ps Hwf; [eauto using extends_refl |].
  destruct (adds_extends _ _ _ Hs Hwf) as (ps1 & Hwf1 & Hx1). destruct (IH ps1 Hwf1) as (ps2 & Hwf2 & Hx2).
  exists ps2. split; [done | by eapply extends_trans].
Qed.

(** C22: A relocatable reference to a root stays valid: the reference
    [get_root_reference] gives for a root, which does not depend on later
    additions, is resolved by [lookup_root] to the same root after any sequence
    of [jl_add_method_root] and [jl_append_method_roots], with any modules in
    any order. *)
Theorem root_reference_stable {V} (m m' : method_roots V) (ps : list (Z * Z)) (i : Z) (v : V) :
  wf m ps -> rtc adds m m' -> 0 <= i -> default [] (roots m) !! Z.to_nat i = Some v ->
  exists b b' rr, get_root_reference m i = Ok (b, rr) /\ get_root_reference m' i = Ok (b', rr) /\
    lookup_root m' (rr_key rr) (rr_index rr) = Ok v.
Proof.
  intros Hwf Hr Hi Hv. destruct (rtc_adds_extends _ _ Hr _ Hwf) as (ps' & Hwf' & Hx).
  destruct (reference_stable _ _ _ _ _ _ Hwf Hwf' Hx Hv Hi) as (b & rr & Hrr & Hl & _).
  pose proof (lookup_lt_Some _ _ _ Hv) as Hlt. destruct Hx as (rs & qs & E & -> & Hq).
  destruct (get_root_reference_spec m ps i Hwf) as [b0 Hb0]; [unfold nroots; lia |].
  destruct (get_root_reference_spec m' (ps ++ qs) i Hwf') as [b' Hb']; [unfold nroots; rewrite E, length_app; lia |].
  exists b, b', rr. split; [done |]. split; [| done]. rewrite Hb'.
  assert (rr = RleRef (key_of 0 ps i) (rank 0 ps (key_of 0 ps i) i)) as -> by congruence.
  rewrite key_of_app, rank_app; [done | |]; (eapply Forall_impl; [exact Hq |]; cbn; unfold nroots; intros p; lia).
Qed.

(** A method with two roots of its own and one of module 77, extended. *)
Definition demo_method : method_roots Z := MethodRoots (Some [10; 11; 12]) (Some [77; 2]) 2.
Definition demo_extended : method_roots Z := MethodRoots (Some [10; 11; 12; 13; 14]) (Some [77; 2; 0; 3; 77; 4]) 2.

Lemma root_reference_stable_witness :
  exists b b' rr, get_root_reference demo_method 2 = Ok (b, rr) /\ get_root_reference demo_extended 2 = Ok (b', rr) /\
    lookup_root demo_extended (rr_key rr) (rr_index rr) = Ok 12.
Proof.
  apply (root_reference_stable demo_method demo_extended [(77, 2)] 2 12).
  - split; [by left | cbn; lia | apply Forall_singleton; unfold nroots; cbn; lia | unfold nroots; cbn; lia].
  - eapply rtc_l; [apply (adds_one demo_method None 13); [unfold nroots; cbn; lia | reflexivity] |].
    eapply rtc_l; [apply (adds_one _ (Some 77) 14); [unfold nroots; cbn; lia | reflexivity] |]. apply rtc_refl.
  - lia.
  - reflexivity.
Defined.

Lemma rank_from_nonneg ps ckey start key x : sorted_from start ps -> start <= x -> 0 <= rank_from ckey start ps key x.
Proof. intros Hs Hx. by apply rank_from_range. Qed.

Lemma count_roots_spec n key ps : forall pre fuel acc k0 s0,
  (length ps < fuel)%nat -> sorted_from s0 ps -> 0 <= s0 <= n -> Forall (fun p => p.2 <= n) ps ->
  0 <= acc -> acc + (n - s0) < 2 ^ 31 ->
  exists r, count_roots (S fuel) (flat (pre ++ (k0, s0) :: ps)) (Z.of_nat (length (flat (pre ++ (k0, s0) :: ps)))) n
    (2 * Z.of_nat (length pre)) key acc = Ok r /\ r = acc + rank_from k0 s0 ps key n.
Proof.
  induction ps as [| [k s] ps IH]; intros pre fuel acc k0 s0 Hf Hs Hs0 Hst Ha Hb.
  - destruct (rd_flat pre k0 s0 []) as [R0 R1]. eexists. split; [| reflexivity].
    cbn [count_roots]. rewrite R0, R1, flat_length, length_app. cbn [length obind].
    rewrite (proj2 (Z.ltb_lt _ _)), (proj2 (Z.ltb_ge _ _)) by lia. cbn [obind]. destruct fuel as [| fuel]; [lia |].
    cbn [count_roots rank_from]. rewrite (proj2 (Z.ltb_ge _ _)) by lia. rewrite (Z.eqb_sym key k0).
    destruct (k0 =? key); cbn [obind]; [| f_equal; lia]. rewrite u64_small, i32_small by lia. done.
  - destruct (rd_flat pre k0 s0 ((k, s) :: ps)) as [R0 R1].
    destruct (rd_flat (pre ++ [(k0, s0)]) k s ps) as [_ R3]. rewrite <- app_assoc in R3. cbn [app] in R3.
    rewrite length_app in R3. cbn [length] in R3. destruct Hs as [Hs1 Hs]. apply Forall_cons in Hst as [Hs2 Hst]. cbn in Hs2.
    replace (2 * Z.of_nat (length pre + 1) + 1) with (2 * Z.of_nat (length pre) + 3) in R3 by lia.
    cbn [count_roots rank_from]. rewrite R0, R1, R3. cbn [obind].
    assert (Hl : Z.of_nat (length (flat (pre ++ (k0, s0) :: (k, s) :: ps))) = 2 * Z.of_nat (length pre) + 4 + 2 * Z.of_nat (length ps)).
    { rewrite flat_length, length_app. cbn [length]. lia. }
    rewrite Hl. rewrite (proj2 (Z.ltb_lt (2 * _) _)), (proj2 (Z.ltb_lt (2 * _ + 3) _)) by lia. cbn [obind].
    rewrite (proj2 (Z.leb_le s n)), (Z.eqb_sym key k0) by lia.
    destruct fuel as [| fuel]; [cbn in Hf; lia |].
    set (d := if k0 =? key then s - s0 else 0).
    assert (Hd : 0 <= d <= n) by (unfold d; destruct (k0 =? key); lia).
    assert (E : (if k0 =? key then Ok (i32 (acc + u64 (s - s0))) else Ok acc) = Ok (acc + d)).
    { unfold d. destruct (k0 =? key); [| f_equal; lia]. rewrite u64_small, i32_small by lia. done. }
    rewrite E. cbn [obind]. destruct (IH (pre ++ [(k0, s0)]) fuel (acc + d) k s) as (r & Hr & Er);
      [cbn in Hf; lia | done | lia | done | lia | unfold d; destruct (k0 =? key); lia |].
    exists r. split; [| unfold d in Er; destruct (k0 =? key); lia].
    rewrite <- app_assoc, length_app in Hr. cbn [app length] in Hr. rewrite Hl in Hr.
    replace (2 * Z.of_nat (length pre + 1)) with (2 * Z.of_nat (length pre) + 2) in Hr by lia. exact Hr.
Qed.

(** [nroots_with_key] counts the roots a module added: for a key other than
    0 it is the number of roots whose block has that key. *)
Theorem nroots_with_key_correct {V} (m : method_roots V) (ps : list (Z * Z)) (key : Z) :
  wf m ps -> key <> 0 -> nroots_with_key m key = Ok (rank 0 ps key (nroots m)).
Proof.
  intros [Hb Hs Hst Hn] Hk. assert (0 <= nroots m) by (unfold nroots; lia). unfold nroots_with_key.
  rewrite rank_rank_from by (done || lia).
  destruct Hb as [-> | [-> ->]]; [| by cbn; rewrite !(proj2 (Z.eqb_neq key 0))].
  destruct ps as [| [k s] ps]; [by cbn; rewrite (proj2 (Z.eqb_neq key 0)) |].
  apply Forall_cons in Hst as [Hs0 Hst]. cbn in Hs0. destruct Hs as [Hs1 Hs].
  destruct (count_roots_spec (nroots m) key ps [] (length (flat ((k, s) :: ps))) 0 k s) as (r & Hr & ->);
    [pose proof (flat_length ps); rewrite flat_cons; cbn; lia | done | lia | | lia | lia |].
  { eapply Forall_impl; [exact Hst |]. cbn. lia. }
  cbn [app length] in Hr. change (2 * Z.of_nat 0) with 0 in Hr. rewrite Hr. cbn [rank_from]. rewrite (proj2 (Z.leb_le s _)), (proj2 (Z.eqb_neq key 0)) by lia. done.
Qed.

Lemma nroots_with_key_correct_witness : nroots_with_key demo_extended 77 = Ok (rank 0 [(77, 2); (0, 3); (77, 4)] 77 5).
Proof.
  apply (nroots_with_key_correct demo_extended [(77, 2); (0, 3); (77, 4)] 77); [| done].
  split; [by left | cbn; lia | rewrite !Forall_cons; unfold nroots; cbn; repeat split; (lia || constructor) | unfold nroots; cbn; lia].
Defined.
