(* ===== verification/Hashing.v ===== *)
(** * Integer and memory hashes (support/hashing.c, support/MurmurHash3.c)

    Words are integers at their width, every C operation followed by its
    conversion; memory is a list of bytes, read little-endian.  The 64-bit
    configuration ([_P64]) is modelled, which uses [MurmurHash3_x64_128] for
    [memhash]. *)

From stdpp Require Import base list numbers option.
From Stdlib Require Import ZArith Lia.
From S2P Require Import Prelude.

(** ** Integer hashes *)

Definition int32hash (a : Z) : Z :=
  let a := u32 (u32 (a + 0x7ed55d16) + u32 (Z.shiftl a 12)) in
  let a := Z.lxor (Z.lxor a 0xc761c23c) (Z.shiftr a 19) in
  let a := u32 (u32 (a + 0x165667b1) + u32 (Z.shiftl a 5)) in
  let a := Z.lxor (u32 (a + 0xd3a2646c)) (u32 (Z.shiftl a 9)) in
  let a := u32 (u32 (a + 0xfd7046c5) + u32 (Z.shiftl a 3)) in
  let a := Z.lxor (Z.lxor a 0xb55a4f09) (Z.shiftr a 16) in
  a.

Definition int64hash (key : Z) : Z :=
  let key := u64 (u64 (Z.lnot key) + u64 (Z.shiftl key 21)) in
  let key := Z.lxor key (Z.shiftr key 24) in
  let key := u64 (u64 (key + u64 (Z.shiftl key 3)) + u64 (Z.shiftl key 8)) in
  let key := Z.lxor key (Z.shiftr key 14) in
  let key := u64 (u64 (key + u64 (Z.shiftl key 2)) + u64 (Z.shiftl key 4)) in
  let key := Z.lxor key (Z.shiftr key 28) in
  let key := u64 (key + u64 (Z.shiftl key 31)) in
  key.

(** The 64-bit word before it is truncated. *)
Definition int64to32mix (key : Z) : Z :=
  let key := u64 (u64 (Z.lnot key) + u64 (Z.shiftl key 18)) in
  let key := Z.lxor key (Z.shiftr key 31) in
  let key := u64 (key * 21) in
  let key := Z.lxor key (Z.shiftr key 11) in
  let key := u64 (key + u64 (Z.shiftl key 6)) in
  let key := Z.lxor key (Z.shiftr key 22) in
  key.

Definition int64to32hash (key : Z) : Z := u32 (int64to32mix key).

(** ** MurmurHash3 *)

Definition rotl32 (x r : Z) : Z := Z.lor (u32 (Z.shiftl x r)) (Z.shiftr x (32 - r)).
Definition rotl64 (x r : Z) : Z := Z.lor (u64 (Z.shiftl x r)) (Z.shiftr x (64 - r)).

Definition fmix32 (h : Z) : Z :=
  let h := Z.lxor h (Z.shiftr h 16) in
  let h := u32 (h * 0x85ebca6b) in
  let h := Z.lxor h (Z.shiftr h 13) in
  let h := u32 (h * 0xc2b2ae35) in
  let h := Z.lxor h (Z.shiftr h 16) in
  h.

Definition fmix64 (k : Z) : Z :=
  let k := Z.lxor k (Z.shiftr k 33) in
  let k := u64 (k * 0xff51afd7ed558ccd) in
  let k := Z.lxor k (Z.shiftr k 33) in
  let k := u64 (k * 0xc4ceb9fe1a85ec53) in
  let k := Z.lxor k (Z.shiftr k 33) in
  k.

(** A little-endian word. *)
Fixpoint le_word (bs : list Z) : Z :=
  match bs with
  | [] => 0
  | b :: bs' => b + 256 * le_word bs'
  end.

(** [jl_load_unaligned_i32] and [_i64] of the [n] bytes at [data], with the
    rest of the memory. *)
Definition load (n : nat) (data : list Z) : outcome (Z * list Z) :=
  if (n <=? length data)%nat then Ok (le_word (take n data), drop n data) else UB.

(** *** The 32-bit variant *)

Definition mix32 (k1 : Z) : Z :=
  let k1 := u32 (k1 * 0xcc9e2d51) in
  let k1 := rotl32 k1 15 in
  u32 (k1 * 0x1b873593).

Definition body32_step (h1 k1 : Z) : Z :=
  let h1 := Z.lxor h1 (mix32 k1) in
  let h1 := rotl32 h1 13 in
  u32 (u32 (h1 * 5) + 0xe6546b64).

Fixpoint body32 (nblocks : nat) (data : list Z) (h1 : Z) : outcome (Z * list Z) :=
  match nblocks with
  | O => Ok (h1, data)
  | S n =>
      let! (k1, data) := load 4 data in
      body32 n data (body32_step h1 k1)
  end.

(** A [switch] that falls through the cases [j = n .. 1]: byte [lo + j - 1] of
    the tail is mixed in when [lo + j <= l]. *)
Fixpoint tail_word (n : nat) (lo l : Z) (tail : list Z) (k : Z) : outcome Z :=
  match n with
  | O => Ok k
  | S j =>
      let! k :=
        if lo + Z.of_nat n <=? l then
          let! t := rd tail (lo + Z.of_nat j) in
          Ok (Z.lxor k (Z.shiftl t (8 * Z.of_nat j)))
        else Ok k in
      tail_word j lo l tail k
  end.

Definition MurmurHash3_x86_32 (data : list Z) (seed : Z) : outcome Z :=
  let len := u64 (Z.of_nat (length data)) in
  let! (h1, tail) := body32 (length data / 4) data seed in
  let l := Z.land len 3 in
  let! h1 :=
    if 1 <=? l then
      let! k1 := tail_word 3 0 l tail 0 in
      Ok (Z.lxor h1 (mix32 k1))
    else Ok h1 in
  let h1 := u32 (Z.lxor h1 len) in
  Ok (fmix32 h1).

(** *** The 128-bit variant for 64-bit machines *)

Definition c1_64 : Z := 0x87c37b91114253d5.
Definition c2_64 : Z := 0x4cf5ad432745937f.

Definition mix64_1 (k1 : Z) : Z :=
  let k1 := u64 (k1 * c1_64) in
  let k1 := rotl64 k1 31 in
  u64 (k1 * c2_64).

Definition mix64_2 (k2 : Z) : Z :=
  let k2 := u64 (k2 * c2_64) in
  let k2 := rotl64 k2 33 in
  u64 (k2 * c1_64).

Definition body64_step (h1 h2 k1 k2 : Z) : Z * Z :=
  let h1 := Z.lxor h1 (mix64_1 k1) in
  let h1 := rotl64 h1 27 in
  let h1 := u64 (h1 + h2) in
  let h1 := u64 (u64 (h1 * 5) + 0x52dce729) in
  let h2 := Z.lxor h2 (mix64_2 k2) in
  let h2 := rotl64 h2 31 in
  let h2 := u64 (h2 + h1) in
  let h2 := u64 (u64 (h2 * 5) + 0x38495ab5) in
  (h1, h2).

Fixpoint body64 (nblocks : nat) (data : list Z) (h1 h2 : Z) : outcome (Z * Z * list Z) :=
  match nblocks with
  | O => Ok (h1, h2, data)
  | S n =>
      let! (k1, data) := load 8 data in
      let! (k2, data) := load 8 data in
      let (h1, h2) := body64_step h1 h2 k1 k2 in
      body64 n data h1 h2
  end.

Definition final64 (h1 h2 len : Z) : Z * Z :=
  let h1 := Z.lxor h1 len in
  let h2 := Z.lxor h2 len in
  let h1 := u64 (h1 + h2) in
  let h2 := u64 (h2 + h1) in
  let h1 := fmix64 h1 in
  let h2 := fmix64 h2 in
  let h1 := u64 (h1 + h2) in
  let h2 := u64 (h2 + h1) in
  (h1, h2).

Definition MurmurHash3_x64_128 (data : list Z) (seed : Z) : outcome (Z * Z) :=
  let len := u64 (Z.of_nat (length data)) in
  let! (h1, h2, tail) := body64 (length data / 16) data seed seed in
  let l := Z.land len 15 in
  let! h2 :=
    if 9 <=? l then
      let! k2 := tail_word 7 8 l tail 0 in
      Ok (Z.lxor h2 (mix64_2 k2))
    else Ok h2 in
  let! h1 :=
    if 1 <=? l then
      let! k1 := tail_word 8 0 l tail 0 in
      Ok (Z.lxor h1 (mix64_1 k1))
    else Ok h1 in
  Ok (final64 h1 h2 len).

(** ** Memory hashes *)

Definition MHASH_SEED : Z := 0xcafe8881.

Definition memhash (buf : list Z) : outcome Z :=
  let! (_, out1) := MurmurHash3_x64_128 buf MHASH_SEED in Ok out1.

Definition memhash_seed (buf : list Z) (seed : Z) : outcome Z :=
  let! (_, out1) := MurmurHash3_x64_128 buf seed in Ok out1.

Definition memhash32 (buf : list Z) : outcome Z := MurmurHash3_x86_32 buf MHASH_SEED.

Definition memhash32_seed (buf : list Z) (seed : Z) : outcome Z := MurmurHash3_x86_32 buf seed.
