(* ===== verification/HashingFacts.v ===== *)
(** * Injectivity of the hashes

    The steps the hashes are made of (adding a constant, multiplying by an odd
    constant, rotating, xoring with a shifted copy) are injective on words, so
    the integer hashes never collide and the memory hashes never collide on
    inputs that differ in one block only. *)

From stdpp Require Import base sets list numbers option.
From Stdlib Require Import ZArith Lia.
From S2P Require Import Prelude Hashing.

(** ** Injective functions on [w]-bit words *)

(** [f] maps [w]-bit words to [w]-bit words without collisions. *)
Record perm (w : Z) (f : Z -> Z) : Prop := {
  perm_range : forall x, 0 <= x < 2 ^ w -> 0 <= f x < 2 ^ w;
  perm_inj : forall x y, 0 <= x < 2 ^ w -> 0 <= y < 2 ^ w -> f x = f y -> x = y
}.

Lemma perm_compose w f g : perm w f -> perm w g -> perm w (fun x => g (f x)).
Proof.
  intros Hf Hg. split.
  - intros x Hx. apply Hg, Hf, Hx.
  - intros x y Hx Hy E. apply Hf; try done. apply Hg; try done; by apply Hf.
Qed.

Lemma perm_ext w f g : (forall x, 0 <= x < 2 ^ w -> f x = g x) -> perm w g -> perm w f.
Proof.
  intros E Hg. split.
  - intros x Hx. rewrite E by done. by apply Hg.
  - intros x y Hx Hy. rewrite !E by done. by apply Hg.
Qed.

Lemma lxor_range w x y : 0 <= w -> 0 <= x < 2 ^ w -> 0 <= y < 2 ^ w -> 0 <= Z.lxor x y < 2 ^ w.
Proof.
  intros Hw Hx Hy. assert (H0 : 0 <= Z.lxor x y) by (apply Z.lxor_nonneg; lia).
  split; [done |]. destruct (Z.eq_dec (Z.lxor x y) 0) as [-> |]; [by apply Z.pow_pos_nonneg |].
  apply Z.log2_lt_pow2; [lia |]. eapply Z.le_lt_trans; [apply Z.log2_lxor; lia |].
  assert (Hlog : forall z, 0 <= z < 2 ^ w -> Z.log2 z < w \/ z = 0).
  { intros z Hz. destruct (Z.eq_dec z 0); [by right | left]. apply Z.log2_lt_pow2; lia. }
  destruct (Z.eq_dec w 0) as [-> |]; [exfalso; cbn in *; assert (x = 0) as -> by lia; assert (y = 0) as -> by lia; done |].
  destruct (Hlog x Hx) as [| ->], (Hlog y Hy) as [| ->]; change (Z.log2 0) with 0; lia.
Qed.

Lemma perm_lxor w c : 0 <= w -> 0 <= c < 2 ^ w -> perm w (fun x => Z.lxor x c).
Proof.
  intros Hw Hc. split.
  - intros x Hx. by apply lxor_range.
  - intros x y _ _ E. apply (f_equal (fun z => Z.lxor z c)) in E.
    by rewrite !Z.lxor_assoc, Z.lxor_nilpotent, !Z.lxor_0_r in E.
Qed.

Lemma shiftr_range w x k : 0 <= k -> 0 <= x < 2 ^ w -> 0 <= Z.shiftr x k < 2 ^ w.
Proof.
  intros Hk Hx. rewrite shiftr_pow by done. assert (0 < 2 ^ k) by (apply Z.pow_pos_nonneg; lia).
  split; [apply Z.div_pos; lia |]. apply Z.div_lt_upper_bound; nia.
Qed.

(** Xor with a copy shifted to the right. *)
Lemma perm_xorshr w k : 0 <= w -> 0 < k -> perm w (fun x => Z.lxor x (Z.shiftr x k)).
Proof.
  intros Hw Hk. split.
  - intros x Hx. apply lxor_range; [done | done | apply shiftr_range; lia].
  - intros x y Hx Hy E. set (d := Z.lxor x y).
    assert (Hd : d = Z.shiftr d k).
    { unfold d. rewrite Z.shiftr_lxor. apply (f_equal (fun z => Z.lxor z (Z.lxor y (Z.shiftr x k)))) in E.
      replace (Z.lxor (Z.lxor x (Z.shiftr x k)) (Z.lxor y (Z.shiftr x k))) with (Z.lxor x y) in E.
      2: { apply Z.bits_inj'. intros i _. rewrite !Z.lxor_spec. by destruct (Z.testbit x i), (Z.testbit y i), (Z.testbit (Z.shiftr x k) i). }
      rewrite E. apply Z.bits_inj'. intros i _. rewrite !Z.lxor_spec.
      by destruct (Z.testbit y i), (Z.testbit (Z.shiftr y k) i), (Z.testbit (Z.shiftr x k) i). }
    assert (0 <= d) by (unfold d; apply Z.lxor_nonneg; lia).
    rewrite shiftr_pow in Hd by lia.
    assert (2 <= 2 ^ k) by (change 2 with (2 ^ 1) at 1; apply Z.pow_le_mono_r; lia).
    assert (d = 0) by (pose proof (Z.mul_div_le d (2 ^ k)); nia).
    by apply Z.lxor_eq.
Qed.

(** Multiplying by a constant that has an inverse, and adding another. *)
Lemma perm_affine w c c' b : 0 <= w -> (c * c') mod 2 ^ w = 1 mod 2 ^ w -> perm w (fun x => (x * c + b) mod 2 ^ w).
Proof.
  intros Hw Hc. assert (H2 : 0 < 2 ^ w) by (apply Z.pow_pos_nonneg; lia).
  split; [intros; apply Z.mod_pos_bound; lia |]. intros x y Hx Hy E.
  assert (Hinv : forall z, 0 <= z < 2 ^ w -> ((((z * c + b) mod 2 ^ w) - b) * c') mod 2 ^ w = z).
  { intros z Hz. rewrite <- Zmult_mod_idemp_l, Zminus_mod_idemp_l, Zmult_mod_idemp_l.
    replace ((z * c + b - b) * c') with (z * (c * c')) by ring.
    rewrite <- Zmult_mod_idemp_r, Hc, Zmult_mod_idemp_r, Z.mul_1_r. by apply Z.mod_small. }
  rewrite <- (Hinv x Hx), <- (Hinv y Hy), E. done.
Qed.

Lemma bits_above y k i : 0 <= y < 2 ^ k -> k <= i -> Z.testbit y i = false.
Proof.
  intros Hy Hi. destruct (Z.eq_dec y 0) as [-> |]; [apply Z.bits_0 |].
  apply Z.bits_above_log2; [lia |]. assert (Z.log2 y < k) by (apply Z.log2_lt_pow2; lia). lia.
Qed.

Lemma lor_add x y k : 0 <= k -> 0 <= y < 2 ^ k -> Z.lor (x * 2 ^ k) y = x * 2 ^ k + y.
Proof.
  intros Hk Hy. assert (Hl : Z.land (x * 2 ^ k) y = 0).
  { apply Z.bits_inj'. intros i Hi. rewrite Z.land_spec, Z.bits_0, <- shiftl_pow by done.
    destruct (Z_lt_le_dec i k); [by rewrite Z.shiftl_spec_low |].
    rewrite (bits_above y k i) by lia. apply andb_false_r. }
  by rewrite Z.add_nocarry_lxor, Z.lxor_lor.
Qed.

Lemma perm_rotl w r : 0 < r < w -> perm w (fun x => Z.lor (Z.shiftl x r mod 2 ^ w) (Z.shiftr x (w - r))).
Proof.
  intros Hr. assert (Hp : 2 ^ w = 2 ^ (w - r) * 2 ^ r) by (rewrite <- Z.pow_add_r by lia; f_equal; lia).
  assert (0 < 2 ^ r) by (apply Z.pow_pos_nonneg; lia). assert (0 < 2 ^ (w - r)) by (apply Z.pow_pos_nonneg; lia).
  assert (Hq : forall x, 0 <= x < 2 ^ w -> 0 <= x / 2 ^ (w - r) < 2 ^ r).
  { intros x Hx. split; [apply Z.div_pos; lia |]. apply Z.div_lt_upper_bound; lia. }
  apply (perm_ext _ _ (fun x => (x mod 2 ^ (w - r)) * 2 ^ r + x / 2 ^ (w - r))).
  - intros x Hx. rewrite shiftl_pow, shiftr_pow by lia. rewrite Hp at 1. rewrite Z.mul_mod_distr_r by lia.
    apply lor_add; [lia | by apply Hq].
  - split.
    + intros x Hx. specialize (Hq x Hx). pose proof (Z.mod_pos_bound x (2 ^ (w - r)) ltac:(lia)). nia.
    + intros x y Hx Hy E. pose proof (Hq x Hx). pose proof (Hq y Hy).
      assert (x mod 2 ^ (w - r) = y mod 2 ^ (w - r)) by nia.
      rewrite (Z.div_mod x (2 ^ (w - r))), (Z.div_mod y (2 ^ (w - r))) by lia. nia.
Qed.

(** ** Low bits *)

Lemma lxor_mod x y n : 0 <= n -> Z.lxor x y mod 2 ^ n = Z.lxor (x mod 2 ^ n) (y mod 2 ^ n).
Proof.
  intros Hn. apply Z.bits_inj'. intros i Hi. rewrite Z.lxor_spec.
  destruct (Z_lt_le_dec i n).
  - by rewrite !Z.mod_pow2_bits_low, Z.lxor_spec by lia.
  - by rewrite !Z.mod_pow2_bits_high by lia.
Qed.

(** Xor of [x + b] with a copy shifted to the left: the low bits of the result
    determine the low bits of [x], a shift at a time. *)
Lemma perm_addxorshl w b k : 0 <= w -> 0 < k -> perm w (fun x => Z.lxor ((x + b) mod 2 ^ w) (Z.shiftl x k mod 2 ^ w)).
Proof.
  intros Hw Hk. assert (H2 : 0 < 2 ^ w) by (apply Z.pow_pos_nonneg; lia). split.
  { intros x Hx. apply lxor_range; [done | |]; apply Z.mod_pos_bound; lia. }
  intros x y Hx Hy E.
  assert (Hstep : forall m : nat, x mod 2 ^ Z.min (k * Z.of_nat m) w = y mod 2 ^ Z.min (k * Z.of_nat m) w).
  { induction m as [| m IH]; [by rewrite Z.min_l, Z.mul_0_r, !Z.mod_1_r by lia |].
    set (n := Z.min (k * Z.of_nat (S m)) w). set (n0 := Z.min (k * Z.of_nat m) w) in *.
    assert (Hn : 0 <= n0 <= n /\ n <= w /\ n <= n0 + k) by lia.
    assert (Hnp : 0 < 2 ^ n) by (apply Z.pow_pos_nonneg; lia).
    assert (Hlow : forall z, (z mod 2 ^ w) mod 2 ^ n = z mod 2 ^ n).
    { intros z. apply Z.mod_mod_divide. exists (2 ^ (w - n)).
      rewrite <- Z.pow_add_r by lia. f_equal. lia. }
    apply (f_equal (fun z => z mod 2 ^ n)) in E. rewrite !lxor_mod, !Hlow in E by lia.
    assert (Hsh : Z.shiftl x k mod 2 ^ n = Z.shiftl y k mod 2 ^ n).
    { apply Z.bits_inj'. intros i Hi. destruct (Z_lt_le_dec i n); [| by rewrite !Z.mod_pow2_bits_high by lia].
      rewrite !Z.mod_pow2_bits_low by lia. rewrite !Z.shiftl_spec by done.
      destruct (Z_lt_le_dec i k); [by rewrite !Z.testbit_neg_r by lia |].
      rewrite <- (Z.mod_pow2_bits_low x n0), <- (Z.mod_pow2_bits_low y n0) by lia. by rewrite IH. }
    rewrite Hsh in E. apply (f_equal (fun z => Z.lxor z (Z.shiftl y k mod 2 ^ n))) in E.
    rewrite !Z.lxor_assoc, Z.lxor_nilpotent, !Z.lxor_0_r in E.
    assert (Hsub : forall z, (z + b - b) mod 2 ^ n = ((z + b) mod 2 ^ n - b) mod 2 ^ n)
      by (intros; by rewrite Zminus_mod_idemp_l).
    replace x with (x + b - b) by lia. replace y with (y + b - b) by lia. rewrite !Hsub, E. done. }
  specialize (Hstep (Z.to_nat w)). rewrite Z.min_r in Hstep by nia. by rewrite !Z.mod_small in Hstep.
Qed.

(** ** The integer hashes *)

Lemma perm_chain w fs : Forall (perm w) fs -> perm w (fun x => fold_left (fun a f => f a) fs x).
Proof.
  induction 1 as [| f fs Hf Hfs IH]; [by split |]. cbn. by apply (perm_compose w f).
Qed.

(** An inverse modulo [2 ^ w] by Newton's iteration. *)
Definition minv (w c : Z) : Z := Nat.iter 6 (fun x => (x * (2 - c * x)) mod 2 ^ w) c.

(** A hash is the composition of its steps. *)
Ltac perm_steps w fs :=
  apply (perm_ext w _ (fun x => fold_left (fun a f => f a) fs x));
  [intros x _; cbv beta iota zeta delta [fold_left]; reflexivity | apply perm_chain].

(** Recognises a step: an affine map with an odd factor, a rotation, a xor
    with a constant or with a shifted copy. *)
Ltac perm_affine_by w c b :=
  apply (perm_ext w _ (fun x => (x * c + b) mod 2 ^ w));
  [ intros x Hx; unfold u32, u64, Z.lnot; rewrite ?shiftl_pow by lia;
    rewrite ?Zplus_mod_idemp_r, ?Zplus_mod_idemp_l; f_equal; lia
  | apply (perm_affine w c (minv w c) b); [lia | vm_compute; reflexivity] ].

Lemma perm_xor_const_shr w c k :
  0 <= w -> 0 <= c < 2 ^ w -> 0 < k -> perm w (fun x => Z.lxor (Z.lxor x c) (Z.shiftr x k)).
Proof.
  intros Hw Hc Hk. apply (perm_ext w _ (fun x => Z.lxor (Z.lxor x (Z.shiftr x k)) c)).
  - intros x _. rewrite !Z.lxor_assoc. f_equal. apply Z.lxor_comm.
  - apply (perm_compose w (fun x => Z.lxor x (Z.shiftr x k)) (fun x => Z.lxor x c)); [by apply perm_xorshr | by apply perm_lxor].
Qed.

Lemma int32hash_perm : perm 32 int32hash.
Proof.
  unfold int32hash.
  perm_steps 32 ([(fun a => u32 (u32 (a + 0x7ed55d16) + u32 (Z.shiftl a 12)));
     (fun a => Z.lxor (Z.lxor a 0xc761c23c) (Z.shiftr a 19));
     (fun a => u32 (u32 (a + 0x165667b1) + u32 (Z.shiftl a 5)));
     (fun a => Z.lxor (u32 (a + 0xd3a2646c)) (u32 (Z.shiftl a 9)));
     (fun a => u32 (u32 (a + 0xfd7046c5) + u32 (Z.shiftl a 3)));
     (fun a => Z.lxor (Z.lxor a 0xb55a4f09) (Z.shiftr a 16))] : list (Z -> Z)).
  repeat first [apply List.Forall_nil | apply List.Forall_cons]; try (apply perm_xor_const_shr; lia); try (apply perm_addxorshl; lia).
  all: [> perm_affine_by 32 4097 0x7ed55d16 | perm_affine_by 32 33 0x165667b1 | perm_affine_by 32 9 0xfd7046c5].
Qed.

Lemma int64hash_perm : perm 64 int64hash.
Proof.
  unfold int64hash.
  perm_steps 64 ([(fun key => u64 (u64 (Z.lnot key) + u64 (Z.shiftl key 21)));
     (fun key => Z.lxor key (Z.shiftr key 24));
     (fun key => u64 (u64 (key + u64 (Z.shiftl key 3)) + u64 (Z.shiftl key 8)));
     (fun key => Z.lxor key (Z.shiftr key 14));
     (fun key => u64 (u64 (key + u64 (Z.shiftl key 2)) + u64 (Z.shiftl key 4)));
     (fun key => Z.lxor key (Z.shiftr key 28));
     (fun key => u64 (key + u64 (Z.shiftl key 31)))] : list (Z -> Z)).
  repeat first [apply List.Forall_nil | apply List.Forall_cons]; try (apply perm_xorshr; lia).
  all: [> perm_affine_by 64 (2 ^ 21 - 1) (-1) | perm_affine_by 64 265 0 | perm_affine_by 64 21 0
       | perm_affine_by 64 (2 ^ 31 + 1) 0].
Qed.

Lemma int64to32mix_perm : perm 64 int64to32mix.
Proof.
  unfold int64to32mix.
  perm_steps 64 ([(fun key => u64 (u64 (Z.lnot key) + u64 (Z.shiftl key 18)));
     (fun key => Z.lxor key (Z.shiftr key 31));
     (fun key => u64 (key * 21));
     (fun key => Z.lxor key (Z.shiftr key 11));
     (fun key => u64 (key + u64 (Z.shiftl key 6)));
     (fun key => Z.lxor key (Z.shiftr key 22))] : list (Z -> Z)).
  repeat first [apply List.Forall_nil | apply List.Forall_cons]; try (apply perm_xorshr; lia).
  all: [> perm_affine_by 64 (2 ^ 18 - 1) (-1) | perm_affine_by 64 21 0 | perm_affine_by 64 65 0].
Qed.

Lemma fmix32_perm : perm 32 fmix32.
Proof.
  unfold fmix32.
  perm_steps 32 ([(fun h => Z.lxor h (Z.shiftr h 16)); (fun h => u32 (h * 0x85ebca6b));
     (fun h => Z.lxor h (Z.shiftr h 13)); (fun h => u32 (h * 0xc2b2ae35));
     (fun h => Z.lxor h (Z.shiftr h 16))] : list (Z -> Z)).
  repeat first [apply List.Forall_nil | apply List.Forall_cons]; try (apply perm_xorshr; lia).
  all: [> perm_affine_by 32 0x85ebca6b 0 | perm_affine_by 32 0xc2b2ae35 0].
Qed.

Lemma fmix64_perm : perm 64 fmix64.
Proof.
  unfold fmix64.
  perm_steps 64 ([(fun k => Z.lxor k (Z.shiftr k 33)); (fun k => u64 (k * 0xff51afd7ed558ccd));
     (fun k => Z.lxor k (Z.shiftr k 33)); (fun k => u64 (k * 0xc4ceb9fe1a85ec53));
     (fun k => Z.lxor k (Z.shiftr k 33))] : list (Z -> Z)).
  repeat first [apply List.Forall_nil | apply List.Forall_cons]; try (apply perm_xorshr; lia).
  all: [> perm_affine_by 64 0xff51afd7ed558ccd 0 | perm_affine_by 64 0xc4ceb9fe1a85ec53 0].
Qed.

Lemma mix32_perm : perm 32 mix32.
Proof.
  unfold mix32.
  perm_steps 32 ([(fun k => u32 (k * 0xcc9e2d51)); (fun k => rotl32 k 15); (fun k => u32 (k * 0x1b873593))] : list (Z -> Z)).
  repeat first [apply List.Forall_nil | apply List.Forall_cons]; try (apply perm_rotl; lia).
  all: [> perm_affine_by 32 0xcc9e2d51 0 | perm_affine_by 32 0x1b873593 0].
Qed.

Lemma mix64_1_perm : perm 64 mix64_1.
Proof.
  unfold mix64_1.
  perm_steps 64 ([(fun k => u64 (k * c1_64)); (fun k => rotl64 k 31); (fun k => u64 (k * c2_64))] : list (Z -> Z)).
  repeat first [apply List.Forall_nil | apply List.Forall_cons]; try (apply perm_rotl; lia).
  all: [> perm_affine_by 64 c1_64 0 | perm_affine_by 64 c2_64 0].
Qed.

Lemma mix64_2_perm : perm 64 mix64_2.
Proof.
  unfold mix64_2.
  perm_steps 64 ([(fun k => u64 (k * c2_64)); (fun k => rotl64 k 33); (fun k => u64 (k * c1_64))] : list (Z -> Z)).
  repeat first [apply List.Forall_nil | apply List.Forall_cons]; try (apply perm_rotl; lia).
  all: [> perm_affine_by 64 c2_64 0 | perm_affine_by 64 c1_64 0].
Qed.

(** ** Hashes that process their input block by block *)

Section BlockHash.
Context {St : Type} (ok : St -> Prop) (B : nat) (step : St -> list Z -> St) {R : Type} (fin : St -> list Z -> nat -> R).
Hypothesis HB : (0 < B)%nat.

Definition block (n : nat) (b : list Z) : Prop := length b = n /\ Forall is_byte b.

Hypothesis step_ok : forall h b, ok h -> block B b -> ok (step h b).
Hypothesis step_inj_state : forall h h' b, ok h -> ok h' -> block B b -> step h b = step h' b -> h = h'.
Hypothesis step_inj_block : forall h b b', ok h -> block B b -> block B b' -> step h b = step h b' -> b = b'.
Hypothesis fin_inj_state : forall h h' t n len, ok h -> ok h' -> (n < B)%nat -> block n t ->
  fin h t len = fin h' t len -> h = h'.
Hypothesis fin_inj_tail : forall h t t' n len, ok h -> (n < B)%nat -> block n t -> block n t' ->
  fin h t len = fin h t' len -> t = t'.

Fixpoint gbody (n : nat) (data : list Z) (h : St) : St * list Z :=
  match n with
  | O => (h, data)
  | S n' => gbody n' (drop B data) (step h (take B data))
  end.

Definition ghash (data : list Z) (h : St) : R :=
  let (h', t) := gbody (length data / B) data h in fin h' t (length data).

Lemma gbody_app m : forall n p q h,
  length p = (B * m)%nat -> gbody (m + n) (p ++ q) h = gbody n q (fst (gbody m p h)).
Proof using HB.
  induction m as [| m IH]; intros n p q h Hp; cbn [gbody Nat.add fst].
  - rewrite Nat.mul_0_r in Hp. apply nil_length_inv in Hp as ->. done.
  - rewrite drop_app_le, take_app_le by lia. apply IH. rewrite length_drop. lia.
Qed.

Lemma gbody_ok n : forall data h,
  ok h -> Forall is_byte data -> (B * n <= length data)%nat ->
  ok (fst (gbody n data h)) /\ snd (gbody n data h) = drop (B * n) data.
Proof using HB step_ok.
  induction n as [| n IH]; intros data h Hh Hd Hl; cbn [gbody fst snd].
  - by rewrite Nat.mul_0_r.
  - destruct (IH (drop B data) (step h (take B data))) as [H1 H2].
    + apply step_ok; [done |]. split; [rewrite length_take; lia | by apply Forall_take].
    + by apply Forall_drop.
    + rewrite length_drop. lia.
    + split; [done |]. rewrite H2, drop_drop. f_equal. lia.
Qed.

Lemma gbody_inj n : forall data h h',
  ok h -> ok h' -> Forall is_byte data -> (B * n <= length data)%nat ->
  fst (gbody n data h) = fst (gbody n data h') -> h = h'.
Proof using HB step_ok step_inj_state.
  induction n as [| n IH]; intros data h h' Hh Hh' Hd Hl; cbn [gbody fst]; [done |]. intros E.
  assert (Hb : block B (take B data)) by (split; [rewrite length_take; lia | by apply Forall_take]).
  apply IH in E; [by eapply step_inj_state | by apply step_ok | by apply step_ok | by apply Forall_drop |].
  rewrite length_drop. lia.
Qed.

(** Inputs that differ in one block, or only in the incomplete block at the
    end, have different hashes. *)
Lemma ghash_single_block p b b' s h :
  ok h -> Forall is_byte p -> Forall is_byte b -> Forall is_byte b' -> Forall is_byte s ->
  (B | length p)%nat -> length b = length b' -> (length b = B \/ (length b < B)%nat /\ s = []) ->
  ghash (p ++ b ++ s) h = ghash (p ++ b' ++ s) h -> b = b'.
Proof using All.
  intros Hh Hp Hb Hb' Hs (m & Em) Hlen Hcase. unfold ghash. rewrite !length_app, <- Hlen.
  assert (Hdiv : ((length p + (length b + length s)) / B = m + (length b + length s) / B)%nat)
    by (rewrite Em, Nat.add_comm, Nat.div_add by lia; lia).
  rewrite Hdiv, !gbody_app by lia.
  destruct (gbody_ok m p h Hh Hp) as [Hok _]; [lia |]. set (h1 := fst (gbody m p h)) in *.
  destruct Hcase as [HbB | [Hlt ->]].
  - assert (Hd2 : ((length b + length s) / B = S (length s / B))%nat).
    { rewrite HbB. replace (B + length s)%nat with (length s + 1 * B)%nat by lia. rewrite Nat.div_add by lia. lia. }
    rewrite Hd2. cbn [gbody]. rewrite !take_app_length', !drop_app_length' by lia.
    assert (Hst : forall c, block B c -> ok (step h1 c)) by (intros; by apply step_ok).
    assert (Hbb : block B b /\ block B b') by (split; (split; [lia | done])). destruct Hbb as [Hbb Hbb'].
    assert (Hls : (B * (length s / B) <= length s)%nat) by apply Nat.Div0.mul_div_le.
    destruct (gbody_ok (length s / B) s (step h1 b) (Hst b Hbb) Hs Hls) as [O1 T1].
    destruct (gbody_ok (length s / B) s (step h1 b') (Hst b' Hbb') Hs Hls) as [O2 T2].
    destruct (gbody (length s / B) s (step h1 b)) as [h2 t2] eqn:G1.
    destruct (gbody (length s / B) s (step h1 b')) as [h3 t3] eqn:G2. cbn [fst snd] in *. subst t2 t3. intros E.
    apply (fin_inj_state _ _ _ (length s mod B)) in E; try done.
    2: { apply Nat.mod_upper_bound. lia. }
    2: { split; [rewrite length_drop; pose proof (Nat.div_mod_eq (length s) B); lia | by apply Forall_drop]. }
    subst h3. eapply (step_inj_block h1); try done. eapply (gbody_inj (length s / B) s); try done; [by apply Hst | by apply Hst |].
    by rewrite G1, G2.
  - rewrite !app_nil_r. cbn [length]. rewrite Nat.add_0_r, Nat.div_small by done. cbn [gbody].
    intros E. eapply (fin_inj_tail h1 _ _ (length b)); try done.
Qed.
End BlockHash.

(** ** Words from bytes *)

Lemma le_word_range bs : Forall is_byte bs -> 0 <= le_word bs < 2 ^ (8 * Z.of_nat (length bs)).
Proof.
  induction 1 as [| b bs Hb Hbs IH]; [cbn; lia |]. cbn [le_word length].
  replace (8 * Z.of_nat (S (length bs))) with (8 + 8 * Z.of_nat (length bs)) by lia.
  rewrite Z.pow_add_r by lia. unfold is_byte in Hb. change (2 ^ 8) with 256. lia.
Qed.

Lemma le_word_inj bs bs' :
  Forall is_byte bs -> Forall is_byte bs' -> length bs = length bs' -> le_word bs = le_word bs' -> bs = bs'.
Proof.
  intros Hb. revert bs'. induction Hb as [| b bs Hb Hbs IH]; intros [| b' bs'] Hb' Hl E; try done.
  apply List.Forall_cons_iff in Hb' as [Hb1 Hb2]. cbn in E, Hl. unfold is_byte in *.
  assert (b = b' /\ le_word bs = le_word bs') as [-> E'] by lia. f_equal. apply IH; try done. lia.
Qed.

Lemma le_word_snoc bs t :
  Forall is_byte bs -> is_byte t ->
  le_word (bs ++ [t]) = Z.lxor (Z.shiftl t (8 * Z.of_nat (length bs))) (le_word bs).
Proof.
  intros Hb Ht. pose proof (le_word_range bs Hb) as Hr.
  assert (Hsum : le_word (bs ++ [t]) = t * 2 ^ (8 * Z.of_nat (length bs)) + le_word bs).
  { clear Hr. induction Hb as [| b bs Hb1 Hbs IH]; [cbn; lia |]. cbn [app le_word length]. rewrite IH.
    replace (8 * Z.of_nat (S (length bs))) with (8 + 8 * Z.of_nat (length bs)) by lia.
    rewrite Z.pow_add_r by lia. change (2 ^ 8) with 256. lia. }
  rewrite Hsum, shiftl_pow by lia. rewrite <- Z.add_nocarry_lxor; [done |].
  apply Z.bits_inj'. intros i Hi. rewrite Z.land_spec, Z.bits_0, <- shiftl_pow by lia.
  destruct (Z_lt_le_dec i (8 * Z.of_nat (length bs))); [by rewrite Z.shiftl_spec_low |].
  rewrite (bits_above (le_word bs) (8 * Z.of_nat (length bs)) i) by lia. apply andb_false_r.
Qed.

(** The fall-through [switch] assembles the bytes it covers. *)
Lemma tail_word_spec tail lo : forall n k,
  Forall is_byte tail ->
  tail_word n (Z.of_nat lo) (Z.of_nat (length tail)) tail k = Ok (Z.lxor k (le_word (take n (drop lo tail)))).
Proof.
  induction n as [| n IH]; intros k Ht; cbn [tail_word].
  - cbn. by rewrite Z.lxor_0_r.
  - destruct (Z.leb_spec (Z.of_nat lo + Z.of_nat (S n)) (Z.of_nat (length tail))) as [Hle | Hgt].
    + destruct (rd_in_range tail (Z.of_nat lo + Z.of_nat n)) as (t & -> & Et); [lia |]. cbn [obind].
      rewrite IH by done. rewrite Z.lxor_assoc. f_equal. f_equal.
      replace (Z.to_nat (Z.of_nat lo + Z.of_nat n)) with (lo + n)%nat in Et by lia.
      rewrite <- lookup_drop in Et. rewrite (take_S_r _ _ t) by done.
      rewrite le_word_snoc.
      * by rewrite length_take_le by (rewrite length_drop; lia).
      * by apply Forall_take, Forall_drop.
      * assert (Hd : Forall is_byte (drop lo tail)) by (by apply Forall_drop).
        rewrite List.Forall_forall in Hd. by eapply Hd, list_elem_of_In, list_elem_of_lookup_2.
    + cbn [obind]. rewrite IH by done. by rewrite !take_ge by (rewrite length_drop; lia).
Qed.

Lemma land_len n k : 0 <= k <= 64 -> Z.land (u64 (Z.of_nat n)) (Z.ones k) = Z.of_nat n mod 2 ^ k.
Proof.
  intros Hk. rewrite Z.land_ones by lia. unfold u64. apply Z.mod_mod_divide.
  exists (2 ^ (64 - k)). rewrite <- Z.pow_add_r by lia. f_equal. lia.
Qed.

(** ** The 32-bit MurmurHash3 *)

Definition is_word (w x : Z) : Prop := 0 <= x < 2 ^ w.

Lemma rotl32_perm r : 0 < r < 32 -> perm 32 (fun x => rotl32 x r).
Proof. apply perm_rotl. Qed.

Lemma body32_step_perm k : is_word 32 k -> perm 32 (fun h => body32_step h k).
Proof.
  intros Hk. apply (perm_chain 32
    [(fun h => Z.lxor h (mix32 k)); (fun h => rotl32 h 13); (fun h => u32 (u32 (h * 5) + 0xe6546b64))]).
  repeat first [apply List.Forall_nil | apply List.Forall_cons].
  - apply perm_lxor; [lia | by apply mix32_perm].
  - apply rotl32_perm. lia.
  - perm_affine_by 32 5 0xe6546b64.
Qed.

Lemma body32_step_perm_block h : is_word 32 h -> perm 32 (fun k => body32_step h k).
Proof.
  intros Hh. apply (perm_chain 32
    [mix32; (fun k => Z.lxor h k); (fun h => rotl32 h 13); (fun h => u32 (u32 (h * 5) + 0xe6546b64))]).
  repeat first [apply List.Forall_nil | apply List.Forall_cons].
  - apply mix32_perm.
  - apply (perm_ext 32 _ (fun k => Z.lxor k h)); [intros; apply Z.lxor_comm | apply perm_lxor; [lia | done]].
  - apply rotl32_perm. lia.
  - perm_affine_by 32 5 0xe6546b64.
Qed.

Definition step32 (h : Z) (b : list Z) : Z := body32_step h (le_word b).

Definition fin32 (h : Z) (t : list Z) (len : nat) : Z :=
  fmix32 (u32 (Z.lxor (if (1 <=? length t)%nat then Z.lxor h (mix32 (le_word t)) else h) (u64 (Z.of_nat len)))).

Lemma block_word n b : block n b -> (n <= 4)%nat -> is_word 32 (le_word b).
Proof.
  intros [<- Hb] Hn. pose proof (le_word_range b Hb) as Hr. unfold is_word.
  assert (2 ^ (8 * Z.of_nat (length b)) <= 2 ^ 32) by (apply Z.pow_le_mono_r; lia). lia.
Qed.

Lemma fin32_perm len : perm 32 (fun h => fmix32 (u32 (Z.lxor h (u64 (Z.of_nat len))))).
Proof.
  apply (perm_chain 32 [(fun h => u32 (Z.lxor h (u64 (Z.of_nat len)))); fmix32]).
  repeat first [apply List.Forall_nil | apply List.Forall_cons]; [| apply fmix32_perm].
  apply (perm_ext 32 _ (fun h => Z.lxor h (u32 (u64 (Z.of_nat len))))).
  - intros h Hh. unfold u32. rewrite lxor_mod by lia. f_equal. by apply Z.mod_small.
  - apply perm_lxor; [lia | apply u32_range].
Qed.

Lemma body32_gbody n : forall data h,
  (4 * n <= length data)%nat -> body32 n data h = Ok (gbody 4 step32 n data h).
Proof.
  induction n as [| n IH]; intros data h Hl; cbn [body32 gbody]; [done |].
  unfold load. destruct (Nat.leb_spec 4 (length data)); [| lia]. cbn [obind].
  rewrite IH by (rewrite length_drop; lia). done.
Qed.

Lemma MurmurHash3_x86_32_ghash data seed :
  Forall is_byte data -> is_word 32 seed -> MurmurHash3_x86_32 data seed = Ok (ghash 4 step32 fin32 data seed).
Proof.
  intros Hd Hs. unfold MurmurHash3_x86_32, ghash.
  assert (Hle : (4 * (length data / 4) <= length data)%nat) by apply Nat.Div0.mul_div_le.
  rewrite body32_gbody by done. cbn [obind].
  destruct (gbody_ok (is_word 32) 4 step32 ltac:(lia)
    (fun h b Hh Hb => perm_range _ _ (body32_step_perm (le_word b) (block_word _ b Hb ltac:(lia))) h Hh)
    (length data / 4) data seed Hs Hd Hle) as [_ Ht].
  destruct (gbody 4 step32 (length data / 4) data seed) as [h t]. cbn [snd] in Ht.
  change 3 with (Z.ones 2). rewrite land_len by lia. change (2 ^ 2) with 4.
  assert (Hl : Z.of_nat (length t) = Z.of_nat (length data) mod 4).
  { rewrite Ht, length_drop. pose proof (Nat.div_mod_eq (length data) 4). rewrite <- (Nat2Z.inj_mod _ 4). lia. }
  assert (Hbt : Forall is_byte t) by (rewrite Ht; by apply Forall_drop).
  rewrite <- Hl. unfold fin32.
  destruct (Z.leb_spec 1 (Z.of_nat (length t))), (Nat.leb_spec 1 (length t)); try lia; [| done].
  rewrite (tail_word_spec t 0) by done. cbn [obind].
  rewrite drop_0, take_ge by (pose proof (Nat.mod_upper_bound (length data) 4); rewrite <- (Nat2Z.inj_mod _ 4) in Hl; lia).
  done.
Qed.

(** [MurmurHash3_x86_32] (and [memhash32]) never collides on inputs that
    differ in one aligned 4-byte block, or only in the incomplete block at
    their end: the hash is defined on both and the values differ. *)
Theorem MurmurHash3_x86_32_single_block p b b' s seed :
  Forall is_byte (p ++ b ++ s) -> Forall is_byte b' -> (4 | length p)%nat ->
  length b = length b' -> length b = 4%nat \/ (length b < 4)%nat /\ s = [] ->
  is_u32 seed -> b <> b' ->
  exists r r', MurmurHash3_x86_32 (p ++ b ++ s) seed = Ok r /\
    MurmurHash3_x86_32 (p ++ b' ++ s) seed = Ok r' /\ r <> r'.
Proof.
  intros Hall Hb' Hdiv Hlen Hcase Hseed Hne.
  rewrite (MurmurHash3_x86_32_ghash _ seed Hall Hseed).
  apply List.Forall_app in Hall as [Hp [Hb Hs]%List.Forall_app].
  rewrite (MurmurHash3_x86_32_ghash (p ++ b' ++ s) seed
    (Forall_app_2 _ _ _ Hp (Forall_app_2 _ _ _ Hb' Hs)) Hseed).
  eexists _, _. split; [reflexivity |]. split; [reflexivity |]. intros E. apply Hne.
  refine (ghash_single_block (is_word 32) 4 step32 fin32 ltac:(lia) _ _ _ _ _ p b b' s seed
    Hseed Hp Hb Hb' Hs Hdiv Hlen Hcase E).
  - intros h c Hh Hc. apply body32_step_perm; [| done]. by eapply block_word.
  - intros h h' c Hh Hh' Hc E'. apply (body32_step_perm (le_word c)) in E'; try done. by eapply block_word.
  - intros h c c' Hh [Hc1 Hc2] [Hc1' Hc2'] E'. apply le_word_inj; try done; [lia |].
    apply (body32_step_perm_block h) in E'; try done; (eapply block_word; [by split |]; lia).
  - intros h h' t n len Hh Hh' Hn Ht E'. unfold fin32 in E'.
    assert (Hm : is_word 32 (mix32 (le_word t))) by (apply mix32_perm; eapply block_word; [done | lia]).
    destruct (1 <=? length t)%nat; apply (fin32_perm len) in E'; try done; try (by apply lxor_range).
    by apply (perm_lxor 32 (mix32 (le_word t))) in E'.
  - intros h t t' n len Hh Hn [Ht1 Ht2] [Ht1' Ht2'] E'. unfold fin32 in E'. rewrite Ht1, Ht1' in E'.
    destruct (Nat.leb_spec 1 n).
    + assert (Hw : forall u, length u = n -> Forall is_byte u -> is_word 32 (le_word u))
        by (intros; eapply block_word; [by split |]; lia).
      apply (fin32_perm len) in E'; try (apply lxor_range; [lia | done | apply mix32_perm; by apply Hw]).
      rewrite !(Z.lxor_comm h) in E'. apply (perm_lxor 32 h) in E'; try done; try (apply mix32_perm; by apply Hw).
      apply mix32_perm in E'; try (by apply Hw). apply le_word_inj; try done. lia.
    + assert (n = 0%nat) as -> by lia. apply nil_length_inv in Ht1 as ->, Ht1' as ->. done.
Qed.

Lemma MurmurHash3_x86_32_single_block_witness :
  exists r r', MurmurHash3_x86_32 ([1; 2; 3; 4] ++ [5; 6; 7; 8] ++ [9]) MHASH_SEED = Ok r /\
    MurmurHash3_x86_32 ([1; 2; 3; 4] ++ [5; 6; 7; 9] ++ [9]) MHASH_SEED = Ok r' /\ r <> r'.
Proof.
  apply (MurmurHash3_x86_32_single_block [1; 2; 3; 4] [5; 6; 7; 8] [5; 6; 7; 9] [9] MHASH_SEED).
  - repeat constructor; unfold is_byte; lia.
  - repeat constructor; unfold is_byte; lia.
  - exists 1%nat. reflexivity.
  - reflexivity.
  - left. reflexivity.
  - unfold is_u32, MHASH_SEED. lia.
  - discriminate.
Defined.

(** ** The 128-bit MurmurHash3 *)

Definition is_pair (h : Z * Z) : Prop := is_word 64 h.1 /\ is_word 64 h.2.

Lemma rotl64_perm r : 0 < r < 64 -> perm 64 (fun x => rotl64 x r).
Proof. apply perm_rotl. Qed.

Lemma add64_perm c : perm 64 (fun x => u64 (x + c)).
Proof. perm_affine_by 64 1 c. Qed.

(** The update of one of the two words of the state. *)
Definition half_step (m c r : Z) (h other : Z) : Z :=
  let h := Z.lxor h m in
  let h := rotl64 h r in
  let h := u64 (h + other) in
  u64 (u64 (h * 5) + c).

Lemma half_step_perm m c r other :
  is_word 64 m -> 0 < r < 64 -> perm 64 (fun h => half_step m c r h other).
Proof.
  intros Hm Hr. apply (perm_chain 64
    [(fun h => Z.lxor h m); (fun h => rotl64 h r); (fun h => u64 (h + other)); (fun h => u64 (u64 (h * 5) + c))]).
  repeat first [apply List.Forall_nil | apply List.Forall_cons].
  - apply perm_lxor; [lia | done].
  - by apply rotl64_perm.
  - apply add64_perm.
  - perm_affine_by 64 5 c.
Qed.

(** The same update determines the mixed-in word. *)
Lemma half_step_inj_word m m' c r h other :
  is_word 64 m -> is_word 64 m' -> is_word 64 h -> 0 < r < 64 ->
  half_step m c r h other = half_step m' c r h other -> m = m'.
Proof.
  intros Hm Hm' Hh Hr E.
  assert (Hp : perm 64 (fun x => u64 (u64 (u64 (rotl64 x r + other) * 5) + c))).
  { apply (perm_chain 64 [(fun h => rotl64 h r); (fun h => u64 (h + other)); (fun h => u64 (u64 (h * 5) + c))]).
    repeat first [apply List.Forall_nil | apply List.Forall_cons];
      [by apply rotl64_perm | apply add64_perm | perm_affine_by 64 5 c]. }
  apply (perm_inj _ _ Hp) in E; try (by apply lxor_range). rewrite !(Z.lxor_comm h) in E.
  by apply (perm_lxor 64 h) in E.
Qed.

Lemma body64_step_halves h1 h2 k1 k2 :
  body64_step h1 h2 k1 k2 =
  let h1' := half_step (mix64_1 k1) 0x52dce729 27 h1 h2 in
  (h1', half_step (mix64_2 k2) 0x38495ab5 31 h2 h1').
Proof. reflexivity. Qed.

Definition step64 (h : Z * Z) (b : list Z) : Z * Z :=
  body64_step h.1 h.2 (le_word (take 8 b)) (le_word (drop 8 b)).

Lemma block_words b n :
  block n b -> (n <= 16)%nat -> is_word 64 (le_word (take 8 b)) /\ is_word 64 (le_word (drop 8 b)).
Proof.
  intros [Hl Hb] Hn. split.
  - pose proof (le_word_range (take 8 b) (Forall_take _ _ _ Hb)) as Hr. rewrite length_take in Hr.
    assert (2 ^ (8 * Z.of_nat (8 `min` length b)) <= 2 ^ 64) by (apply Z.pow_le_mono_r; lia). unfold is_word. lia.
  - pose proof (le_word_range (drop 8 b) (Forall_drop _ _ _ Hb)) as Hr. rewrite length_drop in Hr.
    assert (2 ^ (8 * Z.of_nat (length b - 8)) <= 2 ^ 64) by (apply Z.pow_le_mono_r; lia). unfold is_word. lia.
Qed.

Lemma step64_ok h b : is_pair h -> block 16 b -> is_pair (step64 h b).
Proof.
  intros [H1 H2] Hb. destruct (block_words b 16 Hb) as [W1 W2]; [lia |].
  pose proof (perm_range _ _ mix64_1_perm _ W1) as M1. pose proof (perm_range _ _ mix64_2_perm _ W2) as M2.
  unfold step64. rewrite body64_step_halves. cbn zeta. split; cbn [fst snd].
  - exact (perm_range _ _ (half_step_perm _ _ 27 _ M1 ltac:(lia)) _ H1).
  - exact (perm_range _ _ (half_step_perm _ _ 31 _ M2 ltac:(lia)) _ H2).
Qed.

Lemma step64_inj_state h h' b :
  is_pair h -> is_pair h' -> block 16 b -> step64 h b = step64 h' b -> h = h'.
Proof.
  destruct h as [h1 h2], h' as [h1' h2']. intros [H1 H2] [H1' H2'] Hb. cbn [fst snd] in *.
  destruct (block_words b 16 Hb) as [W1 W2]; [lia |].
  unfold step64. rewrite !body64_step_halves. cbn zeta. cbn [fst snd]. intros [= E1 E2]. rewrite E1 in E2.
  pose proof (perm_range _ _ mix64_1_perm _ W1) as M1. pose proof (perm_range _ _ mix64_2_perm _ W2) as M2.
  apply (perm_inj _ _ (half_step_perm _ _ 31 _ M2 ltac:(lia)) _ _ H2 H2') in E2 as ->.
  apply (perm_inj _ _ (half_step_perm _ _ 27 _ M1 ltac:(lia)) _ _ H1 H1') in E1 as ->. reflexivity.
Qed.

Lemma le_words_inj n b b' :
  block n b -> block n b' ->
  le_word (take 8 b) = le_word (take 8 b') -> le_word (drop 8 b) = le_word (drop 8 b') -> b = b'.
Proof.
  intros [Hl Hb] [Hl' Hb'] E1 E2. rewrite <- (take_drop 8 b), <- (take_drop 8 b'). f_equal.
  - apply le_word_inj; try done; try (by apply Forall_take). rewrite !length_take. lia.
  - apply le_word_inj; try done; try (by apply Forall_drop). rewrite !length_drop. lia.
Qed.

Lemma step64_inj_block h b b' :
  is_pair h -> block 16 b -> block 16 b' -> step64 h b = step64 h b' -> b = b'.
Proof.
  destruct h as [h1 h2]. intros [H1 H2] Hb Hb'. cbn [fst snd] in *.
  destruct (block_words b 16 Hb) as [W1 W2]; [lia |]. destruct (block_words b' 16 Hb') as [W1' W2']; [lia |].
  unfold step64. rewrite !body64_step_halves. cbn zeta. cbn [fst snd]. intros [= E1 E2]. rewrite E1 in E2.
  pose proof mix64_1_perm as P1. pose proof mix64_2_perm as P2.
  apply (half_step_inj_word _ _ _ _ _ _ (perm_range _ _ P2 _ W2) (perm_range _ _ P2 _ W2') H2) in E2; [| lia].
  apply (half_step_inj_word _ _ _ _ _ _ (perm_range _ _ P1 _ W1) (perm_range _ _ P1 _ W1') H1) in E1; [| lia].
  apply (le_words_inj 16 b b' Hb Hb').
  - exact (perm_inj _ _ P1 _ _ W1 W1' E1).
  - exact (perm_inj _ _ P2 _ _ W2 W2' E2).
Qed.

Definition fin64 (h : Z * Z) (t : list Z) (len : nat) : Z * Z :=
  let h2 := if (9 <=? length t)%nat then Z.lxor h.2 (mix64_2 (le_word (drop 8 t))) else h.2 in
  let h1 := if (1 <=? length t)%nat then Z.lxor h.1 (mix64_1 (le_word (take 8 t))) else h.1 in
  final64 h1 h2 (u64 (Z.of_nat len)).

Lemma u64_word x : is_word 64 (u64 x).
Proof. apply u64_range. Qed.

Lemma final64_inj len h1 h2 h1' h2' :
  is_word 64 h1 -> is_word 64 h2 -> is_word 64 h1' -> is_word 64 h2' -> is_word 64 len ->
  final64 h1 h2 len = final64 h1' h2' len -> h1 = h1' /\ h2 = h2'.
Proof.
  intros H1 H2 H1' H2' Hl. unfold final64. intros [= E1 E2].
  assert (Hadd : forall x y c, is_word 64 x -> is_word 64 y -> u64 (x + c) = u64 (y + c) -> x = y)
    by (intros x y c Hx Hy; by apply (add64_perm c)).
  rewrite E1 in E2.
  apply Hadd in E2; try (apply fmix64_perm, u64_word). rewrite E2 in E1.
  apply Hadd in E1; try (apply fmix64_perm, u64_word).
  apply fmix64_perm in E1, E2; try apply u64_word. rewrite E1 in E2.
  apply Hadd in E2; try (by apply lxor_range). rewrite E2 in E1.
  apply Hadd in E1; try (by apply lxor_range).
  split; by apply (perm_lxor 64 len).
Qed.

Lemma body64_gbody n : forall data h,
  (16 * n <= length data)%nat ->
  body64 n data h.1 h.2 = Ok (let (h', t) := gbody 16 step64 n data h in (h'.1, h'.2, t)).
Proof.
  induction n as [| n IH]; intros data h Hl; cbn [body64 gbody]; [done |].
  unfold load. destruct (Nat.leb_spec 8 (length data)); [| lia]. cbn [obind].
  destruct (Nat.leb_spec 8 (length (drop 8 data))) as [| Hlt]; [| rewrite length_drop in Hlt; lia]. cbn [obind].
  rewrite drop_drop. replace (take 8 data) with (take 8 (take 16 data)) by (rewrite take_take; f_equal; lia).
  replace (take 8 (drop 8 data)) with (drop 8 (take 16 data)) by (by rewrite skipn_firstn_comm).
  fold (step64 h (take 16 data)).
  specialize (IH (drop 16 data) (step64 h (take 16 data))). rewrite length_drop in IH.
  destruct (step64 h (take 16 data)) as [x y]. cbn [fst snd] in IH. rewrite <- IH by lia. done.
Qed.

Lemma MurmurHash3_x64_128_ghash data seed :
  Forall is_byte data -> is_word 64 seed ->
  MurmurHash3_x64_128 data seed = Ok (ghash 16 step64 fin64 data (seed, seed)).
Proof.
  intros Hd Hs. unfold MurmurHash3_x64_128, ghash.
  assert (Hle : (16 * (length data / 16) <= length data)%nat) by apply Nat.Div0.mul_div_le.
  change seed with ((seed, seed).1) at 1. change seed with ((seed, seed).2) at 3.
  rewrite body64_gbody by done.
  destruct (gbody_ok is_pair 16 step64 ltac:(lia) step64_ok (length data / 16) data (seed, seed)
    (conj Hs Hs) Hd Hle) as [_ Ht].
  destruct (gbody 16 step64 (length data / 16) data (seed, seed)) as [h t]. cbn [snd obind] in *.
  change 15 with (Z.ones 4). rewrite land_len by lia. change (2 ^ 4) with 16.
  assert (Hl : Z.of_nat (length t) = Z.of_nat (length data) mod 16).
  { rewrite Ht, length_drop. pose proof (Nat.div_mod_eq (length data) 16). rewrite <- (Nat2Z.inj_mod _ 16). lia. }
  assert (Hbt : Forall is_byte t) by (rewrite Ht; by apply Forall_drop).
  assert (Hl16 : (length t < 16)%nat)
    by (pose proof (Nat.mod_upper_bound (length data) 16); rewrite <- (Nat2Z.inj_mod _ 16) in Hl; lia).
  rewrite <- Hl. unfold fin64. rewrite (tail_word_spec t 8), (tail_word_spec t 0) by done. cbn [obind].
  rewrite drop_0, !Z.lxor_0_l, (take_ge (drop 8 t) 7) by (rewrite length_drop; lia).
  destruct (Z.leb_spec 9 (Z.of_nat (length t))), (Nat.leb_spec 9 (length t)); try lia; cbn [obind];
    (destruct (Z.leb_spec 1 (Z.of_nat (length t))), (Nat.leb_spec 1 (length t)); try lia; done).
Qed.

(** [MurmurHash3_x64_128], the function behind [memhash] and
    [memhash_seed], never collides on inputs that differ in one aligned
    16-byte block, or only in the incomplete block at their end. *)
Theorem MurmurHash3_x64_128_single_block p b b' s seed :
  Forall is_byte (p ++ b ++ s) -> Forall is_byte b' -> (16 | length p)%nat ->
  length b = length b' -> length b = 16%nat \/ (length b < 16)%nat /\ s = [] ->
  is_u32 seed -> b <> b' ->
  exists r r', MurmurHash3_x64_128 (p ++ b ++ s) seed = Ok r /\
    MurmurHash3_x64_128 (p ++ b' ++ s) seed = Ok r' /\ r <> r'.
Proof.
  intros Hall Hb' Hdiv Hlen Hcase Hseed Hne.
  assert (Hw : is_word 64 seed) by (unfold is_u32, is_word in *; lia).
  rewrite (MurmurHash3_x64_128_ghash _ seed Hall Hw).
  apply List.Forall_app in Hall as [Hp [Hb Hs]%List.Forall_app].
  rewrite (MurmurHash3_x64_128_ghash (p ++ b' ++ s) seed
    (Forall_app_2 _ _ _ Hp (Forall_app_2 _ _ _ Hb' Hs)) Hw).
  eexists _, _. split; [reflexivity |]. split; [reflexivity |]. intros E. apply Hne.
  refine (ghash_single_block is_pair 16 step64 fin64 ltac:(lia) step64_ok step64_inj_state step64_inj_block _ _
    p b b' s (seed, seed) (conj Hw Hw) Hp Hb Hb' Hs Hdiv Hlen Hcase E).
  - intros [h1 h2] [h1' h2'] t n len [H1 H2] [H1' H2'] Hn Ht. unfold fin64. cbn [fst snd] in *. intros E'.
    destruct (block_words t n Ht) as [W1 W2]; [lia |].
    assert (M1 : is_word 64 (mix64_1 (le_word (take 8 t)))) by (by apply mix64_1_perm).
    assert (M2 : is_word 64 (mix64_2 (le_word (drop 8 t)))) by (by apply mix64_2_perm).
    apply final64_inj in E' as [E1 E2]; try apply u64_word;
      try (destruct (1 <=? length t)%nat; [by apply lxor_range | done]);
      try (destruct (9 <=? length t)%nat; [by apply lxor_range | done]).
    f_equal.
    + destruct (1 <=? length t)%nat; [| done]. by apply (perm_lxor 64 (mix64_1 (le_word (take 8 t)))) in E1.
    + destruct (9 <=? length t)%nat; [| done]. by apply (perm_lxor 64 (mix64_2 (le_word (drop 8 t)))) in E2.
  - intros [h1 h2] t t' n len [H1 H2] Hn Ht Ht'. unfold fin64. cbn [fst snd] in *. intros E'.
    destruct (block_words t n Ht) as [W1 W2]; [lia |]. destruct (block_words t' n Ht') as [W1' W2']; [lia |].
    pose proof Ht as [Hl _]. pose proof Ht' as [Hl' _]. rewrite Hl, Hl' in E'.
    assert (M : forall f x, perm 64 f -> is_word 64 x -> is_word 64 (f x)) by (intros f x Hf Hx; by apply Hf).
    pose proof mix64_1_perm as P1. pose proof mix64_2_perm as P2.
    apply final64_inj in E' as [E1 E2]; try apply u64_word;
      try (destruct (1 <=? n)%nat; [apply lxor_range; [lia | done | by apply M] | done]);
      try (destruct (9 <=? n)%nat; [apply lxor_range; [lia | done | by apply M] | done]).
    assert (X : forall f h x y, perm 64 f -> is_word 64 h -> is_word 64 x -> is_word 64 y ->
      Z.lxor h (f x) = Z.lxor h (f y) -> x = y).
    { intros f h x y Hf Hh Hx Hy Ex. rewrite !(Z.lxor_comm h) in Ex.
      apply (perm_lxor 64 h) in Ex; try done; try (by apply M). by apply Hf in Ex. }
    apply (le_words_inj n); try done.
    + destruct (Nat.leb_spec 1 n); [by apply (X mix64_1 h1) |].
      assert (n = 0%nat) as -> by lia. apply nil_length_inv in Hl as ->, Hl' as ->. done.
    + destruct (Nat.leb_spec 9 n); [by apply (X mix64_2 h2) |]. by rewrite !drop_ge by lia.
Qed.

Lemma MurmurHash3_x64_128_single_block_witness :
  exists r r', MurmurHash3_x64_128 ([] ++ [5; 6; 7; 8] ++ []) MHASH_SEED = Ok r /\
    MurmurHash3_x64_128 ([] ++ [5; 6; 7; 9] ++ []) MHASH_SEED = Ok r' /\ r <> r'.
Proof.
  apply (MurmurHash3_x64_128_single_block [] [5; 6; 7; 8] [5; 6; 7; 9] [] MHASH_SEED).
  - repeat constructor; unfold is_byte; lia.
  - repeat constructor; unfold is_byte; lia.
  - exists 0%nat. reflexivity.
  - reflexivity.
  - right. split; [repeat constructor | reflexivity].
  - unfold is_u32, MHASH_SEED. lia.
  - discriminate.
Defined.

(** the integer hashes do not collide: [int64hash] is injective on 64-bit
    words and [int32hash] on 32-bit words, and so are the finalizers [fmix32]
    and [fmix64]; [int64to32hash] is the truncation of an injective mix; the
    results are words of the same width. *)
Theorem integer_hashes_injective :
  (forall x y, is_u64 x -> is_u64 y -> int64hash x = int64hash y -> x = y) /\
  (forall x y, is_u32 x -> is_u32 y -> int32hash x = int32hash y -> x = y) /\
  (forall x y, is_u32 x -> is_u32 y -> fmix32 x = fmix32 y -> x = y) /\
  (forall x y, is_u64 x -> is_u64 y -> fmix64 x = fmix64 y -> x = y) /\
  (forall x y, is_u64 x -> is_u64 y -> int64to32mix x = int64to32mix y -> x = y) /\
  (forall x, is_u64 x -> is_u64 (int64hash x)) /\ (forall x, is_u32 x -> is_u32 (int32hash x)).
Proof.
  split_and!.
  - apply int64hash_perm.
  - apply int32hash_perm.
  - apply fmix32_perm.
  - apply fmix64_perm.
  - apply int64to32mix_perm.
  - apply int64hash_perm.
  - apply int32hash_perm.
Qed.
