(* ===== verification/Engine.v ===== *)
(** * The inference engine's leases (engine.c)

    Threads that infer the same method instance coordinate through leases:
    [jl_engine_reserve] takes the lease for a [(mi, owner)] pair, or waits
    until it is released, unless waiting would close a cycle of threads that
    wait for each other; [jl_engine_fulfill] and [jl_engine_sweep] release
    leases.  All of it happens under [engine_lock], so the model's atomic steps
    are the stretches of code between taking the lock (or returning from
    [uv_cond_wait]) and releasing it (or waiting).

    The pointer tables of support/htable.c are used as finite maps. *)

From stdpp Require Import base gmap list numbers option relations.
From Stdlib Require Import ZArith Lia.
From S2P Require Import Prelude.

Record infer_key := InferKey { k_mi : Z; k_owner : Z }.

#[global] Instance infer_key_eq_dec : EqDecision infer_key.
Proof. solve_decision. Defined.

Record reservation_info := Reservation { r_tid : Z; r_ci : Z }.

(** The state behind [engine_lock]: the two tables, [awaiting] indexed by
    thread id with [NULL] entries as [None], and the [engine_nqueued] counter
    of each thread. *)
Record engine := Engine {
  native_reservations : gmap Z reservation_info;
  foreign_reservations : gmap Z (gmap Z reservation_info);
  awaiting : list (option infer_key);
  engine_nqueued : gmap Z Z
}.

Definition with_nqueued (st : engine) (tid d : Z) : engine :=
  Engine (native_reservations st) (foreign_reservations st) (awaiting st)
    (<[tid := default 0 (engine_nqueued st !! tid) + d]> (engine_nqueued st)).

Definition with_awaiting (st : engine) (l : list (option infer_key)) : engine :=
  Engine (native_reservations st) (foreign_reservations st) l (engine_nqueued st).

(** How [jl_engine_reserve] leaves its loop, or that it waits. *)
Inductive reserve_result := Reserved | Cycle | Blocked.

Section Engine.
Context (jl_nothing : Z).

Definition jl_init_engine : engine := Engine ∅ ∅ [] ∅.

(** Replaces the table of an owner. *)
Definition set_reservations (st : engine) (owner : Z) (m : gmap Z reservation_info) : engine :=
  if owner =? jl_nothing then
    Engine m (foreign_reservations st) (awaiting st) (engine_nqueued st)
  else
    Engine (native_reservations st) (<[owner := m]> (foreign_reservations st)) (awaiting st) (engine_nqueued st).

(** The table, created if it is not there yet. *)
Definition reservation_map_for_owner (st : engine) (owner : Z) : gmap Z reservation_info * engine :=
  if owner =? jl_nothing then (native_reservations st, st)
  else
    match foreign_reservations st !! owner with
    | Some m => (m, st)
    | None => (∅, set_reservations st owner ∅)
    end.

Definition get_reservation (st : engine) (mi owner : Z) : option reservation_info * engine :=
  let (reservations, st) := reservation_map_for_owner st owner in
  (reservations !! mi, st).

Definition remove_reservation (st : engine) (mi owner : Z) : engine :=
  let (reservations, st) := reservation_map_for_owner st owner in
  set_reservations st owner (delete mi reservations).

(** The existing reservation, or the new one with [inserted] set. *)
Definition try_insert_reservation (st : engine) (key : infer_key) (to_insert : reservation_info)
    : reservation_info * bool * engine :=
  let (reservations, st) := reservation_map_for_owner st (k_owner key) in
  match reservations !! k_mi key with
  | None => (to_insert, true, set_reservations st (k_owner key) (<[k_mi key := to_insert]> reservations))
  | Some info => (info, false, st)
  end.

(** The inner loop: does the chain of waiting threads from [wait_tid] lead back
    to [tid]? *)
Fixpoint cycle_walk (fuel : nat) (st : engine) (tid wait_tid : Z) : outcome (bool * engine) :=
  match fuel with
  | O => Timeout
  | S fuel' =>
      if wait_tid =? tid then Ok (true, st)
      else if Z.of_nat (length (awaiting st)) <=? wait_tid then Ok (false, st)
      else
        let! key2 := rd (awaiting st) wait_tid in
        match key2 with
        | None => Ok (false, st)
        | Some key2 =>
            let (info2, st) := get_reservation st (k_mi key2) (k_owner key2) in
            match info2 with
            | None => Ok (false, st)
            | Some info2 =>
                if wait_tid =? r_tid info2 then UB
                else cycle_walk fuel' st tid (r_tid info2)
            end
        end
  end.

(** One iteration of the loop of [jl_engine_reserve], until it returns or
    waits. *)
Definition reserve_attempt (st : engine) (tid : Z) (key : infer_key) (ci : Z)
    : outcome (reserve_result * engine) :=
  let '(info, inserted, st) := try_insert_reservation st key (Reservation tid ci) in
  if inserted then Ok (Reserved, st)
  else
    let! (cond, st) := cycle_walk (S (length (awaiting st))) st tid (r_tid info) in
    if (cond : bool) then Ok (Cycle, with_nqueued st tid (-1))
    else
      let! l := wr (awaiting st) tid (Some key) in
      Ok (Blocked, with_awaiting st l).

(** The call up to its return or its first wait. *)
Definition jl_engine_reserve (st : engine) (tid : Z) (key : infer_key) (ci : Z)
    : outcome (reserve_result * engine) :=
  let st := with_nqueued st tid 1 in
  let max_tid := Z.of_nat (length (awaiting st)) in
  let st :=
    if max_tid <? tid + 1 then
      with_awaiting st (awaiting st ++ replicate (Z.to_nat (tid + 1 - max_tid)) None)
    else st in
  reserve_attempt st tid key ci.

(** The call from its return from [uv_cond_wait] to its next wait or its
    end. *)
Definition reserve_wake (st : engine) (tid : Z) (key : infer_key) (ci : Z)
    : outcome (reserve_result * engine) :=
  let! l := wr (awaiting st) tid None in
  reserve_attempt (with_awaiting st l) tid key ci.

Definition jl_engine_hasreserved (st : engine) (tid : Z) (key : infer_key) : bool * engine :=
  let (info, st) := get_reservation st (k_mi key) (k_owner key) in
  match info with
  | Some info => (r_tid info =? tid, st)
  | None => (false, st)
  end.

(** [gc_marked] of the code instance a reservation holds. *)
Definition swept (marked : Z -> bool) (info : reservation_info) : bool := negb (marked (r_ci info)).

(** What [sweep_reservations] leaves in a table, and the threads that lost a
    lease. *)
Definition sweep_reservations (marked : Z -> bool) (h : gmap Z reservation_info)
    : gmap Z reservation_info * list Z :=
  (filter (fun p => swept marked p.2 = false) h,
   map (fun p => r_tid p.2) (List.filter (fun p => swept marked p.2) (map_to_list h))).

Definition jl_engine_sweep (st : engine) (marked : Z -> bool) : engine :=
  let (native, lost) := sweep_reservations marked (native_reservations st) in
  let foreign := (fun m => (sweep_reservations marked m).1) <$> foreign_reservations st in
  let lost' := concat (map (fun p => (sweep_reservations marked p.2).2) (map_to_list (foreign_reservations st))) in
  Engine native foreign (awaiting st)
    (foldr (fun tid n => <[tid := default 0 (n !! tid) - 1]> n) (engine_nqueued st) (lost ++ lost')).

(** [key] is the [(mi, owner)] pair stored in the code instance [ci]. *)
Definition jl_engine_fulfill (st : engine) (tid : Z) (key : infer_key) (ci : Z) : outcome engine :=
  let (info, st) := get_reservation st (k_mi key) (k_owner key) in
  match info with
  | None => Ok st
  | Some info =>
      if negb (r_ci info =? ci) then Ok st
      else if negb (tid =? r_tid info) then UB
      else
        let st := with_nqueued st tid (-1) in
        Ok (remove_reservation st (k_mi key) (k_owner key))
  end.

(** ** Interleavings

    A configuration is the shared state with, for each thread blocked inside
    [jl_engine_reserve], the arguments of its call. *)
Record config := Config { shared : engine; blocked : gmap Z (infer_key * Z) }.

(** The configuration after a segment of thread [tid]'s call. *)
Definition after (tid : Z) (key : infer_key) (ci : Z) (bl : gmap Z (infer_key * Z)) (r : reserve_result) (st : engine)
    : config :=
  match r with
  | Blocked => Config st (<[tid := (key, ci)]> bl)
  | _ => Config st (delete tid bl)
  end.

(** Thread ids are non-negative; a thread runs at most one call at a time; a
    waiting thread may wake up at any time, as [uv_cond_wait] allows. *)
Inductive step : config -> config -> Prop :=
| step_reserve st bl tid key ci r st' :
    0 <= tid -> bl !! tid = None ->
    jl_engine_reserve st tid key ci = Ok (r, st') ->
    step (Config st bl) (after tid key ci bl r st')
| step_wake st bl tid key ci r st' :
    bl !! tid = Some (key, ci) ->
    reserve_wake st tid key ci = Ok (r, st') ->
    step (Config st bl) (after tid key ci bl r st')
| step_fulfill st bl tid key ci st' :
    bl !! tid = None ->
    jl_engine_fulfill st tid key ci = Ok st' ->
    step (Config st bl) (Config st' bl)
| step_sweep st bl marked :
    step (Config st bl) (Config (jl_engine_sweep st marked) bl)
| step_hasreserved st bl tid key :
    step (Config st bl) (Config (jl_engine_hasreserved st tid key).2 bl).

Definition initial : config := Config jl_init_engine ∅.

Definition reachable (c : config) : Prop := rtc step initial c.
End Engine.
