(* ===== verification/EngineFacts.v ===== *)
(** * The engine cannot deadlock

    A thread that waits has an edge to the thread that holds the lease it
    waits for.  In every reachable configuration these edges form no cycle,
    so the cycle search of [jl_engine_reserve] terminates with the right
    answer and every waiting thread waits, in the end, for a running one. *)

From stdpp Require Import base gmap list numbers option relations.
From Stdlib Require Import ZArith Lia.
From S2P Require Import Prelude Engine.

Section EngineFacts.
Context (jl_nothing : Z).
Implicit Types (st : engine) (key : infer_key).

(** The reservation of a key. *)
Definition resv st key : option reservation_info :=
  if k_owner key =? jl_nothing then native_reservations st !! k_mi key
  else default ∅ (foreign_reservations st !! k_owner key) !! k_mi key.

(** States with the same reservations and waiting threads; creating an empty
    table does not matter. *)
Definition same st st' : Prop := (forall key, resv st' key = resv st key) /\ awaiting st' = awaiting st.

#[local] Instance same_equiv : Equivalence same.
Proof.
  split; [by split | intros x y [H1 H2]; by split | intros x y z [H1 H2] [H3 H4]; split; [| congruence]].
  intros key. by rewrite H3, H1.
Qed.

Lemma resv_set_reservations st owner m key :
  resv (set_reservations jl_nothing st owner m) key =
  if k_owner key =? owner then m !! k_mi key else resv st key.
Proof.
  unfold resv, set_reservations. destruct (Z.eqb_spec owner jl_nothing) as [-> | Hne]; cbn.
  - by destruct (Z.eqb_spec (k_owner key) jl_nothing).
  - destruct (Z.eqb_spec (k_owner key) owner) as [-> | Hne'].
    + destruct (Z.eqb_spec owner jl_nothing); [done |]. by rewrite lookup_insert_eq.
    + destruct (Z.eqb_spec (k_owner key) jl_nothing); [done |]. by rewrite lookup_insert_ne.
Qed.

Lemma awaiting_set_reservations st owner m : awaiting (set_reservations jl_nothing st owner m) = awaiting st.
Proof. unfold set_reservations. by destruct (owner =? jl_nothing). Qed.

Lemma reservation_map_spec st owner :
  exists m st', reservation_map_for_owner jl_nothing st owner = (m, st') /\ same st st' /\
    forall mi, m !! mi = resv st (InferKey mi owner).
Proof.
  unfold reservation_map_for_owner, resv. cbn. destruct (Z.eqb_spec owner jl_nothing) as [-> | Hne].
  - eexists _, _. split; [reflexivity |]. split; [reflexivity | done].
  - destruct (foreign_reservations st !! owner) as [m |] eqn:E; eexists _, _; (split; [reflexivity |]).
    + split; [reflexivity | done].
    + split; [| done]. split; [| apply awaiting_set_reservations]. intros key.
      rewrite resv_set_reservations. unfold resv.
      destruct (Z.eqb_spec (k_owner key) owner) as [-> |]; [| done].
      destruct (Z.eqb_spec owner jl_nothing); [done |]. by rewrite E.
Qed.

Lemma get_reservation_spec st mi owner :
  exists st', get_reservation jl_nothing st mi owner = (resv st (InferKey mi owner), st') /\ same st st'.
Proof.
  unfold get_reservation. destruct (reservation_map_spec st owner) as (m & st' & -> & Hs & Hm).
  exists st'. by rewrite Hm.
Qed.

Lemma infer_key_eta key : InferKey (k_mi key) (k_owner key) = key.
Proof. by destruct key. Qed.

Lemma set_resv_key st owner m mi o key :
  (forall mi', m !! mi' = resv st (InferKey mi' owner)) ->
  resv (set_reservations jl_nothing st owner (partial_alter (fun _ => o) mi m)) key =
  if decide (key = InferKey mi owner) then o else resv st key.
Proof.
  intros Hm. rewrite resv_set_reservations. destruct (Z.eqb_spec (k_owner key) owner) as [E | Hne].
  - destruct (decide (key = InferKey mi owner)) as [-> | Hk]; cbn; [by rewrite lookup_partial_alter_eq |].
    rewrite lookup_partial_alter_ne.
    + by rewrite Hm, <- E, infer_key_eta.
    + intros E'. apply Hk. by rewrite E', <- E, infer_key_eta.
  - rewrite decide_False; [done |]. intros ->. by apply Hne.
Qed.

Lemma same_resv st st' key : same st st' -> resv st' key = resv st key.
Proof. intros [H _]. apply H. Qed.

Lemma try_insert_spec st key new :
  (exists info st', resv st key = Some info /\
     try_insert_reservation jl_nothing st key new = (info, false, st') /\ same st st') \/
  (exists st', resv st key = None /\ try_insert_reservation jl_nothing st key new = (new, true, st') /\
     awaiting st' = awaiting st /\ forall k, resv st' k = if decide (k = key) then Some new else resv st k).
Proof.
  unfold try_insert_reservation. destruct (reservation_map_spec st (k_owner key)) as (m & st' & -> & Hs & Hm).
  rewrite Hm, infer_key_eta. destruct (resv st key) as [info |] eqn:E; [left | right].
  - exists info, st'. done.
  - eexists. split; [done |]. split; [reflexivity |].
    split; [rewrite awaiting_set_reservations; apply Hs |].
    intros k. unfold insert, map_insert. rewrite set_resv_key by (intros; rewrite (same_resv _ _ _ Hs); apply Hm).
    rewrite infer_key_eta. destruct (decide (k = key)); [done | by apply same_resv].
Qed.

Lemma remove_spec st key :
  awaiting (remove_reservation jl_nothing st (k_mi key) (k_owner key)) = awaiting st /\
  forall k, resv (remove_reservation jl_nothing st (k_mi key) (k_owner key)) k =
    if decide (k = key) then None else resv st k.
Proof.
  unfold remove_reservation. destruct (reservation_map_spec st (k_owner key)) as (m & st' & -> & Hs & Hm).
  split; [rewrite awaiting_set_reservations; apply Hs |].
  intros k. unfold delete, map_delete. rewrite set_resv_key by (intros; rewrite (same_resv _ _ _ Hs); apply Hm).
  rewrite infer_key_eta. destruct (decide (k = key)); [done | by apply same_resv].
Qed.

Lemma sweep_resv st marked key :
  resv (jl_engine_sweep st marked) key =
  match resv st key with Some info => if swept marked info then None else Some info | None => None end.
Proof.
  assert (Hf : forall (h : gmap Z reservation_info) mi,
    (sweep_reservations marked h).1 !! mi =
    match h !! mi with Some info => if swept marked info then None else Some info | None => None end).
  { intros h mi. unfold sweep_reservations. cbn [fst]. destruct (h !! mi) as [info |] eqn:E.
    - destruct (swept marked info) eqn:Es.
      + apply map_lookup_filter_None. right. intros x Ex. cbn. congruence.
      + apply map_lookup_filter_Some. done.
    - apply map_lookup_filter_None. by left. }
  unfold resv, jl_engine_sweep. cbn. destruct (k_owner key =? jl_nothing); [apply Hf |].
  rewrite lookup_fmap. destruct (foreign_reservations st !! k_owner key) as [m |]; cbn [fmap option_fmap option_map default].
  - apply Hf.
  - by rewrite !lookup_empty.
Qed.

(** ** The waits-for graph *)

Definition waits st (t : Z) key : Prop := 0 <= t /\ awaiting st !! Z.to_nat t = Some (Some key).

Definition edge st (t u : Z) : Prop := exists key info, waits st t key /\ resv st key = Some info /\ r_tid info = u.

Definition acyclic st : Prop := forall t, ~ tc (edge st) t t.

Lemma edge_functional st t u v : edge st t u -> edge st t v -> u = v.
Proof.
  intros (k1 & i1 & [_ H1] & E1 & <-) (k2 & i2 & [_ H2] & E2 & <-).
  rewrite H1 in H2. injection H2 as ->. congruence.
Qed.

Lemma tc_mono {A} (R R' : relation A) x y : (forall a b, R a b -> R' a b) -> tc R x y -> tc R' x y.
Proof. intros H. induction 1 as [x y Hxy | x y z Hxy _ IH]; [apply tc_once; auto | eapply tc_l; eauto]. Qed.

Lemma rtc_mono {A} (R R' : relation A) x y : (forall a b, R a b -> R' a b) -> rtc R x y -> rtc R' x y.
Proof. intros H. induction 1 as [x | x y z Hxy _ IH]; [done | eapply rtc_l; eauto]. Qed.

(** Every edge of a cycle through [x] starts from a node of the cycle. *)
Lemma acyclic_sub {A} (R R' : relation A) (t : A) :
  (forall x, ~ tc R x x) -> (forall x, ~ R' t x) -> (forall x y, R' x y -> R x y \/ y = t) -> forall x, ~ tc R' x x.
Proof.
  intros Hac Ht Hsub x Hc.
  assert (Hgen : forall a b, tc R' a b -> b <> t -> tc R a b).
  { induction 1 as [a b Hab | a b c Hab Hbc IH]; intros Hne.
    - destruct (Hsub a b Hab); [by apply tc_once | done].
    - destruct (Hsub a b Hab) as [HR | ->]; [eapply tc_l; [done | by apply IH] |].
      exfalso. inversion Hbc as [? ? H1 | ? y ? H1 _]; subst; by apply Ht in H1. }
  assert (x <> t) as Hne.
  { intros ->. inversion Hc as [? ? H1 | ? y ? H1 _]; subst; by apply Ht in H1. }
  by apply (Hac x), Hgen.
Qed.

(** Adding an edge [t -> h] closes no cycle when [h] does not reach [t]. *)
Lemma acyclic_add {A} (R R' : relation A) (t h : A) :
  (forall x, ~ tc R x x) -> ~ rtc R h t -> (forall x y, R' x y -> R x y \/ (x = t /\ y = h)) -> forall x, ~ tc R' x x.
Proof.
  intros Hac Hht Hsub x Hc.
  assert (Hgen : forall a b, tc R' a b -> tc R a b \/ (rtc R a t /\ rtc R h b)).
  { induction 1 as [a b Hab | a b c Hab _ IH].
    - destruct (Hsub a b Hab) as [HR | [-> ->]]; [left; by apply tc_once | by right].
    - destruct (Hsub a b Hab) as [HR | [-> ->]], IH as [IH | [IH1 IH2]].
      + left. by eapply tc_l.
      + right. split; [by eapply rtc_l | done].
      + right. split; [done | by apply tc_rtc].
      + by destruct Hht. }
  destruct (Hgen x x Hc) as [H | [H1 H2]]; [by apply (Hac x) | apply Hht; by trans x].
Qed.

Lemma NoDup_range_length (l : list Z) n :
  NoDup l -> (forall x, x ∈ l -> 0 <= x < Z.of_nat n) -> (length l <= n)%nat.
Proof.
  intros Hnd Hr. rewrite <- (Nat2Z.id n), <- (length_seqZ 0 (Z.of_nat n)).
  apply submseteq_length, NoDup_submseteq; [done |]. intros x Hx. apply elem_of_seqZ. specialize (Hr x Hx). lia.
Qed.

Lemma waits_bound st t key : waits st t key -> 0 <= t < Z.of_nat (length (awaiting st)).
Proof. intros [Ht H]. apply lookup_lt_Some in H. lia. Qed.

Lemma edge_bound st t u : edge st t u -> 0 <= t < Z.of_nat (length (awaiting st)).
Proof. intros (key & info & H & _). by eapply waits_bound. Qed.

Lemma edge_same st st' t u : same st st' -> edge st' t u <-> edge st t u.
Proof.
  intros [Hr Ha]. unfold edge, waits. rewrite Ha. split; intros (k & i & H1 & H2 & H3); exists k, i; by rewrite Hr in *.
Qed.

(** A walk along the edges that has visited [l] and stands at [w]. *)
Definition visited st (l : list Z) (w : Z) : Prop := NoDup l /\ forall v, v ∈ l -> tc (edge st) v w.

Lemma visited_length st l w : visited st l w -> (length l <= length (awaiting st))%nat.
Proof.
  intros [Hnd Hv]. apply NoDup_range_length; [done |]. intros x Hx. specialize (Hv x Hx).
  inversion Hv; subst; by eapply edge_bound.
Qed.

Lemma visited_step st l w u : acyclic st -> visited st l w -> edge st w u -> visited st (w :: l) u.
Proof.
  intros Hac [Hnd Hv] He. split.
  - constructor; [| done]. intros Hw. by apply (Hac w), Hv.
  - intros v [-> | Hin]%elem_of_cons; [by apply tc_once | eapply tc_r; eauto].
Qed.

Lemma no_edge_rtc st w t : (forall u, ~ edge st w u) -> rtc (edge st) w t -> w = t.
Proof. intros Hn H. inversion H; subst; [done | by apply Hn in H0]. Qed.

(** The holders of leases are threads [awaiting] has room for. *)
Definition holders_in_range st : Prop :=
  forall key info, resv st key = Some info -> 0 <= r_tid info < Z.of_nat (length (awaiting st)).

Lemma cycle_walk_correct st0 tid : acyclic st0 -> holders_in_range st0 ->
  forall fuel l w st, same st0 st -> visited st0 l w -> 0 <= w ->
    (S (length (awaiting st0)) <= fuel + length l)%nat ->
    exists b st', cycle_walk jl_nothing fuel st tid w = Ok (b, st') /\ same st0 st' /\ (b = true <-> rtc (edge st0) w tid).
Proof.
  intros Hac Hr. induction fuel as [| fuel IH]; intros l w st Hs Hv Hw Hf.
  { apply visited_length in Hv. lia. }
  cbn [cycle_walk]. destruct (Z.eqb_spec w tid) as [-> | Hne]; [by exists true, st |].
  assert (Hstop : (forall u, ~ edge st0 w u) -> (false = true <-> rtc (edge st0) w tid)).
  { intros Hn. split; [done |]. intros H. by destruct Hne; eapply no_edge_rtc. }
  destruct Hs as [Hsr Hsa]. rewrite Hsa. destruct (Z.leb_spec (Z.of_nat (length (awaiting st0))) w) as [Hge | Hlt].
  { exists false, st. split; [done |]. split; [done |]. apply Hstop. intros u He%edge_bound. lia. }
  destruct (lookup_lt_is_Some_2 (awaiting st0) (Z.to_nat w)) as [o Ho]; [lia |].
  rewrite (proj2 (rd_lookup _ _ _)) by (split; [exact Hw | exact Ho]). cbn [obind].
  destruct o as [key2 |].
  2:{ exists false, st. split; [done |]. split; [done |]. apply Hstop. intros u (k & i & [_ H] & _). congruence. }
  destruct (get_reservation_spec st (k_mi key2) (k_owner key2)) as (st' & -> & Hs').
  rewrite infer_key_eta. assert (Hs0 : same st0 st') by (etrans; [split; [exact Hsr | exact Hsa] | done]).
  rewrite Hsr. destruct (resv st0 key2) as [info2 |] eqn:E2.
  2:{ exists false, st'. split; [done |]. split; [done |]. apply Hstop.
      intros u (k & i & [_ H] & E & _). rewrite Ho in H. injection H as ->. congruence. }
  assert (He : edge st0 w (r_tid info2)) by (exists key2, info2; done).
  destruct (Z.eqb_spec w (r_tid info2)) as [Heq | Hneq].
  { destruct (Hac w). apply tc_once. by rewrite <- Heq in He. }
  destruct (IH (w :: l) (r_tid info2) st') as (b & st'' & Hw' & Hs'' & Hb); [done | by apply visited_step | | cbn; lia |].
  { by apply Hr in E2 as []. }
  exists b, st''. split; [done |]. split; [done |]. rewrite Hb. split; intros H; [by eapply rtc_l |].
  inversion H as [| ? u ? He' Hr']; subst; [done |]. by rewrite (edge_functional _ _ _ _ He He').
Qed.

(** What one segment of [jl_engine_reserve] does, by the way it ends. *)
Definition attempt_post st tid key ci (r : reserve_result) st' : Prop :=
  match r with
  | Reserved =>
      resv st key = None /\ awaiting st' = awaiting st /\
      forall k, resv st' k = if decide (k = key) then Some (Reservation tid ci) else resv st k
  | Cycle => same st st' /\ exists info, resv st key = Some info /\ rtc (edge st) (r_tid info) tid
  | Blocked =>
      (forall k, resv st' k = resv st k) /\ awaiting st' = <[Z.to_nat tid := Some key]> (awaiting st) /\
      exists info, resv st key = Some info /\ ~ rtc (edge st) (r_tid info) tid
  end.

Lemma reserve_attempt_spec st tid key ci :
  acyclic st -> holders_in_range st -> 0 <= tid < Z.of_nat (length (awaiting st)) ->
  exists r st', reserve_attempt jl_nothing st tid key ci = Ok (r, st') /\ attempt_post st tid key ci r st'.
Proof.
  intros Hac Hr Ht. unfold reserve_attempt.
  destruct (try_insert_spec st key (Reservation tid ci)) as [(info & st1 & E & -> & Hs) | (st1 & E & -> & Ha & Hk)].
  2:{ by exists Reserved, st1. }
  cbn match. destruct (cycle_walk_correct st tid Hac Hr (S (length (awaiting st1))) [] (r_tid info) st1)
    as (b & st2 & -> & Hs2 & Hb); [done | | by apply Hr in E as [] | |].
  { split; [constructor |]. intros v Hv. by apply elem_of_nil in Hv. }
  { destruct Hs as [_ ->]. cbn. lia. }
  cbn [obind]. destruct b.
  - exists Cycle, (with_nqueued st2 tid (-1)). split; [done |]. split; [exact Hs2 |].
    exists info. split; [done | by apply Hb].
  - destruct Hs2 as [Hs2r Hs2a]. rewrite wr_in_range by (rewrite Hs2a; lia). cbn [obind].
    exists Blocked, (with_awaiting st2 (<[Z.to_nat tid:=Some key]> (awaiting st2))).
    split; [done |]. split; [exact Hs2r |]. split; [by cbn; rewrite Hs2a |].
    exists info. split; [done |]. intros H. by apply Hb in H.
Qed.

(** ** The invariant *)
Record inv (c : config) : Prop := {
  inv_acyclic : acyclic (shared c);
  inv_range : holders_in_range (shared c);
  inv_blocked t key : waits (shared c) t key <-> exists ci, blocked c !! t = Some (key, ci)
}.

Lemma attempt_inv st bl tid key ci r st' :
  inv (Config st (delete tid bl)) -> 0 <= tid < Z.of_nat (length (awaiting st)) ->
  attempt_post st tid key ci r st' -> inv (after tid key ci bl r st').
Proof.
  intros [Hac Hr Hb] Ht Hpost. cbn [shared blocked] in *.
  assert (Hnw : forall k, ~ waits st tid k).
  { intros k Hw. apply Hb in Hw as [c Hc]. by rewrite lookup_delete_eq in Hc. }
  destruct r; cbn [after attempt_post] in *.
  - destruct Hpost as (Hnone & Ha & Hk).
    assert (Hw : forall t k, waits st' t k <-> waits st t k) by (intros; unfold waits; by rewrite Ha).
    split; cbn [shared blocked].
    + refine (acyclic_sub (edge st) _ tid _ _ _); [done | |].
      * intros x (k & i & Hwk & _). by apply Hw, Hnw in Hwk.
      * intros x y (k & i & Hwk & Ei & <-). apply Hw in Hwk. rewrite Hk in Ei.
        destruct (decide (k = key)); [right; by injection Ei as <- | left; by exists k, i].
    + intros k i. rewrite Hk, Ha. destruct (decide (k = key)); [intros [= <-]; done | apply Hr].
    + intros t k. rewrite Hw. apply Hb.
  - destruct Hpost as [Hs _]. pose proof Hs as [Hsr Hsa].
    assert (Hw : forall t k, waits st' t k <-> waits st t k) by (intros; unfold waits; by rewrite Hsa).
    split; cbn [shared blocked].
    + intros t Ht'. apply (Hac t). eapply tc_mono; [| exact Ht']. intros a b. by apply edge_same.
    + intros k i. rewrite Hsr, Hsa. apply Hr.
    + intros t k. rewrite Hw. apply Hb.
  - destruct Hpost as (Hsr & Ha & info & Ei & Hnr).
    assert (Hw : forall t k, waits st' t k <-> (t = tid /\ k = key) \/ (t <> tid /\ waits st t k)).
    { intros t k. unfold waits. rewrite Ha. destruct (decide (t = tid)) as [-> | Hne].
      - rewrite list_lookup_insert_eq by lia. naive_solver.
      - split; [intros [H0 H] | intros [[? ?] | [_ [H0 H]]]]; [| done |].
        + rewrite list_lookup_insert_ne in H by lia. by right.
        + split; [done |]. by rewrite list_lookup_insert_ne by lia. }
    split; cbn [shared blocked].
    + refine (acyclic_add (edge st) _ tid (r_tid info) _ _ _); [done | done |].
      intros x y (k & i & Hwk & Ek & <-). rewrite Hsr in Ek. apply Hw in Hwk as [[-> ->] | [_ Hwk]].
      * right. split; [done | congruence].
      * left. by exists k, i.
    + intros k i. rewrite Hsr, Ha, length_insert. apply Hr.
    + intros t k. rewrite Hw, Hb. destruct (decide (t = tid)) as [-> | Hne].
      * rewrite lookup_insert_eq. naive_solver.
      * rewrite lookup_insert_ne, lookup_delete_ne by done. naive_solver.
Qed.

(** A state with the same waiting threads and fewer leases. *)
Lemma fewer_leases_inv st st' bl :
  inv (Config st bl) -> (forall t k, waits st' t k <-> waits st t k) ->
  length (awaiting st') = length (awaiting st) ->
  (forall k i, resv st' k = Some i -> resv st k = Some i) -> inv (Config st' bl).
Proof.
  intros [Hac Hr Hb] Hw Ha Hk. cbn [shared blocked] in *. split; cbn [shared blocked].
  - intros t Ht. apply (Hac t). eapply tc_mono; [| exact Ht].
    intros a b (k & i & H1 & H2 & H3). exists k, i. split; [by apply Hw | auto].
  - intros k i Hi. rewrite Ha. by eapply Hr, Hk.
  - intros t k. rewrite Hw. apply Hb.
Qed.

Lemma grow_inv st bl tid n :
  inv (Config st bl) ->
  inv (Config (with_awaiting (with_nqueued st tid 1) (awaiting st ++ replicate n None)) bl).
Proof.
  intros [Hac Hr Hb]. cbn [shared blocked] in *.
  set (st' := with_awaiting _ _).
  assert (Hw : forall t k, waits st' t k <-> waits st t k).
  { intros t k. unfold waits. cbn. rewrite lookup_app. split; intros [H0 H]; (split; [done |]).
    - destruct (awaiting st !! Z.to_nat t); [done |]. by apply lookup_replicate in H as [].
    - by rewrite H. }
  split; cbn [shared blocked].
  - intros t Ht. apply (Hac t). eapply tc_mono; [| exact Ht].
    intros a b (k & i & H1 & H2 & H3). exists k, i. split; [by apply Hw | done].
  - intros k i Hi. cbn. rewrite length_app. apply Hr in Hi. lia.
  - intros t k. rewrite Hw. apply Hb.
Qed.

Lemma nqueued_inv st bl tid d : inv (Config st bl) -> inv (Config (with_nqueued st tid d) bl).
Proof. intros H. by eapply fewer_leases_inv. Qed.

(** The state [jl_engine_reserve] enters its loop with. *)
Definition entered st tid : engine :=
  let st := with_nqueued st tid 1 in
  if Z.of_nat (length (awaiting st)) <? tid + 1 then
    with_awaiting st (awaiting st ++ replicate (Z.to_nat (tid + 1 - Z.of_nat (length (awaiting st)))) None)
  else st.

Lemma entered_resv st tid key : resv (entered st tid) key = resv st key.
Proof. unfold entered. by destruct (_ <? _). Qed.

Lemma entered_inv st bl tid :
  0 <= tid -> inv (Config st bl) ->
  inv (Config (entered st tid) bl) /\ tid < Z.of_nat (length (awaiting (entered st tid))) /\
  forall a b, edge (entered st tid) a b <-> edge st a b.
Proof.
  intros Ht Hinv. unfold entered. destruct (Z.ltb_spec (Z.of_nat (length (awaiting (with_nqueued st tid 1)))) (tid + 1)).
  - split; [exact (grow_inv _ _ _ _ Hinv) |]. cbn. rewrite length_app, length_replicate. cbn in *. split; [lia |].
    intros a b. destruct (grow_inv st bl tid (Z.to_nat (tid + 1 - Z.of_nat (length (awaiting st)))) Hinv) as [_ _ Hb'].
    destruct Hinv as [_ _ Hb]. cbn in *.
    split; intros (k & i & Hw & Hi); exists k, i; (split; [| exact Hi]); [by apply Hb, Hb' | by apply Hb', Hb].
  - split; [by apply nqueued_inv |]. cbn in *. split; [lia | done].
Qed.

Lemma inv_delete st bl tid : bl !! tid = None -> inv (Config st bl) -> inv (Config st (delete tid bl)).
Proof. intros H. by rewrite delete_id. Qed.

Lemma reserve_spec st bl tid key ci :
  inv (Config st bl) -> 0 <= tid -> bl !! tid = None ->
  exists r st', jl_engine_reserve jl_nothing st tid key ci = Ok (r, st') /\
    attempt_post (entered st tid) tid key ci r st' /\ inv (after tid key ci bl r st').
Proof.
  intros Hinv Ht Hbl. destruct (entered_inv st bl tid Ht Hinv) as (Hinv' & Hlen & _).
  destruct (reserve_attempt_spec (entered st tid) tid key ci) as (r & st' & E & Hp);
    [apply Hinv' | apply Hinv' | lia |].
  exists r, st'. split; [exact E |]. split; [done |].
  eapply attempt_inv; [apply inv_delete, Hinv'; done | lia | done].
Qed.

(** The state [reserve_wake] retries in: [tid] no longer waits. *)
Definition woken st tid : engine := with_awaiting st (<[Z.to_nat tid := None]> (awaiting st)).

Lemma woken_inv st bl tid : 0 <= tid -> inv (Config st bl) -> inv (Config (woken st tid) (delete tid bl)).
Proof.
  intros Ht [Hac Hr Hb]. cbn [shared blocked] in *.
  assert (Hw : forall t k, waits (woken st tid) t k <-> t <> tid /\ waits st t k).
  { intros t k. unfold waits. cbn. destruct (decide (t = tid)) as [-> | Hne].
    - split; [| by intros []]. intros [_ H]. exfalso.
      destruct (decide (Z.to_nat tid < length (awaiting st))%nat).
      + by rewrite list_lookup_insert_eq in H.
      + rewrite list_insert_ge in H by lia. apply lookup_lt_Some in H. lia.
    - split; [intros [H0 H] | intros [_ [H0 H]]].
      + by rewrite list_lookup_insert_ne in H by lia.
      + by rewrite list_lookup_insert_ne by lia. }
  split; cbn [shared blocked].
  - intros t Ht'. apply (Hac t). eapply tc_mono; [| exact Ht'].
    intros a b (k & i & H1 & H2 & H3). apply Hw in H1 as [_ H1]. by exists k, i.
  - intros k i Hi. cbn. rewrite length_insert. by eapply Hr.
  - intros t k. rewrite Hw, Hb. destruct (decide (t = tid)) as [-> | Hne].
    + rewrite lookup_delete_eq. naive_solver.
    + rewrite lookup_delete_ne by done. naive_solver.
Qed.

Lemma wake_spec st bl tid key ci :
  inv (Config st bl) -> bl !! tid = Some (key, ci) ->
  exists r st', reserve_wake jl_nothing st tid key ci = Ok (r, st') /\
    attempt_post (woken st tid) tid key ci r st' /\ inv (after tid key ci bl r st').
Proof.
  intros Hinv Hbl. assert (Hw : waits st tid key) by (apply Hinv; by exists ci).
  pose proof (waits_bound _ _ _ Hw) as Ht. unfold reserve_wake. rewrite wr_in_range by lia. cbn [obind].
  pose proof (woken_inv st bl tid ltac:(lia) Hinv) as Hinv'.
  assert (Hlen : 0 <= tid < Z.of_nat (length (awaiting (woken st tid)))) by (cbn; rewrite length_insert; lia).
  destruct (reserve_attempt_spec (woken st tid) tid key ci) as (r & st' & E & Hp);
    [apply Hinv' | apply Hinv' | done |].
  exists r, st'. split; [exact E |]. split; [done |].
  by eapply attempt_inv.
Qed.

Lemma same_inv st st' bl : same st st' -> inv (Config st bl) -> inv (Config st' bl).
Proof.
  intros [Hr Ha] H. eapply fewer_leases_inv; [done | | by rewrite Ha | intros k i; by rewrite Hr].
  intros t k. unfold waits. by rewrite Ha.
Qed.

Lemma fulfill_inv st bl tid key ci st' :
  inv (Config st bl) -> jl_engine_fulfill jl_nothing st tid key ci = Ok st' -> inv (Config st' bl).
Proof.
  intros Hinv. unfold jl_engine_fulfill. destruct (get_reservation_spec st (k_mi key) (k_owner key)) as (st1 & -> & Hs).
  apply (same_inv _ _ _ Hs) in Hinv. destruct (resv _ _) as [info |]; [| by intros [= <-]].
  destruct (negb _); [by intros [= <-] |]. destruct (negb _); [done |]. intros [= <-].
  apply (nqueued_inv _ _ tid (-1)) in Hinv. set (st2 := with_nqueued st1 tid (-1)) in *.
  destruct (remove_spec st2 key) as [Ha Hk].
  eapply fewer_leases_inv; [exact Hinv | | by rewrite Ha |].
  - intros t k. unfold waits. by rewrite Ha.
  - intros k i. rewrite Hk. by destruct (decide _).
Qed.

Lemma sweep_inv st bl marked : inv (Config st bl) -> inv (Config (jl_engine_sweep st marked) bl).
Proof.
  intros Hinv. eapply fewer_leases_inv; [exact Hinv | done | done |].
  intros k i. rewrite sweep_resv. destruct (resv st k) as [i' |]; [| done]. by destruct (swept marked i').
Qed.

Lemma step_inv c c' : step jl_nothing c c' -> inv c -> inv c'.
Proof.
  intros [] Hinv.
  - destruct (reserve_spec st bl tid key ci) as (r' & st1 & E & _ & H'); [done | done | done |]. congruence.
  - destruct (wake_spec st bl tid key ci) as (r' & st1 & E & _ & H'); [done | done |]. congruence.
  - by eapply fulfill_inv.
  - by apply sweep_inv.
  - unfold jl_engine_hasreserved.
    destruct (get_reservation_spec st (k_mi key) (k_owner key)) as (st1 & -> & Hs).
    apply (same_inv _ _ _ Hs) in Hinv. by destruct (resv _ _).
Qed.

Lemma initial_inv : inv initial.
Proof.
  split; cbn.
  - intros t H. inversion H as [? ? He | ? ? ? He]; subst; apply edge_bound in He; cbn in He; lia.
  - intros k i. unfold resv. cbn. destruct (_ =? _); by rewrite ?lookup_empty.
  - intros t k. unfold waits. cbn. rewrite lookup_nil. setoid_rewrite lookup_empty. naive_solver.
Qed.

Lemma reachable_inv c : reachable jl_nothing c -> inv c.
Proof.
  intros H. assert (Hg : forall a, rtc (step jl_nothing) a c -> inv a -> inv c).
  { induction 1; eauto using step_inv. }
  by apply (Hg initial), initial_inv.
Qed.

(** Every walk along the edges ends. *)
Lemma chain_end st : acyclic st -> forall n l w, visited st l w -> (S (length (awaiting st)) <= n + length l)%nat ->
  exists u, rtc (edge st) w u /\ forall v, ~ edge st u v.
Proof.
  intros Hac. induction n as [| n IH]; intros l w Hv Hn.
  { apply visited_length in Hv. lia. }
  assert (Hdec : (exists u, edge st w u) \/ forall u, ~ edge st w u).
  { destruct (decide (0 <= w)); [| by right; intros u (k & i & [? _] & _)].
    destruct (awaiting st !! Z.to_nat w) as [[key |] |] eqn:E.
    - destruct (resv st key) as [i |] eqn:Ei.
      + left. by exists (r_tid i), key, i.
      + right. intros u (k & i & [_ Hw] & Hi & _). congruence.
    - right. intros u (k & i & [_ Hw] & _). congruence.
    - right. intros u (k & i & [_ Hw] & _). congruence. }
  destruct Hdec as [[u Hu] | Hno]; [| by exists w].
  destruct (IH (w :: l) u) as (u' & H1 & H2); [by apply visited_step | cbn; lia |].
  exists u'. split; [by eapply rtc_l | done].
Qed.

(** C24: In every interleaving of the engine's operations by any number of
    threads, a call of [jl_engine_reserve] by a running thread reaches its
    return or its first wait: no access is out of bounds, the assertion of the
    cycle search holds and the search ends.  The call takes the lease exactly
    when it is free, reports a cycle exactly when the holder of the lease is
    the caller or waits, transitively, for a lease of the caller, and waits
    otherwise. *)
Theorem jl_engine_reserve_correct (c : config) (tid : Z) (key : infer_key) (ci : Z) :
  reachable jl_nothing c -> 0 <= tid -> blocked c !! tid = None ->
  exists r st', jl_engine_reserve jl_nothing (shared c) tid key ci = Ok (r, st') /\
    match resv (shared c) key with
    | None => r = Reserved /\ resv st' key = Some (Reservation tid ci)
    | Some info =>
        (r = Cycle \/ r = Blocked) /\ resv st' key = Some info /\
        (r = Cycle <-> rtc (edge (shared c)) (r_tid info) tid)
    end.
Proof.
  intros Hc Ht Hbl. destruct c as [st bl]. cbn [shared blocked] in *. apply reachable_inv in Hc.
  destruct (reserve_spec st bl tid key ci Hc Ht Hbl) as (r & st' & E & Hp & _).
  exists r, st'. split; [done |]. destruct (entered_inv st bl tid Ht Hc) as (_ & _ & He).
  assert (Hrtc : forall a b, rtc (edge (entered st tid)) a b <-> rtc (edge st) a b).
  { intros a b. split; apply rtc_mono; intros; by apply He. }
  destruct r; cbn [attempt_post] in Hp.
  - destruct Hp as (Hn & _ & Hk). rewrite entered_resv in Hn. rewrite Hn. split; [done |].
    rewrite Hk. by rewrite decide_True.
  - destruct Hp as ([Hs _] & info & Ei & Hr). rewrite Hs, entered_resv in *. rewrite Ei.
    apply Hrtc in Hr. naive_solver.
  - destruct Hp as (Hs & _ & info & Ei & Hr). rewrite Hs, entered_resv in *. rewrite Ei.
    rewrite Hrtc in Hr. naive_solver.
Qed.

(** A thread that wakes up inside [jl_engine_reserve] takes its lease if it
    is free and waits again if it is not; it never reports a cycle, since the
    thread that would have closed it did. *)
Theorem reserve_wake_correct (c : config) (tid : Z) (key : infer_key) (ci : Z) :
  reachable jl_nothing c -> blocked c !! tid = Some (key, ci) ->
  exists st', reserve_wake jl_nothing (shared c) tid key ci =
    Ok (match resv (shared c) key with None => Reserved | Some _ => Blocked end, st') /\
    resv st' key = Some (default (Reservation tid ci) (resv (shared c) key)).
Proof.
  intros Hc Hbl. destruct c as [st bl]. cbn [shared blocked] in *. apply reachable_inv in Hc.
  destruct (wake_spec st bl tid key ci Hc Hbl) as (r & st' & E & Hp & _). rewrite E.
  exists st'. assert (Hwr : forall k, resv (woken st tid) k = resv st k) by done. destruct r; cbn [attempt_post] in Hp.
  - destruct Hp as (Hn & _ & Hk). rewrite Hwr in Hn. rewrite Hn, Hk. by rewrite decide_True.
  - exfalso. destruct Hp as (_ & info & Ei & Hr). rewrite Hwr in Ei.
    apply (inv_acyclic _ Hc tid). eapply tc_rtc_r.
    + apply tc_once. exists key, info. split; [apply Hc; by exists ci | done].
    + eapply rtc_mono; [| exact Hr]. intros a b (k & i & Hw & Hi & Ht). exists k, i. split; [| done].
      destruct Hw as [H0 Hw]. split; [done |]. cbn in Hw.
      apply list_lookup_insert_Some in Hw as [(_ & ? & _) | [_ Hw]]; done.
  - destruct Hp as (Hk & _ & info & Ei & _). rewrite Hwr in Ei.
    by rewrite Hk, Hwr, Ei.
Qed.

(** C12: The engine does not deadlock.  In every reachable configuration, the
    threads that wait for each other's leases form no cycle, and from every
    thread the chain of holders leads to a thread that runs, or to a
    waiting thread whose lease has been released and whose retry takes it. *)
Theorem jl_engine_no_deadlock (c : config) (tid : Z) :
  reachable jl_nothing c ->
  acyclic (shared c) /\
  exists u, rtc (edge (shared c)) tid u /\
    (blocked c !! u = None \/
     exists key ci st', blocked c !! u = Some (key, ci) /\
       reserve_wake jl_nothing (shared c) u key ci = Ok (Reserved, st') /\
       resv st' key = Some (Reservation u ci)).
Proof.
  intros Hc. destruct c as [st bl]. cbn [shared blocked] in *. apply reachable_inv in Hc.
  pose proof (inv_acyclic _ Hc) as Hac. split; [exact Hac |].
  destruct (chain_end st Hac (S (length (awaiting st))) [] tid) as (u & Hu & Hno).
  { split; [constructor |]. intros v Hv. by apply elem_of_nil in Hv. }
  { cbn. lia. }
  exists u. split; [done |]. destruct (bl !! u) as [[key ci] |] eqn:E; [right | by left].
  destruct (wake_spec st bl u key ci Hc E) as (r & st' & Ew & Hp & _).
  exists key, ci, st'. split; [done |].
  assert (Hnone : resv (woken st u) key = None).
  { destruct (resv st key) as [i |] eqn:Ei; [| done]. destruct (Hno (r_tid i)). exists key, i.
    split; [| done]. apply Hc. by exists ci. }
  destruct r; cbn [attempt_post] in Hp.
  - destruct Hp as (_ & _ & Hk). split; [done |]. by rewrite Hk, decide_True.
  - destruct Hp as (_ & i & Ei & _). congruence.
  - destruct Hp as (_ & _ & i & Ei & _). congruence.
Qed.
End EngineFacts.

(** ** A scenario: thread 0 holds [mi_a], thread 1 holds [mi_b], and thread 0
    waits for [mi_b]. *)
Definition mi_a : infer_key := InferKey 101 7.
Definition mi_b : infer_key := InferKey 102 0.

Definition state_of (o : outcome (reserve_result * engine)) : engine :=
  match o with Ok (_, st) => st | _ => jl_init_engine end.

Definition scenario1 : engine := state_of (jl_engine_reserve 0 jl_init_engine 0 mi_a 10).
Definition scenario2 : engine := state_of (jl_engine_reserve 0 scenario1 1 mi_b 11).
Definition scenario3 : engine := state_of (jl_engine_reserve 0 scenario2 0 mi_b 12).
Definition scenario : config := Config scenario3 (<[0 := (mi_b, 12)]> (delete 1 (delete 0 ∅))).

Lemma scenario_reachable : reachable 0 scenario.
Proof.
  eapply rtc_l; [apply (step_reserve 0 jl_init_engine ∅ 0 mi_a 10 Reserved scenario1); vm_compute; done |].
  eapply rtc_l; [apply (step_reserve 0 scenario1 (delete 0 ∅) 1 mi_b 11 Reserved scenario2); vm_compute; done |].
  eapply rtc_l; [apply (step_reserve 0 scenario2 (delete 1 (delete 0 ∅)) 0 mi_b 12 Blocked scenario3); vm_compute; done |].
  apply rtc_refl.
Qed.

(** Thread 1 asking for [mi_a] would close the cycle. *)
Lemma jl_engine_reserve_correct_witness :
  exists r st', jl_engine_reserve 0 scenario3 1 mi_a 13 = Ok (r, st') /\ r = Cycle.
Proof.
  destruct (jl_engine_reserve_correct 0 scenario 1 mi_a 13 scenario_reachable) as (r & st' & E & H);
    [lia | reflexivity |].
  exists r, st'. split; [exact E |]. vm_compute in E. congruence.
Defined.

Lemma reserve_wake_correct_witness :
  exists st', reserve_wake 0 scenario3 0 mi_b 12 = Ok (Blocked, st') /\ resv 0 st' mi_b = Some (Reservation 1 11).
Proof. exact (reserve_wake_correct 0 scenario 0 mi_b 12 scenario_reachable eq_refl). Defined.

Lemma jl_engine_no_deadlock_witness :
  acyclic 0 scenario3 /\
  exists u, rtc (edge 0 scenario3) 0 u /\
    (blocked scenario !! u = None \/
     exists key ci st', blocked scenario !! u = Some (key, ci) /\
       reserve_wake 0 scenario3 u key ci = Ok (Reserved, st') /\ resv 0 st' key = Some (Reservation u ci)).
Proof. exact (jl_engine_no_deadlock 0 scenario 0 scenario_reachable). Defined.
