(* ===== verification/Int2str.v ===== *)
(** * Integers as text (support/int2str.c)

    [uint2str] writes the digits of a number backwards from the end of a
    buffer and returns where they start. *)

From stdpp Require Import base list numbers option.
From Stdlib Require Import ZArith Lia.
From S2P Require Import Prelude.

(** The digit character the loop computes from [num % b]. *)
Definition digit_char (d : Z) : Z := if d <? 10 then d + 48 else d - 10 + 97.

(** The loop: [i] is the index of the next byte to write, [num] what is left.
    Returns the buffer and the final [i]. *)
Fixpoint uint2str_loop (fuel : nat) (dest : list Z) (i num b : Z) : outcome (list Z * Z) :=
  match fuel with
  | O => Timeout
  | S fuel' =>
      if i <? 0 then Ok (dest, i)
      else if b =? 0 then UB
      else
        let! dest := wr dest i (digit_char (num mod b)) in
        let num := num / b in
        if num =? 0 then Ok (dest, i - 1)
        else uint2str_loop fuel' dest (i - 1) num b
  end.

(** The buffer and the offset of the first digit in it. *)
Definition uint2str (dest : list Z) (len num base : Z) : outcome (list Z * Z) :=
  let i := i32 (len - 1) in
  let! dest := wr dest i 0 in
  let! (dest, i) := uint2str_loop (S (Z.to_nat len)) dest (i - 1) num base in
  Ok (dest, i + 1).

Definition isdigit_base (c base : Z) : bool :=
  if base <? 11 then (48 <=? c) && (c <? 48 + base)
  else ((48 <=? c) && (c <=? 57)) || ((97 <=? c) && (c <? 97 + base - 10)) || ((65 <=? c) && (c <? 65 + base - 10)).

(** ** What the text means *)

(** The value of a digit character, and of a text most significant digit
    first. *)
Definition digit_of (c : Z) : Z := if c <? 58 then c - 48 else c - 97 + 10.

Definition read_digits (b : Z) (cs : list Z) : Z := fold_left (fun a c => a * b + digit_of c) cs 0.

Lemma digit_of_char d : 0 <= d < 36 -> digit_of (digit_char d) = d.
Proof. intros H. unfold digit_of, digit_char. repeat zcase; lia. Qed.

Lemma isdigit_digit_char d b : 2 <= b <= 36 -> 0 <= d < b -> isdigit_base (digit_char d) b = true.
Proof. intros Hb Hd. unfold isdigit_base, digit_char. repeat zcase; try reflexivity; lia. Qed.

Lemma read_digits_app b cs a : fold_left (fun a c => a * b + digit_of c) cs a = a * b ^ Z.of_nat (length cs) + read_digits b cs.
Proof.
  unfold read_digits. revert a. induction cs as [| c cs IH]; intros a; cbn [fold_left length]; [cbn; lia |].
  rewrite IH, (IH (0 * b + digit_of c)), Nat2Z.inj_succ, Z.pow_succ_r by lia. lia.
Qed.

Lemma read_digits_cons b c cs : read_digits b (c :: cs) = digit_of c * b ^ Z.of_nat (length cs) + read_digits b cs.
Proof. unfold read_digits at 1. cbn [fold_left]. rewrite read_digits_app. lia. Qed.

(** The canonical text: digits of the base, no leading zero. *)
Definition canonical (b num : Z) (cs : list Z) : Prop :=
  read_digits b cs = num /\ Forall (fun c => isdigit_base c b = true) cs /\
  (cs <> []) /\ (num <> 0 -> hd 0 cs <> 48) /\ (num = 0 -> cs = [48]).

(** Writing [suffix] before: the loop leaves everything below its result
    untouched, puts the digits at the offset it returns and what follows the
    digits stays. *)
Lemma uint2str_loop_spec b : 2 <= b <= 36 -> forall fuel dest i num,
  0 <= num < b ^ (i + 1) -> 0 <= i < Z.of_nat (length dest) -> i < Z.of_nat fuel ->
  exists pre cs post, dest = pre ++ take (length cs) (drop (length pre) dest) ++ post /\
    uint2str_loop fuel dest i num b = Ok (pre ++ cs ++ post, Z.of_nat (length pre) - 1) /\
    Z.of_nat (length pre + length cs) = i + 1 /\
    read_digits b cs = num /\ Forall (fun c => isdigit_base c b = true) cs /\ cs <> [] /\
    (num <> 0 -> hd 0 cs <> 48) /\ (num = 0 -> cs = [48]).
Proof.
  intros Hb. induction fuel as [| fuel IH]; intros dest i num Hn Hi Hf; [lia |].
  cbn [uint2str_loop]. rewrite (proj2 (Z.ltb_ge i 0)), (proj2 (Z.eqb_neq b 0)) by lia.
  rewrite wr_in_range by lia. cbn [obind].
  pose proof (Z.div_mod num b ltac:(lia)) as Hdm. pose proof (Z.mod_pos_bound num b ltac:(lia)) as Hm.
  assert (Hc : isdigit_base (digit_char (num mod b)) b = true) by (apply isdigit_digit_char; lia).
  assert (Hsplit : dest = take (Z.to_nat i) dest ++ take 1 (drop (Z.to_nat i) dest) ++ drop (S (Z.to_nat i)) dest).
  { rewrite <- (take_drop (Z.to_nat i) dest) at 1. f_equal.
    rewrite <- (take_drop 1 (drop (Z.to_nat i) dest)) at 1. f_equal. rewrite drop_drop. f_equal. lia. }
  assert (Hins : <[Z.to_nat i := digit_char (num mod b)]> dest =
                 take (Z.to_nat i) dest ++ [digit_char (num mod b)] ++ drop (S (Z.to_nat i)) dest).
  { rewrite insert_take_drop by lia. reflexivity. }
  destruct (Z.eqb_spec (num / b) 0) as [Hz | Hnz].
  - exists (take (Z.to_nat i) dest), [digit_char (num mod b)], (drop (S (Z.to_nat i)) dest).
    rewrite length_take, Nat.min_l by lia. cbn [length].
    split; [exact Hsplit |]. split; [rewrite Hins; f_equal; f_equal; lia |].
    split; [lia |]. unfold read_digits. cbn [fold_left hd]. rewrite digit_of_char by lia.
    split; [lia |]. split; [by constructor |]. split; [done |].
    assert (num mod b = num) as -> by lia.
    split; [| by intros ->]. unfold digit_char. repeat zcase; lia.
  - assert (Hi1 : 1 <= i).
    { destruct (Z.eq_dec i 0) as [-> |]; [| lia]. cbn in Hn. rewrite Z.pow_1_r in Hn. destruct Hnz. apply Z.div_small. lia. }
    destruct (IH (<[Z.to_nat i := digit_char (num mod b)]> dest) (i - 1) (num / b))
      as (pre & cs & post & Hd & He & Hl & Hr & Hfa & Hne & Hh & Hh0).
    { replace (i + 1) with (Z.succ (i - 1 + 1)) in Hn by lia. rewrite Z.pow_succ_r in Hn by lia. split; [apply Z.div_pos; lia |].
      apply Z.div_lt_upper_bound; lia. }
    { rewrite length_insert. lia. }
    { lia. }
    assert (Hpost : exists q, post = digit_char (num mod b) :: q /\ q = drop (S (Z.to_nat i)) dest /\ pre = take (length pre) dest).
    { assert (Hlen : length (pre ++ take (length cs) (drop (length pre) (<[Z.to_nat i:=digit_char (num mod b)]> dest))) = Z.to_nat i).
      { rewrite length_app, length_take, length_drop, length_insert. lia. }
      assert (Hdr : drop (Z.to_nat i) (<[Z.to_nat i := digit_char (num mod b)]> dest) = post).
      { rewrite Hd, app_assoc at 1. rewrite <- Hlen at 1. apply drop_app_length. }
      rewrite Hins, drop_app_length' in Hdr by (rewrite length_take; lia). exists (drop (S (Z.to_nat i)) dest).
      split; [by rewrite <- Hdr |]. split; [done |].
      assert (Ht : take (length pre) (<[Z.to_nat i := digit_char (num mod b)]> dest) = pre).
      { rewrite Hd at 1. apply take_app_length. }
      rewrite <- Ht at 1. rewrite take_insert_ge by lia. done. }
    destruct Hpost as (q & -> & -> & Hpre).
    exists pre, (cs ++ [digit_char (num mod b)]), (drop (S (Z.to_nat i)) dest). rewrite length_app. cbn [length].
    split.
    { rewrite Hpre at 1. rewrite <- (take_drop (length pre) dest) at 1. f_equal.
      rewrite <- (take_drop (length cs + 1) (drop (length pre) dest)) at 1. f_equal. rewrite drop_drop. f_equal. lia. }
    rewrite He. split; [by rewrite <- app_assoc |]. split; [lia |]. split.
    { unfold read_digits in *. rewrite fold_left_app. cbn [fold_left]. rewrite Hr, digit_of_char by lia. lia. }
    split; [apply Forall_app; split; [done | by constructor] |]. split; [by destruct cs |].
    split; [intros _; destruct cs; [done | by apply Hh] |].
    intros ->. by rewrite Zdiv_0_l in Hnz.
Qed.

Lemma uint2str_spec dest len num base :
  2 <= base <= 36 -> Z.of_nat (length dest) = len -> 2 <= len < 2 ^ 31 -> 0 <= num < base ^ (len - 1) ->
  exists pre cs, uint2str dest len num base = Ok (pre ++ cs ++ [0], Z.of_nat (length pre)) /\
    canonical base num cs /\ Z.of_nat (length pre + length cs) = len - 1.
Proof.
  intros Hb Hd Hl Hn. unfold uint2str. rewrite i32_small by lia. rewrite wr_in_range by lia. cbn [obind].
  destruct (uint2str_loop_spec base Hb (S (Z.to_nat len)) (<[Z.to_nat (len - 1) := 0]> dest) (len - 1 - 1) num)
    as (pre & cs & post & He & -> & Hlen & Hc); [replace (len - 1 - 1 + 1) with (len - 1) by lia; done | rewrite length_insert; lia | lia |].
  cbn [obind]. exists pre, cs. split; [| split; [exact Hc | lia]].
  assert (post = [0]) as ->.
  { assert (Hdr : drop (Z.to_nat (len - 1)) (<[Z.to_nat (len - 1) := 0]> dest) = post).
    { rewrite He, app_assoc at 1. apply drop_app_length'. rewrite length_app, length_take, length_drop, length_insert. lia. }
    rewrite <- Hdr, insert_take_drop by lia. rewrite drop_app_length' by (rewrite length_take; lia).
    rewrite drop_ge by lia. done. }
  f_equal. f_equal. lia.
Qed.
