(* ===== verification/Symbol.v ===== *)
(** * The symbol table (symbol.c)

    Symbols are nodes of a binary search tree in a store that only grows; a
    symbol is its address in the store.  [symtab_lookup] descends by the
    wrapped difference of hashes first and by [strncmp] when the hashes agree,
    and returns the slot where the search stopped; [_jl_symbol] searches
    without the lock, takes it, searches again from the slot and links a new
    node there.  [step] interleaves the calls of any number of threads, one
    load or one critical section at a time. *)

From stdpp Require Import base list gmap numbers option relations.
From Stdlib Require Import ZArith Lia.
From S2P Require Import Prelude Hashing Int2str.

(** [jl_sym_t] followed by its name; the bytes of the name end in [NUL]. *)
Record jl_sym_t := Sym {
  sym_left : option nat;
  sym_right : option nat;
  sym_hash : Z;
  jl_symbol_name : list Z
}.

(** [symtab], the permanent objects it points to, and [gs_ctr]. *)
Record symtab_t := Symtab { symtab : option nat; syms : list jl_sym_t; gs_ctr : Z }.

Definition empty_symtab : symtab_t := Symtab None [] 0.

(** The addresses of cells that hold an atomic [jl_sym_t] pointer. *)
Inductive slot := SymtabRoot | LeftOf (n : nat) | RightOf (n : nat).

#[global] Instance slot_eq_dec : EqDecision slot.
Proof. solve_decision. Defined.

Definition load_slot (st : symtab_t) (p : slot) : outcome (option nat) :=
  match p with
  | SymtabRoot => Ok (symtab st)
  | LeftOf n => match syms st !! n with Some s => Ok (sym_left s) | None => UB end
  | RightOf n => match syms st !! n with Some s => Ok (sym_right s) | None => UB end
  end.

Definition store_slot (st : symtab_t) (p : slot) (v : option nat) : symtab_t :=
  match p with
  | SymtabRoot => Symtab v (syms st) (gs_ctr st)
  | LeftOf n =>
      Symtab (symtab st) (alter (fun s => Sym v (sym_right s) (sym_hash s) (jl_symbol_name s)) n (syms st)) (gs_ctr st)
  | RightOf n =>
      Symtab (symtab st) (alter (fun s => Sym (sym_left s) v (sym_hash s) (jl_symbol_name s)) n (syms st)) (gs_ctr st)
  end.

(** [INTPTR_MAX - sizeof(jl_taggedvalue_t) - sizeof(jl_sym_t) - 1]. *)
Definition MAX_SYM_LEN : Z := 2 ^ 63 - 1 - 8 - 24 - 1.

Definition hash_symbol (str : list Z) : outcome Z :=
  let! h := memhash str in
  let oid := Z.lxor h (u64 ((2 ^ 64 - 1) / 3 * 2)) in
  Ok (int64hash (u64 (- oid))).

Definition symbol_nbytes (len : Z) : Z := Z.land (u64 (24 + len + 1 + 7)) (u64 (- 8)).

(** The sign of [strncmp(a, b, n)]. *)
Fixpoint strncmp (a b : list Z) (n : nat) : outcome Z :=
  match n with
  | O => Ok 0
  | S n' =>
      match a, b with
      | x :: a', y :: b' =>
          if x <? y then Ok (-1) else if y <? x then Ok 1
          else if x =? 0 then Ok 0 else strncmp a' b' n'
      | _, _ => UB
      end
  end.

(** Is there a zero byte? ([memchr(str, 0, len)]) *)
Definition has_nul (str : list Z) : bool := existsb (Z.eqb 0) str.

(** The new symbol and its address. *)
Definition mk_symbol (st : symtab_t) (str : list Z) : outcome (nat * symtab_t) :=
  let! h := hash_symbol str in
  Ok (length (syms st), Symtab (symtab st) (syms st ++ [Sym None None h (str ++ [0])]) (gs_ctr st)).

(** One comparison of [symtab_lookup]: the node is found, or the search goes
    on in one of its slots. *)
Definition symtab_compare (h : Z) (str : list Z) (n : nat) (s : jl_sym_t) : outcome (option slot) :=
  let x := i64 (h - sym_hash s) in
  let! (x, found) :=
    if x =? 0 then
      let! x := strncmp str (jl_symbol_name s) (length str) in
      if x =? 0 then
        let! c := rd (jl_symbol_name s) (Z.of_nat (length str)) in
        Ok (x, c =? 0)
      else Ok (x, false)
    else Ok (x, false) in
  if (found : bool) then Ok None
  else Ok (Some (if x <? 0 then LeftOf n else RightOf n)).

Fixpoint symtab_lookup_loop (fuel : nat) (st : symtab_t) (h : Z) (str : list Z) (ptree : slot)
    : outcome (option nat * slot) :=
  match fuel with
  | O => Timeout
  | S fuel' =>
      let! node := load_slot st ptree in
      match node with
      | None => Ok (None, ptree)
      | Some n =>
          match syms st !! n with
          | None => UB
          | Some s =>
              let! next := symtab_compare h str n s in
              match next with
              | None => Ok (Some n, ptree)
              | Some ptree => symtab_lookup_loop fuel' st h str ptree
              end
          end
      end
  end.

(** The symbol, if it is in the table, and the slot where the search ended. *)
Definition symtab_lookup (st : symtab_t) (ptree : slot) (str : list Z) : outcome (option nat * slot) :=
  let! h := hash_symbol str in
  symtab_lookup_loop (S (length (syms st))) st h str ptree.

(** The critical section of [_jl_symbol], entered with the slot the unlocked
    search ended at. *)
Definition symbol_locked (st : symtab_t) (str : list Z) (p : slot) : outcome (nat * symtab_t) :=
  let! cur := load_slot st p in
  let! (node, p) := match cur with None => Ok (None, p) | Some _ => symtab_lookup st p str end in
  match node with
  | Some n => Ok (n, st)
  | None =>
      let! (n, st) := mk_symbol st str in
      Ok (n, store_slot st p (Some n))
  end.

(** How a call that makes a symbol ends. *)
Inductive symbol_result := Symbol (n : nat) | NameTooLong | NameHasNul.

(** A call without interference. *)
Definition jl_symbol_ (st : symtab_t) (str : list Z) : outcome (symbol_result * symtab_t) :=
  if MAX_SYM_LEN <? Z.of_nat (length str) then Ok (NameTooLong, st)
  else if has_nul str then UB
  else
    let! (node, p) := symtab_lookup st SymtabRoot str in
    match node with
    | Some n => Ok (Symbol n, st)
    | None => let! (n, st) := symbol_locked st str p in Ok (Symbol n, st)
    end.

(** The bytes of a C string up to its [NUL]. *)
Fixpoint cstr (s : list Z) : outcome (list Z) :=
  match s with
  | [] => UB
  | c :: s => if c =? 0 then Ok [] else let! r := cstr s in Ok (c :: r)
  end.

Definition jl_symbol (st : symtab_t) (str : list Z) : outcome (symbol_result * symtab_t) :=
  let! s := cstr str in jl_symbol_ st s.

Definition jl_symbol_lookup (st : symtab_t) (str : list Z) : outcome (option nat) :=
  let! s := cstr str in
  let! (node, _) := symtab_lookup st SymtabRoot s in Ok node.

Definition jl_symbol_n (st : symtab_t) (str : list Z) : outcome (symbol_result * symtab_t) :=
  if has_nul str then Ok (NameHasNul, st) else jl_symbol_ st str.

Definition jl_get_root_symbol (st : symtab_t) : option nat := symtab st.

Definition jl_get_gs_ctr (st : symtab_t) : Z := gs_ctr st.
Definition jl_set_gs_ctr (st : symtab_t) (ctr : Z) : symtab_t := Symtab (symtab st) (syms st) ctr.

(** [jl_atomic_fetch_add_relaxed(&gs_ctr, 1)]. *)
Definition next_ctr (st : symtab_t) : Z * symtab_t := (gs_ctr st, jl_set_gs_ctr st (u32 (gs_ctr st + 1))).

(** The two buffers start with indeterminate bytes, [junk]. *)
Definition jl_gensym (st : symtab_t) (junk : list Z) : outcome (symbol_result * symtab_t) :=
  let (ctr, st) := next_ctr st in
  let! (digits, n) := uint2str (drop 2 junk) 14 ctr 10 in
  let name := take 2 junk ++ digits in
  let n := n + 2 in
  let! name := wr name (n - 1) 35 in
  let! name := wr name (n - 2) 35 in
  jl_symbol st (drop (Z.to_nat (n - 2)) name).

(** [len] is [(size_t)-1] for a [NUL]-terminated [str]. *)
Definition jl_tagged_gensym (st : symtab_t) (str : list Z) (len : Z) (junk : list Z)
    : outcome (symbol_result * symtab_t) :=
  let! arg := if len =? u64 (-1) then let! s := cstr str in Ok (Some s)
              else if Z.of_nat (length str) <? len then UB
              else if has_nul (take (Z.to_nat len) str) then Ok None
              else Ok (Some (take (Z.to_nat len) str)) in
  match arg with
  | None => Ok (NameHasNul, st)
  | Some str =>
      let len := Z.of_nat (length str) in
      let alloc_len := u64 (14 + len + 3) in
      if (MAX_SYM_LEN <? len) || (MAX_SYM_LEN <? alloc_len) then Ok (NameTooLong, st)
      else
        let (ctr, st) := next_ctr st in
        let! (gs_name, n) := uint2str junk 14 ctr 10 in
        let name := [35; 35] ++ str ++ [35] ++ drop (Z.to_nat n) gs_name in
        jl_symbol_ st (take (Z.to_nat (alloc_len - n - 1)) name)
  end.

(** ** Interleavings of [_jl_symbol] *)

(** Where a thread is in its call: about to load a slot of the unlocked
    search, about to take the lock, or done. *)
Inductive thread := Searching (str : list Z) (p : slot) | Locking (str : list Z) (p : slot) | Done (str : list Z) (n : nat).

Record config := Config { table : symtab_t; threads : gmap nat thread }.

(** One load of the unlocked search and the comparison that follows. *)
Definition search_step (st : symtab_t) (str : list Z) (p : slot) : outcome thread :=
  let! h := hash_symbol str in
  let! node := load_slot st p in
  match node with
  | None => Ok (Locking str p)
  | Some n =>
      match syms st !! n with
      | None => UB
      | Some s =>
          let! next := symtab_compare h str n s in
          Ok (match next with None => Done str n | Some p => Searching str p end)
      end
  end.

Definition valid_name (str : list Z) : Prop :=
  Forall is_byte str /\ has_nul str = false /\ Z.of_nat (length str) <= MAX_SYM_LEN.

Inductive step : config -> config -> Prop :=
| step_call st ts t str :
    ts !! t = None \/ (exists s n, ts !! t = Some (Done s n)) -> valid_name str ->
    step (Config st ts) (Config st (<[t := Searching str SymtabRoot]> ts))
| step_search st ts t str p th :
    ts !! t = Some (Searching str p) -> search_step st str p = Ok th ->
    step (Config st ts) (Config st (<[t := th]> ts))
| step_lock st ts t str p n st' :
    ts !! t = Some (Locking str p) -> symbol_locked st str p = Ok (n, st') ->
    step (Config st ts) (Config st' (<[t := Done str n]> ts)).

Definition reachable (c : config) : Prop := rtc step (Config empty_symtab ∅) c.
