(* ===== verification/SymbolFacts.v ===== *)
(** * Symbols are canonical

    The order [symtab_lookup] searches by is not transitive (the difference of
    hashes wraps around), so the tree is not a search tree for a fixed order.
    What makes interning correct is weaker: the search for a name is a walk
    through slots that depends only on the names and hashes it passes, slots
    are written once, and a new node goes where the walk for its name ends. *)

From stdpp Require Import base list gmap numbers option relations.
From Stdlib Require Import ZArith Lia.
From S2P Require Import Prelude Hashing HashingFacts Int2str Symbol.

Lemma hash_symbol_ok str : Forall is_byte str -> exists h, hash_symbol str = Ok h.
Proof.
  intros H. unfold hash_symbol, memhash. rewrite MurmurHash3_x64_128_ghash; [| done | done].
  destruct (ghash _ _ _ _ _) as [a b]. eexists. reflexivity.
Qed.

Lemma has_nul_false str : has_nul str = false <-> Forall (fun c => c <> 0) str.
Proof.
  unfold has_nul. induction str as [| c str IH]; [done |]. cbn [existsb]. rewrite orb_false_iff, IH, Forall_cons.
  destruct (Z.eqb_spec 0 c); naive_solver lia.
Qed.

(** [strncmp] over the length of [str] finds it equal to a terminated name
    exactly when [str] is a prefix of the name. *)
Lemma strncmp_prefix str name :
  Forall (fun c => c <> 0) str -> Forall (fun c => c <> 0) name ->
  exists x, strncmp str (name ++ [0]) (length str) = Ok x /\ (x = 0 <-> str `prefix_of` name).
Proof.
  revert name. induction str as [| c str IH]; intros name Hs Hn.
  { exists 0. split; [done |]. split; [intros _; apply prefix_nil | done]. }
  cbn [length strncmp]. apply Forall_cons in Hs as [Hc Hs].
  destruct name as [| d name]; cbn [app].
  - exists (if c <? 0 then -1 else 1). destruct (Z.ltb_spec c 0), (Z.ltb_spec 0 c); try lia; (split; [done |]).
    + split; [done |]. by intros H'%prefix_nil_not.
    + split; [done |]. by intros H'%prefix_nil_not.
  - apply Forall_cons in Hn as [_ Hn].
    destruct (Z.ltb_spec c d); [exists (-1) | destruct (Z.ltb_spec d c); [exists 1 |]].
    1,2: split; [done |]; split; [done |]; intros ?%prefix_cons_inv_1; lia.
    rewrite (proj2 (Z.eqb_neq c 0)) by done. destruct (IH name Hs Hn) as (x & -> & Hx).
    exists x. split; [done |]. assert (c = d) as -> by lia. rewrite Hx.
    split; [apply prefix_cons | apply prefix_cons_inv_2].
Qed.

(** A node for the name [str]. *)
Definition named (st : symtab_t) (n : nat) (str : list Z) : Prop :=
  exists s, syms st !! n = Some s /\ jl_symbol_name s = str ++ [0] /\ hash_symbol str = Ok (sym_hash s) /\ valid_name str.

Lemma named_inj st n str str' : named st n str -> named st n str' -> str = str'.
Proof.
  intros (s & E & Hn & _) (s' & E' & Hn' & _). assert (s = s') as <- by congruence.
  rewrite Hn in Hn'. by apply app_inj_tail in Hn' as [].
Qed.

Lemma rd_terminator (str name : list Z) :
  Forall (fun c => c <> 0) name -> str `prefix_of` name ->
  exists c, rd (name ++ [0]) (Z.of_nat (length str)) = Ok c /\ ((c =? 0) = true <-> str = name).
Proof.
  intros Hn [k ->]. apply Forall_app in Hn as [_ Hk]. unfold rd. rewrite (proj2 (Z.ltb_ge _ 0)) by lia.
  rewrite Nat2Z.id, <- app_assoc, lookup_app_r, Nat.sub_diag by lia.
  destruct k as [| c k]; cbn; eexists; (split; [reflexivity |]).
  - by rewrite app_nil_r.
  - apply Forall_cons in Hk as [Hc _]. destruct (Z.eqb_spec c 0); [done |]. split; [done |].
    intros H. apply (f_equal length) in H. rewrite length_app in H. cbn in H. lia.
Qed.

(** A comparison stops at the node of the name and at no other. *)
Lemma symtab_compare_spec st str name n s h :
  valid_name str -> hash_symbol str = Ok h -> named st n name -> syms st !! n = Some s ->
  (str = name /\ symtab_compare h str n s = Ok None) \/
  (str <> name /\ exists p, symtab_compare h str n s = Ok (Some p) /\ (p = LeftOf n \/ p = RightOf n)).
Proof.
  intros (_ & Hs%has_nul_false & _) Hh (s' & Es & Hname & Hhash & (_ & Hn%has_nul_false & _)) E.
  assert (s' = s) as -> by congruence. unfold symtab_compare. rewrite Hname.
  destruct (Z.eqb_spec (i64 (h - sym_hash s)) 0) as [Hx | Hx].
  - destruct (strncmp_prefix str name Hs Hn) as (x & -> & Hpre). cbn [obind].
    destruct (Z.eqb_spec x 0) as [-> | Hx0].
    + destruct (rd_terminator str name Hn) as (c & -> & Hc); [by apply Hpre |]. cbn [obind].
      destruct (Z.eqb_spec c 0) as [_ | Hc0]; [left; split; [by apply Hc | done] |].
      right. split; [intros H; by apply Hc in H |]. eexists. split; [reflexivity |]. by right.
    + cbn [obind]. right. split; [intros ->; by destruct Hx0; apply Hpre |].
      eexists. split; [reflexivity |]. destruct (x <? 0); auto.
  - cbn [obind]. right. split.
    + intros ->. rewrite Hh in Hhash. injection Hhash as ->. by rewrite Z.sub_diag in Hx.
    + eexists. split; [reflexivity |]. destruct (_ <? 0); auto.
Qed.

(** ** The walk of a search *)

Definition next (st : symtab_t) (str : list Z) (p q : slot) : Prop :=
  exists n s h, load_slot st p = Ok (Some n) /\ syms st !! n = Some s /\ hash_symbol str = Ok h /\
    symtab_compare h str n s = Ok (Some q).

Definition route st str (p : slot) : Prop := rtc (next st str) SymtabRoot p.

Lemma next_functional st str p q q' : next st str p q -> next st str p q' -> q = q'.
Proof. intros (n & s & h & H1 & H2 & H3 & H4) (n' & s' & h' & H1' & H2' & H3' & H4'). congruence. Qed.

Lemma rtc_functional_nf {A} (R : relation A) x y z :
  (forall a b c, R a b -> R a c -> b = c) -> rtc R x y -> rtc R x z -> (forall a, ~ R z a) -> rtc R y z.
Proof.
  intros Hf Hxy. revert z. induction Hxy as [x | x x' y Hx _ IH]; intros z Hxz Hz; [done |].
  apply IH; [| done]. inversion Hxz as [| ? x'' ? Hx' Hr]; subst; [by apply Hz in Hx | by rewrite (Hf _ _ _ Hx Hx')].
Qed.

(** Positions of slots: a node is allocated after the one that points to it. *)
Definition pos (p : slot) : nat := match p with SymtabRoot => 0 | LeftOf n | RightOf n => S n end.

Record wf (st : symtab_t) : Prop := {
  wf_up p n : load_slot st p = Ok (Some n) -> (pos p <= n < length (syms st))%nat;
  wf_named n : (n < length (syms st))%nat -> exists str, named st n str;
  wf_route n str : named st n str -> exists p, route st str p /\ load_slot st p = Ok (Some n)
}.

Lemma slot_ok st p : (pos p <= length (syms st))%nat -> exists v, load_slot st p = Ok v.
Proof.
  intros H. destruct p as [| n | n]; cbn in *; [eauto | |];
    (destruct (lookup_lt_is_Some_2 (syms st) n) as [s ->]; [lia | eauto]).
Qed.

Lemma named_bound st n str : named st n str -> (n < length (syms st))%nat.
Proof. intros (s & E & _). by apply lookup_lt_Some in E. Qed.

(** One iteration from a slot of the walk. *)
Lemma walk_step st str p n h :
  wf st -> valid_name str -> hash_symbol str = Ok h -> load_slot st p = Ok (Some n) ->
  exists s, syms st !! n = Some s /\
    ((named st n str /\ symtab_compare h str n s = Ok None) \/
     (~ named st n str /\ exists q, symtab_compare h str n s = Ok (Some q) /\ next st str p q /\ pos q = S n)).
Proof.
  intros Hwf Hv Hh Hp. destruct (wf_up st Hwf p n Hp) as [_ Hlt].
  destruct (lookup_lt_is_Some_2 (syms st) n) as [s Es]; [lia |]. exists s. split; [done |].
  destruct (wf_named st Hwf n) as [name Hn]; [lia |].
  destruct (symtab_compare_spec st str name n s h) as [[-> Hc] | (Hne & q & Hc & Hq)]; [done | done | done | done | |].
  - by left.
  - right. split; [intros Hn'; by destruct Hne; eapply named_inj |]. exists q.
    split; [done |]. split; [by exists n, s, h | by destruct Hq as [-> | ->]].
Qed.

Lemma symtab_lookup_loop_spec st str h :
  wf st -> valid_name str -> hash_symbol str = Ok h ->
  forall fuel p, (pos p <= length (syms st))%nat -> (S (length (syms st)) <= fuel + pos p)%nat -> route st str p ->
  exists r q, symtab_lookup_loop fuel st h str p = Ok (r, q) /\ route st str q /\ load_slot st q = Ok r /\
    (pos q <= length (syms st))%nat /\ forall n, r = Some n -> named st n str.
Proof.
  intros Hwf Hv Hh. induction fuel as [| fuel IH]; intros p Hp Hf Hr; [lia |].
  cbn [symtab_lookup_loop]. destruct (slot_ok st p Hp) as [v Hv']. rewrite Hv'. cbn [obind].
  destruct v as [n |]; [| by exists None, p].
  destruct (walk_step st str p n h Hwf Hv Hh Hv') as (s & -> & [[Hn ->] | (_ & q & -> & Hnext & Hq)]); cbn [obind].
  - exists (Some n), p. repeat (split; [done |]). by intros n' [= <-].
  - destruct (wf_up st Hwf p n Hv'). apply IH; [lia | lia | by eapply rtc_r].
Qed.

Lemma symtab_lookup_spec st str p :
  wf st -> valid_name str -> (pos p <= length (syms st))%nat -> route st str p ->
  exists r q, symtab_lookup st p str = Ok (r, q) /\ route st str q /\ load_slot st q = Ok r /\
    (pos q <= length (syms st))%nat /\ forall n, r = Some n -> named st n str.
Proof.
  intros Hwf Hv Hp Hr. unfold symtab_lookup. destruct (hash_symbol_ok str) as [h Hh]; [apply Hv |].
  rewrite Hh. cbn [obind]. apply symtab_lookup_loop_spec; [done | done | done | done | lia | done].
Qed.

(** The walk for a name ends at its node, so a name has one node. *)
Lemma named_unique st str n n' : wf st -> named st n str -> named st n' str -> n = n'.
Proof.
  intros Hwf Hn Hn'. destruct (wf_route st Hwf n str Hn) as (p & Hp & Hl), (wf_route st Hwf n' str Hn') as (p' & Hp' & Hl').
  assert (Hnf : forall m q, named st m str -> load_slot st q = Ok (Some m) -> forall a, ~ next st str q a).
  { intros m q Hm Hq a (n1 & s & h & H1 & H2 & H3 & H4). assert (n1 = m) as -> by congruence.
    assert (Hv : valid_name str) by (by destruct Hm as (? & _ & _ & _ & ?)).
    destruct (walk_step st str q m h Hwf Hv H3 Hq) as (s' & Es & [[_ Hc] | (Hnn & _)]); [congruence | done]. }
  assert (Hpp : rtc (next st str) p p').
  { eapply rtc_functional_nf; [apply next_functional | exact Hp | exact Hp' |]. by eapply Hnf. }
  inversion Hpp as [| ? q ? Hq _]; subst; [congruence |]. by apply (Hnf n p Hn Hl) in Hq.
Qed.

(** ** Growth *)

Definition grows (st st' : symtab_t) : Prop :=
  (forall p n, load_slot st p = Ok (Some n) -> load_slot st' p = Ok (Some n)) /\
  (length (syms st) <= length (syms st'))%nat /\
  forall n s, syms st !! n = Some s ->
    exists s', syms st' !! n = Some s' /\ sym_hash s' = sym_hash s /\ jl_symbol_name s' = jl_symbol_name s.

#[export] Instance grows_preorder : PreOrder grows.
Proof.
  split; [by split; [| split; [| eauto]] |]. intros x y z (H1 & H2 & H3) (H4 & H5 & H6).
  split; [auto |]. split; [lia |]. intros n s (s' & Es & E1 & E2)%H3. apply H6 in Es as (s'' & Es & E3 & E4).
  exists s''. split; [done |]. split; congruence.
Qed.

Lemma compare_ext h str n s s' :
  sym_hash s' = sym_hash s -> jl_symbol_name s' = jl_symbol_name s -> symtab_compare h str n s' = symtab_compare h str n s.
Proof. intros H1 H2. unfold symtab_compare. by rewrite H1, H2. Qed.

Lemma grows_named st st' n str : grows st st' -> named st n str -> named st' n str.
Proof.
  intros (_ & _ & Hg) (s & E & H1 & H2 & H3). apply Hg in E as (s' & E & Hh & Hn).
  exists s'. by rewrite Hh, Hn.
Qed.

Lemma grows_route st st' str p : grows st st' -> route st str p -> route st' str p.
Proof.
  intros (Hl & _ & Hg) Hr. unfold route in *. induction Hr as [x | x y z (n & s & h & H1 & H2 & H3 & H4) _ IH]; [done |].
  apply Hg in H2 as (s' & E & Hh & Hn). eapply rtc_l; [| exact IH].
  exists n, s', h. split; [by apply Hl |]. split; [done |]. split; [done |]. by rewrite (compare_ext _ _ _ s s').
Qed.

(** ** Linking a new node *)

Section Insert.
Context (st : symtab_t) (str : list Z) (h : Z) (p : slot).
Context (Hwf : wf st) (Hv : valid_name str) (Hh : hash_symbol str = Ok h).
Context (Hr : route st str p) (Hp : load_slot st p = Ok None).
Let n := length (syms st).
Let st1 := Symtab (symtab st) (syms st ++ [Sym None None h (str ++ [0])]) (gs_ctr st).
Let st' := store_slot st1 p (Some n).

Lemma insert_pos : (pos p <= n)%nat.
Proof.
  destruct p as [| m | m]; cbn in *; [lia | |]; (destruct (syms st !! m) eqn:E; [apply lookup_lt_Some in E; unfold n; lia | done]).
Qed.

Lemma insert_length : length (syms st') = S n.
Proof. unfold st'. destruct p; cbn; rewrite ?length_alter, length_app; cbn; unfold n; lia. Qed.

Lemma insert_syms m s :
  (syms st ++ [Sym None None h (str ++ [0])]) !! m = Some s ->
  exists s', syms st' !! m = Some s' /\ sym_hash s' = sym_hash s /\ jl_symbol_name s' = jl_symbol_name s.
Proof.
  intros E. unfold st'. destruct p as [| k | k]; cbn; [by exists s | |];
    (destruct (decide (m = k)) as [-> | Hne];
     [rewrite list_lookup_alter_eq, E; cbn; eauto | rewrite list_lookup_alter_ne by done; eauto]).
Qed.

(** [new] is the slot of a cell of the new node. *)
Lemma insert_load q :
  load_slot st' q = if decide (q = p) then Ok (Some n) else if decide (pos q = S n) then Ok None else load_slot st q.
Proof.
  pose proof insert_pos as Hpos.
  assert (Hst1 : load_slot st1 q = if decide (pos q = S n) then Ok None else load_slot st q).
  { unfold st1. destruct q as [| m | m]; cbn; [done | |].
    - destruct (decide (S m = S n)) as [E |]; [injection E as ->; unfold n; by rewrite list_lookup_middle |].
      destruct (decide (m < n)%nat); [by rewrite lookup_app_l |].
      rewrite !lookup_ge_None_2; [done | unfold n in *; lia | rewrite length_app; cbn; unfold n in *; lia].
    - destruct (decide (S m = S n)) as [E |]; [injection E as ->; unfold n; by rewrite list_lookup_middle |].
      destruct (decide (m < n)%nat); [by rewrite lookup_app_l |].
      rewrite !lookup_ge_None_2; [done | unfold n in *; lia | rewrite length_app; cbn; unfold n in *; lia]. }
  rewrite <- Hst1. destruct (decide (q = p)) as [-> | Hne].
  - unfold st'. destruct p as [| m | m]; cbn; [done | |].
    + cbn in Hp, Hpos. destruct (syms st !! m) eqn:E; [| done]. rewrite list_lookup_alter_eq, lookup_app_l by lia. by rewrite E.
    + cbn in Hp, Hpos. destruct (syms st !! m) eqn:E; [| done]. rewrite list_lookup_alter_eq, lookup_app_l by lia. by rewrite E.
  - unfold st'. destruct p as [| k | k], q as [| m | m]; cbn; try done;
      (destruct (decide (m = k)) as [-> |]; [| by rewrite list_lookup_alter_ne]); try done;
      rewrite list_lookup_alter_eq; by destruct (_ !! k).
Qed.

Lemma insert_grows : grows st st'.
Proof.
  split; [| split].
  - intros q m Hq. rewrite insert_load. destruct (decide (q = p)) as [-> |]; [congruence |].
    destruct (decide (pos q = S n)) as [E |]; [| done]. apply (wf_up st Hwf) in Hq. unfold n in *. lia.
  - rewrite insert_length. unfold n. lia.
  - intros m s E. apply insert_syms. by apply lookup_app_l_Some.
Qed.

Lemma insert_named : named st' n str.
Proof.
  destruct (insert_syms n (Sym None None h (str ++ [0]))) as (s' & E & H1 & H2); [unfold n; by rewrite list_lookup_middle |].
  exists s'. cbn in *. rewrite H1, H2. done.
Qed.

Lemma insert_wf : wf st'.
Proof.
  pose proof insert_grows as Hg. split.
  - intros q m. rewrite insert_load, insert_length. destruct (decide (q = p)) as [-> |].
    + intros [= <-]. pose proof insert_pos. lia.
    + destruct (decide (pos q = S n)); [done |]. intros Hq%(wf_up st Hwf). unfold n in *. lia.
  - intros m. rewrite insert_length. intros Hm. destruct (decide (m = n)) as [-> |].
    + exists str. apply insert_named.
    + destruct (wf_named st Hwf m) as [name Hn]; [unfold n in *; lia |]. exists name. by eapply grows_named.
  - intros m name Hn. destruct (decide (m = n)) as [-> |].
    + assert (name = str) as -> by (eapply named_inj; [done | apply insert_named]).
      exists p. split; [by eapply grows_route |]. rewrite insert_load. by rewrite decide_True.
    + assert (Hn0 : named st m name).
      { pose proof (named_bound _ _ _ Hn) as Hb. rewrite insert_length in Hb.
        destruct (wf_named st Hwf m) as [name' Hn']; [unfold n in *; lia |].
        assert (name' = name) as <-; [| done]. eapply named_inj; [| done]. by eapply grows_named. }
      destruct (wf_route st Hwf m name Hn0) as (q & Hq & Hl). exists q.
      split; [by eapply grows_route | by apply Hg].
Qed.
End Insert.

Lemma symbol_locked_spec st str p :
  wf st -> valid_name str -> (pos p <= length (syms st))%nat -> route st str p ->
  exists n st', symbol_locked st str p = Ok (n, st') /\ wf st' /\ grows st st' /\ named st' n str /\ gs_ctr st' = gs_ctr st.
Proof.
  intros Hwf Hv Hp Hr. unfold symbol_locked. destruct (slot_ok st p Hp) as [v Hl]. rewrite Hl. cbn [obind].
  assert (Hq : exists r q, match v with None => Ok (None, p) | Some _ => symtab_lookup st p str end = Ok (r, q) /\
    route st str q /\ load_slot st q = Ok r /\ (pos q <= length (syms st))%nat /\ forall n, r = Some n -> named st n str).
  { destruct v; [by apply symtab_lookup_spec | by exists None, p]. }
  destruct Hq as (r & q & -> & Hrq & Hlq & Hpq & Hn). cbn [obind]. destruct r as [n |].
  - exists n, st. split; [done |]. split; [done |]. split; [reflexivity |]. split; [by apply Hn | done].
  - unfold mk_symbol. destruct (hash_symbol_ok str) as [h Hh]; [apply Hv |]. rewrite Hh. cbn [obind].
    eexists _, _. split; [reflexivity |]. split; [by apply insert_wf |]. split; [by apply insert_grows |].
    split; [by apply insert_named | by destruct q].
Qed.

(** ** Interleavings *)

(** What is known of a thread's position. *)
Definition thread_ok (st : symtab_t) (th : thread) : Prop :=
  match th with
  | Searching str p | Locking str p => valid_name str /\ (pos p <= length (syms st))%nat /\ route st str p
  | Done str n => named st n str
  end.

Lemma grows_thread_ok st st' th : grows st st' -> thread_ok st th -> thread_ok st' th.
Proof.
  intros Hg. destruct th as [str p | str p | str n]; cbn; [| | by apply grows_named];
    (intros (Hv & Hp & Hr); split; [done |]; split; [destruct Hg as (_ & Hl & _); lia | by eapply grows_route]).
Qed.

Lemma search_step_spec st str p :
  wf st -> thread_ok st (Searching str p) -> exists th, search_step st str p = Ok th /\ thread_ok st th.
Proof.
  intros Hwf (Hv & Hp & Hr). unfold search_step. destruct (hash_symbol_ok str) as [h Hh]; [apply Hv |].
  rewrite Hh. cbn [obind]. destruct (slot_ok st p Hp) as [v Hl]. rewrite Hl. cbn [obind].
  destruct v as [n |]; [| by exists (Locking str p)].
  destruct (walk_step st str p n h Hwf Hv Hh Hl) as (s & -> & [[Hn ->] | (_ & q & -> & Hnext & Hq)]); cbn [obind].
  - by exists (Done str n).
  - exists (Searching str q). split; [done |]. split; [done |]. apply (wf_up st Hwf) in Hl.
    split; [lia | by eapply rtc_r].
Qed.

Definition config_ok (c : config) : Prop :=
  wf (table c) /\ forall t th, threads c !! t = Some th -> thread_ok (table c) th.

Lemma threads_insert st (ts : gmap nat thread) t th :
  (forall t th, ts !! t = Some th -> thread_ok st th) -> thread_ok st th ->
  forall t' th', <[t := th]> ts !! t' = Some th' -> thread_ok st th'.
Proof. intros H Hth t' th' [[_ <-] | [_ Ht]]%lookup_insert_Some; [done | by eapply H]. Qed.

Lemma step_config_ok c c' : step c c' -> config_ok c -> config_ok c' /\ grows (table c) (table c').
Proof.
  intros [st ts t str Hfree Hv | st ts t str p th Ht Hs | st ts t str p n st' Ht Hs] [Hwf Hts]; cbn [table threads] in *.
  - split; [| reflexivity]. split; [done |]. apply threads_insert; [done |]. cbn.
    split; [done |]. split; [lia | apply rtc_refl].
  - split; [| reflexivity]. split; [done |]. apply threads_insert; [done |].
    destruct (search_step_spec st str p Hwf (Hts _ _ Ht)) as (th' & E & Hth). rewrite E in Hs. by injection Hs as <-.
  - destruct (Hts _ _ Ht) as (Hv & Hp & Hr).
    destruct (symbol_locked_spec st str p Hwf Hv Hp Hr) as (n' & st1 & E & Hwf' & Hg & Hn & _).
    rewrite E in Hs. injection Hs as <- <-. split; [| done]. split; [done |]. cbn [table threads].
    apply threads_insert; [| done]. intros t' th' Ht'. eapply grows_thread_ok; [done | by eapply Hts].
Qed.

Lemma steps_config_ok c c' : rtc step c c' -> config_ok c -> config_ok c' /\ grows (table c) (table c').
Proof.
  induction 1 as [c | c c1 c' Hs _ IH]; intros Hc; [done |]. destruct (step_config_ok _ _ Hs Hc) as [Hc1 Hg].
  destruct (IH Hc1) as [Hc' Hg']. split; [done | by etrans].
Qed.

Lemma empty_wf : wf empty_symtab.
Proof.
  split.
  - intros p n H. destruct p; cbn in H; rewrite ?lookup_nil in H; done.
  - intros n H. cbn in H. lia.
  - intros n str (s & E & _). cbn in E. by rewrite lookup_nil in E.
Qed.

Lemma initial_config_ok : config_ok (Config empty_symtab ∅).
Proof. split; [apply empty_wf |]. intros t th H. cbn in H. by rewrite lookup_empty in H. Qed.

(** C13: Interning is canonical under any interleaving of [_jl_symbol] calls,
    with the lock-free search reading one slot at a time: a call that has
    returned a symbol for [str] and any call that returns later, or has
    returned already, for [str'] have the same symbol exactly when the strings
    are the same, and the symbol's name stays [str]. *)
Theorem symbols_canonical (c c' : config) (t t' : nat) (str str' : list Z) (n n' : nat) :
  reachable c -> rtc step c c' ->
  threads c !! t = Some (Done str n) -> threads c' !! t' = Some (Done str' n') ->
  (n = n' <-> str = str') /\ exists s, syms (table c') !! n = Some s /\ jl_symbol_name s = str ++ [0].
Proof.
  intros Hc Hs Ht Ht'. destruct (steps_config_ok _ _ Hc initial_config_ok) as [Hok _].
  destruct (steps_config_ok _ _ Hs Hok) as [Hok' Hg].
  pose proof (grows_named _ _ _ _ Hg (proj2 Hok _ _ Ht)) as Hn. pose proof (proj2 Hok' _ _ Ht') as Hn'. cbn in Hn'.
  split.
  - split; [intros <-; by eapply named_inj | intros <-; by eapply named_unique; [apply Hok' | |]].
  - destruct Hn as (s & E & Hname & _). by exists s.
Qed.

(** C25: No call of [_jl_symbol] fails or hangs in any interleaving: the next
    load of a searching thread and the critical section of a thread at the
    lock succeed, and a search moves to a slot of a node allocated later than
    the one it leaves, so it ends after at most as many loads as there are
    symbols. *)
Theorem symbol_progress (c : config) (t : nat) (str : list Z) (p : slot) :
  reachable c ->
  (threads c !! t = Some (Searching str p) ->
     exists th, search_step (table c) str p = Ok th /\
       forall q, th = Searching str q -> (pos p < pos q <= length (syms (table c)))%nat) /\
  (threads c !! t = Some (Locking str p) -> exists n st', symbol_locked (table c) str p = Ok (n, st')).
Proof.
  intros Hc. destruct (steps_config_ok _ _ Hc initial_config_ok) as [[Hwf Hts] _]. split; intros Ht.
  - pose proof (Hts _ _ Ht) as Hok. destruct (search_step_spec (table c) str p Hwf Hok) as (th & E & Hth).
    exists th. split; [done |]. intros q ->. destruct Hok as (Hv & Hp & Hr), Hth as (_ & Hq & _).
    split; [| done]. unfold search_step in E. destruct (hash_symbol_ok str) as [h Hh]; [apply Hv |].
    rewrite Hh in E. cbn [obind] in E. destruct (slot_ok _ p Hp) as [v Hl]. rewrite Hl in E. cbn [obind] in E.
    destruct v as [n |]; [| done].
    destruct (walk_step _ str p n h Hwf Hv Hh Hl) as (s & Es & [[Hn Hc'] | (_ & q' & Hc' & Hnext & Hq')]);
      rewrite Es, Hc' in E; cbn [obind] in E; [done |].
    injection E as ->. apply (wf_up _ Hwf) in Hl. lia.
  - destruct (Hts _ _ Ht) as (Hv & Hp & Hr).
    destruct (symbol_locked_spec _ _ _ Hwf Hv Hp Hr) as (n & st' & E & _). by exists n, st'.
Qed.

(** ** Calls without interference *)

Lemma jl_symbol__spec st str :
  wf st -> valid_name str ->
  exists n st', jl_symbol_ st str = Ok (Symbol n, st') /\ wf st' /\ grows st st' /\ named st' n str /\ gs_ctr st' = gs_ctr st.
Proof.
  intros Hwf Hv. unfold jl_symbol_. pose proof Hv as (_ & Hnul & Hlen).
  rewrite (proj2 (Z.ltb_ge _ _)) by done. rewrite Hnul.
  destruct (symtab_lookup_spec st str SymtabRoot Hwf Hv) as (r & q & -> & Hr & Hl & Hp & Hn); [cbn; lia | apply rtc_refl |].
  cbn [obind]. destruct r as [n |].
  - exists n, st. split; [done |]. split; [done |]. split; [reflexivity |]. split; [by apply Hn | done].
  - destruct (symbol_locked_spec st str q Hwf Hv Hp Hr) as (n & st' & -> & H). by exists n, st'.
Qed.

Lemma cstr_terminated str rest : has_nul str = false -> cstr (str ++ 0 :: rest) = Ok str.
Proof.
  rewrite has_nul_false. induction 1 as [| c str Hc _ IH]; [done |]. cbn [app cstr].
  rewrite (proj2 (Z.eqb_neq c 0)) by done. by rewrite IH.
Qed.

Lemma digits_valid cs : Forall (fun c => isdigit_base c 10 = true) cs -> Forall is_byte cs /\ has_nul cs = false.
Proof.
  intros H. assert (Hd : Forall (fun c => 48 <= c < 58) cs).
  { eapply Forall_impl; [exact H |]. intros c. unfold isdigit_base. cbn. lia. }
  split; [| apply has_nul_false]; (eapply Forall_impl; [exact Hd |]); intros c Hc; unfold is_byte; cbn in *; lia.
Qed.

Lemma has_nul_app a b : has_nul (a ++ b) = has_nul a || has_nul b.
Proof. apply existsb_app. Qed.

Lemma next_ctr_wf st ctr : wf st -> wf (jl_set_gs_ctr st ctr).
Proof.
  intros [H1 H2 H3]. split; [exact H1 | exact H2 | exact H3].
Qed.

(** [##] and the digits: the bytes [jl_gensym] hands to [jl_symbol]. *)
Lemma gensym_buffer (junk pre cs : list Z) :
  length junk = 16%nat -> (length pre + length cs = 13)%nat ->
  exists name0 name, wr (take 2 junk ++ pre ++ cs ++ [0]) (Z.of_nat (length pre) + 2 - 1) 35 = Ok name0 /\
    wr name0 (Z.of_nat (length pre) + 2 - 2) 35 = Ok name /\
    drop (length pre) name = [35; 35] ++ cs ++ [0].
Proof.
  intros Hj Hl. set (a := take 2 junk ++ pre ++ cs ++ [0]).
  assert (Ha : length a = 16%nat) by (unfold a; rewrite !length_app, length_take; cbn [length]; lia).
  rewrite wr_in_range by lia. eexists _, _. split; [reflexivity |].
  rewrite wr_in_range by (rewrite length_insert; lia). split; [reflexivity |].
  replace (Z.to_nat (Z.of_nat (length pre) + 2 - 1)) with (S (length pre)) by lia.
  replace (Z.to_nat (Z.of_nat (length pre) + 2 - 2)) with (length pre) by lia.
  assert (Hd : drop (S (S (length pre))) a = cs ++ [0]).
  { unfold a. rewrite app_assoc. apply drop_app_length'. rewrite length_app, length_take. lia. }
  apply list_eq. intros i. rewrite lookup_drop. destruct i as [| [| i]]; cbn [app].
  - rewrite Nat.add_0_r, list_lookup_insert_eq by (rewrite length_insert; lia). done.
  - replace (length pre + 1)%nat with (S (length pre)) by lia.
    rewrite list_lookup_insert_ne by lia. rewrite list_lookup_insert_eq by lia. done.
  - rewrite !list_lookup_insert_ne by lia. change ((35 :: 35 :: cs ++ [0]) !! S (S i)) with ((cs ++ [0]) !! i).
    rewrite <- Hd, lookup_drop. f_equal. lia.
Qed.

(** [jl_gensym] stays inside its buffer and returns the symbol whose name
    is [##] followed by the decimal digits of the counter, which it advances
    modulo 2^32; [jl_tagged_gensym] does the same with the tag and [#] between.
    (The digits read back as the counter, so calls with different counters
    give different symbols.) *)
Theorem gensym_correct (st : symtab_t) (junk tag junk' : list Z) :
  wf st -> 0 <= gs_ctr st < 2 ^ 32 -> length junk = 16%nat -> length junk' = 14%nat ->
  valid_name tag -> Z.of_nat (length tag) + 17 <= MAX_SYM_LEN ->
  (exists n st' cs, jl_gensym st junk = Ok (Symbol n, st') /\ wf st' /\ gs_ctr st' = u32 (gs_ctr st + 1) /\
     named st' n ([35; 35] ++ cs) /\ canonical 10 (gs_ctr st) cs) /\
  (exists n st' cs, jl_tagged_gensym st tag (Z.of_nat (length tag)) junk' = Ok (Symbol n, st') /\ wf st' /\
     gs_ctr st' = u32 (gs_ctr st + 1) /\ named st' n ([35; 35] ++ tag ++ [35] ++ cs) /\ canonical 10 (gs_ctr st) cs).
Proof.
  intros Hwf Hctr Hj Hj' (Htb & Htn & _) Htl. pose proof (next_ctr_wf st (u32 (gs_ctr st + 1)) Hwf) as Hwf'. split.
  - unfold jl_gensym, next_ctr.
    destruct (uint2str_spec (drop 2 junk) 14 (gs_ctr st) 10) as (pre & cs & -> & Hc & Hl);
      [lia | rewrite length_drop; lia | lia | lia |]. cbn [obind].
    destruct (gensym_buffer junk pre cs Hj) as (name0 & name & -> & E & Hd); [lia |]. cbn [obind]. rewrite E. cbn [obind].
    replace (Z.to_nat (Z.of_nat (length pre) + 2 - 2)) with (length pre) by lia. rewrite Hd.
    destruct (digits_valid cs) as [Hb Hn]; [apply Hc |].
    unfold jl_symbol. rewrite app_assoc, cstr_terminated by (by rewrite has_nul_app, Hn). cbn [obind].
    destruct (jl_symbol__spec (jl_set_gs_ctr st (u32 (gs_ctr st + 1))) ([35; 35] ++ cs)) as (n & st' & -> & Hw & _ & Hnm & Hg); [done | |].
    { split; [apply Forall_app; split; [by repeat constructor | done] |]. split; [by rewrite has_nul_app, Hn |].
      rewrite length_app. unfold MAX_SYM_LEN. cbn [length]. lia. }
    exists n, st', cs. done.
  - unfold jl_tagged_gensym, next_ctr. unfold MAX_SYM_LEN in *.
    rewrite (proj2 (Z.eqb_neq _ _)) by (change (u64 (-1)) with (2 ^ 64 - 1); lia). rewrite Z.ltb_irrefl, Nat2Z.id, take_ge, Htn by lia. cbn [obind].
    rewrite u64_small by lia. rewrite !(proj2 (Z.ltb_ge _ _)) by lia. cbn [orb].
    destruct (uint2str_spec junk' 14 (gs_ctr st) 10) as (pre & cs & -> & Hc & Hl); [lia | lia | lia | lia |]. cbn [obind].
    rewrite Nat2Z.id, drop_app_length. destruct (digits_valid cs) as [Hb Hn]; [apply Hc |].
    assert (Ht : take (Z.to_nat (14 + Z.of_nat (length tag) + 3 - Z.of_nat (length pre) - 1)) ([35; 35] ++ tag ++ [35] ++ cs ++ [0]) =
                 [35; 35] ++ tag ++ [35] ++ cs).
    { replace ([35; 35] ++ tag ++ [35] ++ cs ++ [0]) with (([35; 35] ++ tag ++ [35] ++ cs) ++ [0]) by (by rewrite <- !app_assoc).
      apply take_app_length'. rewrite !length_app. cbn [length]. lia. }
    rewrite Ht.
    destruct (jl_symbol__spec (jl_set_gs_ctr st (u32 (gs_ctr st + 1))) ([35; 35] ++ tag ++ [35] ++ cs)) as (n & st' & -> & Hw & _ & Hnm & Hg); [done | |].
    { split; [repeat (apply Forall_app; split); [by repeat constructor | done | by repeat constructor | done] |].
      split; [by rewrite !has_nul_app, Htn, Hn |]. rewrite !length_app. unfold MAX_SYM_LEN. cbn [length]. lia. }
    exists n, st', cs. done.
Qed.

(** ** Witnesses *)

(** The string "ab". *)
Definition str_ab : list Z := [97; 98].

Lemma str_ab_valid : valid_name str_ab.
Proof. split; [by repeat constructor | done]. Qed.

Definition table_of (o : outcome (nat * symtab_t)) : symtab_t := match o with Ok (_, st) => st | _ => empty_symtab end.

(** Threads 0 and 1 race for "ab": both searches end before either takes the
    lock. *)
Definition raced : symtab_t := table_of (symbol_locked empty_symtab str_ab SymtabRoot).
Definition race_lock0 : config :=
  Config empty_symtab (<[1 := Locking str_ab SymtabRoot]> (<[0 := Locking str_ab SymtabRoot]>
    (<[1 := Searching str_ab SymtabRoot]> (<[0 := Searching str_ab SymtabRoot]> ∅))))%nat.
Definition race_done0 : config := Config raced (<[0 := Done str_ab 0]> (threads race_lock0))%nat.
Definition race_done1 : config := Config raced (<[1 := Done str_ab 0]> (threads race_done0))%nat.

Lemma race_lock0_reachable : reachable race_lock0.
Proof.
  eapply rtc_l; [apply (step_call empty_symtab ∅ 0 str_ab); [by left | apply str_ab_valid] |].
  eapply rtc_l; [eapply (step_call empty_symtab _ 1 str_ab); [by left | apply str_ab_valid] |].
  eapply rtc_l; [eapply (step_search empty_symtab _ 0 str_ab SymtabRoot (Locking str_ab SymtabRoot)); vm_compute; reflexivity |].
  eapply rtc_l; [eapply (step_search empty_symtab _ 1 str_ab SymtabRoot (Locking str_ab SymtabRoot)); vm_compute; reflexivity |].
  apply rtc_refl.
Qed.

Lemma race_done0_step : rtc step race_lock0 race_done0.
Proof.
  eapply rtc_l; [eapply (step_lock empty_symtab _ 0 str_ab SymtabRoot 0 raced); vm_compute; reflexivity |]. apply rtc_refl.
Qed.

Lemma race_done1_step : rtc step race_done0 race_done1.
Proof.
  eapply rtc_l; [eapply (step_lock raced _ 1 str_ab SymtabRoot 0 raced); vm_compute; reflexivity |]. apply rtc_refl.
Qed.

Lemma symbols_canonical_witness :
  (0%nat = 0%nat <-> str_ab = str_ab) /\ exists s, syms raced !! 0%nat = Some s /\ jl_symbol_name s = str_ab ++ [0].
Proof.
  apply (symbols_canonical race_done0 race_done1 0 1 str_ab str_ab 0 0);
    [exact (transitivity race_lock0_reachable race_done0_step) | exact race_done1_step | reflexivity | reflexivity].
Defined.

Lemma symbol_progress_witness : exists n st', symbol_locked empty_symtab str_ab SymtabRoot = Ok (n, st').
Proof. apply (symbol_progress race_lock0 0 str_ab SymtabRoot race_lock0_reachable). reflexivity. Defined.

Lemma gensym_correct_witness :
  exists n st' cs, jl_gensym empty_symtab (replicate 16 0) = Ok (Symbol n, st') /\ wf st' /\
    gs_ctr st' = u32 (gs_ctr empty_symtab + 1) /\ named st' n ([35; 35] ++ cs) /\ canonical 10 (gs_ctr empty_symtab) cs.
Proof.
  apply (gensym_correct empty_symtab (replicate 16 0) str_ab (replicate 14 0));
    [exact empty_wf | cbn; lia | reflexivity | reflexivity | exact str_ab_valid | unfold MAX_SYM_LEN; cbn; lia].
Defined.
