(* ===== verification/Bytes.v ===== *)
(** * Byte streams (serialize.h)

    The helpers that write and read fixed-width integers in host (little
    endian) byte order.  A memory stream that is written is the list of bytes
    written so far; one that is read is the list of bytes not read yet.  Reads
    past the end behave as [ios_getc] and [ios_read] do: [ios_getc] gives
    [-1], and [ios_read] leaves the bytes it could not read zero. *)

From stdpp Require Import base list numbers option.
From Stdlib Require Import ZArith Lia.
From S2P Require Import Prelude Hashing HashingFacts.

(** The [n] low bytes of [x], as they lie in memory. *)
Fixpoint le_bytes (n : nat) (x : Z) : list Z :=
  match n with
  | O => []
  | S n' => x mod 256 :: le_bytes n' (x / 256)
  end.

Definition write_uint8 (s : list Z) (n : Z) : list Z := s ++ [u8 n].
Definition write_uint16 (s : list Z) (i : Z) : list Z := s ++ le_bytes 2 i.
Definition write_uint32 (s : list Z) (i : Z) : list Z := s ++ le_bytes 4 i.
Definition write_int32 (s : list Z) (i : Z) : list Z := s ++ le_bytes 4 i.
Definition write_uint64 (s : list Z) (i : Z) : list Z := s ++ le_bytes 8 i.

Definition i16 (x : Z) : Z := (x + 2 ^ 15) mod 2 ^ 16 - 2 ^ 15.

Definition read_uint8 (s : list Z) : Z * list Z :=
  match s with
  | [] => (u8 (-1), [])
  | b :: s => (b, s)
  end.
Definition read_uint16 (s : list Z) : Z * list Z := (le_word (take 2 s), drop 2 s).
Definition read_uint32 (s : list Z) : Z * list Z := (le_word (take 4 s), drop 4 s).
Definition read_int32 (s : list Z) : Z * list Z := (i32 (le_word (take 4 s)), drop 4 s).
Definition read_uint64 (s : list Z) : Z * list Z := (le_word (take 8 s), drop 8 s).

(** [ios_readall] of [n] bytes; fewer bytes would leave the destination
    uninitialized. *)
Definition ios_readall (s : list Z) (n : Z) : outcome (list Z * list Z) :=
  if (0 <=? n) && (n <=? Z.of_nat (length s)) then Ok (take (Z.to_nat n) s, drop (Z.to_nat n) s) else UB.

(** ** Laws *)

Lemma length_le_bytes n x : length (le_bytes n x) = n.
Proof. revert x. induction n as [| n IH]; intros x; cbn; [done | by rewrite IH]. Qed.

Lemma le_bytes_bytes n x : Forall is_byte (le_bytes n x).
Proof. revert x. induction n as [| n IH]; intros x; cbn; constructor; [apply Z.mod_pos_bound; lia | apply IH]. Qed.

Lemma le_word_le_bytes n x : le_word (le_bytes n x) = x mod 2 ^ (8 * Z.of_nat n).
Proof.
  revert x. induction n as [| n IH]; intros x; cbn [le_bytes le_word]; [by rewrite Z.mod_1_r |].
  rewrite IH. replace (8 * Z.of_nat (S n)) with (8 + 8 * Z.of_nat n) by lia.
  rewrite Z.pow_add_r, (Z.rem_mul_r x (2 ^ 8)) by lia. reflexivity.
Qed.

Lemma take_le_bytes n x s : take n (le_bytes n x ++ s) = le_bytes n x.
Proof. apply take_app_length'. by rewrite length_le_bytes. Qed.

Lemma drop_le_bytes n x s : drop n (le_bytes n x ++ s) = s.
Proof. apply drop_app_length'. by rewrite length_le_bytes. Qed.

Lemma i16_mod x : - 2 ^ 15 <= x < 2 ^ 15 -> i16 (x mod 2 ^ 16) = x.
Proof. intros H. unfold i16. rewrite Zplus_mod_idemp_l, Z.mod_small; lia. Qed.

Lemma i32_mod x : - 2 ^ 31 <= x < 2 ^ 31 -> i32 (x mod 2 ^ 32) = x.
Proof. intros H. unfold i32. rewrite Zplus_mod_idemp_l, Z.mod_small; lia. Qed.

Lemma i64_mod x : - 2 ^ 63 <= x < 2 ^ 63 -> i64 (x mod 2 ^ 64) = x.
Proof. intros H. unfold i64. rewrite Zplus_mod_idemp_l, Z.mod_small; lia. Qed.

Lemma read_uint16_write x s : read_uint16 (le_bytes 2 x ++ s) = (u16 x, s).
Proof. unfold read_uint16. by rewrite take_le_bytes, drop_le_bytes, le_word_le_bytes. Qed.

Lemma read_uint32_write x s : read_uint32 (le_bytes 4 x ++ s) = (u32 x, s).
Proof. unfold read_uint32. by rewrite take_le_bytes, drop_le_bytes, le_word_le_bytes. Qed.

Lemma read_int32_write x s : - 2 ^ 31 <= x < 2 ^ 31 -> read_int32 (le_bytes 4 x ++ s) = (x, s).
Proof.
  intros H. unfold read_int32. rewrite take_le_bytes, drop_le_bytes, le_word_le_bytes.
  change (8 * Z.of_nat 4) with 32. by rewrite i32_mod.
Qed.

Lemma read_uint64_write x s : read_uint64 (le_bytes 8 x ++ s) = (u64 x, s).
Proof. unfold read_uint64. by rewrite take_le_bytes, drop_le_bytes, le_word_le_bytes. Qed.

Lemma ios_readall_app a s : ios_readall (a ++ s) (Z.of_nat (length a)) = Ok (a, s).
Proof.
  unfold ios_readall. rewrite length_app, (proj2 (Z.leb_le 0 _)), (proj2 (Z.leb_le _ _)) by lia. cbn [andb].
  by rewrite Nat2Z.id, take_app_length, drop_app_length.
Qed.

Create Rewrite HintDb stream.
#[export] Hint Rewrite read_uint16_write read_uint32_write read_uint64_write ios_readall_app : stream.
#[export] Hint Rewrite read_int32_write using lia : stream.
