(* ===== verification/Codelocs.v ===== *)
(** * Inlining costs and code locations (ircode.c)

    [jl_encode_inlining_cost] packs a 16-bit cost into a byte with a 3-bit
    exponent, rounding up.  [jl_compress_codelocs] packs the locations of the
    statements of a method, triples of [int32_t], as offsets from the least
    line in the smallest width that fits, behind a header of three
    [int32_t]. *)

From stdpp Require Import base list numbers option.
From Stdlib Require Import ZArith Lia.
From S2P Require Import Prelude Hashing HashingFacts Bytes.

(** ** Inlining costs *)

(** [while (inlining_cost >> 5 >> shift != 0) shift++;] *)
Fixpoint cost_shift (fuel : nat) (inlining_cost shift : Z) : outcome Z :=
  match fuel with
  | O => Timeout
  | S fuel' =>
      if Z.shiftr (Z.shiftr inlining_cost 5) shift =? 0 then Ok shift
      else cost_shift fuel' inlining_cost (shift + 1)
  end.

Definition jl_encode_inlining_cost (inlining_cost : Z) : outcome Z :=
  let! (shift, mantissa) :=
    if inlining_cost <=? 0x1f then Ok (0, inlining_cost)
    else
      let! shift := cost_shift 17 inlining_cost 0 in
      if negb ((1 <=? shift) && (shift <=? 11)) then UB
      else
        let mantissa := Z.land (Z.shiftr inlining_cost (shift - 1)) 0x1f in
        let mantissa := mantissa + (if Z.land inlining_cost (Z.shiftl 1 (shift - 1) - 1) =? 0 then 0 else 1) in
        Ok (shift, mantissa) in
  let r := Z.shiftl shift 5 + mantissa in
  Ok (if 0xff <? r then 0xff else r).

Definition jl_decode_inlining_cost (inlining_cost : Z) : Z :=
  let shift := Z.shiftr inlining_cost 5 in
  if inlining_cost =? 0xff then 0xffff
  else if shift =? 0 then inlining_cost
  else u16 (Z.shiftl (Z.lor 0x20 (Z.land inlining_cost 0x1f)) (shift - 1)).

(** ** Code locations *)

Record jl_codeloc_t := Codeloc { loc : Z; to : Z; pc : Z }.

(** A value of type [int], undefined when it overflows. *)
Definition ck32 (x : Z) : outcome Z := if (- 2 ^ 31 <=? x) && (x <? 2 ^ 31) then Ok x else UB.

Definition loc_width (x : Z) : Z := if x <=? 255 then 1 else if x <=? 65535 then 2 else 4.
Definition to_width (x : Z) : Z := if x =? 0 then 0 else if x <=? 255 then 1 else if x <=? 65535 then 2 else 4.

(** [header[i]] of the string. *)
Definition header_word (cl : list Z) (i : nat) : Z := i32 (le_word (take 4 (drop (4 * i) cl))).

(** [(nstmts, loc_offset, loc_bytes, to_bytes)]. *)
Definition codelocs_parseheader (cl : list Z) : outcome (Z * Z * Z * Z) :=
  if Z.of_nat (length cl) =? 0 then Ok (0, 0, 0, 0)
  else if Z.of_nat (length cl) <? 12 then UB
  else
    let loc_bytes := loc_width (header_word cl 1) in
    let to_bytes := to_width (header_word cl 2) in
    if Z.of_nat (length cl) <? 12 + loc_bytes then UB
    else Ok ((Z.of_nat (length cl) - 12 - loc_bytes) / (loc_bytes + to_bytes * 2),
             header_word cl 0, loc_bytes, to_bytes).

(** The value and the rest of the bytes. *)
Definition take_u32 (ptr : list Z) (n_bytes : Z) : outcome (Z * list Z) :=
  if n_bytes =? 0 then Ok (0, ptr)
  else if (n_bytes =? 1) || (n_bytes =? 2) || (n_bytes =? 4) then load (Z.to_nat n_bytes) ptr
  else UB.

Definition unpack_codeloc (cl : list Z) (pc loc_offset loc_bytes to_bytes : Z) : outcome jl_codeloc_t :=
  let to_bytes := if pc =? 0 then 0 else to_bytes in
  let off := if pc =? 0 then 12 else 12 + (loc_bytes + (pc - 1) * (loc_bytes + to_bytes * 2)) in
  let ptr := drop (Z.to_nat off) cl in
  let! (l, ptr) := take_u32 ptr loc_bytes in
  let l := i32 l in
  let! l := if 0 <? l then let! d := ck32 (loc_offset - 1) in ck32 (l + d) else Ok l in
  let! (t, ptr) := take_u32 ptr to_bytes in
  let! (p, _) := take_u32 ptr to_bytes in
  Ok (Codeloc l (i32 t) (i32 p)).

Definition badloc : jl_codeloc_t := Codeloc (-1) 0 0.

(** [cl] is [di->codelocs]; [pc] a [size_t]. *)
Definition jl_uncompress1_codeloc (cl : list Z) (pc : Z) : outcome jl_codeloc_t :=
  let! (nstmts, loc_offset, loc_bytes, to_bytes) := codelocs_parseheader cl in
  if nstmts <? pc then Ok badloc else unpack_codeloc cl pc loc_offset loc_bytes to_bytes.

(** The [do]/[while] of [allzero]: it reads an element before it tests for the
    end. *)
Definition allzero (codelocs : list Z) : outcome bool :=
  let! _ := rd codelocs 0 in Ok (forallb (Z.eqb 0) codelocs).

(** [memcpy(&codeloc, jl_array_data(codelocs, int32_t) + 3 * i, ...)]. *)
Definition codeloc_at (codelocs : list Z) (i : nat) : outcome jl_codeloc_t :=
  let! l := rd codelocs (3 * Z.of_nat i) in
  let! t := rd codelocs (3 * Z.of_nat i + 1) in
  let! p := rd codelocs (3 * Z.of_nat i + 2) in
  Ok (Codeloc l t p).

(** The scan for the least and greatest components. *)
Definition scan_step (mm : jl_codeloc_t * jl_codeloc_t) (c : jl_codeloc_t) : jl_codeloc_t * jl_codeloc_t :=
  let (mn, mx) := mm in
  (Codeloc (if (0 <? loc c) && (loc c <? loc mn) then loc c else loc mn)
           (if to c <? to mn then to c else to mn) (if pc c <? pc mn then pc c else pc mn),
   Codeloc (if loc mx <? loc c then loc c else loc mx)
           (if to mx <? to c then to c else to mx) (if pc mx <? pc c then pc c else pc mx)).

Fixpoint scan_codelocs (n : nat) (i : nat) (codelocs : list Z) (mm : jl_codeloc_t * jl_codeloc_t)
    : outcome (jl_codeloc_t * jl_codeloc_t) :=
  match n with
  | O => Ok mm
  | S n' => let! c := codeloc_at codelocs i in scan_codelocs n' (S i) codelocs (scan_step mm c)
  end.

(** [int8 = int16 = int32 = x] and the copy of the width that is wanted. *)
Definition put (ptr : list Z) (width x : Z) : list Z := ptr ++ le_bytes (Z.to_nat width) x.

Definition pack_loc (header0 l : Z) : outcome Z :=
  if 0 <? l then let! d := ck32 (l - header0) in ck32 (d + 1) else Ok 0.

Fixpoint pack_codelocs (n i : nat) (codelocs : list Z) (header0 loc_bytes to_bytes : Z) (ptr : list Z) : outcome (list Z) :=
  match n with
  | O => Ok ptr
  | S n' =>
      let! c := codeloc_at codelocs i in
      let! l := pack_loc header0 (loc c) in
      let ptr := put ptr loc_bytes l in
      let ptr := put ptr to_bytes (to c) in
      let ptr := put ptr to_bytes (pc c) in
      pack_codelocs n' (S i) codelocs header0 loc_bytes to_bytes ptr
  end.

Definition INT32_MAX : Z := 2 ^ 31 - 1.

(** The compressed string. *)
Definition jl_compress_codelocs (firstloc : Z) (codelocs : list Z) (nstmts : Z) : outcome (list Z) :=
  let nstmts := if Z.of_nat (length codelocs) =? 0 then 0 else nstmts in
  if negb (nstmts * 3 =? Z.of_nat (length codelocs)) then UB
  else
    let! z := allzero codelocs in
    if (z : bool) then Ok []
    else
      let m := if firstloc <=? 0 then INT32_MAX else firstloc in
      let! (mn, mx) := scan_codelocs (Z.to_nat nstmts) 0 codelocs (Codeloc m m m, Codeloc 0 0 0) in
      let header0 := if loc mx <? loc mn then 0 else loc mn in
      let! header1 := if loc mx <? loc mn then Ok 0 else ck32 (loc mx - loc mn) in
      let header2 := if pc mx <? to mx then to mx else pc mx in
      let loc_bytes := loc_width header1 in
      let to_bytes := to_width header2 in
      let cl := le_bytes 4 header0 ++ le_bytes 4 header1 ++ le_bytes 4 header2 in
      let! f := pack_loc header0 firstloc in
      let cl := put cl loc_bytes f in
      pack_codelocs (Z.to_nat nstmts) 0 codelocs header0 loc_bytes to_bytes cl.

Fixpoint unpack_codelocs (n i : nat) (cl : list Z) (loc_offset loc_bytes to_bytes : Z) : outcome (list Z) :=
  match n with
  | O => Ok []
  | S n' =>
      let! c := unpack_codeloc cl (Z.of_nat i + 1) loc_offset loc_bytes to_bytes in
      let! r := unpack_codelocs n' (S i) cl loc_offset loc_bytes to_bytes in
      Ok (loc c :: to c :: pc c :: r)
  end.

Definition jl_uncompress_codelocs (cl : list Z) (nstmts : Z) : outcome (list Z) :=
  let! (nlocs, loc_offset, loc_bytes, to_bytes) := codelocs_parseheader cl in
  if negb ((nlocs =? 0) || (nlocs =? nstmts)) then UB
  else if nlocs =? 0 then Ok (replicate (3 * Z.to_nat nstmts) 0)
  else unpack_codelocs (Z.to_nat nlocs) 0 cl loc_offset loc_bytes to_bytes.
