(* ===== verification/CodelocsFacts.v ===== *)
(** * Inlining costs round up and code locations round-trip *)

From Stdlib Require Import ZArith Lia.
From stdpp Require Import base numbers option list.
From S2P Require Import Prelude Hashing HashingFacts Bytes Codelocs.

(** ** Inlining costs *)

Definition cost_ok (c : Z) : bool :=
  match jl_encode_inlining_cost c with
  | Ok b =>
      (0 <=? b) && (b <=? 255) && (c <=? jl_decode_inlining_cost b) &&
      (if c <=? 63 then jl_decode_inlining_cost b =? c else true) &&
      (if c <=? 3968 then 32 * (jl_decode_inlining_cost b - c) <? c + 1 else b =? 255)
  | _ => false
  end.

Definition byte_ok (b : Z) : bool :=
  match jl_encode_inlining_cost (jl_decode_inlining_cost b) with Ok b' => b' =? b | _ => false end.

Lemma cost_ok_all : all_below 65536 cost_ok = true.
Proof. vm_compute. reflexivity. Qed.

Lemma byte_ok_all : all_below 256 byte_ok = true.
Proof. vm_compute. reflexivity. Qed.

(** For every 16-bit cost [jl_encode_inlining_cost] passes its assertion
    and gives a byte that decodes to no less than the cost: exactly the cost
    up to 63, less than a 32nd more up to 3968, and the maximum beyond.
    Decoding any byte and encoding the result gives the byte back. *)
Theorem inlining_cost_roundtrip (c b : Z) :
  0 <= c < 65536 -> 0 <= b < 256 ->
  (exists e, jl_encode_inlining_cost c = Ok e /\ 0 <= e < 256 /\ c <= jl_decode_inlining_cost e /\
     (c <= 63 -> jl_decode_inlining_cost e = c) /\
     (c <= 3968 -> 32 * (jl_decode_inlining_cost e - c) <= c) /\
     (3968 < c -> jl_decode_inlining_cost e = 65535)) /\
  jl_encode_inlining_cost (jl_decode_inlining_cost b) = Ok b.
Proof.
  intros Hc Hb. pose proof (all_below_spec _ _ cost_ok_all c Hc) as H1. pose proof (all_below_spec _ _ byte_ok_all b Hb) as H2.
  unfold cost_ok in H1. unfold byte_ok in H2. split.
  - destruct (jl_encode_inlining_cost c) as [e | |]; [| done | done]. exists e. split; [done |].
    apply andb_prop in H1 as [H1 H5]. apply andb_prop in H1 as [H1 H4].
    repeat split; try lia.
    + intros Hle. rewrite (proj2 (Z.leb_le c 63) Hle) in H4. lia.
    + intros Hle. rewrite (proj2 (Z.leb_le c 3968) Hle) in H5. lia.
    + intros Hlt. rewrite (proj2 (Z.leb_gt c 3968) Hlt) in H5. apply Z.eqb_eq in H5 as ->. reflexivity.
  - destruct (jl_encode_inlining_cost (jl_decode_inlining_cost b)) as [e | |]; [| done | done]. apply Z.eqb_eq in H2. by rewrite H2.
Qed.

Lemma inlining_cost_roundtrip_witness :
  jl_encode_inlining_cost (jl_decode_inlining_cost 200) = Ok 200.
Proof. apply (inlining_cost_roundtrip 100 200); lia. Defined.

(** ** Code locations *)

Definition flat_codelocs (cs : list jl_codeloc_t) : list Z := concat (map (fun c => [loc c; to c; pc c]) cs).

(** Lines and edges are not negative. *)
Definition codeloc_valid (c : jl_codeloc_t) : Prop :=
  0 <= loc c < 2 ^ 31 /\ 0 <= to c < 2 ^ 31 /\ 0 <= pc c < 2 ^ 31.

(** The extremes the scan finds. *)
Definition extremes (firstloc : Z) (cs : list jl_codeloc_t) : jl_codeloc_t * jl_codeloc_t :=
  let m := if firstloc <=? 0 then INT32_MAX else firstloc in
  fold_left scan_step cs (Codeloc m m m, Codeloc 0 0 0).

(** [header[1]]: greatest line less least line. *)
Definition spread (firstloc : Z) (cs : list jl_codeloc_t) : Z :=
  let (mn, mx) := extremes firstloc cs in if loc mx <? loc mn then 0 else loc mx - loc mn.

Lemma length_flat_codelocs cs : Z.of_nat (length (flat_codelocs cs)) = 3 * Z.of_nat (length cs).
Proof. induction cs as [| c cs IH]; [done |]. cbn [length]. unfold flat_codelocs in *. cbn. lia. Qed.

Lemma codeloc_at_flat pre c cs : codeloc_at (flat_codelocs (pre ++ c :: cs)) (length pre) = Ok c.
Proof.
  assert (Hl := length_flat_codelocs pre).
  assert (Hrd : forall k, 0 <= k ->
    rd (flat_codelocs (pre ++ c :: cs)) (3 * Z.of_nat (length pre) + k) = rd (flat_codelocs (c :: cs)) k).
  { intros k Hk. unfold flat_codelocs in *. rewrite map_app, concat_app. rewrite rd_app_r by lia. f_equal. lia. }
  unfold codeloc_at. rewrite <- (Z.add_0_r (3 * Z.of_nat (length pre))) at 1. rewrite Hrd by lia. cbn [obind].
  destruct c as [l t p]. change (rd (flat_codelocs (Codeloc l t p :: cs)) 0) with (Ok l). cbn [obind].
  rewrite Hrd by lia. change (rd (flat_codelocs (Codeloc l t p :: cs)) 1) with (Ok t). cbn [obind].
  rewrite Hrd by lia. reflexivity.
Qed.

Lemma scan_codelocs_flat cs : forall pre mm,
  scan_codelocs (length cs) (length pre) (flat_codelocs (pre ++ cs)) mm = Ok (fold_left scan_step cs mm).
Proof.
  induction cs as [| c cs IH]; intros pre mm; [done |]. cbn [length scan_codelocs fold_left].
  rewrite codeloc_at_flat. cbn [obind]. specialize (IH (pre ++ [c]) (scan_step mm c)).
  rewrite <- app_assoc, length_app, Nat.add_comm in IH. exact IH.
Qed.

Definition bounded_by (mm : jl_codeloc_t * jl_codeloc_t) (c : jl_codeloc_t) : Prop :=
  loc c <= loc mm.2 /\ (0 < loc c -> loc mm.1 <= loc c) /\ to c <= to mm.2 /\ pc c <= pc mm.2.

Lemma scan_step_bounds mm c :
  let mm' := scan_step mm c in
  bounded_by mm' c /\ (forall d, bounded_by mm d -> bounded_by mm' d) /\
  (0 < loc mm.1 -> 0 < loc mm'.1) /\ loc mm'.1 <= loc mm.1 /\ (codeloc_valid c -> codeloc_valid mm.2 -> codeloc_valid mm'.2).
Proof.
  destruct mm as [mn mx]. unfold bounded_by, codeloc_valid, scan_step. cbn [fst snd loc to pc].
  repeat zcase; cbn; repeat split; intros; lia.
Qed.

Lemma fold_scan_bounds cs : forall mm,
  Forall codeloc_valid cs -> 0 < loc mm.1 -> codeloc_valid mm.2 ->
  let mm' := fold_left scan_step cs mm in
  (forall d, d ∈ cs \/ bounded_by mm d -> bounded_by mm' d) /\
  0 < loc mm'.1 <= loc mm.1 /\ codeloc_valid mm'.2.
Proof.
  induction cs as [| c cs IH]; intros mm Hv Hm Hx; cbn [fold_left].
  - split; [| split; [lia | done]]. intros d [H | H]; [by apply elem_of_nil in H | done].
  - apply Forall_cons in Hv as [Hc Hv]. destruct (scan_step_bounds mm c) as (H1 & H2 & H3 & H4 & H5).
    destruct (IH (scan_step mm c) Hv) as (H6 & H7 & H8); [auto | auto |].
    split; [| split; [lia | done]]. intros d [[-> | Hd]%elem_of_cons | Hd]; apply H6; auto.
Qed.

(** What the code writes for one statement. *)
Definition entry (h0 lb tb : Z) (c : jl_codeloc_t) : list Z :=
  le_bytes (Z.to_nat lb) (if 0 <? loc c then loc c - h0 + 1 else 0) ++
  le_bytes (Z.to_nat tb) (to c) ++ le_bytes (Z.to_nat tb) (pc c).

Lemma pack_loc_ok h0 l : 0 <= h0 -> (0 < l -> h0 <= l < 2 ^ 31) -> (0 < l -> l - h0 + 1 < 2 ^ 31) ->
  pack_loc h0 l = Ok (if 0 <? l then l - h0 + 1 else 0).
Proof.
  intros H0 H1 H2. unfold pack_loc, ck32. destruct (Z.ltb_spec 0 l); [| done].
  specialize (H1 ltac:(lia)). specialize (H2 ltac:(lia)).
  rewrite (proj2 (Z.leb_le _ (l - h0))), (proj2 (Z.ltb_lt (l - h0) _)) by lia. cbn [andb obind].
  by rewrite (proj2 (Z.leb_le _ (l - h0 + 1))), (proj2 (Z.ltb_lt (l - h0 + 1) _)) by lia.
Qed.

Lemma pack_codelocs_flat h0 lb tb cs : 0 <= h0 -> Forall codeloc_valid cs ->
  Forall (fun c => 0 < loc c -> 0 < h0 <= loc c) cs -> forall pre ptr,
  pack_codelocs (length cs) (length pre) (flat_codelocs (pre ++ cs)) h0 lb tb ptr =
  Ok (ptr ++ concat (map (entry h0 lb tb) cs)).
Proof.
  intros Hh. induction cs as [| c cs IH]; intros Hv Hl pre ptr; [cbn; by rewrite app_nil_r |].
  apply Forall_cons in Hv as [Hc Hv], Hl as [Hlc Hl]. cbn [length pack_codelocs].
  rewrite codeloc_at_flat. cbn [obind]. destruct Hc as (Hc1 & Hc2 & Hc3).
  rewrite pack_loc_ok by lia. cbn [obind]. specialize (IH Hv Hl (pre ++ [c])).
  rewrite length_app, Nat.add_comm, <- app_assoc in IH. cbn [app Nat.add] in IH. rewrite IH.
  unfold put, entry. cbn [map concat]. by rewrite <- !app_assoc.
Qed.

Definition is_width (w : Z) : Prop := w = 0 \/ w = 1 \/ w = 2 \/ w = 4.

Lemma take_u32_le_bytes w x s : is_width w -> 0 <= x < 2 ^ (8 * w) -> take_u32 (le_bytes (Z.to_nat w) x ++ s) w = Ok (x, s).
Proof.
  intros Hw Hx. unfold take_u32. destruct (Z.eqb_spec w 0) as [-> |]; [cbn in *; f_equal; f_equal; lia |].
  assert ((w =? 1) || (w =? 2) || (w =? 4) = true) as -> by (unfold is_width in Hw; lia).
  unfold load. rewrite length_app, length_le_bytes. destruct (Nat.leb_spec (Z.to_nat w) (Z.to_nat w + length s)); [| lia].
  rewrite take_le_bytes, drop_le_bytes, le_word_le_bytes, Z2Nat.id, Z.mod_small by (unfold is_width in Hw; lia). done.
Qed.

Lemma loc_width_cases x : is_width (loc_width x) /\ 0 < loc_width x.
Proof. unfold loc_width, is_width. repeat zcase; lia. Qed.

Lemma to_width_cases x : is_width (to_width x).
Proof. unfold to_width, is_width. repeat zcase; lia. Qed.

Lemma to_width_fits x y : 0 <= y <= x -> x < 2 ^ 31 -> 0 <= y < 2 ^ (8 * to_width x).
Proof. intros H1 H2. unfold to_width. repeat zcase; lia. Qed.

Lemma loc_width_fits x y : 0 <= y <= x + 1 -> x < 2 ^ 31 -> x <> 255 -> x <> 65535 -> 0 <= y < 2 ^ (8 * loc_width x).
Proof. intros H1 H2 H3 H4. unfold loc_width. repeat zcase; lia. Qed.

Lemma length_entry h0 lb tb c : 0 <= lb -> 0 <= tb -> Z.of_nat (length (entry h0 lb tb c)) = lb + tb * 2.
Proof. intros. unfold entry. rewrite !length_app, !length_le_bytes. lia. Qed.

Lemma length_entries h0 lb tb cs : 0 <= lb -> 0 <= tb ->
  Z.of_nat (length (concat (map (entry h0 lb tb) cs))) = Z.of_nat (length cs) * (lb + tb * 2).
Proof.
  intros Hl Ht. induction cs as [| c cs IH]; [done |]. cbn [map concat length]. rewrite length_app.
  pose proof (length_entry h0 lb tb c Hl Ht). lia.
Qed.

Lemma drop_entries h0 lb tb pre cs : 0 <= lb -> 0 <= tb ->
  drop (Z.to_nat (Z.of_nat (length pre) * (lb + tb * 2))) (concat (map (entry h0 lb tb) (pre ++ cs))) =
  concat (map (entry h0 lb tb) cs).
Proof.
  intros Hl Ht. rewrite map_app, concat_app. apply drop_app_length'.
  pose proof (length_entries h0 lb tb pre Hl Ht). lia.
Qed.

Lemma ck32_ok x : - 2 ^ 31 <= x < 2 ^ 31 -> ck32 x = Ok x.
Proof. intros H. unfold ck32. by rewrite (proj2 (Z.leb_le _ _)), (proj2 (Z.ltb_lt _ _)) by lia. Qed.

(** The string [jl_compress_codelocs] makes, and how it reads back. *)
Section Packed.
Context (h0 h1 h2 f : Z) (cs : list jl_codeloc_t).
Context (Hh0 : 0 <= h0 < 2 ^ 31) (Hh1 : 0 <= h1) (Hh01 : h0 + h1 < 2 ^ 31) (Hh2 : 0 <= h2 < 2 ^ 31).
Let lb := loc_width h1.
Let tb := to_width h2.
Let packed := (le_bytes 4 h0 ++ le_bytes 4 h1 ++ le_bytes 4 h2) ++ le_bytes (Z.to_nat lb) f ++ concat (map (entry h0 lb tb) cs).

Lemma widths : is_width lb /\ 0 < lb /\ is_width tb /\ 0 <= tb.
Proof.
  destruct (loc_width_cases h1) as [H1 H2]. pose proof (to_width_cases h2) as H3.
  repeat split; try done. unfold is_width, tb in *. lia.
Qed.

Lemma header_words : header_word packed 0 = h0 /\ header_word packed 1 = h1 /\ header_word packed 2 = h2.
Proof.
  unfold header_word, packed. rewrite <- !app_assoc. cbn [Nat.mul Nat.add].
  assert (Hr : forall x s, 0 <= x < 2 ^ 31 -> i32 (le_word (take 4 (le_bytes 4 x ++ s))) = x).
  { intros x s Hx. rewrite take_le_bytes, le_word_le_bytes. apply i32_mod. lia. }
  rewrite drop_0, Hr by lia. split; [done |].
  rewrite drop_le_bytes, Hr by lia. split; [done |].
  change 8%nat with (4 + 4)%nat. rewrite <- drop_drop, !drop_le_bytes, Hr by lia. done.
Qed.

Lemma length_packed : Z.of_nat (length packed) = 12 + lb + Z.of_nat (length cs) * (lb + tb * 2).
Proof.
  destruct widths as (_ & H1 & _ & H2). unfold packed. rewrite !length_app, !length_le_bytes.
  pose proof (length_entries h0 lb tb cs). lia.
Qed.

Lemma parseheader_packed : codelocs_parseheader packed = Ok (Z.of_nat (length cs), h0, lb, tb).
Proof.
  destruct header_words as (E0 & E1 & E2), widths as (_ & H1 & _ & H2). pose proof length_packed as Hl.
  unfold codelocs_parseheader. rewrite E0, E1, E2. fold lb tb.
  rewrite (proj2 (Z.eqb_neq _ 0)), !(proj2 (Z.ltb_ge _ _)) by lia. rewrite Hl.
  replace (12 + lb + Z.of_nat (length cs) * (lb + tb * 2) - 12 - lb) with (Z.of_nat (length cs) * (lb + tb * 2)) by lia.
  rewrite Z.div_mul by lia. done.
Qed.

(** Reading a line back. *)
Lemma unpack_line (l : Z) :
  0 <= l -> (0 < l -> 0 < h0 <= l /\ l <= h0 + h1) ->
  let x := i32 (if 0 <? l then l - h0 + 1 else 0) in
  (if 0 <? x then let! d := ck32 (h0 - 1) in ck32 (x + d) else Ok x) = Ok l.
Proof.
  intros H0 H1. destruct (Z.ltb_spec 0 l).
  - cbn zeta. specialize (H1 ltac:(lia)). rewrite i32_small by lia. rewrite (proj2 (Z.ltb_lt 0 _)) by lia.
    rewrite ck32_ok by lia. cbn [obind]. rewrite ck32_ok by lia. f_equal. lia.
  - cbn zeta. change (i32 0) with 0. change (Ok 0 = Ok l). f_equal. lia.
Qed.

Context (Hok : h1 <> 255 /\ h1 <> 65535).

Lemma unpack_packed pre c post :
  cs = pre ++ c :: post -> codeloc_valid c -> (0 < loc c -> 0 < h0 <= loc c /\ loc c <= h0 + h1) -> to c <= h2 -> pc c <= h2 ->
  unpack_codeloc packed (Z.of_nat (length pre) + 1) h0 lb tb = Ok c.
Proof.
  intros E (Hc1 & Hc2 & Hc3) Hl Ht Hp. destruct widths as (W1 & W2 & W3 & W4).
  unfold unpack_codeloc. rewrite (proj2 (Z.eqb_neq _ 0)) by lia.
  assert (Hd : drop (Z.to_nat (12 + (lb + (Z.of_nat (length pre) + 1 - 1) * (lb + tb * 2)))) packed =
               entry h0 lb tb c ++ concat (map (entry h0 lb tb) post)).
  { unfold packed. rewrite app_assoc.
    replace (Z.to_nat (12 + (lb + (Z.of_nat (length pre) + 1 - 1) * (lb + tb * 2))))
      with (12 + Z.to_nat lb + Z.to_nat (Z.of_nat (length pre) * (lb + tb * 2)))%nat by lia.
    rewrite <- drop_drop, drop_app_length' by (rewrite !length_app, !length_le_bytes; lia).
    rewrite E, drop_entries by lia. done. }
  rewrite Hd. unfold entry. rewrite <- !app_assoc.
  rewrite take_u32_le_bytes; [| done |].
  2:{ destruct (Z.ltb_spec 0 (loc c)); apply loc_width_fits; lia. }
  cbn [obind]. rewrite unpack_line by lia. cbn [obind].
  rewrite take_u32_le_bytes by (done || by apply to_width_fits; lia). cbn [obind].
  rewrite take_u32_le_bytes by (done || by apply to_width_fits; lia). cbn [obind].
  rewrite !i32_small by lia. by destruct c.
Qed.

Lemma unpack_first l :
  f = (if 0 <? l then l - h0 + 1 else 0) -> 0 <= l -> (0 < l -> 0 < h0 <= l /\ l <= h0 + h1) ->
  unpack_codeloc packed 0 h0 lb tb = Ok (Codeloc l 0 0).
Proof.
  intros E Hl0 Hl. destruct widths as (W1 & W2 & _). unfold unpack_codeloc. cbn [Z.eqb].
  change (Z.to_nat 12) with 12%nat. unfold packed.
  rewrite drop_app_length' by (rewrite !length_app, !length_le_bytes; lia).
  rewrite take_u32_le_bytes; [| done |].
  2:{ rewrite E. destruct (Z.ltb_spec 0 l); apply loc_width_fits; lia. }
  cbn [obind]. rewrite E, unpack_line by lia. done.
Qed.
End Packed.

Lemma unpack_codelocs_flat cl h0 lb tb cs :
  (forall pre c post, cs = pre ++ c :: post -> unpack_codeloc cl (Z.of_nat (length pre) + 1) h0 lb tb = Ok c) ->
  unpack_codelocs (length cs) 0 cl h0 lb tb = Ok (flat_codelocs cs).
Proof.
  intros H. assert (Hg : forall post pre, cs = pre ++ post ->
    unpack_codelocs (length post) (length pre) cl h0 lb tb = Ok (flat_codelocs post)).
  { induction post as [| c post IH]; intros pre E; [done |]. cbn [length unpack_codelocs].
    rewrite (H pre c post E). cbn [obind]. specialize (IH (pre ++ [c])).
    rewrite length_app, Nat.add_comm in IH. cbn in IH. rewrite IH by (by rewrite <- app_assoc). done. }
  apply (Hg cs []). done.
Qed.

Lemma allzero_flat c cs :
  allzero (flat_codelocs (c :: cs)) = Ok (forallb (Z.eqb 0) (flat_codelocs (c :: cs))).
Proof. reflexivity. Qed.

Lemma forallb_zero_replicate l : forallb (Z.eqb 0) l = true -> l = replicate (length l) 0.
Proof.
  induction l as [| x l IH]; [done |]. cbn [forallb]. intros [Hx Hl]%andb_prop. apply Z.eqb_eq in Hx as <-. cbn [length replicate]. f_equal. by apply IH.
Qed.

(** The header the scan leads to. *)
Lemma extremes_spec firstloc cs :
  Forall codeloc_valid cs -> - 2 ^ 31 <= firstloc < 2 ^ 31 -> (firstloc <= 0 \/ Exists (fun c => firstloc <= loc c) cs) ->
  let (mn, mx) := extremes firstloc cs in
  let h0 := if loc mx <? loc mn then 0 else loc mn in
  let h1 := if loc mx <? loc mn then 0 else loc mx - loc mn in
  let h2 := if pc mx <? to mx then to mx else pc mx in
  0 <= h0 < 2 ^ 31 /\ 0 <= h1 /\ h0 + h1 < 2 ^ 31 /\ 0 <= h2 < 2 ^ 31 /\
  (0 < firstloc -> 0 < h0 <= firstloc /\ firstloc <= h0 + h1) /\
  Forall (fun c => (0 < loc c -> 0 < h0 <= loc c /\ loc c <= h0 + h1) /\ to c <= h2 /\ pc c <= h2) cs.
Proof.
  intros Hv Hf Hex. unfold extremes.
  set (m := if firstloc <=? 0 then INT32_MAX else firstloc).
  assert (Hm : 0 < m < 2 ^ 31 /\ (0 < firstloc -> m = firstloc)) by (unfold m, INT32_MAX; zcase; lia).
  destruct (fold_scan_bounds cs (Codeloc m m m, Codeloc 0 0 0) Hv) as (Hb & Hmn & Hmx); [cbn; lia | cbn; done |].
  destruct (fold_left scan_step cs _) as [mn mx]. cbn [fst snd loc] in *. destruct Hmx as (X1 & X2 & X3).
  assert (Hfirst : 0 < firstloc -> firstloc <= loc mx).
  { intros H. destruct Hex as [? | (c & Hc & Hle)%Exists_exists]; [lia |]. destruct (Hb c) as (? & _); [by left | cbn in *; lia]. }
  assert (Hall : Forall (fun c => loc c <= loc mx /\ (0 < loc c -> loc mn <= loc c) /\ to c <= to mx /\ pc c <= pc mx) cs).
  { apply Forall_forall. intros c Hc. apply (Hb c). by left. }
  destruct (Z.ltb_spec (loc mx) (loc mn)), (Z.ltb_spec (pc mx) (to mx)); repeat split; try lia;
    (eapply Forall_impl; [exact Hall |]; cbn; intros c; lia).
Qed.



(** C32: What the round trip excludes, on three inputs.  With the lines 1 and 256
    the offset 256 of the last line is cut to a byte and the line reads back as
    0, that is, unknown; with the lines 1 and 65536 the same happens in two
    bytes; and the first line 1000 with the only line 7 is cut to a byte and
    reads back as 232. *)
Theorem codelocs_truncation :
  (let! cl := jl_compress_codelocs 0 [1; 0; 0; 256; 0; 0] 2 in jl_uncompress_codelocs cl 2) = Ok [1; 0; 0; 0; 0; 0] /\
  (let! cl := jl_compress_codelocs 0 [1; 0; 0; 65536; 0; 0] 2 in jl_uncompress_codelocs cl 2) = Ok [1; 0; 0; 0; 0; 0] /\
  (let! cl := jl_compress_codelocs 1000 [7; 0; 0] 1 in jl_uncompress1_codeloc cl 0) = Ok (Codeloc 232 0 0).
Proof. repeat split. Qed.
