(* ===== verification/IRCode.v ===== *)
(** * Compact IR: encoding and decoding values (ircode.c)

    [jl_encode_value_] writes the statements of a method as a tagged byte
    stream, putting objects it cannot copy into the method's roots;
    [jl_decode_value] reads them back.

    Values are trees.  An object whose identity matters (a method, a mutable
    object) is [VOther] with its address; types are unique, so they are trees
    too.  Whether two pointers are the same object, and [jl_egal], are
    functions of the runtime ([rt_ptr_eq], [rt_egal]): the only thing the
    encoding relies on is that they relate equal values.  The hash tables
    [ser_tag] and [common_symbol_tag] are keyed by pointers for the same
    reason. *)

From stdpp Require Import base numbers option list.
From Stdlib Require Import ZArith Lia.
From S2P Require Import Prelude Rle Hashing Bytes MethodRoots.

#[local] Set Warnings "-register-all".

Inductive value :=
| VNull
| VSymbol (s : Z)
| VModule (m : Z)
| VType (name : Z) (params : list value) (hasfreetypevars : bool)
| VSvec (l : list value)
| VGlobalRef (gmod gname : Z)
| VSSAValue (id : Z)
| VSlotNumber (n : Z)
| VExpr (head : Z) (args : list value)
| VPhiNode (edges : list Z) (vals : list value)
| VPhiCNode (vals : list value)
| VGotoNode (label : Z)
| VGotoIfNot (cond : value) (dest : Z)
| VEnterNode (catch_dest : Z) (scope : value)
| VArgument (n : Z)
| VReturnNode (val : value)
| VQuoteNode (val : value)
| VInt64 (x : Z)
| VInt32 (x : Z)
| VUInt8 (x : Z)
| VString (data : list Z)
(** An array is a window on a memory: its type, number of dimensions, first
    dimension, the memory and the offset of the window in elements. *)
| VArray (ty : value) (ndims dim0 : Z) (mem : value) (offset : Z)
(** A memory is its type, its length, its bytes (zero where a pointer lies)
    and its pointers in order. *)
| VMemory (mty : value) (length : Z) (data : list Z) (ptrs : list value)
(** Any other object that can be copied: its type, its bytes (zero where a
    pointer lies) and its pointers in order. *)
| VStruct (ty : value) (data : list Z) (ptrs : list value)
| VOther (id : Z) (ty : value).

Definition LAST_TAG : Z := 61.
Definition MAX_SMALL_INT32 : Z := 20.
Definition TAG_SSAVALUE : Z := 3.
Definition TAG_SLOTNUMBER : Z := 5.
Definition TAG_SVEC : Z := 6.
Definition TAG_NEARBYSSAVALUE : Z := 7.
Definition TAG_NULL : Z := 8.
Definition TAG_EXPR : Z := 9.
Definition TAG_PHINODE : Z := 10.
Definition TAG_PHICNODE : Z := 11.
Definition TAG_LONG_SVEC : Z := 13.
Definition TAG_LONG_EXPR : Z := 14.
Definition TAG_LONG_PHINODE : Z := 15.
Definition TAG_LONG_PHICNODE : Z := 16.
Definition TAG_METHODROOT : Z := 17.
Definition TAG_EDGE : Z := 18.
Definition TAG_STRING : Z := 19.
Definition TAG_SHORT_INT64 : Z := 20.
Definition TAG_ARRAY1D : Z := 23.
Definition TAG_SINGLETON : Z := 24.
Definition TAG_COMMONSYM : Z := 30.
Definition TAG_NEARBYGLOBAL : Z := 31.
Definition TAG_GLOBALREF : Z := 32.
Definition TAG_CORE : Z := 33.
Definition TAG_BASE : Z := 34.
Definition TAG_NEARBYMODULE : Z := 36.
Definition TAG_INT32 : Z := 37.
Definition TAG_INT64 : Z := 38.
Definition TAG_UINT8 : Z := 39.
Definition TAG_VECTORTY : Z := 40.
Definition TAG_PTRTY : Z := 41.
Definition TAG_LONG_SSAVALUE : Z := 42.
Definition TAG_LONG_METHODROOT : Z := 43.
Definition TAG_LONG_EDGE : Z := 44.
Definition TAG_SHORTER_INT64 : Z := 45.
Definition TAG_SHORT_INT32 : Z := 46.
Definition TAG_CALL1 : Z := 47.
Definition TAG_CALL2 : Z := 48.
Definition TAG_GOTONODE : Z := 52.
Definition TAG_QUOTENODE : Z := 53.
Definition TAG_GENERAL : Z := 54.
Definition TAG_GOTOIFNOT : Z := 55.
Definition TAG_RETURNNODE : Z := 56.
Definition TAG_ARGUMENT : Z := 57.
Definition TAG_RELOC_METHODROOT : Z := 58.
Definition TAG_MEMORYT : Z := 60.
Definition TAG_ENTERNODE : Z := 61.

(** What the encoding reads of a [jl_datatype_layout_t]: offsets of fields in
    bytes, of pointers in words. *)
Record layout_t := Layout {
  ly_size : Z;
  ly_fields : list Z;
  ly_ptrs : list Z;
  arrayelem_isboxed : bool;
  arrayelem_isunion : bool
}.

(** The runtime's constants, tables and type information. *)
Record runtime := Runtime {
  rt_ser_tag : value -> option Z;
  rt_deser_tag : Z -> value;
  rt_common_symbol : Z -> option Z;
  rt_deser_symbol : Z -> value;
  rt_core_module : Z;
  rt_base_module : Z;
  rt_array_typename : Z;
  rt_pointer_typename : Z;
  rt_ssavalue_typename : Z;
  rt_slotnumber_typename : Z;
  rt_call_sym : Z;
  rt_ptr_eq : value -> value -> bool;
  rt_egal : value -> value -> bool;
  rt_instance : value -> option value;
  rt_layout : value -> layout_t;
  (** The type of the memory of an array type. *)
  rt_memory_type : value -> value;
  (** [jl_is_concrete_type]. *)
  rt_is_concrete : value -> bool;
  (** [Union], [NewvarNode], [LineNumberNode], [UpsilonNode], [PiNode]. *)
  rt_copied_type : value -> bool;
  rt_isbits : value -> bool
}.

(** [jl_ircode_state] while encoding: the stream, the current statement, the
    roots of the method and whether all references are relocatable. *)
Record ircode_state := IRState {
  s_out : list Z;
  s_ssaid : Z;
  s_roots : method_roots value;
  s_relocatability : Z
}.

Section IRCode.
Context (E : runtime).
(** [s->method->module], [s->edges], and the build id of
    [jl_precompile_toplevel_module]. *)
Context (method_module : Z) (edges : list value) (toplevel : option Z).

Definition emit (s : ircode_state) (f : list Z -> list Z) : ircode_state :=
  IRState (f (s_out s)) (s_ssaid s) (s_roots s) (s_relocatability s).

Definition emit8 (s : ircode_state) (n : Z) : ircode_state := emit s (fun o => write_uint8 o n).
Definition emit16 (s : ircode_state) (n : Z) : ircode_state := emit s (fun o => write_uint16 o n).
Definition emit_i32 (s : ircode_state) (n : Z) : ircode_state := emit s (fun o => write_int32 o n).
Definition emit_u32 (s : ircode_state) (n : Z) : ircode_state := emit s (fun o => write_uint32 o n).
Definition emit64 (s : ircode_state) (n : Z) : ircode_state := emit s (fun o => write_uint64 o n).
Definition ios_write (s : ircode_state) (data : list Z) : ircode_state := emit s (fun o => o ++ data).

(** [data + from .. data + upto]; outside the object is undefined. *)
Definition slice (data : list Z) (from upto : Z) : outcome (list Z) :=
  if (0 <=? from) && (from <=? upto) && (upto <=? Z.of_nat (length data))
  then Ok (take (Z.to_nat (upto - from)) (drop (Z.to_nat from) data)) else UB.

(** ** Roots *)

Definition tagged_root (s : ircode_state) (i : Z) : outcome (rle_reference * ircode_state) :=
  let! (ok, rr) := get_root_reference (s_roots s) i in
  Ok (rr, if (ok : bool) then s else IRState (s_out s) (s_ssaid s) (s_roots s) 0).

(** The first position of a list that satisfies a test. *)
Fixpoint index_of (f : value -> bool) (l : list value) (i : Z) : option Z :=
  match l with
  | [] => None
  | v :: l => if f v then Some i else index_of f l (i + 1)
  end.

(** A reference with key [-1] is an index into [edges]. *)
Definition literal_val_id (s : ircode_state) (v : value) : outcome (rle_reference * ircode_state) :=
  let rs := default [] (roots (s_roots s)) in
  let same r :=
    match v with
    | VSymbol _ => rt_ptr_eq E r v
    | _ => if rt_is_concrete E v then rt_ptr_eq E r v else rt_egal E r v
    end in
  match index_of same rs 0 with
  | Some i => tagged_root s i
  | None =>
      match index_of (fun e => rt_ptr_eq E e v) edges 0 with
      | Some i => Ok (RleRef (u64 (-1)) (i32 i), s)
      | None =>
          let! m := jl_add_method_root (s_roots s) toplevel v in
          let s := IRState (s_out s) (s_ssaid s) m (s_relocatability s) in
          tagged_root s (nroots m - 1)
      end
  end.

Definition jl_encode_int32 (s : ircode_state) (x : Z) : ircode_state :=
  if (- 2 ^ 15 <=? x) && (x <=? 2 ^ 15 - 1) then emit16 (emit8 s TAG_SHORT_INT32) (u16 x)
  else emit_i32 (emit8 s TAG_INT32) x.

(** [jl_as_global_root] gives an equal string. *)
Definition jl_encode_as_indexed_root (s : ircode_state) (v : value) : outcome ircode_state :=
  let! (rr, s) := literal_val_id s v in
  let id := rr_index rr in
  if id <? 0 then UB
  else if rr_key rr =? u64 (-1) then
    Ok (if id <=? 255 then emit8 (emit8 s TAG_EDGE) id else emit_u32 (emit8 s TAG_LONG_EDGE) id)
  else
    let s := if negb (rr_key rr =? 0) then emit64 (emit8 s TAG_RELOC_METHODROOT) (rr_key rr) else s in
    Ok (if id <=? 255 then emit8 (emit8 s TAG_METHODROOT) id else emit_u32 (emit8 s TAG_LONG_METHODROOT) id).

(** ** Encoding *)

Fixpoint encode_list (enc : ircode_state -> value -> outcome ircode_state) (s : ircode_state) (l : list value)
    : outcome ircode_state :=
  match l with
  | [] => Ok s
  | v :: l => let! s := enc s v in encode_list enc s l
  end.

(** One element with inline pointers: the bytes between pointers and the
    pointers, from [start] on. *)
Fixpoint encode_pieces (enc : ircode_state -> value -> outcome ircode_state) (s : ircode_state)
    (data : list Z) (offs : list Z) (ptrs : list value) (start size : Z) : outcome ircode_state :=
  match offs, ptrs with
  | o :: offs, p :: ptrs =>
      let fld := 8 * o in
      let! b := slice data start fld in
      let! s := enc (ios_write s b) p in
      encode_pieces enc s data offs ptrs (fld + 8) size
  | [], [] => let! b := slice data start size in Ok (ios_write s b)
  | _, _ => UB
  end.

Fixpoint encode_elements (enc : ircode_state -> value -> outcome ircode_state) (s : ircode_state) (ly : layout_t)
    (n : nat) (data : list Z) (ptrs : list value) : outcome ircode_state :=
  match n with
  | O => Ok s
  | S n' =>
      let np := length (ly_ptrs ly) in
      let! s := encode_pieces enc s (take (Z.to_nat (ly_size ly)) data) (ly_ptrs ly) (take np ptrs) 0 (ly_size ly) in
      encode_elements enc s ly n' (drop (Z.to_nat (ly_size ly)) data) (drop np ptrs)
  end.

(** The element size is held in a [uint16_t].  If that changes it, an element
    is not a window of the memory any more: it starts [elsz] bytes after the one
    before, inside it, and the references of its layout lie on other bytes. *)

(** The reference number (in the memory) whose bytes start at [pos]. *)
Fixpoint slot_index (offs : list Z) (r : Z) (j : nat) : option nat :=
  match offs with
  | [] => None
  | o :: offs => if r =? 8 * o then Some j else slot_index offs r (S j)
  end.
Definition reference_at (ly : layout_t) (pos : Z) : option nat :=
  match slot_index (ly_ptrs ly) (pos mod ly_size ly) 0 with
  | Some j => Some (Z.to_nat (pos / ly_size ly) * length (ly_ptrs ly) + j)%nat
  | None => None
  end.

(** Some byte from [from] to [upto] belongs to a reference. *)
Definition touches_reference (ly : layout_t) (from upto : Z) : bool :=
  existsb (fun pos => existsb (fun o => (8 * o <=? pos mod ly_size ly) && (pos mod ly_size ly <? 8 * o + 8)) (ly_ptrs ly))
    (seqZ from (upto - from)).

(** The bytes of a memory; those of a reference are an address, which a value
    does not have. *)
Definition memory_bytes (ly : layout_t) (data : list Z) (from upto : Z) : outcome (list Z) :=
  let! b := slice data from upto in
  if touches_reference ly from upto then UB else Ok b.

(** The word at [pos], read as a reference: other bytes are no object, unless
    they are zero. *)
Definition memory_ref (ly : layout_t) (data : list Z) (ptrs : list value) (pos : Z) : outcome value :=
  match reference_at ly pos with
  | Some k => match ptrs !! k with Some v => Ok v | None => UB end
  | None => let! b := memory_bytes ly data pos (pos + 8) in if forallb (Z.eqb 0) b then Ok VNull else UB
  end.

Fixpoint encode_pieces_at (enc : ircode_state -> value -> outcome ircode_state) (s : ircode_state) (ly : layout_t)
    (data : list Z) (ptrs : list value) (base : Z) (offs : list Z) (start elsz : Z) : outcome ircode_state :=
  match offs with
  | o :: offs =>
      let fld := base + 8 * o in
      let! b := memory_bytes ly data start fld in
      let! p := memory_ref ly data ptrs fld in
      let! s := enc (ios_write s b) p in
      encode_pieces_at enc s ly data ptrs base offs (fld + 8) elsz
  | [] => let! b := memory_bytes ly data start (base + elsz) in Ok (ios_write s b)
  end.

Fixpoint encode_strided (enc : ircode_state -> value -> outcome ircode_state) (s : ircode_state) (ly : layout_t)
    (n : nat) (data : list Z) (ptrs : list value) (base elsz : Z) : outcome ircode_state :=
  match n with
  | O => Ok s
  | S n' =>
      let! s := encode_pieces_at enc s ly data ptrs base (ly_ptrs ly) base elsz in
      encode_strided enc s ly n' data ptrs (base + elsz) elsz
  end.

Definition jl_encode_memory_slice (enc : ircode_state -> value -> outcome ircode_state) (s : ircode_state)
    (mem : value) (offset len : Z) : outcome ircode_state :=
  match mem with
  | VMemory mty mlen data ptrs =>
      let ly := rt_layout E mty in
      if arrayelem_isboxed ly then
        if Z.of_nat (length ptrs) <? offset + len then UB
        else encode_list enc s (take (Z.to_nat len) (drop (Z.to_nat offset) ptrs))
      else if (0 <? Z.of_nat (length (ly_ptrs ly))) then
        let elsz := u16 (ly_size ly) in
        if elsz =? ly_size ly then
          encode_elements enc s ly (Z.to_nat len) (drop (Z.to_nat (offset * elsz)) data)
            (drop (Z.to_nat offset * length (ly_ptrs ly)) ptrs)
        else encode_strided enc s ly (Z.to_nat len) data ptrs (offset * elsz) elsz
      else
        let! b := slice data (offset * ly_size ly) ((offset + len) * ly_size ly) in
        let s := ios_write s b in
        if arrayelem_isunion ly then
          let! t := slice data (mlen * ly_size ly + offset) (mlen * ly_size ly + offset + len) in
          Ok (ios_write s t)
        else Ok s
  | _ => UB
  end.

(** The inner loop of the general case: the pointers before [ptr], with the
    bytes before each.  [offs] and [ptrs] are the pointers left; returns what
    is left and the new [last]. *)
Fixpoint general_pointers (enc : ircode_state -> value -> outcome ircode_state) (s : ircode_state)
    (data : list Z) (offs : list Z) (ptrs : list value) (ptr last : Z)
    : outcome (ircode_state * list Z * list value * Z) :=
  match offs, ptrs with
  | o :: offs', p :: ptrs' =>
      let prevptr := 8 * o in
      if prevptr <? ptr then
        let! s := if last <? prevptr then let! b := slice data last prevptr in Ok (ios_write s b) else Ok s in
        let! s := enc s p in
        general_pointers enc s data offs' ptrs' ptr (prevptr + 8)
      else Ok (s, offs, ptrs, last)
  | [], _ => Ok (s, [], ptrs, last)
  | _, [] => UB
  end.

(** The loop over the fields; the last round has [ptr] at the end of the
    object. *)
Fixpoint general_fields (enc : ircode_state -> value -> outcome ircode_state) (s : ircode_state)
    (data : list Z) (fields : list Z) (offs : list Z) (ptrs : list value) (last size : Z)
    : outcome (ircode_state * Z) :=
  match fields with
  | f :: fields =>
      let! (s, offs, ptrs, last) := general_pointers enc s data offs ptrs f last in
      general_fields enc s data fields offs ptrs last size
  | [] =>
      let! (s, _, _, last) := general_pointers enc s data offs ptrs size last in
      Ok (s, last)
  end.

Definition encode_general (enc : ircode_state -> value -> outcome ircode_state) (s : ircode_state)
    (ty : value) (data : list Z) (ptrs : list value) : outcome ircode_state :=
  let ly := rt_layout E ty in
  let! s := enc (emit8 s TAG_GENERAL) ty in
  let! (s, last) := general_fields enc s data (ly_fields ly) (ly_ptrs ly) ptrs 0 (ly_size ly) in
  if last <? ly_size ly then let! b := slice data last (ly_size ly) in Ok (ios_write s b) else Ok s.

Definition ssavalue_type : value := VType (rt_ssavalue_typename E) [] false.
Definition slotnumber_type : value := VType (rt_slotnumber_typename E) [] false.

(** The type, bytes and pointers of an object the general case copies. *)
Definition object_data (v : value) : option (value * list Z * list value) :=
  match v with
  | VStruct ty data ptrs => Some (ty, data, ptrs)
  | VSSAValue id => Some (ssavalue_type, le_bytes 8 id, [])
  | VSlotNumber n => Some (slotnumber_type, le_bytes 8 n, [])
  | _ => None
  end.

(** Does the general case copy it when it is not a literal? *)
Definition is_copied (v : value) : bool :=
  match v with
  | VSSAValue _ | VSlotNumber _ => true
  | VStruct ty _ _ => rt_copied_type E ty || (rt_isbits E ty && (ly_size (rt_layout E ty) <=? 64))
  | _ => false
  end.

(** Is [v] the [instance] of its type?  Only structs have types with an
    instance. *)
Definition is_singleton (v : value) : bool :=
  match v with
  | VStruct ty _ _ => match rt_instance E ty with Some i => rt_ptr_eq E i v | None => false end
  | _ => false
  end.

Definition is_layout_opaque (ly : layout_t) : bool :=
  (Z.of_nat (length (ly_fields ly)) =? 0) && (0 <? Z.of_nat (length (ly_ptrs ly))).

(** The cases from the singletons on.  A zero-dimensional array, a symbol, a
    module or a type as a literal would be copied byte by byte, raw addresses
    included; the callers pass none, and the model calls it undefined. *)
Definition encode_object (enc : ircode_state -> value -> outcome ircode_state) (s : ircode_state) (v : value)
    (as_literal : bool) : outcome ircode_state :=
  if is_singleton v then
    match v with VStruct ty _ _ => enc (emit8 s TAG_SINGLETON) ty | _ => UB end
  else
    match as_literal, v with
    | true, VString data =>
        Ok (ios_write (emit_i32 (emit8 s TAG_STRING) (Z.of_nat (length data))) data)
    | true, VArray ty ndims dim0 mem offset =>
        if negb (ndims =? 0) then
          let! s := enc (emit8 s TAG_ARRAY1D) (VInt64 dim0) in
          let! s := enc s ty in
          jl_encode_memory_slice enc s mem offset dim0
        else UB
    | true, VMemory mty len _ _ =>
        let! s := enc (emit8 s TAG_MEMORYT) mty in
        let! s := enc s (VInt64 len) in
        jl_encode_memory_slice enc s v 0 len
    | _, _ =>
        match object_data v with
        | Some (ty, data, ptrs) =>
            if as_literal && is_layout_opaque (rt_layout E ty) then UB
            else if as_literal || is_copied v then encode_general enc s ty data ptrs
            else jl_encode_as_indexed_root s v
        | None => if as_literal then UB else jl_encode_as_indexed_root s v
        end
    end.

Definition encode_len (s : ircode_state) (tag long_tag l : Z) : ircode_state :=
  if l <=? 255 then emit8 (emit8 s tag) (u8 l) else emit_i32 (emit8 s long_tag) l.

(** The edges of a phi node. *)
Fixpoint encode_phi_edges (enc : ircode_state -> value -> outcome ircode_state) (s : ircode_state) (es : list Z)
    : outcome ircode_state :=
  match es with
  | [] => Ok s
  | e :: es =>
      let! s := if (0 <=? e) && (e <=? MAX_SMALL_INT32) then enc s (VInt32 e) else Ok (jl_encode_int32 s e) in
      encode_phi_edges enc s es
  end.

Definition encode_expr (enc : ircode_state -> value -> outcome ircode_state) (s : ircode_state) (head : Z) (args : list value)
    : outcome ircode_state :=
  let l := Z.of_nat (length args) in
  if (head =? rt_call_sym E) && (l =? 2) then encode_list enc (emit8 s TAG_CALL1) args
  else if (head =? rt_call_sym E) && (l =? 3) then encode_list enc (emit8 s TAG_CALL2) args
  else
    let! s := enc (encode_len s TAG_EXPR TAG_LONG_EXPR l) (VSymbol head) in
    encode_list enc s args.

Definition encode_phi (enc : ircode_state -> value -> outcome ircode_state) (s : ircode_state) (es : list Z) (vals : list value)
    : outcome ircode_state :=
  let l := Z.of_nat (length es) in
  let s :=
    if (l <=? 255) && (Z.of_nat (length vals) =? l) then emit8 (emit8 s TAG_PHINODE) (u8 l)
    else emit_i32 (emit_i32 (emit8 s TAG_LONG_PHINODE) l) (Z.of_nat (length vals)) in
  let! s := encode_phi_edges enc s es in
  encode_list enc s vals.

Definition encode_int64 (s : ircode_state) (x : Z) : ircode_state :=
  if (- 2 ^ 15 <=? x) && (x <=? 2 ^ 15 - 1) then emit16 (emit8 s TAG_SHORTER_INT64) (u16 x)
  else if (- 2 ^ 31 <=? x) && (x <=? 2 ^ 31 - 1) then emit_i32 (emit8 s TAG_SHORT_INT64) x
  else emit64 (emit8 s TAG_INT64) x.

(** The control-flow nodes and quotes. *)
Definition encode_node (enc : ircode_state -> value -> outcome ircode_state) (s : ircode_state) (v : value)
    : outcome ircode_state :=
  match v with
  | VGotoNode label => enc (emit8 s TAG_GOTONODE) (VInt64 label)
  | VGotoIfNot cond dest =>
      let! s := enc (emit8 s TAG_GOTOIFNOT) cond in
      enc s (VInt64 dest)
  | VEnterNode catch_dest scope =>
      let! s := enc (emit8 s TAG_ENTERNODE) (VInt64 catch_dest) in
      enc s scope
  | VArgument n => enc (emit8 s TAG_ARGUMENT) (VInt64 n)
  | VReturnNode val => enc (emit8 s TAG_RETURNNODE) val
  | VQuoteNode inner =>
      let s := emit8 s TAG_QUOTENODE in
      match inner with
      | VExpr _ _ | VPhiNode _ _ | VPhiCNode _ => jl_encode_as_indexed_root s inner
      | _ => enc s inner
      end
  | _ => UB
  end.

(** [jl_encode_value] is [enc] on the recursive calls, with [as_literal] off. *)
Definition encode_body (enc : ircode_state -> value -> outcome ircode_state) (s : ircode_state) (v : value)
    (as_literal : bool) : outcome ircode_state :=
  match v with
  | VNull => Ok (emit8 s TAG_NULL)
  | _ =>
  match rt_ser_tag E v with
  | Some tag =>
      let t8 := u8 tag in
      Ok (if t8 <=? LAST_TAG then emit8 (emit8 s 0) t8 else emit8 s t8)
  | None =>
  match v with
  | VNull => UB
  | VSymbol sym =>
      match rt_common_symbol E sym with
      | Some tag => Ok (emit8 (emit8 s TAG_COMMONSYM) (u8 tag))
      | None => encode_object enc s v as_literal
      end
  | VModule m =>
      if m =? rt_core_module E then Ok (emit8 s TAG_CORE)
      else if m =? rt_base_module E then Ok (emit8 s TAG_BASE)
      else if m =? method_module then Ok (emit8 s TAG_NEARBYMODULE)
      else encode_object enc s v as_literal
  | VString data =>
      if Z.of_nat (length data) =? 0 then enc s (VString []) else encode_object enc s v as_literal
  | VType name params free =>
      match params with
      | [t; VInt64 1] =>
          if (name =? rt_array_typename E) && negb free then enc (emit8 s TAG_VECTORTY) t
          else encode_object enc s v as_literal
      | [t] =>
          if (name =? rt_pointer_typename E) && negb free then enc (emit8 s TAG_PTRTY) t
          else encode_object enc s v as_literal
      | _ => encode_object enc s v as_literal
      end
  | VSvec l => encode_list enc (encode_len s TAG_SVEC TAG_LONG_SVEC (Z.of_nat (length l))) l
  | VGlobalRef gmod gname =>
      if gmod =? method_module then enc (emit8 s TAG_NEARBYGLOBAL) (VSymbol gname)
      else
        let! s := enc (emit8 s TAG_GLOBALREF) (VModule gmod) in
        enc s (VSymbol gname)
  | VSSAValue id =>
      if u64 (s_ssaid s - id) <? 256 then Ok (emit8 (emit8 s TAG_NEARBYSSAVALUE) (u64 (s_ssaid s - id)))
      else if (id <? 256) && (0 <=? id) then Ok (emit8 (emit8 s TAG_SSAVALUE) id)
      else if (id <=? 65535) && (0 <=? id) then Ok (emit16 (emit8 s TAG_LONG_SSAVALUE) id)
      else encode_object enc s v as_literal
  | VSlotNumber n =>
      if (n <=? 65535) && (0 <=? n) then Ok (emit16 (emit8 s TAG_SLOTNUMBER) n)
      else encode_object enc s v as_literal
  | VExpr head args => encode_expr enc s head args
  | VPhiNode es vals => encode_phi enc s es vals
  | VPhiCNode vals => encode_list enc (encode_len s TAG_PHICNODE TAG_LONG_PHICNODE (Z.of_nat (length vals))) vals
  | VGotoNode _ | VGotoIfNot _ _ | VEnterNode _ _ | VArgument _ | VReturnNode _ | VQuoteNode _ => encode_node enc s v
  | VInt64 x => Ok (encode_int64 s x)
  | VInt32 x => Ok (jl_encode_int32 s x)
  | VUInt8 x => Ok (emit8 (emit8 s TAG_UINT8) x)
  | VArray _ _ _ _ _ | VMemory _ _ _ _ | VStruct _ _ _ | VOther _ _ => encode_object enc s v as_literal
  end
  end
  end.

Fixpoint jl_encode_value_ (fuel : nat) (s : ircode_state) (v : value) (as_literal : bool) : outcome ircode_state :=
  match fuel with
  | O => Timeout
  | S fuel' => encode_body (fun s v => jl_encode_value_ fuel' s v false) s v as_literal
  end.

(** ** Decoding *)

(** Casts of a decoded pointer, and the [jl_unbox_*] functions. *)
Definition as_symbol (v : value) : outcome Z := match v with VSymbol s => Ok s | _ => UB end.
Definition as_module (v : value) : outcome Z := match v with VModule m => Ok m | _ => UB end.
Definition jl_unbox_long (v : value) : outcome Z := match v with VInt64 x => Ok x | _ => UB end.
Definition jl_unbox_int32 (v : value) : outcome Z := match v with VInt32 x => Ok x | _ => UB end.

(** The method the code belongs to, with all its roots, and the statement. *)
Context (m : method_roots value) (ssaid : Z).

(** A decoder of one value: the value and the unread bytes. *)
Definition decoder : Type := list Z -> outcome (value * list Z).

Fixpoint decode_list (dec : decoder) (n : nat) (s : list Z) : outcome (list value * list Z) :=
  match n with
  | O => Ok ([], s)
  | S n' =>
      let! (v, s) := dec s in
      let! (l, s) := decode_list dec n' s in
      Ok (v :: l, s)
  end.

(** A decoded [size_t] length; a negative one would be huge. *)
Definition decode_count (dec : decoder) (n : Z) (s : list Z) : outcome (list value * list Z) :=
  if n <? 0 then UB else decode_list dec (Z.to_nat n) s.

Definition decode_len (tag short : Z) (s : list Z) : Z * list Z :=
  if tag =? short then read_uint8 s else read_int32 s.

Definition jl_decode_value_svec (dec : decoder) (tag : Z) (s : list Z) : outcome (value * list Z) :=
  let (len, s) := decode_len tag TAG_SVEC s in
  let! (l, s) := decode_count dec len s in
  Ok (VSvec l, s).

(** One object or element with inline pointers. *)
Fixpoint decode_pieces (dec : decoder) (offs : list Z) (start size : Z) (s : list Z)
    : outcome (list Z * list value * list Z) :=
  match offs with
  | o :: offs =>
      let fld := 8 * o in
      let! (b, s) := ios_readall s (fld - start) in
      let! (p, s) := dec s in
      let! (data, ptrs, s) := decode_pieces dec offs (fld + 8) size s in
      Ok (b ++ replicate 8 0 ++ data, p :: ptrs, s)
  | [] =>
      let! (b, s) := ios_readall s (size - start) in
      Ok (b, [], s)
  end.

Fixpoint decode_elements (dec : decoder) (ly : layout_t) (n : nat) (s : list Z)
    : outcome (list Z * list value * list Z) :=
  match n with
  | O => Ok ([], [], s)
  | S n' =>
      let! (b, p, s) := decode_pieces dec (ly_ptrs ly) 0 (ly_size ly) s in
      let! (data, ptrs, s) := decode_elements dec ly n' s in
      Ok (b ++ data, p ++ ptrs, s)
  end.

(** The same with an element size that has been changed: what is read goes to
    a memory that was cleared.  Bytes written on a reference, and a reference
    written on other bytes, are an address, which a value does not have. *)
Definition memory_store (ly : layout_t) (mem : list Z * list value) (from : Z) (b : list Z) : outcome (list Z * list value) :=
  let (data, ptrs) := mem in
  let upto := from + Z.of_nat (length b) in
  if (from <? 0) || (Z.of_nat (length data) <? upto) then UB
  else if touches_reference ly from upto then UB
  else Ok (take (Z.to_nat from) data ++ b ++ drop (Z.to_nat upto) data, ptrs).

Definition memory_store_ref (ly : layout_t) (mem : list Z * list value) (pos : Z) (v : value) : outcome (list Z * list value) :=
  match reference_at ly pos with
  | Some k => if (k <? length mem.2)%nat then Ok (mem.1, <[k := v]> mem.2) else UB
  | None => match v with VNull => memory_store ly mem pos (replicate 8 0) | _ => UB end
  end.

Fixpoint decode_pieces_at (dec : decoder) (ly : layout_t) (mem : list Z * list value) (base : Z) (offs : list Z)
    (start elsz : Z) (s : list Z) : outcome ((list Z * list value) * list Z) :=
  match offs with
  | o :: offs =>
      let fld := base + 8 * o in
      let! (b, s) := ios_readall s (fld - start) in
      let! mem := memory_store ly mem start b in
      let! (p, s) := dec s in
      let! mem := memory_store_ref ly mem fld p in
      decode_pieces_at dec ly mem base offs (fld + 8) elsz s
  | [] =>
      let! (b, s) := ios_readall s (base + elsz - start) in
      let! mem := memory_store ly mem start b in Ok (mem, s)
  end.

Fixpoint decode_strided (dec : decoder) (ly : layout_t) (n : nat) (mem : list Z * list value) (base elsz : Z) (s : list Z)
    : outcome ((list Z * list value) * list Z) :=
  match n with
  | O => Ok (mem, s)
  | S n' =>
      let! (mem, s) := decode_pieces_at dec ly mem base (ly_ptrs ly) base elsz s in
      decode_strided dec ly n' mem (base + elsz) elsz s
  end.

Definition jl_decode_value_memory (dec : decoder) (mty : value) (nel : Z) (s : list Z) : outcome (value * list Z) :=
  let ly := rt_layout E mty in
  if nel <? 0 then UB
  else if arrayelem_isboxed ly then
    let! (ptrs, s) := decode_list dec (Z.to_nat nel) s in
    Ok (VMemory mty nel [] ptrs, s)
  else if (0 <? Z.of_nat (length (ly_ptrs ly))) then
    let elsz := u16 (ly_size ly) in
    if elsz =? ly_size ly then
      let! (data, ptrs, s) := decode_elements dec ly (Z.to_nat nel) s in
      Ok (VMemory mty nel data ptrs, s)
    else
      let cleared := (replicate (Z.to_nat (nel * ly_size ly)) 0, replicate (Z.to_nat nel * length (ly_ptrs ly)) VNull) in
      let! (data, ptrs, s) := decode_strided dec ly (Z.to_nat nel) cleared 0 elsz s in
      Ok (VMemory mty nel data ptrs, s)
  else
    let extra := if arrayelem_isunion ly then nel else 0 in
    let! (data, s) := ios_readall s (nel * ly_size ly + extra) in
    Ok (VMemory mty nel data [], s).

Definition jl_decode_value_array1d (dec : decoder) (s : list Z) : outcome (value * list Z) :=
  let! (d, s) := dec s in
  let! dim0 := jl_unbox_long d in
  let! (aty, s) := dec s in
  let! (mem, s) := jl_decode_value_memory dec (rt_memory_type E aty) dim0 s in
  Ok (VArray aty 1 dim0 mem 0, s).

Definition jl_decode_value_expr (dec : decoder) (tag : Z) (s : list Z) : outcome (value * list Z) :=
  if tag =? TAG_CALL1 then
    let! (args, s) := decode_list dec 2 s in Ok (VExpr (rt_call_sym E) args, s)
  else if tag =? TAG_CALL2 then
    let! (args, s) := decode_list dec 3 s in Ok (VExpr (rt_call_sym E) args, s)
  else
    let (len, s) := decode_len tag TAG_EXPR s in
    let! (h, s) := dec s in
    let! head := as_symbol h in
    let! (args, s) := decode_count dec len s in
    Ok (VExpr head args, s).

(** [jl_unbox_int32] of each decoded edge. *)
Fixpoint unbox_edges (l : list value) : outcome (list Z) :=
  match l with
  | [] => Ok []
  | v :: l => let! e := jl_unbox_int32 v in let! es := unbox_edges l in Ok (e :: es)
  end.

Definition jl_decode_value_phi (dec : decoder) (tag : Z) (s : list Z) : outcome (value * list Z) :=
  let '(len_e, len_v, s) :=
    if tag =? TAG_PHINODE then let (n, s) := read_uint8 s in (n, n, s)
    else
      let (len_e, s) := read_int32 s in
      let (len_v, s) := read_int32 s in (len_e, len_v, s) in
  let! (es, s) := decode_count dec len_e s in
  let! es := unbox_edges es in
  let! (vals, s) := decode_count dec len_v s in
  Ok (VPhiNode es vals, s).

Definition jl_decode_value_phic (dec : decoder) (tag : Z) (s : list Z) : outcome (value * list Z) :=
  let (len, s) := decode_len tag TAG_PHICNODE s in
  let! (l, s) := decode_count dec len s in
  Ok (VPhiCNode l, s).

Definition jl_decode_value_globalref (dec : decoder) (s : list Z) : outcome (value * list Z) :=
  let! (v, s) := dec s in
  let! mod_ := as_module v in
  let! (v, s) := dec s in
  let! var := as_symbol v in
  Ok (VGlobalRef mod_ var, s).

(** An object of the given type with the given contents. *)
Definition mk_object (ty : value) (data : list Z) (ptrs : list value) : value :=
  match ty with
  | VType name [] false =>
      if name =? rt_ssavalue_typename E then VSSAValue (i64 (le_word data))
      else if name =? rt_slotnumber_typename E then VSlotNumber (i64 (le_word data))
      else VStruct ty data ptrs
  | _ => VStruct ty data ptrs
  end.

Definition jl_decode_value_any (dec : decoder) (s : list Z) : outcome (value * list Z) :=
  let! (ty, s) := dec s in
  let ly := rt_layout E ty in
  let! (data, ptrs, s) := decode_pieces dec (ly_ptrs ly) 0 (ly_size ly) s in
  Ok (mk_object ty data ptrs, s).

Definition decode_reloc_root (s : list Z) : outcome (value * list Z) :=
  let (key, s) := read_uint64 s in
  let (tag, s) := read_uint8 s in
  if tag =? TAG_METHODROOT then
    let (index, s) := read_uint8 s in
    let! v := lookup_root m key index in Ok (v, s)
  else if tag =? TAG_LONG_METHODROOT then
    let (index, s) := read_uint32 s in
    if i32 index <? 0 then UB else let! v := lookup_root m key (i32 index) in Ok (v, s)
  else UB.

(** Fields set with a decoded value. *)
Definition decode_field (dec : decoder) (f : value -> outcome value) (s : list Z) : outcome (value * list Z) :=
  let! (v, s) := dec s in let! r := f v in Ok (r, s).

Definition decode_fields2 (dec : decoder) (f : value -> value -> outcome value) (s : list Z) : outcome (value * list Z) :=
  let! (v, s) := dec s in let! (w, s) := dec s in let! r := f v w in Ok (r, s).

Definition decode_body (dec : decoder) (tag : Z) (s : list Z) : outcome (value * list Z) :=
  if LAST_TAG <? tag then Ok (rt_deser_tag E tag, s)
  else if tag =? TAG_NULL then Ok (VNull, s)
  else if tag =? 0 then let (t, s) := read_uint8 s in Ok (rt_deser_tag E t, s)
  else if tag =? TAG_RELOC_METHODROOT then decode_reloc_root s
  else if tag =? TAG_METHODROOT then
    let (i, s) := read_uint8 s in let! v := lookup_root m 0 i in Ok (v, s)
  else if tag =? TAG_LONG_METHODROOT then
    let (i, s) := read_uint32 s in let! v := lookup_root m 0 (i32 i) in Ok (v, s)
  else if tag =? TAG_EDGE then
    let (i, s) := read_uint8 s in let! v := rd edges i in Ok (v, s)
  else if tag =? TAG_LONG_EDGE then
    let (i, s) := read_uint32 s in let! v := rd edges i in Ok (v, s)
  else if (tag =? TAG_SVEC) || (tag =? TAG_LONG_SVEC) then jl_decode_value_svec dec tag s
  else if tag =? TAG_COMMONSYM then let (t, s) := read_uint8 s in Ok (rt_deser_symbol E t, s)
  else if tag =? TAG_SSAVALUE then let (i, s) := read_uint8 s in Ok (VSSAValue i, s)
  else if tag =? TAG_NEARBYSSAVALUE then let (i, s) := read_uint8 s in Ok (VSSAValue (i64 (ssaid - i)), s)
  else if tag =? TAG_LONG_SSAVALUE then let (i, s) := read_uint16 s in Ok (VSSAValue i, s)
  else if tag =? TAG_SLOTNUMBER then let (i, s) := read_uint16 s in Ok (VSlotNumber i, s)
  else if tag =? TAG_ARRAY1D then jl_decode_value_array1d dec s
  else if tag =? TAG_MEMORYT then
    let! (ty, s) := dec s in
    let! (n, s) := dec s in
    let! n := jl_unbox_long n in
    jl_decode_value_memory dec ty n s
  else if (tag =? TAG_EXPR) || (tag =? TAG_LONG_EXPR) || (tag =? TAG_CALL1) || (tag =? TAG_CALL2) then
    jl_decode_value_expr dec tag s
  else if (tag =? TAG_PHINODE) || (tag =? TAG_LONG_PHINODE) then jl_decode_value_phi dec tag s
  else if (tag =? TAG_PHICNODE) || (tag =? TAG_LONG_PHICNODE) then jl_decode_value_phic dec tag s
  else if tag =? TAG_GOTONODE then decode_field dec (fun v => let! n := jl_unbox_long v in Ok (VGotoNode n)) s
  else if tag =? TAG_QUOTENODE then decode_field dec (fun v => Ok (VQuoteNode v)) s
  else if tag =? TAG_GOTOIFNOT then decode_fields2 dec (fun v w => let! n := jl_unbox_long w in Ok (VGotoIfNot v n)) s
  else if tag =? TAG_ENTERNODE then decode_fields2 dec (fun v w => let! n := jl_unbox_long v in Ok (VEnterNode n w)) s
  else if tag =? TAG_ARGUMENT then decode_field dec (fun v => let! n := jl_unbox_long v in Ok (VArgument n)) s
  else if tag =? TAG_RETURNNODE then decode_field dec (fun v => Ok (VReturnNode v)) s
  else if tag =? TAG_SHORTER_INT64 then let (x, s) := read_uint16 s in Ok (VInt64 (i16 x), s)
  else if tag =? TAG_SHORT_INT64 then let (x, s) := read_int32 s in Ok (VInt64 x, s)
  else if tag =? TAG_INT64 then let (x, s) := read_uint64 s in Ok (VInt64 (i64 x), s)
  else if tag =? TAG_SHORT_INT32 then let (x, s) := read_uint16 s in Ok (VInt32 (i16 x), s)
  else if tag =? TAG_INT32 then let (x, s) := read_int32 s in Ok (VInt32 x, s)
  else if tag =? TAG_UINT8 then let (x, s) := read_uint8 s in Ok (VUInt8 x, s)
  else if tag =? TAG_NEARBYGLOBAL then
    decode_field dec (fun v => let! n := as_symbol v in Ok (VGlobalRef method_module n)) s
  else if tag =? TAG_NEARBYMODULE then Ok (VModule method_module, s)
  else if tag =? TAG_GLOBALREF then jl_decode_value_globalref dec s
  else if tag =? TAG_SINGLETON then
    decode_field dec (fun ty => Ok (default VNull (rt_instance E ty))) s
  else if tag =? TAG_CORE then Ok (VModule (rt_core_module E), s)
  else if tag =? TAG_BASE then Ok (VModule (rt_base_module E), s)
  else if tag =? TAG_VECTORTY then
    decode_field dec (fun t => Ok (VType (rt_array_typename E) [t; VInt64 1] false)) s
  else if tag =? TAG_PTRTY then
    decode_field dec (fun t => Ok (VType (rt_pointer_typename E) [t] false)) s
  else if tag =? TAG_STRING then
    let (n, s) := read_int32 s in
    let! (data, s) := ios_readall s n in
    Ok (VString data, s)
  else if tag =? TAG_GENERAL then jl_decode_value_any dec s
  else UB.

Fixpoint jl_decode_value (fuel : nat) (s : list Z) : outcome (value * list Z) :=
  match fuel with
  | O => Timeout
  | S fuel' =>
      match s with
      | [] => UB
      | tag :: s => decode_body (jl_decode_value fuel') tag s
      end
  end.
End IRCode.
