(* ===== verification/IRCodeFacts.v ===== *)
(** * Decoding inverts encoding

    The encoder may add roots to the method while it writes, and the decoder
    reads with the roots the method has in the end, so the statements quantify
    over every extension of the roots the encoder leaves. *)

From Stdlib Require Import ZArith Lia.
From stdpp Require Import base numbers option relations list.
From S2P Require Import Prelude Rle Hashing HashingFacts Bytes MethodRoots IRCode.

(** What the encoding relies on: the two tables are inverse to each other and
    hold the empty string, identity and egality relate equal values, and
    [SSAValue] and [SlotNumber] hold one [Int]. *)
Class RuntimeOk (E : runtime) : Prop := {
  ser_tag_ok v t : rt_ser_tag E v = Some t -> 2 <= t < 256 /\ rt_deser_tag E t = v;
  common_symbol_ok s t : rt_common_symbol E s = Some t -> 0 <= t < 256 /\ rt_deser_symbol E t = VSymbol s;
  ptr_eq_ok v w : rt_ptr_eq E v w = true -> v = w;
  egal_ok v w : rt_egal E v w = true -> v = w;
  ssavalue_layout_ok : rt_layout E (ssavalue_type E) = Layout 8 [0] [] false false;
  slotnumber_layout_ok : rt_layout E (slotnumber_type E) = Layout 8 [0] [] false false;
  typenames_ok : rt_ssavalue_typename E <> rt_slotnumber_typename E;
  empty_string_ok : rt_ser_tag E (VString []) <> None
}.

(** ** Well-formed values: machine integers in range, lengths that fit their
    fields, data that fits the layout of its type *)

Definition all_list {A} (P : A -> Prop) : list A -> Prop :=
  fix go l := match l with [] => True | x :: l => P x /\ go l end.

Definition sum_list {A} (f : A -> nat) : list A -> nat :=
  fix go l := match l with [] => 0%nat | x :: l => (f x + go l)%nat end.

Definition int64_range (x : Z) : Prop := - 2 ^ 63 <= x < 2 ^ 63.
Definition int32_range (x : Z) : Prop := - 2 ^ 31 <= x < 2 ^ 31.
Definition short_list {A} (l : list A) : Prop := Z.of_nat (length l) < 2 ^ 31.

(** Pointers at increasing word offsets inside the object, with zeros for
    bytes. *)
Fixpoint pieces_ok (data : list Z) (offs : list Z) (start size : Z) : Prop :=
  match offs with
  | [] => start <= size
  | o :: offs =>
      start <= 8 * o /\ take 8 (drop (Z.to_nat (8 * o)) data) = replicate 8 0 /\ pieces_ok data offs (8 * o + 8) size
  end.

Definition struct_ok (ly : layout_t) (data : list Z) (ptrs : list value) : Prop :=
  0 <= ly_size ly /\ Z.of_nat (length data) = ly_size ly /\ length ptrs = length (ly_ptrs ly) /\
  pieces_ok data (ly_ptrs ly) 0 (ly_size ly) /\ Forall is_byte data.

Fixpoint elements_ok (ly : layout_t) (n : nat) (data : list Z) (ptrs : list value) : Prop :=
  match n with
  | O => data = [] /\ ptrs = []
  | S n' =>
      struct_ok ly (take (Z.to_nat (ly_size ly)) data) (take (length (ly_ptrs ly)) ptrs) /\
      elements_ok ly n' (drop (Z.to_nat (ly_size ly)) data) (drop (length (ly_ptrs ly)) ptrs)
  end.

(** Elements with references have less than 64 KiB. *)
Definition memory_ok (ly : layout_t) (len : Z) (data : list Z) (ptrs : list value) : Prop :=
  int64_range len /\ 0 <= len /\
  if arrayelem_isboxed ly then data = [] /\ Z.of_nat (length ptrs) = len
  else if (0 <? Z.of_nat (length (ly_ptrs ly))) then 0 <= ly_size ly < 2 ^ 16 /\ elements_ok ly (Z.to_nat len) data ptrs
  else ptrs = [] /\ 0 <= ly_size ly /\
    Z.of_nat (length data) = len * ly_size ly + (if arrayelem_isunion ly then len else 0).

Section Wf.
Context (E : runtime).

(** An array as the decoder makes it: one dimension, its own memory. *)
Fixpoint wfv (v : value) : Prop :=
  match v with
  | VNull | VSymbol _ | VModule _ | VOther _ _ | VGlobalRef _ _ => True
  | VType _ params _ => all_list wfv params
  | VSvec l | VPhiCNode l | VExpr _ l => short_list l /\ all_list wfv l
  | VSSAValue x | VSlotNumber x | VGotoNode x | VArgument x | VInt64 x => int64_range x
  | VPhiNode es vals => short_list es /\ Forall int32_range es /\ short_list vals /\ all_list wfv vals
  | VGotoIfNot v x | VEnterNode x v => wfv v /\ int64_range x
  | VReturnNode v | VQuoteNode v => wfv v
  | VInt32 x => int32_range x
  | VUInt8 x => is_byte x
  | VString data => short_list data
  | VArray ty ndims dim0 mem offset =>
      wfv ty /\ wfv mem /\ ndims = 1 /\ offset = 0 /\
      match mem with VMemory mty len _ _ => mty = rt_memory_type E ty /\ len = dim0 | _ => False end
  | VMemory mty len data ptrs => wfv mty /\ all_list wfv ptrs /\ memory_ok (rt_layout E mty) len data ptrs
  | VStruct ty data ptrs =>
      wfv ty /\ all_list wfv ptrs /\ struct_ok (rt_layout E ty) data ptrs /\ mk_object E ty data ptrs = VStruct ty data ptrs
  end.

(** A bound on the number of roots encoding a value can add. *)
Fixpoint vsize (v : value) : nat :=
  match v with
  | VType _ l _ | VSvec l | VPhiCNode l => 1 + sum_list vsize l
  | VPhiNode es l => 1 + 2 * length es + sum_list vsize l
  | VExpr _ l => 3 + sum_list vsize l
  | VGotoNode _ | VArgument _ => 3
  | VGlobalRef _ _ => 4
  | VGotoIfNot v _ | VEnterNode _ v => 2 + vsize v
  | VReturnNode v | VQuoteNode v => 1 + vsize v
  | VArray ty _ _ mem _ => 2 + vsize ty + vsize mem
  | VMemory mty _ _ ptrs => 2 + vsize mty + sum_list vsize ptrs
  | VStruct ty _ ptrs => 1 + vsize ty + sum_list vsize ptrs
  | _ => 2
  end.
End Wf.

(** ** States of the encoder *)

Definition key_ok (p : Z * Z) : Prop := 0 <= p.1 < 2 ^ 64 - 1.

Definition good (s : ircode_state) (ps : list (Z * Z)) : Prop :=
  wf (s_roots s) ps /\ Forall key_ok ps.

(** [s'] is [s] with [bs] written and at most [n] roots added. *)
Record writes (s : ircode_state) (ps : list (Z * Z)) (s' : ircode_state) (ps' : list (Z * Z)) (bs : list Z) (n : nat)
    : Prop := {
  w_out : s_out s' = s_out s ++ bs;
  w_ssaid : s_ssaid s' = s_ssaid s;
  w_good : good s' ps';
  w_extends : extends (s_roots s) ps (s_roots s') ps';
  w_count : nroots (s_roots s') <= nroots (s_roots s) + Z.of_nat n
}.

Lemma writes_trans s ps s1 ps1 s2 ps2 b1 b2 n1 n2 n :
  writes s ps s1 ps1 b1 n1 -> writes s1 ps1 s2 ps2 b2 n2 -> (n1 + n2 <= n)%nat -> writes s ps s2 ps2 (b1 ++ b2) n.
Proof.
  intros [H1 H2 H3 H4 H5] [K1 K2 K3 K4 K5] Hn. split.
  - by rewrite K1, H1, app_assoc.
  - congruence.
  - done.
  - by eapply extends_trans.
  - lia.
Qed.

(** [s'] is [s] with [bs] written and nothing else changed. *)
Definition appends (s : ircode_state) (bs : list Z) (s' : ircode_state) : Prop :=
  s' = IRState (s_out s ++ bs) (s_ssaid s) (s_roots s) (s_relocatability s).

(** Solves [appends] for a sequence of [emit]s. *)
Ltac emitted :=
  unfold appends, emit8, emit16, emit_i32, emit_u32, emit64, ios_write, emit;
  cbn [s_out s_ssaid s_roots s_relocatability];
  unfold write_uint8, write_uint16, write_int32, write_uint32, write_uint64;
  rewrite <- ?app_assoc;
  repeat match goal with |- context [u8 ?x] => rewrite (u8_small x) by lia end; reflexivity.

Lemma writes_appends s ps s' bs : good s ps -> appends s bs s' -> writes s ps s' ps bs 0.
Proof. intros Hg ->. split; cbn; [done | done | done | apply extends_refl | lia]. Qed.

Lemma writes_more s ps s' ps' bs n n' : writes s ps s' ps' bs n -> (n <= n')%nat -> writes s ps s' ps' bs n'.
Proof. intros [H1 H2 H3 H4 H5] Hn. split; try done. lia. Qed.

Create HintDb ircode.
#[export] Hint Resolve extends_refl : ircode.

(** ** Facts about lists and slices *)

Lemma index_of_spec f l i j : index_of f l i = Some j -> exists x, i <= j /\ l !! Z.to_nat (j - i) = Some x /\ f x = true.
Proof.
  revert i. induction l as [| v l IH]; intros i; cbn; [done |]. destruct (f v) eqn:Ef.
  - intros [= <-]. exists v. rewrite Z.sub_diag. done.
  - intros (x & Hj & Hl & Hf)%IH. exists x. split; [lia |]. split; [| done].
    replace (Z.to_nat (j - i)) with (S (Z.to_nat (j - (i + 1)))) by lia. done.
Qed.

Lemma key_of_ok ps x : Forall key_ok ps -> forall k0, 0 <= k0 < 2 ^ 64 - 1 -> 0 <= key_of k0 ps x < 2 ^ 64 - 1.
Proof.
  induction 1 as [| [k s] ps Hk _ IH]; intros k0 H0; cbn; [done |]. destruct (s <=? x); [by apply IH | done].
Qed.

Lemma all_list_app {A} (P : A -> Prop) l1 l2 : all_list P (l1 ++ l2) <-> all_list P l1 /\ all_list P l2.
Proof. induction l1 as [| x l1 IH]; cbn; [tauto |]. rewrite IH. tauto. Qed.

Lemma sum_list_app {A} (f : A -> nat) l1 l2 : sum_list f (l1 ++ l2) = (sum_list f l1 + sum_list f l2)%nat.
Proof. induction l1 as [| x l1 IH]; cbn; [done |]. rewrite IH. lia. Qed.

Lemma slice_ok data from upto b :
  slice data from upto = Ok b -> 0 <= from <= upto /\ upto <= Z.of_nat (length data) /\
    b = take (Z.to_nat (upto - from)) (drop (Z.to_nat from) data) /\ Z.of_nat (length b) = upto - from.
Proof.
  unfold slice. destruct (Z.leb_spec 0 from), (Z.leb_spec from upto), (Z.leb_spec upto (Z.of_nat (length data))); cbn; try done.
  intros [= <-]. rewrite length_take, length_drop. repeat split; lia.
Qed.

Lemma drop_split3 (data : list Z) a b c :
  (a <= b)%nat -> (b <= c)%nat -> (c <= length data)%nat ->
  drop a data = take (b - a) (drop a data) ++ take (c - b) (drop b data) ++ drop c data.
Proof.
  intros H1 H2 H3. rewrite <- (take_drop (b - a) (drop a data)) at 1. f_equal. rewrite drop_drop.
  replace (a + (b - a))%nat with b by lia. rewrite <- (take_drop (c - b) (drop b data)) at 1. f_equal.
  rewrite drop_drop. f_equal. lia.
Qed.

Lemma pieces_ok_bound data offs start size : pieces_ok data offs start size -> start <= size.
Proof. revert start. induction offs as [| o offs IH]; intros start; cbn; [done |]. intros (H1 & _ & H2%IH). lia. Qed.

Lemma ios_write_nil s : ios_write s [] = s.
Proof. unfold ios_write, emit. rewrite app_nil_r. by destruct s. Qed.

Lemma slice_empty data x : 0 <= x <= Z.of_nat (length data) -> slice data x x = Ok [].
Proof.
  intros H. unfold slice. rewrite !(proj2 (Z.leb_le _ _)) by lia. cbn [andb]. by rewrite Z.sub_diag.
Qed.

Lemma vsize_pos v : (1 <= vsize v)%nat.
Proof. destruct v; cbn; lia. Qed.

Lemma nearby_ssavalue a id : - 2 ^ 63 <= id < 2 ^ 63 -> i64 (a - u64 (a - id)) = id.
Proof.
  intros H. unfold u64. assert (Hm : (a - id) mod 2 ^ 64 = a - id - 2 ^ 64 * ((a - id) / 2 ^ 64)) by (apply Z.mod_eq; lia).
  rewrite Hm. unfold i64.
  replace (a - (a - id - 2 ^ 64 * ((a - id) / 2 ^ 64)) + 2 ^ 63) with (id + 2 ^ 63 + (a - id) / 2 ^ 64 * 2 ^ 64) by lia.
  rewrite Z.mod_add, Z.mod_small by lia. lia.
Qed.

Lemma slice_total data a b : 0 <= a <= b -> b <= Z.of_nat (length data) -> exists x, slice data a b = Ok x.
Proof. intros H1 H2. unfold slice. rewrite !(proj2 (Z.leb_le _ _)) by lia. cbn. eauto. Qed.

Section RoundTrip.
Context (E : runtime) `{HE : !RuntimeOk E}.
Context (method_module : Z) (edges : list value) (toplevel : option Z).
Context (Htop : 0 <= default 0 toplevel < 2 ^ 64 - 1) (Hedges : short_list edges).

#[local] Abbreviation decode m ssaid := (jl_decode_value E method_module edges m ssaid).
#[local] Abbreviation body m ssaid := (decode_body E method_module edges m ssaid).

(** [reads s' ps' fuel bs D a]: with the roots left in [s'], or any extension,
    the reader [D] reads [a] from [bs]. *)
Definition reads {A} (s' : ircode_state) (ps' : list (Z * Z)) (fuel : nat) (bs : list Z)
    (D : decoder -> list Z -> outcome (A * list Z)) (a : A) : Prop :=
  forall m psm fuel' rest, wf m psm -> extends (s_roots s') ps' m psm -> (fuel <= fuel')%nat ->
    D (decode m (s_ssaid s') fuel') (bs ++ rest) = Ok (a, rest).

(** From [s] the encoder reaches [s'] adding at most [n] roots, and what it has
    written reads as [a]. *)
Definition specD {A} (fuel : nat) (s : ircode_state) (ps : list (Z * Z))
    (D : decoder -> list Z -> outcome (A * list Z)) (a : A) (n : nat) (s' : ircode_state) : Prop :=
  exists ps' bs, writes s ps s' ps' bs n /\ reads s' ps' fuel bs D a.

Definition spec (fuel : nat) (s : ircode_state) (ps : list (Z * Z)) (v : value) (n : nat) (s' : ircode_state) : Prop :=
  specD fuel s ps (fun dec => dec) v n s'.

Lemma reads_later {A} s1 ps1 s2 ps2 bs n fuel b D (a : A) :
  writes s1 ps1 s2 ps2 bs n -> reads s1 ps1 fuel b D a -> reads s2 ps2 fuel b D a.
Proof.
  intros [_ Hid _ Hx _] Hd m psm fuel' rest Hm Hx' Hf. rewrite Hid. eapply Hd; [done | | done]. by eapply extends_trans.
Qed.

Lemma specD_more {A} fuel fuel' s ps D (a : A) n n' s' :
  (fuel <= fuel')%nat -> (n <= n')%nat -> specD fuel s ps D a n s' -> specD fuel' s ps D a n' s'.
Proof.
  intros Hf Hn (ps' & bs & Hw & Hd). exists ps', bs. split; [by eapply writes_more |].
  intros m psm f rest Hm Hx Hf'. eapply Hd; [done | done | lia].
Qed.

(** A value written as a tag and a payload, with no recursion. *)
Lemma spec_leaf s ps s' tag pl v :
  good s ps -> appends s (tag :: pl) s' ->
  (forall m dec rest, body m (s_ssaid s) dec tag (pl ++ rest) = Ok (v, rest)) ->
  spec 1 s ps v 0 s'.
Proof.
  intros Hg Hf Hd. exists ps, (tag :: pl). split; [by apply writes_appends |]. rewrite Hf.
  intros m psm fuel' rest Hm Hx Hfu. destruct fuel' as [| fuel']; [lia |]. cbn [app jl_decode_value]. apply Hd.
Qed.

(** Bytes that are written and read without recursion. *)
Lemma specD_bytes {A} fuel s ps s' bs (D : decoder -> list Z -> outcome (A * list Z)) a :
  good s ps -> appends s bs s' -> (forall dec rest, D dec (bs ++ rest) = Ok (a, rest)) -> specD fuel s ps D a 0 s'.
Proof.
  intros Hg Hf Hd. exists ps, bs. split; [by apply writes_appends |]. intros m psm fuel' rest _ _ _. apply Hd.
Qed.

(** Two parts, one after the other. *)
Lemma specD_bind {A B C} fuel s ps s1 s2 (D1 : decoder -> list Z -> outcome (A * list Z))
    (D2 : decoder -> list Z -> outcome (B * list Z)) (D : decoder -> list Z -> outcome (C * list Z)) a b c n1 n2 n :
  specD fuel s ps D1 a n1 s1 ->
  (forall ps1, good s1 ps1 -> nroots (s_roots s1) <= nroots (s_roots s) + Z.of_nat n1 -> specD fuel s1 ps1 D2 b n2 s2) ->
  (n1 + n2 <= n)%nat ->
  (forall dec r1 r2 r3, D1 dec r1 = Ok (a, r2) -> D2 dec r2 = Ok (b, r3) -> D dec r1 = Ok (c, r3)) ->
  specD fuel s ps D c n s2.
Proof.
  intros (ps1 & b1 & Hw1 & Hd1) H2 Hn Hb. destruct (H2 ps1) as (ps2 & b2 & Hw2 & Hd2); [apply Hw1 | apply Hw1 |].
  exists ps2, (b1 ++ b2). split; [by eapply writes_trans |].
  pose proof (reads_later _ _ _ _ _ _ _ _ _ _ Hw2 Hd1) as Hd1'.
  intros m psm fuel' rest Hm Hx Hf. rewrite <- app_assoc. eapply Hb; [by eapply Hd1' | by eapply Hd2].
Qed.

(** A tag and a payload, then a part. *)
Lemma specD_node {A} fuel s ps s1 pre tag (D : decoder -> list Z -> outcome (A * list Z)) a w n s' :
  good s ps -> appends s (tag :: pre) s1 -> specD fuel s1 ps D a n s' ->
  (forall m dec r r', D dec r = Ok (a, r') -> body m (s_ssaid s) dec tag (pre ++ r) = Ok (w, r')) ->
  spec (S fuel) s ps w n s'.
Proof.
  intros Hg Hf (ps' & bs & Hw' & Hd) Hb. pose proof (writes_appends _ _ _ _ Hg Hf) as Hw. exists ps', ((tag :: pre) ++ bs).
  split; [eapply writes_trans; [exact Hw | exact Hw' | lia] |].
  intros m psm fuel' rest Hm Hx Hfu. destruct fuel' as [| fuel']; [lia |]. rewrite <- app_assoc. cbn [app jl_decode_value].
  rewrite (w_ssaid _ _ _ _ _ _ Hw'), (w_ssaid _ _ _ _ _ _ Hw). apply Hb.
  specialize (Hd m psm fuel' rest Hm Hx ltac:(lia)). by rewrite (w_ssaid _ _ _ _ _ _ Hw'), (w_ssaid _ _ _ _ _ _ Hw) in Hd.
Qed.

(** ** Roots *)

Lemma tagged_root_spec s ps i x :
  good s ps -> 0 <= i -> default [] (roots (s_roots s)) !! Z.to_nat i = Some x ->
  exists rr s1, tagged_root s i = Ok (rr, s1) /\ s_out s1 = s_out s /\ s_ssaid s1 = s_ssaid s /\ s_roots s1 = s_roots s /\
    0 <= rr_key rr < 2 ^ 64 - 1 /\ 0 <= rr_index rr <= i /\
    forall m psm, wf m psm -> extends (s_roots s) ps m psm -> lookup_root m (rr_key rr) (rr_index rr) = Ok x.
Proof.
  intros [Hwf Hk] Hi Hx. unfold tagged_root.
  destruct (reference_stable _ _ _ _ _ _ Hwf Hwf (extends_refl _ _) Hx Hi) as (b & rr & Hrr & _ & Hidx).
  rewrite Hrr. cbn [obind]. eexists rr, _. split; [reflexivity |].
  pose proof (lookup_lt_Some _ _ _ Hx) as Hlt.
  destruct (get_root_reference_spec _ _ i Hwf) as [b' Hb']; [unfold nroots; lia |].
  assert (Hkey : rr_key rr = key_of 0 ps i) by (rewrite Hrr in Hb'; by injection Hb' as _ ->).
  split; [by destruct b |]. split; [by destruct b |]. split; [by destruct b |].
  split; [rewrite Hkey; by apply key_of_ok |]. split; [done |].
  intros m psm Hm Hext. destruct (reference_stable _ _ _ _ _ _ Hwf Hm Hext Hx Hi) as (b2 & rr2 & Hrr2 & Hl & _).
  rewrite Hrr in Hrr2. by injection Hrr2 as _ <-.
Qed.

(** What a reference found by [literal_val_id] resolves to. *)
Definition resolves (s' : ircode_state) (ps' : list (Z * Z)) (rr : rle_reference) (v : value) : Prop :=
  0 <= rr_index rr < 2 ^ 31 /\
  ((rr_key rr = 2 ^ 64 - 1 /\ rd edges (rr_index rr) = Ok v) \/
   (0 <= rr_key rr < 2 ^ 64 - 1 /\
    forall m psm, wf m psm -> extends (s_roots s') ps' m psm -> lookup_root m (rr_key rr) (rr_index rr) = Ok v)).

Lemma add_method_root_keys (m : method_roots value) (ps : list (Z * Z)) v :
  wf m ps -> Forall key_ok ps -> nroots m + 1 < 2 ^ 31 ->
  exists m' ps', jl_add_method_root m toplevel v = Ok m' /\ wf m' ps' /\ extends m ps m' ps' /\ Forall key_ok ps' /\
    default [] (roots m') = default [] (roots m) ++ [v].
Proof.
  intros Hwf Hk Hn. destruct (jl_add_method_root_spec m ps toplevel v Hwf Hn) as (m' & ps' & E1 & Hwf' & Hx & Hr & _ & Hq).
  exists m', ps'. repeat (split; [done |]). split; [| done].
  destruct Hq as [-> | ->]; [done |]. apply Forall_app. split; [done |]. apply Forall_singleton. exact Htop.
Qed.

Lemma literal_val_id_spec s ps v rr s' :
  good s ps -> nroots (s_roots s) + 1 < 2 ^ 31 ->
  literal_val_id E edges toplevel s v = Ok (rr, s') ->
  exists ps', writes s ps s' ps' [] 1 /\ resolves s' ps' rr v.
Proof.
  intros Hg Hn. pose proof Hg as [Hwf Hk]. unfold literal_val_id.
  destruct (index_of _ (default [] (roots (s_roots s))) 0) as [i |] eqn:Ei.
  - apply index_of_spec in Ei as (x & Hi & Hx & Hsame). rewrite Z.sub_0_r in Hx.
    assert (x = v) as ->.
    { destruct v; cbn beta iota in Hsame; try destruct (rt_is_concrete _ _); (by apply ptr_eq_ok) || (by apply egal_ok). }
    destruct (tagged_root_spec s ps i v Hg Hi Hx) as (rr' & s1 & -> & E1 & E2 & E3 & Hkey & Hidx & Hl).
    intros [= <- <-]. pose proof (lookup_lt_Some _ _ _ Hx) as Hlt. unfold nroots in *. exists ps. split.
    + split; [by rewrite E1, app_nil_r | done | split; by rewrite ?E3 | rewrite E3; apply extends_refl | rewrite E3; unfold nroots; lia].
    + split; [lia |]. right. split; [done |]. by rewrite E3.
  - destruct (index_of _ edges 0) as [i |] eqn:Ee.
    + intros [= <- <-]. apply index_of_spec in Ee as (x & Hi & Hx & Hsame). rewrite Z.sub_0_r in Hx.
      apply ptr_eq_ok in Hsame as ->. pose proof (lookup_lt_Some _ _ _ Hx) as Hlt. unfold short_list in Hedges.
      exists ps. split; [split; [by rewrite app_nil_r | done | done | apply extends_refl | lia] |].
      split; cbn [rr_key rr_index]; rewrite i32_small by lia; [lia |]. left. split; [done | by apply rd_lookup].
    + destruct (add_method_root_keys _ _ v Hwf Hk Hn) as (m & ps' & -> & Hm & Hx & Hk' & Hr). cbn [obind].
      set (s1 := IRState (s_out s) (s_ssaid s) m (s_relocatability s)).
      assert (Hnr : nroots m = nroots (s_roots s) + 1) by (unfold nroots; rewrite Hr, length_app; cbn; lia).
      assert (0 <= nroots (s_roots s)) by (unfold nroots; lia).
      destruct (tagged_root_spec s1 ps' (nroots m - 1) v) as (rr' & s2 & -> & E1 & E2 & E3 & Hkey & Hidx & Hl);
        [by split | lia | |].
      { cbn. rewrite Hr, Hnr. unfold nroots. rewrite lookup_app_r by lia.
        replace (Z.to_nat _ - _)%nat with 0%nat by lia. done. }
      intros [= <- <-]. exists ps'. split.
      * split; [by rewrite E1, app_nil_r | done | split; by rewrite ?E3 | by rewrite E3 | rewrite E3; cbn; lia].
      * split; [lia |]. right. split; [done |]. by rewrite E3.
Qed.

(** The bytes of a reference. *)
Lemma indexed_root_spec s ps v s' :
  good s ps -> nroots (s_roots s) + 1 < 2 ^ 31 ->
  jl_encode_as_indexed_root E edges toplevel s v = Ok s' -> spec 1 s ps v 1 s'.
Proof.
  intros Hg Hn. unfold jl_encode_as_indexed_root. destruct (literal_val_id _ _ _ _ _) as [[rr s1] | |] eqn:El; [| done | done].
  destruct (literal_val_id_spec _ _ _ _ _ Hg Hn El) as (ps' & Hw & Hidx & Hres). cbn [obind].
  rewrite (proj2 (Z.ltb_ge _ 0)) by lia. change (u64 (-1)) with (2 ^ 64 - 1).
  assert (Hfin : forall tag pl, appends s1 (tag :: pl) s' ->
    (forall m psm dec rest, wf m psm -> extends (s_roots s1) ps' m psm ->
       body m (s_ssaid s) dec tag (pl ++ rest) = Ok (v, rest)) -> spec 1 s ps v 1 s').
  { intros tag pl Hf Hd. exists ps', ([] ++ tag :: pl). split.
    - eapply writes_trans; [exact Hw | apply writes_appends; [apply Hw | exact Hf] | lia].
    - rewrite Hf. intros m psm fuel' rest Hm Hx Hfu. destruct fuel' as [| fuel']; [lia |]. cbn [app jl_decode_value s_ssaid].
      rewrite (w_ssaid _ _ _ _ _ _ Hw). by apply (Hd m psm). }
  destruct Hres as [[Hkey Hrd] | [Hkey Hl]].
  - rewrite Hkey, Z.eqb_refl. intros [= <-]. destruct (Z.leb_spec (rr_index rr) 255).
    + apply (Hfin TAG_EDGE [rr_index rr]); [emitted |].
      intros m psm dec rest _ _. cbn. by rewrite Hrd.
    + apply (Hfin TAG_LONG_EDGE (le_bytes 4 (rr_index rr))); [emitted |].
      intros m psm dec rest _ _. change (body m (s_ssaid s) dec TAG_LONG_EDGE) with
        (fun s => let (i, s) := read_uint32 s in let! v := rd edges i in Ok (v, s)). cbn beta.
      rewrite read_uint32_write, u32_small by lia. by rewrite Hrd.
  - rewrite (proj2 (Z.eqb_neq _ _)) by lia. destruct (Z.eqb_spec (rr_key rr) 0) as [Hz | Hnz]; cbn [negb];
      intros [= <-]; destruct (Z.leb_spec (rr_index rr) 255).
    + apply (Hfin TAG_METHODROOT [rr_index rr]); [emitted |].
      intros m psm dec rest Hm Hx. cbn. by rewrite <- Hz, (Hl m psm).
    + apply (Hfin TAG_LONG_METHODROOT (le_bytes 4 (rr_index rr))); [emitted |].
      intros m psm dec rest Hm Hx. change (body m (s_ssaid s) dec TAG_LONG_METHODROOT) with
        (fun s => let (i, s) := read_uint32 s in let! v := lookup_root m 0 (i32 i) in Ok (v, s)). cbn beta.
      rewrite read_uint32_write, u32_small, i32_small by lia. by rewrite <- Hz, (Hl m psm).
    + apply (Hfin TAG_RELOC_METHODROOT (le_bytes 8 (rr_key rr) ++ [TAG_METHODROOT; rr_index rr])); [emitted |].
      intros m psm dec rest Hm Hx. change (body m (s_ssaid s) dec TAG_RELOC_METHODROOT) with (decode_reloc_root m).
      unfold decode_reloc_root. rewrite <- app_assoc, read_uint64_write, u64_small by lia. cbn. by rewrite (Hl m psm).
    + apply (Hfin TAG_RELOC_METHODROOT (le_bytes 8 (rr_key rr) ++ TAG_LONG_METHODROOT :: le_bytes 4 (rr_index rr))); [emitted |].
      intros m psm dec rest Hm Hx. change (body m (s_ssaid s) dec TAG_RELOC_METHODROOT) with (decode_reloc_root m).
      unfold decode_reloc_root. rewrite <- app_assoc, read_uint64_write, u64_small by lia. cbn [app read_uint8].
      change (TAG_LONG_METHODROOT =? TAG_METHODROOT) with false. change (TAG_LONG_METHODROOT =? TAG_LONG_METHODROOT) with true.
      cbv iota. rewrite read_uint32_write, u32_small, i32_small by lia. rewrite (proj2 (Z.ltb_ge _ 0)) by lia. by rewrite (Hl m psm).
Qed.

(** ** Recursive encoders *)

(** An encoder whose output decodes with [fuel]. *)
Definition enc_ok (fuel : nat) (enc : ircode_state -> value -> outcome ircode_state) : Prop :=
  forall s ps v s', good s ps -> wfv E v -> nroots (s_roots s) + Z.of_nat (vsize v) < 2 ^ 31 -> enc s v = Ok s' ->
    spec fuel s ps v (vsize v) s'.

(** The loops of the general case write what the plain walk over the pointers
    writes. *)
Lemma general_pointers_pieces enc data size ptr offs : forall ptrs s last s1 offs1 ptrs1 last1,
  Z.of_nat (length data) = size -> length ptrs = length offs -> 0 <= last -> pieces_ok data offs last size ->
  general_pointers enc s data offs ptrs ptr last = Ok (s1, offs1, ptrs1, last1) ->
  (forall s', encode_pieces enc s1 data offs1 ptrs1 last1 size = Ok s' -> encode_pieces enc s data offs ptrs last size = Ok s') /\
  length ptrs1 = length offs1 /\ 0 <= last1 /\ pieces_ok data offs1 last1 size /\ (ptr = size -> offs1 = []).
Proof.
  induction offs as [| o offs IH]; intros ptrs s last s1 offs1 ptrs1 last1 Hlen Hl H0 Hp; cbn [general_pointers].
  - destruct ptrs; [| done]. intros [= <- <- <- <-]. done.
  - destruct ptrs as [| p ptrs]; [done |]. destruct Hp as (Hso & Hz & Hp). pose proof (pieces_ok_bound _ _ _ _ Hp) as Hb8.
    destruct (Z.ltb_spec (8 * o) ptr) as [Hlt | Hge].
    + intros (s2 & E2 & (s3 & E3 & E4)%obind_Ok_inv)%obind_Ok_inv.
      injection Hl as Hl. destruct (IH ptrs s3 (8 * o + 8) s1 offs1 ptrs1 last1) as (H1 & H2 & H3 & H4 & H5);
        [done | done | lia | done | done |].
      split; [| done]. intros s' Hs'. cbn [encode_pieces]. apply H1 in Hs'.
      destruct (Z.ltb_spec last (8 * o)).
      * apply obind_Ok_inv in E2 as (b & -> & [= <-]). cbn [obind]. rewrite E3. exact Hs'.
      * injection E2 as <-. assert (last = 8 * o) as -> by lia. rewrite slice_empty by lia. cbn [obind].
        rewrite ios_write_nil, E3. exact Hs'.
    + intros [= <- <- <- <-]. repeat split; try done. intros ->. lia.
Qed.

Lemma general_fields_pieces enc data size fields : forall offs ptrs s last s1 last1,
  Z.of_nat (length data) = size -> length ptrs = length offs -> 0 <= last -> pieces_ok data offs last size ->
  general_fields enc s data fields offs ptrs last size = Ok (s1, last1) ->
  forall s', (if last1 <? size then let! b := slice data last1 size in Ok (ios_write s1 b) else Ok s1) = Ok s' ->
  encode_pieces enc s data offs ptrs last size = Ok s'.
Proof.
  induction fields as [| f fields IH]; intros offs ptrs s last s1 last1 Hlen Hl H0 Hp; cbn [general_fields].
  - intros ([[[s2 offs1] ptrs1] last2] & E1 & [= <- <-])%obind_Ok_inv s' Hs'.
    destruct (general_pointers_pieces enc data size size offs ptrs s last _ _ _ _ Hlen Hl H0 Hp E1) as (H1 & H2 & H3 & H4 & H5).
    rewrite H5 in * by done. destruct ptrs1; [| done]. cbn in H4. apply H1. cbn [encode_pieces].
    destruct (Z.ltb_spec last2 size); [done |]. injection Hs' as <-.
    assert (last2 = size) as -> by lia. rewrite slice_empty by lia. cbn [obind]. by rewrite ios_write_nil.
  - intros ([[[s2 offs1] ptrs1] last2] & E1 & E2)%obind_Ok_inv s' Hs'.
    destruct (general_pointers_pieces enc data size f offs ptrs s last _ _ _ _ Hlen Hl H0 Hp E1) as (H1 & H2 & H3 & H4 & _).
    apply H1. by eapply IH.
Qed.

Lemma mk_object_ssavalue id : int64_range id -> mk_object E (ssavalue_type E) (le_bytes 8 id) [] = VSSAValue id.
Proof.
  intros H. unfold mk_object, ssavalue_type. rewrite Z.eqb_refl, le_word_le_bytes.
  change (8 * Z.of_nat 8) with 64. by rewrite i64_mod.
Qed.

Lemma mk_object_slotnumber n : int64_range n -> mk_object E (slotnumber_type E) (le_bytes 8 n) [] = VSlotNumber n.
Proof.
  intros H. unfold mk_object, slotnumber_type. pose proof typenames_ok as Hne.
  rewrite (proj2 (Z.eqb_neq _ _)), Z.eqb_refl, le_word_le_bytes by congruence.
  change (8 * Z.of_nat 8) with 64. by rewrite i64_mod.
Qed.

Lemma int_struct_ok ty x : rt_layout E ty = Layout 8 [0] [] false false -> struct_ok (rt_layout E ty) (le_bytes 8 x) [].
Proof.
  intros ->. unfold struct_ok. cbn [ly_size ly_ptrs]. split; [lia |]. split; [by rewrite length_le_bytes |].
  split; [done |]. split; [cbn; lia | apply le_bytes_bytes].
Qed.

(** What the general case needs of a value, and makes of it. *)
Lemma object_data_spec v ty data ptrs :
  wfv E v -> object_data E v = Some (ty, data, ptrs) ->
  wfv E ty /\ all_list (wfv E) ptrs /\ struct_ok (rt_layout E ty) data ptrs /\ mk_object E ty data ptrs = v /\
  (vsize ty + sum_list vsize ptrs <= vsize v)%nat.
Proof.
  intros Hv. destruct v; cbn [object_data]; try done; intros [= <- <- <-]; cbn [wfv] in Hv.
  - split; [done |]. split; [done |]. split; [apply int_struct_ok, ssavalue_layout_ok |].
    split; [by apply mk_object_ssavalue | cbn; lia].
  - split; [done |]. split; [done |]. split; [apply int_struct_ok, slotnumber_layout_ok |].
    split; [by apply mk_object_slotnumber | cbn; lia].
  - destruct Hv as (H1 & H2 & H3 & H4). repeat (split; [done |]). cbn. lia.
Qed.

Section Enc.
Context (fuel : nat) (enc : ircode_state -> value -> outcome ircode_state) (Henc : enc_ok fuel enc) (Hfuel : (1 <= fuel)%nat).

Lemma encode_list_spec l : forall s ps s',
  good s ps -> all_list (wfv E) l -> nroots (s_roots s) + Z.of_nat (sum_list vsize l) < 2 ^ 31 ->
  encode_list enc s l = Ok s' ->
  specD fuel s ps (fun dec => decode_list dec (length l)) l (sum_list vsize l) s'.
Proof.
  induction l as [| v l IH]; intros s ps s' Hg Hv Hn; cbn [encode_list].
  - intros [= <-]. eapply (specD_bytes _ _ _ _ []); [done | unfold appends; rewrite app_nil_r; by destruct s | done].
  - cbn [all_list sum_list] in *. destruct Hv as [Hv Hl]. intros (s1 & E1 & E2)%obind_Ok_inv.
    eapply specD_bind; [apply (Henc s ps v s1); [done | done | lia | done] | | done |].
    + intros ps1 Hg1 Hn1. apply (IH s1 ps1 s'); [done | done | lia | done].
    + cbn. intros dec r1 r2 r3 H1 H2. rewrite H1. cbn. by rewrite H2.
Qed.

Lemma encode_int32_spec s ps x :
  good s ps -> int32_range x -> spec 1 s ps (VInt32 x) 0 (jl_encode_int32 s x).
Proof.
  intros Hg Hx. unfold int32_range in Hx. unfold jl_encode_int32.
  destruct (Z.leb_spec (- 2 ^ 15) x), (Z.leb_spec x (2 ^ 15 - 1)); cbn [andb].
  1: eapply (spec_leaf _ _ _ TAG_SHORT_INT32 (le_bytes 2 (u16 x))); [done | emitted |];
     intros m dec rest; change (body m (s_ssaid s) dec TAG_SHORT_INT32) with
       (fun s => let (x, s) := read_uint16 s in Ok (VInt32 (i16 x), s)); cbn beta;
     rewrite read_uint16_write; unfold u16; rewrite Z.mod_mod, i16_mod by lia; done.
  all: eapply (spec_leaf _ _ _ TAG_INT32 (le_bytes 4 x)); [done | emitted |];
     intros m dec rest; change (body m (s_ssaid s) dec TAG_INT32) with
       (fun s => let (x, s) := read_int32 s in Ok (VInt32 x, s)); cbn beta; by rewrite read_int32_write by lia.
Qed.

(** The reader of the edges of a phi node. *)
Definition read_edges (n : nat) (dec : decoder) (s : list Z) : outcome (list Z * list Z) :=
  let! (l, s) := decode_list dec n s in let! es := unbox_edges l in Ok (es, s).

Lemma read_edges_cons n dec s e es s1 s2 :
  dec s = Ok (VInt32 e, s1) -> read_edges n dec s1 = Ok (es, s2) -> read_edges (S n) dec s = Ok (e :: es, s2).
Proof.
  unfold read_edges. cbn [decode_list]. intros -> H. cbn [obind].
  destruct (decode_list dec n s1) as [[l s3] | |]; [| done | done]. cbn [obind] in *. cbn [unbox_edges jl_unbox_int32 obind].
  destruct (unbox_edges l); [| done | done]. cbn in *. by injection H as -> ->.
Qed.

Lemma encode_phi_edges_spec es : forall s ps s',
  good s ps -> Forall int32_range es -> nroots (s_roots s) + Z.of_nat (2 * length es) < 2 ^ 31 ->
  encode_phi_edges enc s es = Ok s' ->
  specD fuel s ps (read_edges (length es)) es (2 * length es) s'.
Proof.
  induction es as [| e es IH]; intros s ps s' Hg He Hn; cbn [encode_phi_edges].
  - intros [= <-]. eapply (specD_bytes _ _ _ _ []); [done | unfold appends; rewrite app_nil_r; by destruct s | done].
  - apply Forall_cons in He as [He Hes]. intros (s1 & E1 & E2)%obind_Ok_inv.
    assert (H1 : spec fuel s ps (VInt32 e) 2 s1).
    { destruct ((0 <=? e) && (e <=? MAX_SMALL_INT32)).
      - apply (Henc s ps (VInt32 e) s1); [done | done | cbn in *; lia | done].
      - injection E1 as <-. eapply specD_more; [exact Hfuel | | by apply encode_int32_spec]. lia. }
    cbn [length] in *. eapply specD_bind; [exact H1 | | | intros dec r1 r2 r3; apply read_edges_cons].
    + intros ps1 Hg1 Hn1. apply (IH s1 ps1 s'); [done | done | lia | done].
    + lia.
Qed.

(** *** Data with inline pointers *)

Lemma encode_pieces_spec data size offs : forall ptrs start s ps s',
  good s ps -> all_list (wfv E) ptrs -> 0 <= start -> pieces_ok data offs start size -> Z.of_nat (length data) = size ->
  nroots (s_roots s) + Z.of_nat (sum_list vsize ptrs) < 2 ^ 31 ->
  encode_pieces enc s data offs ptrs start size = Ok s' ->
  specD fuel s ps (fun dec => decode_pieces dec offs start size) (drop (Z.to_nat start) data, ptrs) (sum_list vsize ptrs) s'.
Proof.
  induction offs as [| o offs IH]; intros ptrs start s ps s' Hg Hv H0 Hp Hlen Hn; cbn [encode_pieces];
    (destruct ptrs as [| p ptrs]; try done).
  - intros (b & Hb & [= <-])%obind_Ok_inv. apply slice_ok in Hb as (_ & _ & Eb & Lb).
    rewrite take_ge in Eb by (rewrite length_drop; lia). subst b.
    eapply specD_bytes; [done | emitted |]. intros dec rest. cbn [decode_pieces]. rewrite <- Lb, ios_readall_app. done.
  - destruct Hp as (Hso & Hz & Hp). pose proof (pieces_ok_bound _ _ _ _ Hp) as Hb8.
    intros (b & Hb & (s1 & E1 & E2)%obind_Ok_inv)%obind_Ok_inv. apply slice_ok in Hb as (_ & _ & Eb & Lb).
    cbn [all_list sum_list] in *. destruct Hv as [Hv Hvs].
    eapply (specD_bind _ _ _ (ios_write s b) _ (fun _ r => ios_readall r (8 * o - start))).
    + eapply specD_bytes; [done | emitted |]. intros dec rest. rewrite <- Lb. apply ios_readall_app.
    + intros ps1 Hg1 Hn1. eapply specD_bind.
      * apply (Henc _ _ p s1 Hg1 Hv); [lia | exact E1].
      * intros ps2 Hg2 Hn2. apply (IH ptrs (8 * o + 8) s1 ps2 s'); [done | done | lia | done | done | lia | done].
      * reflexivity.
      * intros dec r1 r2 r3 H1 H2.
        instantiate (1 := (p, (drop (Z.to_nat (8 * o + 8)) data, ptrs))).
        instantiate (1 := fun dec r => let! (x, r) := dec r in let! (y, r) := decode_pieces dec offs (8 * o + 8) size r in Ok ((x, y), r)).
        cbn beta in *. rewrite H1. cbn [obind]. by rewrite H2.
    + lia.
    + cbn beta. intros dec r1 r2 r3 H1 H2. cbn [decode_pieces]. rewrite H1. cbn [obind].
      destruct (dec r2) as [[x r4] | |]; [| done | done]. cbn [obind] in *.
      destruct (decode_pieces dec offs (8 * o + 8) size r4) as [[[d q] r5] | |]; [| done | done]. cbn [obind] in *.
      injection H2 as -> -> -> ->. do 3 f_equal.
      rewrite (drop_split3 data (Z.to_nat start) (Z.to_nat (8 * o)) (Z.to_nat (8 * o + 8))) by lia.
      rewrite Eb. replace (Z.to_nat (8 * o) - Z.to_nat start)%nat with (Z.to_nat (8 * o - start)) by lia.
      replace (Z.to_nat (8 * o + 8) - Z.to_nat (8 * o))%nat with 8%nat by lia. by rewrite Hz.
Qed.

Lemma encode_general_spec s ps ty data ptrs s' :
  good s ps -> wfv E ty -> all_list (wfv E) ptrs -> struct_ok (rt_layout E ty) data ptrs ->
  nroots (s_roots s) + Z.of_nat (vsize ty + sum_list vsize ptrs) < 2 ^ 31 ->
  encode_general E enc s ty data ptrs = Ok s' ->
  spec (S fuel) s ps (mk_object E ty data ptrs) (vsize ty + sum_list vsize ptrs) s'.
Proof.
  intros Hg Ht Hv (Hs0 & Hlen & Hl & Hp & _) Hn. unfold encode_general.
  intros (s1 & E1 & ([s2 last] & E2 & E3)%obind_Ok_inv)%obind_Ok_inv.
  pose proof (general_fields_pieces enc data _ _ _ _ _ 0 _ _ Hlen Hl ltac:(lia) Hp E2 s' E3) as E4.
  eapply (specD_node fuel s ps (emit8 s TAG_GENERAL) [] TAG_GENERAL); [done | emitted | |].
  - eapply specD_bind; [apply (Henc _ _ ty s1); [exact Hg | done | cbn; lia | done] | | reflexivity |].
    + intros ps1 Hg1 Hn1. cbn in Hn1. apply (encode_pieces_spec data (ly_size (rt_layout E ty)) (ly_ptrs (rt_layout E ty)) ptrs 0 s1 ps1 s'); [done | exact Hv | lia | exact Hp | exact Hlen | lia | exact E4].
    + instantiate (1 := (ty, (data, ptrs))).
      instantiate (1 := fun dec r => let! (t, r) := dec r in
        let! (y, r) := decode_pieces dec (ly_ptrs (rt_layout E t)) 0 (ly_size (rt_layout E t)) r in Ok ((t, y), r)).
      cbn beta. intros dec r1 r2 r3 H1 H2. rewrite H1. cbn [obind]. by rewrite H2.
  - intros m dec r r' H. change (body m (s_ssaid s) dec TAG_GENERAL ([] ++ r)) with (jl_decode_value_any E dec r).
    unfold jl_decode_value_any. cbn beta in H. destruct (dec r) as [[t r2] | |]; [| done | done]. cbn [obind] in *.
    destruct (decode_pieces dec _ 0 _ r2) as [[[d q] r3] | |]; [| done | done]. cbn [obind] in *.
    by injection H as -> -> -> ->.
Qed.

Lemma encode_elements_spec ly n : forall data ptrs s ps s',
  good s ps -> all_list (wfv E) ptrs -> elements_ok ly n data ptrs ->
  nroots (s_roots s) + Z.of_nat (sum_list vsize ptrs) < 2 ^ 31 ->
  encode_elements enc s ly n data ptrs = Ok s' ->
  specD fuel s ps (fun dec => decode_elements dec ly n) (data, ptrs) (sum_list vsize ptrs) s'.
Proof.
  induction n as [| n IH]; intros data ptrs s ps s' Hg Hv He Hn; cbn [encode_elements].
  - destruct He as [-> ->]. intros [= <-].
    eapply (specD_bytes _ _ _ _ []); [done | unfold appends; rewrite app_nil_r; by destruct s | done].
  - cbn [elements_ok] in He. destruct He as [(Hs0 & Hlen & Hl & Hp & _) He]. intros (s1 & E1 & E2)%obind_Ok_inv.
    set (d1 := take (Z.to_nat (ly_size ly)) data) in *. set (d2 := drop (Z.to_nat (ly_size ly)) data) in *.
    set (p1 := take (length (ly_ptrs ly)) ptrs) in *. set (p2 := drop (length (ly_ptrs ly)) ptrs) in *.
    assert (Ep : ptrs = p1 ++ p2) by (symmetry; apply take_drop). assert (Ed : data = d1 ++ d2) by (symmetry; apply take_drop).
    clearbody d1 d2 p1 p2. subst data ptrs. apply all_list_app in Hv as [Hv1 Hv2]. rewrite sum_list_app in *.
    eapply specD_bind; [apply (encode_pieces_spec d1 (ly_size ly) (ly_ptrs ly) p1 0 s ps s1); [exact Hg | exact Hv1 | lia | exact Hp | exact Hlen | lia | exact E1] | | reflexivity |].
    + intros ps1 Hg1 Hn1. apply (IH d2 p2 s1 ps1 s'); [done | done | done | lia | done].
    + cbn beta. intros dec r1 r2 r3 H1 H2. cbn [decode_elements]. rewrite H1. cbn [obind]. by rewrite H2.
Qed.

Lemma encode_memory_spec s ps mty len data ptrs s' :
  good s ps -> all_list (wfv E) ptrs -> memory_ok (rt_layout E mty) len data ptrs ->
  nroots (s_roots s) + Z.of_nat (sum_list vsize ptrs) < 2 ^ 31 ->
  jl_encode_memory_slice E enc s (VMemory mty len data ptrs) 0 len = Ok s' ->
  specD fuel s ps (fun dec => jl_decode_value_memory E dec mty len) (VMemory mty len data ptrs) (sum_list vsize ptrs) s'.
Proof.
  intros Hg Hv (Hr & H0 & Hm) Hn. unfold jl_encode_memory_slice.
  destruct (arrayelem_isboxed (rt_layout E mty)) eqn:Eb.
  - destruct Hm as [-> Hl]. rewrite (proj2 (Z.ltb_ge _ _)) by lia. rewrite drop_0, take_ge by lia. intros He.
    destruct (encode_list_spec ptrs s ps s' Hg Hv Hn He) as (ps' & bs & Hw & Hd). exists ps', bs. split; [done |].
    intros m psm fuel' rest Hmm Hx Hf. unfold jl_decode_value_memory. rewrite Eb, (proj2 (Z.ltb_ge len 0)) by lia.
    specialize (Hd m psm fuel' rest Hmm Hx Hf). cbn beta in Hd. replace (Z.to_nat len) with (length ptrs) by lia. by rewrite Hd.
  - destruct (0 <? Z.of_nat (length (ly_ptrs (rt_layout E mty)))) eqn:Ep.
    + destruct Hm as [Hsz Hm]. rewrite u16_small, Z.eqb_refl, Z.mul_0_l, Nat.mul_0_l, !drop_0 by lia. intros He.
      destruct (encode_elements_spec _ _ data ptrs s ps s' Hg Hv Hm Hn He) as (ps' & bs & Hw & Hd). exists ps', bs. split; [done |].
      intros m psm fuel' rest Hmm Hx Hf. unfold jl_decode_value_memory. rewrite Eb, Ep, (proj2 (Z.ltb_ge len 0)), u16_small, Z.eqb_refl by lia.
      specialize (Hd m psm fuel' rest Hmm Hx Hf). cbn beta in Hd. by rewrite Hd.
    + destruct Hm as (-> & Hs0 & Hl). intros (b & Hb & Hs')%obind_Ok_inv. rewrite Z.mul_0_l, Z.add_0_l in Hb.
      apply slice_ok in Hb as (Hb0 & Hb1 & Eb1 & Lb). rewrite drop_0, Z.sub_0_r in Eb1.
      assert (Hs : appends s data s').
      { destruct (arrayelem_isunion (rt_layout E mty)) eqn:Eu; cbn in Hl.
        - apply obind_Ok_inv in Hs' as (t & Ht & [= <-]). rewrite Z.add_0_r in Ht. apply slice_ok in Ht as (_ & _ & Et & _).
          rewrite take_ge in Et by (rewrite length_drop; lia). subst b t.
          unfold appends, ios_write, emit. cbn. rewrite <- app_assoc, take_drop. done.
        - injection Hs' as <-. rewrite take_ge in Eb1 by lia. subst b. emitted. }
      eapply (specD_bytes fuel s ps s' data); [done | exact Hs |]. intros dec rest.
      unfold jl_decode_value_memory. rewrite Eb, Ep, (proj2 (Z.ltb_ge len 0)) by lia. rewrite <- Hl, ios_readall_app. done.
Qed.

(** Selects the branch of the decoder for a literal tag. *)
Ltac branch :=
  unfold decode_body;
  lazy beta iota zeta delta [LAST_TAG TAG_SSAVALUE TAG_SLOTNUMBER TAG_SVEC TAG_NEARBYSSAVALUE TAG_NULL TAG_EXPR
    TAG_PHINODE TAG_PHICNODE TAG_LONG_SVEC TAG_LONG_EXPR TAG_LONG_PHINODE TAG_LONG_PHICNODE TAG_METHODROOT
    TAG_EDGE TAG_STRING TAG_SHORT_INT64 TAG_ARRAY1D TAG_SINGLETON TAG_COMMONSYM TAG_NEARBYGLOBAL
    TAG_GLOBALREF TAG_CORE TAG_BASE TAG_NEARBYMODULE TAG_INT32 TAG_INT64 TAG_UINT8
    TAG_VECTORTY TAG_PTRTY TAG_LONG_SSAVALUE TAG_LONG_METHODROOT TAG_LONG_EDGE TAG_SHORTER_INT64 TAG_SHORT_INT32
    TAG_CALL1 TAG_CALL2 TAG_GOTONODE TAG_QUOTENODE TAG_GENERAL TAG_GOTOIFNOT TAG_RETURNNODE
    TAG_ARGUMENT TAG_RELOC_METHODROOT TAG_MEMORYT TAG_ENTERNODE
    Z.ltb Z.eqb Z.compare Pos.compare Pos.compare_cont Pos.eqb orb CompOpp].

Ltac leaf tag pl := eapply specD_more; [| | apply (spec_leaf _ _ _ tag pl); [done | emitted | intros m dec rest; branch]]; [lia | lia |].

Lemma encode_int64_spec s ps x : good s ps -> int64_range x -> spec 1 s ps (VInt64 x) 0 (encode_int64 s x).
Proof.
  intros Hg Hx. unfold int64_range in Hx. unfold encode_int64.
  destruct ((- 2 ^ 15 <=? x) && (x <=? 2 ^ 15 - 1)) eqn:E1.
  { leaf TAG_SHORTER_INT64 (le_bytes 2 (u16 x)). rewrite read_uint16_write. unfold u16.
    rewrite Z.mod_mod, i16_mod by lia. done. }
  destruct ((- 2 ^ 31 <=? x) && (x <=? 2 ^ 31 - 1)) eqn:E2.
  { leaf TAG_SHORT_INT64 (le_bytes 4 x). rewrite read_int32_write by lia. done. }
  leaf TAG_INT64 (le_bytes 8 x). rewrite read_uint64_write. unfold u64. by rewrite i64_mod.
Qed.

(** One recursive part after a tag. *)
Lemma spec_child s ps tag v w s1 s' :
  good s ps -> wfv E v -> nroots (s_roots s) + Z.of_nat (vsize v) < 2 ^ 31 ->
  appends s [tag] s1 -> enc s1 v = Ok s' ->
  (forall m dec r r', dec r = Ok (v, r') -> body m (s_ssaid s) dec tag r = Ok (w, r')) ->
  spec (S fuel) s ps w (vsize v) s'.
Proof.
  intros Hg Hv Hn Ha He Hb. eapply (specD_node fuel s ps s1 [] tag (fun dec => dec)); [done | done | | done].
  rewrite Ha in He |- *. by apply Henc.
Qed.

(** Two recursive parts after a tag. *)
Lemma spec_children s ps tag v1 v2 w s1 s2 s' :
  good s ps -> wfv E v1 -> wfv E v2 -> nroots (s_roots s) + Z.of_nat (vsize v1 + vsize v2) < 2 ^ 31 ->
  appends s [tag] s1 -> enc s1 v1 = Ok s2 -> enc s2 v2 = Ok s' ->
  (forall m dec r1 r2 r3, dec r1 = Ok (v1, r2) -> dec r2 = Ok (v2, r3) -> body m (s_ssaid s) dec tag r1 = Ok (w, r3)) ->
  spec (S fuel) s ps w (vsize v1 + vsize v2) s'.
Proof.
  intros Hg Hv1 Hv2 Hn Ha E1 E2 Hb.
  eapply (specD_node fuel s ps s1 [] tag (fun dec r => let! (x, r) := dec r in let! (y, r) := dec r in Ok ((x, y), r)) (v1, v2));
    [done | done | |].
  - rewrite Ha in E1 |- *. eapply specD_bind; [apply (Henc _ ps v1 s2); [exact Hg | done | cbn; lia | exact E1] | | reflexivity |].
    + intros ps1 Hg1 Hn1. cbn in Hn1. apply (Henc s2 ps1 v2 s' Hg1 Hv2); [lia | exact E2].
    + cbn beta. intros dec r1 r2 r3 H1 H2. rewrite H1. cbn [obind]. by rewrite H2.
  - intros m dec r r' H. destruct (dec r) as [[x r2] | |] eqn:H1; [| done | done]. cbn [obind] in H.
    destruct (dec r2) as [[y r3] | |] eqn:H2; [| done | done]. cbn [obind] in H. injection H as -> -> ->.
    by eapply Hb.
Qed.

(** A length in the short or the long form, then a list. *)
Lemma spec_list s ps tag long_tag l w s' :
  good s ps -> short_list l -> all_list (wfv E) l -> nroots (s_roots s) + Z.of_nat (sum_list vsize l) < 2 ^ 31 ->
  u8 tag = tag -> u8 long_tag = long_tag -> (long_tag =? tag) = false ->
  encode_list enc (encode_len s tag long_tag (Z.of_nat (length l))) l = Ok s' ->
  (forall m dec r r' t, t = tag \/ t = long_tag ->
     (let (n, r) := decode_len t tag r in decode_count dec n r) = Ok (l, r') -> body m (s_ssaid s) dec t r = Ok (w, r')) ->
  spec (S fuel) s ps w (sum_list vsize l) s'.
Proof.
  intros Hg Hl Hv Hn Ht Hlt Hne He Hb. unfold encode_len in He. unfold short_list in Hl.
  assert (Hrec : forall s1 bs, appends s bs s1 -> encode_list enc s1 l = Ok s' ->
    specD fuel s1 ps (fun dec => decode_list dec (length l)) l (sum_list vsize l) s').
  { intros s1 bs -> He1. by apply encode_list_spec. }
  destruct (Z.leb_spec (Z.of_nat (length l)) 255).
  - eapply (specD_node fuel s ps _ [Z.of_nat (length l)] tag); [done | | eapply Hrec; [| exact He] |].
    1,2: rewrite <- Ht at 1; emitted.
    intros m dec r r' H'. apply Hb; [by left |]. unfold decode_len. rewrite Z.eqb_refl. cbn [app read_uint8].
    unfold decode_count. rewrite (proj2 (Z.ltb_ge _ 0)), Nat2Z.id by lia. exact H'.
  - eapply (specD_node fuel s ps _ (le_bytes 4 (Z.of_nat (length l))) long_tag); [done | | eapply Hrec; [| exact He] |].
    1,2: rewrite <- Hlt at 1; emitted.
    intros m dec r r' H'. apply Hb; [by right |]. unfold decode_len. rewrite Hne, read_int32_write by lia.
    unfold decode_count. rewrite (proj2 (Z.ltb_ge _ 0)), Nat2Z.id by lia. exact H'.
Qed.

Lemma root_spec s ps v s' :
  good s ps -> nroots (s_roots s) + Z.of_nat (vsize v) < 2 ^ 31 ->
  jl_encode_as_indexed_root E edges toplevel s v = Ok s' -> spec (S fuel) s ps v (vsize v) s'.
Proof.
  intros Hg Hn He. pose proof (vsize_pos v). eapply specD_more; [| | apply indexed_root_spec; [exact Hg | lia | exact He]]; lia.
Qed.

(** The object cases that do not depend on the kind of literal. *)
Lemma object_tail_spec s ps v as_literal s' :
  good s ps -> wfv E v -> nroots (s_roots s) + Z.of_nat (vsize v) < 2 ^ 31 ->
  (match object_data E v with
   | Some (ty, data, ptrs) =>
       if as_literal && is_layout_opaque (rt_layout E ty) then UB
       else if as_literal || is_copied E v then encode_general E enc s ty data ptrs
       else jl_encode_as_indexed_root E edges toplevel s v
   | None => if as_literal then UB else jl_encode_as_indexed_root E edges toplevel s v
   end) = Ok s' ->
  spec (S fuel) s ps v (vsize v) s'.
Proof.
  intros Hg Hv Hn. destruct (object_data E v) as [[[ty data] ptrs] |] eqn:Eo.
  - destruct (as_literal && _); [done |]. destruct (as_literal || _); [| by apply root_spec].
    destruct (object_data_spec v ty data ptrs Hv Eo) as (H1 & H2 & H3 & H4 & H5). intros He.
    pose proof (encode_general_spec s ps ty data ptrs s' Hg H1 H2 H3 ltac:(lia) He) as Hs. rewrite H4 in Hs.
    eapply specD_more; [| | exact Hs]; lia.
  - destruct as_literal; [done | by apply root_spec].
Qed.

Lemma encode_string_spec s ps data :
  good s ps -> short_list data ->
  spec 1 s ps (VString data) 0 (ios_write (emit_i32 (emit8 s TAG_STRING) (Z.of_nat (length data))) data).
Proof.
  intros Hg Hl. unfold short_list in Hl. leaf TAG_STRING (le_bytes 4 (Z.of_nat (length data)) ++ data).
  rewrite <- app_assoc, read_int32_write by lia. by rewrite ios_readall_app.
Qed.

Lemma encode_array_spec s ps ty dim0 mem s' :
  good s ps -> wfv E (VArray ty 1 dim0 mem 0) -> nroots (s_roots s) + Z.of_nat (vsize (VArray ty 1 dim0 mem 0)) < 2 ^ 31 ->
  (let! s := enc (emit8 s TAG_ARRAY1D) (VInt64 dim0) in let! s := enc s ty in jl_encode_memory_slice E enc s mem 0 dim0) = Ok s' ->
  spec (S fuel) s ps (VArray ty 1 dim0 mem 0) (vsize (VArray ty 1 dim0 mem 0)) s'.
Proof.
  intros Hg (Ht & Hm & _ & _ & Hmem) Hn (s1 & E1 & (s2 & E2 & E3)%obind_Ok_inv)%obind_Ok_inv.
  destruct mem; try done. destruct Hmem as [-> ->]. cbn [wfv] in Hm. destruct Hm as (Hmt & Hps & Hmo). cbn [vsize] in *.
  eapply specD_more; [reflexivity | |
    eapply (specD_node fuel s ps (emit8 s TAG_ARRAY1D) [] TAG_ARRAY1D
      (fun dec r => let! (d, r) := dec r in let! (t, r) := dec r in
         let! (x, r) := jl_decode_value_memory E dec (rt_memory_type E ty) dim0 r in Ok ((d, t, x), r))
      (VInt64 dim0, ty, VMemory (rt_memory_type E ty) dim0 data ptrs)); [done | emitted | |]].
  2:{ eapply (specD_bind _ _ _ _ _ (fun dec => dec) (fun dec r => let! (t, r) := dec r in
         let! (x, r) := jl_decode_value_memory E dec (rt_memory_type E ty) dim0 r in Ok ((t, x), r)) _ _
         (ty, VMemory (rt_memory_type E ty) dim0 data ptrs)).
      - apply (Henc _ ps (VInt64 dim0) s1); [exact Hg | apply Hmo | cbn; lia | exact E1].
      - intros ps1 Hg1 Hn1. cbn in Hn1. eapply specD_bind.
        + apply (Henc s1 ps1 ty s2 Hg1 Ht); [lia | exact E2].
        + intros ps2 Hg2 Hn2. apply (encode_memory_spec s2 ps2 (rt_memory_type E ty) dim0 data ptrs s'); [done | exact Hps | exact Hmo | lia | exact E3].
        + reflexivity.
        + cbn beta. intros dec r1 r2 r3 H1 H2. rewrite H1. cbn [obind]. by rewrite H2.
      - reflexivity.
      - cbn beta. intros dec r1 r2 r3 H1 H2. rewrite H1. cbn [obind].
        destruct (dec r2) as [[t r4] | |]; [| done | done]. cbn [obind] in *.
        destruct (jl_decode_value_memory E dec _ dim0 r4) as [[x r5] | |]; [| done | done]. cbn [obind] in *.
        by injection H2 as -> -> ->. }
  - cbn. lia.
  - intros m dec r r' H. branch. unfold jl_decode_value_array1d. cbn beta in H. cbn [app].
    destruct (dec r) as [[d r2] | |]; [| done | done]. cbn [obind] in *.
    destruct (dec r2) as [[t r3] | |]; [| done | done]. cbn [obind] in *.
    destruct (jl_decode_value_memory E dec _ dim0 r3) as [[x r5] | |] eqn:Em; [| done | done]. cbn [obind] in *.
    injection H as -> -> -> ->. cbn [jl_unbox_long obind]. by rewrite Em.
Qed.

Lemma encode_memory_literal_spec s ps mty len data ptrs s' :
  good s ps -> wfv E (VMemory mty len data ptrs) -> nroots (s_roots s) + Z.of_nat (vsize (VMemory mty len data ptrs)) < 2 ^ 31 ->
  (let! s := enc (emit8 s TAG_MEMORYT) mty in let! s := enc s (VInt64 len) in
   jl_encode_memory_slice E enc s (VMemory mty len data ptrs) 0 len) = Ok s' ->
  spec (S fuel) s ps (VMemory mty len data ptrs) (vsize (VMemory mty len data ptrs)) s'.
Proof.
  intros Hg (Hmt & Hps & Hmo) Hn (s1 & E1 & (s2 & E2 & E3)%obind_Ok_inv)%obind_Ok_inv. cbn [vsize] in *.
  eapply specD_more; [reflexivity | |
    eapply (specD_node fuel s ps (emit8 s TAG_MEMORYT) [] TAG_MEMORYT
      (fun dec r => let! (t, r) := dec r in let! (n, r) := dec r in
         let! (x, r) := jl_decode_value_memory E dec mty len r in Ok ((t, n, x), r))
      (mty, VInt64 len, VMemory mty len data ptrs)); [done | emitted | |]].
  2:{ eapply (specD_bind _ _ _ _ _ (fun dec => dec) (fun dec r => let! (n, r) := dec r in
         let! (x, r) := jl_decode_value_memory E dec mty len r in Ok ((n, x), r)) _ _ (VInt64 len, VMemory mty len data ptrs)).
      - apply (Henc _ ps mty s1); [exact Hg | exact Hmt | cbn; lia | exact E1].
      - intros ps1 Hg1 Hn1. cbn in Hn1. eapply specD_bind.
        + apply (Henc s1 ps1 (VInt64 len) s2 Hg1); [apply Hmo | cbn; lia | exact E2].
        + intros ps2 Hg2 Hn2. apply (encode_memory_spec s2 ps2 mty len data ptrs s'); [done | exact Hps | exact Hmo | cbn in Hn2; lia | exact E3].
        + reflexivity.
        + cbn beta. intros dec r1 r2 r3 H1 H2. rewrite H1. cbn [obind]. by rewrite H2.
      - reflexivity.
      - cbn beta. intros dec r1 r2 r3 H1 H2. rewrite H1. cbn [obind].
        destruct (dec r2) as [[t r4] | |]; [| done | done]. cbn [obind] in *.
        destruct (jl_decode_value_memory E dec mty len r4) as [[x r5] | |]; [| done | done]. cbn [obind] in *.
        by injection H2 as -> -> ->. }
  - cbn. lia.
  - intros m dec r r' H. branch. cbn beta in H. cbn [app].
    destruct (dec r) as [[d r2] | |]; [| done | done]. cbn [obind] in *.
    destruct (dec r2) as [[t r3] | |]; [| done | done]. cbn [obind] in *.
    destruct (jl_decode_value_memory E dec mty len r3) as [[x r5] | |] eqn:Em; [| done | done]. cbn [obind] in *.
    injection H as -> -> -> ->. cbn [jl_unbox_long obind]. by rewrite Em.
Qed.

Lemma encode_object_spec s ps v as_literal s' :
  good s ps -> wfv E v -> nroots (s_roots s) + Z.of_nat (vsize v) < 2 ^ 31 ->
  encode_object E edges toplevel enc s v as_literal = Ok s' -> spec (S fuel) s ps v (vsize v) s'.
Proof.
  intros Hg Hv Hn. unfold encode_object. destruct (is_singleton E v) eqn:Es.
  - destruct v; try done. cbn [is_singleton] in Es. destruct (rt_instance E v) as [i |] eqn:Ei; [| done].
    apply ptr_eq_ok in Es as ->. destruct Hv as (Ht & _). intros He. cbn [vsize] in *.
    eapply specD_more; [reflexivity | |
      eapply (spec_child s ps TAG_SINGLETON v _ (emit8 s TAG_SINGLETON) s'); [done | done | lia | emitted | exact He |]].
    + lia.
    + intros m dec r r' H. branch. unfold decode_field. rewrite H. cbn [obind]. by rewrite Ei.
  - pose proof (object_tail_spec s ps v as_literal s' Hg Hv Hn) as Htail.
    destruct as_literal; [| done]. destruct v; try exact Htail.
    + intros [= <-]. eapply specD_more; [| | by apply encode_string_spec]; lia.
    + cbn [wfv] in Hv. pose proof Hv as (_ & _ & -> & -> & _). cbn [negb Z.eqb]. by apply encode_array_spec.
    + by apply encode_memory_literal_spec.
Qed.

Lemma encode_expr_spec s ps head args s' :
  good s ps -> short_list args -> all_list (wfv E) args -> nroots (s_roots s) + Z.of_nat (3 + sum_list vsize args) < 2 ^ 31 ->
  encode_expr E enc s head args = Ok s' -> spec (S fuel) s ps (VExpr head args) (3 + sum_list vsize args) s'.
Proof.
  intros Hg Hl Hv Hn. unfold encode_expr. cbn zeta.
  assert (Hcall : forall tag n, u8 tag = tag -> head = rt_call_sym E -> Z.of_nat (length args) = n ->
    encode_list enc (emit8 s tag) args = Ok s' ->
    (forall m dec r, body m (s_ssaid s) dec tag r =
       let! (l, r) := decode_list dec (Z.to_nat n) r in Ok (VExpr (rt_call_sym E) l, r)) ->
    spec (S fuel) s ps (VExpr head args) (3 + sum_list vsize args) s').
  { intros tag n Ht -> <- He Hb. assert (Ha : appends s [tag] (emit8 s tag)) by (rewrite <- Ht at 1; emitted).
    eapply specD_more; [reflexivity | | eapply (specD_node fuel s ps _ [] tag); [done | exact Ha | |]].
    2:{ rewrite Ha in He |- *. apply encode_list_spec; [done | exact Hv | cbn; lia | exact He]. }
    - lia.
    - cbn beta. intros m dec r r' H. cbn [app]. rewrite Hb, Nat2Z.id, H. done. }
  set (n := Z.of_nat (length args)) in *. unfold short_list in Hl. fold n in Hl.
  assert (Hgen : forall tag pre s0 s1, appends s (tag :: pre) s0 -> enc s0 (VSymbol head) = Ok s1 -> encode_list enc s1 args = Ok s' ->
    (forall m dec r, body m (s_ssaid s) dec tag (pre ++ r) =
       let! (h, r) := dec r in let! head := as_symbol h in let! (l, r) := decode_count dec n r in Ok (VExpr head l, r)) ->
    spec (S fuel) s ps (VExpr head args) (3 + sum_list vsize args) s').
  { intros tag pre s0 s1 Ha E0 E2 Hb.
    eapply (specD_node fuel s ps s0 pre tag
      (fun dec r => let! (h, r) := dec r in let! (l, r) := decode_list dec (length args) r in Ok ((h, l), r)) (VSymbol head, args));
      [done | exact Ha | |].
    - rewrite Ha in E0 |- *. eapply specD_bind;
        [apply (Henc _ ps (VSymbol head) s1); [exact Hg | done | cbn; lia | exact E0] | | |].
      + intros ps1 Hg1 Hn1. cbn in Hn1. apply (encode_list_spec args s1 ps1 s'); [done | exact Hv | lia | exact E2].
      + cbn [vsize]. lia.
      + cbn beta. intros dec r1 r2 r3 H1 H2. rewrite H1. cbn [obind]. by rewrite H2.
    - intros m dec r r' H. cbn beta in H. rewrite Hb. destruct (dec r) as [[h r2] | |]; [| done | done]. cbn [obind] in *.
      unfold decode_count. rewrite (proj2 (Z.ltb_ge n 0)) by lia. unfold n. rewrite Nat2Z.id.
      destruct (decode_list dec (length args) r2) as [[l r3] | |]; [| done | done]. cbn [obind] in *.
      by injection H as -> -> ->. }
  assert (Hlong : (let! s := enc (encode_len s TAG_EXPR TAG_LONG_EXPR n) (VSymbol head) in encode_list enc s args) = Ok s' ->
    spec (S fuel) s ps (VExpr head args) (3 + sum_list vsize args) s').
  { intros (s1 & E1 & E2)%obind_Ok_inv. unfold encode_len in E1. destruct (Z.leb_spec n 255).
    - eapply (Hgen TAG_EXPR [n] _ s1); cycle 1; [exact E1 | exact E2 | | emitted]. intros m dec r. branch. unfold jl_decode_value_expr, decode_len. branch. done.
    - eapply (Hgen TAG_LONG_EXPR (le_bytes 4 n) _ s1); cycle 1; [exact E1 | exact E2 | | emitted]. intros m dec r. branch.
      unfold jl_decode_value_expr, decode_len. branch. by rewrite read_int32_write by lia. }
  destruct (Z.eqb_spec head (rt_call_sym E)) as [Hh | Hh]; cbn [andb]; [| exact Hlong].
  destruct (Z.eqb_spec n 2); [intros He; by apply (Hcall TAG_CALL1 2) |].
  destruct (Z.eqb_spec n 3); [intros He; by apply (Hcall TAG_CALL2 3) | exact Hlong].
Qed.

Lemma encode_phi_spec s ps es vals s' :
  good s ps -> wfv E (VPhiNode es vals) -> nroots (s_roots s) + Z.of_nat (vsize (VPhiNode es vals)) < 2 ^ 31 ->
  encode_phi enc s es vals = Ok s' -> spec (S fuel) s ps (VPhiNode es vals) (vsize (VPhiNode es vals)) s'.
Proof.
  intros Hg (Hle & He & Hlv & Hv) Hn. unfold encode_phi. cbn zeta. unfold short_list in *. cbn [vsize] in *.
  set (ne := Z.of_nat (length es)) in *. set (nv := Z.of_nat (length vals)) in *.
  intros (s1 & E1 & E2)%obind_Ok_inv.
  assert (Hgen : forall tag pre s0, appends s (tag :: pre) s0 -> encode_phi_edges enc s0 es = Ok s1 ->
    (forall m dec r, body m (s_ssaid s) dec tag (pre ++ r) =
       let! (l, r) := decode_count dec ne r in let! es := unbox_edges l in
       let! (vals, r) := decode_count dec nv r in Ok (VPhiNode es vals, r)) ->
    spec (S fuel) s ps (VPhiNode es vals) (1 + 2 * length es + sum_list vsize vals) s').
  { intros tag pre s0 Ha E0 Hb.
    eapply (specD_node fuel s ps s0 pre tag
      (fun dec r => let! (l, r) := read_edges (length es) dec r in let! (x, r) := decode_list dec (length vals) r in Ok ((l, x), r)) (es, vals));
      [done | exact Ha | |].
    - rewrite Ha in E0 |- *. eapply specD_bind;
        [apply (encode_phi_edges_spec es _ ps s1); [exact Hg | done | cbn; lia | exact E0] | | |].
      + intros ps1 Hg1 Hn1. cbn [s_roots] in Hn1. apply (encode_list_spec vals s1 ps1 s'); [done | exact Hv | lia | exact E2].
      + lia.
      + cbn beta. intros dec r1 r2 r3 H1 H2. rewrite H1. cbn [obind]. by rewrite H2.
    - intros m dec r r' H. cbn beta in H. rewrite Hb. unfold decode_count. rewrite !(proj2 (Z.ltb_ge _ 0)) by lia.
      unfold ne, nv. rewrite !Nat2Z.id. unfold read_edges in H.
      destruct (decode_list dec (length es) r) as [[l r2] | |]; [| done | done]. cbn [obind] in *.
      destruct (unbox_edges l) as [es' | |]; [| done | done]. cbn [obind] in *.
      destruct (decode_list dec (length vals) r2) as [[x r3] | |]; [| done | done]. cbn [obind] in *.
      by injection H as -> -> ->. }
  destruct (Z.leb_spec ne 255), (Z.eqb_spec nv ne); cbn [andb] in E1.
  1: { eapply (Hgen TAG_PHINODE [ne]); cycle 1; [exact E1 | | emitted]. intros m dec r. branch. unfold jl_decode_value_phi. branch.
       cbn [app read_uint8]. by replace nv with ne. }
  all: eapply (Hgen TAG_LONG_PHINODE (le_bytes 4 ne ++ le_bytes 4 nv)); cycle 1; [exact E1 | | emitted]; intros m dec r; branch;
    unfold jl_decode_value_phi; branch; rewrite <- app_assoc, !read_int32_write by lia; done.
Qed.

Ltac child tag v :=
  match goal with
  | He : enc (emit8 ?s tag) v = Ok ?s' |- spec _ ?s ?ps ?w _ ?s' =>
      eapply specD_more; [reflexivity | | eapply (spec_child s ps tag v w (emit8 s tag) s');
        [done | try done | | emitted | exact He | intros m dec r r' Hd; branch; unfold decode_field; rewrite Hd; done]]
  end.

Lemma encode_body_spec s ps v as_literal s' :
  good s ps -> wfv E v -> nroots (s_roots s) + Z.of_nat (vsize v) < 2 ^ 31 ->
  encode_body E method_module edges toplevel enc s v as_literal = Ok s' -> spec (S fuel) s ps v (vsize v) s'.
Proof.
  intros Hg Hv Hn He.
  assert (Hobj : encode_object E edges toplevel enc s v as_literal = Ok s' -> spec (S fuel) s ps v (vsize v) s')
    by (by apply encode_object_spec).
  assert (Hnull : v <> VNull -> spec (S fuel) s ps v (vsize v) s'); cycle 1.
  { destruct v; try (by apply Hnull). injection He as <-. by leaf TAG_NULL (@nil Z). }
  intros Hne.
  assert (He' : forall t, rt_ser_tag E v = Some t ->
    (if u8 t <=? LAST_TAG then emit8 (emit8 s 0) (u8 t) else emit8 s (u8 t)) = s' -> spec (S fuel) s ps v (vsize v) s').
  { intros t [Ht Hd]%ser_tag_ok. rewrite !u8_small by lia. destruct (Z.leb_spec t LAST_TAG) as [Hle | Hgt]; intros <-.
    - leaf 0 [t]. cbn [app read_uint8]. by rewrite Hd.
    - eapply specD_more; [| | apply (spec_leaf _ _ _ t (@nil Z)); [done | emitted |]]; [lia | lia |]. intros m dec rest.
      unfold decode_body. rewrite (proj2 (Z.ltb_lt _ _)) by lia. by rewrite <- Hd. }
  unfold encode_body, encode_node in He. destruct (rt_ser_tag E v) as [t |] eqn:Et.
  { apply (He' t); [done |]. destruct v; try done; by injection He. }
  clear He'.
  destruct v as [| sym | m | name params free | l | gmod gname | id | nslot | head args | es vals | vals | label | v dest
    | catch_dest v | n | v | v | x | x | x | data | ty ndims dim0 mem offset | mty len data ptrs | ty data ptrs | id ty];
    cbn [wfv] in Hv; try done; cbn [vsize] in *; try (exact (Hobj He)).
  - destruct (rt_common_symbol E sym) as [t |] eqn:Ec; [| exact (Hobj He)]. injection He as <-.
    apply common_symbol_ok in Ec as [Ht Hd]. leaf TAG_COMMONSYM [t]. cbn [app read_uint8]. by rewrite Hd.
  - destruct (Z.eqb_spec m (rt_core_module E)) as [-> |]; [injection He as <-; by leaf TAG_CORE (@nil Z) |].
    destruct (Z.eqb_spec m (rt_base_module E)) as [-> |]; [injection He as <-; by leaf TAG_BASE (@nil Z) |].
    destruct (Z.eqb_spec m method_module) as [-> |]; [injection He as <-; by leaf TAG_NEARBYMODULE (@nil Z) |].
    exact (Hobj He).
  - destruct params as [| t [| p [| q params]]]; try (exact (Hobj He)).
    + destruct (Z.eqb_spec name (rt_pointer_typename E)) as [-> |]; [| exact (Hobj He)].
      destruct free; [exact (Hobj He) |]. cbn [andb negb] in He.
      cbn [sum_list all_list] in *. child TAG_PTRTY t; (lia || apply Hv).
    + assert (Hp : p = VInt64 1 /\ name = rt_array_typename E /\ free = false /\ enc (emit8 s TAG_VECTORTY) t = Ok s' \/
        spec (S fuel) s ps (VType name [t; p] free) (1 + sum_list vsize [t; p]) s').
      { destruct p; try (right; exact (Hobj He)). destruct x as [| [p | p |] | p]; try (right; exact (Hobj He)).
        destruct (Z.eqb_spec name (rt_array_typename E)) as [-> |]; [| right; exact (Hobj He)].
        destruct free; [right; exact (Hobj He) | left; done]. }
      clear He. destruct Hp as [(-> & -> & -> & He) | Hs]; [| exact Hs].
      cbn [sum_list all_list] in *. child TAG_VECTORTY t; (lia || apply Hv).
    + apply Hobj. destruct p; try exact He. destruct x as [| [p | p |] | p]; exact He.
  - eapply specD_more; [reflexivity | |
      eapply (spec_list s ps TAG_SVEC TAG_LONG_SVEC l); [done | apply Hv | apply Hv | lia | done | done | done | exact He |]].
    + cbn [vsize]; lia.
    + intros m dec r r' t [-> | ->] H; branch; unfold jl_decode_value_svec; destruct (decode_len _ _ r); by rewrite H.
  - destruct (Z.eqb_spec gmod method_module) as [-> |].
    + child TAG_NEARBYGLOBAL (VSymbol gname); cbn [vsize wfv]; (lia || done).
    + apply obind_Ok_inv in He as (s1 & E1 & E2).
      eapply specD_more; [reflexivity | |
        eapply (spec_children s ps TAG_GLOBALREF (VModule gmod) (VSymbol gname) _ _ s1); [done | done | done | cbn [vsize]; lia | emitted | exact E1 | exact E2 |]].
      * cbn [vsize]; lia.
      * intros m dec r1 r2 r3 H1 H2. branch. unfold jl_decode_value_globalref. rewrite H1. cbn [obind as_module]. by rewrite H2.
  - pose proof (u64_range (s_ssaid s - id)) as Hu. unfold int64_range in Hv.
    destruct (Z.ltb_spec (u64 (s_ssaid s - id)) 256).
    { injection He as <-. leaf TAG_NEARBYSSAVALUE [u64 (s_ssaid s - id)]. cbn [app read_uint8]. do 2 f_equal. f_equal.
      by apply nearby_ssavalue. }
    destruct (Z.ltb_spec id 256), (Z.leb_spec 0 id); cbn [andb] in He.
    1: { injection He as <-. by leaf TAG_SSAVALUE [id]. }
    all: destruct (Z.leb_spec id 65535); cbn [andb] in He; try (exact (Hobj He)); try lia.
    injection He as <-. leaf TAG_LONG_SSAVALUE (le_bytes 2 id). by rewrite read_uint16_write, u16_small by lia.
  - destruct (Z.leb_spec nslot 65535), (Z.leb_spec 0 nslot); cbn [andb] in He; try (exact (Hobj He)).
    injection He as <-. leaf TAG_SLOTNUMBER (le_bytes 2 nslot). by rewrite read_uint16_write, u16_small by lia.
  - destruct Hv as [Hl Hv]. by apply encode_expr_spec.
  - by apply encode_phi_spec.
  - eapply specD_more; [reflexivity | |
      eapply (spec_list s ps TAG_PHICNODE TAG_LONG_PHICNODE vals); [done | apply Hv | apply Hv | lia | done | done | done | exact He |]].
    + cbn [vsize]; lia.
    + intros m dec r r' t [-> | ->] H; branch; unfold jl_decode_value_phic; destruct (decode_len _ _ r); by rewrite H.
  - child TAG_GOTONODE (VInt64 label); cbn [vsize wfv]; (lia || done).
  - apply obind_Ok_inv in He as (s1 & E1 & E2).
    eapply specD_more; [reflexivity | |
      eapply (spec_children s ps TAG_GOTOIFNOT v (VInt64 dest) _ _ s1); [done | apply Hv | apply Hv | cbn [vsize]; lia | emitted | exact E1 | exact E2 |]].
    + cbn [vsize]; lia.
    + intros m dec r1 r2 r3 H1 H2. branch. unfold decode_fields2. rewrite H1. cbn [obind]. by rewrite H2.
  - apply obind_Ok_inv in He as (s1 & E1 & E2).
    eapply specD_more; [reflexivity | |
      eapply (spec_children s ps TAG_ENTERNODE (VInt64 catch_dest) v _ _ s1); [done | apply Hv | apply Hv | cbn [vsize]; lia | emitted | exact E1 | exact E2 |]].
    + cbn [vsize]; lia.
    + intros m dec r1 r2 r3 H1 H2. branch. unfold decode_fields2. rewrite H1. cbn [obind]. by rewrite H2.
  - child TAG_ARGUMENT (VInt64 n); cbn [vsize wfv]; (lia || done).
  - child TAG_RETURNNODE v; cbn [vsize wfv]; (lia || done).
  - assert (Hq : (enc (emit8 s TAG_QUOTENODE) v = Ok s') \/
      jl_encode_as_indexed_root E edges toplevel (emit8 s TAG_QUOTENODE) v = Ok s') by (destruct v; auto).
    clear He. destruct Hq as [He | He].
    + child TAG_QUOTENODE v; (lia || done).
    + pose proof (vsize_pos v).
      eapply specD_more; [reflexivity | |
        eapply (specD_node fuel s ps (emit8 s TAG_QUOTENODE) [] TAG_QUOTENODE (fun dec => dec)); [done | emitted | |]].
      2:{ eapply specD_more; [exact Hfuel | reflexivity | apply indexed_root_spec; [exact Hg | cbn; lia | exact He]]. }
      * lia.
      * intros m dec r r' Hd. branch. unfold decode_field. cbn [app]. by rewrite Hd.
  - injection He as <-. eapply specD_more; [| | by apply encode_int64_spec]; lia.
  - injection He as <-. eapply specD_more; [| | by apply encode_int32_spec]; lia.
  - injection He as <-. unfold is_byte in Hv. by leaf TAG_UINT8 [x].
  - destruct data as [| b data]; [| exact (Hobj He)]. cbn in He.
    eapply specD_more; [| | apply (Henc s ps (VString []) s'); [done | done | cbn [vsize]; lia | exact He]]; cbn [vsize]; lia.
Qed.
End Enc.

Lemma jl_encode_value_spec fuel : forall s ps v as_literal s',
  good s ps -> wfv E v -> nroots (s_roots s) + Z.of_nat (vsize v) < 2 ^ 31 ->
  jl_encode_value_ E method_module edges toplevel fuel s v as_literal = Ok s' -> spec (S fuel) s ps v (vsize v) s'.
Proof.
  induction fuel as [| fuel IH]; intros s ps v as_literal s' Hg Hv Hn He; [done |]. cbn [jl_encode_value_] in He.
  eapply (encode_body_spec (S fuel)); [| lia | done | done | done | exact He].
  intros s0 ps0 v0 s0' Hg0 Hv0 Hn0 He0. by eapply IH.
Qed.

(** ** The encoder succeeds *)

Section Total.
Context (fuel : nat) (enc : ircode_state -> value -> outcome ircode_state) (Henc : enc_ok fuel enc).
Context (k : nat) (Htot : forall s ps v, good s ps -> wfv E v -> nroots (s_roots s) + Z.of_nat (vsize v) < 2 ^ 31 ->
  (vsize v <= k)%nat -> exists s', enc s v = Ok s').

(** The state after a part. *)
Lemma enc_step s ps v :
  good s ps -> wfv E v -> nroots (s_roots s) + Z.of_nat (vsize v) < 2 ^ 31 -> (vsize v <= k)%nat ->
  exists s1 ps1, enc s v = Ok s1 /\ good s1 ps1 /\ nroots (s_roots s1) <= nroots (s_roots s) + Z.of_nat (vsize v).
Proof.
  intros Hg Hv Hn Hk. destruct (Htot s ps v Hg Hv Hn Hk) as [s1 E1]. exists s1.
  destruct (Henc s ps v s1 Hg Hv Hn E1) as (ps1 & bs & Hw & _). exists ps1. split; [done |]. split; apply Hw.
Qed.

Lemma encode_list_total l : forall s ps,
  good s ps -> all_list (wfv E) l -> nroots (s_roots s) + Z.of_nat (sum_list vsize l) < 2 ^ 31 -> (sum_list vsize l <= k)%nat ->
  exists s', encode_list enc s l = Ok s'.
Proof.
  induction l as [| v l IH]; intros s ps Hg Hv Hn Hk; cbn [encode_list all_list sum_list] in *; [eauto |].
  destruct Hv as [Hv Hl]. destruct (enc_step s ps v) as (s1 & ps1 & -> & Hg1 & Hn1); [done | done | lia | lia |].
  cbn [obind]. apply (IH s1 ps1); [done | done | lia | lia].
Qed.

Lemma encode_phi_edges_total es : (2 <= k)%nat -> forall s ps,
  good s ps -> Forall int32_range es -> nroots (s_roots s) + Z.of_nat (2 * length es) < 2 ^ 31 ->
  exists s' ps', encode_phi_edges enc s es = Ok s' /\ good s' ps' /\
    nroots (s_roots s') <= nroots (s_roots s) + Z.of_nat (2 * length es).
Proof.
  intros Hk. induction es as [| e es IH]; intros s ps Hg He Hn; cbn [encode_phi_edges]; [exists s, ps; split; [done | split; [done | lia]] |].
  apply Forall_cons in He as [He Hes]. cbn [length] in Hn |- *. destruct ((0 <=? e) && _).
  - destruct (enc_step s ps (VInt32 e)) as (s1 & ps1 & -> & Hg1 & Hn1); [done | done | cbn [vsize]; lia | done |].
    cbn [obind vsize] in *. destruct (IH s1 ps1) as (s' & ps' & E' & Hg' & Hn'); [done | done | lia |].
    exists s', ps'. split; [done |]. split; [done | lia].
  - cbn [obind]. assert (Hr : s_roots (jl_encode_int32 s e) = s_roots s) by (unfold jl_encode_int32; by destruct (_ && _)).
    destruct (IH (jl_encode_int32 s e) ps) as (s' & ps' & E' & Hg' & Hn'); [by unfold good; rewrite Hr | done | rewrite Hr; lia |].
    rewrite Hr in Hn'. exists s', ps'. split; [done |]. split; [done | lia].
Qed.

Lemma general_pointers_total data size ptr offs : forall ptrs s ps last,
  good s ps -> all_list (wfv E) ptrs -> nroots (s_roots s) + Z.of_nat (sum_list vsize ptrs) < 2 ^ 31 ->
  (sum_list vsize ptrs <= k)%nat ->
  Z.of_nat (length data) = size -> length ptrs = length offs -> 0 <= last -> pieces_ok data offs last size ->
  exists s1 offs1 ptrs1 last1 ps1, general_pointers enc s data offs ptrs ptr last = Ok (s1, offs1, ptrs1, last1) /\
    good s1 ps1 /\ all_list (wfv E) ptrs1 /\ nroots (s_roots s1) + Z.of_nat (sum_list vsize ptrs1) < 2 ^ 31 /\
    (sum_list vsize ptrs1 <= k)%nat.
Proof.
  induction offs as [| o offs IH]; intros ptrs s ps last Hg Hv Hn Hk Hlen Hl H0 Hp; cbn [general_pointers].
  - destruct ptrs; [| done]. by exists s, [], [], last, ps.
  - destruct ptrs as [| p ptrs]; [done |]. destruct Hp as (Hso & _ & Hp). pose proof (pieces_ok_bound _ _ _ _ Hp) as Hb8.
    destruct (Z.ltb_spec (8 * o) ptr) as [Hlt | Hge]; [| by exists s, (o :: offs), (p :: ptrs), last, ps].
    cbn [all_list sum_list] in Hv, Hn, Hk. destruct Hv as [Hv Hvs].
    assert (Hw : exists s2, (if last <? 8 * o then let! b := slice data last (8 * o) in Ok (ios_write s b) else Ok s) = Ok s2 /\
      s_roots s2 = s_roots s).
    { destruct (last <? 8 * o); [| eauto]. destruct (slice_total data last (8 * o)) as [x ->]; [lia | lia |]. cbn. eauto. }
    destruct Hw as (s2 & -> & E2). cbn [obind].
    destruct (enc_step s2 ps p) as (s3 & ps3 & -> & Hg3 & Hn3); [unfold good; by rewrite E2 | done | rewrite E2; lia | lia |].
    cbn [obind]. rewrite E2 in Hn3. injection Hl as Hl. apply (IH ptrs s3 ps3 (8 * o + 8)); try done; lia.
Qed.

Lemma general_fields_total data size fields : forall offs ptrs s ps last,
  good s ps -> all_list (wfv E) ptrs -> nroots (s_roots s) + Z.of_nat (sum_list vsize ptrs) < 2 ^ 31 ->
  (sum_list vsize ptrs <= k)%nat ->
  Z.of_nat (length data) = size -> length ptrs = length offs -> 0 <= last -> pieces_ok data offs last size ->
  exists s1 last1, general_fields enc s data fields offs ptrs last size = Ok (s1, last1) /\ 0 <= last1.
Proof.
  induction fields as [| f fields IH]; intros offs ptrs s ps last Hg Hv Hn Hk Hlen Hl H0 Hp; cbn [general_fields].
  - destruct (general_pointers_total data size size offs ptrs s ps last) as (s1 & offs1 & ptrs1 & last1 & ps1 & E1 & _); try done.
    destruct (general_pointers_pieces enc data size size offs ptrs s last _ _ _ _ Hlen Hl H0 Hp E1) as (_ & _ & H3 & _).
    rewrite E1. cbn [obind]. eauto.
  - destruct (general_pointers_total data size f offs ptrs s ps last) as (s1 & offs1 & ptrs1 & last1 & ps1 & E1 & Hg1 & Hv1 & Hn1 & Hk1); try done.
    destruct (general_pointers_pieces enc data size f offs ptrs s last _ _ _ _ Hlen Hl H0 Hp E1) as (_ & H2 & H3 & H4 & _).
    rewrite E1. cbn [obind]. by apply (IH offs1 ptrs1 s1 ps1 last1).
Qed.

Lemma encode_general_total s ps ty data ptrs :
  good s ps -> wfv E ty -> all_list (wfv E) ptrs -> struct_ok (rt_layout E ty) data ptrs ->
  nroots (s_roots s) + Z.of_nat (vsize ty + sum_list vsize ptrs) < 2 ^ 31 -> (vsize ty + sum_list vsize ptrs <= k)%nat ->
  exists s', encode_general E enc s ty data ptrs = Ok s'.
Proof.
  intros Hg Ht Hv (Hs0 & Hlen & Hl & Hp & _) Hn Hk. unfold encode_general.
  destruct (enc_step (emit8 s TAG_GENERAL) ps ty) as (s1 & ps1 & -> & Hg1 & Hn1); [exact Hg | done | cbn; lia | lia |].
  cbn [obind]. cbn [s_roots emit8 emit] in Hn1.
  destruct (general_fields_total data _ (ly_fields (rt_layout E ty)) _ ptrs s1 ps1 0 Hg1 Hv ltac:(lia) ltac:(lia) Hlen Hl ltac:(lia) Hp)
    as (s2 & last & -> & Hlast). cbn [obind].
  destruct (Z.ltb_spec last (ly_size (rt_layout E ty))); [| eauto].
  destruct (slice_total data last (ly_size (rt_layout E ty))) as [x ->]; [lia | lia | cbn; eauto].
Qed.

Lemma indexed_root_total s ps v :
  good s ps -> nroots (s_roots s) + 1 < 2 ^ 31 -> exists s', jl_encode_as_indexed_root E edges toplevel s v = Ok s'.
Proof.
  intros Hg Hn. unfold jl_encode_as_indexed_root.
  assert (Hl : exists rr s1, literal_val_id E edges toplevel s v = Ok (rr, s1)).
  { unfold literal_val_id. destruct (index_of _ (default [] (roots (s_roots s))) 0) as [i |] eqn:Ei.
    - apply index_of_spec in Ei as (x & Hi & Hx & _). rewrite Z.sub_0_r in Hx.
      destruct (tagged_root_spec s ps i x Hg Hi Hx) as (rr & s1 & -> & _). eauto.
    - destruct (index_of _ edges 0) as [i |]; [eauto |].
      destruct (add_method_root_keys _ _ v (proj1 Hg) (proj2 Hg) Hn) as (m & ps' & -> & Hm & Hx & Hk' & Hr). cbn [obind].
      destruct (tagged_root_spec (IRState (s_out s) (s_ssaid s) m (s_relocatability s)) ps' (nroots m - 1) v) as (rr & s2 & -> & _);
        [by split | unfold nroots; rewrite Hr, length_app; cbn; lia | | eauto].
      cbn. rewrite Hr. unfold nroots. rewrite Hr, length_app, lookup_app_r by (cbn; lia).
      replace (Z.to_nat _ - _)%nat with 0%nat by (cbn; lia). done. }
  destruct Hl as (rr & s1 & El). rewrite El. cbn [obind].
  destruct (literal_val_id_spec _ _ _ _ _ Hg Hn El) as (ps' & _ & Hidx & _). rewrite (proj2 (Z.ltb_ge _ 0)) by lia.
  destruct (rr_key rr =? u64 (-1)); [destruct (rr_index rr <=? 255); eauto |].
  destruct (negb _), (rr_index rr <=? 255); eauto.
Qed.

Lemma encode_pieces_total data size offs : forall ptrs start s ps,
  good s ps -> all_list (wfv E) ptrs -> nroots (s_roots s) + Z.of_nat (sum_list vsize ptrs) < 2 ^ 31 ->
  (sum_list vsize ptrs <= k)%nat ->
  Z.of_nat (length data) = size -> length ptrs = length offs -> 0 <= start -> pieces_ok data offs start size ->
  exists s' ps', encode_pieces enc s data offs ptrs start size = Ok s' /\ good s' ps' /\
    nroots (s_roots s') <= nroots (s_roots s) + Z.of_nat (sum_list vsize ptrs).
Proof.
  induction offs as [| o offs IH]; intros ptrs start s ps Hg Hv Hn Hk Hlen Hl H0 Hp;
    (destruct ptrs as [| p ptrs]; [| try done]); try done; cbn [encode_pieces].
  - destruct (slice_total data start size) as [x ->]; [cbn in Hp; lia | lia |]. cbn [obind].
    exists (ios_write s x), ps. split; [done |]. split; [exact Hg | cbn; lia].
  - destruct Hp as (Hso & _ & Hp). pose proof (pieces_ok_bound _ _ _ _ Hp) as Hb8.
    destruct (slice_total data start (8 * o)) as [x ->]; [lia | lia |]. cbn [obind].
    cbn [all_list sum_list] in *. destruct Hv as [Hv Hvs].
    destruct (enc_step (ios_write s x) ps p) as (s3 & ps3 & -> & Hg3 & Hn3); [exact Hg | done | cbn; lia | lia |].
    cbn [obind]. cbn [s_roots ios_write emit] in Hn3. injection Hl as Hl.
    destruct (IH ptrs (8 * o + 8) s3 ps3) as (s' & ps' & E' & Hg' & Hn'); try done; try lia.
    exists s', ps'. split; [done |]. split; [done | lia].
Qed.

Lemma encode_elements_total ly n : forall data ptrs s ps,
  good s ps -> all_list (wfv E) ptrs -> elements_ok ly n data ptrs ->
  nroots (s_roots s) + Z.of_nat (sum_list vsize ptrs) < 2 ^ 31 -> (sum_list vsize ptrs <= k)%nat ->
  exists s', encode_elements enc s ly n data ptrs = Ok s'.
Proof.
  induction n as [| n IH]; intros data ptrs s ps Hg Hv He Hn Hk; cbn [encode_elements]; [eauto |].
  cbn [elements_ok] in He. destruct He as [(Hs0 & Hlen & Hl & Hp & _) He].
  rewrite <- (take_drop (length (ly_ptrs ly)) ptrs) in Hv, Hn, Hk. apply all_list_app in Hv as [Hv1 Hv2]. rewrite sum_list_app in *.
  destruct (encode_pieces_total _ (ly_size ly) (ly_ptrs ly) _ 0 s ps Hg Hv1 ltac:(lia) ltac:(lia) Hlen Hl ltac:(lia) Hp)
    as (s1 & ps1 & -> & Hg1 & Hn1). cbn [obind]. apply (IH _ _ s1 ps1); [done | done | done | lia | lia].
Qed.

Lemma encode_memory_total s ps mty len data ptrs :
  good s ps -> all_list (wfv E) ptrs -> memory_ok (rt_layout E mty) len data ptrs ->
  nroots (s_roots s) + Z.of_nat (sum_list vsize ptrs) < 2 ^ 31 -> (sum_list vsize ptrs <= k)%nat ->
  exists s', jl_encode_memory_slice E enc s (VMemory mty len data ptrs) 0 len = Ok s'.
Proof.
  intros Hg Hv (Hr & H0 & Hm) Hn Hk. unfold jl_encode_memory_slice.
  destruct (arrayelem_isboxed (rt_layout E mty)).
  - destruct Hm as [-> Hl]. rewrite (proj2 (Z.ltb_ge _ _)) by lia. rewrite drop_0, take_ge by lia. by apply (encode_list_total _ _ ps).
  - destruct (0 <? Z.of_nat (length (ly_ptrs (rt_layout E mty)))).
    + destruct Hm as [Hsz Hm]. rewrite u16_small, Z.eqb_refl, Z.mul_0_l, Nat.mul_0_l, !drop_0 by lia. by apply (encode_elements_total _ _ _ _ _ ps).
    + destruct Hm as (-> & Hs0 & Hl). rewrite Z.mul_0_l, Z.add_0_l.
      destruct (slice_total data 0 (len * ly_size (rt_layout E mty))) as [x ->].
      { nia. }
      { destruct (arrayelem_isunion _); lia. }
      cbn [obind]. destruct (arrayelem_isunion (rt_layout E mty)); [| eauto]. rewrite Z.add_0_r.
      destruct (slice_total data (len * ly_size (rt_layout E mty)) (len * ly_size (rt_layout E mty) + len)) as [y ->]; [nia | lia |].
      cbn. eauto.
Qed.

(** The literals the encoder accepts: those it does not have to copy as raw
    addresses. *)
Definition literal_ok (v : value) : Prop :=
  match v with
  | VSymbol _ | VModule _ | VType _ _ _ | VOther _ _ => False
  | VStruct ty _ _ => is_layout_opaque (rt_layout E ty) = false
  | _ => True
  end.

Lemma encode_object_total s ps v as_literal :
  good s ps -> wfv E v -> nroots (s_roots s) + Z.of_nat (vsize v) < 2 ^ 31 -> (vsize v <= S k)%nat ->
  (as_literal = true -> literal_ok v) ->
  match v with
  | VSymbol _ | VModule _ | VString _ | VType _ _ _ | VSSAValue _ | VSlotNumber _
  | VArray _ _ _ _ _ | VMemory _ _ _ _ | VStruct _ _ _ | VOther _ _ => True
  | _ => False
  end ->
  exists s', encode_object E edges toplevel enc s v as_literal = Ok s'.
Proof.
  intros Hg Hv Hn Hk Hlit Hkind. pose proof (vsize_pos v) as Hpos.
  destruct (indexed_root_total s ps v Hg) as [sr Hr]; [lia |]. unfold encode_object.
  destruct (is_singleton E v) eqn:Es.
  { destruct v; try done. destruct Hv as [Ht _]. cbn [vsize] in *. apply (Htot _ ps); [exact Hg | done | cbn; lia | lia]. }
  assert (Hgen : forall ty data ptrs, object_data E v = Some (ty, data, ptrs) -> exists s', encode_general E enc s ty data ptrs = Ok s').
  { intros ty data ptrs Eo. destruct (object_data_spec v ty data ptrs Hv Eo) as (H1 & H2 & H3 & H4 & H5).
    assert (vsize ty + sum_list vsize ptrs < vsize v)%nat by (destruct v; cbn in Eo; try done; injection Eo as <- <- <-; cbn; lia).
    apply (encode_general_total s ps); [done | done | done | done | lia | lia]. }
  destruct v; try done; destruct as_literal; try (by destruct (Hlit eq_refl)); cbn [object_data andb orb is_copied] in *; eauto.
  - rewrite ssavalue_layout_ok. apply (Hgen _ _ _ eq_refl).
  - rewrite slotnumber_layout_ok. apply (Hgen _ _ _ eq_refl).
  - destruct Hv as (Ht & Hm & -> & -> & Hmem). cbn [negb Z.eqb]. destruct v2; try done. destruct Hmem as [-> ->].
    cbn [wfv vsize] in *. destruct Hm as (Hmt & Hps & Hmo).
    destruct (enc_step (emit8 s TAG_ARRAY1D) ps (VInt64 dim0)) as (s1 & ps1 & -> & Hg1 & Hn1); [exact Hg | apply Hmo | cbn; lia | cbn; lia |].
    cbn [obind]. cbn [vsize s_roots emit8 emit] in Hn1.
    destruct (enc_step s1 ps1 v1) as (s2 & ps2 & -> & Hg2 & Hn2); [done | done | lia | lia |]. cbn [obind].
    apply (encode_memory_total s2 ps2); [done | done | done | lia | lia].
  - destruct Hv as (Hmt & Hps & Hmo). cbn [vsize] in *. pose proof (vsize_pos v).
    destruct (enc_step (emit8 s TAG_MEMORYT) ps v) as (s1 & ps1 & -> & Hg1 & Hn1); [exact Hg | done | cbn; lia | lia |].
    cbn [obind]. cbn [s_roots emit8 emit] in Hn1.
    destruct (enc_step s1 ps1 (VInt64 length)) as (s2 & ps2 & -> & Hg2 & Hn2); [done | apply Hmo | cbn [vsize]; lia | cbn [vsize]; lia |].
    cbn [obind]. cbn [vsize] in Hn2. apply (encode_memory_total s2 ps2); [done | done | done | lia | lia].
  - rewrite (Hlit eq_refl). cbn [andb]. eauto.
  - cbn [andb]. destruct (rt_copied_type E v || _); eauto.
Qed.

Lemma good_emitted s ps s1 : good s ps -> s_roots s1 = s_roots s -> good s1 ps.
Proof. intros Hg Hr. unfold good. by rewrite Hr. Qed.

(** One part, from a state with the same roots. *)
Lemma child_total s ps s1 v n :
  good s ps -> s_roots s1 = s_roots s -> wfv E v -> nroots (s_roots s) + Z.of_nat n < 2 ^ 31 -> (n <= S k)%nat ->
  (vsize v < n)%nat -> exists s', enc s1 v = Ok s'.
Proof. intros Hg Hr Hv Hn Hk Hlt. apply (Htot s1 ps); [by apply (good_emitted s) | done | rewrite Hr; lia | lia]. Qed.

Lemma children_total s ps s1 v w n :
  good s ps -> s_roots s1 = s_roots s -> wfv E v -> wfv E w -> nroots (s_roots s) + Z.of_nat n < 2 ^ 31 -> (n <= S k)%nat ->
  (vsize v + vsize w <= n)%nat -> (vsize v < n)%nat -> (vsize w < n)%nat ->
  exists s', (let! s2 := enc s1 v in enc s2 w) = Ok s'.
Proof.
  intros Hg Hr Hv Hw Hn Hk H1 H2 H3.
  destruct (enc_step s1 ps v) as (s2 & ps2 & -> & Hg2 & Hn2); [by apply (good_emitted s) | done | rewrite Hr; lia | lia |].
  cbn [obind]. rewrite Hr in Hn2. apply (Htot s2 ps2); [done | done | lia | lia].
Qed.

Lemma list_total s ps s1 l n :
  good s ps -> s_roots s1 = s_roots s -> all_list (wfv E) l -> nroots (s_roots s) + Z.of_nat n < 2 ^ 31 -> (n <= S k)%nat ->
  (sum_list vsize l < n)%nat -> exists s', encode_list enc s1 l = Ok s'.
Proof.
  intros Hg Hr Hv Hn Hk Hlt. apply (encode_list_total _ _ ps); [by apply (good_emitted s) | done | rewrite Hr; lia | lia].
Qed.

Lemma encode_len_roots s t1 t2 l : s_roots (encode_len s t1 t2 l) = s_roots s.
Proof. unfold encode_len. by destruct (l <=? 255). Qed.

Lemma encode_expr_total s ps head args :
  good s ps -> all_list (wfv E) args -> nroots (s_roots s) + Z.of_nat (vsize (VExpr head args)) < 2 ^ 31 ->
  (vsize (VExpr head args) <= S k)%nat -> exists s', encode_expr E enc s head args = Ok s'.
Proof.
  cbn [vsize]. intros Hg Hv Hn Hk. unfold encode_expr. destruct (_ && _); [| destruct (_ && _)].
  1,2: eapply (list_total s ps); [done | done | done | exact Hn | done | lia].
  set (s1 := encode_len _ _ _ _).
  destruct (enc_step s1 ps (VSymbol head)) as (s2 & ps2 & -> & Hg2 & Hn2);
    [by apply (good_emitted s), encode_len_roots | done | unfold s1; rewrite encode_len_roots; cbn [vsize]; lia | cbn [vsize]; lia |].
  cbn [obind]. unfold s1 in Hn2. rewrite encode_len_roots in Hn2. cbn [vsize] in Hn2.
  apply (encode_list_total _ _ ps2); [done | done | lia | lia].
Qed.

Lemma encode_phi_total s ps es vals :
  good s ps -> wfv E (VPhiNode es vals) -> nroots (s_roots s) + Z.of_nat (vsize (VPhiNode es vals)) < 2 ^ 31 ->
  (vsize (VPhiNode es vals) <= S k)%nat -> exists s', encode_phi enc s es vals = Ok s'.
Proof.
  cbn [vsize]. intros Hg (_ & He & _ & Hv) Hn Hk. unfold encode_phi. cbn zeta. set (s1 := if _ && _ then _ else _).
  assert (Hr : s_roots s1 = s_roots s) by (unfold s1; by destruct (_ && _)).
  assert (Hes : exists s2 ps2, encode_phi_edges enc s1 es = Ok s2 /\ good s2 ps2 /\
    nroots (s_roots s2) <= nroots (s_roots s1) + Z.of_nat (2 * length es)).
  { destruct es as [| e es]; [exists s1, ps; split; [done |]; split; [by apply (good_emitted s) | lia] |].
    apply (encode_phi_edges_total (e :: es) ltac:(cbn [length] in Hk; lia) _ ps); [by apply (good_emitted s) | done | rewrite Hr; lia]. }
  destruct Hes as (s2 & ps2 & -> & Hg2 & Hn2). rewrite Hr in Hn2. cbn [obind].
  apply (encode_list_total _ _ ps2); [done | done | lia | lia].
Qed.

(** A case that encodes one or two parts after a tag. *)
Ltac by_child :=
  match goal with
  | Hg : good ?s ?ps |- exists s', enc _ ?v = Ok s' => eapply (child_total s ps)
  | Hg : good ?s ?ps |- exists s', obind (enc _ ?v) (fun s2 => enc s2 ?w) = Ok s' => eapply (children_total s ps)
  end; [eassumption | reflexivity | ..]; cbn [vsize wfv]; first [eassumption | tauto | lia].

Lemma encode_body_total s ps v as_literal :
  good s ps -> wfv E v -> nroots (s_roots s) + Z.of_nat (vsize v) < 2 ^ 31 -> (vsize v <= S k)%nat ->
  (as_literal = true -> literal_ok v) ->
  exists s', encode_body E method_module edges toplevel enc s v as_literal = Ok s'.
Proof.
  intros Hg Hv Hn Hk Hlit. pose proof (encode_object_total s ps v as_literal Hg Hv Hn Hk Hlit) as Hobj.
  unfold encode_body, encode_node. destruct (rt_ser_tag E v) as [t |] eqn:Et; [destruct v; eauto |].
  destruct v; cbn [vsize wfv] in *; eauto.
  - destruct (rt_common_symbol E s0); eauto.
  - destruct (m =? rt_core_module E), (m =? rt_base_module E), (m =? method_module); eauto.
  - destruct params as [| t [| u [| u' params]]]; eauto.
    + destruct (_ && _); [| eauto]. cbn [all_list sum_list] in *.
      by_child.
    + destruct u; eauto. destruct x as [| [] |]; eauto. destruct (_ && _); [| eauto]. cbn [all_list sum_list] in *.
      by_child.
    + destruct u; eauto. destruct x as [| [] |]; eauto.
  - apply (list_total s ps _ _ _ Hg (encode_len_roots _ _ _ _) (proj2 Hv) Hn Hk). lia.
  - destruct (gmod =? method_module).
    + by_child.
    + by_child.
  - destruct (u64 _ <? 256); [eauto |]. destruct (_ && _); [eauto |]. destruct (_ && _); eauto.
  - destruct (_ && _); eauto.
  - apply (encode_expr_total s ps); [done | apply Hv | done | done].
  - by apply (encode_phi_total s ps).
  - apply (list_total s ps _ _ _ Hg (encode_len_roots _ _ _ _) (proj2 Hv) Hn Hk). lia.
  - by_child.
  - pose proof (vsize_pos v). by_child.
  - pose proof (vsize_pos v). by_child.
  - by_child.
  - by_child.
  - pose proof (vsize_pos v). destruct (indexed_root_total (emit8 s TAG_QUOTENODE) ps v Hg) as [sr Hr]; [cbn; lia |].
    destruct (child_total s ps (emit8 s TAG_QUOTENODE) v _ Hg eq_refl Hv Hn Hk) as [sc Hc]; [lia |].
    destruct v; eauto.
  - destruct data as [| b data]; [by destruct empty_string_ok | eauto].
Qed.
End Total.

(** Fuel as large as the value is enough. *)
Lemma jl_encode_value_total fuel : forall s ps v as_literal,
  good s ps -> wfv E v -> nroots (s_roots s) + Z.of_nat (vsize v) < 2 ^ 31 -> (vsize v <= fuel)%nat ->
  (as_literal = true -> literal_ok v) ->
  exists s', jl_encode_value_ E method_module edges toplevel fuel s v as_literal = Ok s'.
Proof.
  induction fuel as [| fuel IH]; intros s ps v as_literal Hg Hv Hn Hk Hlit; [pose proof (vsize_pos v); lia |].
  cbn [jl_encode_value_]. apply (encode_body_total (S fuel) _) with (k := fuel) (ps := ps); try done.
  - intros s0 ps0 v0 s0' Hg0 Hv0 Hn0 He0. by eapply jl_encode_value_spec.
  - intros s0 ps0 v0 Hg0 Hv0 Hn0 Hk0. by apply (IH s0 ps0).
Qed.

Lemma encode_decode fuel s ps v as_literal :
  good s ps -> wfv E v -> nroots (s_roots s) + Z.of_nat (vsize v) < 2 ^ 31 -> (vsize v <= fuel)%nat ->
  (as_literal = true -> literal_ok v) ->
  exists s' ps' bs,
    jl_encode_value_ E method_module edges toplevel fuel s v as_literal = Ok s' /\ writes s ps s' ps' bs (vsize v) /\
    forall m psm fuel' rest, wf m psm -> extends (s_roots s') ps' m psm -> (S fuel <= fuel')%nat ->
      decode m (s_ssaid s) fuel' (bs ++ rest) = Ok (v, rest).
Proof.
  intros Hg Hv Hn Hk Hlit. destruct (jl_encode_value_total fuel s ps v as_literal Hg Hv Hn Hk Hlit) as [s' E'].
  destruct (jl_encode_value_spec fuel s ps v as_literal s' Hg Hv Hn E') as (ps' & bs & Hw & Hr).
  exists s', ps', bs. split; [done |]. split; [done |]. intros m psm fuel' rest Hm Hx Hf.
  rewrite <- (w_ssaid _ _ _ _ _ _ Hw). by apply Hr with (psm := psm).
Qed.
End RoundTrip.
