(* ===== verification/Serializer.v ===== *)
(** * The tables of the compact IR (jl_init_serializer, ircode.c)

    [ser_tag] gives the most common objects a one-byte tag and
    [common_symbol_tag] gives common symbols a two-byte one; [deser_tag] and
    [deser_symbols] are the arrays the decoder indexes.  The pointer hash
    tables are association lists keyed by identity, newest entry first.  The
    objects the runtime creates before this runs are a parameter, [B]; so is
    the symbol of a name. *)

From Stdlib Require Import ZArith Lia String.
From stdpp Require Import base numbers option list.
From S2P Require Import Prelude IRCode.

#[local] Open Scope string_scope.
#[local] Open Scope Z_scope.

(** The objects the tables hold, by their names in the source. *)
Inductive builtin :=
| jl_emptysvec | jl_emptytuple | jl_false | jl_true | jl_nothing | jl_any_type | jl_call_sym
| jl_invoke_sym | jl_invoke_modify_sym | jl_goto_ifnot_sym | jl_return_sym | jl_an_empty_string
| jl_an_empty_vec_any | jl_bool_type | jl_linenumbernode_type | jl_pinode_type | jl_upsilonnode_type
| jl_type_type | jl_bottom_type | jl_ref_type | jl_pointer_type | jl_abstractarray_type | jl_nothing_type
| jl_vararg_type | jl_densearray_type | jl_function_type | jl_typename_type | jl_builtin_type
| jl_task_type | jl_uniontype_type | jl_array_any_type | jl_intrinsic_type | jl_voidpointer_type
| jl_newvarnode_type | jl_abstractstring_type | jl_array_symbol_type | jl_anytuple_type | jl_anytuple_param
| jl_emptytuple_type | jl_array_uint8_type | jl_array_uint32_type | jl_code_info_type
| jl_typeofbottom_type | jl_typeofbottom_super | jl_namedtuple_type | jl_array_int32_type | jl_uint32_type
| jl_uint64_type | jl_opaque_closure_type | jl_memory_any_type | jl_memory_uint8_type | root_task
| jl_symbol_type | jl_ssavalue_type | jl_datatype_type | jl_slotnumber_type | jl_simplevector_type
| jl_array_type | jl_genericmemory_type | jl_expr_type | jl_phinode_type | jl_phicnode_type
| jl_string_type | jl_module_type | jl_tvar_type | jl_method_instance_type | jl_method_type
| jl_code_instance_type | jl_globalref_type | jl_int32_type | jl_int64_type | jl_uint8_type
| jl_unionall_type | jl_gotonode_type | jl_quotenode_type | jl_gotoifnot_type | jl_returnnode_type
| jl_argument_type.

Definition TAG_SYMBOL : Z := 2.
Definition TAG_DATATYPE : Z := 4.
Definition TAG_MODULE : Z := 25.
Definition TAG_TVAR : Z := 26.
Definition TAG_METHOD_INSTANCE : Z := 27.
Definition TAG_METHOD : Z := 28.
Definition TAG_CODE_INSTANCE : Z := 29.
Definition TAG_UNIONALL : Z := 51.

(** common_symbols1.inc *)
Definition common_symbols1 : list string :=
  ["="; "getproperty"; "getfield"; "apply_type"; "==="; "getindex"; "convert"; "=="; "new"; "int.jl"; "+";
   "boot.jl"; "essentials.jl"; "ccall"; "foreigncall"; "iterate"; "not_int"; "Base.jl"; "-"; "throw";
   "promotion.jl"; "length"; "<"; "isa"; "operators.jl"; "number.jl"; "unsafe_convert"; "tuple.jl";
   "nothing"; "bitcast"; "NamedTuple"; "indexed_iterate"; "bool.jl"; "!"; "isempty"; "<="; "cconvert";
   "add_int"; "static_parameter"; "array.jl"; "slt_int"; "!="; "UInt64"; "range.jl"; "sle_int"; "size";
   "&"; "abstractarray.jl"; "rem"; ">"; "Int64"; "sub_int"; "*"; "and_int"; "string"; ">="; "Ptr";
   "toInt64"; "last"; "pointer.jl"; "reinterpret"; "first"; "pairs"; "_apply_iterate"; "typeassert"; ":";
   "UInt8"; "setindex!"; "isdefined"; "typeof"; "promote"; "kwcall"; "unsigned"; "_promote"; "toUInt64";
   "map"; "lshr_int"; "gc_preserve_begin"; "gc_preserve_end"; "trunc_int"; "ArgumentError"; "axes";
   "ult_int"; "UInt"; "zext_int"; "strings/string.jl"; "ifelse"; "Array"; "eq_int"; "throw_inexacterror"].

(** common_symbols2.inc *)
Definition common_symbols2 : list string :=
  ["|"; "setproperty!"; "sext_int"; "String"; "Int"; "iterators.jl"; "Colon"; "unchecked_oneto";
   "structdiff"; "UnitRange"; "unitrange_last"; "sizeof"; "check_sign_bit"; "is_top_bit_set"; "data";
   "kwerr"; "axes1"; "eachindex"; "or_int"; "Bool"; "setfield!"; "fieldtype"; "Ref"; "pointer"; "max";
   "push!"; "lastindex"; "reflection.jl"; "<<"; "similar"; "Vector"; "UInt32"; ">>"; "dict.jl";
   "checkbounds"; "undef"; "jl_string_ptr"; "error"; "strings/io.jl"; "strings/substring.jl";
   "bitarray.jl"; "strings/basic.jl"; "merge"; "TypeError"; "keyword argument"; "in"; "print";
   "macro expansion"; "mul_int"; "shl_int"; "C_NULL"; "oftype"; "_growend!"; "Any"; "Tuple"; "float.jl";
   "ncodeunits"; "Integer"; "io.jl"; "eltype"; "name"; "parent"; "!=="; "iszero"; "min";
   "DimensionMismatch"; "refvalue.jl"; "Union"; "BlasInt"; "unsafe_load"; "indices.jl"; "x";
   "require_one_based_indexing"; "namedtuple.jl"; "tail"; "Float64"; "head"; "Cvoid"; "copy";
   "libblastrampoline"; "get"; "neg_int"; "stop"; "zero"; "add_ptr"; "toUInt32"; "ptr"; "char.jl"; "trunc";
   "not_atomic"; "enter"; "Pair"; "jl_value_ptr"; "Expr"; "broadcasted"; "pointerref";
   "multidimensional.jl"; "Generator"; "leave"; "memoryrefnew"; "show.jl"; "pointer_from_objref";
   "memoryrefget"; "reduce.jl"; "stride"; "pair.jl"; "_string"; "cmem.jl"; "generator.jl"; "broadcast.jl";
   "none"; "copyto!"; "chkstride1"; "value"; "write"; "identity"; "real"; "start"; "Cint"; "fill!";
   "checkindex"; "keys"; "BoundsError"; "vals"; "Symbol"; "strings/util.jl"; "Int32"; "ht_keyindex"; "io";
   "~"; "AssertionError"; "abstractdict.jl"; "show"; "mpfr.jl"; "isless"; "args"; "lock"; "reducedim.jl";
   "gmp.jl"; "offset"; "resize!"; "throw_boundserror"; "Clong"; "_call_latest"; "argtail";
   "compiler/ssair/ir.jl"; "sub_ptr"; "materialize"; "checksquare"; "LinearIndices"; "ule_int"; "dict";
   "div"; "chklapackerror"; "count"; "Float32"; "genericmemory.jl"; "print_to_string"; "rethrow";
   "sort.jl"; "boundscheck"; "println"; "loading.jl"; "collect"; "ashr_int"; "_expr"; "iobuffer.jl";
   "DataType"; "Dict"; "unsafe_string"; "RefValue"; "step"; "to_shape"; "pop_exception"; "Memory";
   "KeyError"; "chunks"; "refpointer.jl"; "llvmcall"; "c.jl"; "set.jl"; "abs"; "checked_trunc_uint";
   "Type"; "%"; "len"; "BigFloat"; "isequal"; "vect"; "sprint"; "mode"; "expr.jl"; "Nothing"; "Val";
   "IteratorSize"; "=>"; "haskey"; "iddict.jl"; "unsafe_write"; "val"; "flags"; "task.jl"; "UnionAll";
   "memset"; "xor"; "jl_alloc_genericmemory"; "uplo"; "toInt32"; "Base"; "atomics.jl"; "uuid"; "one";
   "math.jl"; "position"; "typemax"; "all"; "error.jl"; "path.jl"; "^"; "nextind"; "include";
   "the_exception"; "ensure_initialized"; "Const"; "UInt128"; "codeunit"; "stat.jl"; "gcutils.jl";
   "UndefRefError"; "diag"; "throw_undef_if_not"; "missing"; "isnan"; "Enums.jl"; "logging.jl";
   "_deleteend!"; "indices"; "compiler/utilities.jl"; "Pairs"; "<:"; "compiler/tfuncs.jl"; "close";
   "subarray.jl"; "fastmath.jl"; "invokelatest"; "jl_array_del_end"; "_mod64"; "parameters"].

(** [ser_tag], [deser_tag], [common_symbol_tag], [deser_symbols]; [VNull] is
    [NULL]. *)
Record ser_tables := SerTables {
  ser_tag : list (value * Z);
  deser_tag : list value;
  common_symbol_tag : list (value * Z);
  deser_symbols : list value
}.

Section Serializer.
Context (B : builtin -> value) (sym : string -> Z).

Definition symv (s : string) : value := VSymbol (sym s).

Definition vals : list value :=
  [B jl_emptysvec; B jl_emptytuple; B jl_false; B jl_true; B jl_nothing; B jl_any_type; B jl_call_sym;
   B jl_invoke_sym; B jl_invoke_modify_sym; B jl_goto_ifnot_sym; B jl_return_sym; symv "tuple";
   B jl_an_empty_string; B jl_an_empty_vec_any] ++
  map symv common_symbols1 ++
  map VInt32 (seqZ 0 21) ++
  map VInt64 (seqZ 0 21) ++
  [B jl_bool_type; B jl_linenumbernode_type; B jl_pinode_type; B jl_upsilonnode_type; B jl_type_type;
   B jl_bottom_type; B jl_ref_type; B jl_pointer_type; B jl_abstractarray_type; B jl_nothing_type;
   B jl_vararg_type; B jl_densearray_type; B jl_function_type; B jl_typename_type; B jl_builtin_type;
   B jl_task_type; B jl_uniontype_type; B jl_array_any_type; B jl_intrinsic_type; B jl_voidpointer_type;
   B jl_newvarnode_type; B jl_abstractstring_type; B jl_array_symbol_type; B jl_anytuple_type;
   B jl_anytuple_param; B jl_emptytuple_type; B jl_array_uint8_type; B jl_array_uint32_type;
   B jl_code_info_type; B jl_typeofbottom_type; B jl_typeofbottom_super; B jl_namedtuple_type;
   B jl_array_int32_type; B jl_uint32_type; B jl_uint64_type; B jl_opaque_closure_type;
   B jl_memory_any_type; B jl_memory_uint8_type; B root_task].

Definition common_symbols : list value := map symv common_symbols2.

(** The types with a tag of their own, in the order of the assignments. *)
Definition fixed_tags : list (Z * value) :=
  [(TAG_SYMBOL, B jl_symbol_type); (TAG_SSAVALUE, B jl_ssavalue_type); (TAG_DATATYPE, B jl_datatype_type);
   (TAG_SLOTNUMBER, B jl_slotnumber_type); (TAG_SVEC, B jl_simplevector_type);
   (TAG_ARRAY1D, B jl_array_type); (TAG_MEMORYT, B jl_genericmemory_type); (TAG_EXPR, B jl_expr_type);
   (TAG_PHINODE, B jl_phinode_type); (TAG_PHICNODE, B jl_phicnode_type); (TAG_STRING, B jl_string_type);
   (TAG_MODULE, B jl_module_type); (TAG_TVAR, B jl_tvar_type);
   (TAG_METHOD_INSTANCE, B jl_method_instance_type); (TAG_METHOD, B jl_method_type);
   (TAG_CODE_INSTANCE, B jl_code_instance_type); (TAG_GLOBALREF, B jl_globalref_type);
   (TAG_INT32, B jl_int32_type); (TAG_INT64, B jl_int64_type); (TAG_UINT8, B jl_uint8_type);
   (TAG_UNIONALL, B jl_unionall_type); (TAG_GOTONODE, B jl_gotonode_type);
   (TAG_QUOTENODE, B jl_quotenode_type); (TAG_GOTOIFNOT, B jl_gotoifnot_type);
   (TAG_RETURNNODE, B jl_returnnode_type); (TAG_ARGUMENT, B jl_argument_type)].

Definition ptrhash_put (t : list (value * Z)) (k : value) (i : Z) : list (value * Z) := (k, i) :: t.

(** [while (vals[i] != NULL) { deser_tag[from + i] = vals[i]; i += 1; }]; the
    array that is read ends in [NULL]. *)
Fixpoint fill_tags (t : list value) (i : Z) (vs : list value) : outcome (list value * Z) :=
  match vs with
  | [] => Ok (t, i)
  | VNull :: _ => Ok (t, i)
  | v :: vs => let! t := wr t i v in fill_tags t (i + 1) vs
  end.

Fixpoint assign_tags (t : list value) (l : list (Z * value)) : outcome (list value) :=
  match l with
  | [] => Ok t
  | (i, v) :: l => let! t := wr t i v in assign_tags t l
  end.

(** [for (i = 2; i < 256; i++) if (deser_tag[i]) ptrhash_put(...)]. *)
Fixpoint hash_tags (n : nat) (i : Z) (t : list value) (h : list (value * Z)) : outcome (list (value * Z)) :=
  match n with
  | O => Ok h
  | S n' =>
      let! v := rd t i in
      hash_tags n' (i + 1) t (match v with VNull => h | _ => ptrhash_put h v i end)
  end.

Fixpoint hash_symbols (i : Z) (vs : list value) (h : list (value * Z)) (t : list value)
    : outcome (list (value * Z) * list value * Z) :=
  match vs with
  | [] => Ok (h, t, i)
  | VNull :: _ => Ok (h, t, i)
  | v :: vs => let! t := wr t i v in hash_symbols (i + 1) vs (ptrhash_put h v i) t
  end.

(** [ptrhash_get], with pointer equality. *)
Fixpoint ptrhash_get (ptr_eq : value -> value -> bool) (t : list (value * Z)) (k : value) : option Z :=
  match t with
  | [] => None
  | (k', i) :: t => if ptr_eq k' k then Some i else ptrhash_get ptr_eq t k
  end.

(** The two asserts are part of it. *)
Definition jl_init_serializer : outcome ser_tables :=
  let! t := assign_tags (replicate 256 VNull) fixed_tags in
  let! (t, n) := fill_tags t (LAST_TAG + 1) vals in
  if 256 <=? n then UB
  else
    let! h := hash_tags 254 2 t [] in
    let! (hs, ts, i) := hash_symbols 2 common_symbols [] (replicate 256 VNull) in
    if 256 <? i then UB else Ok (SerTables h t hs ts).
End Serializer.

(** A runtime whose tables are the ones that were built. *)
Definition with_tables (E : runtime) (t : ser_tables) : runtime :=
  Runtime (ptrhash_get (rt_ptr_eq E) (ser_tag t)) (fun i => default VNull (deser_tag t !! Z.to_nat i))
    (fun s => ptrhash_get (rt_ptr_eq E) (common_symbol_tag t) (VSymbol s))
    (fun i => default VNull (deser_symbols t !! Z.to_nat i))
    (rt_core_module E) (rt_base_module E) (rt_array_typename E) (rt_pointer_typename E)
    (rt_ssavalue_typename E) (rt_slotnumber_typename E) (rt_call_sym E) (rt_ptr_eq E) (rt_egal E) (rt_instance E)
    (rt_layout E) (rt_memory_type E) (rt_is_concrete E) (rt_copied_type E) (rt_isbits E).
