(* ===== verification/SerializerFacts.v ===== *)
(** * The tables of the compact IR are inverse to each other *)

From Stdlib Require Import ZArith Lia String.
From stdpp Require Import base numbers option relations list.
From S2P Require Import Prelude IRCode IRCodeFacts Serializer.

#[local] Open Scope Z_scope.

(** ** Filling the tables *)

Lemma wr_Ok {A} (t t' : list A) i v : wr t i v = Ok t' -> 0 <= i < Z.of_nat (length t) /\ t' = <[Z.to_nat i := v]> t.
Proof. unfold wr. destruct (Z.leb_spec 0 i), (Z.ltb_spec i (Z.of_nat (length t))); try done. intros [= <-]. split; [lia | done]. Qed.

Lemma fill_tags_spec vs : forall t i,
  0 <= i -> Forall (fun v => v <> VNull) vs -> i + Z.of_nat (length vs) <= Z.of_nat (length t) ->
  exists t', fill_tags t i vs = Ok (t', i + Z.of_nat (length vs)) /\ length t' = length t /\
    (forall j, (Z.of_nat j < i)%Z -> t' !! j = t !! j) /\
    (forall k v, vs !! k = Some v -> t' !! (Z.to_nat i + k)%nat = Some v).
Proof.
  induction vs as [| v vs IH]; intros t i Hi Hn Hl; cbn [fill_tags].
  - exists t. rewrite Z.add_0_r. split; [done |]. split; [done |]. split; [done |]. intros k v. by rewrite lookup_nil.
  - apply Forall_cons in Hn as [Hv Hn]. cbn [length] in Hl.
    destruct (IH (<[Z.to_nat i := v]> t) (i + 1)) as (t' & E & Hlen & Hlo & Hhi); [lia | done | rewrite length_insert; lia |].
    exists t'. rewrite wr_in_range by lia. cbn [obind].
    replace (i + Z.of_nat (length (v :: vs))) with (i + 1 + Z.of_nat (length vs)) by (cbn [length]; lia).
    split; [by destruct v |]. rewrite length_insert in Hlen. split; [done |]. split.
    + intros j Hj. rewrite Hlo by lia. apply list_lookup_insert_ne. lia.
    + intros [| k] w Hk.
      * injection Hk as <-. rewrite Hlo by lia. replace (Z.to_nat i + 0)%nat with (Z.to_nat i) by lia.
        by apply list_lookup_insert_eq; lia.
      * cbn in Hk. rewrite <- (Hhi k w Hk). f_equal. lia.
Qed.

Lemma assign_tags_total l : forall t, Forall (fun p => 0 <= p.1 < Z.of_nat (length t)) l ->
  exists t', assign_tags t l = Ok t' /\ length t' = length t.
Proof.
  induction l as [| [i v] l IH]; intros t Hl; cbn [assign_tags]; [eauto |].
  apply Forall_cons in Hl as [Hi Hl]. rewrite wr_in_range by done. cbn [obind].
  destruct (IH (<[Z.to_nat i := v]> t)) as (t' & E & Hlen).
  { eapply Forall_impl; [exact Hl |]. intros p. by rewrite length_insert. }
  exists t'. by rewrite length_insert in Hlen.
Qed.

(** The entries of a hash table made from an array: exactly its non-null
    slots. *)
Definition entries (t : list value) (h : list (value * Z)) (from upto : Z) : Prop :=
  forall v i, (v, i) ∈ h <-> from <= i < upto /\ t !! Z.to_nat i = Some v /\ v <> VNull.

Lemma hash_tags_spec t n : forall i h, 0 <= i -> i + Z.of_nat n <= Z.of_nat (length t) ->
  exists h', hash_tags n i t h = Ok h' /\
    forall v j, (v, j) ∈ h' <-> (v, j) ∈ h \/ i <= j < i + Z.of_nat n /\ t !! Z.to_nat j = Some v /\ v <> VNull.
Proof.
  induction n as [| n IH]; intros i h Hi Hn; cbn [hash_tags].
  - exists h. split; [done |]. intros v j. split; [auto | intros [? | ?]; [done | lia]].
  - destruct (rd_in_range t i) as (x & -> & Hx); [lia |]. cbn [obind].
    destruct (IH (i + 1) (match x with VNull => h | _ => ptrhash_put h x i end)) as (h' & -> & Hh); [lia | lia |].
    exists h'. split; [done |]. intros v j. rewrite Hh.
    assert (Hput : (v, j) ∈ (match x with VNull => h | _ => ptrhash_put h x i end) <-> (v, j) ∈ h \/ j = i /\ v = x /\ x <> VNull).
    { destruct x; unfold ptrhash_put; rewrite ?elem_of_cons; naive_solver. }
    rewrite Hput. split.
    + intros [[? | (-> & -> & ?)] | (? & ? & ?)]; [by left | right; repeat split; try done; lia | right; repeat split; try done; lia].
    + intros [? | (? & Hj & ?)]; [by left; left |]. destruct (Z.eq_dec j i) as [-> |].
      * left. right. rewrite Hx in Hj. by injection Hj as ->.
      * right. repeat split; try done; lia.
Qed.

Lemma hash_symbols_spec vs : forall i h t,
  0 <= i -> Forall (fun v => v <> VNull) vs -> i + Z.of_nat (length vs) <= Z.of_nat (length t) ->
  exists h' t', hash_symbols i vs h t = Ok (h', t', i + Z.of_nat (length vs)) /\ length t' = length t /\
    (forall j, (Z.of_nat j < i)%Z -> t' !! j = t !! j) /\
    (forall v j, (v, j) ∈ h' <-> (v, j) ∈ h \/ i <= j < i + Z.of_nat (length vs) /\ t' !! Z.to_nat j = Some v /\ v <> VNull).
Proof.
  induction vs as [| v vs IH]; intros i h t Hi Hn Hl; cbn [hash_symbols].
  - exists h, t. rewrite Z.add_0_r. repeat (split; [done |]). intros v j. split; [auto | intros [? | ?]; [done | lia]].
  - apply Forall_cons in Hn as [Hv Hn]. cbn [length] in Hl.
    destruct (IH (i + 1) (ptrhash_put h v i) (<[Z.to_nat i := v]> t)) as (h' & t' & E & Hlen & Hlo & Hh);
      [lia | done | rewrite length_insert; lia |].
    exists h', t'. rewrite wr_in_range by lia. cbn [obind].
    replace (i + Z.of_nat (length (v :: vs))) with (i + 1 + Z.of_nat (length vs)) by (cbn [length]; lia).
    split; [by destruct v |]. rewrite length_insert in Hlen. split; [done |]. split.
    + intros j Hj. rewrite Hlo by lia. apply list_lookup_insert_ne. lia.
    + intros w j. rewrite Hh. unfold ptrhash_put. rewrite elem_of_cons.
      assert (Hi' : t' !! Z.to_nat i = Some v) by (rewrite Hlo by lia; apply list_lookup_insert_eq; lia).
      split.
      * intros [[[= -> ->] | ?] | [? ?]]; [right; split; [lia | done] | by left | right; split; [lia | done]].
      * intros [? | (? & Hj & ?)]; [by left; right |]. destruct (Z.eq_dec j i) as [-> |]; [| right; split; [lia | done]].
        left. left. rewrite Hi' in Hj. by injection Hj as ->.
Qed.

(** ** The tables *)

Section Tables.
Context (B : builtin -> value) (sym : string -> Z) (HB : forall b, B b <> VNull).

Lemma vals_length : length (vals B sym) = 185%nat.
Proof. reflexivity. Qed.

Lemma common_symbols_length : length (common_symbols sym) = 248%nat.
Proof. reflexivity. Qed.

Lemma vals_nonnull : Forall (fun v => v <> VNull) (vals B sym).
Proof. unfold vals. cbn [app map common_symbols1]. repeat (apply Forall_cons; split; [first [apply HB | done] |]). apply Forall_nil, I. Qed.

Lemma jl_init_serializer_spec : exists t,
  jl_init_serializer B sym = Ok t /\ entries (deser_tag t) (ser_tag t) 2 256 /\
  entries (deser_symbols t) (common_symbol_tag t) 2 250 /\ length (deser_tag t) = 256%nat /\
  (forall k v, vals B sym !! k = Some v -> deser_tag t !! (62 + k)%nat = Some v).
Proof.
  unfold jl_init_serializer.
  destruct (assign_tags_total (fixed_tags B) (replicate 256 VNull)) as (t0 & -> & L0).
  { rewrite length_replicate. unfold fixed_tags. repeat (apply Forall_cons; split; [split; vm_compute; congruence |]). by apply Forall_nil. }
  rewrite length_replicate in L0. cbn [obind].
  destruct (fill_tags_spec (vals B sym) t0 (LAST_TAG + 1)) as (t1 & -> & L1 & _ & Hv);
    [done | apply vals_nonnull | rewrite vals_length, L0; unfold LAST_TAG; lia |].
  rewrite L0 in L1. cbn [obind]. rewrite vals_length, (proj2 (Z.leb_gt _ _)) by (unfold LAST_TAG; lia).
  destruct (hash_tags_spec t1 254 2 []) as (h & -> & Hh); [done | rewrite L1; lia |]. cbn [obind].
  destruct (hash_symbols_spec (common_symbols sym) 2 [] (replicate 256 VNull)) as (hs & ts & -> & Ls & _ & Hs).
  { done. }
  { apply Forall_forall. intros v (x & -> & _)%list_elem_of_fmap. done. }
  { rewrite common_symbols_length, length_replicate. lia. }
  cbn [obind]. rewrite common_symbols_length in *. rewrite (proj2 (Z.ltb_ge _ _)) by lia.
  eexists. split; [reflexivity |]. cbn [deser_tag ser_tag deser_symbols common_symbol_tag]. split; [| split; [| split; [done |]]].
  - intros v i. rewrite Hh, elem_of_nil. change (2 + Z.of_nat 254) with 256. naive_solver.
  - intros v i. rewrite Hs, elem_of_nil. change (2 + Z.of_nat 248) with 250.
    naive_solver.
  - intros k v Hk. by apply Hv.
Qed.
End Tables.

(** C27: [jl_init_serializer] succeeds, its asserts included: all tags fit in a
    byte.  The hash tables then hold exactly the non-null entries of the arrays
    the decoder indexes, and the integers the encoder expects to have a tag
    ([MAX_SMALL_INT32]) have one beyond the fixed tags. *)
Theorem serializer_tables_inverse (B : builtin -> value) (sym : string -> Z) :
  (forall b, B b <> VNull) ->
  exists t, jl_init_serializer B sym = Ok t /\
    (forall v i, (v, i) ∈ ser_tag t <-> 2 <= i < 256 /\ deser_tag t !! Z.to_nat i = Some v /\ v <> VNull) /\
    (forall v i, (v, i) ∈ common_symbol_tag t <-> 2 <= i < 250 /\ deser_symbols t !! Z.to_nat i = Some v /\ v <> VNull) /\
    (forall x, 0 <= x <= MAX_SMALL_INT32 -> exists i, LAST_TAG < i /\ (VInt32 x, i) ∈ ser_tag t /\ (VInt64 x, i + 21) ∈ ser_tag t).
Proof.
  intros HB. destruct (jl_init_serializer_spec B sym HB) as (t & E & H1 & H2 & _ & Hv). exists t.
  split; [done |]. split; [exact H1 |]. split; [exact H2 |]. intros x Hx. unfold MAX_SMALL_INT32, LAST_TAG in *.
  assert (Hx' : exists n, (n < 21)%nat /\ x = Z.of_nat n) by (exists (Z.to_nat x); lia). destruct Hx' as (n & Hn & ->).
  exists (62 + 104 + Z.of_nat n). split; [lia |].
  assert (Ha : vals B sym !! (104 + n)%nat = Some (VInt32 (Z.of_nat n)) /\ vals B sym !! (125 + n)%nat = Some (VInt64 (Z.of_nat n)))
    by (do 21 (destruct n as [| n]; [split; reflexivity |]); lia).
  split; apply H1; (split; [lia | split; [| done]]).
  - rewrite <- (Hv _ _ (proj1 Ha)). f_equal. lia.
  - rewrite <- (Hv _ _ (proj2 Ha)). f_equal. lia.
Qed.

(** ** The interface of the encoder *)

(** The part of [RuntimeOk] that does not concern the tables. *)
Class IdentityOk (E : runtime) : Prop := {
  id_ptr_eq v w : rt_ptr_eq E v w = true -> v = w;
  id_egal v w : rt_egal E v w = true -> v = w;
  id_ssavalue_layout : rt_layout E (ssavalue_type E) = Layout 8 [0] [] false false;
  id_slotnumber_layout : rt_layout E (slotnumber_type E) = Layout 8 [0] [] false false;
  id_typenames : rt_ssavalue_typename E <> rt_slotnumber_typename E;
  id_empty_string : rt_ptr_eq E (VString []) (VString []) = true
}.

Lemma ptrhash_get_Some eq t k i : ptrhash_get eq t k = Some i -> exists k', (k', i) ∈ t /\ eq k' k = true.
Proof.
  induction t as [| [k' j] t IH]; cbn; [done |]. destruct (eq k' k) eqn:Ek.
  - intros [= <-]. exists k'. split; [left | done].
  - intros (k2 & H & E2)%IH. exists k2. split; [by right | done].
Qed.

Lemma ptrhash_get_total eq t k i : (k, i) ∈ t -> eq k k = true -> ptrhash_get eq t k <> None.
Proof.
  induction t as [| [k' j] t IH]; cbn; [by intros ?%elem_of_nil |]. intros [[= -> ->] | H]%elem_of_cons Hk; [by rewrite Hk |].
  destruct (eq k' k); [done | auto].
Qed.

(** The tables that [jl_init_serializer] builds are what the encoder relies
    on. *)
#[export] Instance tables_ok (E : runtime) (B : builtin -> value) (sym : string -> Z) (t : ser_tables) :
  IdentityOk E -> (forall b, B b <> VNull) -> B jl_an_empty_string = VString [] -> jl_init_serializer B sym = Ok t ->
  RuntimeOk (with_tables E t).
Proof.
  intros HE HB Hs Ht. destruct (jl_init_serializer_spec B sym HB) as (t' & E' & H1 & H2 & _ & Hv).
  rewrite Ht in E'. injection E' as <-. split; cbn [with_tables rt_ser_tag rt_deser_tag rt_common_symbol rt_deser_symbol rt_ptr_eq rt_egal]; try apply HE.
  - intros v i (k & [Hi [Hk _]]%H1 & ->%id_ptr_eq)%ptrhash_get_Some. by rewrite Hk.
  - intros s i (k & [Hi [Hk _]]%H2 & ->%id_ptr_eq)%ptrhash_get_Some. rewrite Hk. split; [lia | done].
  - apply (ptrhash_get_total _ _ _ 74); [| apply id_empty_string]. apply H1. split; [done |].
    split; [| done]. change (Z.to_nat 74) with (62 + 12)%nat. apply Hv. rewrite <- Hs. reflexivity.
Qed.

(** ** A concrete runtime *)

Definition demo_sym (s : string) : Z :=
  (fix go s := match s with EmptyString => 1 | String c s => Z.of_nat (Ascii.nat_of_ascii c) + 256 * go s end) s.

Definition demo_builtin (b : builtin) : value :=
  match b with
  | jl_emptysvec => VSvec [] | jl_nothing => VStruct (VType 1 [] false) [] []
  | jl_call_sym => VSymbol (demo_sym "call") | jl_an_empty_string => VString []
  | jl_nothing_type => VType 1 [] false | jl_ssavalue_type => VType 2 [] false
  | jl_slotnumber_type => VType 3 [] false
  | jl_emptytuple => VOther 10 VNull | jl_false => VOther 11 VNull | jl_true => VOther 12 VNull
  | jl_any_type => VOther 13 VNull | jl_invoke_sym => VOther 14 VNull
  | jl_invoke_modify_sym => VOther 15 VNull | jl_goto_ifnot_sym => VOther 16 VNull
  | jl_return_sym => VOther 17 VNull | jl_an_empty_vec_any => VOther 18 VNull
  | jl_bool_type => VOther 19 VNull | jl_linenumbernode_type => VOther 20 VNull
  | jl_pinode_type => VOther 21 VNull | jl_upsilonnode_type => VOther 22 VNull
  | jl_type_type => VOther 23 VNull | jl_bottom_type => VOther 24 VNull | jl_ref_type => VOther 25 VNull
  | jl_pointer_type => VOther 26 VNull | jl_abstractarray_type => VOther 27 VNull
  | jl_vararg_type => VOther 28 VNull | jl_densearray_type => VOther 29 VNull
  | jl_function_type => VOther 30 VNull | jl_typename_type => VOther 31 VNull
  | jl_builtin_type => VOther 32 VNull | jl_task_type => VOther 33 VNull
  | jl_uniontype_type => VOther 34 VNull | jl_array_any_type => VOther 35 VNull
  | jl_intrinsic_type => VOther 36 VNull | jl_voidpointer_type => VOther 37 VNull
  | jl_newvarnode_type => VOther 38 VNull | jl_abstractstring_type => VOther 39 VNull
  | jl_array_symbol_type => VOther 40 VNull | jl_anytuple_type => VOther 41 VNull
  | jl_anytuple_param => VOther 42 VNull | jl_emptytuple_type => VOther 43 VNull
  | jl_array_uint8_type => VOther 44 VNull | jl_array_uint32_type => VOther 45 VNull
  | jl_code_info_type => VOther 46 VNull | jl_typeofbottom_type => VOther 47 VNull
  | jl_typeofbottom_super => VOther 48 VNull | jl_namedtuple_type => VOther 49 VNull
  | jl_array_int32_type => VOther 50 VNull | jl_uint32_type => VOther 51 VNull
  | jl_uint64_type => VOther 52 VNull | jl_opaque_closure_type => VOther 53 VNull
  | jl_memory_any_type => VOther 54 VNull | jl_memory_uint8_type => VOther 55 VNull
  | root_task => VOther 56 VNull | jl_symbol_type => VOther 57 VNull
  | jl_datatype_type => VOther 58 VNull | jl_simplevector_type => VOther 59 VNull
  | jl_array_type => VOther 60 VNull | jl_genericmemory_type => VOther 61 VNull
  | jl_expr_type => VOther 62 VNull | jl_phinode_type => VOther 63 VNull
  | jl_phicnode_type => VOther 64 VNull | jl_string_type => VOther 65 VNull
  | jl_module_type => VOther 66 VNull | jl_tvar_type => VOther 67 VNull
  | jl_method_instance_type => VOther 68 VNull | jl_method_type => VOther 69 VNull
  | jl_code_instance_type => VOther 70 VNull | jl_globalref_type => VOther 71 VNull
  | jl_int32_type => VOther 72 VNull | jl_int64_type => VOther 73 VNull
  | jl_uint8_type => VOther 74 VNull | jl_unionall_type => VOther 75 VNull
  | jl_gotonode_type => VOther 76 VNull | jl_quotenode_type => VOther 77 VNull
  | jl_gotoifnot_type => VOther 78 VNull | jl_returnnode_type => VOther 79 VNull
  | jl_argument_type => VOther 80 VNull
  end.

Lemma demo_builtin_nonnull b : demo_builtin b <> VNull.
Proof. by destruct b. Qed.

Lemma serializer_tables_inverse_witness :
  exists t, jl_init_serializer demo_builtin demo_sym = Ok t /\
    (forall v i, (v, i) ∈ ser_tag t <-> 2 <= i < 256 /\ deser_tag t !! Z.to_nat i = Some v /\ v <> VNull) /\
    (forall v i, (v, i) ∈ common_symbol_tag t <-> 2 <= i < 250 /\ deser_symbols t !! Z.to_nat i = Some v /\ v <> VNull) /\
    (forall x, 0 <= x <= MAX_SMALL_INT32 -> exists i, LAST_TAG < i /\ (VInt32 x, i) ∈ ser_tag t /\ (VInt64 x, i + 21) ∈ ser_tag t).
Proof. apply (serializer_tables_inverse demo_builtin demo_sym). intros b. by destruct b. Defined.
