(* ===== verification/IRRoundTrip.v ===== *)
(** * Encoded values decode to themselves *)

From Stdlib Require Import ZArith Lia String.
From stdpp Require Import base numbers option relations list.
From S2P Require Import Prelude Rle MethodRoots IRCode IRCodeFacts Serializer SerializerFacts.

#[local] Open Scope Z_scope.

(** ** A concrete runtime *)

Definition demo_same (v w : value) : bool :=
  match v, w with
  | VSymbol a, VSymbol b | VModule a, VModule b | VInt64 a, VInt64 b | VInt32 a, VInt32 b => a =? b
  | VString [], VString [] | VSvec [], VSvec [] => true
  | VType a [] fa, VType b [] fb => (a =? b) && Bool.eqb fa fb
  | VStruct (VType a [] fa) [] [], VStruct (VType b [] fb) [] [] => (a =? b) && Bool.eqb fa fb
  | _, _ => false
  end.

(** Type 1 is [Nothing], 4 a pair of a byte and a pointer, 5 a memory of
    pointers, 6 an immutable pair of [Int]s, 8 a memory of structs of a
    pointer and 64 KiB; the array type is 7. *)
Definition demo_layout (ty : value) : layout_t :=
  match ty with
  | VType 1 _ _ => Layout 0 [] [] false false
  | VType 4 _ _ => Layout 16 [0; 8] [1] false false
  | VType 5 _ _ => Layout 8 [] [0] true false
  | VType 6 _ _ => Layout 16 [0; 8] [] false false
  | VType 8 _ _ => Layout (2 ^ 16 + 8) [] [0] false false
  | _ => Layout 8 [0] [] false false
  end.

Definition demo_base : runtime :=
  Runtime (fun _ => None) (fun _ => VNull) (fun _ => None) (fun _ => VNull) 1 2 7 8 2 3 (demo_sym "call") demo_same demo_same
    (fun ty => match ty with VType 1 [] false => Some (VStruct ty [] []) | _ => None end)
    demo_layout (fun _ => VType 5 [] false) (fun _ => false)
    (fun ty => match ty with VType 4 _ _ => true | _ => false end)
    (fun ty => match ty with VType 6 _ _ => true | _ => false end).

Definition demo_tables : ser_tables :=
  match jl_init_serializer demo_builtin demo_sym with Ok t => t | _ => SerTables [] [] [] [] end.

Definition demo_runtime : runtime := with_tables demo_base demo_tables.

Lemma demo_same_ok v w : demo_same v w = true -> v = w.
Proof.
  assert (Hb : forall a b fa fb, (a =? b) && Bool.eqb fa fb = true -> a = b /\ fa = fb)
    by (intros a b fa fb [?%Z.eqb_eq ?%Bool.eqb_prop]%andb_prop; done).
  intros H. destruct v, w; cbn in H; try done; repeat (case_match; try done); subst;
    first [by apply Z.eqb_eq in H as -> | by apply Hb in H as [-> ->]].
Qed.

#[export] Instance demo_identity_ok : IdentityOk demo_base.
Proof. split; try done; apply demo_same_ok. Qed.

#[export] Instance demo_runtime_ok : RuntimeOk demo_runtime.
Proof.
  apply (tables_ok demo_base demo_builtin demo_sym demo_tables demo_identity_ok demo_builtin_nonnull eq_refl).
  unfold demo_tables. destruct (jl_init_serializer_spec demo_builtin demo_sym demo_builtin_nonnull) as (t & E & _). by rewrite E.
Qed.

(** ** Round trip *)

(** C2: Encoding a well-formed value never fails, appends bytes to the stream
    and may append roots to the method; and decoding those bytes, with the
    roots the method has then or at any later time, yields the value and leaves
    the rest of the stream.  Fuel as large as the value is enough for both.
    Well formed: numbers fit their fields, lists have less than 2^31 elements,
    the data of objects and memories fit their layouts, arrays have one
    dimension and their own memory, and the elements of memories of structs
    with references have less than 64 KiB. *)
Theorem ircode_roundtrip (E : runtime) (HE : RuntimeOk E) (method_module : Z) (edges : list value) (toplevel : option Z)
    (fuel : nat) (s : ircode_state) (ps : list (Z * Z)) (v : value) (as_literal : bool) :
  0 <= default 0 toplevel < 2 ^ 64 - 1 -> short_list edges ->
  good s ps -> wfv E v -> nroots (s_roots s) + Z.of_nat (vsize v) < 2 ^ 31 -> (vsize v <= fuel)%nat ->
  (as_literal = true -> literal_ok E v) ->
  exists s' ps' bs,
    jl_encode_value_ E method_module edges toplevel fuel s v as_literal = Ok s' /\
    s_out s' = s_out s ++ bs /\ good s' ps' /\ extends (s_roots s) ps (s_roots s') ps' /\
    forall m psm rest, wf m psm -> extends (s_roots s') ps' m psm ->
      jl_decode_value E method_module edges m (s_ssaid s) (S fuel) (bs ++ rest) = Ok (v, rest).
Proof.
  intros Ht He Hg Hv Hn Hk Hl.
  destruct (encode_decode E method_module edges toplevel Ht He fuel s ps v as_literal Hg Hv Hn Hk Hl) as (s' & ps' & bs & E' & Hw & Hd).
  exists s', ps', bs. split; [done |]. split; [apply Hw |]. split; [apply Hw |]. split; [apply Hw |].
  intros m psm rest Hm Hx. by apply (Hd m psm).
Qed.

(** A call with a global, an SSA value, a string (a root), an integer, a copied
    struct with an inline pointer, a phi node and a quoted expression. *)
Definition demo_value : value :=
  VExpr (demo_sym "foreigncall") [VGlobalRef 9 (demo_sym "sin"); VSSAValue 300; VString [104; 105]; VInt64 100000;
    VStruct (VType 4 [] false) (replicate 16 0) [VInt64 7]; VPhiNode [1; 70000] [VSSAValue 4; VArgument 2];
    VQuoteNode (VExpr (demo_sym "call") [VModule 2]); VType 7 [VType 1 [] false; VInt64 1] false].

Definition demo_state : ircode_state := IRState [] 298 (MethodRoots None None 0) 1.

Lemma demo_state_good : good demo_state [].
Proof. split; [| constructor]. split; [by right | done | constructor | done]. Qed.

Lemma demo_value_wf : wfv demo_runtime demo_value.
Proof. cbn -[demo_sym]. unfold short_list, int64_range, int32_range, struct_ok. cbn -[demo_sym]. repeat split; try lia; try done; repeat constructor; cbn; lia. Qed.

Lemma ircode_roundtrip_witness :
  exists s' ps' bs,
    jl_encode_value_ demo_runtime 9 [] None 100 demo_state demo_value false = Ok s' /\
    s_out s' = s_out demo_state ++ bs /\ good s' ps' /\ extends (s_roots demo_state) [] (s_roots s') ps' /\
    forall m psm rest, wf m psm -> extends (s_roots s') ps' m psm ->
      jl_decode_value demo_runtime 9 [] m (s_ssaid demo_state) 101 (bs ++ rest) = Ok (demo_value, rest).
Proof.
  apply (ircode_roundtrip demo_runtime demo_runtime_ok 9 [] None 100 demo_state [] demo_value false);
    [done | done | apply demo_state_good | apply demo_value_wf | vm_compute; congruence | vm_compute; lia | done].
Defined.

(** ** Large elements

    The size of elements with references is cut to 16 bits: of an element of
    2^16 + 8 bytes that starts with a reference only the reference is written,
    and the decoder leaves the other bytes zero. *)
Definition wide_memory (x : Z) : value := VMemory (VType 8 [] false) 1 (replicate 8 0 ++ replicate (Z.to_nat (2 ^ 16)) x) [VNull].

Example wide_elements_cut :
  (let! s' := jl_encode_value_ demo_runtime 9 [] None 100 demo_state (wide_memory 1) true in
   let! (v, rest) := jl_decode_value demo_runtime 9 [] (s_roots s') 298 101 (s_out s') in Ok (s_out s', v, rest)) =
  Ok ([TAG_MEMORYT; TAG_METHODROOT; 0; 188; TAG_NULL], wide_memory 0, []).
Proof. vm_cast_no_check (eq_refl (Ok ([TAG_MEMORYT; TAG_METHODROOT; 0; 188; TAG_NULL], wide_memory 0, [] : list Z))). Qed.
