(* ===== verification/Argnames.v ===== *)
(** * Argument names (ircode.c)

    The names of the slots of a method are stored as one string: the names one
    after the other, each with its [NUL].  [jl_compress_argnames] makes it from
    the symbols, [jl_uncompress_argnames] and [jl_uncompress_argname_n] intern
    the names again.  A string's data ends in a [NUL] of its own, which the
    length does not count. *)

From stdpp Require Import base gmap numbers option relations list.
From Stdlib Require Import ZArith Lia.
From S2P Require Import Prelude Hashing Symbol SymbolFacts.

(** [strlen(jl_symbol_name(name))] and the bytes. *)
Definition symbol_cstr (st : symtab_t) (n : nat) : outcome (list Z) :=
  match syms st !! n with Some s => cstr (jl_symbol_name s) | None => UB end.

Fixpoint argnames_len (st : symtab_t) (l : list nat) (len : Z) : outcome Z :=
  match l with
  | [] => Ok len
  | n :: l => let! s := symbol_cstr st n in argnames_len st l (u64 (len + (Z.of_nat (length s) + 1)))
  end.

(** [str] holds the bytes written so far; [size] is [jl_string_len(str)]. *)
Fixpoint copy_argnames (st : symtab_t) (l : list nat) (size : Z) (str : list Z) : outcome (list Z) :=
  match l with
  | [] => if Z.of_nat (length str) =? size then Ok str else UB
  | n :: l =>
      let! s := symbol_cstr st n in
      if size <? Z.of_nat (length str) + (Z.of_nat (length s) + 1) then UB
      else copy_argnames st l size (str ++ s ++ [0])
  end.

Definition jl_compress_argnames (st : symtab_t) (l : list nat) : outcome (list Z) :=
  let! len := argnames_len st l 0 in
  copy_argnames st l len [].

Fixpoint count_argnames (fuel : nat) (namestr : list Z) (remaining len : Z) : outcome Z :=
  if remaining =? 0 then Ok len
  else
    match fuel with
    | O => Timeout
    | S fuel' =>
        let! s := cstr namestr in
        count_argnames fuel' (drop (length s + 1) namestr) (u64 (remaining - (Z.of_nat (length s) + 1))) (len + 1)
    end.

(** [None] is the error of [_jl_symbol]. *)
Fixpoint intern_argnames (n : nat) (st : symtab_t) (namestr : list Z) : outcome (option (list nat) * symtab_t) :=
  match n with
  | O => Ok (Some [], st)
  | S n' =>
      let! s := cstr namestr in
      let! (r, st) := jl_symbol_ st s in
      match r with
      | Symbol name =>
          let! (rest, st) := intern_argnames n' st (drop (length s + 1) namestr) in
          Ok (cons name <$> rest, st)
      | _ => Ok (None, st)
      end
  end.

Definition jl_uncompress_argnames (st : symtab_t) (syms : list Z) : outcome (option (list nat) * symtab_t) :=
  let namestr := syms ++ [0] in
  let! len := count_argnames (length syms) namestr (Z.of_nat (length syms)) 0 in
  intern_argnames (Z.to_nat len) st namestr.

(** [None] is [jl_nothing]. *)
Fixpoint find_argname (fuel : nat) (st : symtab_t) (namestr : list Z) (remaining i : Z)
    : outcome (option symbol_result * symtab_t) :=
  if remaining =? 0 then Ok (None, st)
  else
    match fuel with
    | O => Timeout
    | S fuel' =>
        let! s := cstr namestr in
        if i =? 0 then let! (r, st) := jl_symbol_ st s in Ok (Some r, st)
        else find_argname fuel' st (drop (length s + 1) namestr) (u64 (remaining - (Z.of_nat (length s) + 1))) (u64 (i - 1))
    end.

Definition jl_uncompress_argname_n (st : symtab_t) (syms : list Z) (i : Z) : outcome (option symbol_result * symtab_t) :=
  find_argname (length syms) st (syms ++ [0]) (Z.of_nat (length syms)) i.

(** ** Laws *)

(** A name that is in the table is found there. *)
Lemma jl_symbol__known st n str : wf st -> named st n str -> jl_symbol_ st str = Ok (Symbol n, st).
Proof.
  intros Hwf Hn. assert (Hv : valid_name str) by (by destruct Hn as (? & _ & _ & _ & ?)).
  pose proof Hv as (_ & Hnul & Hlen). unfold jl_symbol_. rewrite (proj2 (Z.ltb_ge _ _)) by done. rewrite Hnul.
  destruct (symtab_lookup_spec st str SymtabRoot Hwf Hv) as (r & q & -> & Hr & Hl & Hp & Hnr); [cbn; lia | apply rtc_refl |].
  cbn [obind]. destruct r as [n' |]; [by rewrite (named_unique st str n n' Hwf Hn (Hnr n' eq_refl)) |]. exfalso.
  destruct (wf_route st Hwf n str Hn) as (p & Hp' & Hl').
  assert (Hqq : rtc (next st str) p q).
  { eapply rtc_functional_nf; [apply next_functional | exact Hp' | exact Hr |].
    intros a (n1 & s & h & H1 & _). congruence. }
  inversion Hqq as [| ? a ? (n1 & s & h & H1 & H2 & H3 & H4) _]; subst; [congruence |].
  assert (n1 = n) as -> by congruence.
  destruct (walk_step st str p n h Hwf Hv H3 Hl') as (s' & Es & [[_ Hc] | (Hnn & _)]); [congruence | done].
Qed.

Lemma symbol_cstr_named st n str : named st n str -> symbol_cstr st n = Ok str.
Proof.
  intros (s & E & Hn & _ & _ & Hnul & _). unfold symbol_cstr. rewrite E, Hn. by apply (cstr_terminated str []).
Qed.

(** The names in sequence, each with its [NUL]. *)
Definition joined (names : list (list Z)) : list Z := concat (map (fun s => s ++ [0]) names).

Lemma joined_cons s names : joined (s :: names) = s ++ 0 :: joined names.
Proof. unfold joined. cbn. by rewrite <- app_assoc. Qed.

Lemma length_joined_cons s names : length (joined (s :: names)) = (length s + 1 + length (joined names))%nat.
Proof. rewrite joined_cons, length_app. cbn. lia. Qed.

Section Names.
Context (st : symtab_t) (Hwf : wf st).

Lemma argnames_len_spec l names : Forall2 (named st) l names -> forall len,
  0 <= len -> len + Z.of_nat (length (joined names)) < 2 ^ 64 ->
  argnames_len st l len = Ok (len + Z.of_nat (length (joined names))).
Proof.
  induction 1 as [| n s l names Hn _ IH]; intros len H0 Hlt; cbn [argnames_len]; [cbn; by rewrite Z.add_0_r |].
  rewrite (symbol_cstr_named _ _ _ Hn). rewrite length_joined_cons in *. cbn [obind]. rewrite u64_small by lia.
  rewrite IH by lia. f_equal. lia.
Qed.

Lemma copy_argnames_spec l names : Forall2 (named st) l names -> forall str size,
  size = Z.of_nat (length str + length (joined names)) -> copy_argnames st l size str = Ok (str ++ joined names).
Proof.
  induction 1 as [| n s l names Hn _ IH]; intros str size ->; cbn [copy_argnames].
  - cbn. rewrite (proj2 (Z.eqb_eq _ _)) by lia. by rewrite app_nil_r.
  - rewrite (symbol_cstr_named _ _ _ Hn). cbn [obind]. rewrite length_joined_cons, (proj2 (Z.ltb_ge _ _)) by lia.
    rewrite IH; [| rewrite !length_app; cbn [length]; lia]. by rewrite joined_cons, <- !app_assoc.
Qed.

Lemma drop_name (s rest : list Z) : drop (length s + 1) (s ++ 0 :: rest) = rest.
Proof. rewrite drop_app_add. done. Qed.

Lemma named_cstr n s rest : named st n s -> cstr (s ++ 0 :: rest) = Ok s.
Proof. intros (_ & _ & _ & _ & _ & Hnul & _). by apply cstr_terminated. Qed.

Lemma count_argnames_spec l names : Forall2 (named st) l names -> forall fuel len,
  (length names <= fuel)%nat -> Z.of_nat (length (joined names)) < 2 ^ 64 ->
  count_argnames fuel (joined names ++ [0]) (Z.of_nat (length (joined names))) len = Ok (len + Z.of_nat (length names)).
Proof.
  induction 1 as [| n s l names Hn _ IH]; intros fuel len Hf Hlt; [destruct fuel; cbn; by rewrite Z.add_0_r |].
  destruct fuel as [| fuel]; [cbn in Hf; lia |]. cbn [count_argnames]. rewrite length_joined_cons in *.
  rewrite (proj2 (Z.eqb_neq _ _)) by lia. rewrite joined_cons, <- app_assoc. cbn [app].
  rewrite (named_cstr n) by done. cbn [obind]. rewrite drop_name, u64_small by lia.
  replace (Z.of_nat _ - _) with (Z.of_nat (length (joined names))) by lia.
  rewrite IH; [| cbn in Hf; lia | lia]. f_equal. cbn [length]. lia.
Qed.

Lemma intern_argnames_spec l names : Forall2 (named st) l names ->
  intern_argnames (length names) st (joined names ++ [0]) = Ok (Some l, st).
Proof.
  induction 1 as [| n s l names Hn _ IH]; [done |]. cbn [length intern_argnames]. rewrite joined_cons, <- app_assoc. cbn [app].
  rewrite (named_cstr n) by done. cbn [obind]. rewrite (jl_symbol__known st n s) by done. cbn [obind].
  rewrite drop_name, IH. done.
Qed.

Lemma find_argname_spec l names : Forall2 (named st) l names -> forall fuel i,
  (length names <= fuel)%nat -> 0 <= i < 2 ^ 64 -> Z.of_nat (length (joined names)) < 2 ^ 64 ->
  find_argname fuel st (joined names ++ [0]) (Z.of_nat (length (joined names))) i = Ok (Symbol <$> l !! Z.to_nat i, st).
Proof.
  induction 1 as [| n s l names Hn _ IH]; intros fuel i Hf Hi Hlt; [by destruct fuel |].
  destruct fuel as [| fuel]; [cbn in Hf; lia |]. cbn [find_argname]. rewrite length_joined_cons in *.
  rewrite (proj2 (Z.eqb_neq _ _)) by lia. rewrite joined_cons, <- app_assoc. cbn [app].
  rewrite (named_cstr n) by done. cbn [obind]. destruct (Z.eqb_spec i 0) as [-> | Hi0].
  - by rewrite (jl_symbol__known st n s).
  - rewrite drop_name, !u64_small by lia. replace (Z.of_nat _ - _) with (Z.of_nat (length (joined names))) by lia.
    rewrite IH; [| cbn in Hf; lia | lia | lia]. replace (Z.to_nat i) with (S (Z.to_nat (i - 1))) by lia. done.
Qed.

Lemma length_joined_ge names : (length names <= length (joined names))%nat.
Proof. induction names as [| s names IH]; [done |]. rewrite length_joined_cons. cbn [length]. lia. Qed.

(** What the round trip of code needs. *)
Lemma argnames_uncompress l names :
  Forall2 (named st) l names -> Z.of_nat (length (joined names)) < 2 ^ 64 ->
  jl_compress_argnames st l = Ok (joined names) /\ jl_uncompress_argnames st (joined names) = Ok (Some l, st).
Proof.
  intros Hl Hlt. pose proof (length_joined_ge names). split.
  - unfold jl_compress_argnames. rewrite (argnames_len_spec l names Hl) by lia. cbn [obind].
    rewrite (copy_argnames_spec l names Hl) by (cbn; lia). done.
  - unfold jl_uncompress_argnames. rewrite (count_argnames_spec l names Hl) by lia. cbn [obind].
    rewrite Z.add_0_l, Nat2Z.id. by apply intern_argnames_spec.
Qed.
End Names.

(** C28: The argument names of a method survive compression: for symbols of the
    table, [jl_compress_argnames] stays inside the string it allocates,
    [jl_uncompress_argnames] returns the very symbols without changing the
    table, and [jl_uncompress_argname_n] returns the [i]-th of them, or nothing
    beyond the last. *)
Theorem argnames_roundtrip (st : symtab_t) (l : list nat) (names : list (list Z)) :
  wf st -> Forall2 (named st) l names -> Z.of_nat (length (joined names)) < 2 ^ 64 ->
  exists str, jl_compress_argnames st l = Ok str /\ str = joined names /\
    jl_uncompress_argnames st str = Ok (Some l, st) /\
    forall i, 0 <= i < 2 ^ 64 -> jl_uncompress_argname_n st str i = Ok (Symbol <$> l !! Z.to_nat i, st).
Proof.
  intros Hwf Hl Hlt. destruct (argnames_uncompress st Hwf l names Hl Hlt) as [H1 H2]. exists (joined names).
  split; [done |]. split; [done |]. split; [done |]. intros i Hi. unfold jl_uncompress_argname_n.
  pose proof (length_joined_ge names). by apply (find_argname_spec st Hwf l names Hl).
Qed.

(** A table with the symbol "ab". *)
Lemma demo_table_wf : wf raced /\ named raced 0 str_ab.
Proof.
  destruct (symbol_locked_spec empty_symtab str_ab SymtabRoot empty_wf str_ab_valid) as (n & st' & E & H1 & _ & H2 & _);
    [cbn; lia | apply rtc_refl |].
  assert (Hr : raced = st') by (unfold raced; by rewrite E). assert (Hn : n = 0%nat) by (vm_compute in E; congruence).
  rewrite Hr. split; [done | by rewrite <- Hn].
Qed.

Lemma argnames_roundtrip_witness :
  exists str, jl_compress_argnames raced [0; 0]%nat = Ok str /\ str = joined [str_ab; str_ab] /\
    jl_uncompress_argnames raced str = Ok (Some [0; 0]%nat, raced) /\
    forall i, 0 <= i < 2 ^ 64 -> jl_uncompress_argname_n raced str i = Ok (Symbol <$> [0; 0]%nat !! Z.to_nat i, raced).
Proof.
  apply (argnames_roundtrip raced [0; 0]%nat [str_ab; str_ab]); [apply demo_table_wf | | done].
  do 2 (apply Forall2_cons; split; [apply demo_table_wf |]). constructor.
Defined.
