(* ===== verification/CodeInfo.v ===== *)
(** * Compressed code (ircode.c)

    [jl_compress_ir] stores a [CodeInfo] as a string: a header with the flags
    at fixed offsets, which the [jl_ir_*] accessors read in place, then the
    statements and their types.  [jl_uncompress_ir] rebuilds the [CodeInfo]
    from the string, the method and the code instance it belongs to. *)

From stdpp Require Import base numbers option list.
From Stdlib Require Import ZArith Lia.
From S2P Require Import Prelude Hashing Bytes MethodRoots Symbol Argnames Codelocs IRCode.

Record jl_debuginfo_t := DebugInfo { def : value; linetable : value; di_edges : list value; codelocs : list Z }.

(** Arrays are lists; the two that hold symbols hold their addresses. *)
Record jl_code_info_t := CodeInfo {
  code : list value;
  debuginfo : jl_debuginfo_t;
  ssavaluetypes : value;
  ssaflags : list Z;
  slotnames : list nat;
  slotflags : list Z;
  slottypes : value;
  rettype : value;
  parent : value;
  edges : value;
  min_world : Z;
  max_world : Z;
  method_for_inference_limit_heuristics : value;
  nargs : Z;
  propagate_inbounds : Z;
  has_fcall : Z;
  has_image_globalref : Z;
  nospecializeinfer : Z;
  isva : Z;
  inlining : Z;
  constprop : Z;
  purity : Z;
  inlining_cost : Z
}.

(** The fields of [jl_method_t] and [jl_code_instance_t] these operations use. *)
Record jl_method_t := Method {
  m_roots : method_roots value;
  m_nargs : Z;
  m_module : Z;
  m_is_for_opaque_closure : bool;
  m_generator : bool;
  m_slot_syms : list Z;
  m_debuginfo : jl_debuginfo_t;
  m_source : jl_code_info_t
}.

Record jl_code_instance_t := CodeInstance {
  ci_debuginfo : jl_debuginfo_t;
  ci_edges : value;
  ci_def : value;
  ci_rettype : value;
  ci_min_world : Z;
  ci_max_world : Z
}.

(** ** Flags *)

Record jl_code_info_flags_bitfield_t := Flags {
  f_propagate_inbounds : Z;
  f_has_fcall : Z;
  f_has_image_globalref : Z;
  f_nospecializeinfer : Z;
  f_isva : Z;
  f_nargsmatchesmethod : Z;
  f_inlining : Z;
  f_constprop : Z;
  f_has_ssaflags : Z
}.

(** The union read as [packed]; [junk] is the five bits that no field covers,
    which [code_info_flags] leaves indeterminate. *)
Definition packed (f : jl_code_info_flags_bitfield_t) (junk : Z) : Z :=
  f_propagate_inbounds f + 2 * f_has_fcall f + 4 * f_has_image_globalref f + 8 * f_nospecializeinfer f + 16 * f_isva f +
  32 * f_nargsmatchesmethod f + 64 * f_inlining f + 256 * f_constprop f + 1024 * f_has_ssaflags f + 2048 * junk.

(** [w] bits from bit [i]. *)
Definition bits_at (x i w : Z) : Z := Z.land (Z.shiftr x i) (Z.ones w).

Definition unpacked (p : Z) : jl_code_info_flags_bitfield_t :=
  Flags (bits_at p 0 1) (bits_at p 1 1) (bits_at p 2 1) (bits_at p 3 1) (bits_at p 4 1) (bits_at p 5 1) (bits_at p 6 2)
    (bits_at p 8 2) (bits_at p 10 1).

(** Each assignment keeps the low bits of its field. *)
Definition code_info_flags (c : jl_code_info_t) (nargsmatchesmethod : bool) : jl_code_info_flags_bitfield_t :=
  Flags (bits_at (propagate_inbounds c) 0 1) (bits_at (has_fcall c) 0 1) (bits_at (has_image_globalref c) 0 1)
    (bits_at (nospecializeinfer c) 0 1) (bits_at (isva c) 0 1) (if nargsmatchesmethod then 1 else 0)
    (bits_at (inlining c) 0 2) (bits_at (constprop c) 0 2)
    (if existsb (fun x => negb (x =? 0)) (ssaflags c) then 1 else 0).

(** ** Compression *)

Definition codelocs_nstmts (cl : list Z) : outcome Z :=
  let! (n, _, _, _) := codelocs_parseheader cl in Ok (i32 n).

(** [nrows == codelocs_nstmts(codelocs) || jl_string_len(codelocs) == 0]. *)
Definition codelocs_match (nrows : Z) (cl : list Z) : outcome bool :=
  let! n := codelocs_nstmts cl in Ok ((nrows =? n) || (Z.of_nat (length cl) =? 0)).

Definition ensure (b : bool) : outcome unit := if b then Ok tt else UB.

Section CodeInfo.
Context (E : runtime) (toplevel : option Z) (jl_nothing : value) (fuel : nat).

Definition with_ssaid (s : ircode_state) (i : Z) : ircode_state := IRState (s_out s) i (s_roots s) (s_relocatability s).

Fixpoint encode_stmts (enc : ircode_state -> value -> outcome ircode_state) (s : ircode_state) (i : Z) (l : list value)
    : outcome ircode_state :=
  match l with
  | [] => Ok s
  | v :: l => let! s := enc (with_ssaid s i) v in encode_stmts enc s (i + 1) l
  end.

Definition write_uint32s (l : list Z) : list Z := concat (map (le_bytes 4) l).

Definition svec_list (v : value) : list value := match v with VSvec l => l | _ => [] end.

(** The header: flags, purity, cost, slots and, when the method does not say
    it, the number of arguments. *)
Definition compress_header (s : ircode_state) (c : jl_code_info_t) (f : jl_code_info_flags_bitfield_t) (junk : Z)
    (nargsmatchesmethod : bool) : outcome ircode_state :=
  let! cost := jl_encode_inlining_cost (inlining_cost c) in
  let s := emit8 (emit16 (emit16 s (packed f junk)) (purity c)) cost in
  let s := ios_write (emit_i32 s (Z.of_nat (length (slotflags c)))) (slotflags c) in
  Ok (if nargsmatchesmethod then s else emit_i32 s (nargs c)).

(** From the statements on. *)
Definition compress_body (st : symtab_t) (m : jl_method_t) (es : list value) (s : ircode_state) (c : jl_code_info_t)
    (f : jl_code_info_flags_bitfield_t) : outcome ircode_state :=
  let enc s v lit := jl_encode_value_ E (m_module m) es toplevel fuel s v lit in
  let l := Z.of_nat (length (code c)) in
  let! s := encode_stmts (fun s v => enc s v false) (emit64 s l) 0 (code c) in
  let! s := enc (with_ssaid s 0) (ssavaluetypes c) true in
  let! _ := ensure (Z.of_nat (length (ssaflags c)) =? l) in
  let s := if negb (f_has_ssaflags f =? 0) then ios_write s (write_uint32s (ssaflags c)) else s in
  let! s := if m_is_for_opaque_closure m then enc s (slottypes c) true else Ok s in
  let! s :=
    if m_generator m then
      let! v := jl_compress_argnames st (slotnames c) in enc s (VString v) true
    else enc s jl_nothing false in
  Ok (emit8 s (s_relocatability s)).

(** [code] is [None] for the method's own source; [junk] the indeterminate
    bits of the flags.  The string and the method with its new roots. *)
Definition jl_compress_ir (st : symtab_t) (m : jl_method_t) (code0 : option jl_code_info_t) (junk : Z)
    : outcome (list Z * jl_method_t) :=
  let c := default (m_source m) code0 in
  let! ok := codelocs_match (Z.of_nat (length (code c))) (codelocs (debuginfo c)) in
  let! _ := ensure ok in
  let rs := MethodRoots (Some (default [] (roots (m_roots m)))) (root_blocks (m_roots m)) (nroots_sysimg (m_roots m)) in
  let es := match code0 with Some _ => svec_list (edges c) | None => [] end in
  let nargsmatchesmethod := nargs c =? m_nargs m in
  let f := code_info_flags c nargsmatchesmethod in
  let nslots := Z.of_nat (length (slotflags c)) in
  let! _ := ensure ((m_nargs m <=? nslots) && (nslots <? INT32_MAX)) in
  let! _ := ensure (nargsmatchesmethod || (nargs c <? INT32_MAX)) in
  let! s := compress_header (IRState [] 0 rs 1) c f junk nargsmatchesmethod in
  let! s := compress_body st m es s c f in
  let rs := s_roots s in
  let rs := if nroots rs =? 0 then MethodRoots None (root_blocks rs) (nroots_sysimg rs) else rs in
  Ok (s_out s, Method rs (m_nargs m) (m_module m) (m_is_for_opaque_closure m) (m_generator m) (m_slot_syms m)
                 (m_debuginfo m) (m_source m)).

(** ** Decompression *)

(** What callers pass as code: a [CodeInfo], a string or something else. *)
Inductive ir_data := IRCodeInfo (c : jl_code_info_t) | IRString (data : list Z) | IROther.

(** [NameError] is the error of [_jl_symbol]. *)
Inductive ir_result := IR (c : jl_code_info_t) | Nothing | NameError.

Definition no_debuginfo : jl_debuginfo_t := DebugInfo VNull VNull [] [].

(** The arrays and [debuginfo] are [NULL]. *)
Definition jl_new_code_info_uninit (jl_any_type : value) : jl_code_info_t :=
  CodeInfo [] no_debuginfo VNull [] [] [] jl_nothing jl_any_type jl_nothing (VSvec []) 1 (u64 (-1)) jl_nothing 0 0 0 0 0 0 0 0 0
    65535.

Fixpoint decode_stmts (dec : Z -> list Z -> outcome (value * list Z)) (n : nat) (i : Z) (s : list Z)
    : outcome (list value * list Z) :=
  match n with
  | O => Ok ([], s)
  | S n' =>
      let! (v, s) := dec i s in
      let! (l, s) := decode_stmts dec n' (i + 1) s in
      Ok (v :: l, s)
  end.

Fixpoint read_uint32s (n : nat) (s : list Z) : list Z :=
  match n with
  | O => []
  | S n' => le_word (take 4 s) :: read_uint32s n' (drop 4 s)
  end.

(** [jl_alloc_array_1d] of a negative length, or of more elements than there
    are bytes to fill them, does not return. *)
Definition read_length (n : Z) (s : list Z) : outcome nat :=
  if (n <? 0) || (Z.of_nat (length s) <? n) then UB else Ok (Z.to_nat n).

(** The header: flags, purity, cost, slot flags and number of arguments. *)
Definition uncompress_header (m_nargs : Z) (s : list Z)
    : outcome (jl_code_info_flags_bitfield_t * Z * Z * list Z * Z * list Z) :=
  let (p, s) := read_uint16 s in
  let f := unpacked p in
  let (pur, s) := read_uint16 s in
  let (cost, s) := read_uint8 s in
  let (nslots, s) := read_int32 s in
  let! (sf, s) := ios_readall s nslots in
  let (na, s) := if negb (f_nargsmatchesmethod f =? 0) then (m_nargs, s) else read_int32 s in
  Ok (f, pur, jl_decode_inlining_cost cost, sf, na, s).

(** From the statements to the slot names; [dec i] decodes a value of
    statement [i]. *)
Definition uncompress_body (dec : Z -> list Z -> outcome (value * list Z)) (is_for_opaque_closure : bool) (has_ssaflags : Z)
    (slottypes0 : value) (s : list Z) : outcome ((list value * value * list Z * value * value) * list Z) :=
  let (l, s) := read_uint64 s in
  let! n := read_length l s in
  let! (stmts, s) := decode_stmts dec n 0 s in
  let! (types, s) := dec 0 s in
  let! (fl, s) :=
    if negb (has_ssaflags =? 0) then let! (b, s) := ios_readall s (l * 4) in Ok (read_uint32s n b, s)
    else Ok (replicate n 0, s) in
  let! (sltypes, s) := if is_for_opaque_closure then dec 0 s else Ok (slottypes0, s) in
  let! (names, s) := dec 0 s in
  Ok ((stmts, types, fl, sltypes, names), s).

Definition jl_uncompress_ir (jl_any_type : value) (st : symtab_t) (m : jl_method_t) (metadata : option jl_code_instance_t)
    (data : ir_data) : outcome (ir_result * symtab_t) :=
  match data with
  | IRCodeInfo c => Ok (IR c, st)
  | IROther => Ok (Nothing, st)
  | IRString s =>
      let es := match metadata with Some ci => svec_list (ci_edges ci) | None => [] end in
      let dec i := jl_decode_value E (m_module m) es (m_roots m) i fuel in
      let c := jl_new_code_info_uninit jl_any_type in
      let! (f, pur, cost, sf, na, s) := uncompress_header (m_nargs m) s in
      let! (stmts, types, fl, sltypes, names, s) :=
        uncompress_body dec (m_is_for_opaque_closure m) (f_has_ssaflags f) (slottypes c) s in
      let! (r, st) := jl_uncompress_argnames st (match names with VString v => v | _ => m_slot_syms m end) in
      match r with
      | None => Ok (NameError, st)
      | Some syms =>
          let di := match metadata with Some ci => ci_debuginfo ci | None => m_debuginfo m end in
          let! ok := codelocs_match (Z.of_nat (length stmts)) (codelocs di) in
          let! _ := ensure ok in
          let! _ := ensure (Z.of_nat (length s) =? 1) in
          let c :=
            CodeInfo stmts di types fl syms sf sltypes (rettype c) (parent c) (edges c) (min_world c) (max_world c)
              (method_for_inference_limit_heuristics c) (u64 na) (f_propagate_inbounds f) (f_has_fcall f)
              (f_has_image_globalref f) (f_nospecializeinfer f) (f_isva f) (f_inlining f) (f_constprop f) pur cost in
          let c :=
            match metadata with
            | None => c
            | Some ci =>
                CodeInfo (code c) (debuginfo c) (ssavaluetypes c) (ssaflags c) (slotnames c) (slotflags c) (slottypes c)
                  (ci_rettype ci) (ci_def ci) (ci_edges ci) (ci_min_world ci) (ci_max_world ci)
                  (method_for_inference_limit_heuristics c) (nargs c) (propagate_inbounds c) (has_fcall c)
                  (has_image_globalref c) (nospecializeinfer c) (isva c) (inlining c) (constprop c) (purity c)
                  (inlining_cost c)
            end in
          Ok (IR c, st)
      end
  end.
End CodeInfo.

(** ** Accessors *)

Definition ir_offset_flags : Z := 0.
Definition ir_offset_purity : Z := 2.
Definition ir_offset_inlining_cost : Z := 4.
Definition ir_offset_nslots : Z := 5.
Definition ir_offset_slotflags : Z := 9.

(** [flags.packed = jl_string_data(data)[ir_offset_flags]]: one [char],
    sign-extended to 16 bits. *)
Definition flags_byte (data : list Z) : outcome jl_code_info_flags_bitfield_t :=
  let! b := rd data ir_offset_flags in
  Ok (unpacked (u16 (if 128 <=? b then b - 256 else b))).

Definition jl_ir_flag_inlining (d : ir_data) : outcome Z :=
  match d with
  | IRCodeInfo c => Ok (inlining c)
  | IRString s => let! f := flags_byte s in Ok (f_inlining f)
  | IROther => UB
  end.

Definition jl_ir_flag_has_fcall (d : ir_data) : outcome Z :=
  match d with
  | IRCodeInfo c => Ok (has_fcall c)
  | IRString s => let! f := flags_byte s in Ok (f_has_fcall f)
  | IROther => UB
  end.

Definition jl_ir_flag_has_image_globalref (d : ir_data) : outcome Z :=
  match d with
  | IRCodeInfo c => Ok (has_image_globalref c)
  | IRString s => let! f := flags_byte s in Ok (f_has_image_globalref f)
  | IROther => Ok 0
  end.

(** A [UInt8] as data is a cost on its own. *)
Definition jl_ir_inlining_cost (d : Z + ir_data) : outcome Z :=
  match d with
  | inl b => Ok (jl_decode_inlining_cost b)
  | inr (IRCodeInfo c) => Ok (inlining_cost c)
  | inr (IRString s) => let! b := rd s ir_offset_inlining_cost in Ok (jl_decode_inlining_cost b)
  | inr IROther => UB
  end.

Definition jl_ir_nslots (d : ir_data) : outcome Z :=
  match d with
  | IRCodeInfo c => Ok (Z.of_nat (length (slotnames c)))
  | IRString s =>
      let! (b, _) := ios_readall (drop (Z.to_nat ir_offset_nslots) s) 4 in Ok (i32 (le_word b))
  | IROther => UB
  end.

Definition jl_ir_slotflag (d : ir_data) (i : Z) : outcome Z :=
  let! n := jl_ir_nslots d in
  let! _ := ensure (i <? u64 n) in
  match d with
  | IRCodeInfo c => rd (slotflags c) i
  | IRString s => rd s (ir_offset_slotflags + i)
  | IROther => UB
  end.
