(* ===== verification/CodeInfoFacts.v ===== *)
(** * Compressed code decompresses to itself *)

From Stdlib Require Import ZArith Lia.
From stdpp Require Import base gmap numbers option relations list.
From S2P Require Import Prelude Hashing HashingFacts Bytes Rle MethodRoots Symbol SymbolFacts Argnames Codelocs CodelocsFacts.
From S2P Require Import IRCode IRCodeFacts IRRoundTrip CodeInfo.

(** [MethodRoots] and [SymbolFacts] both have a [wf]. *)
#[local] Abbreviation roots_wf := MethodRoots.wf.
#[local] Abbreviation table_wf := SymbolFacts.wf.

(** ** Flags *)

Lemma bits_at_mod x i w : 0 <= i -> 0 <= w -> bits_at x i w = (x / 2 ^ i) mod 2 ^ w.
Proof. intros Hi Hw. unfold bits_at. by rewrite Z.land_ones, Z.shiftr_div_pow2 by done. Qed.

Lemma bits_at_small x w : 0 <= w -> 0 <= x < 2 ^ w -> bits_at x 0 w = x.
Proof. intros Hw Hx. rewrite bits_at_mod by lia. change (2 ^ 0) with 1. rewrite Z.div_1_r. by apply Z.mod_small. Qed.

Lemma bits_at_range x i w : 0 <= i -> 0 <= w -> 0 <= bits_at x i w < 2 ^ w.
Proof. intros Hi Hw. rewrite bits_at_mod by done. apply Z.mod_pos_bound. lia. Qed.

Definition flags_ok (f : jl_code_info_flags_bitfield_t) : Prop :=
  0 <= f_propagate_inbounds f < 2 /\ 0 <= f_has_fcall f < 2 /\ 0 <= f_has_image_globalref f < 2 /\
  0 <= f_nospecializeinfer f < 2 /\ 0 <= f_isva f < 2 /\ 0 <= f_nargsmatchesmethod f < 2 /\
  0 <= f_inlining f < 4 /\ 0 <= f_constprop f < 4 /\ 0 <= f_has_ssaflags f < 2.

Lemma code_info_flags_ok c b : flags_ok (code_info_flags c b).
Proof.
  pose proof (fun x => bits_at_range x 0 1 ltac:(lia) ltac:(lia)) as H1.
  pose proof (fun x => bits_at_range x 0 2 ltac:(lia) ltac:(lia)) as H2.
  unfold flags_ok, code_info_flags. cbn -[bits_at].
  repeat (split; [first [apply H1 | apply H2 | destruct b; lia] |]). destruct (existsb _ _); lia.
Qed.

Lemma packed_range f junk : flags_ok f -> 0 <= junk < 32 -> 0 <= packed f junk < 2 ^ 16.
Proof. intros (? & ? & ? & ? & ? & ? & ? & ? & ?) Hj. unfold packed. lia. Qed.

Lemma unpacked_packed f junk : flags_ok f -> 0 <= junk < 32 -> unpacked (packed f junk) = f.
Proof.
  intros (? & ? & ? & ? & ? & ? & ? & ? & ?) Hj. unfold unpacked. rewrite !bits_at_mod by lia.
  destruct f as [f0 f1 f2 f3 f4 f5 f6 f7 f8]. unfold packed. cbn -[Z.mul Z.add Z.div Z.modulo Z.pow] in *.
  f_equal; [change (2 ^ 0) with 1 | change (2 ^ 1) with 2 | change (2 ^ 2) with 4 | change (2 ^ 3) with 8
    | change (2 ^ 4) with 16 | change (2 ^ 5) with 32 | change (2 ^ 6) with 64; change (2 ^ 2) with 4
    | change (2 ^ 8) with 256; change (2 ^ 2) with 4 | change (2 ^ 10) with 1024]; change (2 ^ 1) with 2; dlia.
Qed.

(** The low byte is enough for the flags below bit 8. *)
Lemma unpacked_low f junk :
  flags_ok f -> 0 <= junk < 32 -> let b := packed f junk mod 256 in
  let g := unpacked (u16 (if 128 <=? b then b - 256 else b)) in
  f_inlining g = f_inlining f /\ f_has_fcall g = f_has_fcall f /\ f_has_image_globalref g = f_has_image_globalref f.
Proof.
  intros (? & ? & ? & ? & ? & ? & ? & ? & ?) Hj b g. subst g. unfold unpacked. cbn [f_inlining f_has_fcall f_has_image_globalref].
  rewrite !bits_at_mod by lia. change (2 ^ 6) with 64. change (2 ^ 2) with 4. change (2 ^ 1) with 2. change (2 ^ 8) with 256.
  unfold u16. subst b. destruct f as [f0 f1 f2 f3 f4 f5 f6 f7 f8]. unfold packed. cbn -[Z.mul Z.add Z.div Z.modulo Z.pow Z.leb] in *.
  set (lo := f0 + 2 * f1 + 4 * f2 + 8 * f3 + 16 * f4 + 32 * f5 + 64 * f6).
  replace ((_ + 2048 * junk) mod 256) with lo by (unfold lo; dlia).
  assert (Hlo : 0 <= lo < 256) by (unfold lo; lia). change (2 ^ 16) with 65536.
  destruct (Z.leb_spec 128 lo).
  - replace ((lo - 256) mod 65536) with (lo - 256 + 65536) by dlia. unfold lo. repeat split; dlia.
  - rewrite (Z.mod_small lo) by lia. unfold lo. repeat split; dlia.
Qed.

(** ** Growth of the stream and the roots *)

(** [writes] without the current statement. *)
Record grown (s : ircode_state) (ps : list (Z * Z)) (s' : ircode_state) (ps' : list (Z * Z)) (bs : list Z) (n : nat)
    : Prop := {
  g_out : s_out s' = s_out s ++ bs;
  g_good : good s' ps';
  g_extends : extends (s_roots s) ps (s_roots s') ps';
  g_count : nroots (s_roots s') <= nroots (s_roots s) + Z.of_nat n
}.

Lemma grown_trans s ps s1 ps1 s2 ps2 b1 b2 n1 n2 :
  grown s ps s1 ps1 b1 n1 -> grown s1 ps1 s2 ps2 b2 n2 -> grown s ps s2 ps2 (b1 ++ b2) (n1 + n2).
Proof.
  intros [H1 H2 H3 H4] [K1 K2 K3 K4]. split; [by rewrite K1, H1, app_assoc | done | by eapply extends_trans | lia].
Qed.

Lemma writes_grown s ps s' ps' bs n : writes s ps s' ps' bs n -> grown s ps s' ps' bs n.
Proof. intros [H1 H2 H3 H4 H5]. by split. Qed.

Lemma grown_bytes s ps s' bs :
  good s ps -> s_roots s' = s_roots s -> s_out s' = s_out s ++ bs -> grown s ps s' ps bs 0.
Proof.
  intros Hg Hr Ho. split; [done | by unfold good; rewrite Hr | rewrite Hr; apply extends_refl | rewrite Hr; lia].
Qed.

Section RoundTrip.
Context (E : runtime) `{HE : !RuntimeOk E}.
Context (mmod : Z) (es : list value) (toplevel : option Z).
Context (Htop : 0 <= default 0 toplevel < 2 ^ 64 - 1) (Hes : short_list es) (fuel : nat).

#[local] Abbreviation encode s v lit := (jl_encode_value_ E mmod es toplevel fuel s v lit).
#[local] Abbreviation decode m i := (jl_decode_value E mmod es m i (S fuel)).

(** From [s] the bytes [bs] are written to reach [s'], and [D] reads [a] from
    them with the roots of [s'] or of any later time. *)
Definition piece {A} (s : ircode_state) (ps : list (Z * Z)) (s' : ircode_state) (ps' : list (Z * Z)) (bs : list Z) (n : nat)
    (D : method_roots value -> list Z -> outcome (A * list Z)) (a : A) : Prop :=
  grown s ps s' ps' bs n /\
  forall m psm rest, roots_wf m psm -> extends (s_roots s') ps' m psm -> D m (bs ++ rest) = Ok (a, rest).

Lemma encode_piece s ps v lit :
  good s ps -> wfv E v -> nroots (s_roots s) + Z.of_nat (vsize v) < 2 ^ 31 -> (vsize v <= fuel)%nat ->
  (lit = true -> literal_ok E v) ->
  exists s' ps' bs, encode s v lit = Ok s' /\ s_ssaid s' = s_ssaid s /\
    piece s ps s' ps' bs (vsize v) (fun m => decode m (s_ssaid s)) v.
Proof.
  intros Hg Hv Hn Hk Hl. destruct (encode_decode E mmod es toplevel Htop Hes fuel s ps v lit Hg Hv Hn Hk Hl) as (s' & ps' & bs & E' & Hw & Hd).
  exists s', ps', bs. split; [done |]. split; [apply Hw |]. split; [by apply writes_grown |].
  intros m psm rest Hm Hx. by apply (Hd m psm).
Qed.

(** Something was written. *)
Lemma piece_nonempty s ps s' ps' bs n i v : piece s ps s' ps' bs n (fun m => decode m i) v -> (1 <= length bs)%nat.
Proof.
  intros [Hg Hd]. destruct bs as [| b bs]; [| cbn; lia].
  specialize (Hd (s_roots s') ps' [] (proj1 (g_good _ _ _ _ _ _ Hg)) (extends_refl _ _)). done.
Qed.

Lemma with_ssaid_good s ps i : good s ps -> good (with_ssaid s i) ps.
Proof. done. Qed.

Lemma encode_stmts_piece l : forall s ps i,
  good s ps -> all_list (wfv E) l -> nroots (s_roots s) + Z.of_nat (sum_list vsize l) < 2 ^ 31 ->
  Forall (fun v => vsize v <= fuel)%nat l ->
  exists s' ps' bs, encode_stmts (fun s v => encode s v false) s i l = Ok s' /\ (length l <= length bs)%nat /\
    piece s ps s' ps' bs (sum_list vsize l) (fun m => decode_stmts (fun i => decode m i) (length l) i) l.
Proof.
  induction l as [| v l IH]; intros s ps i Hg Hv Hn Hk; cbn [encode_stmts].
  - exists s, ps, []. split; [done |]. split; [done |]. split; [by apply grown_bytes; [| | rewrite app_nil_r] | done].
  - cbn [all_list sum_list] in Hv, Hn. destruct Hv as [Hv Hl]. apply Forall_cons in Hk as [Hk Hks].
    destruct (encode_piece (with_ssaid s i) ps v false) as (s1 & ps1 & b1 & -> & Hid & Hp1); [done | done | cbn; lia | done | done |].
    pose proof (piece_nonempty _ _ _ _ _ _ _ _ Hp1) as Hb1. destruct Hp1 as [Hg1 Hd1]. cbn [obind].
    pose proof (g_count _ _ _ _ _ _ Hg1) as Hc. cbn [with_ssaid s_roots] in Hc.
    destruct (IH s1 ps1 (i + 1)) as (s2 & ps2 & b2 & E2 & Hlen & Hg2 & Hd2);
      [apply Hg1 | done | lia | done |].
    exists s2, ps2, (b1 ++ b2). rewrite E2. split; [done |]. split; [rewrite length_app; cbn [length]; lia |]. split.
    + eapply grown_trans; [| exact Hg2]. by destruct Hg1.
    + intros m psm rest Hm Hx. cbn [length decode_stmts]. rewrite <- app_assoc.
      cbn [with_ssaid s_ssaid] in Hd1. rewrite (Hd1 m psm); [| done | eapply extends_trans; [apply Hg2 | done]].
      cbn [obind]. by rewrite (Hd2 m psm).
Qed.
End RoundTrip.

(** ** Arrays of words *)

Lemma length_write_uint32s l : length (write_uint32s l) = (4 * length l)%nat.
Proof.
  unfold write_uint32s. induction l as [| x l IH]; [done |]. cbn [map concat]. rewrite length_app, length_le_bytes, IH. cbn. lia.
Qed.

Lemma read_write_uint32s l : Forall is_u32 l -> read_uint32s (length l) (write_uint32s l) = l.
Proof.
  unfold write_uint32s. induction 1 as [| x l Hx _ IH]; [done |]. cbn [length read_uint32s map concat].
  rewrite take_le_bytes, drop_le_bytes, IH, le_word_le_bytes. f_equal. apply Z.mod_small. exact Hx.
Qed.

Lemma no_ssaflags l : existsb (fun x => negb (x =? 0)) l = false -> l = replicate (length l) 0.
Proof.
  induction l as [| x l IH]; [done |]. cbn. intros [Hx Hl]%orb_false_iff. destruct (Z.eqb_spec x 0) as [-> |]; [| done].
  by rewrite <- IH.
Qed.

(** ** Well-formed code *)

(** A bound on the roots and the fuel that compression needs. *)
Definition code_size (c : jl_code_info_t) (jl_nothing : value) : nat :=
  sum_list vsize (code c) + vsize (ssavaluetypes c) + vsize (slottypes c) + vsize jl_nothing + 2.

(** Code that fits the method [m] and the symbol table [st]: machine integers
    in range, one flag word per statement, slot names that are symbols, and
    location data for the statements. *)
Record code_ok (E : runtime) (jl_nothing : value) (st : symtab_t) (m : jl_method_t) (c : jl_code_info_t) (names : list (list Z))
    : Prop := {
  ok_stmts : all_list (wfv E) (code c);
  ok_types : wfv E (ssavaluetypes c) /\ literal_ok E (ssavaluetypes c);
  ok_slottypes : m_is_for_opaque_closure m = true -> wfv E (slottypes c) /\ literal_ok E (slottypes c);
  ok_nothing : wfv E jl_nothing /\ forall d, jl_nothing <> VString d;
  ok_table : table_wf st;
  ok_names : Forall2 (named st) (slotnames c) names;
  ok_names_len : short_list (joined names);
  ok_slot_syms : m_generator m = false -> m_slot_syms m = joined names;
  ok_ssaflags : Forall is_u32 (ssaflags c) /\ length (ssaflags c) = length (code c);
  ok_nargs : 0 <= nargs c < 2 ^ 31 - 1 /\ 0 <= m_nargs m <= Z.of_nat (length (slotflags c));
  ok_nslots : Z.of_nat (length (slotflags c)) < 2 ^ 31 - 1;
  ok_bools : Forall (fun x => 0 <= x < 2) [propagate_inbounds c; has_fcall c; has_image_globalref c; nospecializeinfer c; isva c];
  ok_settings : 0 <= inlining c < 4 /\ 0 <= constprop c < 4 /\ 0 <= purity c < 2 ^ 16 /\ 0 <= inlining_cost c < 2 ^ 16;
  ok_codelocs : codelocs_match (Z.of_nat (length (code c))) (codelocs (debuginfo c)) = Ok true
}.

Section Code.
Context (E : runtime) `{HE : !RuntimeOk E} (toplevel : option Z) (jl_nothing : value) (fuel : nat).
Context (Htop : 0 <= default 0 toplevel < 2 ^ 64 - 1).
Context (st : symtab_t) (m : jl_method_t) (c : jl_code_info_t) (names : list (list Z)) (Hc : code_ok E jl_nothing st m c names).
Context (es : list value) (Hes : short_list es) (Hfuel : (code_size c jl_nothing <= fuel)%nat).

#[local] Abbreviation decode m0 i := (jl_decode_value E (m_module m) es m0 i (S fuel)).

(** The value that stands for the slot names in the string. *)
Definition names_value : value := if m_generator m then VString (joined names) else jl_nothing.

(** What the body reads back. *)
Definition body_result (slottypes0 : value) : list value * value * list Z * value * value :=
  (code c, ssavaluetypes c, ssaflags c, if m_is_for_opaque_closure m then slottypes c else slottypes0, names_value).

Lemma sum_list_Forall {A} (f : A -> nat) l n : (sum_list f l <= n)%nat -> Forall (fun v => f v <= n)%nat l.
Proof. induction l as [| x l IH]; cbn; intros H; constructor; [lia | apply IH; lia]. Qed.

(** A value that is optional in the stream. *)
Lemma optional_piece (b : bool) s ps v v0 lit i :
  good s ps -> s_ssaid s = i -> (b = true -> wfv E v /\ (lit = true -> literal_ok E v)) ->
  nroots (s_roots s) + Z.of_nat (vsize v) < 2 ^ 31 -> (vsize v <= fuel)%nat ->
  exists s' ps' bs,
    (if b then jl_encode_value_ E (m_module m) es toplevel fuel s v lit else Ok s) = Ok s' /\ s_ssaid s' = i /\
    piece s ps s' ps' bs (vsize v) (fun m0 s => if b then decode m0 i s else Ok (v0, s)) (if b then v else v0).
Proof.
  intros Hg <- Hv Hn Hk. destruct b.
  - destruct (Hv eq_refl) as [Hw Hl].
    destruct (encode_piece E (m_module m) es toplevel Htop Hes fuel s ps v lit) as (s' & ps' & bs & E' & H); try done.
    by exists s', ps', bs.
  - exists s, ps, []. split; [done |]. split; [done |]. split; [| done].
    destruct (grown_bytes s ps s [] Hg eq_refl) as [H1 H2 H3 H4]; [by rewrite app_nil_r |]. split; [done | done | done | lia].
Qed.

Lemma names_piece s ps :
  good s ps -> s_ssaid s = 0 -> nroots (s_roots s) + Z.of_nat (vsize jl_nothing + 2) < 2 ^ 31 ->
  exists s' ps' bs,
    (if m_generator m then let! v := jl_compress_argnames st (slotnames c) in
       jl_encode_value_ E (m_module m) es toplevel fuel s (VString v) true
     else jl_encode_value_ E (m_module m) es toplevel fuel s jl_nothing false) = Ok s' /\
    piece s ps s' ps' bs (vsize jl_nothing + 2) (fun m0 => decode m0 0) names_value.
Proof.
  intros Hg Hid Hn. unfold names_value. unfold code_size in Hfuel.
  assert (H : exists s' ps' bs,
    jl_encode_value_ E (m_module m) es toplevel fuel s (if m_generator m then VString (joined names) else jl_nothing) (m_generator m) = Ok s' /\
    piece s ps s' ps' bs (vsize jl_nothing + 2) (fun m0 => decode m0 0) (if m_generator m then VString (joined names) else jl_nothing)).
  { destruct (encode_piece E (m_module m) es toplevel Htop Hes fuel s ps (if m_generator m then VString (joined names) else jl_nothing)
      (m_generator m)) as (s' & ps' & bs & E' & _ & [Hgr Hd]).
    - done.
    - destruct (m_generator m); [apply (ok_names_len _ _ _ _ _ _ Hc) | apply (ok_nothing _ _ _ _ _ _ Hc)].
    - destruct (m_generator m); cbn [vsize]; lia.
    - destruct (m_generator m); cbn [vsize]; lia.
    - by destruct (m_generator m).
    - exists s', ps', bs. split; [done |]. rewrite Hid in Hd. split; [| done].
      destruct Hgr as [H1 H2 H3 H4]. split; [done | done | done |]. destruct (m_generator m); cbn [vsize] in H4; lia. }
  destruct (m_generator m); [| done].
  destruct (argnames_uncompress st (ok_table _ _ _ _ _ _ Hc) _ _ (ok_names _ _ _ _ _ _ Hc)) as [-> _]; [| done].
  pose proof (ok_names_len _ _ _ _ _ _ Hc) as Hl. unfold short_list in Hl. lia.
Qed.

Lemma ssaflags_bytes (b : bool) s rest :
  let f := code_info_flags c b in
  exists bs, s_out (if negb (f_has_ssaflags f =? 0) then ios_write s (write_uint32s (ssaflags c)) else s) = s_out s ++ bs /\
    (if negb (f_has_ssaflags f =? 0)
     then let! (x, s) := ios_readall (bs ++ rest) (Z.of_nat (length (code c)) * 4) in Ok (read_uint32s (length (code c)) x, s)
     else Ok (replicate (length (code c)) 0, bs ++ rest)) = Ok (ssaflags c, rest).
Proof.
  intros f. destruct (ok_ssaflags _ _ _ _ _ _ Hc) as [Hu Hl]. cbn [f_has_ssaflags code_info_flags f].
  destruct (existsb _ _) eqn:Ee; cbn [negb Z.eqb].
  - exists (write_uint32s (ssaflags c)). split; [done |].
    replace (Z.of_nat (length (code c)) * 4) with (Z.of_nat (length (write_uint32s (ssaflags c))))
      by (rewrite length_write_uint32s; lia).
    rewrite ios_readall_app. cbn [obind]. by rewrite <- Hl, read_write_uint32s.
  - exists []. split; [by rewrite app_nil_r |]. cbn [app]. by rewrite <- Hl, <- (no_ssaflags _ Ee).
Qed.

Lemma compress_body_piece (b : bool) slottypes0 s ps :
  good s ps -> Z.of_nat (length (code c)) < 2 ^ 64 -> nroots (s_roots s) + Z.of_nat (code_size c jl_nothing) < 2 ^ 31 ->
  exists s' ps' bs r,
    compress_body E toplevel jl_nothing fuel st m es s c (code_info_flags c b) = Ok s' /\
    grown s ps s' ps' (bs ++ [r]) (code_size c jl_nothing) /\
    forall m0 psm rest, roots_wf m0 psm -> extends (s_roots s') ps' m0 psm ->
      uncompress_body (fun i => decode m0 i) (m_is_for_opaque_closure m) (f_has_ssaflags (code_info_flags c b)) slottypes0 (bs ++ rest) =
      Ok (body_result slottypes0, rest).
Proof.
  intros Hg Hl Hn. unfold compress_body, uncompress_body. unfold code_size in *.
  set (f := code_info_flags c b). set (s0 := emit64 s (Z.of_nat (length (code c)))).
  assert (Hg0 : grown s ps s0 ps (le_bytes 8 (Z.of_nat (length (code c)))) 0) by (by apply grown_bytes).
  destruct (encode_stmts_piece E (m_module m) es toplevel Htop Hes fuel (code c) s0 ps 0) as (s1 & ps1 & b1 & -> & Hlen & Hg1 & Hd1);
    [exact Hg | apply Hc | cbn; lia | apply sum_list_Forall; lia |]. cbn [obind].
  pose proof (g_count _ _ _ _ _ _ Hg1) as Hn1. cbn [s0 s_roots emit64 emit] in Hn1.
  destruct (encode_piece E (m_module m) es toplevel Htop Hes fuel (with_ssaid s1 0) ps1 (ssavaluetypes c) true) as (s2 & ps2 & b2 & -> & Hid2 & Hg2 & Hd2);
    [apply Hg1 | apply Hc | cbn; lia | lia | intros _; apply Hc |]. cbn [obind].
  pose proof (g_count _ _ _ _ _ _ Hg2) as Hn2. cbn [with_ssaid s_roots] in Hn2.
  destruct (ok_ssaflags _ _ _ _ _ _ Hc) as [_ Hfl]. unfold ensure at 1. rewrite Hfl, Z.eqb_refl. cbn [obind].
  destruct (ssaflags_bytes b s2 []) as (fl & Ho3 & _). fold f in Ho3. set (s3 := if negb _ then _ else _) in *.
  assert (Hr3 : s_roots s3 = s_roots s2) by (unfold s3; by destruct (negb _)).
  assert (Hid3 : s_ssaid s3 = 0) by (unfold s3; by destruct (negb _)).
  assert (Hg3 : grown s2 ps2 s3 ps2 fl 0) by (apply grown_bytes; [apply Hg2 | done | done]).
  destruct (optional_piece (m_is_for_opaque_closure m) s3 ps2 (slottypes c) slottypes0 true 0) as (s4 & ps4 & b4 & -> & Hid4 & Hg4 & Hd4);
    [apply Hg3 | done | | rewrite Hr3; lia | lia |].
  { intros Hop. destruct (ok_slottypes _ _ _ _ _ _ Hc Hop). done. }
  pose proof (g_count _ _ _ _ _ _ Hg4) as Hn4. rewrite Hr3 in Hn4. cbn [obind].
  destruct (names_piece s4 ps4) as (s5 & ps5 & b5 & -> & Hg5 & Hd5); [apply Hg4 | done | lia |]. cbn [obind].
  set (s6 := emit8 s5 _). assert (Hg6 : grown s5 ps5 s6 ps5 [u8 (s_relocatability s5)] 0) by (apply grown_bytes; [apply Hg5 | done | done]).
  exists s6, ps5, (le_bytes 8 (Z.of_nat (length (code c))) ++ b1 ++ b2 ++ fl ++ b4 ++ b5), (u8 (s_relocatability s5)).
  split; [done |]. split.
  - assert (Hg2' : grown s1 ps1 s2 ps2 b2 (vsize (ssavaluetypes c))) by (by destruct Hg2).
    pose proof (grown_trans _ _ _ _ _ _ _ _ _ _ Hg5 Hg6) as H. pose proof (grown_trans _ _ _ _ _ _ _ _ _ _ Hg4 H) as H'.
    pose proof (grown_trans _ _ _ _ _ _ _ _ _ _ Hg3 H') as H''. pose proof (grown_trans _ _ _ _ _ _ _ _ _ _ Hg2' H'') as H3.
    pose proof (grown_trans _ _ _ _ _ _ _ _ _ _ Hg1 H3) as H4. pose proof (grown_trans _ _ _ _ _ _ _ _ _ _ Hg0 H4) as [K1 K2 K3 K4].
    split; [by rewrite K1, <- !app_assoc | done | done | lia].
  - intros m0 psm rest Hm Hx. assert (Hx5 : extends (s_roots s5) ps5 m0 psm) by exact Hx.
    assert (Hx4 : extends (s_roots s4) ps4 m0 psm) by (eapply extends_trans; [apply Hg5 | done]).
    assert (Hx2 : extends (s_roots s2) ps2 m0 psm) by (rewrite <- Hr3; eapply extends_trans; [apply Hg4 | done]).
    assert (Hx1 : extends (s_roots s1) ps1 m0 psm) by (eapply extends_trans; [apply Hg2 | done]).
    rewrite <- !app_assoc, read_uint64_write, u64_small by lia. unfold read_length.
    rewrite (proj2 (Z.ltb_ge _ 0)), (proj2 (Z.ltb_ge _ _)) by (rewrite ?length_app; lia). cbn [orb obind].
    rewrite Nat2Z.id, (Hd1 m0 psm) by done. cbn [obind].
    rewrite (Hd2 m0 psm) by done. cbn [obind].
    destruct (ssaflags_bytes b s2 (b4 ++ b5 ++ rest)) as (fl' & Ho3' & Hfr). fold f in Ho3', Hfr. fold s3 in Ho3'.
    rewrite Ho3 in Ho3'. apply app_inv_head in Ho3' as <-. rewrite Hfr. cbn [obind].
    rewrite (Hd4 m0 psm) by done. cbn [obind]. by rewrite (Hd5 m0 psm).
Qed.
End Code.

(** ** The header *)

Lemma encode_cost c : 0 <= c < 2 ^ 16 -> exists e, jl_encode_inlining_cost c = Ok e /\ 0 <= e < 256.
Proof.
  intros Hc. pose proof (all_below_spec _ _ cost_ok_all c Hc) as H. unfold cost_ok in H.
  destruct (jl_encode_inlining_cost c) as [e | |]; [| done | done]. exists e. split; [done | lia].
Qed.

(** [y] is what is read back for the cost [x]. *)
Definition cost_rounded (x y : Z) : Prop :=
  (x < 64 -> y = x) /\ (x <= 3968 -> x <= y <= x + x / 32) /\ (3968 < x -> y = 0xffff).

Lemma cost_rounded_all :
  all_below 65536 (fun x => match jl_encode_inlining_cost x with
    | Ok e => let y := jl_decode_inlining_cost e in
        (negb (x <? 64) || (y =? x)) && (negb (x <=? 3968) || ((x <=? y) && (y <=? x + x / 32))) && (negb (3968 <? x) || (y =? 0xffff))
    | _ => false end) = true.
Proof. vm_compute. reflexivity. Qed.

Lemma encode_cost_rounded x e : 0 <= x < 2 ^ 16 -> jl_encode_inlining_cost x = Ok e -> cost_rounded x (jl_decode_inlining_cost e).
Proof.
  intros Hx He. pose proof (all_below_spec _ _ cost_rounded_all x Hx) as H. cbv beta in H. rewrite He in H. cbv zeta in H. unfold cost_rounded.
  apply andb_prop in H as [[H1 H2]%andb_prop H3]. split; [| split]; intros Hb.
  - rewrite (proj2 (Z.ltb_lt _ _) Hb) in H1. by apply Z.eqb_eq.
  - rewrite (proj2 (Z.leb_le _ _) Hb) in H2. by apply andb_prop in H2 as [?%Z.leb_le ?%Z.leb_le].
  - rewrite (proj2 (Z.ltb_lt _ _) Hb) in H3. by apply Z.eqb_eq.
Qed.

(** The cost as it is stored. *)
Definition stored_cost (c : jl_code_info_t) : Z :=
  match jl_encode_inlining_cost (inlining_cost c) with Ok e => e | _ => 0 end.

Definition header_bytes (c : jl_code_info_t) (f : jl_code_info_flags_bitfield_t) (junk : Z) (b : bool) : list Z :=
  le_bytes 2 (packed f junk) ++ le_bytes 2 (purity c) ++ [stored_cost c] ++ le_bytes 4 (Z.of_nat (length (slotflags c))) ++
  slotflags c ++ (if b then [] else le_bytes 4 (nargs c)).

Section Header.
Context (E : runtime) (jl_nothing : value) (st : symtab_t) (m : jl_method_t) (c : jl_code_info_t) (names : list (list Z)).
Context (Hc : code_ok E jl_nothing st m c names) (junk : Z) (Hj : 0 <= junk < 32).

#[local] Abbreviation b := (nargs c =? m_nargs m).
#[local] Abbreviation f := (code_info_flags c b).

Lemma compress_header_spec s ps : good s ps ->
  exists s', compress_header s c f junk b = Ok s' /\ grown s ps s' ps (header_bytes c f junk b) 0.
Proof.
  intros Hg. destruct (ok_settings _ _ _ _ _ _ Hc) as (_ & _ & _ & Hcost).
  destruct (encode_cost (inlining_cost c) Hcost) as (e & He & Her).
  unfold compress_header. rewrite He. cbn [obind]. eexists. split; [reflexivity |].
  apply grown_bytes; [done | by destruct b |]. unfold header_bytes, stored_cost. rewrite He.
  destruct b; unfold emit8, emit16, emit_i32, ios_write, emit; cbn [s_out];
    unfold write_uint8, write_uint16, write_int32; rewrite u8_small by lia; by rewrite ?app_nil_r, <- !app_assoc.
Qed.

Lemma uncompress_header_spec rest :
  uncompress_header (m_nargs m) (header_bytes c f junk b ++ rest) =
  Ok (f, purity c, jl_decode_inlining_cost (stored_cost c), slotflags c, nargs c, rest).
Proof.
  pose proof (code_info_flags_ok c b) as Hf. destruct (ok_settings _ _ _ _ _ _ Hc) as (_ & _ & Hp & _).
  destruct (ok_nargs _ _ _ _ _ _ Hc) as [Hn Hm]. pose proof (ok_nslots _ _ _ _ _ _ Hc) as Hs.
  pose proof (packed_range f junk Hf Hj) as Hpk.
  unfold uncompress_header, header_bytes. rewrite <- !app_assoc, !read_uint16_write. cbn [app read_uint8].
  rewrite (u16_small (packed f junk)), (unpacked_packed f junk Hf Hj), (u16_small (purity c)), read_int32_write, ios_readall_app by lia.
  cbn [obind]. cbn [f_nargsmatchesmethod code_info_flags]. destruct (Z.eqb_spec (nargs c) (m_nargs m)) as [Heq | Hne]; cbn [Z.eqb negb app].
  - by rewrite <- Heq.
  - by rewrite read_int32_write by lia.
Qed.
End Header.

(** ** The round trip *)

Definition with_roots (m : jl_method_t) (rs : method_roots value) : jl_method_t :=
  Method rs (m_nargs m) (m_module m) (m_is_for_opaque_closure m) (m_generator m) (m_slot_syms m) (m_debuginfo m) (m_source m).

Definition metadata_edges (metadata : option jl_code_instance_t) : list value :=
  match metadata with Some ci => svec_list (ci_edges ci) | None => [] end.

Definition metadata_debuginfo (m : jl_method_t) (metadata : option jl_code_instance_t) : jl_debuginfo_t :=
  match metadata with Some ci => ci_debuginfo ci | None => m_debuginfo m end.

(** The code that comes back: the cost is rounded, the slot types are kept for
    opaque closures only, and what belongs to the code instance comes from
    there. *)
Definition restored (jl_nothing jl_any_type : value) (m : jl_method_t) (metadata : option jl_code_instance_t) (c : jl_code_info_t)
    : jl_code_info_t :=
  CodeInfo (code c) (metadata_debuginfo m metadata) (ssavaluetypes c) (ssaflags c) (slotnames c) (slotflags c)
    (if m_is_for_opaque_closure m then slottypes c else jl_nothing)
    (match metadata with Some ci => ci_rettype ci | None => jl_any_type end)
    (match metadata with Some ci => ci_def ci | None => jl_nothing end)
    (match metadata with Some ci => ci_edges ci | None => VSvec [] end)
    (match metadata with Some ci => ci_min_world ci | None => 1 end)
    (match metadata with Some ci => ci_max_world ci | None => 2 ^ 64 - 1 end)
    jl_nothing (nargs c) (propagate_inbounds c) (has_fcall c) (has_image_globalref c) (nospecializeinfer c) (isva c)
    (inlining c) (constprop c) (purity c) (jl_decode_inlining_cost (stored_cost c)).

(** The code that is compressed, and the edges its references may use. *)
Definition source_of (m : jl_method_t) (code0 : option jl_code_info_t) : jl_code_info_t := default (m_source m) code0.
Definition edges_of (m : jl_method_t) (code0 : option jl_code_info_t) : list value :=
  match code0 with Some c => svec_list (edges c) | None => [] end.

Lemma drop_empty_roots (rs : method_roots value) ps :
  roots_wf rs ps ->
  let rs' := if nroots rs =? 0 then MethodRoots None (root_blocks rs) (nroots_sysimg rs) else rs in
  roots_wf rs' ps /\ default [] (roots rs') = default [] (roots rs).
Proof.
  intros Hw rs'. subst rs'. destruct (Z.eqb_spec (nroots rs) 0) as [E | E]; [| done]. unfold nroots in E.
  assert (Hd : default [] (roots rs) = []) by (destruct (default [] (roots rs)); [done | cbn in E; lia]).
  split; [| by rewrite Hd]. destruct Hw as [H1 H2 H3 H4]. unfold nroots in *. rewrite Hd in *. by split.
Qed.

Lemma extends_same_roots (rs rs' : method_roots value) ps m psm :
  default [] (roots rs') = default [] (roots rs) -> extends rs' ps m psm -> extends rs ps m psm.
Proof. unfold extends, nroots. by intros ->. Qed.

Lemma length_le_code_size c jl_nothing : (length (code c) <= code_size c jl_nothing)%nat.
Proof.
  unfold code_size. assert (length (code c) <= sum_list vsize (code c))%nat; [| lia].
  induction (code c) as [| v l IH]; [done |]. cbn [length sum_list]. pose proof (vsize_pos v). lia.
Qed.

Section Compress.
Context (E : runtime) (HE : RuntimeOk E) (toplevel : option Z) (jl_nothing jl_any_type : value) (fuel : nat) (st : symtab_t)
  (m : jl_method_t) (code0 : option jl_code_info_t) (junk : Z) (names : list (list Z)) (ps : list (Z * Z)).
#[local] Abbreviation c := (source_of m code0).
Context (Htop : 0 <= default 0 toplevel < 2 ^ 64 - 1) (Hw : roots_wf (m_roots m) ps) (Hk : Forall key_ok ps)
  (Hc : code_ok E jl_nothing st m c names) (Hes : short_list (edges_of m code0))
  (Hn : nroots (m_roots m) + Z.of_nat (code_size c jl_nothing) < 2 ^ 31) (Hf : (code_size c jl_nothing <= fuel)%nat)
  (Hj : 0 <= junk < 32).

(** The string is the header and a body that reads back. *)
Lemma jl_compress_ir_spec : exists body r m' ps',
  jl_compress_ir E toplevel jl_nothing fuel st m code0 junk =
    Ok (header_bytes c (code_info_flags c (nargs c =? m_nargs m)) junk (nargs c =? m_nargs m) ++ body ++ [r], m') /\
  m' = with_roots m (m_roots m') /\ roots_wf (m_roots m') ps' /\ extends (m_roots m) ps (m_roots m') ps' /\
  forall rs psm rest, roots_wf rs psm -> extends (m_roots m') ps' rs psm ->
    uncompress_body (fun i => jl_decode_value E (m_module m) (edges_of m code0) rs i (S fuel)) (m_is_for_opaque_closure m)
      (f_has_ssaflags (code_info_flags c (nargs c =? m_nargs m))) jl_nothing (body ++ rest) =
    Ok (body_result jl_nothing m c names jl_nothing, rest).
Proof.
  set (b := nargs c =? m_nargs m). set (rs0 := MethodRoots (Some (default [] (roots (m_roots m)))) (root_blocks (m_roots m)) (nroots_sysimg (m_roots m))).
  assert (Hw0 : roots_wf rs0 ps) by (by destruct Hw).
  assert (Hg0 : good (IRState [] 0 rs0 1) ps) by done.
  destruct (compress_header_spec E jl_nothing st m c names Hc junk (IRState [] 0 rs0 1) ps Hg0) as (s1 & E1 & Hg1).
  pose proof (g_count _ _ _ _ _ _ Hg1) as Hn1. change (nroots (s_roots (IRState [] 0 rs0 1))) with (nroots (m_roots m)) in Hn1.
  pose proof (length_le_code_size c jl_nothing) as Hlc.
  assert (Hn0 : 0 <= nroots (m_roots m)) by (unfold nroots; lia).
  destruct (compress_body_piece E toplevel jl_nothing fuel Htop st m c names Hc (edges_of m code0) Hes Hf b jl_nothing s1 ps)
    as (s2 & ps2 & body & r & E2 & Hg2 & Hd); [apply Hg1 | lia | lia |].
  destruct (drop_empty_roots (s_roots s2) ps2) as [Hw2 Hr2]; [apply Hg2 |].
  set (rs2 := if nroots (s_roots s2) =? 0 then _ else _) in Hw2, Hr2.
  exists body, r, (with_roots m rs2), ps2. split.
  - unfold jl_compress_ir. fold c. change (default (m_source m) code0) with c. rewrite (ok_codelocs _ _ _ _ _ _ Hc).
    fold b. destruct (ok_nargs _ _ _ _ _ _ Hc) as [Hna Hnm]. pose proof (ok_nslots _ _ _ _ _ _ Hc) as Hns.
    unfold INT32_MAX. cbn [obind ensure]. rewrite (proj2 (Z.leb_le _ _)), !(proj2 (Z.ltb_lt _ _)), orb_true_r by lia. cbn [andb ensure obind].
    fold rs0. change (match code0 with Some _ => svec_list (edges c) | None => [] end) with
      (match code0 with Some _ => svec_list (edges (source_of m code0)) | None => [] end).
    replace (match code0 with Some _ => svec_list (edges (source_of m code0)) | None => [] end) with (edges_of m code0) by (by destruct code0).
    fold b in E1. rewrite E1. cbn [obind]. rewrite E2. cbn [obind]. fold rs2. do 2 f_equal.
    rewrite (g_out _ _ _ _ _ _ Hg2), (g_out _ _ _ _ _ _ Hg1). done.
  - split; [done |]. split; [done |]. cbn [m_roots with_roots]. split.
    + pose proof (extends_trans _ _ _ _ _ _ (g_extends _ _ _ _ _ _ Hg1) (g_extends _ _ _ _ _ _ Hg2)) as (rs & qs & Ha & Hb & Hq).
      exists rs, qs. rewrite Hr2. by split.
    + intros rs psm rest Hm Hx. apply (Hd rs psm); [done |]. by eapply extends_same_roots.
Qed.
End Compress.

Lemma flags_restored c b :
  Forall (fun x => 0 <= x < 2) [propagate_inbounds c; has_fcall c; has_image_globalref c; nospecializeinfer c; isva c] ->
  0 <= inlining c < 4 -> 0 <= constprop c < 4 ->
  let f := code_info_flags c b in
  f_propagate_inbounds f = propagate_inbounds c /\ f_has_fcall f = has_fcall c /\ f_has_image_globalref f = has_image_globalref c /\
  f_nospecializeinfer f = nospecializeinfer c /\ f_isva f = isva c /\ f_inlining f = inlining c /\ f_constprop f = constprop c.
Proof.
  rewrite !Forall_cons. intros (? & ? & ? & ? & ? & _) Hi Hp f. subst f. unfold code_info_flags. cbn -[bits_at].
  rewrite !bits_at_small by (done || lia). done.
Qed.

(** C1: Compressed code decompresses to itself.  For well-formed code of a
    method ([code_ok]: numbers in their ranges, one flag word per statement,
    slot names that are symbols, location data for the statements, and values
    that are well formed as in C2, so that elements of memories of structs with
    references have less than 64 KiB), [jl_compress_ir] passes its asserts
    and succeeds; the method only
    gains roots; and [jl_uncompress_ir] of the string, with the roots the
    method has then or at any later time and a code instance with the same
    edges, gives back the statements, types, flags, slots and settings exactly,
    with the inlining cost rounded as stored and the rest taken from the code
    instance, and leaves the symbol table as it was. *)
Theorem codeinfo_roundtrip (E : runtime) (HE : RuntimeOk E) (toplevel : option Z) (jl_nothing jl_any_type : value) (fuel : nat)
    (st : symtab_t) (m : jl_method_t) (code0 : option jl_code_info_t) (junk : Z) (names : list (list Z)) (ps : list (Z * Z)) :
  let c := source_of m code0 in
  0 <= default 0 toplevel < 2 ^ 64 - 1 -> roots_wf (m_roots m) ps -> Forall key_ok ps ->
  code_ok E jl_nothing st m c names -> short_list (edges_of m code0) ->
  nroots (m_roots m) + Z.of_nat (code_size c jl_nothing) < 2 ^ 31 -> (code_size c jl_nothing <= fuel)%nat -> 0 <= junk < 32 ->
  exists data m' ps',
    jl_compress_ir E toplevel jl_nothing fuel st m code0 junk = Ok (data, m') /\
    m' = with_roots m (m_roots m') /\ roots_wf (m_roots m') ps' /\ extends (m_roots m) ps (m_roots m') ps' /\
    forall rs psm metadata,
      roots_wf rs psm -> extends (m_roots m') ps' rs psm -> metadata_edges metadata = edges_of m code0 ->
      codelocs_match (Z.of_nat (length (code c))) (codelocs (metadata_debuginfo m metadata)) = Ok true ->
      jl_uncompress_ir E jl_nothing (S fuel) jl_any_type st (with_roots m rs) metadata (IRString data) =
        Ok (IR (restored jl_nothing jl_any_type m metadata c), st).
Proof.
  intros c Htop Hw Hk Hc Hes Hn Hf Hj.
  destruct (jl_compress_ir_spec E HE toplevel jl_nothing fuel st m code0 junk names ps Htop Hw Hk Hc Hes Hn Hf)
    as (body & r & m' & ps' & E1 & Hm' & Hw' & Hx' & Hd). fold c in E1, Hd.
  eexists _, m', ps'. split; [exact E1 |]. split; [done |]. split; [done |]. split; [done |].
  intros rs psm metadata Hrs Hx He Hcl. unfold jl_uncompress_ir. cbn [with_roots m_nargs m_module m_roots m_is_for_opaque_closure m_slot_syms].
  rewrite (uncompress_header_spec E jl_nothing st m c names Hc junk Hj). cbn [obind].
  fold (metadata_edges metadata). rewrite He. cbn [slottypes jl_new_code_info_uninit].
  rewrite (Hd rs psm [r] Hrs Hx). unfold body_result. cbn [obind].
  destruct (argnames_uncompress st (ok_table _ _ _ _ _ _ Hc) _ _ (ok_names _ _ _ _ _ _ Hc)) as [_ Hnm].
  { pose proof (ok_names_len _ _ _ _ _ _ Hc) as Hl. unfold short_list in Hl. lia. }
  replace (match names_value jl_nothing m names with VString v => v | _ => m_slot_syms m end) with (joined names).
  2:{ unfold names_value. destruct (m_generator m) eqn:Eg; [done |]. rewrite <- (ok_slot_syms _ _ _ _ _ _ Hc Eg).
      destruct (ok_nothing _ _ _ _ _ _ Hc) as [_ Hno]. destruct jl_nothing; try done. by destruct (Hno data). }
  rewrite Hnm. cbn [obind]. cbn [m_debuginfo with_roots]. fold (metadata_debuginfo m metadata). rewrite Hcl. cbn [obind ensure length Z.of_nat Z.eqb].
  destruct (ok_settings _ _ _ _ _ _ Hc) as (Hi & Hp & _). destruct (ok_nargs _ _ _ _ _ _ Hc) as [Hna _].
  destruct (flags_restored c (nargs c =? m_nargs m) (ok_bools _ _ _ _ _ _ Hc) Hi Hp) as (-> & -> & -> & -> & -> & -> & ->).
  rewrite (u64_small (nargs c)) by lia. unfold restored. by destruct metadata.
Qed.

(** C26: The accessors read a compressed string in place.  The flags for inlining,
    foreign calls and image globals, the number of slots and the flags of each
    slot are those of the [CodeInfo] it was made from.  The inlining cost is the
    decoded byte, which is not the cost [x] of the [CodeInfo] but [x] rounded up
    ([cost_rounded]): exact below 64, at most 1/32 more up to 3968, and 65535
    for all larger costs.  The code is well formed as in C1. *)
Theorem ir_accessors_correct (E : runtime) (HE : RuntimeOk E) (toplevel : option Z) (jl_nothing : value) (fuel : nat)
    (st : symtab_t) (m : jl_method_t) (c : jl_code_info_t) (junk : Z) (names : list (list Z)) (ps : list (Z * Z)) :
  0 <= default 0 toplevel < 2 ^ 64 - 1 -> roots_wf (m_roots m) ps -> Forall key_ok ps ->
  code_ok E jl_nothing st m c names -> length (slotnames c) = length (slotflags c) -> short_list (svec_list (edges c)) ->
  nroots (m_roots m) + Z.of_nat (code_size c jl_nothing) < 2 ^ 31 -> (code_size c jl_nothing <= fuel)%nat -> 0 <= junk < 32 ->
  exists data m',
    jl_compress_ir E toplevel jl_nothing fuel st m (Some c) junk = Ok (data, m') /\
    jl_ir_flag_inlining (IRString data) = jl_ir_flag_inlining (IRCodeInfo c) /\
    jl_ir_flag_has_fcall (IRString data) = jl_ir_flag_has_fcall (IRCodeInfo c) /\
    jl_ir_flag_has_image_globalref (IRString data) = jl_ir_flag_has_image_globalref (IRCodeInfo c) /\
    (exists e, jl_encode_inlining_cost (inlining_cost c) = Ok e /\
       jl_ir_inlining_cost (inr (IRString data)) = jl_ir_inlining_cost (inl e)) /\
    (exists x y, jl_ir_inlining_cost (inr (IRCodeInfo c)) = Ok x /\ jl_ir_inlining_cost (inr (IRString data)) = Ok y /\ cost_rounded x y) /\
    jl_ir_nslots (IRString data) = jl_ir_nslots (IRCodeInfo c) /\
    forall i, 0 <= i -> jl_ir_slotflag (IRString data) i = jl_ir_slotflag (IRCodeInfo c) i.
Proof.
  intros Htop Hw Hk Hc Hsl Hes Hn Hf Hj.
  destruct (jl_compress_ir_spec E HE toplevel jl_nothing fuel st m (Some c) junk names ps Htop Hw Hk Hc Hes Hn Hf)
    as (body & r & m' & ps' & E1 & _). cbn [source_of default] in E1.
  set (f := code_info_flags c (nargs c =? m_nargs m)) in E1. eexists _, m'. split; [exact E1 |].
  destruct (ok_settings _ _ _ _ _ _ Hc) as (Hi & Hp & _ & Hcost).
  destruct (flags_restored c (nargs c =? m_nargs m) (ok_bools _ _ _ _ _ _ Hc) Hi Hp) as (_ & Hfc & Hig & _ & _ & Hin & _). fold f in Hfc, Hig, Hin.
  destruct (unpacked_low f junk (code_info_flags_ok _ _) Hj) as (U1 & U2 & U3).
  destruct (encode_cost (inlining_cost c) Hcost) as (e & He & Her). pose proof (ok_nslots _ _ _ _ _ _ Hc) as Hs.
  unfold header_bytes. rewrite <- !app_assoc.
  assert (Hfb : forall t, flags_byte (le_bytes 2 (packed f junk) ++ t) =
    Ok (unpacked (u16 (let b := packed f junk mod 256 in if 128 <=? b then b - 256 else b)))) by done.
  cbn [jl_ir_flag_inlining jl_ir_flag_has_fcall jl_ir_flag_has_image_globalref]. rewrite !Hfb. cbn [obind].
  rewrite U1, U2, U3, Hin, Hfc, Hig. do 3 (split; [done |]). split.
  { exists e. split; [done |]. cbn. unfold stored_cost. by rewrite He. }
  split.
  { exists (inlining_cost c), (jl_decode_inlining_cost e). split; [done |]. split; [cbn; unfold stored_cost; by rewrite He | by apply encode_cost_rounded]. }
  assert (Hns : forall t, jl_ir_nslots (IRString (le_bytes 2 (packed f junk) ++ le_bytes 2 (purity c) ++ [stored_cost c] ++
    le_bytes 4 (Z.of_nat (length (slotflags c))) ++ t)) = Ok (Z.of_nat (length (slotflags c)))).
  { intros t. unfold jl_ir_nslots. change (drop (Z.to_nat ir_offset_nslots) _) with (le_bytes 4 (Z.of_nat (length (slotflags c))) ++ t).
    assert (Hr : ios_readall (le_bytes 4 (Z.of_nat (length (slotflags c))) ++ t) 4 = Ok (le_bytes 4 (Z.of_nat (length (slotflags c))), t))
      by exact (ios_readall_app (le_bytes 4 (Z.of_nat (length (slotflags c)))) t).
    rewrite Hr.
    cbn [obind]. rewrite le_word_le_bytes. change (8 * Z.of_nat 4) with 32. by rewrite i32_mod by lia. }
  rewrite Hns. cbn [jl_ir_nslots]. rewrite Hsl. split; [done |]. intros i Hi0.
  unfold jl_ir_slotflag. rewrite Hns. cbn [jl_ir_nslots obind]. rewrite Hsl, u64_small by lia.
  destruct (Z.ltb_spec i (Z.of_nat (length (slotflags c)))); [| done]. cbn [ensure obind].
  set (hd := le_bytes 2 (packed f junk) ++ le_bytes 2 (purity c) ++ [stored_cost c] ++ le_bytes 4 (Z.of_nat (length (slotflags c)))).
  assert (Hlen : Z.of_nat (length hd) = ir_offset_slotflags) by done.
  transitivity (rd (hd ++ slotflags c ++ (if nargs c =? m_nargs m then [] else le_bytes 4 (nargs c)) ++ body ++ [r]) (ir_offset_slotflags + i)).
  { unfold hd. by rewrite <- !app_assoc. }
  rewrite rd_app_r, rd_app_l by lia. f_equal. lia.
Qed.

(** ** Witnesses *)

Definition demo_nothing : value := VStruct (VType 1 [] false) [] [].

(** Two statements, one slot, named "ab". *)
Definition demo_code : jl_code_info_t :=
  CodeInfo [VExpr 5 [VSlotNumber 1; VString [104; 105]]; VReturnNode (VSSAValue 1)] no_debuginfo (VInt64 2) [0; 5] [0%nat] [8]
    demo_nothing (VSymbol 3) demo_nothing (VSvec []) 1 100 demo_nothing 1 0 1 0 0 0 2 1 77 1000.

Definition demo_method_t (generator : bool) : jl_method_t :=
  Method (MethodRoots None None 0) 0 9 false generator (joined [str_ab]) no_debuginfo demo_code.

Lemma demo_code_ok g : code_ok demo_runtime demo_nothing raced (demo_method_t g) demo_code [str_ab].
Proof.
  split; try done.
  - apply demo_table_wf.
  - apply Forall2_cons. split; [apply demo_table_wf | constructor].
  - split; [| done]. repeat constructor; done.
  - cbn. repeat constructor; lia.
Qed.

Lemma empty_roots_wf : roots_wf (MethodRoots (V := value) None None 0) [].
Proof. split; [by right | done | constructor | done]. Qed.

Lemma codeinfo_roundtrip_witness :
  exists data m' ps',
    jl_compress_ir demo_runtime None demo_nothing 40 raced (demo_method_t true) None 3 = Ok (data, m') /\
    m' = with_roots (demo_method_t true) (m_roots m') /\ roots_wf (m_roots m') ps' /\
    extends (MethodRoots None None 0) [] (m_roots m') ps' /\
    forall rs psm metadata,
      roots_wf rs psm -> extends (m_roots m') ps' rs psm -> metadata_edges metadata = [] ->
      codelocs_match 2 (codelocs (metadata_debuginfo (demo_method_t true) metadata)) = Ok true ->
      jl_uncompress_ir demo_runtime demo_nothing 41 (VSymbol 4) raced (with_roots (demo_method_t true) rs) metadata (IRString data) =
        Ok (IR (restored demo_nothing (VSymbol 4) (demo_method_t true) metadata demo_code), raced).
Proof.
  apply (codeinfo_roundtrip demo_runtime demo_runtime_ok None demo_nothing (VSymbol 4) 40 raced (demo_method_t true) None 3 [str_ab] []);
    [done | apply empty_roots_wf | constructor | apply demo_code_ok | done | vm_compute; congruence | vm_compute; lia | done].
Defined.

Lemma ir_accessors_correct_witness :
  exists data m',
    jl_compress_ir demo_runtime None demo_nothing 40 raced (demo_method_t false) (Some demo_code) 0 = Ok (data, m') /\
    jl_ir_flag_inlining (IRString data) = Ok 2 /\ jl_ir_nslots (IRString data) = Ok 1 /\ jl_ir_slotflag (IRString data) 0 = Ok 8.
Proof.
  destruct (ir_accessors_correct demo_runtime demo_runtime_ok None demo_nothing 40 raced (demo_method_t false) demo_code 0 [str_ab] [])
    as (data & m' & H1 & H2 & _ & _ & _ & _ & H6 & H7);
    [done | apply empty_roots_wf | constructor | apply demo_code_ok | done | done | vm_compute; congruence | vm_compute; lia | done |].
  exists data, m'. split; [exact H1 |]. split; [exact H2 |]. split; [exact H6 |]. rewrite H7 by done. reflexivity.
Defined.
