(* ===== verification/Ios.v ===== *)
(** * Memory streams (support/ios.c)

    An [ios_t] in mode [bm_mem] is a growing buffer with a position.  The
    buffer starts as the 83 bytes inside the structure, moves to the heap when
    it has to grow, or belongs to the caller.  A byte that was never written
    is [None].  [alloc_ok] says for which sizes the allocator succeeds.  Only
    the branches for memory streams are modelled: the others go through a file
    descriptor. *)

From stdpp Require Import base numbers option list.
From Stdlib Require Import ZArith Lia.
From S2P Require Import Prelude.

Inductive bufstate_t := bst_none | bst_rd | bst_wr.

#[global] Instance bufstate_eq_dec : EqDecision bufstate_t.
Proof. solve_decision. Defined.

(** [buf] is [None] for [NULL]; [maxsize] is its length.  [is_local] is
    [s->buf == &s->local[0]]. *)
Record ios_t := Ios {
  buf : option (list (option Z));
  is_local : bool;
  state : bufstate_t;
  size : Z;
  bpos : Z;
  ndirty : Z;
  lineno : Z;
  u_colno : Z;
  ownbuf : bool;
  eof : bool;
  readable : bool;
  writable : bool;
  growable : bool
}.

Definition IOS_INLSIZE : Z := 83.
Definition IOS_BUFSIZE : Z := 32768.
Definition IOS_EOF : Z := -1.

Definition bytes (s : ios_t) : list (option Z) := default [] (buf s).
Definition maxsize (s : ios_t) : Z := Z.of_nat (length (bytes s)).

Definition set_buf (s : ios_t) (b : option (list (option Z))) (local own : bool) : ios_t :=
  Ios b local (state s) (size s) (bpos s) (ndirty s) (lineno s) (u_colno s) own (eof s) (readable s) (writable s) (growable s).
Definition set_bytes (s : ios_t) (b : list (option Z)) : ios_t := set_buf s (Some b) (is_local s) (ownbuf s).
Definition set_size (s : ios_t) (n : Z) : ios_t :=
  Ios (buf s) (is_local s) (state s) n (bpos s) (ndirty s) (lineno s) (u_colno s) (ownbuf s) (eof s) (readable s) (writable s) (growable s).
Definition set_bpos (s : ios_t) (n : Z) : ios_t :=
  Ios (buf s) (is_local s) (state s) (size s) n (ndirty s) (lineno s) (u_colno s) (ownbuf s) (eof s) (readable s) (writable s) (growable s).
Definition set_ndirty (s : ios_t) (n : Z) : ios_t :=
  Ios (buf s) (is_local s) (state s) (size s) (bpos s) n (lineno s) (u_colno s) (ownbuf s) (eof s) (readable s) (writable s) (growable s).
Definition set_state (s : ios_t) (st : bufstate_t) : ios_t :=
  Ios (buf s) (is_local s) st (size s) (bpos s) (ndirty s) (lineno s) (u_colno s) (ownbuf s) (eof s) (readable s) (writable s) (growable s).
Definition set_eof (s : ios_t) (e : bool) : ios_t :=
  Ios (buf s) (is_local s) (state s) (size s) (bpos s) (ndirty s) (lineno s) (u_colno s) (ownbuf s) e (readable s) (writable s) (growable s).
Definition set_lines (s : ios_t) (l c : Z) : ios_t :=
  Ios (buf s) (is_local s) (state s) (size s) (bpos s) (ndirty s) l c (ownbuf s) (eof s) (readable s) (writable s) (growable s).
Definition set_writable (s : ios_t) (w : bool) : ios_t :=
  Ios (buf s) (is_local s) (state s) (size s) (bpos s) (ndirty s) (lineno s) (u_colno s) (ownbuf s) (eof s) (readable s) w (growable s).

(** [memcpy(b + pos, data, length data)]. *)
Definition blit (b : list (option Z)) (pos : Z) (data : list (option Z)) : outcome (list (option Z)) :=
  if (0 <=? pos) && (pos + Z.of_nat (length data) <=? Z.of_nat (length b))
  then Ok (take (Z.to_nat pos) b ++ data ++ drop (Z.to_nat pos + length data) b) else UB.

(** The [n] bytes from [pos] on. *)
Definition peek (b : list (option Z)) (pos n : Z) : outcome (list (option Z)) :=
  if (0 <=? pos) && (0 <=? n) && (pos + n <=? Z.of_nat (length b))
  then Ok (take (Z.to_nat n) (drop (Z.to_nat pos) b)) else UB.

Section Ios.
Context (alloc_ok : Z -> bool).

Definition uninit (n : Z) : list (option Z) := replicate (Z.to_nat n) None.

(** [false] when the buffer could not be made that large. *)
Definition _buf_realloc (s : ios_t) (sz : Z) : outcome (bool * ios_t) :=
  if (match buf s with None => true | Some _ => is_local s end) && (sz <=? IOS_INLSIZE) then
    let b := match buf s with None => uninit IOS_INLSIZE | Some b => b end in
    Ok (true, set_buf s (Some b) true true)
  else if sz <=? maxsize s then Ok (true, s)
  else if negb (growable s) then Ok (false, s)
  else if negb (alloc_ok sz) then Ok (false, s)
  else if ownbuf s && negb (match buf s with None => false | Some _ => is_local s end) then
    Ok (true, set_buf s (Some (bytes s ++ uninit (sz - maxsize s))) false (ownbuf s))
  else
    let! data := if 0 <? size s then peek (bytes s) 0 (size s) else Ok [] in
    Ok (true, set_buf s (Some (data ++ uninit (sz - Z.of_nat (length data)))) false true).

(** [while (s->bpos + n > newsize) newsize *= 2;] *)
Fixpoint double_until (fuel : nat) (want newsize : Z) : outcome Z :=
  if want <=? newsize then Ok newsize
  else match fuel with O => Timeout | S fuel' => double_until fuel' want (u64 (newsize * 2)) end.

(** Makes room for [n] bytes at the position and moves the end of the valid
    bytes; [false] when the buffer cannot grow. *)
Definition write_room (s : ios_t) (n : Z) : outcome (bool * ios_t) :=
  if size s <? bpos s + n then
    let! (ok, s) :=
      if maxsize s <? bpos s + n then
        let! newsize := double_until 64 (bpos s + n) (if negb (maxsize s =? 0) then maxsize s * 2 else 8) in
        _buf_realloc s newsize
      else Ok (true, s) in
    Ok (ok, if (ok : bool) then set_size s (bpos s + n) else s)
  else Ok (true, s).

Definition _write_grow (s : ios_t) (data : list (option Z)) : outcome (Z * ios_t) :=
  let n := Z.of_nat (length data) in
  if n =? 0 then Ok (0, s)
  else
    let! (ok, s) := write_room s n in
    if (ok : bool) then
      let! b := blit (bytes s) (bpos s) data in
      Ok (n, set_bpos (set_bytes s b) (bpos s + n))
    else
      (* no more space; write as much as we can *)
      let amt := maxsize s - bpos s in
      let! s := if 0 <? amt then let! b := blit (bytes s) (bpos s) (take (Z.to_nat amt) data) in Ok (set_bytes s b) else Ok s in
      Ok (amt, set_size (set_bpos s (bpos s + amt)) (maxsize s)).

Definition _write_update_pos (s : ios_t) : ios_t :=
  let s := if ndirty s <? bpos s then set_ndirty s (bpos s) else s in
  if size s <? bpos s then set_size s (bpos s) else s.

Definition ios_pos (s : ios_t) : Z := bpos s.

Definition ios_seek (s : ios_t) (pos : Z) : Z * ios_t :=
  let s := set_eof s false in
  if (pos <? 0) || (size s <? pos) then (-2, s) else (0, set_bpos s pos).

Definition ios_seek_end (s : ios_t) : Z * ios_t := (0, set_bpos (set_eof s true) (size s)).

Definition ios_skip (s : ios_t) (offs : Z) : Z * ios_t :=
  if offs =? 0 then (0, s)
  else if 0 <? offs then
    if offs <=? size s - bpos s then (0, set_bpos s (bpos s + offs)) else (-2, s)
  else if - offs <=? bpos s then (0, set_eof (set_bpos s (bpos s + offs)) false)
  else (-2, s).

(** The number of bytes read, and the bytes. *)
Definition _ios_read (s : ios_t) (n : Z) : outcome (Z * list (option Z) * ios_t) :=
  let s := if bool_decide (state s = bst_wr) then (ios_seek s (ios_pos s)).2 else s in
  let s := set_state s bst_rd in
  if n =? 0 then Ok (0, [], s)
  else
    let avail := size s - bpos s in
    let! (data, s) :=
      if 0 <? avail then
        let ncopy := if n <=? avail then n else avail in
        let! data := peek (bytes s) (bpos s) ncopy in
        Ok (data, set_bpos s (bpos s + ncopy))
      else Ok ([], s) in
    if n <=? avail then Ok (n, data, s)
    else Ok (avail, data, if avail =? 0 then set_eof s true else s).

Definition ios_read (s : ios_t) (n : Z) : outcome (Z * list (option Z) * ios_t) := _ios_read s n.
Definition ios_readall (s : ios_t) (n : Z) : outcome (Z * list (option Z) * ios_t) := _ios_read s n.

Definition ios_readprep (s : ios_t) (n : Z) : Z * ios_t := (size s - bpos s, set_state s bst_rd).

Definition ios_fillbuf (s : ios_t) : Z * ios_t :=
  let nb := maxsize s - bpos s in
  let (got, s) := ios_readprep s nb in
  (if got <? nb then got else -1, s).

Definition ios_write (s : ios_t) (data : list (option Z)) : outcome (Z * ios_t) :=
  if negb (writable s) then Ok (0, s)
  else if Z.of_nat (length data) =? 0 then Ok (0, s)
  else
    let s := if bool_decide (state s = bst_rd) then (ios_seek s (ios_pos s)).2 else s in
    let s := set_state s bst_wr in
    let! (wrote, s) := _write_grow s data in
    Ok (wrote, _write_update_pos s).

Definition ios_trunc (s : ios_t) (sz : Z) : outcome (Z * ios_t) :=
  if sz =? size s then Ok (0, s)
  else if sz <? size s then
    Ok (0, set_size (if sz <? bpos s then set_bpos s sz else s) sz)
  else
    let! (ok, s) := _buf_realloc s sz in
    Ok (0, if (ok : bool) then set_size s sz else s).

Definition ios_eof (s : ios_t) : bool :=
  if bool_decide (state s = bst_rd) && (bpos s <? size s) then false else eof s.

Definition ios_eof_blocking (s : ios_t) : bool :=
  if bool_decide (state s = bst_rd) && (bpos s <? size s) then false else eof s.

(** Resets only streams with a descriptor. *)
Definition ios_reseteof (s : ios_t) : ios_t := s.

(** Nothing leaves a memory stream. *)
Definition ios_flush (s : ios_t) : Z * ios_t := (0, s).

Definition ios_close (s : ios_t) : Z * ios_t :=
  (0, set_bpos (set_size (set_buf s None false (ownbuf s)) 0) 0).

(** [_buf_init(s, bm_mem)]; the bytes of the inline buffer are whatever they
    were. *)
Definition _buf_init (s : ios_t) : ios_t :=
  set_bpos (set_size (set_buf s (Some (uninit IOS_INLSIZE)) true (ownbuf s)) 0) 0.

(** The bytes with the terminator, [None] if the allocation fails; [*psize] is
    [size + 1]. *)
Definition ios_take_buffer (s : ios_t) : outcome (option (list (option Z)) * Z * ios_t) :=
  let null := match buf s with None => true | Some _ => is_local s end in
  let! b :=
    if null || (negb (ownbuf s) && (size s =? maxsize s)) then
      if negb (alloc_ok (size s + 1)) then Ok None
      else let! data := peek (bytes s) 0 (size s) in Ok (Some (data ++ [None]))
    else if size s =? maxsize s then
      if negb (alloc_ok (size s + 1)) then Ok None else Ok (Some (bytes s ++ [None]))
    else Ok (Some (bytes s)) in
  match b with
  | None => Ok (None, 0, s)
  | Some b =>
      let! b := blit b (size s) [Some 0] in
      Ok (Some b, size s + 1, _buf_init s)
  end.

(** [newbuf] is the caller's buffer, of the given size. *)
Definition ios_setbuf (s : ios_t) (newbuf : list (option Z)) (own : bool) : outcome (Z * ios_t) :=
  let sz := Z.of_nat (length newbuf) in
  let nvalid := if sz <? size s then sz else size s in
  let! b := if 0 <? nvalid then let! data := peek (bytes s) 0 nvalid in blit newbuf 0 data else Ok newbuf in
  let s := if nvalid <? bpos s then set_bpos s nvalid else s in
  Ok (0, set_buf (set_size s nvalid) (Some b) false own).

Definition ios_set_readonly (s : ios_t) : ios_t :=
  if negb (writable s) then s else set_writable (set_state s bst_none) false.

(** [_ios_init] and [s->bm = bm_mem]. *)
Definition _ios_init : ios_t := Ios None false bst_none 0 0 0 1 0 true false true true true.

Definition ios_mem (initsize : Z) : outcome ios_t :=
  let! (_, s) := _buf_realloc _ios_init initsize in Ok s.

Definition ios_static_buffer (b : list (option Z)) : outcome ios_t :=
  let! s := ios_mem 0 in
  let! (_, s) := ios_setbuf s b false in
  Ok (ios_set_readonly (set_size s (Z.of_nat (length b)))).

(** ** Characters *)

Definition ios_putc (c : Z) (s : ios_t) : outcome (Z * ios_t) :=
  let ch := Some (u8 c) in
  if bool_decide (state s = bst_wr) && (bpos s <? maxsize s) then
    let! b := blit (bytes s) (bpos s) [ch] in
    Ok (1, _write_update_pos (set_bpos (set_bytes s b) (bpos s + 1)))
  else ios_write s [ch].

(** A byte that was never written has no value to return. *)
Definition known (c : option Z) : outcome Z := match c with Some c => Ok c | None => UB end.

Definition ios_getc (s : ios_t) : outcome (Z * ios_t) :=
  let! (r, s) :=
    if bool_decide (state s = bst_rd) && (bpos s <? size s) then
      let! c := rd (bytes s) (bpos s) in Ok (Some c, set_bpos s (bpos s + 1))
    else if eof s then Ok (None, s)
    else
      let! (n, data, s) := ios_read s 1 in
      Ok (if n <? 1 then None else data !! 0%nat, s) in
  match r with
  | None => Ok (IOS_EOF, s)
  | Some c =>
      let! c := known c in
      Ok (c, if c =? 10 then set_lines s (u64 (lineno s + 1)) (u_colno s) else s)
  end.

Definition ios_peekc (s : ios_t) : outcome (Z * ios_t) :=
  if bpos s <? size s then let! c := rd (bytes s) (bpos s) in let! c := known c in Ok (c, s)
  else if eof s then Ok (IOS_EOF, s)
  else
    let (n, s) := ios_readprep s 1 in
    if n =? 0 then Ok (IOS_EOF, s)
    else let! c := rd (bytes s) (bpos s) in let! c := known c in Ok (c, s).

Definition ios_ungetc (c : Z) (s : ios_t) : outcome (Z * ios_t) :=
  if bool_decide (state s = bst_wr) then Ok (IOS_EOF, s)
  else
    let s := set_lines s (if c =? 10 then u64 (lineno s - 1) else lineno s) (if 0 <? u_colno s then u_colno s - 1 else u_colno s) in
    if 0 <? bpos s then
      let s := set_bpos s (bpos s - 1) in
      let! b := blit (bytes s) (bpos s) [Some (u8 c)] in
      Ok (c, set_eof (set_bytes s b) false)
    else
      let! (ok, s) := if size s =? maxsize s then _buf_realloc s (maxsize s * 2) else Ok (true, s) in
      if (ok : bool) then
        let! data := peek (bytes s) 0 (size s) in
        let! b := blit (bytes s) 1 data in
        let! b := blit b 0 [Some (u8 c)] in
        Ok (c, set_eof (set_size (set_bytes s b) (size s + 1)) false)
      else Ok (IOS_EOF, s).

Definition ios_purge (s : ios_t) : ios_t := if bool_decide (state s = bst_rd) then set_bpos s (size s) else s.

(** ** Copying *)

(** The loop of [ios_copy_]; one round moves everything that is there. *)
Fixpoint copy_loop (fuel : nat) (to from : ios_t) (nbytes total : Z) (all : bool) : outcome (Z * ios_t * ios_t) :=
  match fuel with
  | O => Timeout
  | S fuel' =>
      let (avail, from) := ios_readprep from (IOS_BUFSIZE / 2) in
      if avail =? 0 then Ok (total, to, set_eof from true)
      else
        let ntowrite := if (avail <=? nbytes) || all then avail else nbytes in
        let! data := peek (bytes from) (bpos from) ntowrite in
        let! (written, to) := ios_write to data in
        let from := set_bpos from (bpos from + ntowrite) in
        let total := total + written in
        let nbytes := if all then nbytes else u64 (nbytes - written) in
        if negb all && (nbytes =? 0) then Ok (total, to, from)
        else if written <? ntowrite then Ok (total, to, from)
        else if negb (ios_eof from) then copy_loop fuel' to from nbytes total all
        else Ok (total, to, from)
  end.

Definition ios_copy_ (to from : ios_t) (nbytes : Z) (all : bool) : outcome (Z * ios_t * ios_t) :=
  if ios_eof from then Ok (0, to, from) else copy_loop 2 to from nbytes 0 all.

Definition ios_copy (to from : ios_t) (nbytes : Z) : outcome (Z * ios_t * ios_t) := ios_copy_ to from nbytes false.
Definition ios_copyall (to from : ios_t) : outcome (Z * ios_t * ios_t) := ios_copy_ to from 0 true.

(** [memchr]: the distance to the first occurrence. *)
Fixpoint memchr (data : list (option Z)) (delim : Z) : outcome (option Z) :=
  match data with
  | [] => Ok None
  | c :: data =>
      let! c := known c in
      if c =? delim then Ok (Some 0) else let! r := memchr data delim in Ok (Z.succ <$> r)
  end.

Fixpoint copyuntil_loop (fuel : nat) (to from : ios_t) (delim : Z) (keep : bool) (total avail : Z)
    : outcome (Z * ios_t * ios_t) :=
  match fuel with
  | O => Timeout
  | S fuel' =>
      if ios_eof from then Ok (total, to, set_eof from true)
      else
        let '(avail, from) := if avail =? 0 then ios_readprep from 160 else (avail, from) in
        if avail =? 0 then Ok (total, to, set_eof from true)
        else
          let! data := peek (bytes from) (bpos from) avail in
          let! pd := memchr data delim in
          match pd with
          | None =>
              let! (written, to) := ios_write to data in
              copyuntil_loop fuel' to (set_bpos from (bpos from + avail)) delim keep (total + written) 0
          | Some d =>
              let ntowrite := d + (if keep then 1 else 0) in
              let! (written, to) := ios_write to (take (Z.to_nat ntowrite) data) in
              Ok (total + written, to, set_bpos from (bpos from + (ntowrite + (if keep then 0 else 1))))
          end
  end.

Definition ios_copyuntil (to from : ios_t) (delim : Z) (keep : bool) : outcome (Z * ios_t * ios_t) :=
  copyuntil_loop 3 to from delim keep 0 (size from - bpos from).

Definition ios_nchomp (from : ios_t) (ntowrite : Z) : outcome Z :=
  if ntowrite <=? 0 then UB
  else if 1 <? ntowrite then
    let! c := rd (bytes from) (bpos from + ntowrite - 2) in
    let! c := known c in Ok (if c =? 13 then 2 else 1)
  else Ok 1.

(** The line with its terminator. *)
Definition ios_readline (s : ios_t) : outcome (option (list (option Z)) * ios_t) :=
  let! dest := ios_mem 0 in
  let! (_, dest, s) := ios_copyuntil dest s 10 true in
  let! (ret, _, _) := ios_take_buffer dest in
  Ok (ret, s).
End Ios.
