(* ===== verification/IosFacts.v ===== *)
(** * Memory streams implement files

    A file is its bytes and a position; where the bytes lie and how much room
    there is does not show.  Every operation on a growable memory stream does
    what the operation on the file does. *)

From Stdlib Require Import ZArith Lia.
From stdpp Require Import base numbers option list.
From S2P Require Import Prelude Ios.

(** ** Files *)

Record file := File {
  contents : list (option Z);
  pos : Z;
  fstate : bufstate_t;
  feof : bool;
  flineno : Z;
  fcolno : Z
}.

Definition flen (f : file) : Z := Z.of_nat (length (contents f)).
Definition with_pos (f : file) (p : Z) (e : bool) : file := File (contents f) p (fstate f) e (flineno f) (fcolno f).
Definition with_contents (f : file) (c : list (option Z)) : file := File c (pos f) (fstate f) (feof f) (flineno f) (fcolno f).
Definition in_state (f : file) (st : bufstate_t) (e : bool) : file := File (contents f) (pos f) st e (flineno f) (fcolno f).
Definition with_lines (f : file) (l c : Z) : file := File (contents f) (pos f) (fstate f) (feof f) l c.

(** Switching between reading and writing clears the end-of-file mark. *)
Definition switch (f : file) (st : bufstate_t) : file :=
  in_state f st (if bool_decide (fstate f = bst_none) || bool_decide (fstate f = st) then feof f else false).

(** [data] over what is at the position, and beyond the end if need be. *)
Definition overwrite (c : list (option Z)) (p : Z) (data : list (option Z)) : list (option Z) :=
  take (Z.to_nat p) c ++ data ++ drop (Z.to_nat p + length data) c.

Inductive op :=
| Write (data : list (option Z)) | Read (n : Z) | Putc (c : Z) | Getc | Peekc | Ungetc (c : Z)
| Seek (p : Z) | SeekEnd | Skip (offs : Z) | Trunc (n : Z) | Purge | Eof.

(** The result: a number and, for [Read], the bytes. *)
Definition result : Type := Z * list (option Z).

Definition fwrite (f : file) (data : list (option Z)) : result * file :=
  let n := Z.of_nat (length data) in
  if n =? 0 then ((0, []), f)
  else
    let f := switch f bst_wr in
    ((n, []), with_pos (with_contents f (overwrite (contents f) (pos f) data)) (pos f + n) (feof f)).

Definition fread (f : file) (n : Z) : result * file :=
  let f := switch f bst_rd in
  let avail := flen f - pos f in
  let got := if n <=? avail then n else avail in
  ((got, take (Z.to_nat n) (drop (Z.to_nat (pos f)) (contents f))),
   with_pos f (pos f + got) (if (0 <? n) && (avail =? 0) then true else feof f)).

Definition count_line (f : file) (c : Z) : file := if c =? 10 then with_lines f (u64 (flineno f + 1)) (fcolno f) else f.

Definition fgetc (f : file) : outcome (result * file) :=
  if pos f <? flen f then
    if bool_decide (fstate f = bst_rd) || negb (feof f) then
      let! c := rd (contents f) (pos f) in
      let! c := known c in
      let f := switch f bst_rd in
      Ok ((c, []), count_line (with_pos f (pos f + 1) (feof f)) c)
    else Ok ((IOS_EOF, []), f)
  else if feof f then Ok ((IOS_EOF, []), f)
  else Ok ((IOS_EOF, []), in_state f bst_rd true).

Definition fungetc (f : file) (c : Z) : result * file :=
  if bool_decide (fstate f = bst_wr) then ((IOS_EOF, []), f)
  else
    let f := with_lines f (if c =? 10 then u64 (flineno f - 1) else flineno f) (if 0 <? fcolno f then fcolno f - 1 else fcolno f) in
    if 0 <? pos f then
      ((c, []), with_pos (with_contents f (overwrite (contents f) (pos f - 1) [Some (u8 c)])) (pos f - 1) false)
    else ((c, []), with_pos (with_contents f (Some (u8 c) :: contents f)) (pos f) false).

Definition fseek (f : file) (p : Z) : result * file :=
  if (p <? 0) || (flen f <? p) then ((-2, []), with_pos f (pos f) false) else ((0, []), with_pos f p false).

Definition fskip (f : file) (offs : Z) : result * file :=
  if offs =? 0 then ((0, []), f)
  else if (pos f + offs <? 0) || (flen f <? pos f + offs) then ((-2, []), f)
  else ((0, []), with_pos f (pos f + offs) (if 0 <? offs then feof f else false)).

(** The bytes a longer file would have are not specified. *)
Definition ftrunc (f : file) (n : Z) : outcome (result * file) :=
  if (0 <=? n) && (n <=? flen f) then
    Ok ((0, []), with_pos (with_contents f (take (Z.to_nat n) (contents f))) (Z.min (pos f) n) (feof f))
  else UB.

Definition spec_op (f : file) (o : op) : outcome (result * file) :=
  match o with
  | Write data => Ok (fwrite f data)
  | Read n => if n <? 0 then UB else Ok (fread f n)
  | Putc c => Ok (fwrite f [Some (u8 c)])
  | Getc => fgetc f
  | Peekc =>
      if pos f <? flen f then let! c := rd (contents f) (pos f) in let! c := known c in Ok ((c, []), f)
      else if feof f then Ok ((IOS_EOF, []), f) else Ok ((IOS_EOF, []), in_state f bst_rd (feof f))
  | Ungetc c => Ok (fungetc f c)
  | Seek p => Ok (fseek f p)
  | SeekEnd => Ok ((0, []), with_pos f (flen f) true)
  | Skip offs => Ok (fskip f offs)
  | Trunc n => ftrunc f n
  | Purge => Ok ((0, []), if bool_decide (fstate f = bst_rd) then with_pos f (flen f) (feof f) else f)
  | Eof => Ok ((if bool_decide (fstate f = bst_rd) && (pos f <? flen f) then 0 else if feof f then 1 else 0, []), f)
  end.

Fixpoint spec_ops (f : file) (os : list op) : outcome (list result * file) :=
  match os with
  | [] => Ok ([], f)
  | o :: os => let! (r, f) := spec_op f o in let! (rs, f) := spec_ops f os in Ok (r :: rs, f)
  end.

(** ** Streams *)

Section Streams.
Context (alloc_ok : Z -> bool).

Definition run_op (s : ios_t) (o : op) : outcome (result * ios_t) :=
  match o with
  | Write data => let! (n, s) := ios_write alloc_ok s data in Ok ((n, []), s)
  | Read n => let! (n, data, s) := ios_read s n in Ok ((n, data), s)
  | Putc c => let! (n, s) := ios_putc alloc_ok c s in Ok ((n, []), s)
  | Getc => let! (c, s) := ios_getc s in Ok ((c, []), s)
  | Peekc => let! (c, s) := ios_peekc s in Ok ((c, []), s)
  | Ungetc c => let! (c, s) := ios_ungetc alloc_ok c s in Ok ((c, []), s)
  | Seek p => let (r, s) := ios_seek s p in Ok ((r, []), s)
  | SeekEnd => let (r, s) := ios_seek_end s in Ok ((r, []), s)
  | Skip offs => let (r, s) := ios_skip s offs in Ok ((r, []), s)
  | Trunc n => let! (r, s) := ios_trunc alloc_ok s n in Ok ((r, []), s)
  | Purge => Ok ((0, []), ios_purge s)
  | Eof => Ok ((if ios_eof s then 1 else 0, []), s)
  end.

(** A stream made by [ios_mem]. *)
Record wf (s : ios_t) : Prop := {
  wf_growable : growable s = true;
  wf_writable : writable s = true;
  wf_bpos : 0 <= bpos s <= size s;
  wf_size : size s <= maxsize s /\ 0 < maxsize s;
  wf_local : is_local s = true -> maxsize s = IOS_INLSIZE;
  wf_null : buf s <> None
}.

Definition abs (s : ios_t) : file :=
  File (take (Z.to_nat (size s)) (bytes s)) (bpos s) (state s) (eof s) (lineno s) (u_colno s).

(** [wf] of a stream with updated fields. *)
Ltac solve_wf := split; unfold maxsize, bytes in *; cbn; try done; lia.

Lemma flen_abs s : wf s -> flen (abs s) = size s.
Proof. intros [_ _ Hb Hs _ _]. unfold flen, maxsize in *. cbn. rewrite length_take. lia. Qed.

Lemma peek_abs s p n : wf s -> 0 <= p -> 0 <= n -> p + n <= size s ->
  peek (bytes s) p n = Ok (take (Z.to_nat n) (drop (Z.to_nat p) (contents (abs s)))).
Proof.
  intros [_ _ Hb Hs _ _] Hp Hn Hle. unfold peek, maxsize in *. cbn.
  rewrite !(proj2 (Z.leb_le _ _)) by lia. cbn [andb].
  by rewrite skipn_firstn_comm, take_take, Nat.min_l by lia.
Qed.

Lemma rd_abs s p : wf s -> 0 <= p < size s -> rd (bytes s) p = rd (contents (abs s)) p.
Proof. intros Hw Hp. unfold rd. cbn. rewrite (proj2 (Z.ltb_ge _ _)) by lia. by rewrite lookup_take_lt by lia. Qed.

(** ** Growth *)

Context (Halloc : forall n, alloc_ok n = true).

(** [s'] differs from [s] in where the bytes lie. *)
Definition moved (s s' : ios_t) : Prop :=
  s' = set_buf s (buf s') (is_local s') (ownbuf s') /\ take (Z.to_nat (size s)) (bytes s') = take (Z.to_nat (size s)) (bytes s).

Lemma length_uninit n : 0 <= n -> Z.of_nat (length (uninit n)) = n.
Proof. intros Hn. unfold uninit. rewrite length_replicate. lia. Qed.

(** Another buffer with the same valid bytes. *)
Lemma relocated s b loc own :
  wf s -> take (Z.to_nat (size s)) b = take (Z.to_nat (size s)) (bytes s) -> size s <= Z.of_nat (length b) -> 0 < Z.of_nat (length b) ->
  (loc = true -> Z.of_nat (length b) = IOS_INLSIZE) ->
  moved s (set_buf s (Some b) loc own) /\ wf (set_buf s (Some b) loc own).
Proof. intros [Hg Hwr Hb Hs Hl Hn] Ht Hlen H0 Hloc. split; [done |]. split; unfold maxsize; cbn; try done; lia. Qed.

Lemma copied s sz : wf s -> maxsize s <= sz ->
  (if 0 <? size s then peek (bytes s) 0 (size s) else Ok []) = Ok (take (Z.to_nat (size s)) (bytes s)) /\
  let data := take (Z.to_nat (size s)) (bytes s) in let b := data ++ uninit (sz - Z.of_nat (length data)) in
  Z.of_nat (length b) = sz /\ take (Z.to_nat (size s)) b = data.
Proof.
  intros [_ _ Hb Hs _ _] Hsz. unfold maxsize in *. split.
  - destruct (Z.ltb_spec 0 (size s)) as [H0 | H0].
    + unfold peek. rewrite !(proj2 (Z.leb_le _ _)) by lia. cbn. by rewrite drop_0.
    + replace (size s) with 0 by lia. done.
  - cbv zeta. set (data := take (Z.to_nat (size s)) (bytes s)).
    assert (Hl : Z.of_nat (length data) = size s) by (unfold data; rewrite length_take; lia).
    split; [rewrite length_app, Nat2Z.inj_add, length_uninit; lia |]. apply take_app_length'. lia.
Qed.

Lemma buf_realloc_spec s sz : wf s -> maxsize s <= sz ->
  exists s', _buf_realloc alloc_ok s sz = Ok (true, s') /\ moved s s' /\ sz <= maxsize s' /\ wf s'.
Proof.
  intros Hw Hsz. destruct (copied s sz Hw Hsz) as (Hcp & Hclen & Hct). pose proof Hw as [Hg Hwr Hb Hs Hl Hnull].
  unfold _buf_realloc. rewrite Hg, Halloc, Hcp. destruct (buf s) as [b |] eqn:Eb; [| done].
  assert (Hby : bytes s = b) by (unfold bytes; by rewrite Eb). cbn [negb obind].
  assert (Hnew : forall b' loc own, take (Z.to_nat (size s)) b' = take (Z.to_nat (size s)) (bytes s) -> sz <= Z.of_nat (length b') ->
    (loc = true -> Z.of_nat (length b') = IOS_INLSIZE) -> exists s', Ok (true, set_buf s (Some b') loc own) = Ok (true, s') /\
    moved s s' /\ sz <= maxsize s' /\ wf s').
  { intros b' loc own Ht Hlen Hloc. destruct (relocated s b' loc own Hw Ht ltac:(lia) ltac:(lia) Hloc). eexists. split; [done |]. by split_and!. }
  destruct ((is_local s) && (sz <=? IOS_INLSIZE)) eqn:Ec; [apply andb_prop in Ec as [El Ez%Z.leb_le] | clear Ec].
  { assert (Hm : maxsize s = Z.of_nat (length b)) by (unfold maxsize; by rewrite Hby).
    specialize (Hl El). apply Hnew; [by rewrite Hby | lia | lia]. }
  destruct (Z.leb_spec sz (maxsize s)); [exists s; split; [done |]; split; [split; [by destruct s | done] | done] |].
  destruct (ownbuf s && negb (is_local s)); apply Hnew; try done; try lia.
  - unfold maxsize in *. by rewrite take_app_le by lia.
  - rewrite length_app, Nat2Z.inj_add, length_uninit by lia. unfold maxsize. lia.
Qed.

Lemma double_until_spec fuel want : forall n, 0 < n -> want < 2 ^ 62 -> n < 2 ^ 63 -> want <= n * 2 ^ Z.of_nat fuel ->
  exists r, double_until fuel want n = Ok r /\ want <= r /\ n <= r.
Proof.
  induction fuel as [| fuel IH]; intros n Hn Hw Hn2 Hle; cbn [double_until]; destruct (Z.leb_spec want n);
    try (exists n; split; [done | lia]).
  - change (2 ^ Z.of_nat 0) with 1 in Hle. lia.
  - rewrite u64_small by lia. destruct (IH (n * 2)) as (r & -> & H1 & H2); [lia | lia | lia | | exists r; split; [done | lia]].
    rewrite Nat2Z.inj_succ, Z.pow_succ_r in Hle by lia. nia.
Qed.

(** ** Writing *)

Lemma blit_spec (bs data : list (option Z)) p sz : let n := Z.of_nat (length data) in
  0 <= p <= sz -> sz <= Z.of_nat (length bs) -> p + n <= Z.of_nat (length bs) ->
  exists b, blit bs p data = Ok b /\ length b = length bs /\
    take (Z.to_nat (Z.max sz (p + n))) b = overwrite (take (Z.to_nat sz) bs) p data.
Proof.
  intros n Hp Hs Hn. unfold blit. rewrite !(proj2 (Z.leb_le _ _)) by lia. cbn [andb].
  eexists. split; [reflexivity |]. split.
  { rewrite !length_app, length_take, length_drop. lia. }
  unfold overwrite. rewrite take_take, Nat.min_l by lia.
  set (q := Z.to_nat p). replace (Z.to_nat (Z.max sz (p + n))) with (q + (length data + (Z.to_nat sz - (q + length data))))%nat by lia.
  rewrite take_app_add' by (rewrite length_take; lia). f_equal. rewrite take_app_add. f_equal.
  rewrite skipn_firstn_comm. done.
Qed.

(** Room for [n] bytes at the position. *)
Lemma grow_spec s n : wf s -> 0 < n -> bpos s + n < 2 ^ 62 ->
  exists s', (if maxsize s <? bpos s + n then
                let! newsize := double_until 64 (bpos s + n) (if negb (maxsize s =? 0) then maxsize s * 2 else 8) in
                _buf_realloc alloc_ok s newsize
              else Ok (true, s)) = Ok (true, s') /\ moved s s' /\ bpos s + n <= maxsize s' /\ wf s'.
Proof.
  intros Hw Hn Hlt. pose proof Hw as [_ _ Hb Hs _ _]. destruct (Z.ltb_spec (maxsize s) (bpos s + n)) as [Hm | Hm].
  - destruct (double_until_spec 64 (bpos s + n) (if negb (maxsize s =? 0) then maxsize s * 2 else 8)) as (r & -> & H1 & H2);
      try (destruct (Z.eqb_spec (maxsize s) 0); cbn [negb]; lia).
    cbn [obind]. destruct (buf_realloc_spec s r Hw ltac:(lia)) as (s' & -> & Hmv & Hsz & Hw'). exists s'. split_and!; try done; lia.
  - exists s. split_and!; try done; by destruct s.
Qed.

(** [s'] is [s] with another buffer and the end at [sz]. *)
Definition resized (s s' : ios_t) (sz : Z) : Prop :=
  s' = set_size (set_buf s (buf s') (is_local s') (ownbuf s')) sz /\
  take (Z.to_nat (size s)) (bytes s') = take (Z.to_nat (size s)) (bytes s).

Lemma write_room_spec s n : wf s -> 0 < n -> bpos s + n < 2 ^ 62 ->
  exists s', write_room alloc_ok s n = Ok (true, s') /\ resized s s' (Z.max (size s) (bpos s + n)) /\
    Z.max (size s) (bpos s + n) <= maxsize s' /\ wf s'.
Proof.
  intros Hw Hn Hlt. unfold write_room. destruct (grow_spec s n Hw Hn Hlt) as (s1 & -> & [Hmv Ht] & Hroom & Hw1).
  pose proof Hw as [W1 W2 W3 W4 W5 W6]. destruct (Z.ltb_spec (size s) (bpos s + n)) as [Hsz | Hsz]; cbn [obind].
  - eexists. split; [reflexivity |]. destruct Hw1 as [K1 K2 K3 K4 K5 K6]. rewrite Z.max_r by lia.
    assert (Hb : bpos s1 = bpos s) by (by rewrite Hmv). rewrite Hb in *. split; [split; [by rewrite Hmv | done] |].
    split; [exact Hroom |]. solve_wf.
  - exists s. split; [done |]. rewrite Z.max_l by lia. split; [split; [by destruct s | done] | split; [lia | done]].
Qed.

Lemma write_grow_spec s data : wf s -> data <> [] -> bpos s + Z.of_nat (length data) < 2 ^ 62 ->
  exists s', _write_grow alloc_ok s data = Ok (Z.of_nat (length data), s') /\ wf s' /\ ndirty s' = ndirty s /\
    abs s' = with_pos (with_contents (abs s) (overwrite (contents (abs s)) (bpos s) data)) (bpos s + Z.of_nat (length data)) (eof s).
Proof.
  intros Hw Hd Hlt. set (n := Z.of_nat (length data)) in *. unfold _write_grow. fold n.
  assert (Hn : 0 < n) by (unfold n; destruct data; [done | cbn; lia]). rewrite (proj2 (Z.eqb_neq n 0)) by lia.
  destruct (write_room_spec s n Hw Hn Hlt) as (s1 & -> & [Hr Ht] & Hroom & Hw1). cbn [obind].
  assert (Hb1 : bpos s1 = bpos s) by (by rewrite Hr). assert (Hz1 : size s1 = Z.max (size s) (bpos s + n)) by (by rewrite Hr).
  pose proof Hw as [_ _ Hb Hs _ _]. rewrite Hb1.
  destruct (blit_spec (bytes s1) data (bpos s) (size s)) as (b & -> & Hlb & Htb); [done | unfold maxsize in *; lia | unfold maxsize in *; lia |].
  cbn [obind]. eexists. split; [reflexivity |]. destruct Hw1 as [K1 K2 K3 K4 K5 K6]. split; [| split; [by rewrite Hr |]].
  - split; unfold maxsize in *; cbn; rewrite ?Hlb; try done; lia.
  - unfold abs, with_pos, with_contents. cbn. fold n in Htb. rewrite Hz1, Htb, Ht. by rewrite Hr.
Qed.

(** ** Each operation *)

(** The stream does what the file does. *)
Definition simulates (o : outcome (result * ios_t)) (r : result) (f : file) : Prop :=
  exists s, o = Ok (r, s) /\ wf s /\ abs s = f.

Lemma abs_set_state s st : wf s -> wf (set_state s st) /\ abs (set_state s st) = in_state (abs s) st (eof s).
Proof. intros [H1 H2 H3 H4 H5 H6]. by split. Qed.

(** [if (state == other) ios_seek(s, ios_pos(s)); state = st]. *)
Lemma switch_abs s st other : wf s -> st <> bst_none -> other <> bst_none -> st <> other ->
  let s' := set_state (if bool_decide (state s = other) then (ios_seek s (ios_pos s)).2 else s) st in
  wf s' /\ abs s' = switch (abs s) st /\ bpos s' = bpos s /\ size s' = size s /\ writable s' = writable s.
Proof.
  intros Hw Hst Hot Hne s'. destruct Hw as [H1 H2 H3 H4 H5 H6]. subst s'. unfold ios_seek, ios_pos, switch. cbn [size set_eof].
  rewrite (proj2 (Z.ltb_ge (bpos s) 0)), (proj2 (Z.ltb_ge (size s) _)) by lia. cbn [orb snd abs fstate].
  destruct (state s) eqn:Es, st, other; try done; (split; [by split |]); split; try done; unfold abs, in_state; cbn; by rewrite ?Es.
Qed.

Lemma write_update_pos_abs s : wf s -> wf (_write_update_pos s) /\ abs (_write_update_pos s) = abs s.
Proof.
  intros [H1 H2 H3 H4 H5 H6]. unfold _write_update_pos.
  destruct (ndirty s <? bpos s); cbn [size bpos set_ndirty]; rewrite (proj2 (Z.ltb_ge _ _)) by lia; (split; [by split | done]).
Qed.

Lemma ios_write_sim s data : wf s -> bpos s + Z.of_nat (length data) < 2 ^ 62 ->
  simulates (let! (n, s) := ios_write alloc_ok s data in Ok ((n, []), s)) (fwrite (abs s) data).1 (fwrite (abs s) data).2.
Proof.
  intros Hw Hlt. unfold ios_write, fwrite. rewrite (wf_writable _ Hw). cbn [negb].
  destruct (Z.eqb_spec (Z.of_nat (length data)) 0) as [Hz | Hz]; [by exists s |].
  destruct (switch_abs s bst_wr bst_rd Hw) as (Hw1 & Ha1 & Hb1 & _); [done | done | done |].
  set (s1 := set_state _ bst_wr) in *.
  destruct (write_grow_spec s1 data Hw1) as (s2 & -> & Hw2 & _ & Ha2); [by intros -> | by rewrite Hb1 |]. cbn [obind].
  destruct (write_update_pos_abs s2 Hw2) as [Hw3 Ha3]. exists (_write_update_pos s2). split; [done |]. split; [done |].
  rewrite Ha3, Ha2. cbn [snd]. by rewrite <- Ha1.
Qed.

Lemma ios_read_sim s n : wf s -> 0 <= n ->
  simulates (let! (n, data, s) := ios_read s n in Ok ((n, data), s)) (fread (abs s) n).1 (fread (abs s) n).2.
Proof.
  intros Hw Hn. unfold ios_read, _ios_read, fread.
  destruct (switch_abs s bst_rd bst_wr Hw) as (Hw1 & Ha1 & Hb1 & Hs1 & _); [done | done | done |].
  set (s1 := set_state _ bst_rd) in *. rewrite <- Ha1. clearbody s1. pose proof Hw1 as [K1 K2 K3 K4 K5 K6].
  rewrite (flen_abs s1 Hw1). cbn [pos abs fst snd].
  destruct (Z.eqb_spec n 0) as [-> | Hn0].
  { rewrite (proj2 (Z.leb_le 0 _)) by lia. cbn. exists s1. split; [done |]. split; [done |]. by rewrite Z.add_0_r. }
  assert (Hdata : forall k, 0 <= k <= size s1 - bpos s1 -> wf (set_bpos s1 (bpos s1 + k)) /\
    abs (set_bpos s1 (bpos s1 + k)) = with_pos (abs s1) (bpos s1 + k) (eof s1)).
  { intros k Hk. split; [split; cbn; try done; lia | done]. }
  rewrite (proj2 (Z.ltb_lt 0 n)) by lia. cbn [andb].
  destruct (Z.leb_spec n (size s1 - bpos s1)) as [Hle | Hgt].
  - rewrite (proj2 (Z.ltb_lt 0 _)) by lia. rewrite peek_abs by (done || lia). cbn [obind].
    destruct (Hdata n ltac:(lia)) as [Hw2 Ha2]. eexists. split; [reflexivity |]. split; [done |].
    rewrite (proj2 (Z.eqb_neq _ 0)) by lia. done.
  - destruct (Z.ltb_spec 0 (size s1 - bpos s1)).
    + rewrite peek_abs by (done || lia). cbn [obind]. rewrite (proj2 (Z.eqb_neq _ 0)) by lia.
      destruct (Hdata (size s1 - bpos s1) ltac:(lia)) as [Hw2 Ha2]. eexists. split; [| split; [exact Hw2 | done]].
      do 3 f_equal. cbn [contents abs]. unfold maxsize in *. rewrite (take_ge _ (Z.to_nat (size s1 - bpos s1))), (take_ge _ (Z.to_nat n)) by (rewrite length_drop, length_take; lia). done.
    + replace (size s1 - bpos s1) with 0 by lia. cbn [obind Z.eqb]. exists (set_eof s1 true). rewrite Z.add_0_r. split.
      * do 3 f_equal. cbn. rewrite drop_ge by (rewrite length_take; lia). by rewrite take_nil.
      * split; [by split | done].
Qed.

Lemma ios_putc_sim s c : wf s -> bpos s + 1 < 2 ^ 62 ->
  simulates (let! (n, s) := ios_putc alloc_ok c s in Ok ((n, []), s)) (fwrite (abs s) [Some (u8 c)]).1 (fwrite (abs s) [Some (u8 c)]).2.
Proof.
  intros Hw Hlt. unfold ios_putc. destruct (bool_decide _ && _) eqn:Ef; [| by apply ios_write_sim].
  apply andb_prop in Ef as [Est%bool_decide_eq_true Hr%Z.ltb_lt]. pose proof Hw as [H1 H2 H3 H4 H5 H6].
  destruct (blit_spec (bytes s) [Some (u8 c)] (bpos s) (size s)) as (b & -> & Hlb & Htb); [done | apply H4 | unfold maxsize in *; cbn; lia |].
  cbn [obind fwrite length Z.of_nat Pos.of_succ_nat Z.eqb fst snd] in *. eexists. split; [reflexivity |].
  set (s1 := set_bpos (set_bytes s b) (bpos s + 1)). set (s2 := set_size s1 (Z.max (size s) (bpos s + 1))).
  assert (Hw2 : wf s2) by (split; unfold maxsize in *; cbn; rewrite ?Hlb; try done; lia).
  assert (Hu : _write_update_pos s1 = set_ndirty s2 (if ndirty s <? bpos s + 1 then bpos s + 1 else ndirty s)).
  { unfold _write_update_pos. cbn -[Z.max]. destruct (ndirty s <? bpos s + 1); cbn -[Z.max];
      (destruct (Z.ltb_spec (size s) (bpos s + 1)); unfold s2, s1, set_ndirty, set_size, set_bpos, set_bytes, set_buf; cbn -[Z.max]; f_equal; lia). }
  rewrite Hu. split; [by destruct Hw2 |]. unfold switch, with_pos, with_contents, in_state, abs. cbn -[Z.max].
  change (Z.of_nat 1) with 1 in Htb. rewrite Htb, Est. done.
Qed.

Lemma ios_read_ok s n : wf s -> 0 <= n -> exists s',
  ios_read s n = Ok ((fread (abs s) n).1.1, (fread (abs s) n).1.2, s') /\ wf s' /\ abs s' = (fread (abs s) n).2.
Proof.
  intros Hw Hn. destruct (ios_read_sim s n Hw Hn) as (s' & E & Hw' & Ha). exists s'.
  destruct (ios_read s n) as [[[n' d] s''] | |]; done.
Qed.

(** Counting lines does not touch the rest. *)
Lemma count_line_sim s c f : wf s -> abs s = f ->
  simulates (Ok ((c, []), if c =? 10 then set_lines s (u64 (lineno s + 1)) (u_colno s) else s)) (c, []) (count_line f c).
Proof. intros [H1 H2 H3 H4 H5 H6] <-. unfold count_line. destruct (c =? 10); (eexists; split; [reflexivity |]); by split. Qed.

Lemma ios_getc_sim s r f : wf s -> fgetc (abs s) = Ok (r, f) -> simulates (let! (c, s) := ios_getc s in Ok ((c, []), s)) r f.
Proof.
  intros Hw. unfold fgetc, ios_getc. pose proof (flen_abs s Hw) as Hfl. rewrite Hfl. cbn [pos abs feof fstate]. pose proof Hw as [H1 H2 H3 H4 H5 H6].
  destruct (Z.ltb_spec (bpos s) (size s)) as [Hlt | Hge].
  - rewrite andb_true_r. destruct (bool_decide (state s = bst_rd)) eqn:Est; cbn [orb].
    + apply bool_decide_eq_true in Est. rewrite (rd_abs s) by (done || lia).
      destruct (rd _ _) as [[x |] | |]; try done. cbn [obind known]. intros [= <- <-]. unfold switch, in_state. cbn [fstate abs].
      rewrite Est. cbn [bool_decide orb]. set (s1 := set_bpos s (bpos s + 1)).
      destruct (count_line_sim s1 x (abs s1)) as (s2 & E2 & Hw2 & Ha2); [split; cbn; try done; lia | done |].
      injection E2 as E2. exists s2. split; [| split; [done |]].
      * cbn [obind]. do 2 f_equal. exact E2.
      * rewrite Ha2. f_equal. unfold abs, s1. cbn. by rewrite Est.
    + destruct (eof s) eqn:Ee; cbn [negb obind]; [intros [= <- <-]; by exists s |].
      destruct (ios_read_ok s 1 Hw ltac:(lia)) as (s' & -> & Hw' & Ha'). unfold fread in Ha' |- *. cbn [fst snd obind] in *.
      change (flen (switch (abs s) bst_rd)) with (flen (abs s)) in *. rewrite Hfl in *. cbn [pos switch in_state abs contents] in *.
      rewrite (proj2 (Z.leb_le 1 _)) in * by lia. cbn [Z.ltb Z.compare andb] in *.
      assert (Hd : take (Z.to_nat 1) (drop (Z.to_nat (bpos s)) (take (Z.to_nat (size s)) (bytes s))) !! 0%nat =
        take (Z.to_nat (size s)) (bytes s) !! Z.to_nat (bpos s)) by (rewrite lookup_take_lt, lookup_drop by lia; f_equal; lia).
      rewrite Hd. change (1 <? 1) with false. unfold rd. cbn [contents abs]. rewrite (proj2 (Z.ltb_ge (bpos s) 0)) by lia.
      destruct (take (Z.to_nat (size s)) (bytes s) !! Z.to_nat (bpos s)) as [[x |] |]; try done. cbn [obind known]. intros [= <- <-].
      destruct (count_line_sim s' x (abs s') Hw' eq_refl) as (s2 & E2 & Hw2 & Ha2). injection E2 as E2. exists s2.
      split; [cbn [obind]; do 2 f_equal; exact E2 |]. split; [done |]. rewrite Ha2, Ha'. f_equal. by rewrite (proj2 (Z.eqb_neq _ 0)) by lia.
  - rewrite andb_false_r. destruct (eof s) eqn:Ee; [intros [= <- <-]; by exists s |]. intros [= <- <-].
    destruct (ios_read_ok s 1 Hw ltac:(lia)) as (s' & -> & Hw' & Ha'). unfold fread in Ha' |- *. cbn [fst snd obind] in *.
    change (flen (switch (abs s) bst_rd)) with (flen (abs s)) in *. rewrite Hfl in *. cbn [pos switch in_state abs contents] in *.
    replace (size s - bpos s) with 0 in * by lia. cbn [Z.leb Z.ltb Z.compare obind andb Z.eqb] in *.
    exists s'. split; [done |]. split; [done |]. rewrite Ha'. unfold with_pos, in_state. cbn. by rewrite Z.add_0_r.
Qed.

Lemma ios_seek_sim s p : wf s -> simulates (let (r, s) := ios_seek s p in Ok ((r, []), s)) (fseek (abs s) p).1 (fseek (abs s) p).2.
Proof.
  intros Hw. unfold ios_seek, fseek. rewrite (flen_abs s Hw). cbn [size set_eof]. destruct Hw as [H1 H2 H3 H4 H5 H6].
  destruct (Z.ltb_spec p 0), (Z.ltb_spec (size s) p); cbn [orb fst snd]; (eexists; split; [reflexivity |]; split; [| done]);
    split; cbn; try done; lia.
Qed.

Lemma ios_skip_sim s offs : wf s -> simulates (let (r, s) := ios_skip s offs in Ok ((r, []), s)) (fskip (abs s) offs).1 (fskip (abs s) offs).2.
Proof.
  intros Hw. unfold ios_skip, fskip. rewrite (flen_abs s Hw). cbn [pos abs]. pose proof Hw as [H1 H2 H3 H4 H5 H6].
  destruct (Z.eqb_spec offs 0); [by exists s |].
  destruct (Z.ltb_spec 0 offs), (Z.ltb_spec (bpos s + offs) 0), (Z.ltb_spec (size s) (bpos s + offs)); cbn [orb fst snd]; try lia.
  - rewrite (proj2 (Z.leb_gt _ _)) by lia. by exists s.
  - rewrite (proj2 (Z.leb_le _ _)) by lia. eexists. split; [reflexivity |]. split; [split; cbn; try done; lia | done].
  - rewrite (proj2 (Z.leb_gt _ _)) by lia. by exists s.
  - rewrite (proj2 (Z.leb_le _ _)) by lia. eexists. split; [reflexivity |]. split; [split; cbn; try done; lia | done].
Qed.

Lemma ios_trunc_sim s n r f : wf s -> ftrunc (abs s) n = Ok (r, f) ->
  simulates (let! (r, s) := ios_trunc alloc_ok s n in Ok ((r, []), s)) r f.
Proof.
  intros Hw. unfold ios_trunc, ftrunc. rewrite (flen_abs s Hw). pose proof Hw as [H1 H2 H3 H4 H5 H6].
  destruct (Z.leb_spec 0 n), (Z.leb_spec n (size s)); try done. cbn [andb]. intros [= <- <-].
  destruct (Z.eqb_spec n (size s)) as [-> | Hne].
  - exists s. split; [done |]. split; [done |]. unfold with_pos, with_contents, abs. cbn -[Z.min]. f_equal; [by rewrite take_take, Nat.min_id | lia].
  - rewrite (proj2 (Z.ltb_lt _ _)) by lia. cbn [obind]. eexists. split; [reflexivity |].
    destruct (Z.ltb_spec n (bpos s)); (split; [split; unfold maxsize, bytes in *; cbn; try done; lia |]); unfold with_pos, with_contents, abs; cbn -[Z.min];
      (f_equal; [by rewrite take_take, Nat.min_l by lia | lia]).
Qed.

(** A byte in front of the valid ones. *)
Lemma shift_spec (bs : list (option Z)) sz c : 0 <= sz -> sz + 1 <= Z.of_nat (length bs) ->
  exists b, (let! data := peek bs 0 sz in let! b := blit bs 1 data in blit b 0 [c]) = Ok b /\ length b = length bs /\
    take (Z.to_nat (sz + 1)) b = c :: take (Z.to_nat sz) bs.
Proof.
  intros H0 Hl. unfold peek. rewrite !(proj2 (Z.leb_le _ _)) by lia. cbn [andb obind]. change (Z.to_nat 0) with 0%nat. rewrite drop_0.
  set (data := take (Z.to_nat sz) bs). assert (Hd : Z.of_nat (length data) = sz) by (unfold data; rewrite length_take; lia).
  destruct bs as [| x bs]; [cbn in Hl; lia |].
  assert (E1 : blit (x :: bs) 1 data = Ok (x :: data ++ drop (length data) bs)).
  { unfold blit. rewrite !(proj2 (Z.leb_le _ _)) by lia. done. }
  assert (E2 : blit (x :: data ++ drop (length data) bs) 0 [c] = Ok (c :: data ++ drop (length data) bs)).
  { unfold blit. rewrite !(proj2 (Z.leb_le _ _)) by (cbn [length]; lia). done. }
  rewrite E1. cbn [obind]. rewrite E2. eexists. split; [reflexivity |]. split.
  - cbn [length] in *. rewrite length_app, length_drop. lia.
  - rewrite Z.add_1_r, Z2Nat.inj_succ by lia. cbn [take]. f_equal. apply take_app_length'. lia.
Qed.

Lemma ios_ungetc_sim s c : wf s -> size s < 2 ^ 62 ->
  simulates (let! (c, s) := ios_ungetc alloc_ok c s in Ok ((c, []), s)) (fungetc (abs s) c).1 (fungetc (abs s) c).2.
Proof.
  intros Hw Hlt. unfold ios_ungetc, fungetc. cbn [fstate abs]. destruct (bool_decide (state s = bst_wr)); [by exists s |].
  set (s0 := set_lines s _ _). assert (Hw0 : wf s0) by (by destruct Hw).
  change (with_lines _ _ _) with (abs s0). clearbody s0. cbn [pos abs]. pose proof Hw0 as [H1 H2 H3 H4 H5 H6].
  destruct (Z.ltb_spec 0 (bpos s0)) as [Hp | Hp]; cbn [fst snd].
  - destruct (blit_spec (bytes s0) [Some (u8 c)] (bpos s0 - 1) (size s0)) as (b & Eb & Hlb & Htb); [lia | apply H4 | unfold maxsize in *; cbn [length]; lia |].
    cbn [bytes set_bpos bpos]. change (bytes (set_bpos s0 (bpos s0 - 1))) with (bytes s0). rewrite Eb. cbn [obind].
    eexists. split; [reflexivity |]. split; [split; unfold maxsize in *; cbn; rewrite ?Hlb; try done; lia |].
    replace (Z.max (size s0) _) with (size s0) in Htb by (cbn [length]; lia).
    unfold with_pos, with_contents, abs. cbn. by rewrite Htb.
  - assert (Hroom : exists s1, (if size s0 =? maxsize s0 then _buf_realloc alloc_ok s0 (maxsize s0 * 2) else Ok (true, s0)) = Ok (true, s1) /\
      moved s0 s1 /\ size s0 + 1 <= maxsize s1 /\ wf s1).
    { destruct (Z.eqb_spec (size s0) (maxsize s0)) as [Hf | Hf].
      - destruct (buf_realloc_spec s0 (maxsize s0 * 2) Hw0) as (s1 & -> & Hm & Hz & Hw1); [lia |]. exists s1. split_and!; try done; lia.
      - exists s0. split_and!; try done; [by destruct s0 | lia]. }
    destruct Hroom as (s1 & -> & [Hm Ht] & Hz & Hw1). cbn [obind].
    assert (Hs1 : size s1 = size s0 /\ bpos s1 = bpos s0) by (by rewrite Hm). destruct Hs1 as [Hs1 Hb1]. rewrite Hs1.
    destruct (shift_spec (bytes s1) (size s0) (Some (u8 c))) as (b & Eb & Hlb & Htb); [lia | exact Hz |].
    destruct (peek (bytes s1) 0 (size s0)) as [data | |]; try done. cbn [obind] in Eb |- *.
    destruct (blit (bytes s1) 1 data) as [b1 | |]; try done. cbn [obind] in Eb |- *. rewrite Eb. cbn [obind].
    eexists. split; [reflexivity |]. destruct Hw1 as [K1 K2 K3 K4 K5 K6].
    split; [split; unfold maxsize in *; cbn; rewrite ?Hlb; try done; lia |].
    unfold with_pos, with_contents, abs. cbn. rewrite Htb, Ht. by rewrite Hm.
Qed.

Lemma simulates_pair o (x : result * file) r f : simulates o x.1 x.2 -> Ok x = Ok (r, f) -> simulates o r f.
Proof. by intros H [= ->]. Qed.

(** Bytes an operation can add. *)
Definition cost (o : op) : Z :=
  match o with Write data => Z.of_nat (length data) | Putc _ | Ungetc _ => 1 | _ => 0 end.

Lemma op_sim s o r f : wf s -> size s + cost o < 2 ^ 62 -> spec_op (abs s) o = Ok (r, f) -> simulates (run_op s o) r f.
Proof.
  intros Hw Hc. pose proof Hw as [H1 H2 H3 H4 H5 H6]. destruct o; cbn [spec_op run_op cost] in *.
  - apply simulates_pair. apply ios_write_sim; [done | lia].
  - destruct (Z.ltb_spec n 0); [done |]. apply simulates_pair. by apply ios_read_sim.
  - apply simulates_pair. apply ios_putc_sim; [done | lia].
  - by apply ios_getc_sim.
  - rewrite (flen_abs s Hw). unfold ios_peekc. cbn [pos abs feof]. destruct (Z.ltb_spec (bpos s) (size s)).
    + rewrite (rd_abs s) by (done || lia). destruct (rd _ _) as [[x |] | |]; try done. cbn [obind known]. intros [= <- <-]. by exists s.
    + destruct (eof s) eqn:Ee; intros [= <- <-]; [by exists s |]. unfold ios_readprep.
      replace (size s - bpos s) with 0 by lia. cbn [Z.eqb obind]. exists (set_state s bst_rd). split; [done |].
      split; [by split |]. unfold abs, in_state. cbn. by rewrite Ee.
  - apply simulates_pair. apply ios_ungetc_sim; [done | lia].
  - apply simulates_pair. by apply ios_seek_sim.
  - intros [= <- <-]. unfold ios_seek_end. eexists. split; [reflexivity |]. split; [split; cbn; try done; lia |].
    unfold with_pos. by rewrite flen_abs.
  - apply simulates_pair. by apply ios_skip_sim.
  - by apply ios_trunc_sim.
  - intros [= <- <-]. unfold ios_purge. cbn [fstate abs]. eexists. split; [reflexivity |].
    destruct (bool_decide _); [| done]. split; [split; cbn; try done; lia |]. unfold with_pos. by rewrite flen_abs.
  - rewrite (flen_abs s Hw). intros [= <- <-]. exists s. split; [| done]. unfold ios_eof. cbn [fstate abs pos feof].
    by destruct (bool_decide _ && _).
Qed.

(** ** Sequences *)

Fixpoint run_ops (s : ios_t) (os : list op) : outcome (list result * ios_t) :=
  match os with
  | [] => Ok ([], s)
  | o :: os => let! (r, s) := run_op s o in let! (rs, s) := run_ops s os in Ok (r :: rs, s)
  end.

Lemma length_overwrite c p data : 0 <= p <= Z.of_nat (length c) ->
  Z.of_nat (length (overwrite c p data)) = Z.max (Z.of_nat (length c)) (p + Z.of_nat (length data)).
Proof. intros Hp. unfold overwrite. rewrite !length_app, length_take, length_drop. lia. Qed.

Lemma snd_result (x : result * file) r f : Ok x = Ok (r, f) -> f = x.2.
Proof. by intros [= ->]. Qed.

Lemma spec_op_len f o r f' : 0 <= pos f <= flen f -> spec_op f o = Ok (r, f') -> flen f' <= flen f + cost o.
Proof.
  intros Hp. assert (Hw : forall data, flen (fwrite f data).2 <= flen f + Z.of_nat (length data)).
  { intros data. unfold fwrite. destruct (_ =? 0); [cbn; lia |]. unfold flen in *. cbn. rewrite length_overwrite by done. lia. }
  destruct o; cbn [spec_op cost].
  - intros ->%snd_result. apply Hw.
  - destruct (n <? 0); [done |]. intros ->%snd_result. unfold flen. cbn. lia.
  - intros ->%snd_result. apply Hw.
  - unfold fgetc. destruct (_ <? _); [destruct (_ || _) |]; [destruct (rd _ _) as [[x |] | |]; try done; cbn [obind known] | |];
      [unfold count_line; destruct (x =? 10) | | destruct (feof f)]; intros ->%snd_result; unfold flen; cbn; lia.
  - destruct (_ <? _); [destruct (rd _ _) as [[x |] | |]; try done; cbn [obind known] | destruct (feof f)];
      intros ->%snd_result; unfold flen; cbn; lia.
  - intros ->%snd_result. unfold fungetc. destruct (bool_decide _); [cbn; lia |]. unfold flen in *. cbn [pos with_lines].
    destruct (Z.ltb_spec 0 (pos f)); cbn [snd contents with_pos with_contents with_lines]; [rewrite length_overwrite; cbn [length]; lia | cbn [length]; lia].
  - intros ->%snd_result. unfold fseek. destruct (_ || _); unfold flen; cbn; lia.
  - intros ->%snd_result. unfold flen. cbn. lia.
  - intros ->%snd_result. unfold fskip. destruct (_ =? 0); [| destruct (_ || _)]; unfold flen; cbn; lia.
  - unfold ftrunc. destruct (_ && _); [| done]. intros ->%snd_result. unfold flen. cbn. rewrite length_take. lia.
  - intros ->%snd_result. destruct (bool_decide _); unfold flen; cbn; lia.
  - intros ->%snd_result. unfold flen. cbn. lia.
Qed.

Definition total_cost (os : list op) : Z := fold_right (fun o n => cost o + n) 0 os.

Lemma cost_nonneg o : 0 <= cost o.
Proof. destruct o; cbn; lia. Qed.

Lemma ops_sim os : forall s rs f,
  wf s -> size s + total_cost os < 2 ^ 62 -> spec_ops (abs s) os = Ok (rs, f) ->
  exists s', run_ops s os = Ok (rs, s') /\ wf s' /\ abs s' = f.
Proof.
  induction os as [| o os IH]; intros s rs f Hw Hc; cbn [spec_ops run_ops total_cost fold_right] in *.
  - intros [= <- <-]. by exists s.
  - intros ([r f1] & E1 & ([rs' f2] & E2 & [= <- <-])%obind_Ok_inv)%obind_Ok_inv. fold (total_cost os) in Hc.
    assert (Hc0 : 0 <= total_cost os) by (clear; induction os as [| o os IH]; cbn; [done | pose proof (cost_nonneg o); fold (total_cost os); lia]).
    destruct (op_sim s o r f1 Hw) as (s1 & -> & Hw1 & <-); [lia | done |]. cbn [obind].
    pose proof (spec_op_len (abs s) o r (abs s1)) as Hl. rewrite !flen_abs in Hl by done. specialize (Hl (wf_bpos _ Hw) E1).
    destruct (IH s1 rs' f2 Hw1) as (s2 & -> & Hw2 & Ha2); [lia | done |]. by exists s2.
Qed.

Lemma ios_mem_wf initsize : 0 <= initsize ->
  exists s, ios_mem alloc_ok initsize = Ok s /\ wf s /\ abs s = File [] 0 bst_none false 1 0.
Proof.
  intros H0. unfold ios_mem, _buf_realloc. cbn [_ios_init buf]. cbn [andb].
  destruct (Z.leb_spec initsize IOS_INLSIZE) as [Hle | Hgt].
  - eexists. split; [reflexivity |]. split; [| done]. by split.
  - unfold IOS_INLSIZE in Hgt. change (maxsize _) with 0. rewrite (proj2 (Z.leb_gt _ _)) by lia. rewrite Halloc. cbn [negb growable ownbuf andb obind].
    eexists. split; [reflexivity |]. split; [| done].
    split; unfold maxsize; cbn -[uninit]; try done; rewrite Z.sub_0_r, length_uninit; lia.
Qed.

Lemma ios_take_buffer_spec s : wf s ->
  exists b s', ios_take_buffer alloc_ok s = Ok (Some b, size s + 1, s') /\ wf s' /\ size s' = 0 /\
    take (Z.to_nat (size s + 1)) b = contents (abs s) ++ [Some 0].
Proof.
  intros Hw. pose proof Hw as [H1 H2 H3 H4 H5 H6]. unfold ios_take_buffer. rewrite Halloc. cbn [negb].
  set (null := match buf s with None => true | Some _ => is_local s end).
  assert (Hb : exists b, (if null || (negb (ownbuf s) && (size s =? maxsize s)) then
      let! data := peek (bytes s) 0 (size s) in Ok (Some (data ++ [None]))
    else if size s =? maxsize s then Ok (Some (bytes s ++ [None])) else Ok (Some (bytes s))) = Ok (Some b) /\
    size s + 1 <= Z.of_nat (length b) /\ take (Z.to_nat (size s)) b = contents (abs s)).
  { pose proof (flen_abs s Hw) as Hfl. unfold flen, maxsize in *. destruct (null || _).
    - rewrite peek_abs by (done || lia). change (Z.to_nat 0) with 0%nat. rewrite drop_0, take_ge by lia. cbn [obind].
      eexists. split; [reflexivity |]. rewrite length_app. cbn [length]. split; [lia | by rewrite take_app_length' by lia].
    - destruct (Z.eqb_spec (size s) (Z.of_nat (length (bytes s)))) as [He | He]; eexists; (split; [reflexivity |]).
      + rewrite length_app. cbn [length]. split; [lia |]. cbn [contents abs]. by rewrite take_app_le by lia.
      + split; [lia | done]. }
  destruct Hb as (b & -> & Hlen & Ht). cbn [obind].
  destruct (blit_spec b [Some 0] (size s) (size s)) as (b' & -> & _ & Htb); [lia | lia | cbn [length]; lia |]. cbn [obind].
  exists b', (_buf_init s). split; [done |]. split; [by split |]. split; [done |].
  replace (Z.max (size s) _) with (size s + 1) in Htb by (cbn [length]; lia). rewrite Htb. unfold overwrite. rewrite Ht.
  pose proof (flen_abs s Hw) as Hfl. unfold flen in Hfl. rewrite take_ge, drop_ge by (cbn [length]; lia). done.
Qed.
End Streams.

(** C33: A memory stream implements a file.  Whatever the initial size, any
    sequence of writes, reads, seeks and the other operations whose result is
    specified returns on the stream exactly what it returns on an empty file,
    never touches memory outside the buffer, and leaves the file's bytes in
    the buffer: [ios_take_buffer] then hands them out with a terminating
    [NUL] and empties the stream. *)
Theorem ios_mem_refines_file (alloc_ok : Z -> bool) (initsize : Z) (os : list op) (rs : list result) (f : file) :
  (forall n, alloc_ok n = true) -> 0 <= initsize -> total_cost os < 2 ^ 62 ->
  spec_ops (File [] 0 bst_none false 1 0) os = Ok (rs, f) ->
  exists s0 s b s', ios_mem alloc_ok initsize = Ok s0 /\ run_ops alloc_ok s0 os = Ok (rs, s) /\
    contents f = take (Z.to_nat (size s)) (bytes s) /\ pos f = bpos s /\ 0 <= bpos s <= size s /\ size s <= maxsize s /\
    ios_take_buffer alloc_ok s = Ok (Some b, flen f + 1, s') /\
    take (Z.to_nat (flen f + 1)) b = contents f ++ [Some 0] /\ size s' = 0.
Proof.
  intros Ha H0 Hc Hs. destruct (ios_mem_wf alloc_ok Ha initsize H0) as (s0 & E0 & Hw0 & Ha0). rewrite <- Ha0 in Hs.
  assert (Hz : size s0 = 0) by (rewrite <- (flen_abs s0 Hw0), Ha0; done).
  destruct (ops_sim alloc_ok Ha os s0 rs f Hw0) as (s & E1 & Hw & <-); [lia | done |].
  destruct (ios_take_buffer_spec alloc_ok Ha s Hw) as (b & s' & E2 & _ & Hs' & Ht).
  exists s0, s, b, s'. rewrite flen_abs by done. pose proof Hw as [_ _ W3 [W4 _] _ _]. split_and!; try done; lia.
Qed.

(** A write past the inline buffer, a seek back and a read. *)
Definition demo_ops : list op :=
  [Write (replicate 100 (Some 65)); Putc 10; Seek 98; Read 2; Getc; Getc; Ungetc 66; Peekc; Skip (-50); Write [Some 1]; Trunc 60; Eof].

Lemma ios_mem_refines_file_witness : exists rs f s0 s,
  spec_ops (File [] 0 bst_none false 1 0) demo_ops = Ok (rs, f) /\
  ios_mem (fun _ => true) 0 = Ok s0 /\ run_ops (fun _ => true) s0 demo_ops = Ok (rs, s).
Proof.
  destruct (spec_ops (File [] 0 bst_none false 1 0) demo_ops) as [[rs f] | |] eqn:E; [| vm_compute in E; discriminate | vm_compute in E; discriminate].
  destruct (ios_mem_refines_file (fun _ => true) 0 demo_ops rs f) as (s0 & s & b & s' & H1 & H2 & _); [done | done | done | exact E |].
  exists rs, f, s0, s. split; [reflexivity |]. split; [exact H1 | exact H2].
Defined.
