(* ===== verification/IosText.v ===== *)
(** * Text on memory streams (support/ios.c)

    The functions of ios.c that read and write characters encoded in UTF-8,
    on the streams of [Ios] with the codecs of [Utf8].  A function that stores
    a character through [pwc] returns it as an option. *)

From stdpp Require Import base numbers option list.
From Stdlib Require Import ZArith Lia.
From S2P Require Import Prelude Utf8 Ios.

(** Bytes as values: reading one that was never written is undefined. *)
Fixpoint known_bytes (l : list (option Z)) : outcome (list Z) :=
  match l with
  | [] => Ok []
  | c :: l => let! c := known c in let! l := known_bytes l in Ok (c :: l)
  end.

Section Text.
Context (alloc_ok : Z -> bool) (utf8proc_charwidth : Z -> Z).

(** [str] is the string before its terminator. *)
Definition ios_str (str : list Z) : outcome ios_t :=
  let n := Z.of_nat (length str) in
  let! s := ios_mem alloc_ok (n + 1) in
  let! (_, s) := ios_write alloc_ok s (map Some (str ++ [0])) in
  Ok (ios_seek s 0).2.

Definition ios_pututf8 (s : ios_t) (wc : Z) : outcome (Z * ios_t) :=
  if wc <? 0x80 then ios_putc alloc_ok wc s
  else ios_write alloc_ok s (map Some (u8_toutf8 8 [wc])).

(** What [ios_getutf8] and [ios_peekutf8] share: the sequence that starts with
    the byte [c], if it is all there and valid. *)
Definition utf8_at (s : ios_t) (c : Z) : outcome (Z * option (Z * Z) * ios_t) :=
  let! sz := u8_seqlen c in
  if negb (isutf c) || (4 <? sz) then Ok (0, None, s)
  else
    let (n, s) := ios_readprep s sz in
    if n <? sz then Ok (IOS_EOF, None, s)
    else
      let! data := peek (bytes s) (bpos s) sz in
      let! str := known_bytes data in
      let valid := u8_isvalid str in
      if valid =? 0 then Ok (0, None, s)
      else let! (wc, _) := u8_nextchar str 0 in Ok (valid, Some (wc, sz), s).

Definition ios_getutf8 (s : ios_t) : outcome (Z * option Z * ios_t) :=
  let! (c, s) := ios_peekc s in
  if c =? IOS_EOF then Ok (IOS_EOF, None, set_eof s true)
  else if c <? 0x80 then
    let! (_, s) := ios_getc s in
    Ok (1, Some c, set_lines s (lineno s) (if c =? 10 then 0 else u64 (u_colno s + utf8proc_charwidth c)))
  else
    let! (valid, r, s) := utf8_at s c in
    match r with
    | None => Ok (valid, None, s)
    | Some (wc, sz) =>
        let s := set_lines s (lineno s) (u64 (u_colno s + utf8proc_charwidth wc)) in
        let! (_, _, s) := ios_read s sz in
        Ok (valid, Some wc, s)
    end.

Definition ios_peekutf8 (s : ios_t) : outcome (Z * option Z * ios_t) :=
  let! (c, s) := ios_peekc s in
  if c =? IOS_EOF then Ok (IOS_EOF, None, s)
  else if c <? 0x80 then Ok (1, Some c, s)
  else let! (valid, r, s) := utf8_at s c in Ok (valid, fst <$> r, s).
End Text.
