(* ===== verification/WorkQueue.v ===== *)
(** * The work-stealing queue of the parallel collector (work-stealing-queue.h)

    Chase and Lev's deque: one owner pushes and pops at the bottom, any number
    of thieves steal at the top.  The queue is a pair of counters and a
    circular array, which the owner replaces by one twice as large when it is
    full; the caller keeps the old arrays until no thief can read them, so
    the model keeps all arrays.

    A configuration holds the shared memory and where every thread is in its
    operation; a step is one access to shared memory.  Elements are copied in
    and out byte by byte, so a thief may see half of an element.  Reads by the
    owner of what only the owner writes are steps of their own only where the
    source has an atomic load.  Counters are integers: they count pushes. *)

From stdpp Require Import base gmap numbers option list.
From Stdlib Require Import ZArith Lia.
From S2P Require Import Prelude.

(** An element is its [eltsz] bytes; [None] is a byte never written. *)
Definition elt : Type := list (option Z).

Record ws_array_t := WsArray { buffer : list elt; capacity : Z; mask : Z }.

Definition create_ws_array (cap eltsz : Z) : ws_array_t :=
  WsArray (replicate (Z.to_nat cap) (replicate (Z.to_nat eltsz) None)) cap (cap - 1).

(** Where the owner is. *)
Inductive owner_pc :=
| Idle
| PushTop (x : elt) (b : Z)
| PushArray (x : elt) (b t : Z)
| PushCopy (x : elt) (b : Z) (ary : nat) (old_ary : option nat) (i : Z)
| PushBottom (x : elt) (b : Z) (old_ary : option nat)
| PopArray (b : Z)
| PopBottom (b : Z) (ary : nat)
| PopTop (b : Z) (ary : nat)
| PopCas (dest : elt) (b t : Z)
| PopRestore (dest : elt) (b : Z).

(** Where a thief is. *)
Inductive thief_pc :=
| StealBottom (dest : elt) (t : Z)
| StealArray (dest : elt) (t : Z)
| StealCopy (dest : elt) (t : Z) (ary : nat) (i : Z)
| StealCas (dest : elt) (t : Z).

Record ws_queue_t := WsQueue {
  top : Z;
  bottom : Z;
  array : nat;
  arrays : list ws_array_t;
  owner : owner_pc;
  thieves : gmap nat thief_pc
}.

Definition set_owner (q : ws_queue_t) (o : owner_pc) : ws_queue_t :=
  WsQueue (top q) (bottom q) (array q) (arrays q) o (thieves q).
Definition set_bottom (q : ws_queue_t) (b : Z) : ws_queue_t :=
  WsQueue (top q) b (array q) (arrays q) (owner q) (thieves q).
Definition set_top (q : ws_queue_t) (t : Z) : ws_queue_t :=
  WsQueue t (bottom q) (array q) (arrays q) (owner q) (thieves q).
Definition set_arrays (q : ws_queue_t) (a : nat) (l : list ws_array_t) : ws_queue_t :=
  WsQueue (top q) (bottom q) a l (owner q) (thieves q).
Definition set_thieves (q : ws_queue_t) (m : gmap nat thief_pc) : ws_queue_t :=
  WsQueue (top q) (bottom q) (array q) (arrays q) (owner q) m.

(** What an operation has done, recorded at the step that decides it: an
    element was pushed; a pop or a steal took the element it returns, or
    returns without one. *)
Inductive event :=
| EPush (x : elt)
| EPop (x : option elt)
| ESteal (x : option elt).

Section Queue.
Context (eltsz : Z).

Definition get_array (q : ws_queue_t) (a : nat) : outcome ws_array_t := rd (arrays q) (Z.of_nat a).

(** The element at [i & mask]. *)
Definition slot (a : ws_array_t) (i : Z) : outcome elt := rd (buffer a) (Z.land i (mask a)).

(** [memset(dest, 0, eltsz)] *)
Definition zero : elt := replicate (Z.to_nat eltsz) (Some 0).

(** The loop that moves the elements to the larger array. *)
Fixpoint grow_copy (n : nat) (i t : Z) (ary new_ary : ws_array_t) : outcome ws_array_t :=
  match n with
  | O => Ok new_ary
  | S n' =>
      let! x := slot ary (t + i) in
      let! l := wr (buffer new_ary) (Z.land (t + i) (mask new_ary)) x in
      grow_copy n' (i + 1) t ary (WsArray l (capacity new_ary) (mask new_ary))
  end.

(** [2 * ary->capacity] is an [int32_t]. *)
Definition ws_grow (ary : ws_array_t) (t : Z) : outcome ws_array_t :=
  if 2 ^ 31 <=? 2 * capacity ary then UB
  else grow_copy (Z.to_nat (capacity ary)) 0 t ary (create_ws_array (2 * capacity ary) eltsz).

(** One byte of a [memcpy]. *)
Definition copy_byte (src dest : elt) (i : Z) : outcome elt := let! c := rd src i in wr dest i c.

(** [ws_queue_push] from its second step on. *)
Definition push_step (q : ws_queue_t) : outcome (ws_queue_t * list event) :=
  match owner q with
  | PushTop x b => Ok (set_owner q (PushArray x b (top q)), [])
  | PushArray x b t =>
      let! ary := get_array q (array q) in
      if capacity ary - 1 <? b - t then
        let! new_ary := ws_grow ary t in
        let new := length (arrays q) in
        Ok (set_owner (set_arrays q new (arrays q ++ [new_ary])) (PushCopy x b new (Some (array q)) 0), [])
      else Ok (set_owner q (PushCopy x b (array q) None 0), [])
  | PushCopy x b a old_ary i =>
      if i <? eltsz then
        let! ary := get_array q a in
        let! old := slot ary b in
        let! new := copy_byte x old i in
        let! l := wr (buffer ary) (Z.land b (mask ary)) new in
        let! arys := wr (arrays q) (Z.of_nat a) (WsArray l (capacity ary) (mask ary)) in
        Ok (set_owner (set_arrays q (array q) arys) (PushCopy x b a old_ary (i + 1)), [])
      else Ok (set_owner q (PushBottom x b old_ary), [])
  | PushBottom x b _ => Ok (set_owner (set_bottom q (b + 1)) Idle, [EPush x])
  | _ => UB
  end.

(** [ws_queue_pop] from its second step on. *)
Definition pop_step (q : ws_queue_t) : outcome (ws_queue_t * list event) :=
  match owner q with
  | PopArray b => Ok (set_owner q (PopBottom b (array q)), [])
  | PopBottom b ary => Ok (set_owner (set_bottom q b) (PopTop b ary), [])
  | PopTop b a =>
      let t := top q in
      if t <=? b then
        let! ary := get_array q a in
        let! dest := slot ary b in
        if t =? b then Ok (set_owner q (PopCas dest b t), [])
        else Ok (set_owner q Idle, [EPop (Some dest)])
      else Ok (set_owner q (PopRestore zero b), [EPop None])
  | PopCas dest b t =>
      if top q =? t then Ok (set_owner (set_top q (t + 1)) (PopRestore dest b), [EPop (Some dest)])
      else Ok (set_owner q (PopRestore zero b), [EPop None])
  | PopRestore _ b => Ok (set_owner (set_bottom q (b + 1)) Idle, [])
  | _ => UB
  end.

(** [ws_queue_steal_from] from its second step on; a thief that is done is
    removed. *)
Definition steal_step (q : ws_queue_t) (i : nat) (s : thief_pc) : outcome (ws_queue_t * list event) :=
  let goto q s := set_thieves q (<[i := s]> (thieves q)) in
  let return_ q := set_thieves q (delete i (thieves q)) in
  match s with
  | StealBottom dest t =>
      if t <? bottom q then Ok (goto q (StealArray dest t), []) else Ok (return_ q, [ESteal None])
  | StealArray dest t => Ok (goto q (StealCopy dest t (array q) 0), [])
  | StealCopy dest t a k =>
      if k <? eltsz then
        let! ary := get_array q a in
        let! src := slot ary t in
        let! dest := copy_byte src dest k in
        Ok (goto q (StealCopy dest t a (k + 1)), [])
      else Ok (goto q (StealCas dest t), [])
  | StealCas dest t =>
      if top q =? t then Ok (return_ (set_top q (t + 1)), [ESteal (Some dest)])
      else Ok (return_ q, [ESteal None])
  end.

(** One step of the owner or of a thief, with what it has done.  The first
    step of an operation reads the first counter it needs. *)
Inductive step : ws_queue_t -> list event -> ws_queue_t -> Prop :=
| step_push q x : owner q = Idle -> Z.of_nat (length x) = eltsz ->
    step q [] (set_owner q (PushTop x (bottom q)))
| step_pop q : owner q = Idle -> step q [] (set_owner q (PopArray (bottom q - 1)))
| step_pushing q q' es : push_step q = Ok (q', es) -> step q es q'
| step_popping q q' es : pop_step q = Ok (q', es) -> step q es q'
| step_steal q i dest : thieves q !! i = None -> Z.of_nat (length dest) = eltsz ->
    step q [] (set_thieves q (<[i := StealBottom dest (top q)]> (thieves q)))
| step_stealing q q' i s es : thieves q !! i = Some s -> steal_step q i s = Ok (q', es) -> step q es q'.

Inductive steps : ws_queue_t -> list event -> ws_queue_t -> Prop :=
| steps_nil q : steps q [] q
| steps_snoc q es q' es' q'' : steps q es q' -> step q' es' q'' -> steps q (es ++ es') q''.

(** A queue as [jl_init_thread_heap] sets it up. *)
Definition ws_queue_init (cap : Z) : ws_queue_t := WsQueue 0 0 0 [create_ws_array cap eltsz] Idle ∅.
End Queue.
