(* ===== verification/WorkQueueFacts.v ===== *)
(** * The work-stealing queue is a deque

    Whatever the interleaving, the operations take effect one after the other
    on a deque: every element that is pushed is taken at most once, by a pop
    from the back or a steal from the front, and no operation reads outside
    its array.  The deque is the elements between [top] and the logical
    bottom, which is the counter [bottom] except while a pop has announced
    itself and not yet decided. *)

From stdpp Require Import base gmap numbers option list.
From Stdlib Require Import ZArith Lia.
From S2P Require Import Prelude Probe WorkQueue.

(** ** Deques *)

Inductive deque_step : list elt -> event -> list elt -> Prop :=
| dq_push c x : deque_step c (EPush x) (c ++ [x])
| dq_pop c x : deque_step (c ++ [x]) (EPop (Some x)) c
| dq_pop_empty : deque_step [] (EPop None) []
| dq_steal c x : deque_step (x :: c) (ESteal (Some x)) c
| dq_steal_none c : deque_step c (ESteal None) c.

Inductive deque_run : list elt -> list event -> list elt -> Prop :=
| dr_nil c : deque_run c [] c
| dr_snoc c es c' e c'' : deque_run c es c' -> deque_step c' e c'' -> deque_run c (es ++ [e]) c''.

Definition pushed (e : event) : list elt := match e with EPush x => [x] | _ => [] end.
Definition taken (e : event) : list elt := match e with EPop (Some x) | ESteal (Some x) => [x] | _ => [] end.

Lemma deque_run_perm c es c' : deque_run c es c' -> c ++ concat (map pushed es) ≡ₚ concat (map taken es) ++ c'.
Proof.
  induction 1 as [c | c es c' e c'' _ IH Hs]; [by rewrite app_nil_r |].
  rewrite !concat_map_app, app_assoc, IH. cbn. rewrite !app_nil_r, <- !app_assoc. apply Permutation_app_head.
  destruct Hs; cbn; rewrite ?app_nil_r; try done. apply Permutation_app_comm.
Qed.

Section Facts.
Context (eltsz : Z) (Heltsz : 0 <= eltsz).

(** ** Arrays *)

Record wf_array (a : ws_array_t) : Prop := {
  wa_pow : pow2 (capacity a);
  wa_mask : mask a = capacity a - 1;
  wa_len : Z.of_nat (length (buffer a)) = capacity a;
  wa_elt : Forall (fun x => Z.of_nat (length x) = eltsz) (buffer a)
}.

Definition at_ (a : ws_array_t) (i : Z) : elt := default ([] : elt) (buffer a !! Z.to_nat (i mod capacity a)).

Lemma mod_range a i : wf_array a -> 0 <= i mod capacity a < Z.of_nat (length (buffer a)).
Proof. intros [H1 _ H3 _]. rewrite H3. apply Z.mod_pos_bound. by apply pow2_pos. Qed.

Lemma slot_at a i : wf_array a -> slot a i = Ok (at_ a i) /\ Z.of_nat (length (at_ a i)) = eltsz.
Proof.
  intros Hw. pose proof (mod_range a i Hw) as Hm. pose proof Hw as [H1 H2 _ H4]. unfold slot, at_.
  rewrite H2, land_pow2 by done. destruct (rd_in_range _ _ Hm) as (x & -> & Hx). rewrite Hx. split; [done |].
  by eapply (Forall_lookup_1 _ _ _ _ H4).
Qed.

(** [a] with [x] stored at [i]. *)
Definition put (a : ws_array_t) (i : Z) (x : elt) : ws_array_t :=
  WsArray (<[Z.to_nat (i mod capacity a) := x]> (buffer a)) (capacity a) (mask a).

Lemma wr_slot a i x : wf_array a -> wr (buffer a) (Z.land i (mask a)) x = Ok (buffer (put a i x)).
Proof.
  intros Hw. pose proof (mod_range a i Hw) as Hm. destruct Hw as [H1 H2 _ _]. rewrite H2, land_pow2 by done. by apply wr_in_range.
Qed.

Lemma wf_put a i x : wf_array a -> Z.of_nat (length x) = eltsz -> wf_array (put a i x).
Proof.
  intros [H1 H2 H3 H4] Hx. split; cbn; try done; [by rewrite length_insert |]. by apply Forall_insert.
Qed.

Lemma at_put a i x : wf_array a -> at_ (put a i x) i = x.
Proof. intros Hw. pose proof (mod_range a i Hw). unfold at_. cbn. by rewrite list_lookup_insert_eq by lia. Qed.

Lemma at_put_ne a i j x : wf_array a -> i <> j -> Z.abs (i - j) < capacity a -> at_ (put a i x) j = at_ a j.
Proof.
  intros Hw Hne Hd. pose proof (mod_range a i Hw). pose proof (mod_range a j Hw). pose proof (pow2_pos _ (wa_pow _ Hw)) as Hp.
  unfold at_. cbn. rewrite list_lookup_insert_ne; [done |]. intros E. apply Z2Nat.inj in E; [| lia | lia].
  assert (Hd' : (i - j) mod capacity a = 0) by (rewrite Zminus_mod, E, Z.sub_diag; apply Z.mod_0_l; lia).
  apply Z.mod_divide in Hd' as [k Hk]; [| lia]. assert (k = 0) by nia. lia.
Qed.

Lemma wf_create cap : pow2 cap -> wf_array (create_ws_array cap eltsz).
Proof.
  intros Hp. pose proof (pow2_pos _ Hp). split; cbn; try done; [rewrite length_replicate; lia |].
  apply Forall_replicate. rewrite length_replicate. lia.
Qed.

(** Growing keeps the elements [t], ..., [t + capacity - 1]. *)
Lemma grow_copy_spec t a n : forall i a', wf_array a -> wf_array a' -> capacity a <= capacity a' -> 0 <= i ->
  i + Z.of_nat n = capacity a ->
  (forall j, 0 <= j < i -> at_ a' (t + j) = at_ a (t + j)) ->
  exists a'', grow_copy n i t a a' = Ok a'' /\ wf_array a'' /\ capacity a'' = capacity a' /\
    forall j, 0 <= j < capacity a -> at_ a'' (t + j) = at_ a (t + j).
Proof.
  induction n as [| n IH]; intros i a' Ha Ha' Hc Hi Hn Hold; cbn [grow_copy].
  - exists a'. split_and!; try done. intros j Hj. apply Hold. lia.
  - destruct (slot_at a (t + i) Ha) as [-> Hl]. cbn [obind]. rewrite wr_slot by done. cbn [obind].
    change (WsArray _ _ _) with (put a' (t + i) (at_ a (t + i))).
    apply (IH (i + 1) (put a' (t + i) (at_ a (t + i)))); try done; [by apply wf_put | lia | lia |]. intros j Hj.
    destruct (Z.eq_dec j i) as [-> | Hne]; [by apply at_put |].
    rewrite at_put_ne by (done || lia). apply Hold. lia.
Qed.

Lemma ws_grow_spec a t : wf_array a -> 2 * capacity a < 2 ^ 31 ->
  exists a', ws_grow eltsz a t = Ok a' /\ wf_array a' /\ capacity a' = 2 * capacity a /\
    forall j, t <= j < t + capacity a -> at_ a' j = at_ a j.
Proof.
  intros Ha Hlt. pose proof (pow2_pos _ (wa_pow _ Ha)). unfold ws_grow. rewrite (proj2 (Z.leb_gt _ _)) by lia.
  assert (Hp : pow2 (2 * capacity a)).
  { replace (2 * capacity a) with (Z.shiftl (capacity a) 1) by (rewrite shiftl_pow; lia). apply pow2_double, Ha. }
  destruct (grow_copy_spec t a (Z.to_nat (capacity a)) 0 (create_ws_array (2 * capacity a) eltsz)) as (a' & E & Hw & Hc & Hat);
    try done; [by apply wf_create | cbn; lia | lia | lia |].
  exists a'. split_and!; try done. intros j Hj. replace j with (t + (j - t)) by lia. apply Hat. lia.
Qed.

(** ** The invariant *)

(** The end of the deque. *)
Definition limit (q : ws_queue_t) : Z :=
  match owner q with PopTop b _ | PopCas _ b _ | PopRestore _ b => b + 1 | _ => bottom q end.

Definition owner_ok (q : ws_queue_t) (a : ws_array_t) (c : list elt) : Prop :=
  match owner q with
  | Idle => True
  | PushTop x b => Z.of_nat (length x) = eltsz /\ b = bottom q
  | PushArray x b t => Z.of_nat (length x) = eltsz /\ b = bottom q /\ t <= top q /\ b - t <= capacity a
  | PushCopy x b ary _ i => Z.of_nat (length x) = eltsz /\ b = bottom q /\ ary = array q /\ b - top q < capacity a /\
      0 <= i <= eltsz /\ take (Z.to_nat i) (at_ a b) = take (Z.to_nat i) x
  | PushBottom x b _ => b = bottom q /\ b - top q < capacity a /\ at_ a b = x
  | PopArray b => bottom q = b + 1
  | PopBottom b ary => bottom q = b + 1 /\ ary = array q
  | PopTop b ary => bottom q = b /\ ary = array q
  | PopCas dest b t => bottom q = b /\ t = b /\ b <= top q /\ (top q = b -> c = [dest])
  | PopRestore _ b => bottom q = b /\ c = []
  end.

Definition thief_ok (q : ws_queue_t) (c : list elt) (s : thief_pc) : Prop :=
  match s with
  | StealBottom dest t => Z.of_nat (length dest) = eltsz /\ t <= top q
  | StealArray dest t => Z.of_nat (length dest) = eltsz /\ t <= top q /\ (top q = t -> c <> [])
  | StealCopy dest t ary k => Z.of_nat (length dest) = eltsz /\ t <= top q /\ 0 <= k <= eltsz /\
      exists a, arrays q !! ary = Some a /\
        (top q = t -> head c = Some (at_ a t) /\ take (Z.to_nat k) dest = take (Z.to_nat k) (at_ a t))
  | StealCas dest t => t <= top q /\ (top q = t -> head c = Some dest)
  end.

Record inv (q : ws_queue_t) (c : list elt) (a : ws_array_t) : Prop := {
  inv_arrays : Forall wf_array (arrays q);
  inv_array : arrays q !! array q = Some a;
  inv_top : 0 <= top q;
  inv_limit : limit q = top q + Z.of_nat (length c);
  inv_fits : Z.of_nat (length c) <= capacity a;
  inv_holds : forall k x, c !! k = Some x -> at_ a (top q + Z.of_nat k) = x;
  inv_owner : owner_ok q a c;
  inv_thieves : forall i s, thieves q !! i = Some s -> thief_ok q c s
}.

Lemma inv_wf q c a : inv q c a -> wf_array a.
Proof. intros [H1 H2 _ _ _ _ _ _]. by eapply (Forall_lookup_1 _ _ _ _ H1). Qed.

Lemma get_array_ok q n a : arrays q !! n = Some a -> get_array q n = Ok a.
Proof. intros H. unfold get_array. apply rd_lookup. rewrite Nat2Z.id. split; [lia | done]. Qed.

Lemma head_at q c a x : inv q c a -> head c = Some x -> at_ a (top q) = x.
Proof.
  intros Hi Hx. rewrite <- (Z.add_0_r (top q)). apply (inv_holds _ _ _ Hi 0%nat). by destruct c.
Qed.

(** What a thief knows outlasts a change that keeps [top], the front of the
    deque and the arrays there. *)
Lemma thief_stable q q' c c' s : thief_ok q c s -> top q' = top q ->
  (forall x, head c = Some x -> head c' = Some x) ->
  (forall n a, arrays q !! n = Some a -> exists a', arrays q' !! n = Some a' /\ (c <> [] -> at_ a' (top q) = at_ a (top q))) ->
  thief_ok q' c' s.
Proof.
  intros Hs Ht Hh Ha. destruct s as [dest t | dest t | dest t n k | dest t]; cbn in *; rewrite Ht.
  - done.
  - destruct Hs as (H1 & H2 & H3). split_and!; try done. intros E. specialize (H3 E).
    destruct c as [| x c]; [done |]. specialize (Hh x eq_refl). by destruct c'.
  - destruct Hs as (H1 & H2 & H3 & a & H4 & H5). split_and!; try lia. destruct (Ha _ _ H4) as (a' & H6 & H7).
    exists a'. split; [done |]. intros E. destruct (H5 E) as [H8 H9]. rewrite E in H7. rewrite H7; [by split; [apply Hh |] |].
    by destruct c.
  - destruct Hs as [H1 H2]. split; [done |]. intros E. by apply Hh, H2.
Qed.

(** When [top] moves on, every steal under way has lost. *)
Lemma thief_lost q q' c c' s : thief_ok q c s -> top q < top q' -> arrays q' = arrays q -> thief_ok q' c' s.
Proof.
  intros Hs Ht Ha. destruct s as [dest t | dest t | dest t n k | dest t]; cbn in *; rewrite ?Ha.
  - lia.
  - destruct Hs as (H1 & H2 & H3). split_and!; lia.
  - destruct Hs as (H1 & H2 & H3 & a & H4 & H5). split_and!; try lia. exists a. split; [done | lia].
  - split; lia.
Qed.

Lemma same_arrays q q' (c : list elt) : arrays q' = arrays q ->
  forall n a, arrays q !! n = Some a -> exists a', arrays q' !! n = Some a' /\ (c <> [] -> at_ a' (top q) = at_ a (top q)).
Proof. intros -> n a H. by exists a. Qed.

(** ** Moves that change only who does what next *)

Lemma inv_owner_move q c a o : inv q c a -> limit (set_owner q o) = limit q -> owner_ok (set_owner q o) a c -> inv (set_owner q o) c a.
Proof. intros [H1 H2 H3 H4 H5 H6 _ H8] Hl Ho. split; try done. by rewrite Hl. Qed.

Lemma inv_thief_move q c a i s : inv q c a -> thief_ok q c s -> inv (set_thieves q (<[i := s]> (thieves q))) c a.
Proof.
  intros [H1 H2 H3 H4 H5 H6 H7 H8] Hs. split; try done. cbn. intros j s' [[<- <-] | [_ Hj]]%lookup_insert_Some; [done |]. by apply (H8 j).
Qed.

Lemma inv_thief_return q c a i : inv q c a -> inv (set_thieves q (delete i (thieves q))) c a.
Proof.
  intros [H1 H2 H3 H4 H5 H6 H7 H8]. split; try done. cbn. intros j s [_ Hj]%lookup_delete_Some. by apply (H8 j).
Qed.

Lemma copy_byte_spec (src dest : elt) i : Z.of_nat (length src) = eltsz -> Z.of_nat (length dest) = eltsz -> 0 <= i < eltsz ->
  exists d, copy_byte src dest i = Ok d /\ Z.of_nat (length d) = eltsz /\
    (take (Z.to_nat i) dest = take (Z.to_nat i) src -> take (Z.to_nat (i + 1)) d = take (Z.to_nat (i + 1)) src).
Proof.
  intros Hs Hd Hi. destruct (rd_in_range src i) as (x & E & Hx); [lia |]. unfold copy_byte. rewrite E. cbn [obind].
  rewrite wr_in_range by lia. eexists. split; [reflexivity |]. rewrite length_insert. split; [done |]. intros Ht.
  replace (Z.to_nat (i + 1)) with (S (Z.to_nat i)) by lia.
  rewrite (take_S_r _ _ x) by (apply list_lookup_insert_eq; lia). rewrite (take_S_r _ _ x Hx). by rewrite take_insert_ge, Ht by lia.
Qed.

Lemma copied_whole (x y : elt) i : Z.of_nat (length x) = eltsz -> Z.of_nat (length y) = eltsz -> eltsz <= i ->
  take (Z.to_nat i) x = take (Z.to_nat i) y -> x = y.
Proof. intros Hx Hy Hi. by rewrite !take_ge by lia. Qed.

(** ** Pushing *)

Definition simulates (c : list elt) (es : list event) (q' : ws_queue_t) : Prop :=
  exists c' a', inv q' c' a' /\ deque_run c es c'.

Lemma simulates_quiet q c a : inv q c a -> simulates c [] q.
Proof. intros H. exists c, a. split; [done | constructor]. Qed.

Lemma simulates_event q c a c' e : inv q c' a -> deque_step c e c' -> simulates c [e] q.
Proof. intros H He. exists c', a. split; [done |]. by apply (dr_snoc c [] c e c'); [constructor |]. Qed.

Lemma push_grow_ok q c a x b t a' : inv q c a -> owner q = PushArray x b t -> wf_array a' -> capacity a' = 2 * capacity a ->
  capacity a - 1 < b - t -> (forall j, t <= j < t + capacity a -> at_ a' j = at_ a j) ->
  inv (set_owner (set_arrays q (length (arrays q)) (arrays q ++ [a'])) (PushCopy x b (length (arrays q)) (Some (array q)) 0)) c a'.
Proof.
  intros Hi Eo Hw Hc Hfull Hat. pose proof (pow2_pos _ (wa_pow _ Hw)) as Hp. pose proof Hi as [H1 H2 H3 H4 H5 H6 H7 H8]. unfold owner_ok, limit in *. rewrite Eo in *.
  destruct H7 as (Hx & -> & Ht & Hb). split; cbn; try done; try lia.
  - by apply Forall_app; split; [| constructor].
  - by rewrite lookup_app_r, Nat.sub_diag by lia.
  - intros k y Hk. pose proof (lookup_lt_Some _ _ _ Hk). rewrite Hat by lia. by apply H6.
  - split_and!; try done; lia.
  - intros i s Hs. apply (thief_stable q _ c c); [by apply (H8 i) | done | done |]. intros n y Hn. exists y. split; [| done].
    cbn. by apply lookup_app_l_Some.
Qed.

(** The owner's [memcpy] touches only the free slot at the bottom. *)
Lemma push_copy_ok q c a x b n o i d : inv q c a -> owner q = PushCopy x b n o i -> i < eltsz -> Z.of_nat (length d) = eltsz ->
  take (Z.to_nat (i + 1)) d = take (Z.to_nat (i + 1)) x ->
  inv (set_owner (set_arrays q (array q) (<[n := put a b d]> (arrays q))) (PushCopy x b n o (i + 1))) c (put a b d).
Proof.
  intros Hi Eo Hlt Hd Ht. pose proof (inv_wf q c a Hi) as Hw. pose proof Hi as [H1 H2 H3 H4 H5 H6 H7 H8]. unfold owner_ok, limit in *. rewrite Eo in *.
  destruct H7 as (Hx & -> & -> & Hb & H0 & _).
  assert (Hat : forall j, top q <= j < bottom q -> at_ (put a (bottom q) d) j = at_ a j) by (intros j Hj; apply at_put_ne; [done | lia | lia]).
  split; cbn; try done.
  - apply Forall_insert; [done |]. by apply wf_put.
  - apply list_lookup_insert_eq. by eapply lookup_lt_Some.
  - intros k y Hk. pose proof (lookup_lt_Some _ _ _ Hk). rewrite Hat by lia. by apply H6.
  - split_and!; try done; try lia. by rewrite at_put.
  - intros j s Hs. apply (thief_stable q _ c c); [by apply (H8 j) | done | done |]. intros m y Hm. cbn.
    destruct (decide (m = array q)) as [-> | Hne].
    + exists (put a (bottom q) d). split; [by apply list_lookup_insert_eq; eapply lookup_lt_Some |]. intros Hc.
      rewrite H2 in Hm. injection Hm as <-. apply Hat. destruct c; [done |]. cbn in H4. lia.
    + exists y. by rewrite list_lookup_insert_ne.
Qed.

Lemma push_bottom_ok q c a x b o : inv q c a -> owner q = PushBottom x b o -> inv (set_owner (set_bottom q (b + 1)) Idle) (c ++ [x]) a.
Proof.
  intros [H1 H2 H3 H4 H5 H6 H7 H8] Eo. unfold owner_ok, limit in *. rewrite Eo in *. destruct H7 as (-> & Hb & Hx).
  split; cbn; try done; rewrite ?length_app; cbn; try lia.
  - intros k y [Hk | [Hk [E <-]%list_lookup_singleton_Some]]%lookup_app_Some; [by apply H6 |].
    rewrite <- Hx. f_equal. lia.
  - intros i s Hs. apply (thief_stable q _ c (c ++ [x])); [by apply (H8 i) | done | | by apply same_arrays]. intros y Hy. by destruct c.
Qed.

(** The owner is in a push. *)
Definition pushing (o : owner_pc) : bool :=
  match o with PushTop _ _ | PushArray _ _ _ | PushCopy _ _ _ _ _ | PushBottom _ _ _ => true | _ => false end.

(** The current array has its largest size. *)
Definition full_size (a : ws_array_t) : Prop := 2 ^ 31 <= 2 * capacity a.

Lemma push_step_ok q c a : inv q c a -> pushing (owner q) = true ->
  (exists q' es, push_step eltsz q = Ok (q', es) /\ simulates c es q') \/ (full_size a /\ push_step eltsz q = UB).
Proof.
  intros Hi Hp. pose proof (inv_wf q c a Hi) as Hw. pose proof Hi as [H1 H2 H3 H4 H5 H6 H7 H8].
  unfold push_step. unfold owner_ok, limit in *. destruct (owner q) as [| x b | x b t | x b n o i | x b o | | | | |] eqn:Eo; try done; clear Hp.
  - left. destruct H7 as [Hx ->]. do 2 eexists. split; [reflexivity |]. eapply simulates_quiet, (inv_owner_move q c a); [done | |]; unfold limit, owner_ok; cbn; [by rewrite Eo |].
    split_and!; try done; lia.
  - rewrite (get_array_ok q _ a) by done. cbn [obind]. destruct (Z.ltb_spec (capacity a - 1) (b - t)) as [Hf | Hf].
    + destruct (Z_lt_le_dec (2 * capacity a) (2 ^ 31)) as [Hsz | Hsz]; [left | right; split; [done |]; unfold ws_grow; by rewrite (proj2 (Z.leb_le _ _))].
      destruct (ws_grow_spec a t Hw Hsz) as (a' & -> & Hw' & Hc & Hat). cbn [obind].
      do 2 eexists. split; [reflexivity |]. by eapply simulates_quiet, push_grow_ok.
    + left. destruct H7 as (Hx & -> & Ht & Hb). do 2 eexists. split; [reflexivity |].
      eapply simulates_quiet, (inv_owner_move q c a); [done | |]; unfold limit, owner_ok; cbn; [by rewrite Eo |]. split_and!; try done; lia.
  - left. destruct H7 as (Hx & -> & -> & Hb & H0 & Ht). destruct (Z.ltb_spec i eltsz) as [Hlt | Hge].
    + rewrite (get_array_ok q _ a) by done. cbn [obind]. destruct (slot_at a (bottom q) Hw) as [-> Hl]. cbn [obind].
      destruct (copy_byte_spec x (at_ a (bottom q)) i Hx Hl) as (d & -> & Hd & Htd); [lia |]. cbn [obind].
      rewrite wr_slot by done. cbn [obind]. rewrite wr_in_range by (apply lookup_lt_Some in H2; lia). rewrite Nat2Z.id. cbn [obind].
      do 2 eexists. split; [reflexivity |]. eapply simulates_quiet, (push_copy_ok q c a); try done. by apply Htd.
    + do 2 eexists. split; [reflexivity |]. eapply simulates_quiet, (inv_owner_move q c a); [done | |]; unfold limit, owner_ok; cbn; [by rewrite Eo |].
      split_and!; try done. apply (copied_whole _ _ i); try done. apply (slot_at a (bottom q) Hw).
  - left. do 2 eexists. split; [reflexivity |]. eapply simulates_event; [by eapply push_bottom_ok | constructor].
Qed.

(** ** Popping *)

Definition popping (o : owner_pc) : bool :=
  match o with PopArray _ | PopBottom _ _ | PopTop _ _ | PopCas _ _ _ | PopRestore _ _ => true | _ => false end.

Lemma pop_top_ok q c a b n : inv q c a -> owner q = PopTop b n -> top q < b -> exists c',
  c = c' ++ [at_ a b] /\ inv (set_owner q Idle) c' a.
Proof.
  intros [H1 H2 H3 H4 H5 H6 H7 H8] Eo Hlt. unfold owner_ok, limit in *. rewrite Eo in *. destruct H7 as [Hb ->].
  destruct c as [| x c _] using rev_ind; [cbn in H4; lia |]. rewrite length_app in *. cbn in H4, H5. exists c. split.
  { do 2 f_equal. rewrite <- (H6 (length c) x) by (by rewrite lookup_app_r, Nat.sub_diag by lia). f_equal. lia. }
  split; try done; cbn; try lia.
  - intros k y Hk. apply H6. by apply lookup_app_l_Some.
  - intros i s Hs. apply (thief_stable q _ (c ++ [x]) c); [by apply (H8 i) | done | | by apply same_arrays].
    destruct c; [cbn in H4; lia | done].
Qed.

Lemma pop_cas_ok q c a dest b : inv q c a -> owner q = PopCas dest b b -> top q = b ->
  c = [dest] /\ inv (set_owner (set_top q (b + 1)) (PopRestore dest b)) [] a.
Proof.
  intros [H1 H2 H3 H4 H5 H6 H7 H8] Eo Ht. unfold owner_ok, limit in *. rewrite Eo in *. destruct H7 as (Hb & _ & _ & Hc).
  specialize (Hc Ht) as ->. split; [done |]. split; try done; unfold limit, owner_ok; cbn in *; try lia; try done.
  intros i s Hs. apply (thief_lost q _ [dest]); [by apply (H8 i) | cbn; lia | done].
Qed.

Lemma pop_step_ok q c a : inv q c a -> popping (owner q) = true ->
  exists q' es, pop_step eltsz q = Ok (q', es) /\ simulates c es q'.
Proof.
  intros Hi Hp. pose proof (inv_wf q c a Hi) as Hw. pose proof Hi as [H1 H2 H3 H4 H5 H6 H7 H8].
  unfold pop_step. unfold owner_ok, limit in *. destruct (owner q) as [| | | | | b | b n | b n | dest b t | dest b] eqn:Eo; try done; clear Hp.
  - do 2 eexists. split; [reflexivity |]. eapply simulates_quiet, (inv_owner_move q c a); [done | |]; unfold limit, owner_ok; cbn; [by rewrite Eo | done].
  - destruct H7 as [Hb ->]. do 2 eexists. split; [reflexivity |]. eapply simulates_quiet. split; try done; unfold limit, owner_ok; cbn; try done; lia.
  - destruct (Z.leb_spec (top q) b) as [Hle | Hgt].
    + destruct H7 as [Hb ->]. rewrite (get_array_ok q _ a) by done. cbn [obind]. destruct (slot_at a b Hw) as [-> _]. cbn [obind].
      destruct (Z.eqb_spec (top q) b) as [He | Hne]; do 2 eexists; (split; [reflexivity |]).
      * eapply simulates_quiet, (inv_owner_move q c a); [done | |]; unfold limit, owner_ok; cbn; [by rewrite Eo |]. split_and!; try done; [lia |].
        intros _. destruct c as [| x [|]]; cbn in H4; try lia. f_equal. rewrite <- (H6 0%nat x eq_refl). f_equal. cbn. lia.
      * destruct (pop_top_ok q c a b (array q) Hi Eo) as (c' & -> & Hi'); [lia |]. eapply simulates_event; [done | constructor].
    + do 2 eexists. split; [reflexivity |]. destruct c; [| cbn in H4; lia].
      eapply simulates_event; [| constructor]. apply (inv_owner_move q [] a); [done | |]; unfold limit, owner_ok; cbn; [by rewrite Eo | by destruct H7].
  - destruct H7 as (Hb & -> & Hle & Hc). destruct (Z.eqb_spec (top q) b) as [He | Hne]; do 2 eexists; (split; [reflexivity |]).
    + destruct (pop_cas_ok q c a dest b Hi Eo He) as [-> Hi']. eapply simulates_event; [done |]. apply (dq_pop []).
    + destruct c; [| cbn in H4; lia].
      eapply simulates_event; [| constructor]. apply (inv_owner_move q [] a); [done | |]; unfold limit, owner_ok; cbn; [by rewrite Eo | done].
  - destruct H7 as [Hb ->]. do 2 eexists. split; [reflexivity |]. eapply simulates_quiet. by split.
Qed.

(** ** Stealing *)

Lemma steal_cas_ok q c a i dest : inv q c a -> head c = Some dest -> exists c', c = dest :: c' /\
  inv (set_thieves (set_top q (top q + 1)) (delete i (thieves q))) c' a.
Proof.
  intros [H1 H2 H3 H4 H5 H6 H7 H8] Hh. destruct c as [| x c]; [done |]. injection Hh as ->. exists c. split; [done |]. cbn in H4, H5.
  split; try done; cbn; try lia.
  - unfold limit in *. cbn. lia.
  - intros k y Hk. rewrite <- (H6 (S k) y Hk). f_equal. lia.
  - unfold owner_ok in *. cbn. destruct (owner q); intuition (done || lia).
  - intros j s [_ Hj]%lookup_delete_Some. apply (thief_lost q _ (dest :: c)); [by apply (H8 j) | cbn; lia | done].
Qed.

Lemma steal_step_ok q c a i s : inv q c a -> thieves q !! i = Some s ->
  exists q' es, steal_step eltsz q i s = Ok (q', es) /\ simulates c es q'.
Proof.
  intros Hi Hs. pose proof (inv_wf q c a Hi) as Hw. pose proof Hi as [H1 H2 H3 H4 H5 H6 H7 H8]. specialize (H8 i s Hs).
  destruct s as [dest t | dest t | dest t n k | dest t]; cbn [steal_step thief_ok] in *.
  - destruct (Z.ltb_spec t (bottom q)) as [Hlt | Hge]; do 2 eexists; (split; [reflexivity |]).
    + eapply simulates_quiet, inv_thief_move; [done |]. cbn. split_and!; try apply H8. intros Ht ->.
      cbn in H4. unfold limit, owner_ok in *. destruct (owner q); intuition lia.
    + eapply simulates_event; [by apply inv_thief_return | constructor].
  - do 2 eexists. split; [reflexivity |]. eapply simulates_quiet, inv_thief_move; [done |]. cbn. destruct H8 as (Hd & Hle & Hc).
    split_and!; try done; try lia. exists a. split; [done |]. intros Ht. specialize (Hc Ht). split; [| done].
    destruct c as [| x c]; [done |]. cbn. f_equal. rewrite <- Ht. symmetry. by apply (head_at q (x :: c)).
  - destruct H8 as (Hd & Hle & Hk & a' & Ha' & Hc). destruct (Z.ltb_spec k eltsz) as [Hlt | Hge].
    + rewrite (get_array_ok q _ a') by done. cbn [obind].
      assert (Hw' : wf_array a') by (by eapply (Forall_lookup_1 _ _ _ _ H1)). destruct (slot_at a' t Hw') as [-> Hl]. cbn [obind].
      destruct (copy_byte_spec (at_ a' t) dest k Hl Hd) as (d & -> & Hd' & Htd); [lia |]. cbn [obind]. do 2 eexists. split; [reflexivity |].
      eapply simulates_quiet, inv_thief_move; [done |]. cbn. split_and!; try done; try lia. exists a'. split; [done |].
      intros Ht. destruct (Hc Ht) as [Hh Hp]. split; [done | by apply Htd].
    + do 2 eexists. split; [reflexivity |]. eapply simulates_quiet, inv_thief_move; [done |]. cbn. split; [done |]. intros Ht.
      destruct (Hc Ht) as [Hh Hp]. rewrite Hh. f_equal. symmetry. apply (copied_whole _ _ k); try done.
      apply (slot_at a' t). by eapply (Forall_lookup_1 _ _ _ _ H1).
  - destruct (Z.eqb_spec (top q) t) as [<- | Hne]; do 2 eexists; (split; [reflexivity |]).
    + destruct (steal_cas_ok q c a i dest Hi) as (c' & -> & Hi'); [by apply H8 |]. eapply simulates_event; [exact Hi' | constructor].
    + eapply simulates_event; [by apply inv_thief_return | constructor].
Qed.

(** ** Executions *)

Lemma owner_cases o : o = Idle \/ pushing o = true \/ popping o = true.
Proof. destruct o; auto. Qed.

Lemma step_ok q es q' c a : inv q c a -> step eltsz q es q' -> simulates c es q'.
Proof.
  intros Hi Hs. destruct Hs as [q x Eo Hx | q Eo | q q' es E | q q' es E | q i dest _ Hd | q q' i s es Hs E].
  - eapply simulates_quiet, (inv_owner_move q c a); [done | |]; unfold limit, owner_ok; cbn; [by rewrite Eo | done].
  - eapply simulates_quiet, (inv_owner_move q c a); [done | |]; unfold limit, owner_ok; cbn; [by rewrite Eo | lia].
  - destruct (owner_cases (owner q)) as [Eo | [Hp | Hp]]; [unfold push_step in E; by rewrite Eo in E | | by unfold push_step in E; destruct (owner q)].
    destruct (push_step_ok q c a Hi Hp) as [(q1 & es1 & E1 & H) | [_ E1]]; rewrite E in E1; [by injection E1 as -> -> | done].
  - destruct (owner_cases (owner q)) as [Eo | [Hp | Hp]]; [unfold pop_step in E; by rewrite Eo in E | by unfold pop_step in E; destruct (owner q) |].
    destruct (pop_step_ok q c a Hi Hp) as (q1 & es1 & E1 & H). rewrite E in E1. by injection E1 as -> ->.
  - eapply simulates_quiet, inv_thief_move; [done |]. cbn. split; [done | lia].
  - destruct (steal_step_ok q c a i s Hi Hs) as (q1 & es1 & E1 & H). rewrite E in E1. by injection E1 as -> ->.
Qed.

Lemma deque_run_app c es c' es' c'' : deque_run c es c' -> deque_run c' es' c'' -> deque_run c (es ++ es') c''.
Proof.
  intros H H'. revert H. induction H' as [| c' es' c1 e c'' _ IH Hs]; intros H; [by rewrite app_nil_r |].
  rewrite app_assoc. by eapply dr_snoc; [apply IH |].
Qed.

Lemma init_inv cap : pow2 cap -> inv (ws_queue_init eltsz cap) [] (create_ws_array cap eltsz).
Proof.
  intros Hp. pose proof (pow2_pos _ Hp). split; cbn; try done; try lia.
  constructor; [by apply wf_create | constructor].
Qed.

Lemma steps_inv cap es q : pow2 cap -> steps eltsz (ws_queue_init eltsz cap) es q -> exists c a, deque_run [] es c /\ inv q c a.
Proof.
  intros Hp H. remember (ws_queue_init eltsz cap) as q0 eqn:E. induction H as [q | q es q' es' q'' _ IH Hs].
  - subst q. exists [], (create_ws_array cap eltsz). split; [constructor | by apply init_inv].
  - destruct (IH E) as (c & a & Hr & Hi). destruct (step_ok _ _ _ _ _ Hi Hs) as (c' & a' & Hi' & Hr').
    exists c', a'. split; [by eapply deque_run_app | done].
Qed.

(** What an invariant state looks like from outside. *)
Lemma inv_contents q c a : inv q c a -> owner q = Idle -> bottom q = top q + Z.of_nat (length c) /\
  forall k x, c !! k = Some x -> slot a (top q + Z.of_nat k) = Ok x.
Proof.
  intros Hi Eo. pose proof Hi as [_ _ _ H4 _ H6 _ _]. unfold limit in H4. rewrite Eo in H4. split; [done |].
  intros k x Hk. destruct (slot_at a (top q + Z.of_nat k) (inv_wf _ _ _ Hi)) as [-> _]. by rewrite (H6 k x).
Qed.
End Facts.

(** C3: The work-stealing queue is a deque, whatever the interleaving of the
    owner with any number of thieves and through any growth of the array.  The
    operations take effect one after the other: a push at the back, a pop from
    the back that comes back empty only if the deque is empty, a steal from
    the front.  So every element pushed is taken at most once and is otherwise
    still there, with all its bytes; when the owner is between operations the
    elements that are there lie in the array from [top] to [bottom].  No
    operation reads or writes outside an array or gets stuck, unless the array
    cannot grow any more because its capacity is an [int32_t]. *)
Theorem ws_queue_linearizable (eltsz cap : Z) (es : list event) (q : ws_queue_t) :
  0 <= eltsz -> pow2 cap -> steps eltsz (ws_queue_init eltsz cap) es q ->
  exists c a, deque_run [] es c /\
    concat (map pushed es) ≡ₚ concat (map taken es) ++ c /\
    get_array q (array q) = Ok a /\
    (owner q = Idle -> bottom q = top q + Z.of_nat (length c) /\
       forall k x, c !! k = Some x -> slot a (top q + Z.of_nat k) = Ok x) /\
    (forall i s, thieves q !! i = Some s -> exists r, steal_step eltsz q i s = Ok r) /\
    (owner q <> Idle -> (exists r, push_step eltsz q = Ok r \/ pop_step eltsz q = Ok r) \/ 2 ^ 31 <= 2 * capacity a).
Proof.
  intros H0 Hp Hs. destruct (steps_inv eltsz H0 cap es q Hp Hs) as (c & a & Hr & Hi). exists c, a. split; [done |].
  split; [apply (deque_run_perm _ _ _ Hr) |]. split; [apply get_array_ok, Hi |].
  split; [by apply (inv_contents eltsz) |]. split.
  - intros i s Hi'. destruct (steal_step_ok eltsz H0 q c a i s Hi Hi') as (q' & es' & E & _). by eexists.
  - intros Hid. destruct (owner_cases (owner q)) as [| [Hpu | Hpo]]; [done | |].
    + destruct (push_step_ok eltsz H0 q c a Hi Hpu) as [(q' & es' & E & _) | [? _]]; [left; eexists; by left | by right].
    + destruct (pop_step_ok eltsz q c a Hi Hpo) as (q' & es' & E & _). left. eexists. by right.
Qed.

(** ** A run *)

Inductive action := APush (x : elt) | APop | AOwner | ASteal (i : nat) (dest : elt) | AThief (i : nat).

Definition exec1 (eltsz : Z) (q : ws_queue_t) (a : action) : outcome (ws_queue_t * list event) :=
  match a, owner q with
  | APush x, Idle => if Z.of_nat (length x) =? eltsz then Ok (set_owner q (PushTop x (bottom q)), []) else UB
  | APop, Idle => Ok (set_owner q (PopArray (bottom q - 1)), [])
  | AOwner, o => if pushing o then push_step eltsz q else pop_step eltsz q
  | ASteal i dest, _ =>
      match thieves q !! i with
      | None => if Z.of_nat (length dest) =? eltsz then Ok (set_thieves q (<[i := StealBottom dest (top q)]> (thieves q)), []) else UB
      | Some _ => UB
      end
  | AThief i, _ => match thieves q !! i with Some s => steal_step eltsz q i s | None => UB end
  | _, _ => UB
  end.

Fixpoint exec (eltsz : Z) (q : ws_queue_t) (l : list action) : outcome (ws_queue_t * list event) :=
  match l with
  | [] => Ok (q, [])
  | a :: l => let! (q, es) := exec1 eltsz q a in let! (q, es') := exec eltsz q l in Ok (q, es ++ es')
  end.

Lemma exec1_step eltsz q a q' es : exec1 eltsz q a = Ok (q', es) -> step eltsz q es q'.
Proof.
  unfold exec1. destruct a as [x | | | i dest | i].
  - destruct (owner q) eqn:Eo; try done. destruct (Z.eqb_spec (Z.of_nat (length x)) eltsz); [| done]. intros [= <- <-]. by constructor.
  - destruct (owner q) eqn:Eo; try done. intros [= <- <-]. by constructor.
  - destruct (pushing (owner q)); by constructor.
  - destruct (thieves q !! i) eqn:Ei; [done |]. destruct (Z.eqb_spec (Z.of_nat (length dest)) eltsz); [| done]. intros [= <- <-]. by constructor.
  - destruct (thieves q !! i) eqn:Ei; [| done]. by econstructor.
Qed.

Lemma exec_steps eltsz l : forall q0 es0 q q' es, steps eltsz q0 es0 q -> exec eltsz q l = Ok (q', es) -> steps eltsz q0 (es0 ++ es) q'.
Proof.
  induction l as [| a l IH]; intros q0 es0 q q' es Hs; cbn [exec].
  - intros [= <- <-]. by rewrite app_nil_r.
  - intros ([q1 es1] & E1%exec1_step & ([q2 es2] & E2 & [= <- <-])%obind_Ok_inv)%obind_Ok_inv. rewrite app_assoc.
    apply (IH _ _ q1); [| done]. by eapply steps_snoc.
Qed.

(** Two pushes into an array of one slot, a thief that reads the old array
    while it is replaced, and a pop that races with another thief for the last
    element and loses. *)
Definition demo_run : list action :=
  [APush [Some 7]; AOwner; AOwner; AOwner; AOwner; AOwner] ++ [ASteal 1 [None]; AThief 1; AThief 1] ++
  [APush [Some 8]; AOwner; AOwner; AOwner; AOwner; AOwner] ++ [AThief 1; AThief 1; AThief 1] ++
  [ASteal 2 [None]; AThief 2; AThief 2; AThief 2; AThief 2] ++ [APop; AOwner; AOwner; AOwner; AThief 2; AOwner; AOwner].

Lemma ws_queue_linearizable_witness : exists q c,
  steps 1 (ws_queue_init 1 1) [EPush [Some 7]; EPush [Some 8]; ESteal (Some [Some 7]); ESteal (Some [Some 8]); EPop None] q /\
  deque_run [] [EPush [Some 7]; EPush [Some 8]; ESteal (Some [Some 7]); ESteal (Some [Some 8]); EPop None] c.
Proof.
  destruct (exec 1 (ws_queue_init 1 1) demo_run) as [[q es] | |] eqn:E; [| vm_compute in E; discriminate | vm_compute in E; discriminate].
  assert (Hs : steps 1 (ws_queue_init 1 1) es q) by (apply (exec_steps 1 demo_run _ [] (ws_queue_init 1 1) q es (steps_nil 1 _) E)).
  vm_compute in E. injection E as Eq Ees. rewrite <- Ees in Hs.
  destruct (ws_queue_linearizable 1 1 _ q ltac:(lia) ltac:(by exists 0) Hs) as (c & a & Hr & _).
  exists q, c. split; [exact Hs | exact Hr].
Defined.
