(* ===== verification/Objects.v ===== *)
(** * Objects, types and layouts (julia.h)

    The heap maps addresses to objects: a header with the type tag, and a
    body.  The data of a plain struct is a list of bytes, in which a pointer is
    a little-endian word; the types the runtime treats specially (simple
    vectors, strings, data types, type names, symbols and modules) have bodies
    of their own.  A location is an object with a byte offset into its data. *)

From stdpp Require Import base gmap numbers option list.
From Stdlib Require Import ZArith Lia.
From S2P Require Import Prelude Hashing.

Abbreviation ptr := Z (only parsing).

(** ** Type tags *)

Inductive jl_small_typeof_tags :=
| jl_null_tag
| jl_typeofbottom_tag | jl_datatype_tag | jl_unionall_tag | jl_uniontype_tag
| jl_vararg_tag | jl_tvar_tag | jl_symbol_tag | jl_module_tag
| jl_simplevector_tag | jl_string_tag | jl_task_tag
| jl_bool_tag | jl_nothing_tag | jl_char_tag
| jl_int16_tag | jl_int32_tag | jl_int64_tag | jl_int8_tag
| jl_uint16_tag | jl_uint32_tag | jl_uint64_tag | jl_uint8_tag
| jl_addrspacecore_tag | jl_intrinsic_tag
| jl_argument_tag | jl_slotnumber_tag | jl_ssavalue_tag | jl_gotoifnot_tag
| jl_returnnode_tag | jl_enternode_tag | jl_pinode_tag | jl_phinode_tag
| jl_phicnode_tag | jl_upsilonnode_tag | jl_globalref_tag | jl_gotonode_tag
| jl_quotenode_tag | jl_typeeq_tag
| jl_tags_count.

(** The constants in the order of the enumeration, from 0. *)
Definition small_tags : list jl_small_typeof_tags :=
  [jl_null_tag; jl_typeofbottom_tag; jl_datatype_tag; jl_unionall_tag; jl_uniontype_tag;
   jl_vararg_tag; jl_tvar_tag; jl_symbol_tag; jl_module_tag; jl_simplevector_tag; jl_string_tag; jl_task_tag;
   jl_bool_tag; jl_nothing_tag; jl_char_tag; jl_int16_tag; jl_int32_tag; jl_int64_tag; jl_int8_tag;
   jl_uint16_tag; jl_uint32_tag; jl_uint64_tag; jl_uint8_tag; jl_addrspacecore_tag; jl_intrinsic_tag;
   jl_argument_tag; jl_slotnumber_tag; jl_ssavalue_tag; jl_gotoifnot_tag; jl_returnnode_tag; jl_enternode_tag;
   jl_pinode_tag; jl_phinode_tag; jl_phicnode_tag; jl_upsilonnode_tag; jl_globalref_tag; jl_gotonode_tag;
   jl_quotenode_tag; jl_typeeq_tag; jl_tags_count].

#[global] Instance small_tag_eq_dec : EqDecision jl_small_typeof_tags.
Proof. solve_decision. Defined.

Definition jl_max_tags : Z := 64.

(** [name_tag << 4], the type tag of the objects with that small tag. *)
Fixpoint index_of (t : jl_small_typeof_tags) (l : list jl_small_typeof_tags) : Z :=
  match l with [] => 0 | t' :: l => if bool_decide (t = t') then 0 else 1 + index_of t l end.
Definition tag (t : jl_small_typeof_tags) : Z := Z.shiftl (index_of t small_tags) 4.

(** [(enum jl_small_typeof_tags)(dtag >> 4)] of a tag below [jl_max_tags << 4];
    [None] is a value that has no name. *)
Definition small_tag (dtag : Z) : option jl_small_typeof_tags := small_tags !! Z.to_nat (Z.shiftr dtag 4).
Definition is_small (dtag : Z) : bool := dtag <? Z.shiftl jl_max_tags 4.

(** ** Layouts *)

Inductive jl_fielddesc_type_t := JL_FIELDDESC_8 | JL_FIELDDESC_16 | JL_FIELDDESC_32 | JL_FIELDDESC_FOREIGN.

#[global] Instance fielddesc_type_eq_dec : EqDecision jl_fielddesc_type_t.
Proof. solve_decision. Defined.

Record jl_fielddesc32_t := FieldDesc { fd_isptr : bool; fd_size : Z; fd_offset : Z }.

(** [fields] and [ptrs] are the tables that follow the structure. *)
Record jl_datatype_layout_t := Layout {
  size : Z;
  nfields : Z;
  npointers : Z;
  first_ptr : Z;
  alignment : Z;
  haspadding : bool;
  fielddesc_type : jl_fielddesc_type_t;
  arrayelem : Z;
  isbitsegal : bool;
  fields : list jl_fielddesc32_t;
  ptrs : list Z
}.

Definition jl_is_layout_opaque (l : jl_datatype_layout_t) : bool := (nfields l =? 0) && (0 <? npointers l).

(** ** Objects *)

Record jl_typename_t := Typename {
  tn_wrapper : ptr;
  tn_hash : Z;
  tn_abstract : bool;
  tn_mutabl : bool;
  tn_mayinlinealloc : bool;
  tn_n_uninitialized : Z;
  tn_atomicfields : option (list Z);
  tn_constfields : option (list Z)
}.

Record jl_datatype_t := Datatype {
  dt_name : ptr;
  dt_parameters : ptr;
  dt_types : ptr;
  dt_instance : ptr;
  dt_layout : option jl_datatype_layout_t;
  dt_hash : Z;
  dt_isconcretetype : bool;
  dt_isprimitivetype : bool;
  dt_zeroinit : bool;
  dt_hasfreetypevars : bool;
  dt_isbitstype : bool;
  dt_has_concrete_subtype : bool;
  dt_ismutationfree : bool;
  dt_isidentityfree : bool;
  dt_smalltag : Z
}.

Inductive body :=
| BData (data : list Z)
| BSvec (elts : list ptr)
| BString (data : list Z)
| BDatatype (d : jl_datatype_t)
| BTypename (n : jl_typename_t)
| BSymbol (hash : Z)
| BModule (hash : Z).

(** An object with the word before its header, where the system image stores
    an identity. *)
Record obj := Obj { before : Z; header : Z; obody : body }.

Definition GC_IN_IMAGE : Z := 4.

(** The heap and the addresses of objects the runtime knows. *)
Record heap := Heap {
  objects : gmap Z obj;
  small_typeof : jl_small_typeof_tags -> ptr;
  jl_typename_type : ptr;
  jl_any_type : ptr;
  jl_nothing : ptr;
  jl_tuple_typename : ptr;
  jl_namedtuple_typename : ptr;
  jl_genericmemory_typename : ptr;
  jl_vecelement_typename : ptr;
  jl_bottom_type : ptr;
  jl_anytype_type : ptr;
  jl_intersect_type : ptr;
  jl_typeapp_type : ptr;
  jl_atomic_sym : ptr;
  jl_not_atomic_sym : ptr
}.

Section Access.
Context (H : heap).

Definition deref (p : ptr) : outcome obj := match objects H !! p with Some o => Ok o | None => UB end.
Definition jl_typetagof (p : ptr) : outcome Z := let! o := deref p in Ok (Z.land (header o) (Z.lnot 15)).

Definition get_svec (p : ptr) : outcome (list ptr) :=
  let! o := deref p in match obody o with BSvec l => Ok l | _ => UB end.
Definition get_datatype (p : ptr) : outcome jl_datatype_t :=
  let! o := deref p in match obody o with BDatatype d => Ok d | _ => UB end.
Definition get_typename (p : ptr) : outcome jl_typename_t :=
  let! o := deref p in match obody o with BTypename n => Ok n | _ => UB end.

(** The type object of a tag: an address, except for the small tags. *)
Definition jl_to_typeof (t : Z) : outcome ptr :=
  if is_small t then match small_tag t with Some s => Ok (small_typeof H s) | None => UB end else Ok t.
Definition jl_typeof (p : ptr) : outcome ptr := let! t := jl_typetagof p in jl_to_typeof t.

Definition is_tag (t : jl_small_typeof_tags) (p : ptr) : outcome bool := let! d := jl_typetagof p in Ok (d =? tag t).
Definition jl_is_uniontype (p : ptr) : outcome bool := is_tag jl_uniontype_tag p.
Definition jl_is_datatype (p : ptr) : outcome bool := is_tag jl_datatype_tag p.

(** ** Memory of structs *)

Definition loc : Type := ptr * Z.
Definition shift (l : loc) (offs : Z) : loc := (l.1, l.2 + offs).

Definition data_at (l : loc) : outcome (list Z) :=
  let! o := deref l.1 in
  match obody o with
  | BData bs => if (0 <=? l.2) && (l.2 <=? Z.of_nat (length bs)) then Ok (drop (Z.to_nat l.2) bs) else UB
  | _ => UB
  end.

Definition load_bytes (l : loc) (n : Z) : outcome (list Z) :=
  let! bs := data_at l in
  if (0 <=? n) && (n <=? Z.of_nat (length bs)) then Ok (take (Z.to_nat n) bs) else UB.

Definition load_uint (l : loc) (n : Z) : outcome Z := let! bs := load_bytes l n in Ok (le_word bs).

(** [((jl_value_t** )l)[i]] *)
Definition load_ptr (l : loc) (i : Z) : outcome ptr := load_uint (shift l (8 * i)) 8.

(** The field number [i] of a struct made of pointers. *)
Definition ptr_field (p : ptr) (i : Z) : outcome ptr := load_ptr (p, 0) i.

(** ** Types *)

(** The body under the variables; [fuel] bounds their number. *)
Fixpoint jl_unwrap_unionall (fuel : nat) (v : ptr) : outcome ptr :=
  let! u := is_tag jl_unionall_tag v in
  if (u : bool) then
    match fuel with
    | O => Timeout
    | S fuel' => let! b := ptr_field v 1 in jl_unwrap_unionall fuel' b
    end
  else Ok v.

Definition the_layout (d : jl_datatype_t) : outcome jl_datatype_layout_t :=
  match dt_layout d with Some l => Ok l | None => UB end.

(** The type's own layout, or that of its wrapper. *)
Definition jl_datatype_layout (fuel : nat) (d : jl_datatype_t) : outcome jl_datatype_layout_t :=
  match dt_layout d with
  | Some l =>
      if jl_is_layout_opaque l then
        let! n := get_typename (dt_name d) in
        let! w := jl_unwrap_unionall fuel (tn_wrapper n) in
        let! d := get_datatype w in the_layout d
      else Ok l
  | None =>
      let! n := get_typename (dt_name d) in
      let! w := jl_unwrap_unionall fuel (tn_wrapper n) in
      let! d := get_datatype w in the_layout d
  end.

Definition jl_mutabl (d : jl_datatype_t) : outcome bool := let! n := get_typename (dt_name d) in Ok (tn_mutabl n).

Definition jl_field_type_concrete (d : jl_datatype_t) (i : Z) : outcome ptr := let! l := get_svec (dt_types d) in rd l i.

(** The component number [i] of a union, counting from the left, and how many
    components were passed if there are fewer. *)
Fixpoint nth_union_component (fuel : nat) (v : ptr) (i : Z) : outcome (option ptr * Z) :=
  let! u := jl_is_uniontype v in
  if (u : bool) then
    match fuel with
    | O => Timeout
    | S fuel' =>
        let! a := ptr_field v 0 in
        let! (r, i) := nth_union_component fuel' a i in
        match r with
        | Some t => Ok (Some t, i)
        | None => let! b := ptr_field v 1 in nth_union_component fuel' b i
        end
    end
  else if i =? 0 then Ok (Some v, i) else Ok (None, i - 1).

Definition jl_nth_union_component (fuel : nat) (v : ptr) (i : Z) : outcome (option ptr) :=
  let! (r, _) := nth_union_component fuel v i in Ok r.
End Access.
