(* ===== verification/Egal.v ===== *)
(** * Egal and object identity (builtins.c)

    [jl_egal] compares immutable objects by their contents and mutable ones by
    address; [jl_object_id] is the hash that goes with it.  Both recurse
    through the heap: [fuel] bounds the chain of references, [depth] the
    nesting of structs stored inline in one another (and of unions and type
    variables). *)

From stdpp Require Import base gmap numbers option list.
From Stdlib Require Import ZArith Lia.
From S2P Require Import Prelude Hashing Bytes Objects.

(** An [outcome] that ends a loop early when it is [false]. *)
Definition and_then (m : outcome bool) (k : outcome bool) : outcome bool :=
  let! r := m in if (r : bool) then k else Ok false.

Section Egal.
Context (H : heap) (depth : nat).

(** ** Comparing memory *)

Definition bits_equal (a b : loc) (sz : Z) : outcome bool :=
  let! x := load_bytes H a sz in let! y := load_bytes H b sz in Ok (bool_decide (x = y)).

(** [!haspadding && isbitsegal] *)
Definition plain_bits (l : jl_datatype_layout_t) : bool := negb (haspadding l) && isbitsegal l.

Section Fields.
Context (jl_egal : ptr -> ptr -> outcome bool).

Fixpoint compare_elts (l1 l2 : list ptr) : outcome bool :=
  match l1, l2 with
  | x :: l1, y :: l2 => and_then (jl_egal x y) (compare_elts l1 l2)
  | _, _ => Ok true
  end.

Definition compare_svec (a b : ptr) : outcome bool :=
  let! l1 := get_svec H a in
  let! l2 := get_svec H b in
  if negb (Z.of_nat (length l1) =? Z.of_nat (length l2)) then Ok false else compare_elts l1 l2.

(** The loop over the pointers, at the word offsets [ps]. *)
Fixpoint compare_ptrs (ps : list Z) (a b : loc) : outcome bool :=
  match ps with
  | [] => Ok true
  | offs :: ps =>
      let! af := load_ptr H a offs in
      let! bf := load_ptr H b offs in
      and_then (if negb (af =? bf) then if (af =? 0) || (bf =? 0) then Ok false else jl_egal af bf else Ok true)
        (compare_ptrs ps a b)
  end.

(** The type the data of an inline field really has; [inl r] if the field is
    decided without it. *)
Definition inline_type (fd : jl_fielddesc32_t) (ft : ptr) (ao bo : loc) : outcome (bool + ptr) :=
  let! u := jl_is_uniontype H ft in
  if (u : bool) then
    let idx := fd_size fd - 1 in
    let! asel := load_uint H (shift ao idx) 1 in
    let! bsel := load_uint H (shift bo idx) 1 in
    if negb (asel =? bsel) then Ok (inl false)
    else
      let! ft := jl_nth_union_component H depth ft asel in
      match ft with Some ft => Ok (inr ft) | None => UB end
  else
    let! d := get_datatype H ft in
    let! ly := the_layout d in
    if 0 <=? first_ptr ly then
      let! ptra := load_ptr H ao (first_ptr ly) in
      let! ptrb := load_ptr H bo (first_ptr ly) in
      if negb (Bool.eqb (ptra =? 0) (ptrb =? 0)) then Ok (inl false)
      else if ptra =? 0 then Ok (inl true)
      else Ok (inr ft)
    else Ok (inr ft).

(** One round of the loop over the fields. *)
Definition compare_field (compare_fields : loc -> loc -> ptr -> outcome bool) (d : jl_datatype_t) (a b : loc)
    (f : Z) (fd : jl_fielddesc32_t) : outcome bool :=
  if fd_isptr fd then Ok true
  else
    let ao := shift a (fd_offset fd) in
    let bo := shift b (fd_offset fd) in
    let! ft := jl_field_type_concrete H d f in
    let! r := inline_type fd ft ao bo in
    match r with
    | inl r => Ok r
    | inr ft =>
        let! d := get_datatype H ft in
        let! ly := the_layout d in
        if plain_bits ly then bits_equal ao bo (size ly)
        else
          let! nl := jl_datatype_layout H depth d in
          if nfields nl =? 0 then UB else compare_fields ao bo ft
    end.

Fixpoint compare_each (compare_fields : loc -> loc -> ptr -> outcome bool) (d : jl_datatype_t) (a b : loc)
    (f : Z) (fds : list jl_fielddesc32_t) : outcome bool :=
  match fds with
  | [] => Ok true
  | fd :: fds => and_then (compare_field compare_fields d a b f fd) (compare_each compare_fields d a b (f + 1) fds)
  end.

Fixpoint compare_fields (n : nat) (a b : loc) (dt : ptr) : outcome bool :=
  match n with
  | O => Timeout
  | S n' =>
      let! d := get_datatype H dt in
      let! ly := jl_datatype_layout H depth d in
      let! own := the_layout d in
      and_then (compare_each (compare_fields n') d a b 0 (fields ly)) (compare_ptrs (ptrs own) a b)
  end.
End Fields.

Definition jl_egal__bits (jl_egal : ptr -> ptr -> outcome bool) (a b : loc) (dt : ptr) : outcome bool :=
  let! d := get_datatype H dt in
  let! ly := jl_datatype_layout H depth d in
  if size ly =? 0 then Ok true
  else
    let! own := the_layout d in
    if (nfields ly =? 0) || plain_bits own then bits_equal a b (size ly)
    else compare_fields jl_egal depth a b dt.

(** ** Types *)

Definition jl_nparams (d : jl_datatype_t) : outcome (list ptr) := get_svec H (dt_parameters d).

(** The bindings of [jl_typeenv_t], innermost first: the value of a
    variable. *)
Fixpoint env_lookup (env : list (ptr * ptr)) (var : ptr) : option ptr :=
  match env with
  | [] => None
  | (v, x) :: env => if v =? var then Some x else env_lookup env var
  end.

Definition or_any (t : ptr) : ptr := if t =? 0 then jl_any_type H else t.

Section Types.
Context (egal_bitstag : ptr -> ptr -> Z -> outcome bool).

Fixpoint egal_params (egal_types : ptr -> ptr -> outcome bool) (l1 l2 : list ptr) : outcome bool :=
  match l1, l2 with
  | x :: l1, y :: l2 => and_then (egal_types x y) (egal_params egal_types l1 l2)
  | _, _ => Ok true
  end.

Fixpoint egal_types (n : nat) (a b : ptr) (env : list (ptr * ptr)) (tvar_names : bool) : outcome bool :=
  match n with
  | O => Timeout
  | S n' =>
      if a =? b then Ok true
      else
        let! dtag := jl_typetagof H a in
        let! dtagb := jl_typetagof H b in
        if negb (dtag =? dtagb) then Ok false
        else if dtag =? tag jl_datatype_tag then
          let! dta := get_datatype H a in
          let! dtb := get_datatype H b in
          if negb (dt_name dta =? dt_name dtb) then Ok false
          else
            let! l1 := jl_nparams dta in
            let! l2 := jl_nparams dtb in
            if negb (Z.of_nat (length l2) =? Z.of_nat (length l1)) then Ok false
            else egal_params (fun x y => egal_types n' x y env tvar_names) l1 l2
        else if dtag =? tag jl_tvar_tag then
          Ok (match env_lookup env a with Some v => v =? b | None => false end)
        else if dtag =? tag jl_unionall_tag then
          let! va := ptr_field H a 0 in
          let! vb := ptr_field H b 0 in
          let! na := ptr_field H va 0 in
          let! nb := ptr_field H vb 0 in
          if tvar_names && negb (na =? nb) then Ok false
          else
            let! la := ptr_field H va 1 in
            let! lb := ptr_field H vb 1 in
            let! ua := ptr_field H va 2 in
            let! ub := ptr_field H vb 2 in
            let! bounds := and_then (egal_types n' la lb env tvar_names) (egal_types n' ua ub env tvar_names) in
            if negb bounds then Ok false
            else
              let! ba := ptr_field H a 1 in
              let! bb := ptr_field H b 1 in
              egal_types n' ba bb ((va, vb) :: env) tvar_names
        else if dtag =? tag jl_uniontype_tag then
          let! aa := ptr_field H a 0 in
          let! ba := ptr_field H b 0 in
          and_then (egal_types n' aa ba env tvar_names)
            (let! ab := ptr_field H a 1 in let! bb := ptr_field H b 1 in egal_types n' ab bb env tvar_names)
        else if dtag =? tag jl_typeeq_tag then
          let! ta := ptr_field H a 0 in
          let! tb := ptr_field H b 0 in
          egal_types n' ta tb env tvar_names
        else if dtag =? tag jl_vararg_tag then
          let! ta := ptr_field H a 0 in
          let! tb := ptr_field H b 0 in
          and_then (egal_types n' (or_any ta) (or_any tb) env tvar_names)
            (let! na := ptr_field H a 1 in
             let! nb := ptr_field H b 1 in
             if negb (na =? 0) && negb (nb =? 0) then egal_types n' na nb env tvar_names
             else Ok ((na =? 0) && (nb =? 0)))
        else
          let! t := jl_to_typeof H dtag in
          let! d := get_datatype H t in
          let! mut := jl_mutabl H d in
          if (dtag =? tag jl_symbol_tag) || (dtag =? tag jl_module_tag) || negb mut then egal_bitstag a b dtag else UB
  end.
End Types.

(** ** Egal *)

Definition jl_egal__unboxed_ (egal_bitstag : ptr -> ptr -> Z -> outcome bool) (a b : ptr) (dtag : Z) : outcome bool :=
  if is_small dtag then
    if (dtag =? tag jl_symbol_tag) || (dtag =? tag jl_bool_tag) || (dtag =? tag jl_nothing_tag) then Ok false
    else egal_bitstag a b dtag
  else
    let! d := get_datatype H dtag in
    let! mut := jl_mutabl H d in
    if (mut : bool) then Ok false else egal_bitstag a b dtag.

Definition jl_egal_ (egal_bitstag : ptr -> ptr -> Z -> outcome bool) (a b : ptr) : outcome bool :=
  if a =? b then Ok true
  else
    let! dtag := jl_typetagof H a in
    let! dtagb := jl_typetagof H b in
    if negb (dtag =? dtagb) then Ok false else jl_egal__unboxed_ egal_bitstag a b dtag.

Definition egal_datatypes (jl_egal : ptr -> ptr -> outcome bool) (a b : ptr) : outcome bool :=
  let! dta := get_datatype H a in
  let! dtb := get_datatype H b in
  if negb (dt_name dta =? dt_name dtb) then Ok false
  else if negb (dt_name dta =? jl_tuple_typename H) && (dt_isconcretetype dta || dt_isconcretetype dtb) then Ok false
  else compare_svec jl_egal (dt_parameters dta) (dt_parameters dtb).

Definition egal_strings (a b : ptr) : outcome bool :=
  let! x := deref H a in
  let! y := deref H b in
  match obody x, obody y with
  | BString s, BString t => Ok (bool_decide (s = t))
  | _, _ => UB
  end.

Fixpoint jl_egal__bitstag (fuel : nat) (a b : ptr) (dtag : Z) : outcome bool :=
  match fuel with
  | O => Timeout
  | S fuel' =>
      let egal := jl_egal_ (jl_egal__bitstag fuel') in
      if is_small dtag then
        match small_tag dtag with
        | Some t =>
            match t with
            | jl_int8_tag | jl_uint8_tag | jl_addrspacecore_tag => bits_equal (a, 0) (b, 0) 1
            | jl_int16_tag | jl_uint16_tag => bits_equal (a, 0) (b, 0) 2
            | jl_int32_tag | jl_uint32_tag | jl_char_tag | jl_intrinsic_tag => bits_equal (a, 0) (b, 0) 4
            | jl_int64_tag | jl_uint64_tag => bits_equal (a, 0) (b, 0) 8
            | jl_ssavalue_tag | jl_slotnumber_tag | jl_argument_tag | jl_gotonode_tag => bits_equal (a, 0) (b, 0) 8
            | jl_gotoifnot_tag | jl_returnnode_tag | jl_enternode_tag | jl_pinode_tag | jl_phinode_tag | jl_phicnode_tag
            | jl_upsilonnode_tag | jl_globalref_tag | jl_quotenode_tag | jl_uniontype_tag | jl_vararg_tag =>
                compare_fields egal depth (a, 0) (b, 0) (small_typeof H t)
            | jl_unionall_tag | jl_typeeq_tag => egal_types (jl_egal__bitstag fuel') fuel' a b [] true
            | jl_task_tag | jl_tvar_tag | jl_symbol_tag | jl_module_tag | jl_bool_tag | jl_nothing_tag => Ok false
            | jl_simplevector_tag => compare_svec egal a b
            | jl_string_tag => egal_strings a b
            | jl_datatype_tag => egal_datatypes egal a b
            | jl_null_tag | jl_typeofbottom_tag | jl_tags_count => UB
            end
        | None => UB
        end
      else jl_egal__bits egal (a, 0) (b, 0) dtag
  end.

Definition jl_egal (fuel : nat) (a b : ptr) : outcome bool := jl_egal_ (jl_egal__bitstag fuel) a b.
Definition jl_types_egal (fuel : nat) (a b : ptr) : outcome bool := egal_types (jl_egal__bitstag fuel) fuel a b [] false.

(** ** Object identity *)

Definition bswap_64 (b : Z) : Z := le_word (rev (le_bytes 8 b)).
Definition bitmix (a b : Z) : Z := int64hash (Z.lxor (u64 a) (bswap_64 (u64 b))).
Definition lnot64 (h : Z) : Z := u64 (Z.lnot h).

(** Sign extension of a byte, an [int8_t], to [uint32_t]. *)
Definition sext32 (v : Z) : Z := u32 (if v <? 2 ^ 7 then v else v - 2 ^ 8).

(** One byte is sign extended, two are read as a [uint16_t]. *)
Definition bits_hash (b : loc) (sz : Z) : outcome Z :=
  let! bs := load_bytes H b sz in
  if sz =? 1 then Ok (int32hash (sext32 (le_word bs)))
  else if sz =? 2 then Ok (int32hash (le_word bs))
  else if sz =? 4 then Ok (int32hash (le_word bs))
  else if sz =? 8 then Ok (int64hash (le_word bs))
  else memhash bs.

Section Ids.
Context (jl_object_id : ptr -> outcome Z).

(** [x == NULL ? 0 : jl_object_id(x)] *)
Definition id_or_0 (x : ptr) : outcome Z := if x =? 0 then Ok 0 else jl_object_id x.

Fixpoint hash_elts (l : list ptr) (h : Z) : outcome Z :=
  match l with
  | [] => Ok h
  | x :: l => let! u := id_or_0 x in hash_elts l (bitmix h u)
  end.
Definition hash_svec (v : ptr) : outcome Z := let! l := get_svec H v in hash_elts l 0.

(** The address, or the identity stored in the image. *)
Definition address_id (v : ptr) : outcome Z :=
  let! o := deref H v in
  Ok (if negb (Z.land (header o) GC_IN_IMAGE =? 0) then before o else int64hash (u64 v)).

(** Whether the first reference in a struct stored inline is missing, in which
    case the whole field is undefined. *)
Definition undef_at (ly : jl_datatype_layout_t) (vo : loc) : outcome bool :=
  if 0 <=? first_ptr ly then let! p := load_ptr H vo (first_ptr ly) in Ok (p =? 0) else Ok false.

(** The contribution of data of type [ft] stored inline. *)
Definition immut_inline (immut_id_ : ptr -> loc -> Z -> outcome Z) (ft : ptr) (vo : loc) : outcome Z :=
  let! d := get_datatype H ft in
  let! n := get_typename H (dt_name d) in
  if tn_abstract n || tn_mutabl n then UB
  else
    let! ly := the_layout d in
    let! undef := undef_at ly vo in
    if (undef : bool) then Ok 0 else immut_id_ ft vo 0.

(** The contribution of one field. *)
Definition immut_field (immut_id_ : ptr -> loc -> Z -> outcome Z) (d : jl_datatype_t) (v : loc) (f : Z) (fd : jl_fielddesc32_t)
    : outcome Z :=
  let vo := shift v (fd_offset fd) in
  if fd_isptr fd then let! x := load_ptr H vo 0 in id_or_0 x
  else
    let! ft := jl_field_type_concrete H d f in
    let! u := jl_is_uniontype H ft in
    if (u : bool) then
      let! sel := load_uint H (shift vo (fd_size fd - 1)) 1 in
      let! ft := jl_nth_union_component H depth ft sel in
      match ft with Some ft => immut_inline immut_id_ ft vo | None => UB end
    else immut_inline immut_id_ ft vo.

Fixpoint immut_fields (immut_id_ : ptr -> loc -> Z -> outcome Z) (d : jl_datatype_t) (v : loc) (f : Z)
    (fds : list jl_fielddesc32_t) (h : Z) : outcome Z :=
  match fds with
  | [] => Ok h
  | fd :: fds => let! u := immut_field immut_id_ d v f fd in immut_fields immut_id_ d v (f + 1) fds (bitmix h u)
  end.

(** [type_object_id_] is for a [UnionAll] (whose address it needs). *)
Fixpoint immut_id_ (type_object_id_ : ptr -> outcome Z) (n : nat) (dt : ptr) (v : loc) (h : Z) : outcome Z :=
  match n with
  | O => Timeout
  | S n' =>
      let! d := get_datatype H dt in
      let! ly := jl_datatype_layout H depth d in
      if size ly =? 0 then Ok (lnot64 h)
      else
        let! own := the_layout d in
        if (nfields ly =? 0) || (plain_bits own && (npointers own =? 0)) then
          let! b := bits_hash v (size ly) in Ok (Z.lxor b h)
        else if dt =? small_typeof H jl_unionall_tag then
          if v.2 =? 0 then type_object_id_ v.1 else UB
        else immut_fields (immut_id_ type_object_id_ n') d v 0 (fields ly) h
  end.

(** The position of a variable among the enclosing ones. *)
Fixpoint var_index (env : list ptr) (v : ptr) (i : Z) : option Z :=
  match env with
  | [] => None
  | w :: env => if w =? v then Some i else var_index env v (i + 1)
  end.

Fixpoint hash_params (id : ptr -> outcome Z) (l : list ptr) (h : Z) : outcome Z :=
  match l with
  | [] => Ok h
  | x :: l => let! u := id x in hash_params id l (bitmix h u)
  end.

Definition hash_of (v : ptr) : outcome Z :=
  let! o := deref H v in match obody o with BSymbol h | BModule h => Ok h | _ => UB end.

Fixpoint type_object_id_ (n : nat) (v : ptr) (env : list ptr) : outcome Z :=
  match n with
  | O => Timeout
  | S n' =>
      if v =? 0 then Ok 0
      else
        let! tv := jl_typeof H v in
        if tv =? small_typeof H jl_tvar_tag then
          match var_index env v 0 with
          | Some i => Ok (u64 (Z.shiftl i 8 + 42))
          | None => address_id v
          end
        else if tv =? small_typeof H jl_uniontype_tag then
          let! t := jl_object_id tv in
          let! a := ptr_field H v 0 in let! ha := type_object_id_ n' a env in
          let! b := ptr_field H v 1 in let! hb := type_object_id_ n' b env in
          Ok (bitmix (bitmix t ha) hb)
        else if tv =? small_typeof H jl_typeeq_tag then
          let! t := jl_object_id tv in
          let! a := ptr_field H v 0 in let! ha := type_object_id_ n' a env in
          Ok (bitmix t ha)
        else if tv =? small_typeof H jl_unionall_tag then
          let! var := ptr_field H v 0 in
          let! name := ptr_field H var 0 in
          let! h := hash_of name in
          let! lb := ptr_field H var 1 in let! hl := type_object_id_ n' lb env in
          let! ub := ptr_field H var 2 in let! hu := type_object_id_ n' ub env in
          let! b := ptr_field H v 1 in let! hb := type_object_id_ n' b (var :: env) in
          Ok (bitmix (bitmix (bitmix h hl) hu) hb)
        else if tv =? small_typeof H jl_datatype_tag then
          let! d := get_datatype H v in
          if dt_isconcretetype d then Ok (dt_hash d)
          else
            let! nm := get_typename H (dt_name d) in
            let! l := jl_nparams d in
            hash_params (fun x => type_object_id_ n' x env) l (lnot64 (tn_hash nm))
        else if tv =? small_typeof H jl_vararg_tag then
          let! t := ptr_field H v 0 in let! ht := type_object_id_ n' (or_any t) env in
          let! k := ptr_field H v 1 in let! hk := type_object_id_ n' (if k =? 0 then jl_nothing H else k) env in
          Ok (bitmix ht hk)
        else if tv =? small_typeof H jl_symbol_tag then hash_of v
        else if tv =? small_typeof H jl_module_tag then hash_of v
        else
          let! d := get_datatype H tv in
          let! mut := jl_mutabl H d in
          if (mut : bool) then UB
          else immut_id_ (fun v => type_object_id_ n' v []) depth tv (v, 0) (dt_hash d)
  end.

Definition jl_object_id__cold (fuel : nat) (tv : Z) (v : ptr) : outcome Z :=
  let! dt := jl_to_typeof H tv in
  let! d := get_datatype H dt in
  let! mut := jl_mutabl H d in
  if (mut : bool) then
    if dt =? small_typeof H jl_string_tag then
      let! o := deref H v in
      match obody o with BString s => memhash_seed s 0xedc3b677 | _ => UB end
    else if dt =? small_typeof H jl_simplevector_tag then hash_svec v
    else if dt =? small_typeof H jl_datatype_tag then
      let! dv := get_datatype H v in
      let! nm := get_typename H (dt_name dv) in
      let! s := hash_svec (dt_parameters dv) in
      Ok (bitmix (lnot64 (tn_hash nm)) s)
    else if dt =? small_typeof H jl_module_tag then hash_of v
    else address_id v
  else immut_id_ (fun v => type_object_id_ fuel v []) depth dt (v, 0) (dt_hash d).

Definition jl_object_id_ (fuel : nat) (tv : Z) (v : ptr) : outcome Z :=
  if tv =? tag jl_symbol_tag then hash_of v
  else
    let! direct :=
      if tv =? tag jl_datatype_tag then
        let! d := get_datatype H v in Ok (if dt_isconcretetype d then Some (dt_hash d) else None)
      else if tv =? jl_typename_type H then
        let! n := get_typename H v in Ok (Some (u64 (tn_hash n)))
      else Ok None in
    match direct with Some h => Ok h | None => jl_object_id__cold fuel tv v end.
End Ids.

Fixpoint jl_object_id (fuel : nat) (v : ptr) : outcome Z :=
  match fuel with
  | O => Timeout
  | S fuel' => let! tv := jl_typetagof H v in jl_object_id_ (jl_object_id fuel') fuel' tv v
  end.
End Egal.
