(* ===== verification/EgalFacts.v ===== *)
(** * Egal is equality of values

    The value of an object is its canonical form: the bytes and the canonical
    forms of the references of an immutable object, and the address of a
    mutable one.  [jl_egal] decides whether two objects have the same
    canonical form, so it is an equivalence, and [jl_object_id] depends on the
    canonical form only.

    Objects that have a canonical form are those whose immutable part is a
    finite tree of well-formed memory.  Types with bound variables
    ([UnionAll], and [TypeEq], which is compared in the same way) have none:
    for them the claim fails, as the last section shows. *)

From stdpp Require Import base gmap numbers option list.
From Stdlib Require Import ZArith Lia.
From S2P Require Import Prelude Hashing Bytes Identity Objects Egal.

(** ** Canonical forms *)

Inductive cval :=
| CPtr (p : ptr)
| CNull
| CSkip
| CUndef
| CSel (sel : Z) (c : cval)
| CBits (t : Z) (bs : list Z)
| CString (s : list Z)
| CSvec (l : list cval)
| CDatatype (name : ptr) (l : list cval)
| CStruct (t : ptr) (fs ps : list cval)
| CBox (dtag : Z) (c : cval).

Fixpoint omapM {A B} (f : A -> outcome B) (l : list A) : outcome (list B) :=
  match l with
  | [] => Ok []
  | x :: l => let! y := f x in let! ys := omapM f l in Ok (y :: ys)
  end.

Section Canon.
Context (H : heap) (depth : nat).

Section Fields.
Context (canon : ptr -> outcome cval).

(** A reference, which may be undefined. *)
Definition canon_ref (p : ptr) : outcome cval := if p =? 0 then Ok CNull else canon p.
Definition canon_ptrs (ps : list Z) (l : loc) : outcome (list cval) :=
  omapM (fun offs => let! p := load_ptr H l offs in canon_ref p) ps.

(** Data of type [ft] inside another struct. *)
Definition canon_inline (canon_struct : loc -> ptr -> outcome cval) (l : loc) (ft : ptr) : outcome cval :=
  let! d := get_datatype H ft in
  let! ly := the_layout d in
  if plain_bits ly then let! bs := load_bytes H l (size ly) in Ok (CBits ft bs)
  else
    let! nl := jl_datatype_layout H depth d in
    if nfields nl =? 0 then UB else canon_struct l ft.

Definition canon_field (canon_struct : loc -> ptr -> outcome cval) (d : jl_datatype_t) (l : loc) (f : Z) (fd : jl_fielddesc32_t)
    : outcome cval :=
  if fd_isptr fd then Ok CSkip
  else
    let lo := shift l (fd_offset fd) in
    let! ft := jl_field_type_concrete H d f in
    let! u := jl_is_uniontype H ft in
    if (u : bool) then
      let! sel := load_uint H (shift lo (fd_size fd - 1)) 1 in
      let! ft := jl_nth_union_component H depth ft sel in
      match ft with Some ft => let! c := canon_inline canon_struct lo ft in Ok (CSel sel c) | None => UB end
    else
      let! fdt := get_datatype H ft in
      let! ly := the_layout fdt in
      if 0 <=? first_ptr ly then
        let! p := load_ptr H lo (first_ptr ly) in
        if p =? 0 then Ok CUndef else canon_inline canon_struct lo ft
      else canon_inline canon_struct lo ft.

Fixpoint canon_each (canon_struct : loc -> ptr -> outcome cval) (d : jl_datatype_t) (l : loc) (f : Z) (fds : list jl_fielddesc32_t)
    : outcome (list cval) :=
  match fds with
  | [] => Ok []
  | fd :: fds =>
      let! c := canon_field canon_struct d l f fd in
      let! cs := canon_each canon_struct d l (f + 1) fds in Ok (c :: cs)
  end.

Fixpoint canon_struct (n : nat) (l : loc) (dt : ptr) : outcome cval :=
  match n with
  | O => Timeout
  | S n' =>
      let! d := get_datatype H dt in
      let! ly := jl_datatype_layout H depth d in
      let! own := the_layout d in
      let! fs := canon_each (canon_struct n') d l 0 (fields ly) in
      let! ps := canon_ptrs (ptrs own) l in
      if dt =? small_typeof H jl_unionall_tag then UB else Ok (CStruct dt fs ps)
  end.
End Fields.

(** The bytes compared for the bits types with a small tag. *)
Definition tag_width (t : jl_small_typeof_tags) : option Z :=
  match t with
  | jl_int8_tag | jl_uint8_tag | jl_addrspacecore_tag => Some 1
  | jl_int16_tag | jl_uint16_tag => Some 2
  | jl_int32_tag | jl_uint32_tag | jl_char_tag | jl_intrinsic_tag => Some 4
  | jl_int64_tag | jl_uint64_tag | jl_ssavalue_tag | jl_slotnumber_tag | jl_argument_tag | jl_gotonode_tag => Some 8
  | _ => None
  end.

(** The structs with a small tag. *)
Definition struct_tag (t : jl_small_typeof_tags) : bool :=
  match t with
  | jl_gotoifnot_tag | jl_returnnode_tag | jl_enternode_tag | jl_pinode_tag | jl_phinode_tag | jl_phicnode_tag
  | jl_upsilonnode_tag | jl_globalref_tag | jl_quotenode_tag | jl_uniontype_tag | jl_vararg_tag => true
  | _ => false
  end.

(** Objects with a small tag that are compared by address. *)
Definition address_tag (t : jl_small_typeof_tags) : bool :=
  match t with
  | jl_task_tag | jl_tvar_tag | jl_symbol_tag | jl_module_tag | jl_bool_tag | jl_nothing_tag | jl_typeofbottom_tag => true
  | _ => false
  end.

Definition boxed (dtag : Z) (m : outcome cval) : outcome cval := let! c := m in Ok (CBox dtag c).

Definition canon_small (canon : ptr -> outcome cval) (p : ptr) (dtag : Z) (t : jl_small_typeof_tags) : outcome cval :=
  match tag_width t with
  | Some w => boxed dtag (let! bs := load_bytes H (p, 0) w in Ok (CBits dtag bs))
  | None =>
      if struct_tag t then boxed dtag (canon_struct canon depth (p, 0) (small_typeof H t))
      else if address_tag t then Ok (CPtr p)
      else
        match t with
        | jl_simplevector_tag => boxed dtag (let! l := get_svec H p in let! cs := omapM canon l in Ok (CSvec cs))
        | jl_string_tag => boxed dtag (let! o := deref H p in match obody o with BString s => Ok (CString s) | _ => UB end)
        | jl_datatype_tag =>
            let! d := get_datatype H p in
            if negb (dt_name d =? jl_tuple_typename H) && dt_isconcretetype d then Ok (CPtr p)
            else boxed dtag (let! l := get_svec H (dt_parameters d) in let! cs := omapM canon l in Ok (CDatatype (dt_name d) cs))
        | _ => UB
        end
  end.

Definition canon_large (canon : ptr -> outcome cval) (p : ptr) (dtag : Z) : outcome cval :=
  let! d := get_datatype H dtag in
  let! mut := jl_mutabl H d in
  if (mut : bool) then Ok (CPtr p)
  else
    boxed dtag
      (let! ly := jl_datatype_layout H depth d in
       if size ly =? 0 then Ok (CBits dtag [])
       else
         let! own := the_layout d in
         if (nfields ly =? 0) || plain_bits own then
           let! bs := load_bytes H (p, 0) (size ly) in
           let! _ := canon_ptrs canon (ptrs own) (p, 0) in Ok (CBits dtag bs)
         else canon_struct canon depth (p, 0) dtag).

Fixpoint canon (fuel : nat) (p : ptr) : outcome cval :=
  match fuel with
  | O => Timeout
  | S fuel' =>
      let! dtag := jl_typetagof H p in
      if is_small dtag then
        match small_tag dtag with Some t => canon_small (canon fuel') p dtag t | None => UB end
      else canon_large (canon fuel') p dtag
  end.

(** ** Deciding equality of canonical forms *)

Definition decides (o : outcome bool) (P : Prop) : Prop := exists r, o = Ok r /\ (r = true <-> P).

Lemma decides_true (P : Prop) : P -> decides (Ok true) P.
Proof. intros HP. by exists true. Qed.

Lemma decides_false (P : Prop) : ~ P -> decides (Ok false) P.
Proof. intros HP. exists false. split; [done |]. split; [done |]. by intros ?%HP. Qed.

Lemma decides_iff o P Q : (P <-> Q) -> decides o P -> decides o Q.
Proof. intros HPQ (r & E & Hr). exists r. split; [done |]. by rewrite Hr. Qed.

Lemma decides_and m k P Q : decides m P -> decides k Q -> decides (and_then m k) (P /\ Q).
Proof.
  intros (r & -> & Hr) (r' & -> & Hr'). unfold and_then. cbn [obind]. destruct r.
  - exists r'. split; [done |]. rewrite Hr'. intuition.
  - apply decides_false. intros [HP _]. by apply Hr in HP.
Qed.

Lemma decides_bool (b : bool) (P : Prop) : (b = true <-> P) -> decides (Ok b) P.
Proof. intros HP. by exists b. Qed.

Lemma bits_equal_decides a b sz x y : load_bytes H a sz = Ok x -> load_bytes H b sz = Ok y -> decides (bits_equal H a b sz) (x = y).
Proof.
  intros Ex Ey. unfold bits_equal. rewrite Ex, Ey. cbn [obind]. apply decides_bool. apply bool_decide_eq_true.
Qed.

Section Compare.
Context (canonf : ptr -> outcome cval) (egal : ptr -> ptr -> outcome bool).
Context (Hegal : forall p q x y, canonf p = Ok x -> canonf q = Ok y -> decides (egal p q) (x = y)).
Context (Hnn : forall p x, canonf p = Ok x -> x <> CNull).

Lemma compare_elts_decides l1 : forall l2 c1 c2, length l1 = length l2 -> omapM canonf l1 = Ok c1 -> omapM canonf l2 = Ok c2 ->
  decides (compare_elts egal l1 l2) (c1 = c2).
Proof.
  induction l1 as [| x l1 IH]; intros [| y l2] c1 c2 Hl; try done; cbn [omapM compare_elts].
  - intros [= <-] [= <-]. by apply decides_true.
  - intros (cx & Ex & (cs & Es & [= <-])%obind_Ok_inv)%obind_Ok_inv (cy & Ey & (cs' & Es' & [= <-])%obind_Ok_inv)%obind_Ok_inv.
    eapply decides_iff; [| apply decides_and; [by apply Hegal | apply (IH l2 cs cs'); [by injection Hl | done | done]]]. naive_solver.
Qed.

Lemma omapM_length {A B} (f : A -> outcome B) l : forall c, omapM f l = Ok c -> length c = length l.
Proof.
  induction l as [| x l IH]; intros c; cbn; [by intros [= <-] |].
  intros (y & _ & (ys & Hy & [= <-])%obind_Ok_inv)%obind_Ok_inv. cbn. f_equal. by apply IH.
Qed.

Lemma compare_svec_decides a b l1 l2 c1 c2 : get_svec H a = Ok l1 -> get_svec H b = Ok l2 ->
  omapM canonf l1 = Ok c1 -> omapM canonf l2 = Ok c2 -> decides (compare_svec H egal a b) (c1 = c2).
Proof.
  intros E1 E2 C1 C2. unfold compare_svec. rewrite E1, E2. cbn [obind].
  destruct (Z.eqb_spec (Z.of_nat (length l1)) (Z.of_nat (length l2))) as [Hl | Hl]; cbn [negb].
  - apply compare_elts_decides; [lia | done | done].
  - apply decides_false. intros ->. apply omapM_length in C1, C2. lia.
Qed.

Lemma compare_ptrs_decides a b ps : forall c1 c2, canon_ptrs canonf ps a = Ok c1 -> canon_ptrs canonf ps b = Ok c2 ->
  decides (compare_ptrs H egal ps a b) (c1 = c2).
Proof.
  unfold canon_ptrs. induction ps as [| offs ps IH]; intros c1 c2; cbn [omapM compare_ptrs].
  - intros [= <-] [= <-]. by apply decides_true.
  - intros (x & (af & -> & Hx)%obind_Ok_inv & (xs & Hxs & [= <-])%obind_Ok_inv)%obind_Ok_inv.
    intros (y & (bf & -> & Hy)%obind_Ok_inv & (ys & Hys & [= <-])%obind_Ok_inv)%obind_Ok_inv. cbn [obind].
    apply (decides_iff _ (x = y /\ xs = ys)); [split; [by intros [-> ->] | by intros [= -> ->]] |]. apply decides_and; [| by apply IH].
    unfold canon_ref in Hx, Hy. destruct (Z.eqb_spec af bf) as [<- | Hne]; cbn [negb].
    { apply decides_true. rewrite Hx in Hy. by injection Hy. }
    destruct (Z.eqb_spec af 0) as [Ha | Ha], (Z.eqb_spec bf 0) as [Hb | Hb]; cbn [orb]; try lia; [| | by apply Hegal].
    + apply decides_false. injection Hx as <-. intros <-. by apply (Hnn _ _ Hy).
    + apply decides_false. injection Hy as <-. intros ->. by apply (Hnn _ _ Hx).
Qed.

Section Fields_decide.
Context (cmp : loc -> loc -> ptr -> outcome bool) (cn : loc -> ptr -> outcome cval).
Context (Hcmp : forall a b dt x y, cn a dt = Ok x -> cn b dt = Ok y -> decides (cmp a b dt) (x = y)).
Context (Hcn : forall a dt x, cn a dt = Ok x -> exists fs ps, x = CStruct dt fs ps).

(** The comparison of the data of an inline field, once its type is known. *)
Definition compare_inline (a b : loc) (ft : ptr) : outcome bool :=
  let! d := get_datatype H ft in
  let! ly := the_layout d in
  if plain_bits ly then bits_equal H a b (size ly)
  else
    let! nl := jl_datatype_layout H depth d in
    if nfields nl =? 0 then UB else cmp a b ft.

Lemma canon_inline_shape a ft x : canon_inline cn a ft = Ok x -> x <> CUndef.
Proof.
  intros (d & _ & (ly & _ & E)%obind_Ok_inv)%obind_Ok_inv. destruct (plain_bits ly).
  - apply obind_Ok_inv in E as (bs & _ & [= <-]). done.
  - apply obind_Ok_inv in E as (nl & _ & E). destruct (nfields nl =? 0); [done |]. by apply Hcn in E as (fs & ps & ->).
Qed.

Lemma compare_inline_decides a b ft x y : canon_inline cn a ft = Ok x -> canon_inline cn b ft = Ok y -> decides (compare_inline a b ft) (x = y).
Proof.
  unfold canon_inline, compare_inline. destruct (get_datatype H ft) as [d | |]; try done. cbn [obind].
  destruct (the_layout d) as [ly | |]; try done. cbn [obind]. destruct (plain_bits ly).
  - intros (bs & E1 & [= <-])%obind_Ok_inv (bs' & E2 & [= <-])%obind_Ok_inv.
    eapply decides_iff; [| by apply bits_equal_decides]. split; [by intros -> | by intros [= ->]].
  - destruct (jl_datatype_layout H depth d) as [nl | |]; try done. cbn [obind]. destruct (nfields nl =? 0); [done |]. apply Hcmp.
Qed.

Lemma compare_field_decides d a b f fd x y : canon_field cn d a f fd = Ok x -> canon_field cn d b f fd = Ok y ->
  decides (compare_field H depth cmp d a b f fd) (x = y).
Proof.
  unfold canon_field, compare_field. destruct (fd_isptr fd); [intros [= <-] [= <-]; by apply decides_true |].
  destruct (jl_field_type_concrete H d f) as [ft | |]; try done. cbn [obind].
  unfold inline_type. destruct (jl_is_uniontype H ft) as [[|] | |]; try done; cbn [obind].
  - intros (sa & -> & Hx)%obind_Ok_inv (sb & -> & Hy)%obind_Ok_inv. cbn [obind].
    apply obind_Ok_inv in Hx as ([fa |] & Ea & Hx); [| done]. apply obind_Ok_inv in Hx as (ca & Hca & [= <-]).
    apply obind_Ok_inv in Hy as ([fb |] & Eb & Hy); [| done]. apply obind_Ok_inv in Hy as (cb & Hcb & [= <-]).
    destruct (Z.eqb_spec sa sb) as [<- | Hne]; cbn [negb obind]; [| apply decides_false; by intros [= ?]].
    rewrite Ea in Eb |- *. injection Eb as <-. cbn [obind].
    eapply decides_iff; [| by apply (compare_inline_decides _ _ fa ca cb)]. split; [by intros -> | by intros [= ->]].
  - destruct (get_datatype H ft) as [fdt | |] eqn:Ed; try done. cbn [obind].
    destruct (the_layout fdt) as [ly | |] eqn:El; try done. cbn [obind].
    destruct (0 <=? first_ptr ly); cbn [obind].
    + intros (pa & -> & Hx)%obind_Ok_inv (pb & -> & Hy)%obind_Ok_inv. cbn [obind].
      destruct (pa =? 0), (pb =? 0); cbn [Bool.eqb negb obind].
      * injection Hx as <-. injection Hy as <-. by apply decides_true.
      * apply decides_false. injection Hx as <-. intros <-. by apply canon_inline_shape in Hy.
      * apply decides_false. injection Hy as <-. intros ->. by apply canon_inline_shape in Hx.
      * pose proof (compare_inline_decides _ _ ft x y Hx Hy) as HD. unfold compare_inline in HD. rewrite Ed in HD |- *. cbn [obind] in *. by rewrite El in HD |- *.
    + intros Hx Hy. pose proof (compare_inline_decides _ _ ft x y Hx Hy) as HD. unfold compare_inline in HD. rewrite Ed in HD |- *. cbn [obind] in *. by rewrite El in HD |- *.
Qed.

Lemma compare_each_decides d a b fds : forall f x y, canon_each cn d a f fds = Ok x -> canon_each cn d b f fds = Ok y ->
  decides (compare_each H depth cmp d a b f fds) (x = y).
Proof.
  induction fds as [| fd fds IH]; intros f x y; cbn [canon_each compare_each].
  - intros [= <-] [= <-]. by apply decides_true.
  - intros (c & Ec & (cs & Es & [= <-])%obind_Ok_inv)%obind_Ok_inv (c' & Ec' & (cs' & Es' & [= <-])%obind_Ok_inv)%obind_Ok_inv.
    eapply decides_iff; [| apply decides_and; [by apply compare_field_decides | by apply IH]]. split; [by intros [-> ->] | by intros [= -> ->]].
Qed.
End Fields_decide.

Lemma canon_struct_inv n l dt x : canon_struct canonf n l dt = Ok x -> exists n' d ly own fs ps, n = S n' /\
  get_datatype H dt = Ok d /\ jl_datatype_layout H depth d = Ok ly /\ the_layout d = Ok own /\
  canon_each (canon_struct canonf n') d l 0 (fields ly) = Ok fs /\ canon_ptrs canonf (ptrs own) l = Ok ps /\
  dt <> small_typeof H jl_unionall_tag /\ x = CStruct dt fs ps.
Proof.
  destruct n as [| n']; [done |]. cbn [canon_struct].
  intros (d & Ed & (ly & El & (own & Eo & (fs & Ef & (ps & Ep & E)%obind_Ok_inv)%obind_Ok_inv)%obind_Ok_inv)%obind_Ok_inv)%obind_Ok_inv.
  destruct (Z.eqb_spec dt (small_typeof H jl_unionall_tag)); [done |]. injection E as <-. by exists n', d, ly, own, fs, ps.
Qed.

Lemma compare_fields_decides n : forall a b dt x y, canon_struct canonf n a dt = Ok x -> canon_struct canonf n b dt = Ok y ->
  decides (compare_fields H depth egal n a b dt) (x = y).
Proof.
  induction n as [| n IH]; [done |]. intros a b dt x y Hx Hy.
  apply canon_struct_inv in Hx as (n1 & d & ly & own & fs & ps & [= <-] & Ed & El & Eo & Ef & Ep & _ & ->).
  apply canon_struct_inv in Hy as (n2 & d2 & ly2 & own2 & fs2 & ps2 & [= <-] & Ed2 & El2 & Eo2 & Ef2 & Ep2 & _ & ->).
  rewrite Ed in Ed2. injection Ed2 as <-. rewrite El in El2. injection El2 as <-. rewrite Eo in Eo2. injection Eo2 as <-.
  cbn [compare_fields]. rewrite Ed. cbn [obind]. rewrite El. cbn [obind]. rewrite Eo. cbn [obind].
  apply (decides_iff _ (fs = fs2 /\ ps = ps2)); [split; [by intros [-> ->] | by intros [= -> ->]] |].
  apply decides_and; [| by apply compare_ptrs_decides]. apply (compare_each_decides _ (canon_struct canonf n)); try done.
  intros c dt' z (? & ? & ? & ? & ? & ? & _ & _ & _ & _ & _ & _ & _ & ->)%canon_struct_inv. by eexists _, _.
Qed.
End Compare.

(** ** Tags *)

Lemma small_tags_index n t : small_tags !! n = Some t -> Z.of_nat n = index_of t small_tags.
Proof. do 40 (destruct n as [| n]; [intros [= <-]; reflexivity |]). done. Qed.

Lemma typetag_aligned p dtag : jl_typetagof H p = Ok dtag -> dtag mod 16 = 0.
Proof.
  intros (o & _ & [= <-])%obind_Ok_inv. change 16 with (2 ^ 4). rewrite <- Z.land_ones by lia. change (Z.ones 4) with 15.
  rewrite <- Z.land_assoc. change (Z.land (Z.lnot 15) 15) with 0. apply Z.land_0_r.
Qed.

Lemma small_tag_inv dtag t : dtag mod 16 = 0 -> small_tag dtag = Some t -> t <> jl_null_tag -> dtag = tag t.
Proof.
  unfold small_tag, tag. rewrite shiftr_pow, shiftl_pow by lia. intros Hm Ht Hn.
  pose proof (small_tags_index _ _ Ht) as Hi. destruct (Z_lt_le_dec (dtag / 2 ^ 4) 0) as [Hneg | Hpos].
  - replace (Z.to_nat (dtag / 2 ^ 4)) with 0%nat in Ht by lia. by injection Ht as <-.
  - rewrite Z2Nat.id in Hi by lia. rewrite <- Hi. change (2 ^ 4) with 16 in *. dlia.
Qed.

(** ** Objects *)

Lemma boxed_inv dtag m x : boxed dtag m = Ok x -> exists c, m = Ok c /\ x = CBox dtag c.
Proof. intros (c & E & [= <-])%obind_Ok_inv. by exists c. Qed.

(** An object's canonical form names its address or its type. *)
Lemma canon_shape f p x : canon f p = Ok x -> x = CPtr p \/ exists dtag c, jl_typetagof H p = Ok dtag /\ x = CBox dtag c.
Proof.
  destruct f as [| f]; [done |]. cbn [canon]. intros (dtag & Et & E)%obind_Ok_inv. rewrite Et.
  assert (Hbox : forall m, boxed dtag m = Ok x -> x = CPtr p \/ exists dtag' c, Ok dtag = Ok dtag' /\ x = CBox dtag' c).
  { intros m (c & _ & ->)%boxed_inv. right. by exists dtag, c. }
  destruct (is_small dtag).
  - destruct (small_tag dtag) as [t |]; [| done]. unfold canon_small in E.
    destruct (tag_width t); [by eapply Hbox |]. destruct (struct_tag t); [by eapply Hbox |].
    destruct (address_tag t); [injection E as <-; by left |]. destruct t; try done; try (by eapply Hbox).
    apply obind_Ok_inv in E as (d & _ & E). destruct (_ && _); [injection E as <-; by left | by eapply Hbox].
  - apply obind_Ok_inv in E as (d & _ & E). apply obind_Ok_inv in E as ([|] & _ & E); [injection E as <-; by left | by eapply Hbox].
Qed.

Lemma canon_not_null f p x : canon f p = Ok x -> x <> CNull.
Proof. intros [-> | (dtag & c & _ & ->)]%canon_shape; done. Qed.

Lemma boxed_decides o dtag m1 m2 x y : boxed dtag m1 = Ok x -> boxed dtag m2 = Ok y ->
  (forall c1 c2, m1 = Ok c1 -> m2 = Ok c2 -> decides o (c1 = c2)) -> decides o (x = y).
Proof.
  intros (c1 & E1 & ->)%boxed_inv (c2 & E2 & ->)%boxed_inv Hd.
  apply (decides_iff _ (c1 = c2)); [split; [by intros -> | by intros [= ->]] | by apply Hd].
Qed.

Section Object.
Context (f : nat) (egal : ptr -> ptr -> outcome bool).
Context (Hegal : forall p q x y, canon f p = Ok x -> canon f q = Ok y -> decides (egal p q) (x = y)).

Lemma struct_decides p q dtag dt x y : boxed dtag (canon_struct (canon f) depth (p, 0) dt) = Ok x ->
  boxed dtag (canon_struct (canon f) depth (q, 0) dt) = Ok y -> decides (compare_fields H depth egal depth (p, 0) (q, 0) dt) (x = y).
Proof. intros Hx Hy. apply (boxed_decides _ _ _ _ _ _ Hx Hy). apply compare_fields_decides; [done | apply canon_not_null]. Qed.

Lemma width_decides p q dtag w x y : boxed dtag (let! bs := load_bytes H (p, 0) w in Ok (CBits dtag bs)) = Ok x ->
  boxed dtag (let! bs := load_bytes H (q, 0) w in Ok (CBits dtag bs)) = Ok y -> decides (bits_equal H (p, 0) (q, 0) w) (x = y).
Proof.
  intros Hx Hy. apply (boxed_decides _ _ _ _ _ _ Hx Hy).
  intros c1 c2 (b1 & E1 & [= <-])%obind_Ok_inv (b2 & E2 & [= <-])%obind_Ok_inv.
  apply (decides_iff _ (b1 = b2)); [split; [by intros -> | by intros [= ->]] | by apply bits_equal_decides].
Qed.

Lemma svec_decides p q dtag x y :
  boxed dtag (let! l := get_svec H p in let! cs := omapM (canon f) l in Ok (CSvec cs)) = Ok x ->
  boxed dtag (let! l := get_svec H q in let! cs := omapM (canon f) l in Ok (CSvec cs)) = Ok y ->
  decides (compare_svec H egal p q) (x = y).
Proof.
  intros Hx Hy. apply (boxed_decides _ _ _ _ _ _ Hx Hy).
  intros c1 c2 (l1 & E1 & (cs1 & C1 & [= <-])%obind_Ok_inv)%obind_Ok_inv (l2 & E2 & (cs2 & C2 & [= <-])%obind_Ok_inv)%obind_Ok_inv.
  apply (decides_iff _ (cs1 = cs2)); [split; [by intros -> | by intros [= ->]] |]. by apply (compare_svec_decides (canon f) egal Hegal _ _ l1 l2).
Qed.

Lemma string_decides p q dtag x y :
  boxed dtag (let! o := deref H p in match obody o with BString s => Ok (CString s) | _ => UB end) = Ok x ->
  boxed dtag (let! o := deref H q in match obody o with BString s => Ok (CString s) | _ => UB end) = Ok y ->
  decides (egal_strings H p q) (x = y).
Proof.
  intros Hx Hy. apply (boxed_decides _ _ _ _ _ _ Hx Hy). intros c1 c2 (o1 & E1 & C1)%obind_Ok_inv (o2 & E2 & C2)%obind_Ok_inv.
  unfold egal_strings. rewrite E1, E2. cbn [obind]. destruct (obody o1); try done. destruct (obody o2); try done.
  injection C1 as <-. injection C2 as <-. apply decides_bool. rewrite bool_decide_eq_true. split; [by intros -> | by intros [= ->]].
Qed.

Lemma datatype_decides p q dtag x y : p <> q -> canon_small (canon f) p dtag jl_datatype_tag = Ok x ->
  canon_small (canon f) q dtag jl_datatype_tag = Ok y -> decides (egal_datatypes H egal p q) (x = y).
Proof.
  unfold canon_small. cbn [tag_width struct_tag address_tag]. intros Hne (d1 & E1 & Hx)%obind_Ok_inv (d2 & E2 & Hy)%obind_Ok_inv.
  unfold egal_datatypes. rewrite E1, E2. cbn [obind].
  set (id1 := negb (dt_name d1 =? _) && _) in *. set (id2 := negb (dt_name d2 =? _) && _) in *.
  assert (Hid : dt_name d1 = dt_name d2 -> negb (dt_name d1 =? jl_tuple_typename H) && (dt_isconcretetype d1 || dt_isconcretetype d2) = id1 || id2).
  { intros En. unfold id1, id2. rewrite <- En. by destruct (dt_name d1 =? _), (dt_isconcretetype d1). }
  destruct (Z.eqb_spec (dt_name d1) (dt_name d2)) as [En | En]; cbn [negb].
  - rewrite (Hid En). destruct id1, id2; cbn [orb].
    + injection Hx as <-. injection Hy as <-. apply decides_false. by intros [= ?].
    + injection Hx as <-. apply boxed_inv in Hy as (c & _ & ->). by apply decides_false.
    + injection Hy as <-. apply boxed_inv in Hx as (c & _ & ->). by apply decides_false.
    + apply (boxed_decides _ _ _ _ _ _ Hx Hy).
      intros c1 c2 (l1 & P1 & (cs1 & C1 & [= <-])%obind_Ok_inv)%obind_Ok_inv (l2 & P2 & (cs2 & C2 & [= <-])%obind_Ok_inv)%obind_Ok_inv.
      apply (decides_iff _ (cs1 = cs2)); [split; [by intros ->; rewrite En | by intros [= _ ->]] |].
      by apply (compare_svec_decides (canon f) egal Hegal _ _ l1 l2).
  - apply decides_false. intros ->. destruct id1, id2;
      repeat match goal with Hb : boxed _ _ = Ok _ |- _ => apply boxed_inv in Hb as (? & ? & ?) end; try congruence.
    simplify_eq.
    repeat match goal with Hc : obind _ _ = Ok _ |- _ => apply obind_Ok_inv in Hc as (? & _ & Hc) end. congruence.
Qed.

Lemma large_decides p q dtag x y : p <> q -> canon_large (canon f) p dtag = Ok x -> canon_large (canon f) q dtag = Ok y ->
  forall bt, (forall a b, bt a b dtag = jl_egal__bits H depth egal (a, 0) (b, 0) dtag) -> is_small dtag = false ->
  decides (jl_egal__unboxed_ H bt p q dtag) (x = y).
Proof.
  unfold canon_large, jl_egal__unboxed_. intros Hne Hx Hy bt Hbt ->. destruct (get_datatype H dtag) as [d | |] eqn:Ed; try done. cbn [obind] in *.
  destruct (jl_mutabl H d) as [[|] | |]; try done; cbn [obind] in *.
  { injection Hx as <-. injection Hy as <-. apply decides_false. by intros [= ?]. }
  rewrite Hbt. unfold jl_egal__bits. rewrite Ed. cbn [obind]. destruct (jl_datatype_layout H depth d) as [ly | |]; try done. cbn [obind] in *.
  destruct (size ly =? 0).
  { apply decides_true. cbn in *. congruence. }
  destruct (the_layout d) as [own | |]; try done. cbn [obind] in *. destruct (_ || _); [| by eapply struct_decides].
  apply (boxed_decides _ _ _ _ _ _ Hx Hy).
  intros c1 c2 (b1 & E1 & (? & _ & [= <-])%obind_Ok_inv)%obind_Ok_inv (b2 & E2 & (? & _ & [= <-])%obind_Ok_inv)%obind_Ok_inv.
  apply (decides_iff _ (b1 = b2)); [split; [by intros -> | by intros [= ->]] | by apply bits_equal_decides].
Qed.
End Object.

(** There is one object of type [TypeofBottom], [Union{}]. *)
Definition unique_bottom : Prop := forall p q, jl_typetagof H p = Ok (tag jl_typeofbottom_tag) -> jl_typetagof H q = Ok (tag jl_typeofbottom_tag) -> p = q.

Lemma unboxed_small bt p q dtag t : is_small dtag = true -> dtag = tag t ->
  jl_egal__unboxed_ H bt p q dtag = match t with jl_symbol_tag | jl_bool_tag | jl_nothing_tag => Ok false | _ => bt p q dtag end.
Proof. intros Hs ->. unfold jl_egal__unboxed_. rewrite Hs. by destruct t. Qed.

Lemma jl_egal_decides (Hbot : unique_bottom) f : forall p q x y, canon f p = Ok x -> canon f q = Ok y -> decides (jl_egal H depth f p q) (x = y).
Proof.
  induction f as [| f IH]; [done |]. intros p q x y Hx Hy. unfold jl_egal, jl_egal_.
  destruct (Z.eqb_spec p q) as [<- | Hne]; [apply decides_true; congruence |].
  pose proof (canon_shape _ _ _ Hx) as Sx. pose proof (canon_shape _ _ _ Hy) as Sy. cbn [canon] in Hx, Hy.
  apply obind_Ok_inv in Hx as (dtag & Et & Hx). apply obind_Ok_inv in Hy as (dtag' & Et' & Hy). rewrite Et, Et' in *. cbn [obind].
  destruct (Z.eqb_spec dtag dtag') as [<- | Hd]; cbn [negb].
  2:{ apply decides_false. intros ->. destruct Sx as [-> | (? & ? & [= <-] & ->)], Sy as [? | (? & ? & [= <-] & ?)]; congruence. }
  destruct (is_small dtag) eqn:Es.
  - destruct (small_tag dtag) as [t |] eqn:Est; [| done]. assert (Hn : t <> jl_null_tag) by (by intros ->).
    pose proof (small_tag_inv dtag t (typetag_aligned p dtag Et) Est Hn) as Ht. rewrite (unboxed_small _ p q dtag t Es Ht).
    assert (Hbt : t <> jl_typeofbottom_tag) by (intros ->; apply Hne; apply Hbot; by rewrite <- Ht).
    unfold canon_small in Hx, Hy. cbn [jl_egal__bitstag]. rewrite Es, Est.
    destruct t; cbn [tag_width struct_tag address_tag] in Hx, Hy; try done;
      first [ by destruct Hbt | injection Hx as <-; injection Hy as <-; apply decides_false; by intros [= ?]
            | by eapply (width_decides p q) | by eapply (struct_decides f _ IH p q) | by eapply (svec_decides f _ IH p q)
            | by eapply (string_decides p q) | by eapply (datatype_decides f _ IH p q dtag) ].
  - apply (large_decides f (jl_egal H depth f) IH p q dtag x y); try done. intros a b. cbn [jl_egal__bitstag]. by rewrite Es.
Qed.

(** ** Well-formed types *)

(** The data of a field lies inside the struct, and its references are among
    the references of the struct. *)
Definition wf_field (d : jl_datatype_t) (ly : jl_datatype_layout_t) (f : Z) (fd : jl_fielddesc32_t) : Prop :=
  if fd_isptr fd then exists o, o ∈ ptrs ly /\ fd_offset fd = 8 * o /\ 0 <= o /\ fd_offset fd + 8 <= size ly
  else
    (plain_bits ly = true -> exists ft fdt fly,
       jl_field_type_concrete H d f = Ok ft /\ jl_is_uniontype H ft = Ok false /\
       get_datatype H ft = Ok fdt /\ dt_layout fdt = Some fly /\ plain_bits fly = true /\ 0 <= size fly /\
       0 <= fd_offset fd /\ fd_offset fd + size fly <= size ly /\ (0 <= first_ptr fly -> 8 * first_ptr fly + 8 <= size fly)) /\
    (forall ft sel ft' fdt fly, jl_field_type_concrete H d f = Ok ft -> jl_is_uniontype H ft = Ok true ->
       jl_nth_union_component H depth ft sel = Ok (Some ft') -> get_datatype H ft' = Ok fdt -> dt_layout fdt = Some fly -> first_ptr fly < 0).

Record wf_layout (d : jl_datatype_t) (ly : jl_datatype_layout_t) : Prop := {
  wl_nfields : nfields ly = Z.of_nat (length (fields ly));
  wl_field : forall f fd, fields ly !! f = Some fd -> wf_field d ly (Z.of_nat f) fd
}.

(** What the identity functions rely on. *)
Record wf_heap : Prop := {
  wh_null : objects H !! 0 = None;
  wh_bottom : unique_bottom;
  wh_layout : forall dt d ly, get_datatype H dt = Ok d -> dt_layout d = Some ly -> jl_is_layout_opaque ly = false -> wf_layout d ly;
  (** Types with an opaque layout are mutable. *)
  wh_opaque : forall dt d ly, get_datatype H dt = Ok d -> dt_layout d = Some ly -> jl_is_layout_opaque ly = true -> jl_mutabl H d = Ok true;
  (** The contents of strings, simple vectors and types count, though they are
      allocated like mutable objects. *)
  wh_contents : forall t, t ∈ [jl_string_tag; jl_simplevector_tag; jl_datatype_tag] ->
    exists d, get_datatype H (small_typeof H t) = Ok d /\ jl_mutabl H d = Ok true;
  wh_distinct : NoDup [small_typeof H jl_string_tag; small_typeof H jl_simplevector_tag; small_typeof H jl_datatype_tag];
  wh_typename_tag : is_small (jl_typename_type H) = false;
  wh_typename : exists d, get_datatype H (jl_typename_type H) = Ok d /\ jl_mutabl H d = Ok true;
  wh_unionall : exists d ly, get_datatype H (small_typeof H jl_unionall_tag) = Ok d /\ dt_layout d = Some ly /\
    jl_is_layout_opaque ly = false /\ plain_bits ly = false /\ nfields ly <> 0;
  wh_width : forall t w, tag_width t = Some w -> exists d ly, get_datatype H (small_typeof H t) = Ok d /\ jl_mutabl H d = Ok false /\
    dt_layout d = Some ly /\ size ly = w /\ (nfields ly = 0 \/ plain_bits ly = true /\ npointers ly = 0);
  wh_struct : forall t, struct_tag t = true -> exists d ly, get_datatype H (small_typeof H t) = Ok d /\ jl_mutabl H d = Ok false /\
    dt_layout d = Some ly /\ nfields ly <> 0 /\ (plain_bits ly = false \/ npointers ly <> 0);
  (** Tuple types with the same parameters were given the same hash. *)
  wh_tuple : forall f p q x dp dq, canon f p = Ok x -> canon f q = Ok x -> get_datatype H p = Ok dp -> get_datatype H q = Ok dq ->
    dt_name dp = jl_tuple_typename H -> dt_isconcretetype dp = dt_isconcretetype dq /\ (dt_isconcretetype dp = true -> dt_hash dp = dt_hash dq)
}.

(** ** The hash of equal memory *)

Lemma load_bytes_sub l n bs offs m : load_bytes H l n = Ok bs -> 0 <= offs -> 0 <= m -> offs + m <= n ->
  load_bytes H (shift l offs) m = Ok (take (Z.to_nat m) (drop (Z.to_nat offs) bs)).
Proof.
  unfold load_bytes, data_at, shift. destruct l as [p o]. cbn [fst snd]. destruct (deref H p) as [ob | |]; try done. cbn [obind].
  destruct (obody ob) as [data | | | | | |]; try done. intros E H0 Hm Hle.
  destruct ((0 <=? o) && (o <=? Z.of_nat (length data))) eqn:Eo; [| done]. apply andb_prop in Eo as [Eo1%Z.leb_le Eo2%Z.leb_le]. cbn [obind] in E.
  rewrite length_drop in E. destruct ((0 <=? n) && _) eqn:En; [| done]. apply andb_prop in En as [En1%Z.leb_le En2%Z.leb_le]. injection E as <-.
  rewrite (proj2 (Z.leb_le 0 (o + offs))), (proj2 (Z.leb_le (o + offs) _)) by lia. cbn [andb obind]. rewrite length_drop.
  rewrite (proj2 (Z.leb_le 0 m)), (proj2 (Z.leb_le m _)) by lia. cbn [andb]. f_equal.
  rewrite skipn_firstn_comm, take_take, drop_drop, Nat.min_l by lia. do 2 f_equal. lia.
Qed.

(** The same [n] bytes at both places. *)
Definition same_bytes (la lb : loc) (n : Z) : Prop := exists bs, load_bytes H la n = Ok bs /\ load_bytes H lb n = Ok bs.

Lemma same_bytes_sub la lb n offs m : same_bytes la lb n -> 0 <= offs -> 0 <= m -> offs + m <= n ->
  same_bytes (shift la offs) (shift lb offs) m.
Proof. intros (bs & Ea & Eb) H0 Hm Hle. eexists. by split; eapply load_bytes_sub. Qed.

Lemma same_ptr la lb n i : same_bytes la lb n -> 0 <= i -> 8 * i + 8 <= n -> load_ptr H la i = load_ptr H lb i.
Proof.
  intros Hs Hi Hn. destruct (same_bytes_sub la lb n (8 * i) 8 Hs) as (bs & Ea & Eb); [lia | lia | lia |].
  unfold load_ptr, load_uint. by rewrite Ea, Eb.
Qed.

Lemma shift_ptr l o : load_ptr H (shift l (8 * o)) 0 = load_ptr H l o.
Proof. unfold load_ptr, shift. cbn. do 2 f_equal. lia. Qed.

Lemma own_layout d ly : dt_layout d = Some ly -> jl_is_layout_opaque ly = false -> jl_datatype_layout H depth d = Ok ly /\ the_layout d = Ok ly.
Proof. intros E Ho. unfold jl_datatype_layout, the_layout. by rewrite E, Ho. Qed.

Section Hash.
Context (Hwf : wf_heap) (oid tid : ptr -> outcome Z).

(** An immutable type has a layout of its own. *)
Lemma not_opaque dt d ly nm : get_datatype H dt = Ok d -> dt_layout d = Some ly -> get_typename H (dt_name d) = Ok nm -> tn_mutabl nm = false ->
  jl_is_layout_opaque ly = false.
Proof.
  intros Ed El En Em. destruct (jl_is_layout_opaque ly) eqn:Eo; [| done]. pose proof (wh_opaque Hwf dt d ly Ed El Eo) as Hm.
  unfold jl_mutabl in Hm. rewrite En in Hm. cbn in Hm. congruence.
Qed.

(** Data of one type at two places, undefined at both or with equal hashes. *)
Lemma immut_inline_eq n ft la lb :
  (forall fdt fly, get_datatype H ft = Ok fdt -> dt_layout fdt = Some fly -> jl_is_layout_opaque fly = false ->
     undef_at H fly la = undef_at H fly lb /\
     (undef_at H fly la = Ok false -> immut_id_ H depth oid tid n ft la 0 = immut_id_ H depth oid tid n ft lb 0)) ->
  immut_inline H (immut_id_ H depth oid tid n) ft la = immut_inline H (immut_id_ H depth oid tid n) ft lb.
Proof.
  intros Hu. unfold immut_inline. destruct (get_datatype H ft) as [fdt | |] eqn:Ed; try done. cbn [obind].
  destruct (get_typename H (dt_name fdt)) as [nm | |] eqn:Enm; try done. cbn [obind]. destruct (tn_abstract nm || tn_mutabl nm) eqn:Em; [done |].
  apply orb_false_elim in Em as [_ Em]. destruct (dt_layout fdt) as [fly |] eqn:El; [| unfold the_layout; by rewrite El].
  pose proof (not_opaque ft fdt fly nm Ed El Enm Em) as Ho. destruct (own_layout fdt fly El Ho) as [_ ->]. cbn [obind].
  destruct (Hu fdt fly eq_refl El Ho) as [E1 E2]. rewrite <- E1. destruct (undef_at H fly la) as [[|] | |]; try done. by apply E2.
Qed.

(** Equal bits of a field of a type without padding. *)
Lemma immut_field_bits n d ly la lb f fd :
  (forall dt d ly la lb h, get_datatype H dt = Ok d -> dt_layout d = Some ly -> jl_is_layout_opaque ly = false ->
     plain_bits ly = true -> same_bytes la lb (size ly) -> immut_id_ H depth oid tid n dt la h = immut_id_ H depth oid tid n dt lb h) ->
  wf_field d ly f fd -> plain_bits ly = true -> same_bytes la lb (size ly) ->
  immut_field H depth oid (immut_id_ H depth oid tid n) d la f fd = immut_field H depth oid (immut_id_ H depth oid tid n) d lb f fd.
Proof.
  intros IH Hf Hpl Hs. unfold wf_field in Hf. unfold immut_field. destruct (fd_isptr fd).
  - destruct Hf as (o & _ & -> & Ho0 & Hle). rewrite !shift_ptr. by rewrite (same_ptr la lb (size ly) o) by (done || lia).
  - destruct (proj1 Hf Hpl) as (ft & fdt & fly & -> & Hu & Eft & Efl & Hfp & Hs0 & H0 & Hle & Hfirst). cbn [obind]. rewrite Hu. cbn [obind].
    pose proof (same_bytes_sub la lb (size ly) (fd_offset fd) (size fly) Hs H0 Hs0 Hle) as Hsub.
    apply immut_inline_eq. intros fdt' fly' Ed El Ho. rewrite Eft in Ed. injection Ed as <-. rewrite Efl in El. injection El as <-. split.
    + unfold undef_at. destruct (Z.leb_spec 0 (first_ptr fly)); [| done].
      by rewrite (same_ptr (shift la (fd_offset fd)) (shift lb (fd_offset fd)) (size fly)) by (done || auto).
    + intros _. by apply (IH ft fdt fly).
Qed.

(** The fields one after the other. *)
Lemma immut_fields_eq imm d la lb fds : forall k h,
  (forall i fd, fds !! i = Some fd -> immut_field H depth oid imm d la (k + Z.of_nat i) fd = immut_field H depth oid imm d lb (k + Z.of_nat i) fd) ->
  immut_fields H depth oid imm d la k fds h = immut_fields H depth oid imm d lb k fds h.
Proof.
  induction fds as [| fd fds IH]; intros k h Hf; [done |]. cbn [immut_fields].
  pose proof (Hf 0%nat fd eq_refl) as E. rewrite Z.add_0_r in E. rewrite E. destruct (immut_field _ _ _ _ _ lb _ _); try done. cbn [obind].
  apply IH. intros i fd' Hi. replace (k + 1 + Z.of_nat i) with (k + Z.of_nat (S i)) by lia. by apply Hf.
Qed.

(** Equal bits of a type without padding have equal hashes. *)
Lemma immut_bits n : forall dt d ly la lb h, get_datatype H dt = Ok d -> dt_layout d = Some ly -> jl_is_layout_opaque ly = false ->
  plain_bits ly = true -> same_bytes la lb (size ly) -> immut_id_ H depth oid tid n dt la h = immut_id_ H depth oid tid n dt lb h.
Proof.
  induction n as [| n IH]; [done |]. intros dt d ly la lb h Ed El Ho Hpl Hs. cbn [immut_id_]. rewrite Ed. cbn [obind].
  destruct (own_layout d ly El Ho) as [-> ->]. cbn [obind]. destruct (size ly =? 0); [done |].
  destruct (_ || _); [destruct Hs as (bs & Ea & Eb); unfold bits_hash; by rewrite Ea, Eb |].
  destruct (Z.eqb_spec dt (small_typeof H jl_unionall_tag)) as [-> | _].
  { destruct (wh_unionall Hwf) as (d' & ly' & Ed' & El' & _ & Hpl' & _). congruence. }
  apply immut_fields_eq. intros i fd Hi. apply (immut_field_bits n d ly); try done. by apply (wl_field _ _ (wh_layout Hwf dt d ly Ed El Ho)).
Qed.

(** ** The hash of equal canonical forms *)

Context (canonf : ptr -> outcome cval).
Context (Hoid : forall p q x, canonf p = Ok x -> canonf q = Ok x -> oid p = oid q).
Context (Hnn : forall p x, canonf p = Ok x -> x <> CNull).

Lemma id_or_0_eq p q x : canon_ref canonf p = Ok x -> canon_ref canonf q = Ok x -> id_or_0 oid p = id_or_0 oid q.
Proof.
  unfold canon_ref, id_or_0. destruct (p =? 0), (q =? 0); try done.
  - intros [= <-] Hq. by apply Hnn in Hq.
  - intros Hp [= <-]. by apply Hnn in Hp.
  - by apply Hoid.
Qed.

Lemma canon_ptrs_lookup ps l : forall cs i o, canon_ptrs canonf ps l = Ok cs -> ps !! i = Some o ->
  exists p c, load_ptr H l o = Ok p /\ canon_ref canonf p = Ok c /\ cs !! i = Some c.
Proof.
  unfold canon_ptrs. induction ps as [| o' ps IH]; intros cs i o; [done |]. cbn [omapM].
  intros (c & (p & Ep & Ec)%obind_Ok_inv & (cs' & Ecs & [= <-])%obind_Ok_inv)%obind_Ok_inv. destruct i as [| i]; [intros [= ->]; by exists p, c |].
  intros Hi. by apply (IH cs' i o).
Qed.

Lemma immut_struct_inline n cn ft fdt fly la lb x h :
  (forall dt d ly la lb x h, get_datatype H dt = Ok d -> dt_layout d = Some ly -> jl_is_layout_opaque ly = false ->
     nfields ly <> 0 -> plain_bits ly = false -> cn la dt = Ok x -> cn lb dt = Ok x ->
     immut_id_ H depth oid tid n dt la h = immut_id_ H depth oid tid n dt lb h) ->
  get_datatype H ft = Ok fdt -> dt_layout fdt = Some fly -> jl_is_layout_opaque fly = false ->
  canon_inline cn la ft = Ok x -> canon_inline cn lb ft = Ok x ->
  immut_id_ H depth oid tid n ft la h = immut_id_ H depth oid tid n ft lb h.
Proof.
  intros IH Ed El Ho. unfold canon_inline. rewrite Ed. cbn [obind]. destruct (own_layout fdt fly El Ho) as [-> ->]. cbn [obind].
  destruct (plain_bits fly) eqn:Ep.
  - intros (ba & Ea & [= <-])%obind_Ok_inv (bb & Eb & [= <-])%obind_Ok_inv. apply (immut_bits n ft fdt fly); try done. by eexists.
  - destruct (Z.eqb_spec (nfields fly) 0); [done |]. by apply (IH ft fdt fly).
Qed.

(** Equal canonical forms of a field that is stored inline. *)
Lemma immut_field_canon n cn d ly la lb f fd x :
  (forall dt d ly la lb x h, get_datatype H dt = Ok d -> dt_layout d = Some ly -> jl_is_layout_opaque ly = false ->
     nfields ly <> 0 -> plain_bits ly = false -> cn la dt = Ok x -> cn lb dt = Ok x ->
     immut_id_ H depth oid tid n dt la h = immut_id_ H depth oid tid n dt lb h) ->
  (forall a dt x, cn a dt = Ok x -> exists fs ps, x = CStruct dt fs ps) ->
  fd_isptr fd = false -> wf_field d ly f fd -> canon_field cn d la f fd = Ok x -> canon_field cn d lb f fd = Ok x ->
  immut_field H depth oid (immut_id_ H depth oid tid n) d la f fd = immut_field H depth oid (immut_id_ H depth oid tid n) d lb f fd.
Proof.
  intros IH Hcn Hp Hf. unfold canon_field, immut_field, wf_field in *. rewrite Hp in *.
  destruct (jl_field_type_concrete H d f) as [ft | |] eqn:Eft; try done. cbn [obind]. destruct (jl_is_uniontype H ft) as [[|] | |] eqn:Eu; try done; cbn [obind].
  - intros (sa & -> & Hx)%obind_Ok_inv (sb & -> & Hy)%obind_Ok_inv. cbn [obind].
    apply obind_Ok_inv in Hx as ([fa |] & Ea & Hx); [| done]. apply obind_Ok_inv in Hx as (ca & Hca & Ex).
    apply obind_Ok_inv in Hy as ([fb |] & Eb & Hy); [| done]. apply obind_Ok_inv in Hy as (cb & Hcb & Ey).
    assert (sb = sa /\ cb = ca) as [-> ->] by (split; congruence). rewrite Ea in Eb |- *. injection Eb as <-. cbn [obind].
    apply immut_inline_eq. intros fdt fly Ed El Ho.
    assert (Hfirst : first_ptr fly < 0) by (by apply (proj2 Hf ft sa fa fdt fly)).
    unfold undef_at. rewrite (proj2 (Z.leb_gt _ _)) by lia. split; [done |]. intros _. by eapply (immut_struct_inline n cn fa fdt fly).
  - intros Hx Hy. apply immut_inline_eq. intros fdt fly Ed El Ho. rewrite Ed in Hx, Hy. cbn [obind] in Hx, Hy.
    destruct (own_layout fdt fly El Ho) as [_ El']. rewrite El' in Hx, Hy. cbn [obind] in Hx, Hy. unfold undef_at. destruct (0 <=? first_ptr fly).
    + apply obind_Ok_inv in Hx as (pa & -> & Hx). apply obind_Ok_inv in Hy as (pb & -> & Hy). cbn [obind].
      destruct (pa =? 0), (pb =? 0); try done.
      * injection Hx as <-. by apply canon_inline_shape in Hy.
      * injection Hy as <-. by apply canon_inline_shape in Hx.
      * split; [done |]. intros _. by eapply (immut_struct_inline n cn ft fdt fly).
    + split; [done |]. intros _. by eapply (immut_struct_inline n cn ft fdt fly).
Qed.

Lemma canon_each_lookup cn d l fds : forall k cs i fd, canon_each cn d l k fds = Ok cs -> fds !! i = Some fd ->
  exists c, canon_field cn d l (k + Z.of_nat i) fd = Ok c /\ cs !! i = Some c.
Proof.
  induction fds as [| fd' fds IH]; intros k cs i fd; [done |]. cbn [canon_each].
  intros (c & Ec & (cs' & Ecs & [= <-])%obind_Ok_inv)%obind_Ok_inv. destruct i as [| i].
  - intros [= ->]. rewrite Z.add_0_r. by exists c.
  - intros Hi. destruct (IH (k + 1) cs' i fd Ecs Hi) as (c' & Hc & Hl). exists c'. split; [| done]. by replace (k + Z.of_nat (S i)) with (k + 1 + Z.of_nat i) by lia.
Qed.

Lemma immut_struct n : forall m dt d ly la lb x h, get_datatype H dt = Ok d -> dt_layout d = Some ly -> jl_is_layout_opaque ly = false ->
  nfields ly <> 0 -> plain_bits ly = false \/ npointers ly <> 0 -> canon_struct canonf m la dt = Ok x -> canon_struct canonf m lb dt = Ok x ->
  immut_id_ H depth oid tid n dt la h = immut_id_ H depth oid tid n dt lb h.
Proof.
  induction n as [| n IH]; [done |]. intros m dt d ly la lb x h Ed El Ho Hnf Hpl Ha Hb.
  destruct (own_layout d ly El Ho) as [El1 El2].
  apply canon_struct_inv in Ha as (m' & d1 & ly1 & own1 & fs & ps & -> & Ed1 & Ely1 & Eo1 & Ef & Ep & Hne & ->).
  apply canon_struct_inv in Hb as (m2 & d2 & ly2 & own2 & fs2 & ps2 & [= <-] & Ed2 & Ely2 & Eo2 & Ef2 & Ep2 & _ & [= <- <-]).
  assert (d1 = d /\ d2 = d) as [-> ->] by (split; congruence). assert (ly1 = ly /\ ly2 = ly /\ own1 = ly /\ own2 = ly) as (-> & -> & -> & ->) by (split_and!; congruence).
  cbn [immut_id_]. rewrite Ed. cbn [obind]. rewrite El1. cbn [obind]. rewrite El2. cbn [obind]. destruct (size ly =? 0); [done |].
  rewrite (proj2 (Z.eqb_neq (nfields ly) 0)) by done. cbn [orb].
  destruct (plain_bits ly && (npointers ly =? 0)) eqn:Epl; [apply andb_prop in Epl as [? ?%Z.eqb_eq]; destruct Hpl; congruence |].
  rewrite (proj2 (Z.eqb_neq dt _)) by done. apply immut_fields_eq. intros i fd Hi.
  pose proof (wl_field _ _ (wh_layout Hwf dt d ly Ed El Ho) i fd Hi) as Hf. destruct (fd_isptr fd) eqn:Eptr.
  - unfold immut_field, wf_field in *. rewrite Eptr in *. destruct Hf as (o & Hin & -> & _). rewrite !shift_ptr.
    apply list_elem_of_lookup in Hin as (j & Hj). destruct (canon_ptrs_lookup _ _ _ _ _ Ep Hj) as (p & c & -> & Hp & Hc).
    destruct (canon_ptrs_lookup _ _ _ _ _ Ep2 Hj) as (q & c' & -> & Hq & Hc'). cbn [obind]. apply (id_or_0_eq p q c); congruence.
  - destruct (canon_each_lookup _ _ _ _ _ _ _ _ Ef Hi) as (c & Hc & Hl). destruct (canon_each_lookup _ _ _ _ _ _ _ _ Ef2 Hi) as (c' & Hc' & Hl').
    apply (immut_field_canon n (canon_struct canonf m') d ly la lb _ fd c); try done; [| | congruence].
    + intros dt' d' ly' la' lb' x' h' E1 E2 E3 E4 E5. apply (IH m' dt' d' ly'); try done. by left.
    + intros a dt' z (? & ? & ? & ? & ? & ? & _ & _ & _ & _ & _ & _ & _ & ->)%canon_struct_inv. by eexists _, _.
Qed.
End Hash.

(** ** The hash of objects *)

Section ObjectHash.
Context (Hwf : wf_heap) (f : nat) (oid : ptr -> outcome Z).
Context (Hoid : forall p q x, canon f p = Ok x -> canon f q = Ok x -> oid p = oid q).

Lemma hash_elts_eq l1 : forall l2 cs h, omapM (canon f) l1 = Ok cs -> omapM (canon f) l2 = Ok cs -> hash_elts oid l1 h = hash_elts oid l2 h.
Proof.
  induction l1 as [| x l1 IH]; intros [| y l2] cs h; cbn [omapM hash_elts]; try done.
  - intros [= <-] (? & _ & (? & _ & [=])%obind_Ok_inv)%obind_Ok_inv.
  - intros (? & _ & (? & _ & [= <-])%obind_Ok_inv)%obind_Ok_inv [=].
  - intros (c & Ex & (cs1 & E1 & [= <-])%obind_Ok_inv)%obind_Ok_inv (c' & Ey & (cs2 & E2 & [= -> ->])%obind_Ok_inv)%obind_Ok_inv.
    assert (Hnz : forall p, canon f p = Ok c -> id_or_0 oid p = oid p).
    { intros p Hp. unfold id_or_0. destruct (Z.eqb_spec p 0) as [-> |]; [| done]. destruct f as [| f']; [done |]. cbn [canon] in Hp.
      unfold jl_typetagof, deref in Hp. by rewrite (wh_null Hwf) in Hp. }
    rewrite (Hnz x Ex), (Hnz y Ey), (Hoid x y c Ex Ey). destruct (oid y); try done. cbn [obind]. by apply (IH l2 cs1).
Qed.

Lemma hash_svec_eq a b la lb cs : get_svec H a = Ok la -> get_svec H b = Ok lb -> omapM (canon f) la = Ok cs -> omapM (canon f) lb = Ok cs ->
  hash_svec H oid a = hash_svec H oid b.
Proof. intros Ea Eb Ca Cb. unfold hash_svec. rewrite Ea, Eb. cbn [obind]. by apply (hash_elts_eq la lb cs). Qed.

(** An object with a small tag of a type that has neither a hash of its own
    nor [DataType]. *)
Lemma object_id_small n p t d : is_small (tag t) = true -> small_tag (tag t) = Some t -> t <> jl_symbol_tag -> t <> jl_datatype_tag ->
  get_datatype H (small_typeof H t) = Ok d ->
  jl_object_id_ H depth oid n (tag t) p = jl_object_id__cold H depth oid n (tag t) p /\ jl_to_typeof H (tag t) = Ok (small_typeof H t).
Proof.
  intros Hs Ht Hns Hnd Ed. unfold jl_object_id_, jl_to_typeof. rewrite Hs, Ht. split; [| done].
  assert (Hne : forall t', small_tag (tag t') = Some t' -> t <> t' -> (tag t =? tag t') = false).
  { intros t' Ht' Hd. apply Z.eqb_neq. intros E. rewrite E in Ht. congruence. }
  rewrite (Hne jl_symbol_tag eq_refl Hns), (Hne jl_datatype_tag eq_refl Hnd).
  destruct (Z.eqb_spec (tag t) (jl_typename_type H)) as [E |]; [pose proof (wh_typename_tag Hwf); congruence | done].
Qed.

(** The hash of an immutable object whose type is [dt]. *)
Lemma cold_immut n dtag dt d p : jl_to_typeof H dtag = Ok dt -> get_datatype H dt = Ok d -> jl_mutabl H d = Ok false ->
  jl_object_id__cold H depth oid n dtag p = immut_id_ H depth oid (fun v => type_object_id_ H depth oid n v []) depth dt (p, 0) (dt_hash d).
Proof. intros E1 E2 E3. unfold jl_object_id__cold. rewrite E1. cbn [obind]. rewrite E2. cbn [obind]. by rewrite E3. Qed.

Lemma immutable_layout dt d ly : get_datatype H dt = Ok d -> jl_mutabl H d = Ok false -> dt_layout d = Some ly -> jl_is_layout_opaque ly = false.
Proof. intros Ed Em El. destruct (jl_is_layout_opaque ly) eqn:Eo; [| done]. pose proof (wh_opaque Hwf dt d ly Ed El Eo). congruence. Qed.

Lemma immut_whole tid n dt d ly la lb h : get_datatype H dt = Ok d -> dt_layout d = Some ly -> jl_is_layout_opaque ly = false ->
  nfields ly = 0 \/ plain_bits ly = true -> same_bytes la lb (size ly) ->
  immut_id_ H depth oid tid n dt la h = immut_id_ H depth oid tid n dt lb h.
Proof.
  intros Ed El Ho [Hnf | Hpl] Hs; [| by apply (immut_bits Hwf oid tid n dt d ly)]. destruct n as [| n]; [done |]. cbn [immut_id_].
  rewrite Ed. cbn [obind]. destruct (own_layout d ly El Ho) as [-> ->]. cbn [obind]. rewrite Hnf. cbn [Z.eqb orb].
  destruct (size ly =? 0); [done |]. destruct Hs as (bs & Ea & Eb). unfold bits_hash. by rewrite Ea, Eb.
Qed.

Lemma immut_empty tid n dt d ly la lb h : get_datatype H dt = Ok d -> jl_datatype_layout H depth d = Ok ly -> (size ly =? 0) = true ->
  immut_id_ H depth oid tid n dt la h = immut_id_ H depth oid tid n dt lb h.
Proof. intros Ed El Es. destruct n as [| n]; [done |]. cbn [immut_id_]. rewrite Ed. cbn [obind]. rewrite El. cbn [obind]. by rewrite Es. Qed.

Lemma width_hash n p q t w c : tag_width t = Some w -> is_small (tag t) = true -> small_tag (tag t) = Some t ->
  (let! bs := load_bytes H (p, 0) w in Ok (CBits (tag t) bs)) = Ok c -> (let! bs := load_bytes H (q, 0) w in Ok (CBits (tag t) bs)) = Ok c ->
  jl_object_id_ H depth oid n (tag t) p = jl_object_id_ H depth oid n (tag t) q.
Proof.
  intros Hw Hs Ht (ba & Ea & [= <-])%obind_Ok_inv (bb & Eb & [= ->])%obind_Ok_inv.
  destruct (wh_width Hwf t w Hw) as (d & ly & Ed & Em & El & Hsz & Hpl).
  assert (Hns : t <> jl_symbol_tag /\ t <> jl_datatype_tag) by (split; intros ->; done).
  destruct (object_id_small n p t d Hs Ht (proj1 Hns) (proj2 Hns) Ed) as [-> Et]. destruct (object_id_small n q t d Hs Ht (proj1 Hns) (proj2 Hns) Ed) as [-> _].
  rewrite !(cold_immut n (tag t) _ d) by done. apply (immut_whole _ _ _ d ly); try done; [by apply (immutable_layout (small_typeof H t) d) | naive_solver |].
  rewrite Hsz. by eexists.
Qed.

Lemma struct_hash n p q t c : struct_tag t = true -> is_small (tag t) = true -> small_tag (tag t) = Some t ->
  canon_struct (canon f) depth (p, 0) (small_typeof H t) = Ok c -> canon_struct (canon f) depth (q, 0) (small_typeof H t) = Ok c ->
  jl_object_id_ H depth oid n (tag t) p = jl_object_id_ H depth oid n (tag t) q.
Proof.
  intros Hst Hs Ht Ha Hb. destruct (wh_struct Hwf t Hst) as (d & ly & Ed & Em & El & Hnf & Hpl).
  assert (Hns : t <> jl_symbol_tag /\ t <> jl_datatype_tag) by (split; intros ->; done).
  destruct (object_id_small n p t d Hs Ht (proj1 Hns) (proj2 Hns) Ed) as [-> Et]. destruct (object_id_small n q t d Hs Ht (proj1 Hns) (proj2 Hns) Ed) as [-> _].
  rewrite !(cold_immut n (tag t) _ d) by done.
  apply (immut_struct Hwf oid _ (canon f) Hoid (canon_not_null f) depth depth _ d ly _ _ c); try done. by apply (immutable_layout (small_typeof H t) d).
Qed.

Lemma distinct_types : small_typeof H jl_simplevector_tag <> small_typeof H jl_string_tag /\
  small_typeof H jl_datatype_tag <> small_typeof H jl_string_tag /\ small_typeof H jl_datatype_tag <> small_typeof H jl_simplevector_tag.
Proof.
  pose proof (wh_distinct Hwf) as [H1 [H2 _]%NoDup_cons]%NoDup_cons.
  split_and!; intros E; [apply H1 | apply H1 | apply H2]; rewrite E; set_solver.
Qed.

Lemma contents_hash n p q c :
  ((let! o := deref H p in match obody o with BString s => Ok (CString s) | _ => UB end) = Ok c ->
   (let! o := deref H q in match obody o with BString s => Ok (CString s) | _ => UB end) = Ok c ->
   jl_object_id_ H depth oid n (tag jl_string_tag) p = jl_object_id_ H depth oid n (tag jl_string_tag) q) /\
  ((let! l := get_svec H p in let! cs := omapM (canon f) l in Ok (CSvec cs)) = Ok c ->
   (let! l := get_svec H q in let! cs := omapM (canon f) l in Ok (CSvec cs)) = Ok c ->
   jl_object_id_ H depth oid n (tag jl_simplevector_tag) p = jl_object_id_ H depth oid n (tag jl_simplevector_tag) q).
Proof.
  destruct distinct_types as (Hd1 & _ & _).
  destruct (wh_contents Hwf jl_string_tag) as (d & Ed & Em); [set_solver |]. destruct (wh_contents Hwf jl_simplevector_tag) as (d' & Ed' & Em'); [set_solver |]. split.
  - intros (o1 & E1 & C1)%obind_Ok_inv (o2 & E2 & C2)%obind_Ok_inv.
    rewrite !(proj1 (object_id_small n _ jl_string_tag d eq_refl eq_refl ltac:(done) ltac:(done) Ed)). unfold jl_object_id__cold.
    change (jl_to_typeof H (tag jl_string_tag)) with (Ok (small_typeof H jl_string_tag)). cbn [obind]. rewrite Ed. cbn [obind]. rewrite Em. cbn [obind].
    rewrite Z.eqb_refl, E1, E2. cbn [obind]. destruct (obody o1), (obody o2); try done. congruence.
  - intros (l1 & E1 & (cs1 & C1 & [= <-])%obind_Ok_inv)%obind_Ok_inv (l2 & E2 & (cs2 & C2 & [= ->])%obind_Ok_inv)%obind_Ok_inv.
    rewrite !(proj1 (object_id_small n _ jl_simplevector_tag d' eq_refl eq_refl ltac:(done) ltac:(done) Ed')). unfold jl_object_id__cold.
    change (jl_to_typeof H (tag jl_simplevector_tag)) with (Ok (small_typeof H jl_simplevector_tag)). cbn [obind]. rewrite Ed'. cbn [obind]. rewrite Em'. cbn [obind].
    rewrite (proj2 (Z.eqb_neq _ _) Hd1), Z.eqb_refl. by apply (hash_svec_eq p q l1 l2 cs1).
Qed.

Lemma datatype_hash n p q dp dq l1 l2 cs : get_datatype H p = Ok dp -> get_datatype H q = Ok dq ->
  dt_isconcretetype dp = dt_isconcretetype dq -> (dt_isconcretetype dp = true -> dt_hash dp = dt_hash dq) -> dt_name dp = dt_name dq ->
  get_svec H (dt_parameters dp) = Ok l1 -> get_svec H (dt_parameters dq) = Ok l2 -> omapM (canon f) l1 = Ok cs -> omapM (canon f) l2 = Ok cs ->
  jl_object_id_ H depth oid n (tag jl_datatype_tag) p = jl_object_id_ H depth oid n (tag jl_datatype_tag) q.
Proof.
  intros Ep Eq Hc Hh Hn E1 E2 C1 C2. destruct distinct_types as (_ & Hd1 & Hd2).
  unfold jl_object_id_. change (tag jl_datatype_tag =? tag jl_symbol_tag) with false. rewrite Z.eqb_refl, Ep, Eq. cbn [obind]. rewrite <- Hc.
  destruct (dt_isconcretetype dp); [by rewrite Hh |]. destruct (wh_contents Hwf jl_datatype_tag) as (d & Ed & Em); [set_solver |].
  unfold jl_object_id__cold. change (jl_to_typeof H (tag jl_datatype_tag)) with (Ok (small_typeof H jl_datatype_tag)). cbn [obind]. rewrite Ed. cbn [obind]. rewrite Em. cbn [obind].
  rewrite (proj2 (Z.eqb_neq _ _) Hd1), (proj2 (Z.eqb_neq _ _) Hd2), Z.eqb_refl, Ep, Eq. cbn [obind]. rewrite Hn.
  by rewrite (hash_svec_eq _ (dt_parameters dq) l1 l2 cs).
Qed.

Lemma large_hash n p q dtag x : is_small dtag = false -> p <> q -> canon_large (canon f) p dtag = Ok x -> canon_large (canon f) q dtag = Ok x ->
  jl_object_id_ H depth oid n dtag p = jl_object_id_ H depth oid n dtag q.
Proof.
  intros Hs Hne Hx Hy. unfold canon_large in *. destruct (get_datatype H dtag) as [d | |] eqn:Ed; try done. cbn [obind] in *.
  destruct (jl_mutabl H d) as [[|] | |] eqn:Em; try done; cbn [obind] in *; [congruence |].
  assert (Hid : forall v, jl_object_id_ H depth oid n dtag v = jl_object_id__cold H depth oid n dtag v).
  { intros v. unfold jl_object_id_. rewrite !(proj2 (Z.eqb_neq dtag _)); [done | | |]; intros ->; try done.
    destruct (wh_typename Hwf) as (d' & Ed' & Em'). congruence. }
  rewrite !Hid, !(cold_immut n dtag dtag d) by (done || unfold jl_to_typeof; by rewrite Hs).
  apply boxed_inv in Hx as (c & Hx & ->). apply boxed_inv in Hy as (c' & Hy & [= <-]).
  destruct (jl_datatype_layout H depth d) as [ly | |] eqn:Ely; try done. cbn [obind] in *. destruct (size ly =? 0) eqn:Esz.
  { by apply (immut_empty _ _ _ d ly). }
  destruct (the_layout d) as [own | |] eqn:Eown; try done. cbn [obind] in *. unfold the_layout in Eown. destruct (dt_layout d) as [ly' |] eqn:El; [| done]. injection Eown as ->.
  pose proof (immutable_layout dtag d own Ed Em El) as Ho. destruct (own_layout d own El Ho) as [Ely' _]. assert (ly = own) as -> by congruence.
  destruct ((nfields own =? 0) || plain_bits own) eqn:Ebits.
  - apply obind_Ok_inv in Hx as (b1 & E1 & (? & _ & [= <-])%obind_Ok_inv). apply obind_Ok_inv in Hy as (b2 & E2 & (? & _ & [= ->])%obind_Ok_inv).
    apply (immut_whole _ _ _ d own); try done; [| by eexists]. apply orb_prop in Ebits as [?%Z.eqb_eq | ?]; auto.
  - apply orb_false_elim in Ebits as [Hnf%Z.eqb_neq Hpl].
    apply (immut_struct Hwf oid _ (canon f) Hoid (canon_not_null f) depth depth _ d own _ _ c); try done. by left.
Qed.
End ObjectHash.

Lemma jl_object_id_canon (Hwf : wf_heap) f : forall p q x, canon f p = Ok x -> canon f q = Ok x -> jl_object_id H depth f p = jl_object_id H depth f q.
Proof.
  induction f as [| f IH]; [done |]. intros p q x Hx Hy. destruct (Z.eq_dec p q) as [-> | Hne]; [done |].
  destruct (canon_shape _ _ _ Hx) as [-> | (dtag & c & Et & ->)].
  { destruct (canon_shape _ _ _ Hy) as [[= ->] | (? & ? & _ & [=])]. done. }
  destruct (canon_shape _ _ _ Hy) as [[=] | (dtag' & c' & Et' & [= <- <-])]. pose proof Hx as Hx0. pose proof Hy as Hy0.
  cbn [canon] in Hx, Hy. rewrite Et in Hx. rewrite Et' in Hy. cbn [obind] in *. cbn [jl_object_id]. rewrite Et, Et'. cbn [obind].
  destruct (is_small dtag) eqn:Es; [| by apply (large_hash Hwf f _ IH f p q dtag (CBox dtag c))].
  destruct (small_tag dtag) as [t |] eqn:Est; [| done]. assert (Hn : t <> jl_null_tag) by (by intros ->).
  pose proof (small_tag_inv dtag t (typetag_aligned p dtag Et) Est Hn) as ->. unfold canon_small in Hx, Hy. destruct (tag_width t) as [w |] eqn:Ew.
  { apply boxed_inv in Hx as (c1 & Hx & [= <-]). apply boxed_inv in Hy as (c2 & Hy & [= <-]). by apply (width_hash Hwf _ f p q t w c). }
  destruct (struct_tag t) eqn:Est'.
  { apply boxed_inv in Hx as (c1 & Hx & [= <-]). apply boxed_inv in Hy as (c2 & Hy & [= <-]). by apply (struct_hash Hwf f _ IH f p q t c). }
  destruct (address_tag t); [done |]. destruct t; try done.
  - apply obind_Ok_inv in Hx as (dp & Ep & Hx). apply obind_Ok_inv in Hy as (dq & Eq & Hy).
    destruct (negb (dt_name dp =? _) && _) eqn:Ip; [done |]. destruct (negb (dt_name dq =? _) && _) eqn:Iq; [done |].
    apply boxed_inv in Hx as (c1 & (l1 & P1 & (cs1 & C1 & [= <-])%obind_Ok_inv)%obind_Ok_inv & [= ->]).
    apply boxed_inv in Hy as (c2 & (l2 & P2 & (cs2 & C2 & [= <-])%obind_Ok_inv)%obind_Ok_inv & [= Hnm <-]).
    assert (Hcc : dt_isconcretetype dp = dt_isconcretetype dq /\ (dt_isconcretetype dp = true -> dt_hash dp = dt_hash dq)).
    { destruct (Z.eqb_spec (dt_name dp) (jl_tuple_typename H)) as [Htup | Hnt].
      - by apply (wh_tuple Hwf (S f) p q _ dp dq Hx0 Hy0).
      - rewrite <- Hnm in Iq. rewrite (proj2 (Z.eqb_neq _ _)) in Iq by done. cbn in Ip, Iq. rewrite Ip, Iq. done. }
    by apply (datatype_hash Hwf f _ IH f p q dp dq l1 l2 cs1); try apply Hcc.
  - apply boxed_inv in Hx as (c1 & Hx & [= <-]). apply boxed_inv in Hy as (c2 & Hy & [= <-]). by apply (proj2 (contents_hash Hwf f _ IH f p q c)).
  - apply boxed_inv in Hx as (c1 & Hx & [= <-]). apply boxed_inv in Hy as (c2 & Hy & [= <-]). by apply (proj1 (contents_hash Hwf f _ IH f p q c)).
Qed.
End Canon.
