(* ===== verification/EgalIdentity.v ===== *)
(** * Egal implements the identity of the tables

    The theorems about [jl_egal] and [jl_object_id], the [Identity] they give
    for the objects of a heap, a heap that is well-formed, and two types in it
    on which the two functions disagree. *)

From stdpp Require Import base gmap numbers option list.
From Stdlib Require Import ZArith Lia.
From S2P Require Import Prelude Hashing Bytes Identity Objects Egal EgalFacts.

(** C4: [jl_egal] compares values.  On objects with a canonical form (immutable
    data down to mutable objects, in well-formed memory) it returns without
    reading outside an object, and it returns true exactly if the canonical
    forms are equal: same type, same bytes outside padding, undefined fields
    in the same places, equal references, and mutable objects at the same
    address.  Objects that are egal have the same [jl_object_id]. *)
Theorem egal_decides_values (H : heap) (depth fuel : nat) (p q : Z) (x y : cval) :
  wf_heap H depth -> canon H depth fuel p = Ok x -> canon H depth fuel q = Ok y ->
  exists r, jl_egal H depth fuel p q = Ok r /\ (r = true <-> x = y) /\
    (r = true -> jl_object_id H depth fuel p = jl_object_id H depth fuel q).
Proof.
  intros Hwf Hx Hy. destruct (jl_egal_decides H depth (wh_bottom _ _ Hwf) fuel p q x y Hx Hy) as (r & E & Hr).
  exists r. split; [done |]. split; [done |]. intros Ht%Hr. subst y. by apply (jl_object_id_canon H depth Hwf fuel p q x).
Qed.

(** ** The interface of the identity tables *)

Section Instance.
Context (H : heap) (depth fuel : nat) (Hwf : wf_heap H depth).

(** Objects with a canonical form. *)
Definition value : Type := {p : Z | exists x, canon H depth fuel p = Ok x}.

Definition value_egal (a b : value) : bool := match jl_egal H depth fuel (`a) (`b) with Ok r => r | _ => false end.
Definition value_id (a : value) : Z := match jl_object_id H depth fuel (`a) with Ok h => h | _ => 0 end.

Lemma value_egal_spec (a b : value) x y : canon H depth fuel (`a) = Ok x -> canon H depth fuel (`b) = Ok y -> (value_egal a b = true <-> x = y).
Proof.
  intros Hx Hy. unfold value_egal. by destruct (jl_egal_decides H depth (wh_bottom _ _ Hwf) fuel _ _ x y Hx Hy) as (r & -> & Hr).
Qed.

#[global] Program Instance heap_identity : Identity value := {| Identity.jl_egal := value_egal; Identity.jl_object_id := value_id |}.
Next Obligation. intros a. destruct (proj2_sig a) as (x & Hx). by apply (value_egal_spec a a x x). Qed.
Next Obligation.
  intros a b. destruct (proj2_sig a) as (x & Hx), (proj2_sig b) as (y & Hy).
  apply eq_true_iff_eq. rewrite (value_egal_spec a b x y), (value_egal_spec b a y x) by done. done.
Qed.
Next Obligation.
  intros a b c. destruct (proj2_sig a) as (x & Hx), (proj2_sig b) as (y & Hy), (proj2_sig c) as (z & Hz).
  rewrite (value_egal_spec a b x y), (value_egal_spec b c y z), (value_egal_spec a c x z) by done. congruence.
Qed.
Next Obligation.
  intros a b. destruct (proj2_sig a) as (x & Hx), (proj2_sig b) as (y & Hy). rewrite (value_egal_spec a b x y) by done. intros <-.
  unfold value_id. by rewrite (jl_object_id_canon H depth Hwf fuel _ (`b) x).
Qed.
End Instance.

(** ** A heap *)

Definition words (l : list Z) : body := BData (concat (map (le_bytes 8) l)).
Definition small_obj (t : jl_small_typeof_tags) (b : body) : obj := Obj 0 (tag t) b.
Definition type_addr (t : jl_small_typeof_tags) : Z := 16384 + 16 * index_of t small_tags.

(** Type names of immutable, mutable and abstract types, and of tuples. *)
Definition immut_name : Z := 33008.
Definition mut_name : Z := 33024.
Definition abstract_name : Z := 33040.
Definition tuple_name : Z := 33056.
Definition empty_svec : Z := 33072.

Definition bits_layout (sz : Z) : jl_datatype_layout_t := Layout sz 0 0 (-1) 1 false JL_FIELDDESC_8 0 true [] [].
Definition node_layout : jl_datatype_layout_t :=
  Layout 16 2 2 0 8 false JL_FIELDDESC_8 0 false [FieldDesc true 8 0; FieldDesc true 8 8] [0; 1].
(** [struct Pair; name::String; n::Int64; end] *)
Definition pair_layout : jl_datatype_layout_t :=
  Layout 16 2 1 0 8 false JL_FIELDDESC_8 0 false [FieldDesc true 8 0; FieldDesc false 8 8] [0].

Definition type_obj (smalltag name types : Z) (ly : jl_datatype_layout_t) : obj :=
  small_obj jl_datatype_tag (BDatatype (Datatype name empty_svec types 0 (Some ly) (types + size ly) true false false false true true true true smalltag)).

(** The type of the objects with a small tag. *)
Definition small_type (t : jl_small_typeof_tags) : obj :=
  match tag_width t with
  | Some w => type_obj (index_of t small_tags) immut_name empty_svec (bits_layout w)
  | None =>
      if struct_tag t then type_obj (index_of t small_tags) immut_name empty_svec node_layout
      else
        match t with
        | jl_unionall_tag | jl_typeeq_tag => type_obj (index_of t small_tags) immut_name empty_svec node_layout
        | jl_typeofbottom_tag => type_obj (index_of t small_tags) immut_name empty_svec (bits_layout 0)
        | _ => type_obj (index_of t small_tags) mut_name empty_svec (bits_layout 0)
        end
  end.

(** ["hi"], twice; two pairs of it and 7; two type variables named [T] and a
    tuple type of both, bound in either order. *)
Definition objects_list : list (Z * obj) :=
  map (fun t => (type_addr t, small_type t)) small_tags ++
  [(32768, type_obj 0 mut_name empty_svec (bits_layout 0));
   (immut_name, Obj 0 32768 (BTypename (Typename 0 333 false false true 0 None None)));
   (mut_name, Obj 0 32768 (BTypename (Typename 0 334 false true false 0 None None)));
   (abstract_name, Obj 0 32768 (BTypename (Typename 0 335 true false false 0 None None)));
   (tuple_name, Obj 0 32768 (BTypename (Typename 0 336 false false true 0 None None)));
   (empty_svec, small_obj jl_simplevector_tag (BSvec []));
   (33088, small_obj jl_simplevector_tag (BSvec [type_addr jl_string_tag; type_addr jl_int64_tag]));
   (33104, type_obj 0 immut_name 33088 pair_layout);
   (40000, small_obj jl_string_tag (BString [104; 105]));
   (40016, small_obj jl_string_tag (BString [104; 105]));
   (40032, Obj 0 33104 (words [40000; 7]));
   (40048, Obj 0 33104 (words [40016; 7]));
   (41008, small_obj jl_symbol_tag (BSymbol 1234567));
   (41024, small_obj jl_datatype_tag (BDatatype (Datatype abstract_name empty_svec empty_svec 0 None 5 false false false false false true false false 0)));
   (41040, small_obj jl_typeofbottom_tag (BData []));
   (41056, small_obj jl_tvar_tag (words [41008; 41040; 41024]));
   (41072, small_obj jl_tvar_tag (words [41008; 41040; 41024]));
   (41088, small_obj jl_simplevector_tag (BSvec [41056; 41072]));
   (41104, small_obj jl_datatype_tag (BDatatype (Datatype tuple_name 41088 0 0 None 0 false false false true false true false false 0)));
   (41120, small_obj jl_unionall_tag (words [41072; 41104]));
   (41136, small_obj jl_unionall_tag (words [41056; 41120]));
   (41152, small_obj jl_unionall_tag (words [41056; 41104]));
   (41168, small_obj jl_unionall_tag (words [41072; 41152]))].

Definition demo_heap : heap := Heap (list_to_map objects_list) type_addr 32768 41024 0 tuple_name 0 0 0 41040 0 0 0 0 0.

(** Every object in turn. *)
Ltac each_object tac :=
  unfold objects_list, small_tags; cbn [map app];
  repeat (apply Forall_cons; split; [tac |]); apply Forall_nil; exact I.

(** What holds of every object holds of those found. *)
Lemma demo_objects (P : Z -> obj -> Prop) : Forall (fun po => P po.1 po.2) objects_list -> forall p o, deref demo_heap p = Ok o -> P p o.
Proof.
  intros HP p o. unfold deref. destruct (objects demo_heap !! p) as [o' |] eqn:E; [| done]. intros [= <-].
  apply elem_of_list_to_map_2 in E. by apply (Forall_forall (fun po => P po.1 po.2) objects_list) in E.
Qed.

Lemma demo_datatypes (P : Z -> jl_datatype_t -> Prop) :
  Forall (fun po => match obody po.2 with BDatatype d => P po.1 d | _ => True end) objects_list -> forall p d, get_datatype demo_heap p = Ok d -> P p d.
Proof.
  intros HP p d (o & Eo & E)%obind_Ok_inv. apply (demo_objects (fun p o => match obody o with BDatatype d => P p d | _ => True end) HP) in Eo.
  destruct (obody o); try done. by injection E as <-.
Qed.

(** The layouts of the heap. *)
Definition layout_ok (d : jl_datatype_t) : Prop :=
  forall ly, dt_layout d = Some ly -> jl_is_layout_opaque ly = false /\ wf_layout demo_heap 5 d ly.

Lemma bits_layout_ok d sz : dt_layout d = Some (bits_layout sz) -> layout_ok d.
Proof. intros E ly E'. rewrite E in E'. injection E' as <-. split; [done |]. split; [done |]. by intros f fd Hf. Qed.

Lemma node_layout_ok d : dt_layout d = Some node_layout -> layout_ok d.
Proof.
  intros E ly E'. rewrite E in E'. injection E' as <-. split; [done |]. split; [done |].
  intros [| [| f]] fd [= <-]; [exists 0 | exists 1]; (split; [set_solver |]); cbn; lia.
Qed.

Lemma pair_layout_ok d : dt_layout d = Some pair_layout -> dt_types d = 33088 -> layout_ok d.
Proof.
  intros E Et ly E'. rewrite E in E'. injection E' as <-. split; [done |]. split; [done |].
  intros [| [| f]] fd [= <-]; [exists 0; (split; [set_solver |]); cbn; lia |]. split; [done |].
  unfold jl_field_type_concrete. rewrite Et. intros ft sel ft' fdt fly Ef. vm_compute in Ef. injection Ef as <-. intros Eu. by vm_compute in Eu.
Qed.

Lemma demo_layouts p d : get_datatype demo_heap p = Ok d -> layout_ok d.
Proof.
  revert p d. apply (demo_datatypes (fun _ d => layout_ok d)).
  each_object ltac:(cbn -[layout_ok]; first [exact I | by intros ly [=] | apply (node_layout_ok _); reflexivity
    | apply (pair_layout_ok _); reflexivity | eapply bits_layout_ok; unfold bits_layout; reflexivity]).
Qed.

Lemma demo_bottom : unique_bottom demo_heap.
Proof.
  assert (Hb : forall p o, deref demo_heap p = Ok o -> Z.land (header o) (Z.lnot 15) = tag jl_typeofbottom_tag -> p = 41040).
  { apply (demo_objects (fun p o => Z.land (header o) (Z.lnot 15) = tag jl_typeofbottom_tag -> p = 41040)).
    each_object ltac:(cbn [fst snd]; intros E; first [reflexivity | by vm_compute in E]). }
  intros p q (o & Eo & [= E1])%obind_Ok_inv (o' & Eo' & [= E2])%obind_Ok_inv. by rewrite (Hb p o Eo E1), (Hb q o' Eo' E2).
Qed.

(** Data types with the same canonical form have the same name. *)
Lemma canon_name H depth f p q x dp dq : canon H depth f p = Ok x -> canon H depth f q = Ok x -> get_datatype H p = Ok dp -> get_datatype H q = Ok dq ->
  jl_typetagof H p = Ok (tag jl_datatype_tag) -> jl_typetagof H q = Ok (tag jl_datatype_tag) -> dt_name dp = dt_name dq.
Proof.
  intros Hx Hy Ep Eq Tp Tq. destruct (Z.eq_dec p q) as [-> | Hne]; [congruence |]. destruct f as [| f]; [done |]. cbn [canon] in Hx, Hy.
  rewrite Tp in Hx. rewrite Tq in Hy. cbn [obind] in Hx, Hy.
  change (is_small (tag jl_datatype_tag)) with true in *. change (small_tag (tag jl_datatype_tag)) with (Some jl_datatype_tag) in *.
  unfold canon_small in Hx, Hy. cbn [tag_width struct_tag address_tag] in Hx, Hy. rewrite Ep in Hx. rewrite Eq in Hy. cbn [obind] in Hx, Hy.
  destruct (_ && _), (_ && _); try (apply boxed_inv in Hx as (cx & Hx & ?)); try (apply boxed_inv in Hy as (cy & Hy & ?)); try congruence.
  simplify_eq. apply obind_Ok_inv in Hx as (? & _ & (? & _ & [= <-])%obind_Ok_inv). apply obind_Ok_inv in Hy as (? & _ & (? & _ & [= ?])%obind_Ok_inv). done.
Qed.

Lemma demo_tuple p d : get_datatype demo_heap p = Ok d -> dt_name d = tuple_name -> p = 41104.
Proof.
  revert p d. apply (demo_datatypes (fun p d => dt_name d = tuple_name -> p = 41104)).
  each_object ltac:(cbn [fst snd]; first [exact I | intros E; first [reflexivity | by vm_compute in E]]).
Qed.

Lemma demo_type_tags p d : get_datatype demo_heap p = Ok d -> jl_typetagof demo_heap p = Ok (tag jl_datatype_tag).
Proof.
  intros (o & Eo & E)%obind_Ok_inv. unfold jl_typetagof. rewrite Eo. cbn [obind]. f_equal.
  revert E. revert p o Eo. apply (demo_objects (fun _ o => match obody o with BDatatype d => Ok d | _ => UB end = Ok d -> Z.land (header o) (Z.lnot 15) = tag jl_datatype_tag)).
  each_object ltac:(cbn [fst snd]; intros E; first [reflexivity | by vm_compute in E]).
Qed.

Lemma demo_wf : wf_heap demo_heap 5.
Proof.
  split.
  - reflexivity.
  - exact demo_bottom.
  - intros dt d ly Ed El _. by apply (demo_layouts dt d Ed).
  - intros dt d ly Ed El Ho. destruct (demo_layouts dt d Ed ly El). congruence.
  - intros t Ht. assert (t = jl_string_tag \/ t = jl_simplevector_tag \/ t = jl_datatype_tag) as [-> | [-> | ->]] by set_solver;
      (eexists; split; vm_compute; reflexivity).
  - vm_compute. repeat (constructor; [set_solver |]). constructor.
  - reflexivity.
  - eexists. split; vm_compute; reflexivity.
  - eexists _, _. split; [vm_compute; reflexivity |]. split; [reflexivity |]. done.
  - intros t w Hw. destruct t; try discriminate Hw; injection Hw as <-; eexists _, _;
      (split; [vm_compute; reflexivity | split; [vm_compute; reflexivity | split; [reflexivity | split; [reflexivity | by left]]]]).
  - intros t Ht. destruct t; try discriminate Ht; eexists _, _;
      (split; [vm_compute; reflexivity | split; [vm_compute; reflexivity | split; [reflexivity | split; [done | by left]]]]).
  - intros f p q x dp dq Hx Hy Ep Eq Hn.
    pose proof (canon_name _ _ _ _ _ _ _ _ Hx Hy Ep Eq (demo_type_tags p dp Ep) (demo_type_tags q dq Eq)) as Hname.
    pose proof (demo_tuple p dp Ep Hn) as ->. pose proof (demo_tuple q dq Eq (eq_trans (eq_sym Hname) Hn)) as ->. assert (dp = dq) as -> by congruence. done.
Qed.

(** The two pairs are different objects with the same value. *)
Lemma egal_decides_values_witness : exists x r, canon demo_heap 5 5 40032 = Ok x /\ canon demo_heap 5 5 40048 = Ok x /\
  jl_egal demo_heap 5 5 40032 40048 = Ok r /\ r = true /\ jl_object_id demo_heap 5 5 40032 = jl_object_id demo_heap 5 5 40048 /\
  exists h, jl_object_id demo_heap 5 5 40032 = Ok h.
Proof.
  destruct (egal_decides_values demo_heap 5 5 40032 40048 _ _ demo_wf eq_refl eq_refl) as (r & E & Hr & Hid).
  eexists _, r. split; [reflexivity |]. split; [reflexivity |]. split; [exact E |]. assert (Ht : r = true) by (apply Hr; reflexivity).
  split; [exact Ht |]. split; [exact (Hid Ht) |]. eexists. vm_compute. reflexivity.
Defined.

(** C34: Egal types with different identities.  [Tuple{T1, T2}] for two type
    variables of the same name is bound as [(Tuple{T1, T2} where T2) where T1]
    and as [(Tuple{T1, T2} where T1) where T2].  [egal_types] meets the shared
    body and takes it to be equal to itself without asking which variable
    stands for which, so the two types are egal; [jl_object_id] numbers the
    variables and gives them different hashes. *)
Theorem egal_unionall_shared_body :
  jl_egal demo_heap 5 9 41136 41168 = Ok true /\
  exists h1 h2, jl_object_id demo_heap 5 9 41136 = Ok h1 /\ jl_object_id demo_heap 5 9 41168 = Ok h2 /\ h1 <> h2.
Proof. split; [vm_compute; reflexivity |]. eexists _, _. split; [vm_compute; reflexivity |]. split; [vm_compute; reflexivity |]. discriminate. Qed.
