(* ===== verification/HeapMonad.v ===== *)
(** * Code that changes the heap and may throw

    The monad of the runtime functions that allocate, write to objects or
    raise a Julia exception: a function from the heap to a result, or an
    exception, and the heap it leaves. *)

From stdpp Require Import base gmap numbers option list.
From Stdlib Require Import ZArith Lia.
From S2P Require Import Prelude Hashing Objects.

(** The exceptions of datatype.c and genericmemory.c; a message that is formatted from objects is
    kept as these objects. *)
Inductive exception :=
| overflow_error (st : ptr) (offset : Z)
| bounds_error (v : ptr) (i : Z)
| undefref_exception
| type_error (expected got : ptr)
| argument_count
| invalid_allocation
| invalid_memory_size
| invalid_memory_kind
| invalid_addrspace
| mixed_memories.

Inductive result (A : Type) :=
| Ret (a : A)
| Throw (e : exception).
Arguments Ret {A} _.
Arguments Throw {A} _.

Definition M (A : Type) : Type := heap -> outcome (result A * heap).

Definition ret {A} (a : A) : M A := fun H => Ok (Ret a, H).
Definition bind {A B} (m : M A) (k : A -> M B) : M B := fun H =>
  match m H with
  | Ok (Ret a, H) => k a H
  | Ok (Throw e, H) => Ok (Throw e, H)
  | UB => UB
  | Timeout => Timeout
  end.
Definition reads {A} (f : heap -> outcome A) : M A := fun H => let! a := f H in Ok (Ret a, H).
Definition writes (f : heap -> outcome heap) : M unit := fun H => let! H := f H in Ok (Ret tt, H).
Definition throw {A} (e : exception) : M A := fun H => Ok (Throw e, H).
Definition undefined {A} : M A := fun _ => UB.

Declare Scope layout_scope.
Delimit Scope layout_scope with layout.
Notation "'let*' x := m 'in' k" := (bind m (fun x => k))
  (at level 10, x pattern, m at level 100, k at level 200) : layout_scope.
Notation "m ;; k" := (bind m (fun _ => k)) (at level 100, right associativity) : layout_scope.
#[global] Open Scope layout_scope.

Definition with_objects (H : heap) (m : gmap Z obj) : heap :=
  Heap m (small_typeof H) (jl_typename_type H) (jl_any_type H) (jl_nothing H) (jl_tuple_typename H)
    (jl_namedtuple_typename H) (jl_genericmemory_typename H) (jl_vecelement_typename H) (jl_bottom_type H)
    (jl_anytype_type H) (jl_intersect_type H) (jl_typeapp_type H) (jl_atomic_sym H) (jl_not_atomic_sym H).

Definition put_datatype (p : ptr) (d : jl_datatype_t) (H : heap) : outcome heap :=
  let! o := deref H p in
  match obody o with
  | BDatatype _ => Ok (with_objects H (<[p := Obj (before o) (header o) (BDatatype d)]> (objects H)))
  | _ => UB
  end.

(** [st->x = ...] *)
Definition update (st : ptr) (f : jl_datatype_t -> jl_datatype_t) : M unit := fun H =>
  let! d := get_datatype H st in let! H := put_datatype st (f d) H in Ok (Ret tt, H).

(** ** Running it *)

Lemma bind_inv {A B} (m : M A) (k : A -> M B) H r H' : bind m k H = Ok (r, H') ->
  (exists e, m H = Ok (Throw e, H') /\ r = Throw e) \/ exists a H1, m H = Ok (Ret a, H1) /\ k a H1 = Ok (r, H').
Proof. unfold bind. destruct (m H) as [[[a | e] H1] | |]; [right; by exists a, H1 | intros [= <- <-]; left; by exists e | done | done]. Qed.

Lemma bind_Ret_inv {A B} (m : M A) (k : A -> M B) H b H' : bind m k H = Ok (Ret b, H') -> exists a H1, m H = Ok (Ret a, H1) /\ k a H1 = Ok (Ret b, H').
Proof. by intros [(? & _ & ?) | ?]%bind_inv. Qed.

Lemma reads_inv {A} (f : heap -> outcome A) H r H' : reads f H = Ok (r, H') -> exists a, f H = Ok a /\ r = Ret a /\ H' = H.
Proof. intros (a & E & [= <- <-])%obind_Ok_inv. by exists a. Qed.

Lemma bind_reads {A B} (f : heap -> outcome A) (k : A -> M B) H r H' : bind (reads f) k H = Ok (r, H') -> exists a, f H = Ok a /\ k a H = Ok (r, H').
Proof. intros [(e & (? & _ & [= ] & _)%reads_inv & _) | (a & H1 & (a' & E & [= <-] & ->)%reads_inv & Hk)]%bind_inv. by exists a. Qed.

