(* ===== verification/LayoutCore.v ===== *)
(** * Field offsets (datatype.c)

    The arithmetic of [jl_compute_field_offsets] and [jl_get_layout]: where the
    fields of a struct go once it is known how each field is stored, and how
    the result is written into a descriptor of the narrowest width.  The types
    of the fields come in in [Layout]. *)

From stdpp Require Import base numbers option list.
From Stdlib Require Import ZArith Lia.
From S2P Require Import Prelude Identity Hashing Objects.

(** [size_t] arithmetic; [sz] is meant to be a power of two. *)
Definition LLT_ALIGN (x sz : Z) : Z := Z.land (u64 (u64 (x + sz) - 1)) (u64 (Z.lnot (sz - 1))).

Definition MAX_ALIGN : Z := 16.
Definition MAX_ATOMIC_SIZE : Z := 16.
Definition sizeof_jl_mutex_t : Z := 16.
Definition JL_SMALL_BYTE_ALIGNMENT : Z := 16.

(** ** Descriptors *)

(** The bit widths of the members of [jl_fielddesc8_t] and the others;
    pointer offsets have the width of field offsets. *)
Definition size_bits (ty : jl_fielddesc_type_t) : Z :=
  match ty with JL_FIELDDESC_8 => 7 | JL_FIELDDESC_16 => 15 | JL_FIELDDESC_32 | JL_FIELDDESC_FOREIGN => 31 end.
Definition offset_bits (ty : jl_fielddesc_type_t) : Z :=
  match ty with JL_FIELDDESC_8 => 8 | JL_FIELDDESC_16 => 16 | JL_FIELDDESC_32 | JL_FIELDDESC_FOREIGN => 32 end.

(** What is read back from an entry after it was stored. *)
Definition store_desc (ty : jl_fielddesc_type_t) (d : jl_fielddesc32_t) : jl_fielddesc32_t :=
  FieldDesc (fd_isptr d) (fd_size d mod 2 ^ size_bits ty) (fd_offset d mod 2 ^ offset_bits ty).
Definition store_ptr (ty : jl_fielddesc_type_t) (p : Z) : Z := p mod 2 ^ offset_bits ty.

(** Whether the bit fields of a [maxdesc] have kept the values. *)
Definition holds (ty : jl_fielddesc_type_t) (max_size max_offset : Z) : bool :=
  (max_size mod 2 ^ size_bits ty =? max_size) && (max_offset mod 2 ^ offset_bits ty =? max_offset).

Definition smallest_fielddesc (max_size max_offset : Z) : outcome jl_fielddesc_type_t :=
  if holds JL_FIELDDESC_8 max_size max_offset then Ok JL_FIELDDESC_8
  else if holds JL_FIELDDESC_16 max_size max_offset then Ok JL_FIELDDESC_16
  else if holds JL_FIELDDESC_32 max_size max_offset then Ok JL_FIELDDESC_32
  else UB.

Definition largest_size (desc : list jl_fielddesc32_t) : Z :=
  fold_left (fun m d => if m <? fd_size d then fd_size d else m) desc 0.

(** Layouts are values here, so it does not show that equal ones share memory
    through the layout cache. *)
Definition jl_get_layout (sz nfields npointers alignment : Z) (haspadding isbitsegal : bool) (arrayelem : Z)
    (desc : list jl_fielddesc32_t) (pointers : list Z) : outcome jl_datatype_layout_t :=
  if alignment =? 0 then UB
  else if (Z.of_nat (length desc) <? nfields) || (Z.of_nat (length pointers) <? npointers) then UB
  else
    let desc := take (Z.to_nat nfields) desc in
    let pointers := take (Z.to_nat npointers) pointers in
    let! max_offset := if 0 <? nfields then let! d := rd desc (nfields - 1) in Ok (fd_offset d) else Ok 0 in
    let max_size := if 0 <? nfields then largest_size desc else 0 in
    let! max_offset :=
      if 0 <? npointers then let! p := rd pointers (npointers - 1) in Ok (if max_offset <? p then p else max_offset)
      else Ok max_offset in
    let! ty := smallest_fielddesc max_size max_offset in
    let! first_ptr := if 0 <? npointers then let! p := rd pointers 0 in Ok (i32 p) else Ok (-1) in
    Ok (Layout sz nfields npointers first_ptr (u16 alignment) haspadding ty (Z.land arrayelem 15) isbitsegal
          (map (store_desc ty) desc) (if 0 <=? first_ptr then map (store_ptr ty) pointers else [])).

(** ** How a field is stored *)

Inductive slot :=
| SPointer (pointer_egal : bool)
  (** a reference, and whether its values are compared by address *)
| SUnion (fsz al : Z)
  (** an inline union: the largest size and alignment of its parts *)
| SInline (fsz al dsize : Z) (ly : jl_datatype_layout_t) (zeroinit : bool).
  (** an inline struct: the size it needs as a field and its alignment, then
      [jl_datatype_size], the layout and [zeroinit] of its type *)

Record field_info := FieldInfo {
  fi_slot : slot;
  fi_isatomic : bool;
  fi_maybe_undef : bool;  (** [i >= nfields - n_uninitialized] *)
  fi_first : bool         (** the type is that of the first field *)
}.

(** The variables of the loop over the fields. *)
Record placing := Placing {
  pl_sz : Z;
  pl_alignm : Z;
  pl_zeroinit : bool;
  pl_haspadding : bool;
  pl_isbitsegal : bool;
  pl_homogeneous : bool;
  pl_needlock : bool;
  pl_npointers : Z;
  pl_desc : list jl_fielddesc32_t
}.

Definition placing_start : placing := Placing 0 1 false false true true false 0 [].

Definition max_offset : Z := 2 ^ 32 - 1.
Definition max_size : Z := Z.shiftr max_offset 1.

(** The first half of the loop body: the size and alignment the field asks
    for, whether it is a reference, and the flags of the struct.  [inl] is the
    offset of an error. *)
Definition describe_field (i : field_info) (a : placing) : Z + (Z * Z * bool * placing) :=
  match fi_slot i with
  | SPointer pointer_egal =>
      let fsz := 8 in
      let al := if MAX_ALIGN <? fsz then MAX_ALIGN else fsz in
      inr (fsz, al, true,
        Placing (pl_sz a) (pl_alignm a) true (pl_haspadding a) (pl_isbitsegal a && pointer_egal)
          (pl_homogeneous a) (pl_needlock a) (u32 (pl_npointers a + 1)) (pl_desc a))
  | SUnion fsz al =>
      if max_size <? fsz then inl fsz
      else
        inr (u64 (fsz + 1), al, false,
          Placing (pl_sz a) (pl_alignm a) true (pl_haspadding a) false
            (pl_homogeneous a) (pl_needlock a) (pl_npointers a) (pl_desc a))
  | SInline fsz al dsize ly zeroinit =>
      if max_size <? fsz then inl fsz
      else
        let padded := dsize <? fsz in
        let undef_ptrs := fi_maybe_undef i && negb (npointers ly =? 0) && negb (u64 (npointers ly * 8) =? fsz) in
        inr (fsz, al, false,
          Placing (pl_sz a) (pl_alignm a) (if negb (pl_zeroinit a) then zeroinit else pl_zeroinit a)
            (pl_haspadding a || padded || haspadding ly)
            (pl_isbitsegal a && negb padded && isbitsegal ly && negb undef_ptrs)
            (pl_homogeneous a) (pl_needlock a) (u32 (pl_npointers a + npointers ly)) (pl_desc a))
  end.

(** The second half: the field is put at the next offset with its alignment. *)
Definition place_field (i : field_info) (a : placing) : Z + placing :=
  match describe_field i a with
  | inl offs => inl offs
  | inr (fsz, al, isptr, a) =>
      let needlock := if fi_isatomic i && (MAX_ATOMIC_SIZE <? fsz) then true else pl_needlock a in
      let small := fi_isatomic i && (fsz <=? MAX_ATOMIC_SIZE) in
      let al := if small then next_power_of_two fsz else al in
      let fsz := if small then next_power_of_two fsz else fsz in
      let '(sz, haspadding, alignm) :=
        if negb (al =? 0) then
          let alsz := LLT_ALIGN (pl_sz a) al in
          (alsz, if negb (alsz =? pl_sz a) then true else pl_haspadding a, if pl_alignm a <? al then al else pl_alignm a)
        else (pl_sz a, pl_haspadding a, pl_alignm a) in
      let homogeneous := pl_homogeneous a && fi_first i in
      let desc := pl_desc a ++ [FieldDesc isptr (fsz mod 2 ^ 31) (u32 sz)] in
      if u64 (max_offset - sz) <? fsz then inl sz
      else inr (Placing (u64 (sz + fsz)) alignm (pl_zeroinit a) haspadding (pl_isbitsegal a) homogeneous needlock (pl_npointers a) desc)
  end.

(** Room for the lock of large atomic fields, before the first field. *)
Definition place_lock (a : placing) : Z + placing :=
  if pl_needlock a then
    let offset := LLT_ALIGN sizeof_jl_mutex_t (pl_alignm a) in
    let desc := map (fun d => FieldDesc (fd_isptr d) (fd_size d) (u32 (fd_offset d + offset))) (pl_desc a) in
    if u64 (max_offset - pl_sz a) <? offset then inl (pl_sz a)
    else inr (Placing (u64 (pl_sz a + offset)) (pl_alignm a) (pl_zeroinit a) true (pl_isbitsegal a) (pl_homogeneous a)
                (pl_needlock a) (pl_npointers a) desc)
  else inr a.

(** The size and alignment of the struct; [vector] is the alignment of a tuple
    that becomes a vector, if it is one ([al % alignm == 0] is asserted). *)
Definition place_end (vector : option Z) (a : placing) : outcome placing :=
  let! alignm :=
    match vector with
    | Some al => if al mod pl_alignm a =? 0 then Ok (if pl_alignm a <? al then al else pl_alignm a) else UB
    | None => Ok (pl_alignm a)
    end in
  let rounded := LLT_ALIGN (pl_sz a) alignm in
  Ok (if pl_sz a <? rounded then
        Placing rounded alignm (pl_zeroinit a) true (pl_isbitsegal a) (pl_homogeneous a) (pl_needlock a) (pl_npointers a) (pl_desc a)
      else
        Placing (pl_sz a) alignm (pl_zeroinit a) (pl_haspadding a) (pl_isbitsegal a) (pl_homogeneous a) (pl_needlock a)
          (pl_npointers a) (pl_desc a)).

(** The references of one field, in words from the start of the struct; [ly]
    is the layout of the type of an inline struct. *)
Definition field_pointers (d : jl_fielddesc32_t) (ly : option jl_datatype_layout_t) : outcome (list Z) :=
  let offset := fd_offset d / 8 in
  if fd_isptr d then Ok [offset]
  else
    match ly with
    | Some ly =>
        if Z.of_nat (length (ptrs ly)) <? npointers ly then UB
        else Ok (map (fun p => u32 (offset + p)) (take (Z.to_nat (npointers ly)) (ptrs ly)))
    | None => Ok []
    end.

(** The layout from the placement and the collected references
    ([ptr_i == npointers] is asserted). *)
Definition placed_layout (a : placing) (pointers : list Z) : outcome jl_datatype_layout_t :=
  if Z.of_nat (length pointers) =? pl_npointers a then
    jl_get_layout (u32 (pl_sz a)) (u32 (Z.of_nat (length (pl_desc a)))) (pl_npointers a) (u32 (pl_alignm a))
      (pl_haspadding a) (pl_isbitsegal a) 0 (pl_desc a) pointers
  else UB.
