(* ===== verification/LayoutCoreFacts.v ===== *)
(** * Field offsets are right

    What [LayoutCore] computes, against the layout one would write down with
    unbounded integers: every field at the least aligned offset after the one
    before.  If that layout fits the widths of the descriptor, the code
    produces it, in the narrowest descriptor, without loss. *)

From stdpp Require Import base numbers option sorting list.
From Stdlib Require Import ZArith Lia.
From S2P Require Import Prelude Probe Identity Hashing Objects LayoutCore.

(** ** Alignment *)

Definition align_up (x a : Z) : Z := (x + a - 1) / a * a.

Lemma align_up_spec x a : 0 < a -> (a | align_up x a) /\ x <= align_up x a < x + a.
Proof.
  intros Ha. unfold align_up. split; [by apply Z.divide_mul_r |]. pose proof (Z.div_mod (x + a - 1) a ltac:(lia)).
  pose proof (Z.mod_pos_bound (x + a - 1) a Ha). lia.
Qed.

Lemma align_up_aligned x a : 0 < a -> (a | x) -> align_up x a = x.
Proof. intros Ha [k ->]. unfold align_up. replace (k * a + a - 1) with (k * a + (a - 1)) by lia. rewrite Z.div_add_l, (Z.div_small (a - 1)) by lia. lia. Qed.

Lemma LLT_ALIGN_align_up x a : pow2 a -> 0 <= x -> x + a < 2 ^ 64 -> LLT_ALIGN x a = align_up x a.
Proof.
  intros Hp Hx Hs. pose proof (pow2_pos _ Hp) as Ha. unfold LLT_ALIGN, align_up. rewrite (u64_small (x + a)), (u64_small (x + a - 1)) by lia.
  destruct Hp as (m & Hm & ->). assert (Hm64 : m < 64) by (apply (Z.pow_lt_mono_r_iff 2); lia).
  rewrite <- Z.shiftl_mul_pow2, <- Z.shiftr_div_pow2, <- Z.ldiff_ones_r by lia.
  apply Z.bits_inj'. intros i Hi. rewrite Z.ldiff_spec, Z.land_spec. unfold u64.
  replace (2 ^ m - 1) with (Z.ones m) by (rewrite Z.ones_equiv; lia). set (y := x + 2 ^ m - 1).
  destruct (Z_lt_le_dec i 64) as [Hi64 | Hi64].
  - by rewrite Z.mod_pow2_bits_low, Z.lnot_spec by lia.
  - rewrite Z.mod_pow2_bits_high by lia.
    assert (E : Z.testbit y i = false); [| by rewrite E].
    destruct (Z.eq_dec y 0) as [-> | Hy0]; [apply Z.bits_0 |]. apply Z.bits_above_log2; [lia |].
    apply Z.lt_le_trans with 64; [apply Z.log2_lt_pow2; lia | lia].
Qed.

Lemma pow2_1 : pow2 1.
Proof. by exists 0. Qed.

Lemma pow2_divide a b : pow2 a -> pow2 b -> a <= b -> (a | b).
Proof.
  intros (m & Hm & ->) (n & Hn & ->) Hle. apply Z.pow_le_mono_r_iff in Hle; [| lia | lia].
  exists (2 ^ (n - m)). rewrite <- Z.pow_add_r by lia. f_equal. lia.
Qed.

Lemma pow2_max a b : pow2 a -> pow2 b -> pow2 (Z.max a b).
Proof. intros. destruct (Z.max_spec a b) as [[_ ->] | [_ ->]]; done. Qed.

(** ** What a field asks for *)

Definition slot_isptr (i : field_info) : bool := match fi_slot i with SPointer _ => true | _ => false end.

(** The size and alignment before atomic fields are rounded up. *)
Definition slot_req (i : field_info) : Z * Z :=
  match fi_slot i with
  | SPointer _ => (8, 8)
  | SUnion fsz al => (fsz + 1, al)
  | SInline fsz al _ _ _ => (fsz, al)
  end.

Definition small_atomic (i : field_info) : bool := fi_isatomic i && ((slot_req i).1 <=? MAX_ATOMIC_SIZE).
Definition slot_lock (i : field_info) : bool := fi_isatomic i && (MAX_ATOMIC_SIZE <? (slot_req i).1).
Definition slot_size (i : field_info) : Z :=
  if small_atomic i then if (slot_req i).1 =? 0 then 0 else next_power_of_two (slot_req i).1 else (slot_req i).1.
Definition slot_align (i : field_info) : Z :=
  if small_atomic i then if (slot_req i).1 =? 0 then 1 else next_power_of_two (slot_req i).1 else (slot_req i).2.

(** The references in it, in words from its start. *)
Definition slot_ptrs (i : field_info) : list Z :=
  match fi_slot i with SPointer _ => [0] | SUnion _ _ => [] | SInline _ _ _ ly _ => ptrs ly end.

(** Padding inside it; whether it can be compared bit by bit; whether it must
    be cleared. *)
Definition slot_padding (i : field_info) : bool :=
  match fi_slot i with SInline fsz _ dsize ly _ => (dsize <? fsz) || haspadding ly | _ => false end.
Definition slot_bitsegal (i : field_info) : bool :=
  match fi_slot i with
  | SPointer e => e
  | SUnion _ _ => false
  | SInline fsz _ dsize ly _ =>
      negb (dsize <? fsz) && isbitsegal ly
      && negb (fi_maybe_undef i && negb (npointers ly =? 0) && negb (npointers ly * 8 =? fsz))
  end.
Definition slot_zeroinit (i : field_info) : bool :=
  match fi_slot i with SInline _ _ _ _ z => z | _ => true end.

(** Increasing word offsets inside [0, size). *)
Definition ptrs_in (size : Z) (ps : list Z) : Prop :=
  StronglySorted Z.lt ps /\ Forall (fun p => 0 <= p /\ 8 * p + 8 <= size) ps.

Definition wf_slot (s : slot) : Prop :=
  match s with
  | SPointer _ => True
  | SUnion fsz al => 0 <= fsz /\ pow2 al
  | SInline fsz al dsize ly _ =>
      0 <= dsize <= fsz /\ pow2 al /\ npointers ly = Z.of_nat (length (ptrs ly)) /\ ptrs_in dsize (ptrs ly) /\
      (ptrs ly <> [] -> (8 | al))
  end.

(** ** The layout with unbounded integers *)

Fixpoint offsets (fs : list field_info) (sz : Z) : list Z :=
  match fs with
  | [] => []
  | i :: fs => let o := align_up sz (slot_align i) in o :: offsets fs (o + slot_size i)
  end.
Fixpoint fields_end (fs : list field_info) (sz : Z) : Z :=
  match fs with
  | [] => sz
  | i :: fs => fields_end fs (align_up sz (slot_align i) + slot_size i)
  end.
Definition max_align (fs : list field_info) (al : Z) : Z := fold_left (fun m i => Z.max m (slot_align i)) fs al.
Definition lock_size (fs : list field_info) : Z := if existsb slot_lock fs then align_up sizeof_jl_mutex_t (max_align fs 1) else 0.
Definition total_align (vector : option Z) (fs : list field_info) : Z :=
  match vector with Some al => Z.max (max_align fs 1) al | None => max_align fs 1 end.
Definition total_size (vector : option Z) (fs : list field_info) : Z :=
  align_up (fields_end fs 0 + lock_size fs) (total_align vector fs).

(** It fits the widths of the descriptor. *)
Definition fits (vector : option Z) (fs : list field_info) : Prop :=
  Forall (fun i => slot_size i < 2 ^ 31) fs /\ total_size vector fs < 2 ^ 32 /\ total_align vector fs < 2 ^ 16 /\
  Z.of_nat (length fs) < 2 ^ 32.

(** The alignment of a vector is a power of two, at least that of an element;
    0 if the tuple is no vector (that case is [None] below too). *)
Definition wf_vector (vector : option Z) (fs : list field_info) : Prop :=
  match vector with Some al => al = 0 \/ pow2 al /\ max_align fs 1 <= al | None => True end.

(** ** One field *)

Lemma npo2_small x : 1 <= x <= MAX_ATOMIC_SIZE -> pow2 (next_power_of_two x) /\ x <= next_power_of_two x <= MAX_ATOMIC_SIZE.
Proof.
  unfold MAX_ATOMIC_SIZE. intros Hx. destruct (next_power_of_two_spec x ltac:(lia)) as [Hp Hr]. repeat split; [done | lia |].
  destruct Hp as (m & Hm & E). rewrite E in Hr |- *. assert (m < 5) by (apply (Z.pow_lt_mono_r_iff 2); lia).
  change 16 with (2 ^ 4). apply Z.pow_le_mono_r; lia.
Qed.

(** Beyond [2 ^ 31] the result wraps to 0. *)
Lemma next_power_of_two_large x : 2 ^ 31 < x < 2 ^ 32 -> next_power_of_two x = 0.
Proof.
  intros Hx. unfold next_power_of_two. rewrite (u32_small x), (u32_small (x - 1)) by lia.
  assert (H0 : top_ones 32 1 (x - 1)).
  { split; intros i Hi.
    - apply Z.bits_above_log2; [lia |]. apply Z.lt_le_trans with 32; [apply Z.log2_lt_pow2; lia | lia].
    - intros _. replace i with (Z.log2 (x - 1)); [apply Z.bit_log2; lia |]. replace i with 31 by lia. apply Z.log2_unique; lia. }
  repeat lazymatch goal with
  | H : top_ones 32 ?k ?y |- context [Z.lor ?y (Z.shiftr ?y ?k')] =>
      apply top_ones_double in H; [| lia]; change (2 * k) with (2 * k') in H;
      change k with k' in H; let m := eval cbv in (2 * k') in change (2 * k') with m in H
  end.
  apply top_ones_full in H0; [| lia]. by rewrite H0.
Qed.

Lemma next_power_of_two_cases x : next_power_of_two x = 0 \/ pow2 (next_power_of_two x).
Proof.
  assert (E : next_power_of_two x = next_power_of_two (u32 x)) by (unfold next_power_of_two; by rewrite (u32_small (u32 x)) by apply u32_range).
  rewrite E. pose proof (u32_range x) as Hr. destruct (Z.eq_dec (u32 x) 0) as [-> | Hne]; [by left |].
  destruct (Z_le_gt_dec (u32 x) (2 ^ 31)); [right; apply next_power_of_two_spec; lia | left; apply next_power_of_two_large; lia].
Qed.

Lemma slot_req_nonneg i : wf_slot (fi_slot i) -> 0 <= (slot_req i).1 /\ pow2 (slot_req i).2.
Proof. unfold slot_req. destruct (fi_slot i); cbn; [split; [lia | by exists 3] | intros []; split; [lia | done] | intros (? & ? & _); split; [lia | done]]. Qed.

Lemma slot_align_pow2 i : wf_slot (fi_slot i) -> pow2 (slot_align i).
Proof.
  intros [H0 Hp]%slot_req_nonneg. unfold slot_align, small_atomic. destruct (fi_isatomic i); cbn [andb]; [| done].
  zcase; [| done]. zcase; [apply pow2_1 |]. apply npo2_small. lia.
Qed.

Lemma slot_size_spec i : wf_slot (fi_slot i) -> (slot_req i).1 <= slot_size i /\ 0 <= slot_size i.
Proof.
  intros [H0 Hp]%slot_req_nonneg. unfold slot_size, small_atomic. destruct (fi_isatomic i); cbn [andb]; [| lia].
  zcase; [| lia]. zcase; [lia |]. pose proof (npo2_small (slot_req i).1). lia.
Qed.

(** The first half of the loop body, on a field of reasonable size. *)
Lemma describe_field_spec i a : wf_slot (fi_slot i) -> (slot_req i).1 < 2 ^ 31 ->
  0 <= pl_npointers a -> pl_npointers a + Z.of_nat (length (slot_ptrs i)) < 2 ^ 32 ->
  describe_field i a = inr ((slot_req i).1, (slot_req i).2, slot_isptr i,
    Placing (pl_sz a) (pl_alignm a) (pl_zeroinit a || slot_zeroinit i) (pl_haspadding a || slot_padding i)
      (pl_isbitsegal a && slot_bitsegal i) (pl_homogeneous a) (pl_needlock a)
      (pl_npointers a + Z.of_nat (length (slot_ptrs i))) (pl_desc a)).
Proof.
  intros Hw Hs Hn0 Hn. unfold describe_field, slot_req, slot_isptr, slot_zeroinit, slot_padding, slot_bitsegal, slot_ptrs in *.
  destruct (fi_slot i) as [pe | fsz al | fsz al dsize ly zi]; cbn in Hw, Hs, Hn |- *.
  - rewrite u32_small by lia. by rewrite orb_true_r, orb_false_r.
  - destruct Hw as [H0 _]. assert (Hm : max_size = 2 ^ 31 - 1) by reflexivity. rewrite Hm. destruct (Z.ltb_spec (2 ^ 31 - 1) fsz); [lia |].
    rewrite u64_small, Z.add_0_r, andb_false_r, orb_true_r, orb_false_r by lia. done.
  - destruct Hw as (Hd & _ & En & _). assert (Hm : max_size = 2 ^ 31 - 1) by reflexivity. rewrite Hm.
    destruct (Z.ltb_spec (2 ^ 31 - 1) fsz); [lia |]. rewrite En in *. rewrite (u64_small (_ * 8)), u32_small by lia.
    rewrite !orb_assoc, !andb_assoc. by destruct (pl_zeroinit a).
Qed.

Lemma place_field_spec i a (o := align_up (pl_sz a) (slot_align i)) : wf_slot (fi_slot i) -> slot_size i < 2 ^ 31 -> slot_align i < 2 ^ 32 ->
  0 <= pl_sz a -> 1 <= pl_alignm a -> o + slot_size i < 2 ^ 32 ->
  0 <= pl_npointers a -> pl_npointers a + Z.of_nat (length (slot_ptrs i)) < 2 ^ 32 ->
  place_field i a = inr (Placing (o + slot_size i) (Z.max (pl_alignm a) (slot_align i)) (pl_zeroinit a || slot_zeroinit i)
    (pl_haspadding a || slot_padding i || negb (o =? pl_sz a)) (pl_isbitsegal a && slot_bitsegal i)
    (pl_homogeneous a && fi_first i) (pl_needlock a || slot_lock i) (pl_npointers a + Z.of_nat (length (slot_ptrs i)))
    (pl_desc a ++ [FieldDesc (slot_isptr i) (slot_size i) o])).
Proof.
  intros Hw Hss Hal Hsz Hma Ho Hn0 Hn. destruct (slot_size_spec i Hw) as [Hrs Hss0]. pose proof (slot_align_pow2 i Hw) as Hap.
  pose proof (pow2_pos _ Hap) as Hapos. destruct (slot_req_nonneg i Hw) as [Hr0 Hrp].
  pose proof (align_up_spec (pl_sz a) (slot_align i) Hapos) as [_ Hao].
  unfold place_field. rewrite describe_field_spec by (done || lia). cbn [pl_sz pl_alignm pl_zeroinit pl_haspadding pl_isbitsegal pl_homogeneous pl_needlock pl_npointers pl_desc].
  fold (small_atomic i). fold (slot_lock i).
  assert (E1 : (if small_atomic i then next_power_of_two (slot_req i).1 else (slot_req i).1) = slot_size i).
  { unfold slot_size. destruct (small_atomic i); [| done]. by destruct (Z.eqb_spec (slot_req i).1 0) as [-> |]. }
  rewrite E1. fold o in Hao, Ho |- *.
  assert (E2 : (let al := if small_atomic i then next_power_of_two (slot_req i).1 else (slot_req i).2 in
      if negb (al =? 0) then (LLT_ALIGN (pl_sz a) al, if negb (LLT_ALIGN (pl_sz a) al =? pl_sz a) then true else pl_haspadding a || slot_padding i,
        if pl_alignm a <? al then al else pl_alignm a) else (pl_sz a, pl_haspadding a || slot_padding i, pl_alignm a)) =
    (o, pl_haspadding a || slot_padding i || negb (o =? pl_sz a), Z.max (pl_alignm a) (slot_align i))).
  { assert (Ec : forall al, al = slot_align i -> negb (al =? 0) = true /\ LLT_ALIGN (pl_sz a) al = o).
    { intros al ->. split; [by apply negb_true_iff, Z.eqb_neq; lia |]. apply LLT_ALIGN_align_up; [done | lia | lia]. }
    assert (Ef : forall al, al = slot_align i ->
      (if negb (al =? 0) then (LLT_ALIGN (pl_sz a) al, if negb (LLT_ALIGN (pl_sz a) al =? pl_sz a) then true else pl_haspadding a || slot_padding i,
        if pl_alignm a <? al then al else pl_alignm a) else (pl_sz a, pl_haspadding a || slot_padding i, pl_alignm a)) =
      (o, pl_haspadding a || slot_padding i || negb (o =? pl_sz a), Z.max (pl_alignm a) (slot_align i))).
    { intros al E. destruct (Ec al E) as [-> ->]. rewrite E. f_equal; [f_equal |].
      - destruct (o =? pl_sz a); cbn; [by rewrite orb_false_r | by rewrite orb_true_r].
      - destruct (Z.ltb_spec (pl_alignm a) (slot_align i)); lia. }
    cbv zeta. unfold slot_align, small_atomic in Ef |- *. destruct (fi_isatomic i && ((slot_req i).1 <=? MAX_ATOMIC_SIZE)) eqn:Esm; [| by apply Ef].
    destruct (Z.eqb_spec (slot_req i).1 0) as [E0 | E0]; [| by apply Ef]. rewrite E0.
    change (next_power_of_two 0) with 0. cbn [negb Z.eqb]. assert (Eo : o = pl_sz a); [| rewrite Eo, Z.eqb_refl, orb_false_r; f_equal; lia].
    unfold o, slot_align, small_atomic. rewrite Esm, E0. cbn. unfold align_up. rewrite Z.div_1_r. lia. }
  cbv zeta in E2 |- *. rewrite E2. cbv iota beta.
  assert (Emo : max_offset = 2 ^ 32 - 1) by reflexivity. rewrite Emo, (u64_small (_ - o)) by lia.
  destruct (Z.ltb_spec (2 ^ 32 - 1 - o) (slot_size i)); [lia |]. rewrite (Z.mod_small (slot_size i)), (u32_small o), (u64_small (o + _)) by lia.
  f_equal. f_equal. by destruct (slot_lock i), (pl_needlock a).
Qed.

(** ** All fields *)

Fixpoint place_all (fs : list field_info) (a : placing) : Z + placing :=
  match fs with
  | [] => inr a
  | i :: fs => match place_field i a with inl o => inl o | inr a => place_all fs a end
  end.

Fixpoint has_gap (fs : list field_info) (sz : Z) : bool :=
  match fs with
  | [] => false
  | i :: fs => let o := align_up sz (slot_align i) in negb (o =? sz) || has_gap fs (o + slot_size i)
  end.

Definition descs (fs : list field_info) (sz : Z) : list jl_fielddesc32_t :=
  zip_with (fun i o => FieldDesc (slot_isptr i) (slot_size i) o) fs (offsets fs sz).

Abbreviation wf_fields fs := (Forall (fun i => wf_slot (fi_slot i)) fs).

Lemma max_align_ge fs : forall al, al <= max_align fs al.
Proof. induction fs as [| i fs IH]; intros al; cbn; [lia |]. specialize (IH (Z.max al (slot_align i))). unfold max_align in IH. lia. Qed.

Lemma max_align_in fs i al : i ∈ fs -> slot_align i <= max_align fs al.
Proof.
  intros Hi. revert al. induction Hi as [i fs | i j fs Hi IH]; intros al; cbn; [| apply IH].
  pose proof (max_align_ge fs (Z.max al (slot_align i))). unfold max_align in *. lia.
Qed.

Lemma max_align_pow2 fs : forall al, wf_fields fs -> pow2 al -> pow2 (max_align fs al).
Proof.
  induction fs as [| i fs IH]; intros al Hw Hp; [done |]. apply Forall_cons in Hw as [Hi Hw]. cbn. apply IH; [done |].
  apply pow2_max; [done | by apply slot_align_pow2].
Qed.

Lemma fields_end_ge fs : forall sz, wf_fields fs -> sz <= fields_end fs sz.
Proof.
  induction fs as [| i fs IH]; intros sz Hw; cbn; [lia |]. apply Forall_cons in Hw as [Hi Hw].
  pose proof (align_up_spec sz (slot_align i) (pow2_pos _ (slot_align_pow2 i Hi))). destruct (slot_size_spec i Hi).
  specialize (IH (align_up sz (slot_align i) + slot_size i) Hw). lia.
Qed.

Lemma offsets_length fs : forall sz, length (offsets fs sz) = length fs.
Proof. induction fs as [| i fs IH]; intros sz; cbn; [done | by rewrite IH]. Qed.

Lemma descs_length fs sz : length (descs fs sz) = length fs.
Proof. unfold descs. rewrite length_zip_with, offsets_length. lia. Qed.

Lemma ptrs_in_length sz ps : ptrs_in sz ps -> 0 <= sz -> 8 * Z.of_nat (length ps) <= sz.
Proof.
  intros [Hs Hf] Hsz. enough (Hk : forall lo, Forall (fun p => lo <= p) ps -> ps = [] \/ 8 * (lo + Z.of_nat (length ps)) <= sz).
  { destruct (Hk 0) as [-> | ?]; [eapply Forall_impl; [done |]; cbn; lia | cbn; lia | lia]. }
  induction Hs as [| p ps Hs IH Hlt]; intros lo Hlo; [by left |]. right. apply Forall_cons in Hf as [Hp Hf], Hlo as [Hlp _].
  destruct (IH Hf (p + 1)) as [-> | Hr]; [eapply Forall_impl; [exact Hlt |]; cbn; lia | cbn; lia | cbn [length]; lia].
Qed.

Lemma slot_ptrs_in i : wf_slot (fi_slot i) -> ptrs_in (slot_size i) (slot_ptrs i) /\ (slot_ptrs i <> [] -> (8 | slot_align i)).
Proof.
  intros Hw. destruct (slot_size_spec i Hw) as [Hs _]. revert Hs. unfold slot_align, slot_ptrs.
  assert (Hr : slot_req i = slot_req i) by done. revert Hr. unfold slot_req at 2. unfold wf_slot in Hw.
  destruct (fi_slot i) as [pe | fsz al | fsz al dsize ly zi] eqn:Es; intros Er; rewrite ?Er; cbn [fst snd]; intros Hs.
  - split; [split; [by repeat constructor | constructor; [lia | constructor]] |]. intros _.
    destruct (small_atomic i); [by exists 1 | by exists 1].
  - split; [split; constructor | done].
  - destruct Hw as (Hd & Hp & _ & [Hst Hf] & H8). split; [split; [done |]; eapply Forall_impl; [exact Hf |]; cbn; lia |].
    intros Hne. destruct (small_atomic i) eqn:Esm; [| by apply H8]. unfold small_atomic in Esm. rewrite Er in Esm. cbn in Esm.
    apply andb_prop in Esm as [_ Hle%Z.leb_le]. assert (8 <= fsz).
    { destruct (ptrs ly) as [| p ps]; [done |]. apply Forall_cons in Hf as [Hf _]. lia. }
    destruct (Z.eqb_spec fsz 0); [lia |]. destruct (npo2_small fsz) as [Hp2 Hb]; [lia |]. apply pow2_divide; [by exists 3 | done | lia].
Qed.

Lemma ptrs_count fs : forall sz, wf_fields fs -> 8 * Z.of_nat (length (concat (map slot_ptrs fs))) + sz <= fields_end fs sz.
Proof.
  induction fs as [| i fs IH]; intros sz Hw; cbn; [lia |]. apply Forall_cons in Hw as [Hi Hw].
  pose proof (align_up_spec sz (slot_align i) (pow2_pos _ (slot_align_pow2 i Hi))). destruct (slot_size_spec i Hi).
  specialize (IH (align_up sz (slot_align i) + slot_size i) Hw). rewrite length_app.
  pose proof (ptrs_in_length _ _ (proj1 (slot_ptrs_in i Hi))). lia.
Qed.

Lemma place_all_spec fs : forall a, wf_fields fs -> Forall (fun i => slot_size i < 2 ^ 31) fs ->
  0 <= pl_sz a -> 1 <= pl_alignm a -> fields_end fs (pl_sz a) < 2 ^ 32 -> max_align fs (pl_alignm a) < 2 ^ 32 ->
  0 <= pl_npointers a -> pl_npointers a + Z.of_nat (length (concat (map slot_ptrs fs))) < 2 ^ 32 ->
  place_all fs a = inr (Placing (fields_end fs (pl_sz a)) (max_align fs (pl_alignm a)) (pl_zeroinit a || existsb slot_zeroinit fs)
    (pl_haspadding a || existsb slot_padding fs || has_gap fs (pl_sz a)) (pl_isbitsegal a && forallb slot_bitsegal fs)
    (pl_homogeneous a && forallb fi_first fs) (pl_needlock a || existsb slot_lock fs)
    (pl_npointers a + Z.of_nat (length (concat (map slot_ptrs fs)))) (pl_desc a ++ descs fs (pl_sz a))).
Proof.
  induction fs as [| i fs IH]; intros a Hw Hss Hsz Hal He Hma Hn0 Hn.
  { cbn. rewrite !orb_false_r, !andb_true_r, Z.add_0_r, app_nil_r. by destruct a. }
  apply Forall_cons in Hw as [Hi Hw], Hss as [Hsi Hss]. cbn [place_all fields_end] in *.
  pose proof (align_up_spec (pl_sz a) (slot_align i) (pow2_pos _ (slot_align_pow2 i Hi))) as [_ Hau]. destruct (slot_size_spec i Hi) as [_ Hs0].
  pose proof (fields_end_ge fs (align_up (pl_sz a) (slot_align i) + slot_size i) Hw) as Hge.
  pose proof (max_align_in (i :: fs) i (pl_alignm a) ltac:(left)) as Hmi.
  cbn [map concat] in Hn |- *. rewrite length_app, Nat2Z.inj_add in Hn |- *.
  rewrite place_field_spec by (done || lia).
  rewrite IH; cbn [pl_sz pl_alignm pl_zeroinit pl_haspadding pl_isbitsegal pl_homogeneous pl_needlock pl_npointers pl_desc]; [| done | done | lia | lia | done | done | lia | lia].
  f_equal. unfold descs. cbn [existsb forallb has_gap offsets zip_with max_align fold_left].
  rewrite <- app_assoc, !orb_assoc, !andb_assoc, Z.add_assoc. f_equal.
  by destruct (pl_haspadding a), (slot_padding i), (existsb slot_padding fs), (negb (align_up (pl_sz a) (slot_align i) =? pl_sz a)).
Qed.

(** ** The whole layout *)

Definition slot_layout (i : field_info) : option jl_datatype_layout_t :=
  match fi_slot i with SInline _ _ _ ly _ => Some ly | _ => None end.

Fixpoint pointers_of (fs : list field_info) (desc : list jl_fielddesc32_t) : outcome (list Z) :=
  match fs, desc with
  | i :: fs, d :: desc => let! ps := field_pointers d (slot_layout i) in let! qs := pointers_of fs desc in Ok (ps ++ qs)
  | _, _ => Ok []
  end.

(** The steps of [struct_layout] when it is known how the fields are stored. *)
Definition layout_of_fields (vector : option Z) (fs : list field_info) : outcome (Z + jl_datatype_layout_t * bool) :=
  match place_all fs placing_start with
  | inl o => Ok (inl o)
  | inr a =>
      match place_lock a with
      | inl o => Ok (inl o)
      | inr a =>
          let! a := place_end vector a in
          let! pointers := pointers_of fs (pl_desc a) in
          let! ly := placed_layout a pointers in
          Ok (inr (ly, pl_zeroinit a))
      end
  end.

(** The fields and references with unbounded integers. *)
Definition ideal_fields (fs : list field_info) (base sz : Z) : list jl_fielddesc32_t :=
  zip_with (fun i o => FieldDesc (slot_isptr i) (slot_size i) (o + base)) fs (offsets fs sz).
Definition ideal_ptrs (fs : list field_info) (base sz : Z) : list Z :=
  concat (zip_with (fun i o => map (fun p => (o + base) / 8 + p) (slot_ptrs i)) fs (offsets fs sz)).

(** What holds of the fields placed from [sz] on. *)
Lemma offsets_spec fs : forall sz k i o, wf_fields fs -> fs !! k = Some i -> offsets fs sz !! k = Some o ->
  (slot_align i | o) /\ sz <= o /\ o + slot_size i <= fields_end fs sz.
Proof.
  induction fs as [| j fs IH]; intros sz k i o Hw Hk Ho; [done |]. apply Forall_cons in Hw as [Hj Hw].
  pose proof (align_up_spec sz (slot_align j) (pow2_pos _ (slot_align_pow2 j Hj))) as [Hd Hau]. destruct (slot_size_spec j Hj) as [_ Hs0].
  cbn [offsets fields_end] in *. pose proof (fields_end_ge fs (align_up sz (slot_align j) + slot_size j) Hw).
  destruct k as [| k]; cbn in Hk, Ho.
  - injection Hk as <-. injection Ho as <-. repeat split; [done | lia | lia].
  - destruct (IH _ k i o Hw Hk Ho) as (? & ? & ?). repeat split; [done | lia | lia].
Qed.

Lemma offsets_order fs : forall sz j k i oj ok, wf_fields fs -> (j < k)%nat -> fs !! j = Some i ->
  offsets fs sz !! j = Some oj -> offsets fs sz !! k = Some ok -> oj + slot_size i <= ok.
Proof.
  induction fs as [| i0 fs IH]; intros sz j k i oj ok Hw Hjk Hj Hoj Hok; [done |]. apply Forall_cons in Hw as [Hi Hw]. cbn in Hoj, Hok.
  destruct k as [| k]; [lia |]. cbn in Hok. destruct j as [| j]; cbn in Hj, Hoj.
  - injection Hj as <-. injection Hoj as <-.
    assert (is_Some (fs !! k)) as [i' Hi']. { apply lookup_lt_is_Some. apply lookup_lt_Some in Hok. by rewrite offsets_length in Hok. }
    by destruct (offsets_spec fs _ k i' ok Hw Hi' Hok) as (_ & ? & _).
  - eapply IH; [done | | done | done | done]. lia.
Qed.

Lemma slot_aligned8 i base o : wf_slot (fi_slot i) -> slot_ptrs i <> [] -> (slot_align i | base) -> (slot_align i | o) ->
  exists q, o + base = 8 * q.
Proof.
  intros Hi Hne Hb Ho. destruct (slot_ptrs_in i Hi) as [_ H8]. destruct (Z.divide_trans 8 _ (o + base) (H8 Hne)) as [q Hq]; [by apply Z.divide_add_r |].
  exists q. lia.
Qed.

(** The references are in order, inside the fields placed from [sz] on. *)
Lemma ideal_ptrs_sorted fs base : forall sz, wf_fields fs -> 0 <= sz + base -> Forall (fun i => (slot_align i | base)) fs ->
  StronglySorted Z.lt (ideal_ptrs fs base sz) /\ Forall (fun p => sz + base <= 8 * p /\ 8 * p + 8 <= fields_end fs sz + base) (ideal_ptrs fs base sz).
Proof.
  induction fs as [| i fs IH]; intros sz Hw Hsz Hb; [split; constructor |]. apply Forall_cons in Hw as [Hi Hw], Hb as [Hbi Hb].
  pose proof (align_up_spec sz (slot_align i) (pow2_pos _ (slot_align_pow2 i Hi))) as [Hd Hau]. destruct (slot_size_spec i Hi) as [_ Hs0].
  set (o := align_up sz (slot_align i)) in *. unfold ideal_ptrs. cbn [offsets zip_with concat fields_end]. fold o.
  destruct (IH (o + slot_size i) Hw ltac:(lia) Hb) as [Hst Hf]. fold (ideal_ptrs fs base (o + slot_size i)).
  pose proof (fields_end_ge fs (o + slot_size i) Hw).
  destruct (decide (slot_ptrs i = [])) as [-> | Hne].
  { cbn. split; [done |]. eapply Forall_impl; [exact Hf |]. cbn. lia. }
  destruct (slot_ptrs_in i Hi) as [[Hs Hp] _]. destruct (slot_aligned8 i base o Hi Hne Hbi Hd) as [q Hq].
  rewrite Hq, Z.mul_comm, Z.div_mul by lia.
  assert (Hm : Forall (fun p => sz + base <= 8 * p /\ 8 * p + 8 <= o + slot_size i + base) (map (fun p => q + p) (slot_ptrs i))).
  { apply Forall_map. eapply Forall_impl; [exact Hp |]. cbn. lia. }
  split.
  - apply StronglySorted_app. split; [| split; [| done]].
    + intros x y Hx Hy. rewrite Forall_forall in Hm, Hf. specialize (Hm x Hx). specialize (Hf y Hy). lia.
    + clear -Hs. induction Hs as [| p ps Hs IHs Hlt]; cbn; constructor; [done |]. apply Forall_map. eapply Forall_impl; [exact Hlt |]. cbn. lia.
  - apply Forall_app. split; eapply Forall_impl; [exact Hm | cbn; lia | exact Hf | cbn; lia].
Qed.

Lemma ideal_ptrs_length fs base : forall sz, length (ideal_ptrs fs base sz) = length (concat (map slot_ptrs fs)).
Proof.
  induction fs as [| i fs IH]; intros sz; [done |]. unfold ideal_ptrs. cbn [offsets zip_with concat map]. rewrite !length_app, length_map. f_equal. apply IH.
Qed.

Lemma pointers_of_spec fs base : forall sz, wf_fields fs -> 0 <= sz -> 0 <= base -> Forall (fun i => (slot_align i | base)) fs ->
  fields_end fs sz + base < 2 ^ 32 -> pointers_of fs (ideal_fields fs base sz) = Ok (ideal_ptrs fs base sz).
Proof.
  induction fs as [| i fs IH]; intros sz Hw Hsz Hb0 Hb He; [done |].
  destruct (ideal_ptrs_sorted (i :: fs) base sz Hw ltac:(lia) Hb) as [_ Hrange].
  apply Forall_cons in Hw as [Hi Hw], Hb as [Hbi Hb].
  pose proof (align_up_spec sz (slot_align i) (pow2_pos _ (slot_align_pow2 i Hi))) as [Hd Hau]. destruct (slot_size_spec i Hi) as [_ Hs0].
  unfold ideal_ptrs, ideal_fields in *. cbn [offsets zip_with concat fields_end pointers_of] in *. set (o := align_up sz (slot_align i)) in *.
  apply Forall_app in Hrange as [Hr _]. rewrite IH by (done || lia).
  enough (E : field_pointers (FieldDesc (slot_isptr i) (slot_size i) (o + base)) (slot_layout i) = Ok (map (fun p => (o + base) / 8 + p) (slot_ptrs i))) by (by rewrite E).
  revert Hr Hi. unfold field_pointers, slot_isptr, slot_layout, slot_ptrs. cbn [fd_isptr fd_offset].
  destruct (fi_slot i); cbn [map]; intros Hr Hi; [by rewrite Z.add_0_r | done |]. destruct Hi as (_ & _ & En & _).
  rewrite En, Z.ltb_irrefl, Nat2Z.id, take_ge by lia. f_equal. apply map_ext_in. intros p Hp. apply u32_small.
  apply Forall_map in Hr. rewrite Forall_forall in Hr. specialize (Hr p). rewrite list_elem_of_In in Hr. specialize (Hr Hp). cbn in Hr. lia.
Qed.

(** ** Descriptors lose nothing *)

Lemma size_bits_range ty : 7 <= size_bits ty <= 31.
Proof. destruct ty; cbn; lia. Qed.
Lemma offset_bits_range ty : 8 <= offset_bits ty <= 32.
Proof. destruct ty; cbn; lia. Qed.

Lemma mod_kept x m b : 0 <= x <= m -> m mod 2 ^ b = m -> 0 <= b -> x mod 2 ^ b = x.
Proof. intros Hx Hm Hb. apply Z.mod_small. pose proof (Z.mod_pos_bound m (2 ^ b) ltac:(apply Z.pow_pos_nonneg; lia)). lia. Qed.

Lemma smallest_fielddesc_spec ms mo : 0 <= ms < 2 ^ 31 -> 0 <= mo < 2 ^ 32 ->
  exists ty, smallest_fielddesc ms mo = Ok ty /\ holds ty ms mo = true /\ ty <> JL_FIELDDESC_FOREIGN.
Proof.
  intros Hs Ho. unfold smallest_fielddesc. destruct (holds JL_FIELDDESC_8 ms mo) eqn:?; [by eexists |].
  destruct (holds JL_FIELDDESC_16 ms mo) eqn:?; [by eexists |].
  assert (E : holds JL_FIELDDESC_32 ms mo = true). { unfold holds. cbn. rewrite !Z.mod_small, !Z.eqb_refl by lia. done. }
  rewrite E. by eexists.
Qed.

Lemma largest_size_ge desc : forall m, m <= fold_left (fun m d => if m <? fd_size d then fd_size d else m) desc m /\
  Forall (fun d => fd_size d <= fold_left (fun m d => if m <? fd_size d then fd_size d else m) desc m) desc.
Proof.
  induction desc as [| d desc IH]; intros m; cbn; [by split; [lia | constructor] |].
  destruct (IH (if m <? fd_size d then fd_size d else m)) as [H1 H2]. split; [revert H1; zcase; lia |]. constructor; [revert H1; zcase; lia | done].
Qed.

Lemma largest_size_bound desc b : forall m, m < b -> Forall (fun d => fd_size d < b) desc ->
  fold_left (fun m d => if m <? fd_size d then fd_size d else m) desc m < b.
Proof.
  induction desc as [| d desc IH]; intros m Hm Hf; cbn; [done |]. apply Forall_cons in Hf as [Hd Hf]. apply IH; [zcase; lia | done].
Qed.

Lemma rd_last {A} (l : list A) : l <> [] -> exists x, rd l (Z.of_nat (length l) - 1) = Ok x /\ last l = Some x.
Proof.
  intros Hl. destruct (rd_in_range l (Z.of_nat (length l) - 1)) as (x & Hx & Hk); [destruct l; [done | cbn; lia] |].
  exists x. split; [done |]. rewrite last_lookup. replace (pred (length l)) with (Z.to_nat (Z.of_nat (length l) - 1)) by lia. done.
Qed.

(** The last element bounds all of them. *)
Definition last_max {A} (f : A -> Z) (l : list A) : Prop := forall x, last l = Some x -> Forall (fun y => f y <= f x) l.

Lemma sorted_last_max ps : StronglySorted Z.lt ps -> last_max id ps.
Proof.
  intros Hs x Hx. destruct (last_Some ps x) as [Hl _]. destruct (Hl Hx) as [ps' ->]. apply StronglySorted_app in Hs as (H1 & _ & _).
  apply Forall_app. split; [| constructor; [done | constructor]].
  apply Forall_forall. intros y Hy. specialize (H1 y x Hy ltac:(left)). unfold id. lia.
Qed.

Lemma jl_get_layout_spec sz al hp be ae desc ps : 0 < al < 2 ^ 16 ->
  Forall (fun d => 0 <= fd_size d < 2 ^ 31 /\ 0 <= fd_offset d < 2 ^ 32) desc -> last_max fd_offset desc ->
  Forall (fun p => 0 <= p < 2 ^ 31) ps -> last_max id ps ->
  exists ty, jl_get_layout sz (Z.of_nat (length desc)) (Z.of_nat (length ps)) al hp be ae desc ps =
    Ok (Layout sz (Z.of_nat (length desc)) (Z.of_nat (length ps)) (default (-1) (head ps)) al hp ty (Z.land ae 15) be desc ps) /\
    ty <> JL_FIELDDESC_FOREIGN.
Proof.
  intros Hal Hd Hdm Hp Hpm. unfold jl_get_layout. destruct (Z.eqb_spec al 0); [lia |]. rewrite !Z.ltb_irrefl. cbn [orb].
  rewrite !Nat2Z.id, !take_ge by lia.
  assert (Hmo : exists mo, (if 0 <? Z.of_nat (length desc) then let! d := rd desc (Z.of_nat (length desc) - 1) in Ok (fd_offset d) else Ok 0) = Ok mo /\
    0 <= mo < 2 ^ 32 /\ Forall (fun d => fd_offset d <= mo) desc).
  { destruct desc as [| d0 desc']; [by exists 0 |]. destruct (rd_last (d0 :: desc') ltac:(done)) as (x & -> & Hx).
    exists (fd_offset x). specialize (Hdm x Hx). apply last_Some_elem_of in Hx. rewrite Forall_forall in Hd. by destruct (Hd x Hx). }
  destruct Hmo as (mo & -> & Hmo & Hdmo). cbn [obind].
  assert (Hmp : exists m, (if 0 <? Z.of_nat (length ps) then let! p := rd ps (Z.of_nat (length ps) - 1) in Ok (if mo <? p then p else mo) else Ok mo) = Ok m /\
    mo <= m < 2 ^ 32 /\ Forall (fun p => p <= m) ps).
  { destruct ps as [| p0 ps']; [by exists mo; repeat split; [lia | lia | constructor] |]. destruct (rd_last (p0 :: ps') ltac:(done)) as (x & -> & Hx).
    assert (Hxb : 0 <= x < 2 ^ 31). { apply last_Some_elem_of in Hx. rewrite Forall_forall in Hp. by apply Hp. }
    eexists. split; [done |]. specialize (Hpm x Hx). cbn [Z.ltb]. split; [zcase; lia |]. eapply Forall_impl; [exact Hpm |]. unfold id. intros y Hy. zcase; lia. }
  destruct Hmp as (m & -> & Hm & Hpsm). cbn [obind].
  assert (Hls : exists ms, (if 0 <? Z.of_nat (length desc) then largest_size desc else 0) = ms /\ 0 <= ms < 2 ^ 31 /\ Forall (fun d => fd_size d <= ms) desc).
  { destruct desc as [| d0 desc']; [by exists 0 |]. cbn [length]. destruct (Z.ltb_spec 0 (Z.of_nat (S (length desc')))); [| lia].
    eexists. split; [done |]. unfold largest_size. destruct (largest_size_ge (d0 :: desc') 0) as [H0 H1]. split; [split; [done |] | done].
    apply largest_size_bound; [lia |]. eapply Forall_impl; [exact Hd |]. cbn. lia. }
  destruct Hls as (ms & -> & Hms & Hdms). destruct (smallest_fielddesc_spec ms m) as (ty & -> & Hty & Hnf); [lia | lia |]. cbn [obind].
  apply andb_prop in Hty as [Hts%Z.eqb_eq Hto%Z.eqb_eq]. pose proof (size_bits_range ty). pose proof (offset_bits_range ty).
  assert (Efp : (if 0 <? Z.of_nat (length ps) then let! p := rd ps 0 in Ok (i32 p) else Ok (-1)) = Ok (default (-1) (head ps))).
  { destruct ps as [| p0 ps']; [done |]. apply Forall_cons in Hp as [Hp _].
    transitivity (Ok (i32 p0)); [done |]. by rewrite i32_small by lia. }
  rewrite Efp. cbn [obind]. exists ty. split; [| done]. rewrite (u16_small al) by lia. f_equal.
  assert (Ed : map (store_desc ty) desc = desc).
  { rewrite <- (map_id desc) at 2. apply map_ext_in. intros d Hin%list_elem_of_In. rewrite Forall_forall in Hd, Hdmo, Hdms.
    specialize (Hd d Hin). specialize (Hdmo d Hin). specialize (Hdms d Hin). cbn in *. unfold store_desc. rewrite (mod_kept _ ms), (mod_kept _ m) by (done || lia). by destruct d. }
  assert (Ep : map (store_ptr ty) ps = ps).
  { rewrite <- (map_id ps) at 2. apply map_ext_in. intros p Hin%list_elem_of_In. rewrite Forall_forall in Hp, Hpsm.
    specialize (Hp p Hin). specialize (Hpsm p Hin). cbn in *. by apply (mod_kept _ m); [lia | done | lia]. }
  rewrite Ed, Ep. f_equal. destruct ps as [| p0 ps']; [done |]. cbn. apply Forall_cons in Hp as [Hp _]. destruct (Z.leb_spec 0 p0); [done | lia].
Qed.

(** ** The layout computed *)

Definition ideal_padding (vector : option Z) (fs : list field_info) : bool :=
  existsb slot_padding fs || has_gap fs 0 || existsb slot_lock fs || (fields_end fs 0 + lock_size fs <? total_size vector fs).

Definition ideal_layout (vector : option Z) (fs : list field_info) (ty : jl_fielddesc_type_t) : jl_datatype_layout_t :=
  let ps := ideal_ptrs fs (lock_size fs) 0 in
  Layout (total_size vector fs) (Z.of_nat (length fs)) (Z.of_nat (length ps)) (default (-1) (head ps)) (total_align vector fs)
    (ideal_padding vector fs) ty 0 (forallb slot_bitsegal fs) (ideal_fields fs (lock_size fs) 0) ps.

Section Whole.
Context (vector : option Z) (fs : list field_info).
Context (Hw : wf_fields fs) (Hv : wf_vector vector fs) (Hfits : fits vector fs).

Lemma max_align_fs : pow2 (max_align fs 1) /\ 1 <= max_align fs 1.
Proof. split; [apply max_align_pow2; [done | apply pow2_1] | apply max_align_ge]. Qed.

Lemma total_align_spec : pow2 (total_align vector fs) /\ max_align fs 1 <= total_align vector fs.
Proof.
  destruct max_align_fs as [Hp H1]. unfold total_align. unfold wf_vector in Hv. destruct vector as [al |]; [| split; [done | lia]].
  split; [| lia]. destruct Hv as [-> | [Hal _]]; [by rewrite Z.max_l by lia | by apply pow2_max].
Qed.

Lemma lock_size_spec : 0 <= lock_size fs /\ Forall (fun i => (slot_align i | lock_size fs)) fs.
Proof.
  destruct max_align_fs as [Hp H1]. unfold lock_size. destruct (existsb slot_lock fs).
  - pose proof (align_up_spec sizeof_jl_mutex_t (max_align fs 1) ltac:(lia)) as [Hd Hs]. unfold sizeof_jl_mutex_t in *. split; [lia |].
    apply Forall_forall. intros i Hi. eapply Z.divide_trans; [| exact Hd]. rewrite Forall_forall in Hw.
    apply pow2_divide; [by apply slot_align_pow2, Hw | done | by apply max_align_in].
  - split; [lia |]. apply Forall_forall. intros i _. apply Z.divide_0_r.
Qed.

Lemma total_size_spec : 0 <= fields_end fs 0 /\ (total_align vector fs | total_size vector fs) /\
  fields_end fs 0 + lock_size fs <= total_size vector fs < fields_end fs 0 + lock_size fs + total_align vector fs.
Proof.
  destruct total_align_spec as [Hp _]. pose proof (fields_end_ge fs 0 Hw). split; [lia |]. apply align_up_spec, pow2_pos, Hp.
Qed.

Lemma place_lock_spec a : pl_sz a = fields_end fs 0 -> pl_alignm a = max_align fs 1 -> pl_needlock a = existsb slot_lock fs ->
  pl_desc a = descs fs 0 ->
  place_lock a = inr (Placing (fields_end fs 0 + lock_size fs) (max_align fs 1) (pl_zeroinit a) (pl_haspadding a || existsb slot_lock fs)
    (pl_isbitsegal a) (pl_homogeneous a) (pl_needlock a) (pl_npointers a) (ideal_fields fs (lock_size fs) 0)).
Proof.
  intros E1 E2 E3 E4. destruct max_align_fs as [Hp H1], total_size_spec as (He & _ & Hts), total_align_spec as [_ Hta]. destruct Hfits as (_ & Hsz & Hal & _).
  destruct lock_size_spec as [Hl0 _].
  assert (Hshift : forall base, map (fun d => FieldDesc (fd_isptr d) (fd_size d) (fd_offset d + base)) (descs fs 0) = ideal_fields fs base 0).
  { intros base. unfold descs, ideal_fields. generalize (offsets fs 0) as os. clear. induction fs as [| i fs0 IH]; intros [| o os]; cbn; [done | done | done |]. by rewrite IH. }
  unfold place_lock. rewrite E3, E4, E2. unfold lock_size in Hl0, Hts, Hshift |- *. destruct (existsb slot_lock fs) eqn:Elk.
  - unfold lock_size in *. rewrite LLT_ALIGN_align_up by (done || unfold sizeof_jl_mutex_t; lia). set (L := align_up sizeof_jl_mutex_t (max_align fs 1)) in *.
    assert (Emo : max_offset = 2 ^ 32 - 1) by reflexivity. rewrite E1, Emo, u64_small by lia. destruct (Z.ltb_spec (2 ^ 32 - 1 - fields_end fs 0) L); [lia |].
    rewrite u64_small, orb_true_r by lia. do 2 f_equal. rewrite <- Hshift. apply map_ext_in. intros d Hd. f_equal. apply u32_small.
    assert (Hdo : 0 <= fd_offset d <= fields_end fs 0); [| lia]. apply list_elem_of_In in Hd. unfold descs in Hd.
    apply elem_of_lookup_zip_with in Hd as (k & i & o & -> & Hi & Ho). cbn. destruct (offsets_spec fs 0 k i o Hw Hi Ho) as (_ & ? & ?).
    rewrite Forall_forall in Hw. pose proof (slot_size_spec i (Hw i ltac:(by eapply list_elem_of_lookup_2))). lia.
  - destruct a; cbn in *. subst. rewrite Z.add_0_r, orb_false_r. do 2 f_equal. rewrite <- Hshift. rewrite <- (map_id (descs fs 0)) at 1.
    apply map_ext. intros []. cbn. by rewrite Z.add_0_r.
Qed.

Lemma place_end_spec a : pl_sz a = fields_end fs 0 + lock_size fs -> pl_alignm a = max_align fs 1 ->
  place_end vector a = Ok (Placing (total_size vector fs) (total_align vector fs) (pl_zeroinit a)
    (pl_haspadding a || (fields_end fs 0 + lock_size fs <? total_size vector fs)) (pl_isbitsegal a) (pl_homogeneous a) (pl_needlock a)
    (pl_npointers a) (pl_desc a)).
Proof.
  intros E1 E2. destruct max_align_fs as [Hp H1], total_align_spec as [Htp Hta], total_size_spec as (He & _ & Hts), lock_size_spec as [Hl0 _].
  destruct Hfits as (_ & Hsz & Hal & _). unfold place_end. rewrite E2.
  assert (Ev : match vector with Some al => if al mod max_align fs 1 =? 0 then Ok (if max_align fs 1 <? al then al else max_align fs 1) else UB | None => Ok (max_align fs 1) end = Ok (total_align vector fs)).
  { unfold total_align, wf_vector in *. destruct vector as [al |]; [| done].
    assert (Em : al mod max_align fs 1 = 0). { destruct Hv as [-> | [Ha Hle]]; [by apply Z.mod_0_l; lia |]. apply Z.mod_divide; [lia |]. by apply pow2_divide. }
    rewrite Em, Z.eqb_refl. f_equal. zcase; lia. }
  rewrite Ev. cbn [obind]. rewrite E1, LLT_ALIGN_align_up by (done || lia). fold (total_size vector fs).
  destruct (Z.ltb_spec (fields_end fs 0 + lock_size fs) (total_size vector fs)) as [Hlt | Hge].
  - by rewrite orb_true_r.
  - rewrite orb_false_r. do 2 f_equal. lia.
Qed.

Lemma ideal_fields_lookup base k d : ideal_fields fs base 0 !! k = Some d <->
  exists i o, fs !! k = Some i /\ offsets fs 0 !! k = Some o /\ d = FieldDesc (slot_isptr i) (slot_size i) (o + base).
Proof.
  unfold ideal_fields. rewrite lookup_zip_with_Some. split; [intros (i & o & ? & ? & ?); naive_solver | intros (i & o & ? & ? & ?); by eexists _, _].
Qed.

Lemma ideal_fields_length base : length (ideal_fields fs base 0) = length fs.
Proof. unfold ideal_fields. rewrite length_zip_with, offsets_length. lia. Qed.

Lemma ideal_fields_bounds : Forall (fun d => 0 <= fd_size d < 2 ^ 31 /\ 0 <= fd_offset d < 2 ^ 32) (ideal_fields fs (lock_size fs) 0) /\
  last_max fd_offset (ideal_fields fs (lock_size fs) 0).
Proof.
  destruct total_size_spec as (He & _ & Hts), lock_size_spec as [Hl0 _], total_align_spec as [Htp _]. destruct Hfits as (Hss & Hsz & _). split.
  - apply Forall_lookup. intros k d (i & o & Hi & Ho & ->)%ideal_fields_lookup. cbn. destruct (offsets_spec fs 0 k i o Hw Hi Ho) as (_ & ? & ?).
    assert (Hiw : wf_slot (fi_slot i)) by (rewrite Forall_forall in Hw; apply Hw; by eapply list_elem_of_lookup_2).
    assert (slot_size i < 2 ^ 31) by (rewrite Forall_forall in Hss; apply Hss; by eapply list_elem_of_lookup_2).
    pose proof (slot_size_spec i Hiw). lia.
  - intros x Hx. rewrite last_lookup, ideal_fields_length in Hx. apply ideal_fields_lookup in Hx as (i & o & Hi & Ho & ->).
    apply Forall_lookup. intros k d Hk. pose proof (lookup_lt_Some _ _ _ Hk) as Hlt. rewrite ideal_fields_length in Hlt.
    apply ideal_fields_lookup in Hk as (i' & o' & Hi' & Ho' & ->). cbn. destruct (decide (k = pred (length fs))) as [-> | Hne]; [by simplify_eq |].
    pose proof (offsets_order fs 0 k (pred (length fs)) i' o' o Hw ltac:(lia) Hi' Ho' Ho).
    assert (Hiw : wf_slot (fi_slot i')) by (rewrite Forall_forall in Hw; apply Hw; by eapply list_elem_of_lookup_2).
    pose proof (slot_size_spec i' Hiw). lia.
Qed.

Lemma layout_of_fields_ideal : exists ty, ty <> JL_FIELDDESC_FOREIGN /\
  layout_of_fields vector fs = Ok (inr (ideal_layout vector fs ty, existsb slot_zeroinit fs)).
Proof.
  destruct total_size_spec as (He & _ & Hts), lock_size_spec as [Hl0 Hld], total_align_spec as [Htp Hta], max_align_fs as [_ Hm1].
  destruct Hfits as (Hss & Hsz & Hal & Hlen). pose proof (ptrs_count fs 0 Hw) as Hpc. pose proof (pow2_pos _ Htp) as Htpos.
  destruct (ideal_ptrs_sorted fs (lock_size fs) 0 Hw ltac:(lia) Hld) as [Hst Hpf].
  unfold layout_of_fields. rewrite place_all_spec; cbn [placing_start pl_sz pl_alignm pl_npointers]; try done; try lia. cbn [orb andb Z.add app].
  rewrite place_lock_spec by done. cbn [pl_zeroinit pl_haspadding pl_isbitsegal pl_homogeneous pl_needlock pl_npointers].
  rewrite place_end_spec by done. cbn [obind pl_desc pl_zeroinit pl_haspadding pl_isbitsegal pl_homogeneous pl_needlock pl_npointers].
  rewrite pointers_of_spec by (done || lia). cbn [obind]. unfold placed_layout. cbn [pl_npointers pl_sz pl_alignm pl_desc pl_haspadding pl_isbitsegal].
  rewrite ideal_ptrs_length, Z.eqb_refl, ideal_fields_length, !u32_small by lia. destruct ideal_fields_bounds as [Hdb Hdm].
  rewrite <- (ideal_fields_length (lock_size fs)), <- (ideal_ptrs_length fs (lock_size fs) 0).
  destruct (jl_get_layout_spec (total_size vector fs) (total_align vector fs)
    (existsb slot_padding fs || has_gap fs 0 || existsb slot_lock fs || (fields_end fs 0 + lock_size fs <? total_size vector fs))
    (forallb slot_bitsegal fs) 0 (ideal_fields fs (lock_size fs) 0) (ideal_ptrs fs (lock_size fs) 0)) as (ty & E & Hty).
  - lia.
  - done.
  - done.
  - eapply Forall_impl; [exact Hpf |]. cbn. lia.
  - by apply sorted_last_max.
  - exists ty. split; [done |]. cbn [placing_start pl_haspadding pl_isbitsegal pl_zeroinit orb andb]. rewrite Z.add_0_l, E.
    cbn [obind]. unfold ideal_layout. by rewrite ideal_fields_length.
Qed.
End Whole.

(** What is known of the steps one by one. *)
Lemma place_steps fs a a2 : wf_fields fs -> fits None fs -> place_all fs placing_start = inr a -> place_lock a = inr a2 ->
  pl_desc a2 = ideal_fields fs (lock_size fs) 0 /\ pl_alignm a2 = max_align fs 1 /\ pl_homogeneous a2 = forallb fi_first fs.
Proof.
  intros Hw HF Hpl Hlk. pose proof HF as (Hss & Hsz & Hal & Hln). destruct (total_size_spec None fs Hw I HF) as (He & _ & Hts), (lock_size_spec fs Hw) as [Hl0 _].
  pose proof (ptrs_count fs 0 Hw) as Hpc. destruct (max_align_fs fs Hw) as [Hmp Hm1]. cbn [total_align] in *.
  rewrite place_all_spec in Hpl; cbn [placing_start pl_sz pl_alignm pl_npointers]; try done; try lia. injection Hpl as <-.
  rewrite (place_lock_spec None fs Hw I HF) in Hlk by done. by injection Hlk as <-.
Qed.

Lemma place_end_inv v a a' : place_end v a = Ok a' -> pl_desc a' = pl_desc a /\ match v with Some al => al mod pl_alignm a = 0 | None => True end.
Proof.
  unfold place_end. destruct v as [al |].
  - destruct (Z.eqb_spec (al mod pl_alignm a) 0); [| done]. cbn [obind]. destruct (_ <? LLT_ALIGN _ _); by intros [= <-].
  - cbn [obind]. destruct (_ <? LLT_ALIGN _ _); by intros [= <-].
Qed.

Lemma ideal_fields_isptr fs base : map fd_isptr (ideal_fields fs base 0) = map slot_isptr fs.
Proof.
  unfold ideal_fields. generalize (offsets_length fs 0). generalize (offsets fs 0) as os.
  induction fs as [| i fs IH]; intros [| o os] Hl; cbn; try done. f_equal. apply IH. by injection Hl.
Qed.

Definition sizes (fs : list field_info) : Z := fold_right (fun i n => slot_size i + n) 0 fs.

(** ** What a layout is for

    [layout_spec fs ly]: [ly] is a layout for fields stored as [fs] say. *)
Record layout_spec (fs : list field_info) (ly : jl_datatype_layout_t) : Prop := {
  ls_nfields : nfields ly = Z.of_nat (length fs) /\ length (fields ly) = length fs;
  ls_align : pow2 (alignment ly) /\ Forall (fun i => (slot_align i | alignment ly)) fs;
  ls_size : 0 <= size ly < 2 ^ 32 /\ (alignment ly | size ly);
  (** Each field is aligned, inside the struct and clear of the lock. *)
  ls_field : forall k i d, fs !! k = Some i -> fields ly !! k = Some d ->
    fd_isptr d = slot_isptr i /\ fd_size d = slot_size i /\ (slot_align i | fd_offset d) /\
    lock_size fs <= fd_offset d /\ fd_offset d + fd_size d <= size ly;
  (** No two fields overlap. *)
  ls_disjoint : forall j k d e, (j < k)%nat -> fields ly !! j = Some d -> fields ly !! k = Some e -> fd_offset d + fd_size d <= fd_offset e;
  (** The table of references lists those of all fields, in order. *)
  ls_ptrs : npointers ly = Z.of_nat (length (ptrs ly)) /\ first_ptr ly = default (-1) (head (ptrs ly)) /\ ptrs_in (size ly) (ptrs ly) /\
    forall p, p ∈ ptrs ly <-> exists k i d q, fs !! k = Some i /\ fields ly !! k = Some d /\ q ∈ slot_ptrs i /\ 8 * p = fd_offset d + 8 * q;
  ls_ptr_align : ptrs ly <> [] -> (8 | alignment ly);
  (** Without padding the fields follow one another and fill the struct. *)
  ls_padding : haspadding ly = false -> lock_size fs = 0 /\ size ly = fields_end fs 0 /\ existsb slot_padding fs = false /\
    forall k i d, fs !! k = Some i -> fields ly !! k = Some d -> fd_offset d = sizes (take k fs);
  ls_bitsegal : isbitsegal ly = forallb slot_bitsegal fs;
  ls_fielddesc : fielddesc_type ly <> JL_FIELDDESC_FOREIGN
}.

Lemma no_gap_offsets fs : forall sz k i o, wf_fields fs -> 0 <= sz -> has_gap fs sz = false -> fs !! k = Some i -> offsets fs sz !! k = Some o ->
  o = sz + sizes (take k fs).
Proof.
  induction fs as [| j fs IH]; intros sz k i o Hw Hsz Hg Hk Ho; [done |]. apply Forall_cons in Hw as [Hj Hw]. cbn [has_gap offsets] in *.
  apply orb_false_elim in Hg as [Hj0%negb_false_iff%Z.eqb_eq Hg]. rewrite Hj0 in *. destruct (slot_size_spec j Hj) as [_ Hs0].
  destruct k as [| k]; cbn [lookup list_lookup] in Hk, Ho; [injection Ho as <-; cbn; lia |].
  change (sizes (take (S k) (j :: fs))) with (slot_size j + sizes (take k fs)). rewrite (IH (sz + slot_size j) k i o Hw ltac:(lia) Hg Hk Ho). lia.
Qed.

Lemma elem_of_ideal_ptrs fs base p : wf_fields fs -> Forall (fun i => (slot_align i | base)) fs ->
  p ∈ ideal_ptrs fs base 0 <-> exists k i o q, fs !! k = Some i /\ offsets fs 0 !! k = Some o /\ q ∈ slot_ptrs i /\ 8 * p = o + base + 8 * q.
Proof.
  intros Hw Hb. unfold ideal_ptrs. rewrite list_elem_of_In, in_concat. setoid_rewrite <- list_elem_of_In. split.
  - intros (l & (k & i & o & -> & Hi & Ho)%elem_of_lookup_zip_with & Hp). rewrite list_elem_of_fmap in Hp. destruct Hp as (q & -> & Hq).
    exists k, i, o, q. repeat split; try done. rewrite Forall_lookup in Hw, Hb. destruct (slot_aligned8 i base o) as [r Hr]; [by eapply Hw | by eapply elem_of_not_nil | by eapply Hb | |].
    { eapply offsets_spec; [by rewrite Forall_lookup | done | done]. }
    replace (o + base) with (r * 8) by lia. rewrite Z.div_mul by lia. lia.
  - intros (k & i & o & q & Hi & Ho & Hq & E). exists (map (fun p => (o + base) / 8 + p) (slot_ptrs i)). split.
    + apply elem_of_lookup_zip_with. by exists k, i, o.
    + apply list_elem_of_fmap. exists q. split; [| done]. replace (o + base) with ((p - q) * 8) by lia. rewrite Z.div_mul by lia. lia.
Qed.

Section Spec.
Context (vector : option Z) (fs : list field_info).
Context (Hw : wf_fields fs) (Hv : wf_vector vector fs) (Hfits : fits vector fs).

Lemma ideal_layout_spec ty : ty <> JL_FIELDDESC_FOREIGN -> layout_spec fs (ideal_layout vector fs ty).
Proof.
  intros Hty. destruct (total_size_spec vector fs Hw Hv Hfits) as (He & Hdiv & Hts), (lock_size_spec fs Hw) as [Hl0 Hld], (total_align_spec vector fs Hw Hv Hfits) as [Htp Hta].
  destruct (max_align_fs fs Hw) as [Hmp Hm1]. destruct Hfits as (Hss & Hsz & Hal & Hlen). pose proof (pow2_pos _ Htp) as Htpos.
  destruct (ideal_ptrs_sorted fs (lock_size fs) 0 Hw ltac:(lia) Hld) as [Hst Hpf].
  assert (Hsa : forall i, i ∈ fs -> (slot_align i | total_align vector fs)).
  { intros i Hi. rewrite Forall_forall in Hw. apply pow2_divide; [by apply slot_align_pow2, Hw | done |]. pose proof (max_align_in fs i 1 Hi). lia. }
  split; cbn.
  - by rewrite ideal_fields_length.
  - split; [done |]. by apply Forall_forall.
  - split; [lia | done].
  - intros k i d Hi (i' & o & Hi' & Ho & ->)%ideal_fields_lookup. simplify_eq. cbn. destruct (offsets_spec fs 0 k i o Hw Hi Ho) as (Hd & ? & ?).
    repeat split; [| lia | lia]. apply Z.divide_add_r; [done |]. rewrite Forall_lookup in Hld. by eapply Hld.
  - intros j k d e Hjk (i & o & Hi & Ho & ->)%ideal_fields_lookup (i' & o' & Hi' & Ho' & ->)%ideal_fields_lookup. cbn.
    pose proof (offsets_order fs 0 j k i o o' Hw Hjk Hi Ho Ho'). lia.
  - split; [done |]. split; [done |]. split.
    + split; [done |]. eapply Forall_impl; [exact Hpf |]. cbn. lia.
    + intros p. rewrite elem_of_ideal_ptrs by done. split.
      * intros (k & i & o & q & Hi & Ho & Hq & E). exists k, i, (FieldDesc (slot_isptr i) (slot_size i) (o + lock_size fs)), q.
        split; [done |]. split; [apply ideal_fields_lookup; naive_solver | done].
      * intros (k & i & d & q & Hi & (i' & o & Hi' & Ho & ->)%ideal_fields_lookup & Hq & E). simplify_eq. by exists k, i, o, q.
  - intros Hne. assert (Hex : exists p, p ∈ ideal_ptrs fs (lock_size fs) 0) by (destruct (ideal_ptrs fs (lock_size fs) 0) as [| p ?]; [done | exists p; left]).
    destruct Hex as (p & (k & i & o & q & Hi & Ho & Hq & _)%elem_of_ideal_ptrs); [| done | done]. pose proof (list_elem_of_lookup_2 _ _ _ Hi) as Hin.
    eapply Z.divide_trans; [| by apply Hsa]. rewrite Forall_forall in Hw. apply slot_ptrs_in; [by apply Hw | by eapply elem_of_not_nil].
  - unfold ideal_padding. intros [[[Hp Hg]%orb_false_elim Hlk]%orb_false_elim Hr%Z.ltb_ge]%orb_false_elim. assert (El : lock_size fs = 0) by (unfold lock_size; by rewrite Hlk).
    repeat split; [done | lia | done |]. intros k i d Hi (i' & o & Hi' & Ho & ->)%ideal_fields_lookup. simplify_eq. cbn.
    rewrite (no_gap_offsets fs 0 k i o Hw ltac:(lia) Hg Hi Ho), El. lia.
  - done.
  - done.
Qed.

Lemma layout_of_fields_spec : exists ly, layout_of_fields vector fs = Ok (inr (ly, existsb slot_zeroinit fs)) /\ layout_spec fs ly /\
  size ly = total_size vector fs /\ alignment ly = total_align vector fs.
Proof.
  destruct (layout_of_fields_ideal vector fs Hw Hv Hfits) as (ty & Hty & E). exists (ideal_layout vector fs ty). split; [done |]. split; [by apply ideal_layout_spec | done].
Qed.
End Spec.
