(* ===== verification/Layout.v ===== *)
(** * Layouts of data types (datatype.c, jltypes.c)

    [jl_compute_field_offsets] and what it calls, on the heap of [Objects].
    Computing the layout of a struct computes those of the types of its
    fields first, so the functions change the heap and call each other; the
    recursive call is a parameter [compute] of the sections that need it, and
    [fuel] bounds the nesting.  [depth] bounds unions and bound variables.

    [layout_uses_free_typevars] and [jl_field_type] ask for the field types of
    types that have been given some: instantiating them on demand is part of
    the type lattice. *)

From stdpp Require Import base gmap numbers option list.
From Stdlib Require Import ZArith Lia.
From S2P Require Import Prelude Identity Hashing Bytes Objects HeapMonad LayoutCore.

Definition throw_ovf {A} (st : ptr) (offset : Z) : M A := throw (overflow_error st (i32 offset)).

Definition set_layout (l : option jl_datatype_layout_t) (d : jl_datatype_t) : jl_datatype_t :=
  Datatype (dt_name d) (dt_parameters d) (dt_types d) (dt_instance d) l (dt_hash d) (dt_isconcretetype d)
    (dt_isprimitivetype d) (dt_zeroinit d) (dt_hasfreetypevars d) (dt_isbitstype d) (dt_has_concrete_subtype d)
    (dt_ismutationfree d) (dt_isidentityfree d) (dt_smalltag d).
Definition set_instance (i : ptr) (d : jl_datatype_t) : jl_datatype_t :=
  Datatype (dt_name d) (dt_parameters d) (dt_types d) i (dt_layout d) (dt_hash d) (dt_isconcretetype d)
    (dt_isprimitivetype d) (dt_zeroinit d) (dt_hasfreetypevars d) (dt_isbitstype d) (dt_has_concrete_subtype d)
    (dt_ismutationfree d) (dt_isidentityfree d) (dt_smalltag d).
Definition set_flags (zeroinit isbitstype has_concrete_subtype ismutationfree isidentityfree : bool) (d : jl_datatype_t) : jl_datatype_t :=
  Datatype (dt_name d) (dt_parameters d) (dt_types d) (dt_instance d) (dt_layout d) (dt_hash d) (dt_isconcretetype d)
    (dt_isprimitivetype d) zeroinit (dt_hasfreetypevars d) isbitstype has_concrete_subtype ismutationfree isidentityfree (dt_smalltag d).
Definition set_zeroinit (b : bool) (d : jl_datatype_t) : jl_datatype_t :=
  set_flags b (dt_isbitstype d) (dt_has_concrete_subtype d) (dt_ismutationfree d) (dt_isidentityfree d) d.
Definition set_has_concrete_subtype (b : bool) (d : jl_datatype_t) : jl_datatype_t :=
  set_flags (dt_zeroinit d) (dt_isbitstype d) b (dt_ismutationfree d) (dt_isidentityfree d) d.
Definition set_isbitstype (b : bool) (d : jl_datatype_t) : jl_datatype_t :=
  set_flags (dt_zeroinit d) b (dt_has_concrete_subtype d) (dt_ismutationfree d) (dt_isidentityfree d) d.

(** ** Predicates on types *)

Section Predicates.
Context (H : heap) (depth : nat).

Definition jl_is_typeeq (p : ptr) : outcome bool := is_tag H jl_typeeq_tag p.
Definition jl_is_typevar (p : ptr) : outcome bool := is_tag H jl_tvar_tag p.
Definition jl_is_vararg (p : ptr) : outcome bool := is_tag H jl_vararg_tag p.
Definition jl_is_intersecttype (p : ptr) : outcome bool := let! d := jl_typetagof H p in Ok (d =? jl_intersect_type H).
Definition jl_is_typeapp (p : ptr) : outcome bool :=
  if jl_typeapp_type H =? 0 then Ok false else let! t := jl_typeof H p in Ok (t =? jl_typeapp_type H).
Definition jl_typeeq_T (p : ptr) : outcome ptr := ptr_field H p 0.

Definition jl_is_kindtag (t : Z) : bool :=
  (t =? tag jl_uniontype_tag) || (t =? tag jl_datatype_tag) || (t =? tag jl_unionall_tag) || (t =? tag jl_typeeq_tag)
  || (t =? tag jl_typeofbottom_tag).
Definition jl_is_type (p : ptr) : outcome bool := let! d := jl_typetagof H p in Ok (jl_is_kindtag d).

Definition jl_is_kind (v : ptr) : bool :=
  (v =? jl_anytype_type H) || (v =? small_typeof H jl_uniontype_tag) || (v =? small_typeof H jl_datatype_tag)
  || (v =? small_typeof H jl_unionall_tag) || (v =? small_typeof H jl_typeeq_tag) || (v =? small_typeof H jl_typeofbottom_tag).

(** A datatype with that name. *)
Definition is_named (name : ptr) (p : ptr) : outcome bool :=
  let! b := jl_is_datatype H p in
  if (b : bool) then let! d := get_datatype H p in Ok (dt_name d =? name) else Ok false.
Definition jl_is_genericmemory_type (p : ptr) : outcome bool := is_named (jl_genericmemory_typename H) p.
Definition jl_is_tuple_type (p : ptr) : outcome bool := is_named (jl_tuple_typename H) p.
Definition jl_is_vecelement_type (p : ptr) : outcome bool := is_named (jl_vecelement_typename H) p.

Definition jl_is_primitivetype (p : ptr) : outcome bool :=
  let! b := jl_is_datatype H p in
  if (b : bool) then let! d := get_datatype H p in Ok (dt_isprimitivetype d) else Ok false.
Definition jl_is_mutable_datatype (p : ptr) : outcome bool :=
  let! b := jl_is_datatype H p in
  if (b : bool) then let! d := get_datatype H p in jl_mutabl H d else Ok false.
Definition jl_isbits (p : ptr) : outcome bool :=
  let! b := jl_is_datatype H p in
  if (b : bool) then let! d := get_datatype H p in Ok (dt_isbitstype d) else Ok false.
Definition jl_is_datatype_singleton (d : jl_datatype_t) : outcome bool :=
  if dt_instance d =? 0 then Ok false else let! l := the_layout d in Ok ((size l =? 0) && (npointers l =? 0)).

Definition jl_datatype_size (p : ptr) : outcome Z :=
  let! d := get_datatype H p in let! l := jl_datatype_layout H depth d in Ok (size l).
Definition jl_datatype_align (p : ptr) : outcome Z :=
  let! d := get_datatype H p in let! l := jl_datatype_layout H depth d in Ok (alignment l).

(** [bits[i / 32] & (1 << (i % 32))] of an optional bit field *)
Definition field_bit (bits : option (list Z)) (i : Z) : outcome bool :=
  match bits with
  | None => Ok false
  | Some l => let! w := rd l (i / 32) in Ok (negb (Z.land w (Z.shiftl 1 (i mod 32)) =? 0))
  end.
Definition jl_field_isatomic (d : jl_datatype_t) (i : Z) : outcome bool :=
  let! n := get_typename H (dt_name d) in field_bit (tn_atomicfields n) i.
Definition jl_field_isconst (d : jl_datatype_t) (i : Z) : outcome bool :=
  let! n := get_typename H (dt_name d) in
  if negb (tn_mutabl n) then Ok true else field_bit (tn_constfields n) i.

(** [Type{Union{}}] is laid out as [typeof(Union{})]. *)
Definition normalize_typeofbottom_layout_alias (ty : ptr) : outcome ptr :=
  let bottom := small_typeof H jl_typeofbottom_tag in
  if bottom =? 0 then Ok ty
  else
    let! e := jl_is_typeeq ty in
    if (e : bool) then let! t := jl_typeeq_T ty in Ok (if t =? jl_bottom_type H then bottom else ty) else Ok ty.

(** ** Free type variables (jltypes.c) *)

Fixpoint typeenv_has (env : list ptr) (v : ptr) : bool :=
  match env with [] => false | w :: env => if w =? v then true else typeenv_has env v end.

(** Some element, in order. *)
Fixpoint any (f : ptr -> outcome bool) (l : list ptr) : outcome bool :=
  match l with [] => Ok false | x :: l => let! b := f x in if (b : bool) then Ok true else any f l end.

(** A union or intersection: one part, then the other; a [TypeEq]; a
    [Vararg].  What both functions below do with the types that are not data
    types, with [f] the function itself. *)
Definition in_parts (f : ptr -> outcome bool) (v : ptr) : outcome bool :=
  let! u := jl_is_uniontype H v in
  let! i := jl_is_intersecttype v in
  if u || i then
    let! a := ptr_field H v 0 in let! r := f a in
    if (r : bool) then Ok true else let! b := ptr_field H v 1 in f b
  else
    let! e := jl_is_typeeq v in
    if (e : bool) then let! t := jl_typeeq_T v in f t
    else
      let! va := jl_is_vararg v in
      if (va : bool) then
        let! t := ptr_field H v 0 in
        if t =? 0 then Ok false
        else
          let! n := ptr_field H v 1 in
          let! r := if n =? 0 then Ok false else f n in
          if (r : bool) then Ok true else f t
      else Ok false.

Definition jl_tparam (d : jl_datatype_t) (i : Z) : outcome ptr := let! l := get_svec H (dt_parameters d) in rd l i.

(** Down to the body of a [UnionAll], whose variables go to the environment. *)
Fixpoint under_unionalls (n : nat) (v : ptr) (env : list ptr) : outcome (ptr * list ptr) :=
  let! u := is_tag H jl_unionall_tag v in
  if (u : bool) then
    match n with
    | O => Timeout
    | S n' => let! var := ptr_field H v 0 in let! b := ptr_field H v 1 in under_unionalls n' b (var :: env)
    end
  else Ok (v, env).

Fixpoint layout_uses_free_typevars (n : nat) (v : ptr) (env : list ptr) : outcome bool :=
  match n with
  | O => Timeout
  | S n' =>
      let! tv := jl_is_typevar v in
      if (tv : bool) then Ok (negb (typeenv_has env v))
      else
        let! ta := jl_is_typeapp v in
        if (ta : bool) then Ok true
        else
          let! (v, env) := under_unionalls n' v env in
          let! isd := jl_is_datatype H v in
          if (isd : bool) then
            let! dt := get_datatype H v in
            let! nm := get_typename H (dt_name dt) in
            if dt_isconcretetype dt then Ok false
            else if match dt_layout dt with Some _ => true | None => false end || negb (tn_mayinlinealloc nm) then Ok false
            else if dt_name dt =? jl_namedtuple_typename H then
              let! names := jl_tparam dt 0 in
              let! types := jl_tparam dt 1 in
              let! r := layout_uses_free_typevars n' names env in
              if (r : bool) then Ok true else layout_uses_free_typevars n' types env
            else if dt_name dt =? jl_tuple_typename H then Ok true
            else
              let! types := get_svec H (dt_types dt) in
              any (fun ft => layout_uses_free_typevars n' ft env) types
          else in_parts (fun v => layout_uses_free_typevars n' v env) v
  end.

(** The same walk, which stops ([None]) at a bound with a free variable. *)
Fixpoint under_bounds (free : ptr -> list ptr -> outcome bool) (n : nat) (v : ptr) (env : list ptr)
    : outcome (option (ptr * list ptr)) :=
  let! u := is_tag H jl_unionall_tag v in
  if (u : bool) then
    match n with
    | O => Timeout
    | S n' =>
        let! var := ptr_field H v 0 in
        let! lb := ptr_field H var 1 in
        let! r := if lb =? jl_bottom_type H then Ok false else free lb env in
        if (r : bool) then Ok None
        else
          let! ub := ptr_field H var 2 in
          let! r := if ub =? jl_any_type H then Ok false else free ub env in
          if (r : bool) then Ok None
          else let! b := ptr_field H v 1 in under_bounds free n' b (var :: env)
    end
  else Ok (Some (v, env)).

Fixpoint has_free_typevars (n : nat) (v : ptr) (env : list ptr) : outcome bool :=
  match n with
  | O => Timeout
  | S n' =>
      let! tv := jl_is_typevar v in
      if (tv : bool) then Ok (negb (typeenv_has env v))
      else
        let! ta := jl_is_typeapp v in
        if (ta : bool) then Ok true
        else
          let! b := under_bounds (has_free_typevars n') n' v env in
          match b with
          | None => Ok true
          | Some (v, env) =>
              let! isd := jl_is_datatype H v in
              if (isd : bool) then
                let! d := get_datatype H v in
                match dt_hasfreetypevars d, env with
                | false, _ => Ok false
                | true, [] => Ok true
                | true, _ => let! l := get_svec H (dt_parameters d) in any (fun p => has_free_typevars n' p env) l
                end
              else in_parts (fun v => has_free_typevars n' v env) v
          end
  end.

Definition jl_has_free_typevars (v : ptr) : outcome bool := has_free_typevars depth v [].

Definition jl_has_fixed_layout (p : ptr) : outcome bool :=
  let! dt := get_datatype H p in
  if dt_isconcretetype dt && negb (dt_types dt =? 0) then Ok true
  else
    let! gm := jl_is_genericmemory_type p in
    if (gm : bool) then Ok false
    else if match dt_layout dt with Some _ => true | None => false end then Ok true
    else
      let! nm := get_typename H (dt_name dt) in
      if tn_abstract nm then Ok false
      else if dt_name dt =? jl_namedtuple_typename H then
        let! names := jl_tparam dt 0 in
        let! types := jl_tparam dt 1 in
        let! r := layout_uses_free_typevars depth names [] in
        if (r : bool) then Ok false else let! r := layout_uses_free_typevars depth types [] in Ok (negb r)
      else if dt_name dt =? jl_tuple_typename H then Ok false
      else
        let! types := get_svec H (dt_types dt) in
        let! r := any (fun ft => layout_uses_free_typevars depth ft []) types in Ok (negb r).

(** ** Properties of field types (datatype.c) *)

(** Both parts of a union, and a flag of a data type. *)
Fixpoint all_parts (flag : jl_datatype_t -> bool) (n : nat) (t : ptr) : outcome bool :=
  let! t := jl_unwrap_unionall H depth t in
  let! t := normalize_typeofbottom_layout_alias t in
  let! u := jl_is_uniontype H t in
  if (u : bool) then
    match n with
    | O => Timeout
    | S n' =>
        let! a := ptr_field H t 0 in
        let! r := all_parts flag n' a in
        if (r : bool) then let! b := ptr_field H t 1 in all_parts flag n' b else Ok false
    end
  else
    let! isd := jl_is_datatype H t in
    if (isd : bool) then let! d := get_datatype H t in Ok (flag d) else Ok false.
Definition is_type_mutationfree (t : ptr) : outcome bool := all_parts dt_ismutationfree depth t.
Definition is_type_identityfree (t : ptr) : outcome bool := all_parts dt_isidentityfree depth t.

(** The first three tests of [jl_pointer_egal] that return 1 after [Any] was
    excluded: symbols and booleans, mutable types, singletons. *)
Definition by_address (t : ptr) : outcome bool :=
  if (t =? small_typeof H jl_symbol_tag) || (t =? small_typeof H jl_bool_tag) then Ok true
  else
    let! u := jl_unwrap_unionall H depth t in
    let! mut := jl_is_mutable_datatype u in
    if mut && negb (t =? small_typeof H jl_string_tag) && negb (t =? small_typeof H jl_simplevector_tag) && negb (jl_is_kind t)
    then Ok true
    else
      let! isd := jl_is_datatype H t in
      let! single := if (isd : bool) then let! d := get_datatype H t in jl_is_datatype_singleton d else Ok false in
      if (single : bool) then Ok true
      else
        let! e := jl_is_typeeq t in
        if (e : bool) then let! x := jl_typeeq_T t in Ok (x =? jl_bottom_type H) else Ok false.

(** The types with one instance [Type{dt}] can be compared by address. *)
Definition typeeq_by_address (t : ptr) : outcome bool :=
  let! e := jl_is_typeeq t in
  if (e : bool) then
    let! dt := jl_typeeq_T t in
    let! isd := jl_is_datatype H dt in
    if (isd : bool) then
      let! d := get_datatype H dt in
      if dt =? small_typeof H jl_typeofbottom_tag then Ok false
      else if dt_isconcretetype d then Ok true
      else let! l := get_svec H (dt_parameters d) in Ok (Z.of_nat (length l) =? 0)
    else Ok false
  else Ok false.

Fixpoint jl_pointer_egal (n : nat) (t : ptr) : outcome bool :=
  if t =? jl_any_type H then Ok false
  else
    let! r := by_address t in
    if (r : bool) then Ok true
    else
      let! r := typeeq_by_address t in
      if (r : bool) then Ok true
      else
        let! u := jl_is_uniontype H t in
        if (u : bool) then
          match n with
          | O => Timeout
          | S n' =>
              let! a := ptr_field H t 0 in
              let! r := jl_pointer_egal n' a in
              if (r : bool) then let! b := ptr_field H t 1 in jl_pointer_egal n' b else Ok false
          end
        else Ok false.

Definition jl_field_type (d : jl_datatype_t) (i : Z) : outcome ptr := let! l := get_svec H (dt_types d) in rd l i.

Definition jl_special_vector_alignment (nf : Z) (t : ptr) : outcome Z :=
  let! ve := jl_is_vecelement_type t in
  if negb ve then Ok 0
  else
    let! d := get_datatype H t in
    let! ly := jl_datatype_layout H depth d in
    let! ty := if nfields ly =? 1 then jl_field_type d 0 else UB in
    let! prim := jl_is_primitivetype ty in
    if negb prim then Ok 0
    else
      let! elsz := jl_datatype_size ty in
      if negb (next_power_of_two elsz =? elsz) then Ok 0 else Ok (next_power_of_two (u64 (nf * elsz))).
End Predicates.

(** ** Layouts *)

Definition is_some {A} (o : option A) : bool := match o with Some _ => true | None => false end.

Section Layouts.
Context (depth : nat) (jl_gc_perm_alloc : heap -> Z -> ptr).

Definition datatype (p : ptr) : M jl_datatype_t := reads (fun H => get_datatype H p).
Definition typename_of (d : jl_datatype_t) : M jl_typename_t := reads (fun H => get_typename H (dt_name d)).

(** A new object of type [ty] with [data]; its address is the allocator's. *)
Definition jl_gc_permobj (data : ptr -> list Z) (ty : ptr) : M ptr := fun H =>
  let v := jl_gc_perm_alloc H (Z.of_nat (length (data 0)) + 8) in
  Ok (Ret v, with_objects H (<[v := Obj 0 (Z.lor ty 3) (BData (data v))]> (objects H))).

Definition jl_is_datatype_make_singleton (d : jl_datatype_t) : M bool :=
  match dt_layout d with
  | Some l =>
      if dt_isconcretetype d then
        let* nl := reads (fun H => jl_datatype_layout H depth d) in
        let* n := typename_of d in
        ret ((size nl =? 0) && (npointers l =? 0) && negb (tn_mutabl n))
      else ret false
  | None => ret false
  end.

Definition jl_maybe_allocate_singleton_instance (st : ptr) : M unit :=
  let* d := datatype st in
  if negb (dt_instance d =? 0) then ret tt
  else
    let* s := jl_is_datatype_make_singleton d in
    if (s : bool) then let* v := jl_gc_permobj (fun _ => []) st in update st (set_instance v) else ret tt.

Section Inline.
Context (compute : ptr -> M unit).

(** Whether the type has a layout, which is computed if there is a fixed one. *)
Definition jl_struct_try_layout (p : ptr) : M bool :=
  let* dt := datatype p in
  let* gm := reads (fun H => jl_is_genericmemory_type H p) in
  if is_some (dt_layout dt) || gm then ret true
  else
    let* fixed := reads (fun H => jl_has_fixed_layout H depth p) in
    if negb fixed then ret false
    else
      compute p ;;
      let* dt := datatype p in
      if is_some (dt_layout dt) then ret true else undefined.

Definition jl_datatype_isinlinealloc (p : ptr) (pointerfree : bool) : M bool :=
  let* dt := datatype p in
  let* nm := typename_of dt in
  if tn_mayinlinealloc nm then
    let* r := jl_struct_try_layout p in
    if (r : bool) then
      let* dt := datatype p in
      let* ly := reads (fun _ => the_layout dt) in
      if 0 <? npointers ly then
        if pointerfree then ret false
        else if negb (tn_n_uninitialized nm =? 0) then ret false
        else ret (match fielddesc_type ly with JL_FIELDDESC_8 | JL_FIELDDESC_16 => true | _ => false end)
      else ret true
    else ret false
  else ret false.

(** The number of parts of a union that can be stored inline, or 0, with the
    largest size and alignment. *)
Fixpoint union_isinlinable (n : nat) (ty : ptr) (pointerfree : bool) (nbytes align : Z) (asfield : bool) : M (Z * Z * Z) :=
  let* u := reads (fun H => jl_is_uniontype H ty) in
  if (u : bool) then
    match n with
    | O => fun _ => Timeout
    | S n' =>
        let* a := reads (fun H => ptr_field H ty 0) in
        let* (na, nbytes, align) := union_isinlinable n' a true nbytes align asfield in
        if na =? 0 then ret (0, nbytes, align)
        else
          let* b := reads (fun H => ptr_field H ty 1) in
          let* (nb, nbytes, align) := union_isinlinable n' b true nbytes align asfield in
          if nb =? 0 then ret (0, nbytes, align) else ret (u32 (na + nb), nbytes, align)
    end
  else
    let* ty := reads (fun H => normalize_typeofbottom_layout_alias H ty) in
    let* isd := reads (fun H => jl_is_datatype H ty) in
    let* inlined := if (isd : bool) then jl_datatype_isinlinealloc ty pointerfree else ret false in
    if (inlined : bool) then
      let* sz := reads (fun H => jl_datatype_size H depth ty) in
      let* al := reads (fun H => jl_datatype_align H depth ty) in
      let* prim := reads (fun H => jl_is_primitivetype H ty) in
      let sz := if asfield && prim then LLT_ALIGN sz al else sz in
      ret (1, if nbytes <? sz then sz else nbytes, if align <? al then al else align)
    else ret (0, nbytes, align).

Definition jl_uniontype_size (ty : ptr) (sz : Z) : M (bool * Z) :=
  let* (n, sz, _) := union_isinlinable depth ty false sz 0 false in ret (negb (n =? 0), sz).

Definition jl_islayout_inline (eltype : ptr) (fsz al : Z) : M (Z * Z * Z) :=
  let* (countbits, fsz, al) := union_isinlinable depth eltype false fsz al true in
  ret (if (0 <? countbits) && (countbits <? 127) then countbits else 0, fsz, al).

Definition jl_stored_inline (eltype : ptr) : M Z := let* (c, _, _) := jl_islayout_inline eltype 0 0 in ret c.

(** *** Memories *)

Definition opaque_ptr_layout (isbitsegal : bool) : jl_datatype_layout_t :=
  Layout 0 0 1 (-1) 8 false JL_FIELDDESC_8 0 isbitsegal [] [].

(** The element size, alignment, [zeroinit], lock and references of a memory
    whose elements are stored inline. *)
Definition unboxed_elements (eltype : ptr) (isatomic isunion : bool) (elsz al : Z) : M (Z * Z * bool * bool * list Z) :=
  let elsz := LLT_ALIGN elsz al in
  let needlock := isatomic && (MAX_ATOMIC_SIZE <? elsz) in
  let rounded := isatomic && negb needlock && (0 <? elsz) in
  let al := if rounded then next_power_of_two elsz else al in
  let elsz := if rounded then next_power_of_two elsz else elsz in
  let* (zi, hasptrs, pointers) :=
    if isunion then ret (true, false, [2 ^ 32 - 1])
    else
      let* isd := reads (fun H => jl_is_datatype H eltype) in
      if negb isd then undefined
      else
        let* d := datatype eltype in
        let* ly := reads (fun _ => the_layout d) in
        if 0 <=? first_ptr ly then
          if Z.of_nat (length (ptrs ly)) <? npointers ly then undefined
          else ret (dt_zeroinit d, true, take (Z.to_nat (npointers ly)) (ptrs ly))
        else ret (dt_zeroinit d, false, [2 ^ 32 - 1]) in
  if needlock then
    if JL_SMALL_BYTE_ALIGNMENT <? al then undefined
    else
      let lock_offset := LLT_ALIGN sizeof_jl_mutex_t JL_SMALL_BYTE_ALIGNMENT in
      let elsz := u64 (elsz + lock_offset) in
      let elsz := if al <? 8 then LLT_ALIGN elsz 8 else elsz in
      let al := if al <? 8 then 8 else al in
      let pointers := if (hasptrs : bool) then map (fun p => u32 (p + lock_offset / 8)) pointers else pointers in
      ret (elsz, al, true, needlock, pointers)
  else ret (elsz, al, zi, needlock, pointers).

(** The empty memory: length, pointer to the data after it, one element. *)
Definition zero_instance (nb : Z) (v : ptr) : list Z :=
  le_bytes 8 0 ++ le_bytes 8 (v + JL_SMALL_BYTE_ALIGNMENT) ++ replicate (Z.to_nat nb) 0.

Definition jl_get_genericmemory_layout (st : ptr) : M unit :=
  let* d := datatype st in
  let* kind := reads (fun H => jl_tparam H d 0) in
  let* eltype := reads (fun H => jl_tparam H d 1) in
  let* addrspace := reads (fun H => jl_tparam H d 2) in
  if negb (dt_isconcretetype d) then ret tt
  else
    let* ist := reads (fun H => jl_is_type H eltype) in
    if negb ist then
      update st (set_layout (Some (opaque_ptr_layout false))) ;;
      update st (set_has_concrete_subtype false)
    else
      let* (c, elsz, al) := jl_islayout_inline eltype 0 1 in
      let* isatomic := reads (fun H => Ok (kind =? jl_atomic_sym H)) in
      let* isd := reads (fun H => jl_is_datatype H eltype) in
      let* isu := reads (fun H => jl_is_uniontype H eltype) in
      let isunboxed := negb (c =? 0) && (negb isatomic || isd) in
      let isunion := isunboxed && isu in
      let* (elsz, al, zi, needlock, pointers) :=
        if isunboxed then unboxed_elements eltype isatomic isunion elsz al
        else ret (8, 8, true, false, [2 ^ 32 - 1]) in
      let arrayelem :=
        (if isunboxed then 0 else 1) + (if isunion then 2 else 0) + (if isatomic then 4 + (if needlock then 8 else 0) else 0) in
      let* d := datatype st in
      if is_some (dt_layout d) then undefined
      else
        let* ly := reads (fun _ =>
          jl_get_layout (u32 elsz) 0 (Z.of_nat (length pointers)) (u32 al) true false arrayelem [] pointers) in
        update st (set_layout (Some ly)) ;;
        update st (set_zeroinit zi) ;;
        let* isas := reads (fun H => is_tag H jl_addrspacecore_tag addrspace) in
        let* as0 := if (isas : bool) then reads (fun H => let! x := load_uint H (addrspace, 0) 1 in Ok (x =? 0)) else ret false in
        let* known := reads (fun H => Ok ((kind =? jl_not_atomic_sym H) || (kind =? jl_atomic_sym H))) in
        if as0 && known then
          let* v := jl_gc_permobj (zero_instance (if elsz =? 0 then (if isunion then 1 else 0) else elsz)) st in
          let* d := datatype st in
          if dt_instance d =? 0 then update st (set_instance v) else undefined
        else ret tt.

(** *** Structs *)

Definition singleton_layout : jl_datatype_layout_t := Layout 0 0 0 (-1) 1 false JL_FIELDDESC_8 0 true [] [].
Definition opaque_byte_layout : jl_datatype_layout_t := Layout 0 0 1 (-1) 1 false JL_FIELDDESC_8 0 true [] [].

(** Whether there could be an instance of a subtype, from the fields that are
    always initialized. *)
Fixpoint concrete_subtype_loop (st : ptr) (flds : list ptr) : M unit :=
  match flds with
  | [] => ret tt
  | fld :: flds =>
      let* d := datatype st in
      if dt_has_concrete_subtype d then
        let* bottom := reads (fun H => Ok (fld =? jl_bottom_type H)) in
        (if (bottom : bool) then update st (set_has_concrete_subtype false)
         else
           let* isd := reads (fun H => jl_is_datatype H fld) in
           let* c := if (isd : bool) then let* fd := datatype fld in ret (dt_has_concrete_subtype fd) else ret true in
           update st (set_has_concrete_subtype c)) ;;
        concrete_subtype_loop st flds
      else ret tt
  end.

(** The flags that all fields must have. *)
Fixpoint flags_loop (d : jl_datatype_t) (nm : jl_typename_t) (i : Z) (flds : list ptr)
    (isbitstype ismutationfree isidentityfree : bool) : M (bool * bool * bool) :=
  match flds with
  | [] => ret (isbitstype, ismutationfree, isidentityfree)
  | fld :: flds =>
      if isbitstype || isidentityfree || ismutationfree then
        let* b := reads (fun H => jl_isbits H fld) in
        let* c := if negb (tn_mutabl nm) then ret true else reads (fun H => jl_field_isconst H d i) in
        let* m := if (c : bool) then reads (fun H => is_type_mutationfree H depth fld) else ret false in
        let* f := reads (fun H => is_type_identityfree H depth fld) in
        flags_loop d nm (i + 1) flds (isbitstype && b) (ismutationfree && m) (isidentityfree && f)
      else ret (isbitstype, ismutationfree, isidentityfree)
  end.

(** How the field number [i] of type [fld] is stored. *)
Definition field_slot (isatomic : bool) (fld : ptr) : M slot :=
  let* layout_fld := reads (fun H => normalize_typeofbottom_layout_alias H fld) in
  let* (c, fsz, al) := jl_islayout_inline fld 0 1 in
  let* isd := reads (fun H => jl_is_datatype H layout_fld) in
  if negb (c =? 0) && (negb isatomic || isd) then
    let* u := reads (fun H => jl_is_uniontype H fld) in
    if (u : bool) then ret (SUnion fsz al)
    else if negb isd then undefined
    else
      let* dsize := reads (fun H => jl_datatype_size H depth layout_fld) in
      let* d := datatype layout_fld in
      let* ly := reads (fun _ => the_layout d) in
      ret (SInline fsz al dsize ly (dt_zeroinit d))
  else
    let* pe := reads (fun H => jl_pointer_egal H depth depth fld) in
    ret (SPointer pe).

Fixpoint fields_loop (st : ptr) (d : jl_datatype_t) (nm : jl_typename_t) (firstty : ptr) (nf i : Z) (flds : list ptr) (a : placing)
    : M placing :=
  match flds with
  | [] => ret a
  | fld :: flds =>
      let* isatomic := reads (fun H => jl_field_isatomic H d i) in
      let* s := field_slot isatomic fld in
      match place_field (FieldInfo s isatomic (nf - tn_n_uninitialized nm <=? i) (firstty =? fld)) a with
      | inl offs => throw_ovf st offs
      | inr a => fields_loop st d nm firstty nf (i + 1) flds a
      end
  end.

Fixpoint pointers_loop (flds : list ptr) (desc : list jl_fielddesc32_t) : M (list Z) :=
  match flds, desc with
  | fld :: flds, fd :: desc =>
      let* layout_fld := reads (fun H => normalize_typeofbottom_layout_alias H fld) in
      let* ly :=
        if fd_isptr fd then ret None
        else
          let* isd := reads (fun H => jl_is_datatype H layout_fld) in
          if (isd : bool) then let* d := datatype layout_fld in let* ly := reads (fun _ => the_layout d) in ret (Some ly)
          else ret None in
      let* ps := reads (fun _ => field_pointers fd ly) in
      let* qs := pointers_loop flds desc in ret (ps ++ qs)
  | _, _ => ret []
  end.

(** The layout of a struct from its fields. *)
Definition struct_layout (st : ptr) (d : jl_datatype_t) (nm : jl_typename_t) (flds : list ptr) : M (jl_datatype_layout_t * bool) :=
  match flds with
  | [] => undefined
  | firstty :: _ =>
      let nf := Z.of_nat (length flds) in
      let* a := fields_loop st d nm firstty nf 0 flds placing_start in
      match place_lock a with
      | inl offs => throw_ovf st offs
      | inr a =>
          let* tuple := reads (fun H => jl_is_tuple_type H st) in
          let* vector :=
            if pl_homogeneous a && tuple then
              let* al := reads (fun H => jl_special_vector_alignment H depth nf firstty) in ret (Some al)
            else ret None in
          let* a := reads (fun _ => place_end vector a) in
          let* pointers := pointers_loop flds (pl_desc a) in
          let* ly := reads (fun _ => placed_layout a pointers) in
          ret (ly, pl_zeroinit a)
      end
  end.

(** The layout does not depend on the parameters: it is the wrapper's. *)
Definition reuse_layout (st : ptr) (dw : jl_datatype_t) (wl : jl_datatype_layout_t) (isbitstype : bool) : M unit :=
  update st (set_layout (Some wl)) ;;
  update st (set_zeroinit (dt_zeroinit dw)) ;;
  update st (set_has_concrete_subtype (dt_has_concrete_subtype dw)) ;;
  if negb (jl_is_layout_opaque wl) then
    update st (set_isbitstype (isbitstype && (npointers wl =? 0))) ;;
    jl_maybe_allocate_singleton_instance st
  else ret tt.

(** The layout of a type without fields: [inl] is one of the types that end
    here. *)
Definition fieldless_layout (H : heap) (st : ptr) : jl_datatype_layout_t + jl_datatype_layout_t :=
  if (st =? small_typeof H jl_symbol_tag) || (st =? small_typeof H jl_string_tag) then inl opaque_byte_layout
  else if (st =? small_typeof H jl_simplevector_tag) || (st =? small_typeof H jl_module_tag) then inl (opaque_ptr_layout true)
  else inr singleton_layout.

(** From the flags of the fields on. *)
Definition finish_layout (st : ptr) (nm : jl_typename_t) (flds : list ptr) (isbitstype ismutationfree isidentityfree : bool) : M unit :=
  let* d := datatype st in
  let* (isbitstype, ismutationfree, isidentityfree) := flags_loop d nm 0 flds isbitstype ismutationfree isidentityfree in
  let* d := datatype st in
  (if is_some (dt_layout d) then ret tt
   else
     let* (ly, zeroinit) := struct_layout st d nm flds in
     update st (set_layout (Some ly)) ;;
     update st (set_zeroinit zeroinit)) ;;
  let* d := datatype st in
  let* ly := reads (fun _ => the_layout d) in
  if isbitstype && negb (npointers ly =? 0) then undefined
  else
    update st (fun d => set_flags (dt_zeroinit d) isbitstype (dt_has_concrete_subtype d) ismutationfree isidentityfree d) ;;
    jl_maybe_allocate_singleton_instance st.

Definition compute_own_layout (st w : ptr) (nm : jl_typename_t) (isbitstype ismutationfree isidentityfree : bool) : M unit :=
  let* d := datatype st in
  let* dw := datatype w in
  if (dt_types d =? 0) || (dt_types dw =? 0) then undefined
  else
    let* flds := reads (fun H => get_svec H (dt_types d)) in
    let nf := Z.of_nat (length flds) in
    if nf <? tn_n_uninitialized nm then undefined
    else if nf =? 0 then
      let* l := reads (fun H => Ok (fieldless_layout H st)) in
      match l with
      | inl l => update st (set_layout (Some l))
      | inr l => update st (set_layout (Some l)) ;; finish_layout st nm flds isbitstype ismutationfree isidentityfree
      end
    else
      concrete_subtype_loop st (take (Z.to_nat (nf - tn_n_uninitialized nm)) flds) ;;
      let* d := datatype st in
      let* fixed := if dt_isconcretetype d then ret true else reads (fun H => jl_has_fixed_layout H depth st) in
      let* free := if (fixed : bool) then ret false else reads (fun H => jl_has_free_typevars H depth st) in
      if (free : bool) then if st =? w then ret tt else undefined
      else finish_layout st nm flds isbitstype ismutationfree isidentityfree.

Definition compute_field_offsets (st : ptr) : M unit :=
  let* d := datatype st in
  let* nm := typename_of d in
  if tn_wrapper nm =? 0 then ret tt
  else
    let* w := reads (fun H => jl_unwrap_unionall H depth (tn_wrapper nm)) in
    (if (st =? w) && is_some (dt_layout d) then
       update st (set_layout None) ;; update st (set_zeroinit false) ;; update st (set_has_concrete_subtype true)
     else ret tt) ;;
    let* gm := reads (fun H => Ok (dt_name d =? jl_genericmemory_typename H)) in
    if (gm : bool) then jl_get_genericmemory_layout st
    else
      let* d := datatype st in
      let* dw := datatype w in
      let isbitstype := dt_isconcretetype d && tn_mayinlinealloc nm in
      let ismutationfree := match dt_layout dw with Some l => negb (jl_is_layout_opaque l) | None => true end in
      let isidentityfree := negb (tn_mutabl nm) in
      match dt_layout dw with
      | Some wl => reuse_layout st dw wl isbitstype
      | None => compute_own_layout st w nm isbitstype ismutationfree isidentityfree
      end.
End Inline.

Fixpoint jl_compute_field_offsets (fuel : nat) (st : ptr) : M unit :=
  match fuel with
  | O => fun _ => Timeout
  | S fuel' => compute_field_offsets (jl_compute_field_offsets fuel') st
  end.
End Layouts.
