(* ===== verification/LayoutHeap.v ===== *)
(** * Heaps in which layouts are filled in

    [H ⊑ H']: [H'] has the objects of [H], in which only data types may have
    changed: they may have been given a layout, and flags and instances that
    say nothing about memory.  What is read from objects in [H] is read in
    [H']. *)

From stdpp Require Import base gmap numbers option list.
From Stdlib Require Import ZArith Lia.
From S2P Require Import Prelude Probe Identity Hashing Bytes Objects HeapMonad LayoutCore LayoutCoreFacts Layout.

Record same_type (d d' : jl_datatype_t) : Prop := {
  st_name : dt_name d' = dt_name d;
  st_parameters : dt_parameters d' = dt_parameters d;
  st_types : dt_types d' = dt_types d;
  st_smalltag : dt_smalltag d' = dt_smalltag d;
  st_isprimitivetype : dt_isprimitivetype d' = dt_isprimitivetype d;
  st_isconcretetype : dt_isconcretetype d' = dt_isconcretetype d;
  st_hasfreetypevars : dt_hasfreetypevars d' = dt_hasfreetypevars d;
  st_layout : forall ly, dt_layout d = Some ly -> dt_layout d' = Some ly /\ dt_zeroinit d' = dt_zeroinit d
}.

Definition body_ext (b b' : body) : Prop :=
  match b with BDatatype d => exists d', b' = BDatatype d' /\ same_type d d' | _ => b' = b end.

Record extends (H H' : heap) : Prop := {
  ext_globals : H' = with_objects H (objects H');
  ext_old : forall p o, objects H !! p = Some o -> exists o', objects H' !! p = Some o' /\ header o' = header o /\ body_ext (obody o) (obody o');
  ext_new : forall p o, objects H' !! p = Some o -> objects H !! p = None -> exists bs, obody o = BData bs
}.

#[global] Instance heap_sqsubseteq : SqSubsetEq heap := extends.

Lemma same_type_refl d : same_type d d.
Proof. by split. Qed.

Lemma same_type_trans d1 d2 d3 : same_type d1 d2 -> same_type d2 d3 -> same_type d1 d3.
Proof. intros [] [????????L]. split; try congruence. intros ly E. edestruct L as [? ?]; [naive_solver |]. naive_solver congruence. Qed.

Lemma body_ext_refl b : body_ext b b.
Proof. destruct b; cbn; try done. eexists. split; [done | apply same_type_refl]. Qed.

Lemma body_ext_trans b1 b2 b3 : body_ext b1 b2 -> body_ext b2 b3 -> body_ext b1 b3.
Proof.
  destruct b1; cbn; try by intros ->. intros (d' & -> & Hd) (d'' & -> & Hd'). eexists. split; [done |]. by eapply same_type_trans.
Qed.

#[global] Instance extends_preorder : @PreOrder heap (⊑).
Proof.
  split.
  - intros H. split; [by destruct H | intros p o E; exists o; split; [done | split; [done | apply body_ext_refl]] | by intros p o -> ].
  - intros H1 H2 H3 [G2 O2 N2] [G3 O3 N3]. split.
    + rewrite G3, G2. by destruct H1.
    + intros p o E. destruct (O2 p o E) as (o2 & E2 & Hh2 & B2), (O3 p o2 E2) as (o3 & E3 & Hh3 & B3).
      exists o3. split; [done |]. split; [congruence | by eapply body_ext_trans].
    + intros p o E3 E1. destruct (objects H2 !! p) as [o2 |] eqn:E2; [| by eapply N3]. destruct (N2 p o2 E2 E1) as [bs Hb].
      destruct (O3 p o2 E2) as (o3 & E3' & _ & B). rewrite Hb in B. cbn in B. exists bs. congruence.
Qed.

Section Reads.
Context (H H' : heap) (Hext : H ⊑ H').

Lemma globals_eq {A} (f : heap -> A) : (forall m, f (with_objects H m) = f H) -> f H' = f H.
Proof. intros E. rewrite (ext_globals _ _ Hext). apply E. Qed.

Lemma small_typeof_ext t : small_typeof H' t = small_typeof H t.
Proof. by apply (globals_eq (fun H => small_typeof H t)). Qed.

Lemma deref_ext p o : deref H p = Ok o -> exists o', deref H' p = Ok o' /\ header o' = header o /\ body_ext (obody o) (obody o').
Proof.
  unfold deref. destruct (objects H !! p) as [o0 |] eqn:E; [| done]. intros [= <-].
  destruct (ext_old _ _ Hext p o0 E) as (o' & -> & ? & ?). by exists o'.
Qed.

Lemma typetagof_ext p t : jl_typetagof H p = Ok t -> jl_typetagof H' p = Ok t.
Proof. intros (o & (o' & E & Hh & _)%deref_ext & [= <-])%obind_Ok_inv. unfold jl_typetagof. rewrite E. cbn. by rewrite Hh. Qed.

Lemma is_tag_ext t p b : is_tag H t p = Ok b -> is_tag H' t p = Ok b.
Proof. intros (t' & E%typetagof_ext & [= <-])%obind_Ok_inv. unfold is_tag. by rewrite E. Qed.

Lemma get_svec_ext p l : get_svec H p = Ok l -> get_svec H' p = Ok l.
Proof.
  intros (o & (o' & E & _ & B)%deref_ext & Eb)%obind_Ok_inv. unfold get_svec. rewrite E. cbn. destruct (obody o); try done. cbn in B. by rewrite B.
Qed.

Lemma get_typename_ext p n : get_typename H p = Ok n -> get_typename H' p = Ok n.
Proof.
  intros (o & (o' & E & _ & B)%deref_ext & Eb)%obind_Ok_inv. unfold get_typename. rewrite E. cbn. destruct (obody o); try done. cbn in B. by rewrite B.
Qed.

Lemma get_datatype_ext p d : get_datatype H p = Ok d -> exists d', get_datatype H' p = Ok d' /\ same_type d d'.
Proof.
  intros (o & (o' & E & _ & B)%deref_ext & Eb)%obind_Ok_inv. unfold get_datatype. rewrite E. cbn. destruct (obody o); try done.
  injection Eb as <-. destruct B as (d' & -> & Hd). by exists d'.
Qed.

Lemma load_bytes_ext l n bs : load_bytes H l n = Ok bs -> load_bytes H' l n = Ok bs.
Proof.
  intros (x & (o & (o' & E & _ & B)%deref_ext & Ex)%obind_Ok_inv & E2)%obind_Ok_inv. unfold load_bytes, data_at. rewrite E. cbn.
  destruct (obody o); try done. cbn in B. rewrite B. rewrite Ex. by cbn.
Qed.

Lemma ptr_field_ext p i q : ptr_field H p i = Ok q -> ptr_field H' p i = Ok q.
Proof. intros (bs & E%load_bytes_ext & Eq)%obind_Ok_inv. unfold ptr_field, load_ptr, load_uint. by rewrite E. Qed.

(** An object of [H'] that does not hold plain data was there in [H]. *)
Lemma deref_old p o' : deref H' p = Ok o' -> (exists bs, obody o' = BData bs) \/
  exists o, deref H p = Ok o /\ header o' = header o /\ body_ext (obody o) (obody o').
Proof.
  unfold deref. destruct (objects H' !! p) as [o1 |] eqn:E'; [| done]. intros [= ->]. destruct (objects H !! p) as [o |] eqn:Eo.
  - right. destruct (ext_old _ _ Hext p o Eo) as (o2 & E2 & Hh & B). simplify_eq. by exists o.
  - left. by apply (ext_new _ _ Hext p o' E').
Qed.

Lemma get_datatype_old p d' : get_datatype H' p = Ok d' -> exists d, get_datatype H p = Ok d /\ same_type d d'.
Proof.
  intros (o' & [(bs & Hb) | (o & Eo & _ & B)]%deref_old & Eb)%obind_Ok_inv; [by rewrite Hb in Eb |]. unfold get_datatype. rewrite Eo. cbn.
  destruct (obody o); cbn in B; try (by rewrite B in Eb). destruct B as (d2 & B & Hd). rewrite B in Eb. injection Eb as <-. by eexists.
Qed.

Lemma get_svec_old p l : get_svec H' p = Ok l -> get_svec H p = Ok l.
Proof.
  intros (o' & [(bs & Hb) | (o & Eo & _ & B)]%deref_old & Eb)%obind_Ok_inv; [by rewrite Hb in Eb |]. unfold get_svec. rewrite Eo. cbn.
  destruct (obody o); cbn in B; try (by rewrite B in Eb). destruct B as (d2 & B & Hd). by rewrite B in Eb.
Qed.

Lemma get_typename_old p l : get_typename H' p = Ok l -> get_typename H p = Ok l.
Proof.
  intros (o' & [(bs & Hb) | (o & Eo & _ & B)]%deref_old & Eb)%obind_Ok_inv; [by rewrite Hb in Eb |]. unfold get_typename. rewrite Eo. cbn.
  destruct (obody o); cbn in B; try (by rewrite B in Eb). destruct B as (d2 & B & Hd). by rewrite B in Eb.
Qed.

Lemma normalize_ext ty q : normalize_typeofbottom_layout_alias H ty = Ok q -> normalize_typeofbottom_layout_alias H' ty = Ok q.
Proof.
  unfold normalize_typeofbottom_layout_alias. rewrite small_typeof_ext, (globals_eq jl_bottom_type) by done.
  destruct (small_typeof H jl_typeofbottom_tag =? 0); [done |]. intros (e & Ee%is_tag_ext & E)%obind_Ok_inv. unfold jl_is_typeeq. rewrite Ee. cbn.
  destruct e; [| done]. apply obind_Ok_inv in E as (t & Et%ptr_field_ext & E). unfold jl_typeeq_T. by rewrite Et.
Qed.

Lemma unwrap_ext n : forall v w, jl_unwrap_unionall H n v = Ok w -> jl_unwrap_unionall H' n v = Ok w.
Proof.
  induction n as [| n IH]; intros v w; cbn; intros (u & Eu%is_tag_ext & E)%obind_Ok_inv; rewrite Eu; cbn; destruct u; try done.
  apply obind_Ok_inv in E as (b & Eb%ptr_field_ext & E). rewrite Eb. cbn. by apply IH.
Qed.

Lemma is_primitivetype_ext p b : jl_is_primitivetype H p = Ok b -> jl_is_primitivetype H' p = Ok b.
Proof.
  intros (x & Ex%is_tag_ext & E)%obind_Ok_inv. unfold jl_is_primitivetype, jl_is_datatype. rewrite Ex. cbn. destruct x; [| done].
  apply obind_Ok_inv in E as (d & (d' & Ed & Hd)%get_datatype_ext & [= <-]). rewrite Ed. cbn. by rewrite (st_isprimitivetype _ _ Hd).
Qed.
End Reads.

(** ** Fields that are stored inline, read off the heap *)

Section Inline.
Context (depth : nat).

(** The size and alignment a part of a field needs; [pointerfree] as in
    [jl_datatype_isinlinealloc]. *)
Definition part_at (H : heap) (p : ptr) (pointerfree : bool) : outcome (Z * Z) :=
  let! q := normalize_typeofbottom_layout_alias H p in
  let! d := get_datatype H q in
  let! nm := get_typename H (dt_name d) in
  let! ly := the_layout d in
  if negb (tn_mayinlinealloc nm) || jl_is_layout_opaque ly || (pointerfree && (0 <? npointers ly)) then UB
  else Ok (if dt_isprimitivetype d then LLT_ALIGN (size ly) (alignment ly) else size ly, alignment ly).

(** The largest size and alignment of the parts of a union. *)
Fixpoint union_at (H : heap) (n : nat) (ty : ptr) (pointerfree : bool) (nbytes align : Z) : outcome (Z * Z) :=
  let! u := jl_is_uniontype H ty in
  if (u : bool) then
    match n with
    | O => Timeout
    | S n' =>
        let! a := ptr_field H ty 0 in
        let! (nbytes, align) := union_at H n' a true nbytes align in
        let! b := ptr_field H ty 1 in union_at H n' b true nbytes align
    end
  else let! (sz, al) := part_at H ty pointerfree in Ok (Z.max nbytes sz, Z.max align al).

Definition inline_at (H : heap) (fld : ptr) : outcome slot :=
  let! (fsz, al) := union_at H depth fld false 0 1 in
  let! u := jl_is_uniontype H fld in
  if (u : bool) then Ok (SUnion fsz al)
  else
    let! q := normalize_typeofbottom_layout_alias H fld in
    let! isd := jl_is_datatype H q in
    let! d := get_datatype H q in
    let! ly := the_layout d in
    if (isd : bool) then Ok (SInline fsz al (size ly) ly (dt_zeroinit d)) else UB.

(** The number of parts of a union. *)
Fixpoint union_count (H : heap) (n : nat) (ty : ptr) : outcome Z :=
  let! u := jl_is_uniontype H ty in
  if (u : bool) then
    match n with
    | O => Timeout
    | S n' => let! a := ptr_field H ty 0 in let! x := union_count H n' a in let! b := ptr_field H ty 1 in let! y := union_count H n' b in Ok (x + y)
    end
  else Ok 1.

Lemma union_count_pos H n : forall ty c, union_count H n ty = Ok c -> 0 < c.
Proof.
  induction n as [| n IH]; intros ty c; cbn; intros (u & _ & E)%obind_Ok_inv; destruct u; try done; try (by injection E as <-).
  apply obind_Ok_inv in E as (a & _ & (x & Ex & (b & _ & (y & Ey & [= <-])%obind_Ok_inv)%obind_Ok_inv)%obind_Ok_inv). pose proof (IH a x Ex). pose proof (IH b y Ey). lia.
Qed.

(** What is read once is read in every later heap. *)
Section Later.
Context (H H' : heap) (Hext : H ⊑ H').

Lemma the_layout_later d d' ly : same_type d d' -> the_layout d = Ok ly -> the_layout d' = Ok ly /\ dt_zeroinit d' = dt_zeroinit d.
Proof.
  intros [_ _ _ _ _ _ _ Hl]. unfold the_layout. destruct (dt_layout d) as [l |]; [| done]. intros [= ->]. by destruct (Hl ly eq_refl) as [-> ->].
Qed.

Lemma part_at_later p pf r : part_at H p pf = Ok r -> part_at H' p pf = Ok r.
Proof.
  intros (q & Eq & (d & Ed & (nm & En & (ly & El & E)%obind_Ok_inv)%obind_Ok_inv)%obind_Ok_inv)%obind_Ok_inv. unfold part_at.
  rewrite (normalize_ext H H' Hext _ _ Eq). cbn. destruct (get_datatype_ext H H' Hext _ _ Ed) as (d' & -> & Hd). cbn.
  rewrite (st_name _ _ Hd), (get_typename_ext H H' Hext _ _ En). cbn. destruct (the_layout_later _ _ _ Hd El) as [-> _]. cbn.
  by rewrite (st_isprimitivetype _ _ Hd).
Qed.

Lemma union_at_later n : forall ty pf nb al r, union_at H n ty pf nb al = Ok r -> union_at H' n ty pf nb al = Ok r.
Proof.
  induction n as [| n IH]; intros ty pf nb al r; cbn; intros (u & Eu%(is_tag_ext H H' Hext) & E)%obind_Ok_inv; unfold jl_is_uniontype; rewrite Eu; cbn;
    destruct u; try done.
  - apply obind_Ok_inv in E as ([sz a] & Ep%part_at_later & E). rewrite Ep. by cbn.
  - apply obind_Ok_inv in E as (a & Ea%(ptr_field_ext H H' Hext) & E). rewrite Ea. cbn.
    apply obind_Ok_inv in E as ([nb1 al1] & E1%IH & E). rewrite E1. cbn. apply obind_Ok_inv in E as (b & Eb%(ptr_field_ext H H' Hext) & E). rewrite Eb. cbn. by apply IH.
  - apply obind_Ok_inv in E as ([sz a] & Ep%part_at_later & E). rewrite Ep. by cbn.
Qed.

Lemma union_count_later n : forall ty c, union_count H n ty = Ok c -> union_count H' n ty = Ok c.
Proof.
  induction n as [| n IH]; intros ty c; cbn; intros (u & Eu%(is_tag_ext H H' Hext) & E)%obind_Ok_inv; unfold jl_is_uniontype; rewrite Eu; cbn; destruct u; try done.
  apply obind_Ok_inv in E as (a & Ea%(ptr_field_ext H H' Hext) & (x & Ex%IH & (b & Eb%(ptr_field_ext H H' Hext) & (y & Ey%IH & E)%obind_Ok_inv)%obind_Ok_inv)%obind_Ok_inv).
  rewrite Ea. cbn. rewrite Ex. cbn. rewrite Eb. cbn. by rewrite Ey.
Qed.

Lemma inline_at_later fld s : inline_at H fld = Ok s -> inline_at H' fld = Ok s.
Proof.
  intros ([fsz al] & E1%union_at_later & (u & Eu%(is_tag_ext H H' Hext) & E)%obind_Ok_inv)%obind_Ok_inv. unfold inline_at. rewrite E1. cbn.
  unfold jl_is_uniontype. rewrite Eu. cbn. destruct u; [done |].
  apply obind_Ok_inv in E as (q & Eq & (isd & Ei & (d & Ed & (ly & El & E)%obind_Ok_inv)%obind_Ok_inv)%obind_Ok_inv).
  rewrite (normalize_ext H H' Hext _ _ Eq). cbn. unfold jl_is_datatype. rewrite (is_tag_ext H H' Hext _ _ _ Ei). cbn. destruct (get_datatype_ext H H' Hext _ _ Ed) as (d' & -> & Hd). cbn.
  by destruct (the_layout_later _ _ _ Hd El) as [-> ->].
Qed.
End Later.
End Inline.
