(* ===== verification/LayoutFacts.v ===== *)
(** * Layouts stay well formed

    [jl_compute_field_offsets] gives layouts to a type and to the types stored
    inline in it, and the heap stays one in which every layout agrees with the
    types of the fields ([layouts_wf]).  The layouts also have what egal
    relies on. *)

From stdpp Require Import base gmap numbers option list.
From Stdlib Require Import ZArith Lia.
From S2P Require Import Prelude Probe Identity Hashing Bytes Objects HeapMonad LayoutCore LayoutCoreFacts Layout LayoutHeap.

(** ** Well-formed heaps *)

(** What the layout of a type that is stored inline must satisfy. *)
Record basic (ly : jl_datatype_layout_t) : Prop := {
  ba_align : pow2 (alignment ly) /\ alignment ly < 2 ^ 16;
  ba_size : 0 <= size ly < 2 ^ 32;
  ba_npointers : npointers ly = Z.of_nat (length (ptrs ly));
  ba_first_ptr : first_ptr ly = default (-1) (head (ptrs ly));
  ba_ptrs : ptrs_in (size ly) (ptrs ly);
  ba_ptr_align : ptrs ly <> [] -> (8 | alignment ly);
  ba_opaque : jl_is_layout_opaque ly = false
}.

Section Wf.
Context (depth : nat) (rank : ptr -> nat).

(** [i] says how the field number [k], of type [fld], can be stored. *)
Definition field_for (H : heap) (d : jl_datatype_t) (nm : jl_typename_t) (firstty : ptr) (nf k : Z) (fld : ptr) (i : field_info) : Prop :=
  jl_field_isatomic H d k = Ok (fi_isatomic i) /\ (slot_isptr i = true \/ inline_at depth H fld = Ok (fi_slot i)) /\
  fi_maybe_undef i = (nf - tn_n_uninitialized nm <=? k) /\ fi_first i = (firstty =? fld) /\
  (** Atomic unions are references. *)
  (fi_isatomic i = true -> slot_isptr i = true \/ jl_is_uniontype H fld = Ok false).

Fixpoint infos_for (H : heap) (d : jl_datatype_t) (nm : jl_typename_t) (firstty : ptr) (nf k : Z) (flds : list ptr) (fs : list field_info) : Prop :=
  match flds, fs with
  | [], [] => True
  | fld :: flds, i :: fs => field_for H d nm firstty nf k fld i /\ infos_for H d nm firstty nf (k + 1) flds fs
  | _, _ => False
  end.

(** The layout fits the types of the fields. *)
Definition struct_ok (H : heap) (d : jl_datatype_t) (ly : jl_datatype_layout_t) : Prop :=
  exists nm flds firstty fs, get_typename H (dt_name d) = Ok nm /\ get_svec H (dt_types d) = Ok flds /\ head flds = Some firstty /\
    infos_for H d nm firstty (Z.of_nat (length flds)) 0 flds fs /\ layout_spec fs ly.

(** *** When a field is a reference, and when it is stored inline *)

(** [p] is stored inline: it may be, has a layout, and has references only if
    they are allowed and the collector can find them. *)
Definition laid_inline (H : heap) (p : ptr) (pointerfree : bool) : Prop := exists d nm ly, get_datatype H p = Ok d /\
  get_typename H (dt_name d) = Ok nm /\ tn_mayinlinealloc nm = true /\ dt_layout d = Some ly /\ (pointerfree = true -> npointers ly <= 0) /\
  (0 < npointers ly -> tn_n_uninitialized nm = 0 /\ (fielddesc_type ly = JL_FIELDDESC_8 \/ fielddesc_type ly = JL_FIELDDESC_16)).

(** Why a type [q] is not stored inline.  That it has no layout, nor a fixed
    one, is said of the heap [H0] in which the question was asked. *)
Inductive type_refused (H : heap) (pointerfree : bool) (q : ptr) : Prop :=
| tr_other : jl_is_datatype H q = Ok false -> type_refused H pointerfree q
| tr_name d nm : get_datatype H q = Ok d -> get_typename H (dt_name d) = Ok nm -> tn_mayinlinealloc nm = false -> type_refused H pointerfree q
| tr_unfixed H0 d : H0 ⊑ H -> get_datatype H0 q = Ok d -> dt_layout d = None -> jl_has_fixed_layout H0 depth q = Ok false -> type_refused H pointerfree q
| tr_pointers d nm ly : get_datatype H q = Ok d -> get_typename H (dt_name d) = Ok nm -> dt_layout d = Some ly -> 0 < npointers ly ->
    pointerfree = true \/ tn_n_uninitialized nm <> 0 \/ (fielddesc_type ly <> JL_FIELDDESC_8 /\ fielddesc_type ly <> JL_FIELDDESC_16) ->
    type_refused H pointerfree q.

(** A part of a field type is not stored inline; parts of unions may not have
    references.  The parts are counted in 32 bits, where 0 is a refusal. *)
Inductive refused (H : heap) : bool -> ptr -> Prop :=
| rf_left pf ty a : jl_is_uniontype H ty = Ok true -> ptr_field H ty 0 = Ok a -> refused H true a -> refused H pf ty
| rf_right pf ty b : jl_is_uniontype H ty = Ok true -> ptr_field H ty 1 = Ok b -> refused H true b -> refused H pf ty
| rf_leaf pf ty q : jl_is_uniontype H ty = Ok false -> normalize_typeofbottom_layout_alias H ty = Ok q -> type_refused H pf q -> refused H pf ty
| rf_wrapped pf ty n c : union_count H n ty = Ok c -> u32 c = 0 -> refused H pf ty.

Definition crowded (H : heap) (ty : ptr) : Prop := exists c, union_count H depth ty = Ok c /\ 127 <= u32 c.

(** A field that is a reference: one of the reasons above holds, or it is
    atomic and not of a data type; [pe] is what the code found about comparing
    such references. *)
Definition reference_field (H : heap) (isatomic : bool) (fld : ptr) (pe : bool) : Prop :=
  (refused H false fld \/ crowded H fld \/
   (isatomic = true /\ exists q, normalize_typeofbottom_layout_alias H fld = Ok q /\ jl_is_datatype H q = Ok false)) /\
  exists H0, H0 ⊑ H /\ jl_pointer_egal H0 depth depth fld = Ok pe.

(** A field that is stored inline: a union of less than 127 parts, or a type
    that is. *)
Definition inline_field (H : heap) (fld : ptr) : Prop :=
  (exists c, union_count H depth fld = Ok c /\ 0 < u32 c < 127) /\
  (jl_is_uniontype H fld = Ok true \/ exists q, jl_is_uniontype H fld = Ok false /\ normalize_typeofbottom_layout_alias H fld = Ok q /\ laid_inline H q false).

Definition choice_for (H : heap) (fld : ptr) (i : field_info) : Prop :=
  match fi_slot i with SPointer pe => reference_field H (fi_isatomic i) fld pe | _ => inline_field H fld end.

(** The alignment of a tuple of vector elements, from the size of the primitive
    type in them. *)
Definition vector_at (H : heap) (nf : Z) (t : ptr) : outcome Z :=
  let! ve := jl_is_vecelement_type H t in
  if negb ve then Ok 0
  else
    let! d := get_datatype H t in
    let! ty := jl_field_type H d 0 in
    let! prim := jl_is_primitivetype H ty in
    if negb prim then Ok 0
    else
      let! d := get_datatype H ty in
      let! ly := the_layout d in
      if negb (next_power_of_two (size ly) =? size ly) then Ok 0 else Ok (next_power_of_two (u64 (nf * size ly))).

Definition vector_for (H : heap) (p : ptr) (firstty : ptr) (fs : list field_info) (v : option Z) : Prop :=
  v = None \/ exists al, v = Some al /\ forallb fi_first fs = true /\ jl_is_tuple_type H p = Ok true /\
    vector_at H (Z.of_nat (length fs)) firstty = Ok al.

(** The type [p] had a layout to compute: when it had none, it was concrete,
    or had a fixed layout, or no free type variables. *)
Definition determined (H : heap) (p : ptr) : Prop := exists H0 d, H0 ⊑ H /\ get_datatype H0 p = Ok d /\ dt_layout d = None /\
  (dt_isconcretetype d = true \/ jl_has_fixed_layout H0 depth p = Ok true \/ jl_has_free_typevars H0 depth p = Ok false).

(** The layout is the one for the fields of [p], each a reference or inline as
    it has to be. *)
Definition struct_exact (H : heap) (p : ptr) (d : jl_datatype_t) (ly : jl_datatype_layout_t) : Prop :=
  determined H p /\
  exists nm flds firstty fs v, get_typename H (dt_name d) = Ok nm /\ get_svec H (dt_types d) = Ok flds /\ head flds = Some firstty /\
    infos_for H d nm firstty (Z.of_nat (length flds)) 0 flds fs /\ Forall2 (choice_for H) flds fs /\ vector_for H p firstty fs v /\
    layout_of_fields v fs = Ok (inr (ly, dt_zeroinit d)) /\ layout_spec fs ly.

Definition laid_out (H : heap) (p : ptr) (d : jl_datatype_t) (ly : jl_datatype_layout_t) : Prop :=
  struct_exact H p d ly \/
  (** or it is the layout of the wrapper *)
  exists nm w dw, get_typename H (dt_name d) = Ok nm /\ jl_unwrap_unionall H depth (tn_wrapper nm) = Ok w /\ get_datatype H w = Ok dw /\
    dt_layout dw = Some ly /\ dt_zeroinit dw = dt_zeroinit d /\ struct_exact H w dw ly.

Definition inline_wf (H : heap) : Prop := forall p d ly nm, get_datatype H p = Ok d -> dt_layout d = Some ly ->
  get_typename H (dt_name d) = Ok nm -> tn_mayinlinealloc nm = true -> basic ly.

Record layouts_wf (H : heap) : Prop := {
  lw_inline : inline_wf H;
  lw_struct : forall p d ly, get_datatype H p = Ok d -> dt_layout d = Some ly -> 0 < nfields ly -> laid_out H p d ly
}.

Lemma struct_exact_ok H p d ly : struct_exact H p d ly -> struct_ok H d ly.
Proof. intros [_ (nm & flds & ty & fs & v & En & Ef & Eh & Hi & _ & _ & _ & Hs)]. by exists nm, flds, ty, fs. Qed.

(** A field type: the types that may be stored inline in it have a lower
    rank. *)
Inductive field_ok (H : heap) (r : nat) : ptr -> Prop :=
| fo_union fld a b : jl_is_uniontype H fld = Ok true -> ptr_field H fld 0 = Ok a -> ptr_field H fld 1 = Ok b ->
    field_ok H r a -> field_ok H r b -> field_ok H r fld
| fo_leaf fld q : jl_is_uniontype H fld = Ok false -> normalize_typeofbottom_layout_alias H fld = Ok q ->
    (forall d nm, get_datatype H q = Ok d -> get_typename H (dt_name d) = Ok nm -> tn_mayinlinealloc nm = true -> (rank q < r)%nat) ->
    field_ok H r fld.

(** The types of the program: no struct is stored inline in itself. *)
Record wf_types (H : heap) : Prop := {
  wt_wrapper : forall p d nm, get_datatype H p = Ok d -> get_typename H (dt_name d) = Ok nm -> tn_wrapper nm <> 0 ->
    exists w dw, jl_unwrap_unionall H depth (tn_wrapper nm) = Ok w /\ get_datatype H w = Ok dw /\ dt_name dw = dt_name d;
  wt_opaque : forall p d nm, get_datatype H p = Ok d -> get_typename H (dt_name d) = Ok nm -> tn_mayinlinealloc nm = true ->
    dt_name d <> jl_genericmemory_typename H /\ p ∉ map (small_typeof H) [jl_symbol_tag; jl_string_tag; jl_simplevector_tag; jl_module_tag];
  wt_primitive : forall p d, get_datatype H p = Ok d -> dt_isprimitivetype d = true ->
    exists ly, dt_layout d = Some ly /\ jl_is_layout_opaque ly = false;
  wt_fields : forall p d flds, get_datatype H p = Ok d -> get_svec H (dt_types d) = Ok flds -> Forall (field_ok H (rank p)) flds;
  wt_memory : forall p d t, get_datatype H p = Ok d -> dt_name d = jl_genericmemory_typename H -> jl_tparam H d 1 = Ok t ->
    jl_is_type H t = Ok false \/ field_ok H (rank p) t
}.

(** The layouts of all types fit the widths of descriptors. *)
Definition types_fit (H : heap) : Prop := forall p d nm flds firstty fs v,
  get_datatype H p = Ok d -> get_typename H (dt_name d) = Ok nm -> get_svec H (dt_types d) = Ok flds -> head flds = Some firstty ->
  infos_for H d nm firstty (Z.of_nat (length flds)) 0 flds fs -> vector_for H p firstty fs v -> fits v fs.

(** ** Later heaps *)

Section Later.
Context (H H' : heap) (Hext : H ⊑ H').

Lemma isatomic_later d d' k b : same_type d d' -> jl_field_isatomic H d k = Ok b -> jl_field_isatomic H' d' k = Ok b.
Proof.
  intros Hd (nm & En%(get_typename_ext H H' Hext) & E)%obind_Ok_inv. unfold jl_field_isatomic. by rewrite (st_name _ _ Hd), En.
Qed.

Lemma infos_for_later d d' nm ty nf flds : forall k fs, same_type d d' -> infos_for H d nm ty nf k flds fs -> infos_for H' d' nm ty nf k flds fs.
Proof.
  induction flds as [| fld flds IH]; intros k [| i fs] Hd; cbn; try done. intros [(Ha & Hs & Hu & Hf & Hat) Hi]. split; [| by apply IH].
  split; [by eapply isatomic_later |]. split; [destruct Hs as [? | Hs]; [by left |]; right; by apply (inline_at_later depth H H' Hext) |].
  split; [done |]. split; [done |]. intros E. destruct (Hat E) as [? | ?]; [by left | right; by apply (is_tag_ext H H' Hext)].
Qed.

Lemma struct_ok_later d d' ly : same_type d d' -> struct_ok H d ly -> struct_ok H' d' ly.
Proof.
  intros Hd (nm & flds & ty & fs & En & Ef & Eh & Hi & Hs). exists nm, flds, ty, fs. rewrite (st_name _ _ Hd), (st_types _ _ Hd).
  split; [by apply (get_typename_ext H H' Hext) |]. split; [by apply (get_svec_ext H H' Hext) |]. split; [done |]. split; [by eapply infos_for_later | done].
Qed.

Lemma field_ok_later r fld : field_ok H r fld -> field_ok H' r fld.
Proof.
  induction 1 as [fld a b Hu Ha Hb _ IHa _ IHb | fld q Hu Hq Hr].
  - eapply fo_union; [by apply (is_tag_ext H H' Hext) | by apply (ptr_field_ext H H' Hext) | by apply (ptr_field_ext H H' Hext) | done | done].
  - eapply fo_leaf; [by apply (is_tag_ext H H' Hext) | by apply (normalize_ext H H' Hext) |]. intros d nm Ed En Hm.
    destruct (get_datatype_old H H' Hext _ _ Ed) as (d0 & Ed0 & Hd). rewrite (st_name _ _ Hd) in En.
    apply (Hr d0 nm Ed0); [by apply (get_typename_old H H' Hext) | done].
Qed.

Lemma is_named_later (name : heap -> ptr) p b : (forall m, name (with_objects H m) = name H) -> is_named H (name H) p = Ok b -> is_named H' (name H') p = Ok b.
Proof.
  intros Hn (x & Ex%(is_tag_ext H H' Hext) & E)%obind_Ok_inv. unfold is_named, jl_is_datatype. rewrite Ex, (globals_eq H H' Hext name) by done. cbn.
  destruct x; [| done]. apply obind_Ok_inv in E as (d & (d' & Ed & Hd)%(get_datatype_ext H H' Hext) & [= <-]). rewrite Ed. cbn. by rewrite (st_name _ _ Hd).
Qed.

Lemma vector_at_later nf t al : vector_at H nf t = Ok al -> vector_at H' nf t = Ok al.
Proof.
  intros (ve & Ev%(is_named_later jl_vecelement_typename) & E)%obind_Ok_inv; [| done]. unfold vector_at, jl_is_vecelement_type. rewrite Ev. cbn.
  destruct ve; [| done]. apply obind_Ok_inv in E as (d & (d' & Ed & Hd)%(get_datatype_ext H H' Hext) & E). rewrite Ed. cbn.
  apply obind_Ok_inv in E as (ty & (l & El%(get_svec_ext H H' Hext) & Er)%obind_Ok_inv & E). unfold jl_field_type. rewrite (st_types _ _ Hd), El. cbn [obind]. rewrite Er. cbn [obind].
  apply obind_Ok_inv in E as (pr & Ep%(is_primitivetype_ext H H' Hext) & E). rewrite Ep. cbn. destruct pr; [| done].
  apply obind_Ok_inv in E as (dp & (dp' & Edp & Hdp)%(get_datatype_ext H H' Hext) & E). rewrite Edp. cbn.
  apply obind_Ok_inv in E as (ly & Ely & E). destruct (the_layout_later _ _ _ Hdp Ely) as [-> _]. by cbn.
Qed.

Lemma vector_for_later p ty fs v : vector_for H p ty fs v -> vector_for H' p ty fs v.
Proof.
  intros [-> | (al & -> & Hf & Ht & Ha)]; [by left |]. right. exists al. split; [done |]. split; [done |].
  split; [by apply (is_named_later jl_tuple_typename) | by apply vector_at_later].
Qed.

Lemma types_fit_earlier : types_fit H' -> types_fit H.
Proof.
  intros HF p d nm flds ty fs v Ed En Ef Eh Hi Hv. destruct (get_datatype_ext H H' Hext _ _ Ed) as (d' & Ed' & Hd).
  apply (HF p d' nm flds ty fs v); [done | | | done | by eapply infos_for_later | by apply vector_for_later].
  - rewrite (st_name _ _ Hd). by apply (get_typename_ext H H' Hext).
  - rewrite (st_types _ _ Hd). by apply (get_svec_ext H H' Hext).
Qed.

Lemma laid_inline_later p pf : laid_inline H p pf -> laid_inline H' p pf.
Proof.
  intros (d & nm & ly & Ed & En & Em & El & Hp). destruct (get_datatype_ext H H' Hext _ _ Ed) as (d' & Ed' & Hd). exists d', nm, ly.
  rewrite (st_name _ _ Hd). split; [done |]. split; [by apply (get_typename_ext H H' Hext) |]. split; [done |]. split; [by apply (st_layout _ _ Hd) | done].
Qed.

Lemma type_refused_later pf q : type_refused H pf q -> type_refused H' pf q.
Proof.
  intros [Ei | d nm Ed En Em | H0 d Hx Ed El Hf | d nm ly Ed En El Hn Hr].
  - apply tr_other. by apply (is_tag_ext H H' Hext).
  - destruct (get_datatype_ext H H' Hext _ _ Ed) as (d' & Ed' & Hd). apply (tr_name H' pf q d' nm); [done | | done]. rewrite (st_name _ _ Hd). by apply (get_typename_ext H H' Hext).
  - apply (tr_unfixed H' pf q H0 d); try done. by etrans.
  - destruct (get_datatype_ext H H' Hext _ _ Ed) as (d' & Ed' & Hd). apply (tr_pointers H' pf q d' nm ly); try done; [| by apply (st_layout _ _ Hd)].
    rewrite (st_name _ _ Hd). by apply (get_typename_ext H H' Hext).
Qed.

Lemma refused_later pf ty : refused H pf ty -> refused H' pf ty.
Proof.
  induction 1 as [pf ty a Hu Ea _ IH | pf ty b Hu Eb _ IH | pf ty q Hu Eq Hr | pf ty n c Ec Hc].
  - eapply rf_left; [by apply (is_tag_ext H H' Hext) | by apply (ptr_field_ext H H' Hext) | done].
  - eapply rf_right; [by apply (is_tag_ext H H' Hext) | by apply (ptr_field_ext H H' Hext) | done].
  - eapply rf_leaf; [by apply (is_tag_ext H H' Hext) | by apply (normalize_ext H H' Hext) | by apply type_refused_later].
  - apply (rf_wrapped H' pf ty n c); [by apply (union_count_later H H' Hext) | done].
Qed.

Lemma crowded_later ty : crowded H ty -> crowded H' ty.
Proof. intros (c & Ec & Hc). exists c. split; [by apply (union_count_later H H' Hext) | done]. Qed.

Lemma reference_field_later a fld pe : reference_field H a fld pe -> reference_field H' a fld pe.
Proof.
  intros [Hw (H0 & Hx & E)]. split; [| exists H0; split; [by etrans | done]].
  destruct Hw as [Hr | [Hc | (Ha & q & Eq & Ei)]]; [left; by apply refused_later | right; left; by apply crowded_later |].
  right; right. split; [done |]. exists q. split; [by apply (normalize_ext H H' Hext) | by apply (is_tag_ext H H' Hext)].
Qed.

Lemma inline_field_later fld : inline_field H fld -> inline_field H' fld.
Proof.
  intros [(c & Ec & Hc) Hl]. split; [exists c; split; [by apply (union_count_later H H' Hext) | done] |].
  destruct Hl as [Hu | (q & Hu & Eq & Hl)]; [left; by apply (is_tag_ext H H' Hext) |]. right. exists q.
  split; [by apply (is_tag_ext H H' Hext) |]. split; [by apply (normalize_ext H H' Hext) | by apply laid_inline_later].
Qed.

Lemma choices_later flds fs : Forall2 (choice_for H) flds fs -> Forall2 (choice_for H') flds fs.
Proof.
  intros HC. eapply Forall2_impl; [exact HC |]. intros fld i. unfold choice_for. destruct (fi_slot i); [apply reference_field_later | apply inline_field_later ..].
Qed.

Lemma determined_later p : determined H p -> determined H' p.
Proof. intros (H0 & d & Hx & Hd). exists H0, d. split; [by etrans | done]. Qed.

Lemma struct_exact_later p d d' ly : same_type d d' -> dt_zeroinit d' = dt_zeroinit d -> struct_exact H p d ly -> struct_exact H' p d' ly.
Proof.
  intros Hd Hz [Ht (nm & flds & ty & fs & v & En & Ef & Eh & Hi & Hc & Hv & El & Hs)]. split; [by apply determined_later |]. exists nm, flds, ty, fs, v.
  rewrite (st_name _ _ Hd), (st_types _ _ Hd), Hz. split; [by apply (get_typename_ext H H' Hext) |]. split; [by apply (get_svec_ext H H' Hext) |]. split; [done |].
  split; [by eapply infos_for_later |]. split; [by apply choices_later |]. split; [by apply vector_for_later | done].
Qed.

Lemma laid_out_later p d d' ly : same_type d d' -> dt_zeroinit d' = dt_zeroinit d -> laid_out H p d ly -> laid_out H' p d' ly.
Proof.
  intros Hd Hz [Hs | (nm & w & dw & En & Ew & Edw & El & Hzw & Hs)]; [left; by apply (struct_exact_later p d) |]. right.
  destruct (get_datatype_ext H H' Hext _ _ Edw) as (dw' & Edw' & Hdw). destruct (st_layout _ _ Hdw ly El) as [El' Hz']. exists nm, w, dw'. rewrite (st_name _ _ Hd).
  split; [by apply (get_typename_ext H H' Hext) |]. split; [by apply (unwrap_ext H H' Hext) |]. split; [done |]. split; [done |]. split; [congruence |].
  by apply (struct_exact_later w dw).
Qed.

Lemma wf_types_later : wf_types H -> wf_types H'.
Proof.
  intros [Hw Ho Hp Hf Hm]. split.
  - intros p d nm Ed En Hn. destruct (get_datatype_old H H' Hext _ _ Ed) as (d0 & Ed0 & Hd). rewrite (st_name _ _ Hd) in En |- *.
    apply (get_typename_old H H' Hext) in En. destruct (Hw p d0 nm Ed0 En Hn) as (w & dw & Ew & Edw & Enw).
    destruct (get_datatype_ext H H' Hext _ _ Edw) as (dw' & Edw' & Hdw). exists w, dw'. split; [by apply (unwrap_ext H H' Hext) |].
    split; [done |]. by rewrite (st_name _ _ Hdw).
  - intros p d nm Ed En Hin. destruct (get_datatype_old H H' Hext _ _ Ed) as (d0 & Ed0 & Hd). rewrite (st_name _ _ Hd) in En |- *.
    apply (get_typename_old H H' Hext) in En. rewrite (globals_eq H H' Hext jl_genericmemory_typename), (globals_eq H H' Hext small_typeof) by done. by eapply Ho.
  - intros p d Ed Hpr. destruct (get_datatype_old H H' Hext _ _ Ed) as (d0 & Ed0 & Hd). rewrite (st_isprimitivetype _ _ Hd) in Hpr.
    destruct (Hp p d0 Ed0 Hpr) as (ly & El & Hop). exists ly. split; [by apply (st_layout _ _ Hd) | done].
  - intros p d flds Ed Ef. destruct (get_datatype_old H H' Hext _ _ Ed) as (d0 & Ed0 & Hd). rewrite (st_types _ _ Hd) in Ef.
    apply (get_svec_old H H' Hext) in Ef. eapply Forall_impl; [by eapply Hf |]. apply field_ok_later.
  - intros p d t Ed En Et. destruct (get_datatype_old H H' Hext _ _ Ed) as (d0 & Ed0 & Hd). rewrite (st_name _ _ Hd), (globals_eq H H' Hext jl_genericmemory_typename) in En by done.
    unfold jl_tparam in Et. rewrite (st_parameters _ _ Hd) in Et. apply obind_Ok_inv in Et as (l & El%(get_svec_old H H' Hext) & Er).
    destruct (Hm p d0 t Ed0 En) as [Ht | Ht]; [unfold jl_tparam; by rewrite El | left | right; by apply field_ok_later].
    apply obind_Ok_inv in Ht as (x & Ex%(typetagof_ext H H' Hext) & Hx). unfold jl_is_type. by rewrite Ex.
Qed.

Lemma inline_wf_earlier : inline_wf H' -> inline_wf H.
Proof.
  intros HI p d ly nm Ed El En. destruct (get_datatype_ext H H' Hext _ _ Ed) as (d' & Ed' & Hd). apply (HI p d' ly nm Ed').
  - by apply (st_layout _ _ Hd).
  - rewrite (st_name _ _ Hd). by apply (get_typename_ext H H' Hext).
Qed.
End Later.

(** ** Steps of the computation

    A step extends the heap, does not touch types of rank [n] or more, and
    keeps layouts well formed if those of the final heap [Hf] fit. *)
Definition untouched (n : nat) (H H' : heap) : Prop := forall p d, (n <= rank p)%nat -> get_datatype H p = Ok d -> get_datatype H' p = Ok d.

Record step (n : nat) (H H' : heap) : Prop := {
  step_extends : H ⊑ H';
  step_untouched : untouched n H H';
  step_layouts : forall Hf, H' ⊑ Hf -> types_fit Hf -> layouts_wf H -> layouts_wf H'
}.

Definition safe {A} (n : nat) (H : heap) (m : M A) : Prop := forall r H', m H = Ok (r, H') -> step n H H'.

#[local] Instance step_preorder n : PreOrder (step n).
Proof.
  split; [intros H; split; [reflexivity | by intros ? | by intros ?] |]. intros H1 H2 H3 [E1 U1 L1] [E2 U2 L2]. split; [by etrans | |].
  - intros p d Hr Hd. by apply U2, U1.
  - intros Hf Hext HF HL. apply (L2 Hf Hext HF). by apply (L1 Hf); [etrans | |].
Qed.

Lemma step_mono n m H H' : (n <= m)%nat -> step n H H' -> step m H H'.
Proof. intros Hle [E U L]. split; [done | | done]. intros p d Hr. apply U. lia. Qed.

Lemma safe_ret {A} n H (a : A) : safe n H (ret a).
Proof. intros r H' [= <- <-]. done. Qed.

Lemma safe_reads {A} n H (f : heap -> outcome A) : safe n H (reads f).
Proof. intros r H' (a & _ & _ & ->)%reads_inv. done. Qed.

Lemma safe_undefined {A} n H : safe n H (@undefined A).
Proof. done. Qed.

Lemma safe_throw {A} n H e : safe n H (@throw A e).
Proof. by intros r H' [= <- <-]. Qed.

Lemma safe_bind {A B} n H (m : M A) (k : A -> M B) :
  safe n H m -> (forall a H1, m H = Ok (Ret a, H1) -> step n H H1 -> safe n H1 (k a)) -> safe n H (bind m k).
Proof.
  intros Hm Hk r H' [(exc & E & ->) | (a & H1 & E & Ek)]%bind_inv; [by eapply Hm |].
  pose proof (Hm _ _ E) as S1. etrans; [done |]. by eapply Hk.
Qed.

(** ** What is stored inline *)

Lemma the_layout_Some d ly : the_layout d = Ok ly <-> dt_layout d = Some ly.
Proof. unfold the_layout. destruct (dt_layout d); split; congruence. Qed.

Lemma own_layout_used H d ly : dt_layout d = Some ly -> jl_is_layout_opaque ly = false -> jl_datatype_layout H depth d = Ok ly.
Proof. intros E Ho. unfold jl_datatype_layout. by rewrite E, Ho. Qed.

Section Inline.
Context (compute : ptr -> M unit) (n : nat).
Context (Hcompute : forall p H r H' d, (rank p < n)%nat -> wf_types H -> get_datatype H p = Ok d -> dt_layout d = None ->
  compute p H = Ok (r, H') -> step n H H').

Definition low_rank (H : heap) (p : ptr) : Prop :=
  forall d nm, get_datatype H p = Ok d -> get_typename H (dt_name d) = Ok nm -> tn_mayinlinealloc nm = true -> (rank p < n)%nat.

Lemma try_layout_safe p H : (rank p < n)%nat -> wf_types H -> safe n H (jl_struct_try_layout depth compute p).
Proof.
  intros Hr Hw. unfold jl_struct_try_layout. intros r H' (d & Ed & E)%bind_reads. revert r H' E. apply safe_bind; [apply safe_reads |].
  intros gm H1 (b & _ & [= <-] & ->)%reads_inv _. destruct (is_some (dt_layout d) || gm) eqn:Es; [apply safe_ret |].
  apply safe_bind; [apply safe_reads |]. intros fixed H1 (b & _ & [= <-] & ->)%reads_inv _. destruct (negb fixed); [apply safe_ret |].
  apply safe_bind.
  - intros r H' E. eapply Hcompute; try done. destruct (dt_layout d); [done | done].
  - intros _ H1 _ _. apply safe_bind; [apply safe_reads |]. intros dt H2 _ _. destruct (is_some (dt_layout dt)); [apply safe_ret | apply safe_undefined].
Qed.

Lemma isinlinealloc_safe p pf H : low_rank H p -> wf_types H -> safe n H (jl_datatype_isinlinealloc depth compute p pf).
Proof.
  intros Hr Hw. unfold jl_datatype_isinlinealloc. intros r H' (d & Ed & (nm & En & E)%bind_reads)%bind_reads. revert r H' E.
  destruct (tn_mayinlinealloc nm) eqn:Em; [| apply safe_ret]. apply safe_bind; [apply try_layout_safe; [by eapply Hr | done] |].
  intros b H1 _ _. destruct b; [| apply safe_ret]. apply safe_bind; [apply safe_reads |]. intros dt H2 _ _.
  apply safe_bind; [apply safe_reads |]. intros ly H3 _ _. repeat case_match; apply safe_ret.
Qed.

Lemma isinlinealloc_true p pf H H' : low_rank H p -> wf_types H -> jl_datatype_isinlinealloc depth compute p pf H = Ok (Ret true, H') ->
  laid_inline H' p pf.
Proof.
  intros Hr Hw. unfold jl_datatype_isinlinealloc. intros (d & Ed & (nm & En & E)%bind_reads)%bind_reads.
  destruct (tn_mayinlinealloc nm) eqn:Em; [| done]. apply bind_Ret_inv in E as (b & H1 & E1 & E).
  pose proof (try_layout_safe p H (Hr d nm Ed En Em) Hw _ _ E1) as S1. destruct b; [| done].
  apply bind_reads in E as (d1 & Ed1 & (ly & El%the_layout_Some & E)%bind_reads).
  assert (Hd : dt_name d1 = dt_name d). { destruct (get_datatype_ext H H1 (step_extends _ _ _ S1) _ _ Ed) as (d1' & Ed1' & Hd). rewrite Ed1 in Ed1'. injection Ed1' as ->. apply Hd. }
  assert (Hk : forall x : bool, ret x H1 = Ok (Ret true, H') -> x = true /\ H' = H1) by (intros x [= -> ->]; done).
  assert (En1 : get_typename H1 (dt_name d1) = Ok nm) by (rewrite Hd; by apply (get_typename_ext H H1 (step_extends _ _ _ S1))).
  exists d1, nm, ly. destruct (Z.ltb_spec 0 (npointers ly)) as [Hp | Hp].
  - destruct pf; [by apply Hk in E as [[=] _] |]. destruct (Z.eqb_spec (tn_n_uninitialized nm) 0) as [Hu | Hu]; cbn [negb] in E; [| by apply Hk in E as [[=] _]].
    apply Hk in E as [Hfd ->]. split; [done |]. split; [done |]. split; [done |]. split; [done |]. split; [done |]. intros _. split; [done |].
    destruct (fielddesc_type ly); try done; by auto.
  - apply Hk in E as [_ ->]. split; [done |]. split; [done |]. split; [done |]. split; [done |]. split; [done | lia].
Qed.

(** Why a type is not stored inline. *)
Lemma isinlinealloc_false p pf H H' : low_rank H p -> wf_types H -> jl_datatype_isinlinealloc depth compute p pf H = Ok (Ret false, H') ->
  type_refused H' pf p.
Proof.
  intros Hr Hw. unfold jl_datatype_isinlinealloc. intros (d & Ed & (nm & En & E)%bind_reads)%bind_reads.
  destruct (tn_mayinlinealloc nm) eqn:Em; [| injection E as <-; by eapply tr_name]. apply bind_Ret_inv in E as (b & H1 & E1 & E).
  pose proof (step_extends _ _ _ (try_layout_safe p H (Hr d nm Ed En Em) Hw _ _ E1)) as Hx. destruct b.
  - apply bind_reads in E as (d1 & Ed1 & (ly & El%the_layout_Some & E)%bind_reads).
    destruct (get_datatype_ext H H1 Hx _ _ Ed) as (d1' & Ed1' & Hd). rewrite Ed1 in Ed1'. injection Ed1' as <-.
    assert (En1 : get_typename H1 (dt_name d1) = Ok nm) by (rewrite (st_name _ _ Hd); by apply (get_typename_ext H H1 Hx)).
    assert (Hk : forall x : bool, ret x H1 = Ok (Ret false, H') -> x = false /\ H' = H1) by (intros x [= -> ->]; done).
    destruct (Z.ltb_spec 0 (npointers ly)) as [Hp | _]; [| by apply Hk in E as [[=] _]].
    destruct pf; [apply Hk in E as [_ ->]; apply (tr_pointers H1 true p d1 nm ly); try done; by left |].
    destruct (Z.eqb_spec (tn_n_uninitialized nm) 0) as [Hu | Hu]; cbn [negb] in E;
      apply Hk in E as [E ->]; apply (tr_pointers H1 false p d1 nm ly); try done; right; [right; by destruct (fielddesc_type ly) | by left].
  - injection E as <-. unfold jl_struct_try_layout in E1. apply bind_reads in E1 as (d' & Ed' & (gm & _ & E1)%bind_reads). rewrite Ed in Ed'. injection Ed' as <-.
    destruct (is_some (dt_layout d) || gm) eqn:Es; [done |]. apply bind_reads in E1 as (fixed & Ef & E1). destruct fixed; cbn [negb] in E1.
    + apply bind_Ret_inv in E1 as (u & H2 & _ & (d2 & _ & E1)%bind_reads). by destruct (is_some (dt_layout d2)).
    + injection E1 as <-. apply orb_false_elim in Es as [Es _]. apply (tr_unfixed H pf p H d); try done. by destruct (dt_layout d).
Qed.

Lemma low_rank_later H H' p : H ⊑ H' -> low_rank H p -> low_rank H' p.
Proof.
  intros Hext Hr d nm Ed En. destruct (get_datatype_old H H' Hext _ _ Ed) as (d0 & Ed0 & Hd). rewrite (st_name _ _ Hd) in En.
  apply (Hr d0 nm Ed0). by apply (get_typename_old H H' Hext).
Qed.

(** The two cases of a field type. *)
Lemma field_ok_union H fld : field_ok H n fld -> jl_is_uniontype H fld = Ok true ->
  exists a b, ptr_field H fld 0 = Ok a /\ ptr_field H fld 1 = Ok b /\ field_ok H n a /\ field_ok H n b.
Proof. intros [? a b | ? ? Hu] E; [by exists a, b | congruence]. Qed.

Lemma field_ok_leaf H fld q : field_ok H n fld -> jl_is_uniontype H fld = Ok false -> normalize_typeofbottom_layout_alias H fld = Ok q -> low_rank H q.
Proof. intros [? ? ? Hu | ? q' Hu Hq Hr] E Eq; [congruence |]. rewrite Eq in Hq. injection Hq as <-. exact Hr. Qed.

(** A part of a field that is stored inline, as the code sees it. *)
Lemma part_at_intro H p q pf sz al prim : inline_wf H -> normalize_typeofbottom_layout_alias H p = Ok q -> laid_inline H q pf ->
  jl_is_datatype H q = Ok true -> jl_datatype_size H depth q = Ok sz -> jl_datatype_align H depth q = Ok al -> jl_is_primitivetype H q = Ok prim ->
  part_at H p pf = Ok (if prim then LLT_ALIGN sz al else sz, al).
Proof.
  intros HI Eq (d & nm & ly & Ed & En & Em & El & Hp & _) Ei Es Ea Epr. pose proof (HI q d ly nm Ed El En Em) as Hb.
  unfold jl_datatype_size, jl_datatype_align, jl_is_primitivetype in *. rewrite Ed in *. rewrite Ei in Epr. cbn [obind] in *.
  rewrite (own_layout_used H d ly El (ba_opaque _ Hb)) in *. cbn [obind] in *. injection Es as <-. injection Ea as <-. injection Epr as <-.
  unfold part_at. rewrite Eq. cbn [obind]. rewrite Ed. cbn [obind]. rewrite En. cbn [obind].
  rewrite (proj2 (the_layout_Some d ly) El). cbn [obind]. rewrite Em, (ba_opaque _ Hb). cbn [negb orb].
  destruct pf; cbn [andb]; [| done]. destruct (Z.ltb_spec 0 (npointers ly)); [| done]. specialize (Hp eq_refl). lia.
Qed.

(** The last part of [union_isinlinable]. *)
Definition leaf_inlinable (ty : ptr) (pf : bool) (nb al : Z) : M (Z * Z * Z) :=
  let* ty := reads (fun H => normalize_typeofbottom_layout_alias H ty) in
  let* isd := reads (fun H => jl_is_datatype H ty) in
  let* inlined := if (isd : bool) then jl_datatype_isinlinealloc depth compute ty pf else ret false in
  if (inlined : bool) then
    let* sz := reads (fun H => jl_datatype_size H depth ty) in
    let* a := reads (fun H => jl_datatype_align H depth ty) in
    let* prim := reads (fun H => jl_is_primitivetype H ty) in
    let sz := if prim then LLT_ALIGN sz a else sz in
    ret (1, if nb <? sz then sz else nb, if al <? a then a else al)
  else ret (0, nb, al).

Lemma leaf_inlinable_spec ty pf nb al H r H' : field_ok H n ty -> wf_types H -> jl_is_uniontype H ty = Ok false ->
  leaf_inlinable ty pf nb al H = Ok (r, H') ->
  step n H H' /\ forall c nb' al', r = Ret (c, nb', al') -> c <> 0 -> inline_wf H' ->
    exists sz a, part_at H' ty pf = Ok (sz, a) /\ nb' = Z.max nb sz /\ al' = Z.max al a.
Proof.
  intros Hf Hw Hu (q & Eq & (isd & Ei & E)%bind_reads)%bind_reads. pose proof (field_ok_leaf H ty q Hf Hu Eq) as Hr. split.
  - revert r H' E. apply safe_bind; [destruct isd; [by apply isinlinealloc_safe | apply safe_ret] |]. intros b H1 _ _.
    destruct b; [| apply safe_ret]. do 3 (apply safe_bind; [apply safe_reads |]; intros ? ? _ _). apply safe_ret.
  - intros c nb' al' -> Hc HI. apply bind_Ret_inv in E as (b & H1 & E1 & E). destruct b; [| injection E as <- _ _ _; done].
    destruct isd; [| done]. pose proof (isinlinealloc_safe q pf H Hr Hw _ _ E1) as S1. pose proof (isinlinealloc_true q pf H H1 Hr Hw E1) as Hlaid.
    apply bind_reads in E as (sz & Es & (a & Ea & (prim & Epr & [= <- <- <- <-])%bind_reads)%bind_reads). pose proof (step_extends _ _ _ S1) as Hx.
    eexists _, a. split; [eapply part_at_intro; try done; [by apply (normalize_ext H H1 Hx) | by apply (is_tag_ext H H1 Hx)] |].
    split; [destruct (Z.ltb_spec nb (if prim then LLT_ALIGN sz a else sz)) | destruct (Z.ltb_spec al a)]; lia.
Qed.

Lemma union_isinlinable_leaf k ty pf nb al H : jl_is_uniontype H ty = Ok false ->
  union_isinlinable depth compute k ty pf nb al true H = leaf_inlinable ty pf nb al H.
Proof. intros Hu. destruct k; cbn [union_isinlinable]; unfold bind at 1, reads at 1; rewrite Hu; cbn [obind]; done. Qed.

Lemma union_at_leaf H k ty pf nb al sz a : jl_is_uniontype H ty = Ok false -> part_at H ty pf = Ok (sz, a) ->
  union_at H k ty pf nb al = Ok (Z.max nb sz, Z.max al a).
Proof. intros Hu Hp. destruct k; cbn [union_at]; rewrite Hu; cbn [obind]; by rewrite Hp. Qed.

Lemma union_isinlinable_spec k : forall ty pf nb al H r H', field_ok H n ty -> wf_types H ->
  union_isinlinable depth compute k ty pf nb al true H = Ok (r, H') ->
  step n H H' /\ forall c nb' al', r = Ret (c, nb', al') -> c <> 0 -> inline_wf H' -> union_at H' k ty pf nb al = Ok (nb', al').
Proof.
  assert (Hleaf : forall k ty pf nb al H r H', field_ok H n ty -> wf_types H -> jl_is_uniontype H ty = Ok false ->
    union_isinlinable depth compute k ty pf nb al true H = Ok (r, H') ->
    step n H H' /\ forall c nb' al', r = Ret (c, nb', al') -> c <> 0 -> inline_wf H' -> union_at H' k ty pf nb al = Ok (nb', al')).
  { intros k' ty pf nb al H r H' Hf Hw Hu E. rewrite union_isinlinable_leaf in E by done. destruct (leaf_inlinable_spec ty pf nb al H r H' Hf Hw Hu E) as [S P].
    split; [done |]. intros c nb' al' Er Hc HI. destruct (P c nb' al' Er Hc HI) as (sz & a & Ep & -> & ->).
    apply union_at_leaf; [by apply (is_tag_ext H H' (step_extends _ _ _ S)) | done]. }
  induction k as [| k IH]; intros ty pf nb al H r H' Hf Hw E.
  all: destruct (jl_is_uniontype H ty) as [[|] | |] eqn:Eu; [| by eapply Hleaf | |];
    cbn [union_isinlinable] in E; apply bind_reads in E as (u & Eu' & E); rewrite Eu in Eu'; try done; injection Eu' as <-.
  { done. }
  destruct (field_ok_union H ty Hf Eu) as (a & b & Ea & Eb & Ha & Hb). apply bind_reads in E as (a' & Ea' & E). rewrite Ea in Ea'. injection Ea' as <-.
  apply bind_inv in E as [(exc & E1 & ->) | ([[na nb1] al1] & H1 & E1 & E)]; destruct (IH a true nb al H _ _ Ha Hw E1) as [S1 P1]; [split; [done | done] |].
  destruct (Z.eqb_spec na 0) as [-> | Hna]; [injection E as <- <-; split; [done |]; by intros c nb' al' [= <- _ _] |].
  apply bind_reads in E as (b' & Eb' & E). pose proof (step_extends _ _ _ S1) as Hx1. rewrite (ptr_field_ext H H1 Hx1 _ _ _ Eb) in Eb'. injection Eb' as <-.
  apply bind_inv in E as [(exc & E2 & ->) | ([[nb0 nb2] al2] & H2 & E2 & E)];
    destruct (IH b true nb1 al1 H1 _ _ (field_ok_later H H1 Hx1 _ _ Hb) (wf_types_later H H1 Hx1 Hw) E2) as [S2 P2]; [split; [by etrans | done] |].
  assert (EH : H2 = H' /\ forall c nb' al', r = Ret (c, nb', al') -> c <> 0 -> nb0 <> 0 /\ nb2 = nb' /\ al2 = al').
  { destruct (Z.eqb_spec nb0 0) as [-> | Hnb]; injection E as <- <-; split; [done | by intros c nb' al' [= <- _ _] | done | intros c nb' al' [= <- <- <-]; done]. }
  destruct EH as [<- Hres]. split; [by etrans |]. intros c nb' al' Er Hc HI. destruct (Hres c nb' al' Er Hc) as (Hnb & <- & <-).
  pose proof (step_extends _ _ _ S2) as Hx2. cbn [union_at]. unfold jl_is_uniontype. rewrite (is_tag_ext H H2 (transitivity Hx1 Hx2) _ _ _ Eu). cbn [obind].
  rewrite (ptr_field_ext H H2 (transitivity Hx1 Hx2) _ _ _ Ea). cbn [obind].
  pose proof (P1 na nb1 al1 eq_refl Hna (inline_wf_earlier H1 H2 Hx2 HI)) as U1. rewrite (union_at_later H1 H2 Hx2 _ _ _ _ _ _ U1). cbn [obind].
  rewrite (ptr_field_ext H H2 (transitivity Hx1 Hx2) _ _ _ Eb). cbn [obind]. by apply (P2 nb0 nb2 al2).
Qed.

(** The number of parts, or why the type is not stored inline. *)
Definition counted (H : heap) (k : nat) (ty : ptr) (pf : bool) (c : Z) : Prop :=
  (c = 0 /\ refused H pf ty) \/
  (c <> 0 /\ (exists x, union_count H k ty = Ok x /\ c = u32 x) /\
   (jl_is_uniontype H ty = Ok true \/ exists q, jl_is_uniontype H ty = Ok false /\ normalize_typeofbottom_layout_alias H ty = Ok q /\ laid_inline H q pf)).

Lemma union_count_leaf H k ty : jl_is_uniontype H ty = Ok false -> union_count H k ty = Ok 1.
Proof. intros Hu. destruct k; cbn [union_count]; by rewrite Hu. Qed.

Lemma leaf_inlinable_count k ty pf nb al H c nb' al' H' : field_ok H n ty -> wf_types H -> jl_is_uniontype H ty = Ok false ->
  leaf_inlinable ty pf nb al H = Ok (Ret (c, nb', al'), H') -> counted H' k ty pf c.
Proof.
  intros Hf Hw Hu E. destruct (leaf_inlinable_spec ty pf nb al H _ _ Hf Hw Hu E) as [S _]. pose proof (step_extends _ _ _ S) as Hx.
  apply bind_reads in E as (q & Eq & (isd & Ei & E)%bind_reads). pose proof (field_ok_leaf H ty q Hf Hu Eq) as Hr. pose proof (is_tag_ext H H' Hx _ _ _ Hu) as Hu'.
  assert (Hleaf : type_refused H' pf q -> refused H' pf ty) by (intros ?; eapply rf_leaf; [done | by apply (normalize_ext H H' Hx) | done]).
  apply bind_Ret_inv in E as (b & H1 & E1 & E). destruct isd.
  - destruct b.
    + apply bind_reads in E as (sz & _ & (a & _ & (prim & _ & E)%bind_reads)%bind_reads). injection E as <- _ _ <-.
      right. split; [done |]. split; [exists 1; split; [by apply union_count_leaf | done] |]. right. exists q. split; [done |]. split; [by apply (normalize_ext H H1 Hx) | by eapply isinlinealloc_true].
    + injection E as <- _ _ <-. left. split; [done |]. apply Hleaf. by eapply isinlinealloc_false.
  - injection E1 as <- <-. injection E as <- _ _ <-. left. split; [done |]. apply Hleaf. by apply tr_other.
Qed.

Lemma u32_add_u32 x y : u32 (u32 x + u32 y) = u32 (x + y).
Proof. unfold u32. symmetry. apply Zplus_mod. Qed.

Lemma union_isinlinable_count k : forall ty pf nb al H c nb' al' H', field_ok H n ty -> wf_types H ->
  union_isinlinable depth compute k ty pf nb al true H = Ok (Ret (c, nb', al'), H') -> counted H' k ty pf c.
Proof.
  induction k as [| k IH]; intros ty pf nb al H c nb' al' H' Hf Hw E.
  all: destruct (jl_is_uniontype H ty) as [[|] | |] eqn:Eu; [| by rewrite union_isinlinable_leaf in E by done; eapply leaf_inlinable_count | |]; pose proof E as E0;
    cbn [union_isinlinable] in E; apply bind_reads in E as (u & Eu' & E); rewrite Eu in Eu'; try done; injection Eu' as <-.
  { done. }
  pose proof (step_extends _ _ _ (proj1 (union_isinlinable_spec (S k) ty pf nb al H _ _ Hf Hw E0))) as Hx. pose proof (is_tag_ext H H' Hx _ _ _ Eu : jl_is_uniontype H' ty = Ok true) as Hu.
  destruct (field_ok_union H ty Hf Eu) as (a & b & Ea & Eb & Ha & Hb). apply bind_reads in E as (a' & Ea' & E). rewrite Ea in Ea'. injection Ea' as <-.
  pose proof (ptr_field_ext H H' Hx _ _ _ Ea) as Ea'. pose proof (ptr_field_ext H H' Hx _ _ _ Eb) as Eb'.
  apply bind_Ret_inv in E as ([[na nb1] al1] & H1 & E1 & E). pose proof (step_extends _ _ _ (proj1 (union_isinlinable_spec k a true nb al H _ _ Ha Hw E1))) as Hx1.
  destruct (IH a true nb al H na nb1 al1 H1 Ha Hw E1) as [[-> Hr] | (Hna & (xa & Eca & ->) & _)].
  { injection E as <- _ _ <-. left. split; [done | by eapply rf_left]. }
  rewrite (proj2 (Z.eqb_neq _ _) Hna) in E. apply bind_reads in E as (b' & Eb1 & E). rewrite (ptr_field_ext H H1 Hx1 _ _ _ Eb) in Eb1. injection Eb1 as <-.
  apply bind_Ret_inv in E as ([[nb0 nb2] al2] & H2 & E2 & E).
  pose proof (field_ok_later H H1 Hx1 _ _ Hb) as Hb1. pose proof (wf_types_later H H1 Hx1 Hw) as Hw1.
  pose proof (step_extends _ _ _ (proj1 (union_isinlinable_spec k b true nb1 al1 H1 _ _ Hb1 Hw1 E2))) as Hx2.
  destruct (IH b true nb1 al1 H1 nb0 nb2 al2 H2 Hb1 Hw1 E2) as [[-> Hr] | (Hnb & (xb & Ecb & ->) & _)].
  { injection E as <- _ _ <-. left. split; [done | by eapply rf_right]. }
  rewrite (proj2 (Z.eqb_neq _ _) Hnb), u32_add_u32 in E. injection E as <- _ _ <-. apply (union_count_later H1 H2 Hx2) in Eca.
  assert (Ect : union_count H2 (S k) ty = Ok (xa + xb)) by (cbn [union_count]; rewrite Hu; cbn [obind]; rewrite Ea'; cbn [obind]; rewrite Eca; cbn [obind]; rewrite Eb'; cbn [obind]; by rewrite Ecb).
  destruct (Z.eq_dec (u32 (xa + xb)) 0) as [E0w | Hne]; [left; split; [done | by eapply rf_wrapped] |].
  right. split; [done |]. split; [by exists (xa + xb) | by left].
Qed.

Lemma is_tag_excl H t t' p : is_tag H t p = Ok true -> tag t <> tag t' -> is_tag H t' p = Ok false.
Proof.
  intros (x & Ex & [= ->%Z.eqb_eq])%obind_Ok_inv Hne. unfold is_tag. rewrite Ex. cbn [obind]. f_equal. by apply Z.eqb_neq.
Qed.

(** A union is its own layout type. *)
Lemma normalize_union H fld q : jl_is_uniontype H fld = Ok true -> normalize_typeofbottom_layout_alias H fld = Ok q -> q = fld.
Proof.
  intros Hu. unfold normalize_typeofbottom_layout_alias. destruct (_ =? 0); [by intros [= <-] |].
  unfold jl_is_typeeq. rewrite (is_tag_excl H _ jl_typeeq_tag fld Hu) by done. by intros [= <-].
Qed.

Lemma field_slot_spec isatomic fld H r H' : field_ok H n fld -> wf_types H -> field_slot depth compute isatomic fld H = Ok (r, H') ->
  step n H H' /\ forall s, r = Ret s -> inline_wf H' ->
    (exists pe, s = SPointer pe /\ reference_field H' isatomic fld pe) \/ (inline_at depth H' fld = Ok s /\ inline_field H' fld).
Proof.
  intros Hf Hw (q & Eq & E)%bind_reads.
  apply bind_inv in E as [(exc & E1 & ->) | ([[c fsz] al] & H1 & E1 & E)].
  - unfold jl_islayout_inline in E1. apply bind_inv in E1 as [(exc2 & E1 & _) | ([[? ?] ?] & H1 & E1 & E2)].
    + split; [| done]. by apply (union_isinlinable_spec depth fld false 0 1 H _ _ Hf Hw E1).
    + done.
  - unfold jl_islayout_inline in E1. apply bind_Ret_inv in E1 as ([[c' fsz'] al'] & H1' & E1 & [= Ec -> -> ->]).
    destruct (union_isinlinable_spec depth fld false 0 1 H _ _ Hf Hw E1) as [S1 P1]. pose proof (step_extends _ _ _ S1) as Hx.
    pose proof (union_isinlinable_count depth fld false 0 1 H _ _ _ _ Hf Hw E1) as Hcount. pose proof (normalize_ext H H1 Hx _ _ Eq) as Eq1.
    apply bind_reads in E as (isd & Ei & E). destruct (negb (c =? 0) && (negb isatomic || isd)) eqn:Ein.
    + apply andb_prop in Ein as [Hc%negb_true_iff%Z.eqb_neq _]. assert (Hc' : c' <> 0) by (intros ->; by apply Hc).
      assert (Hin : inline_field H1 fld).
      { destruct Hcount as [[? _] | (_ & (x & Ecx & Ex) & Hl)]; [done |]. split; [| done]. exists x. split; [done |]. rewrite <- Ex. rewrite <- Ec in Hc.
        destruct (Z.ltb_spec 0 c'), (Z.ltb_spec c' 127); cbn in Hc; lia. }
      apply bind_reads in E as (u & Eu & E). destruct u.
      * injection E as <- <-. split; [done |]. intros s [= <-] HI. right. split; [| done]. unfold inline_at. rewrite (P1 c' fsz al eq_refl Hc' HI). cbn [obind]. by rewrite Eu.
      * destruct isd; [| done]. cbn [negb] in E. apply bind_reads in E as (dsize & Es & (d & Ed & (ly & El & [= <- <-])%bind_reads)%bind_reads).
        split; [done |]. intros s [= <-] HI. right. split; [| done]. unfold inline_at. rewrite (P1 c' fsz al eq_refl Hc' HI). cbn [obind]. rewrite Eu. cbn [obind].
        rewrite (normalize_ext H H1 Hx _ _ Eq). cbn [obind]. rewrite Ei. cbn [obind]. rewrite Ed. cbn [obind]. rewrite El. cbn [obind]. do 2 f_equal.
        pose proof (P1 c' fsz al eq_refl Hc' HI) as U. clear -U Eu Eq Hx Ed El Es HI.
        assert (Hp : exists sz a, part_at H1 fld false = Ok (sz, a)) by (destruct depth; cbn [union_at] in U; rewrite Eu in U; cbn [obind] in U; apply obind_Ok_inv in U as ([sz a] & Ep & _); by eexists _, _).
        destruct Hp as (sz & a & Ep). unfold part_at in Ep. rewrite (normalize_ext H H1 Hx _ _ Eq) in Ep. cbn [obind] in Ep. rewrite Ed in Ep. cbn [obind] in Ep.
        apply obind_Ok_inv in Ep as (nm & En & Ep). rewrite El in Ep. cbn [obind] in Ep. apply the_layout_Some in El. destruct (jl_is_layout_opaque ly) eqn:Eop; [by rewrite orb_true_r in Ep |].
        unfold jl_datatype_size in Es. rewrite Ed in Es. cbn [obind] in Es. rewrite (own_layout_used H1 d ly El Eop) in Es. by injection Es.
    + apply bind_reads in E as (pe & Epe & [= <- <-]). split; [done |]. intros s [= <-] _. left. exists pe. split; [done |]. split; [| by exists H1].
      destruct Hcount as [[_ Hr] | (Hc & (x & Ecx & Ex) & _)]; [by left |]. right. destruct (Z.leb_spec 127 (u32 x)) as [Hbig | Hsm]; [left; by exists x |].
      right. rewrite Ex in Ec, Hc. assert (0 < u32 x) by (pose proof (u32_range x); lia). rewrite (proj2 (Z.ltb_lt 0 (u32 x))), (proj2 (Z.ltb_lt (u32 x) 127)) in Ec by lia. cbn in Ec.
      rewrite <- Ec, (proj2 (Z.eqb_neq _ _) Hc) in Ein. cbn [negb andb] in Ein. apply orb_false_elim in Ein as [Hat%negb_false_iff ->]. split; [done | by exists q].
Qed.

Lemma field_slot_atomic fld H s H' : H ⊑ H' -> field_slot depth compute true fld H = Ok (Ret s, H') -> (exists pe, s = SPointer pe) \/ jl_is_uniontype H' fld = Ok false.
Proof.
  intros Hx (q & Eq & E)%bind_reads. apply bind_Ret_inv in E as ([[c fsz] al] & H1 & E1 & (isd & Ei & E)%bind_reads).
  destruct (negb (c =? 0) && (negb true || isd)) eqn:Ec.
  - apply andb_prop in Ec as [_ Ec]. cbn in Ec. subst isd. apply bind_reads in E as (u & Eu & E). destruct u.
    { exfalso. injection E as <- <-. pose proof (normalize_union H1 fld q Eu (normalize_ext H H1 Hx _ _ Eq)) as ->. unfold jl_is_datatype in Ei.
      by rewrite (is_tag_excl H1 _ jl_datatype_tag fld Eu) in Ei. }
    right. cbn [negb] in E.
    apply bind_reads in E as (dsize & Es & (d & Ed & (ly & El & [= <- <-])%bind_reads)%bind_reads). done.
  - apply bind_reads in E as (pe & _ & [= <- <-]). left. by eexists.
Qed.

(** What is stored inline is well formed. *)
Lemma part_at_wf H p pf sz al : inline_wf H -> part_at H p pf = Ok (sz, al) -> 0 <= sz /\ pow2 al.
Proof.
  intros HI (q & _ & (d & Ed & (nm & En & (ly & El%the_layout_Some & E)%obind_Ok_inv)%obind_Ok_inv)%obind_Ok_inv)%obind_Ok_inv.
  destruct (tn_mayinlinealloc nm) eqn:Em; [| done]. destruct (HI q d ly nm Ed El En Em) as [[Hp Ha] Hs _ _ _ _ Ho]. rewrite Ho in E. cbn in E.
  destruct (pf && (0 <? npointers ly)); [done |]. injection E as <- <-. split; [| done]. destruct (dt_isprimitivetype d); [| lia].
  pose proof (pow2_pos _ Hp). rewrite LLT_ALIGN_align_up by (done || lia). pose proof (align_up_spec (size ly) (alignment ly)). lia.
Qed.

Lemma union_at_wf H k : forall ty pf nb al nb' al', inline_wf H -> 0 <= nb -> pow2 al -> union_at H k ty pf nb al = Ok (nb', al') -> 0 <= nb' /\ pow2 al'.
Proof.
  induction k as [| k IH]; intros ty pf nb al nb' al' HI Hn Ha; cbn [union_at]; intros (u & Eu & E)%obind_Ok_inv; destruct u; try done.
  - apply obind_Ok_inv in E as ([sz a] & Ep & [= <- <-]). destruct (part_at_wf _ _ _ _ _ HI Ep). split; [lia | by apply pow2_max].
  - apply obind_Ok_inv in E as (a & _ & ([nb1 al1] & E1 & (b & _ & E2)%obind_Ok_inv)%obind_Ok_inv). destruct (IH _ _ _ _ _ _ HI Hn Ha E1). by eapply IH.
  - apply obind_Ok_inv in E as ([sz a] & Ep & [= <- <-]). destruct (part_at_wf _ _ _ _ _ HI Ep). split; [lia | by apply pow2_max].
Qed.

Lemma inline_at_wf H fld s : inline_wf H -> inline_at depth H fld = Ok s -> wf_slot s.
Proof.
  intros HI ([fsz al] & U & (u & Eu & E)%obind_Ok_inv)%obind_Ok_inv. destruct (union_at_wf H depth _ _ _ _ _ _ HI (Z.le_refl 0) pow2_1 U) as [Hf Ha]. destruct u; [by injection E as <- |].
  apply obind_Ok_inv in E as (q & Eq & (isd & _ & (d & Ed & (ly & El & E)%obind_Ok_inv)%obind_Ok_inv)%obind_Ok_inv). destruct isd; [| done]. injection E as <-.
  assert (Hp : exists sz a, part_at H fld false = Ok (sz, a) /\ fsz = Z.max 0 sz /\ al = Z.max 1 a).
  { destruct depth; cbn [union_at] in U; rewrite Eu in U; cbn [obind] in U; apply obind_Ok_inv in U as ([sz a] & Ep & [= <- <-]); by eexists _, _. }
  destruct Hp as (sz & a & Ep & -> & ->). unfold part_at in Ep. rewrite Eq in Ep. cbn [obind] in Ep. rewrite Ed in Ep. cbn [obind] in Ep.
  apply obind_Ok_inv in Ep as (nm & En & Ep). rewrite El in Ep. cbn [obind] in Ep. apply the_layout_Some in El.
  destruct (tn_mayinlinealloc nm) eqn:Em; [| done]. destruct (HI q d ly nm Ed El En Em) as [[Hp Hal] Hs Hn _ Hps H8 Ho]. rewrite Ho in Ep. cbn in Ep. injection Ep as <- <-.
  pose proof (pow2_pos _ Hp). rewrite (Z.max_r 1) by lia. repeat split; try done; [lia | |apply Hps | apply Hps].
  destruct (dt_isprimitivetype d); [| lia]. rewrite LLT_ALIGN_align_up by (done || lia). pose proof (align_up_spec (size ly) (alignment ly)). lia.
Qed.

(** ** The fields of a struct *)

(** A choice is right if the field could be stored inline and is. *)
Lemma inline_choice H0 H fld i : inline_at depth H0 fld = Ok (fi_slot i) -> inline_field H fld -> choice_for H fld i.
Proof.
  intros ([fsz al] & _ & (u & _ & E)%obind_Ok_inv)%obind_Ok_inv Hf. unfold choice_for. destruct u; [by injection E as <- |].
  apply obind_Ok_inv in E as (q & _ & (isd & _ & (d & _ & (ly & _ & E)%obind_Ok_inv)%obind_Ok_inv)%obind_Ok_inv). destruct isd; [| done]. by injection E as <-.
Qed.

Lemma fields_loop_spec st d nm firstty nf flds : forall i a H r H', Forall (field_ok H n) flds -> wf_types H ->
  fields_loop depth compute st d nm firstty nf i flds a H = Ok (r, H') ->
  step n H H' /\ forall a', r = Ret a' -> inline_wf H' -> exists fs, infos_for H' d nm firstty nf i flds fs /\ Forall2 (choice_for H') flds fs /\ wf_fields fs /\ place_all fs a = inr a'.
Proof.
  induction flds as [| fld flds IH]; intros i a H r H' Hf Hw; cbn [fields_loop].
  { intros [= <- <-]. split; [reflexivity |]. intros a' [= <-] _. exists []. repeat split; try done; constructor. }
  apply Forall_cons in Hf as [Hf Hfs]. intros (isatomic & Ea & E)%bind_reads.
  apply bind_inv in E as [(exc & E1 & ->) | (s & H1 & E1 & E)]; destruct (field_slot_spec isatomic fld H _ _ Hf Hw E1) as [S1 P1]; [by split |].
  pose proof (step_extends _ _ _ S1) as Hx1. set (info := FieldInfo s isatomic (nf - tn_n_uninitialized nm <=? i) (firstty =? fld)) in *.
  destruct (place_field info a) as [o | a1] eqn:Ep; [injection E as <- <-; by split |].
  destruct (IH (i + 1) a1 H1 r H') as [S2 P2]; [eapply Forall_impl; [exact Hfs |]; by apply field_ok_later | by eapply wf_types_later | done |].
  split; [by etrans |]. intros a' -> HI. destruct (P2 a' eq_refl HI) as (fs & Hi & Hch & Hwf & Hpl). pose proof (step_extends _ _ _ S2) as Hx2.
  pose proof (inline_wf_earlier H1 H' Hx2 HI) as HI1. destruct (P1 s eq_refl HI1) as [(pe & -> & Hpe) | [Hin Hif]].
  - exists (info :: fs). split; [| split; [constructor; [by apply (reference_field_later H1 H' Hx2) | done] | split; [by constructor | cbn [place_all]; by rewrite Ep]]]. split; [| done].
    split; [eapply (isatomic_later H H'); [by etrans | apply same_type_refl | done] |]. split; [by left |]. split; [done |]. split; [done |]. by left.
  - exists (info :: fs).
    split; [| split; [constructor; [by apply (inline_choice H1 H' fld info Hin), (inline_field_later H1 H' Hx2) | done] | split; [constructor; [by eapply inline_at_wf | done] | cbn [place_all]; by rewrite Ep]]]. split; [| done].
    split; [eapply (isatomic_later H H'); [by etrans | apply same_type_refl | done] |]. split; [right; by apply (inline_at_later depth H1 H' Hx2) |].
    split; [done |]. split; [done |]. cbn [fi_isatomic info]. intros ->. destruct (field_slot_atomic fld H s H1 Hx1 E1) as [[pe ->] | ?]; [by left | right; by apply (is_tag_ext H1 H' Hx2)].
Qed.

Lemma pointers_loop_spec d nm ty nf flds : forall k fs desc H r H', infos_for H d nm ty nf k flds fs -> map fd_isptr desc = map slot_isptr fs ->
  pointers_loop flds desc H = Ok (r, H') -> H' = H /\ exists ps, r = Ret ps /\ pointers_of fs desc = Ok ps.
Proof.
  induction flds as [| fld flds IH]; intros k [| i fs] [| fd desc] H r H' Hi Hd; cbn [pointers_loop pointers_of]; try done.
  { intros [= <- <-]. split; [done | by exists []]. }
  destruct Hi as [(_ & Hs & _ & _) Hi]. injection Hd as Hfd Hd. intros (q & Eq & E)%bind_reads.
  assert (Hly : exists ly, (let* p := reads (fun _ => field_pointers fd ly) in let* qs := pointers_loop flds desc in ret (p ++ qs)) H = Ok (r, H') /\
    field_pointers fd ly = field_pointers fd (slot_layout i)).
  { rewrite Hfd in E. destruct (slot_isptr i) eqn:Eptr; [exists None; split; [exact E | unfold field_pointers; by rewrite Hfd] |].
    apply bind_inv in E as [(exc & E & _) | (ly & H1 & E & Ek)]; [apply bind_reads in E as (isd & _ & E); destruct isd; [apply bind_reads in E as (? & _ & (? & _ & E)%bind_reads) |]; done |].
    apply bind_reads in E as (isd & Ei & E). destruct Hs as [? | Hin]; [congruence |].
    apply obind_Ok_inv in Hin as ([fsz al] & _ & (u & Eu & Hin)%obind_Ok_inv). destruct u.
    - injection Hin as Hin. pose proof (normalize_union H fld q Eu Eq) as ->. unfold jl_is_datatype in Ei.
      rewrite (is_tag_excl H _ jl_datatype_tag fld Eu) in Ei by done. injection Ei as <-. injection E as <- <-. exists None. split; [done |].
      unfold slot_layout. by rewrite <- Hin.
    - apply obind_Ok_inv in Hin as (q' & Eq' & (isd' & Ei' & (d' & Ed & (l & El & Hin)%obind_Ok_inv)%obind_Ok_inv)%obind_Ok_inv).
      rewrite Eq in Eq'. injection Eq' as <-. rewrite Ei in Ei'. injection Ei' as <-. destruct isd; [| done]. injection Hin as Hin.
      apply bind_reads in E as (d2 & Ed2 & (l2 & El2 & [= <- <-])%bind_reads). rewrite Ed in Ed2. injection Ed2 as <-. rewrite El in El2. injection El2 as <-.
      exists (Some l). split; [done |]. unfold slot_layout. by rewrite <- Hin. }
  destruct Hly as (ly & E' & Hly). apply bind_reads in E' as (ps & Ep & E'). rewrite <- Hly, Ep. cbn [obind].
  apply bind_inv in E' as [(exc & E' & _) | (qs & H1 & E' & [= <- <-])]; destruct (IH (k + 1) fs desc H _ _ Hi Hd E') as (-> & qs' & Eqs & Epo); [done |].
  injection Eqs as <-. split; [done |]. exists (ps ++ qs). by rewrite Epo.
Qed.

Lemma special_vector_at H nf t al : wf_types H -> jl_special_vector_alignment H depth nf t = Ok al -> vector_at H nf t = Ok al.
Proof.
  intros Hw (ve & Ev & E)%obind_Ok_inv. unfold vector_at. rewrite Ev. cbn [obind]. destruct ve; [| done]. cbn [negb] in E |- *.
  apply obind_Ok_inv in E as (d & Ed & (ly & _ & E)%obind_Ok_inv). rewrite Ed. cbn [obind]. destruct (nfields ly =? 1); [| done].
  apply obind_Ok_inv in E as (ty & Et & (prim & Ep & E)%obind_Ok_inv). rewrite Et. cbn [obind]. rewrite Ep. cbn [obind].
  destruct prim; [| done]. cbn [negb] in E |- *. apply obind_Ok_inv in Ep as (x & _ & Ep). destruct x; [| done]. apply obind_Ok_inv in Ep as (dp & Edp & [= Hpr]).
  destruct (wt_primitive H Hw ty dp Edp Hpr) as (lp & Elp & Hop). unfold jl_datatype_size in E. rewrite Edp in E |- *. cbn [obind] in E |- *.
  rewrite (own_layout_used H dp lp Elp Hop) in E. rewrite (proj2 (the_layout_Some dp lp) Elp). exact E.
Qed.

Lemma vector_at_cases H nf t al : vector_at H nf t = Ok al -> al = 0 \/ pow2 al.
Proof.
  intros (ve & _ & E)%obind_Ok_inv. destruct ve; [| injection E as <-; by left]. cbn [negb] in E.
  apply obind_Ok_inv in E as (d & _ & (ty & _ & (prim & _ & E)%obind_Ok_inv)%obind_Ok_inv). destruct prim; [| injection E as <-; by left]. cbn [negb] in E.
  apply obind_Ok_inv in E as (dp & _ & (ly & _ & E)%obind_Ok_inv). destruct (negb (next_power_of_two (size ly) =? size ly)); injection E as <-; [by left | apply next_power_of_two_cases].
Qed.

Lemma infos_for_length H d nm ty nf flds : forall k fs, infos_for H d nm ty nf k flds fs -> length fs = length flds.
Proof. induction flds as [| fld flds IH]; intros k [| i fs]; cbn; try done. intros [_ Hi]. f_equal. by eapply IH. Qed.

Lemma pointers_loop_heap flds : forall desc H ps H', pointers_loop flds desc H = Ok (Ret ps, H') -> H' = H.
Proof.
  induction flds as [| fld flds IH]; intros [| fd desc] H ps H'; cbn [pointers_loop]; try by intros [= _ <-].
  intros (q & _ & (l & H3 & E & (p & _ & (qs & H4 & E4 & [= _ <-])%bind_Ret_inv)%bind_reads)%bind_Ret_inv)%bind_reads.
  assert (H3 = H) as ->; [| by eapply IH]. destruct (fd_isptr fd); [by injection E |]. apply bind_reads in E as (isd & _ & E).
  destruct isd; [apply bind_reads in E as (? & _ & (? & _ & E)%bind_reads) |]; by injection E.
Qed.

(** [struct_layout], step by step. *)
Lemma struct_layout_inv st d nm flds H ly z H' : struct_layout depth compute st d nm flds H = Ok (Ret (ly, z), H') ->
  exists firstty a a2 v a3 ps, head flds = Some firstty /\
    fields_loop depth compute st d nm firstty (Z.of_nat (length flds)) 0 flds placing_start H = Ok (Ret a, H') /\ place_lock a = inr a2 /\
    (v = None \/ exists al, v = Some al /\ pl_homogeneous a2 = true /\ jl_is_tuple_type H' st = Ok true /\
       jl_special_vector_alignment H' depth (Z.of_nat (length flds)) firstty = Ok al) /\
    place_end v a2 = Ok a3 /\ pointers_loop flds (pl_desc a3) H' = Ok (Ret ps, H') /\ placed_layout a3 ps = Ok ly /\ z = pl_zeroinit a3.
Proof.
  unfold struct_layout. destruct flds as [| firstty flds0] eqn:Efl; [done |]. rewrite <- Efl. intros (a & H1 & E1 & E)%bind_Ret_inv.
  destruct (place_lock a) as [o | a2] eqn:Elk; [done |]. apply bind_reads in E as (tup & Et & E).
  assert (Hv : exists v, (v = None \/ exists al, v = Some al /\ pl_homogeneous a2 = true /\ tup = true /\ jl_special_vector_alignment H1 depth (Z.of_nat (length flds)) firstty = Ok al) /\
    (let* a := reads (fun _ => place_end v a2) in let* pointers := pointers_loop flds (pl_desc a) in
     let* ly := reads (fun _ => placed_layout a pointers) in ret (ly, pl_zeroinit a)) H1 = Ok (Ret (ly, z), H')).
  { destruct (pl_homogeneous a2), tup; cbn [andb] in E; try (exists None; split; [by left | exact E]).
    apply bind_Ret_inv in E as (v & H2 & (al & Ea & [= <- <-])%bind_reads & E). exists (Some al). split; [right; by exists al | exact E]. }
  destruct Hv as (v & Hv & E'). apply bind_reads in E' as (a3 & E3 & E'). apply bind_Ret_inv in E' as (ps & H2 & Eps & (ly' & Ely & [= -> <- <-])%bind_reads).
  pose proof (pointers_loop_heap _ _ _ _ _ Eps) as ->. exists firstty, a, a2, v, a3, ps. rewrite Efl at 1. repeat split; try done.
  destruct Hv as [-> | (al & ? & ? & -> & ?)]; [by left | right; by exists al].
Qed.

(** [struct_layout] is [layout_of_fields]. *)
Lemma struct_layout_fields st d nm flds H ly z H' : Forall (field_ok H n) flds -> wf_types H ->
  struct_layout depth compute st d nm flds H = Ok (Ret (ly, z), H') -> inline_wf H' ->
  exists firstty fs v, head flds = Some firstty /\ infos_for H' d nm firstty (Z.of_nat (length flds)) 0 flds fs /\ Forall2 (choice_for H') flds fs /\ wf_fields fs /\
    (fits None fs -> vector_for H' st firstty fs v /\ wf_vector v fs /\ layout_of_fields v fs = Ok (inr (ly, z))).
Proof.
  intros Hf Hw (firstty & a & a2 & v & a3 & ps & Eh & E1 & Elk & Hv & E3 & Eps & Ely & ->)%struct_layout_inv HI.
  destruct (fields_loop_spec st d nm firstty _ flds 0 placing_start H _ _ Hf Hw E1) as [S1 P1]. destruct (P1 a eq_refl HI) as (fs & Hi & Hch & Hwf & Hpl).
  exists firstty, fs, v. split; [done |]. split; [done |]. split; [done |]. split; [done |]. intros HF. destruct (place_steps fs a a2 Hwf HF Hpl Elk) as (Edesc & Eal & Ehom).
  destruct (place_end_inv v a2 a3 E3) as [Ed3 Hmod]. rewrite Edesc in Ed3. rewrite Eal in Hmod.
  assert (Hvf : vector_for H' st firstty fs v).
  { destruct Hv as [-> | (al & -> & Hh & Ht & Hs)]; [by left |]. right. exists al. rewrite (infos_for_length _ _ _ _ _ _ _ _ Hi). repeat split; try done; [congruence |].
    apply special_vector_at; [| done]. by apply (wf_types_later H H' (step_extends _ _ _ S1)). }
  split; [done |]. split.
  - destruct Hvf as [-> | (al & -> & _ & _ & Hva)]; [done |]. cbn. destruct (vector_at_cases _ _ _ _ Hva) as [-> | Hp]; [by left |]. right. split; [done |].
    pose proof (pow2_pos _ Hp). destruct (max_align_fs fs Hwf). apply Z.mod_divide in Hmod; [| lia]. by apply Z.divide_pos_le in Hmod.
  - unfold layout_of_fields. rewrite Hpl, Elk, E3. cbn [obind].
    assert (Hmap : map fd_isptr (pl_desc a3) = map slot_isptr fs) by (by rewrite Ed3, ideal_fields_isptr).
    destruct (pointers_loop_spec d nm firstty _ flds 0 fs (pl_desc a3) H' _ _ Hi Hmap Eps) as (_ & ps' & [= <-] & ->).
    cbn [obind]. by rewrite Ely.
Qed.

Lemma struct_layout_safe st d nm flds H : Forall (field_ok H n) flds -> wf_types H -> safe n H (struct_layout depth compute st d nm flds).
Proof.
  intros Hf Hw. unfold struct_layout. destruct flds as [| firstty flds0] eqn:Efl; [apply safe_undefined |]. rewrite <- Efl in *.
  apply safe_bind; [intros r H' E; by apply (fields_loop_spec st d nm firstty _ flds 0 placing_start H _ _ Hf Hw E) |]. intros a H1 _ _.
  destruct (place_lock a); [apply safe_throw |]. apply safe_bind; [apply safe_reads |]. intros tup H2 _ _. apply safe_bind.
  { destruct (_ && tup); [apply safe_bind; [apply safe_reads | intros; apply safe_ret] | apply safe_ret]. }
  intros v H3 _ _. apply safe_bind; [apply safe_reads |]. intros a3 H4 _ _. apply safe_bind; [| intros; apply safe_bind; [apply safe_reads | intros; apply safe_ret]].
  generalize (pl_desc a3) as desc. clear. revert H4. induction flds as [| fld flds IH]; intros H4 [| fd desc]; cbn [pointers_loop]; try apply safe_ret.
  apply safe_bind; [apply safe_reads |]. intros q H5 _ _. apply safe_bind.
  { destruct (fd_isptr fd); [apply safe_ret |]. apply safe_bind; [apply safe_reads |]. intros isd H6 _ _. destruct isd; [| apply safe_ret].
    do 2 (apply safe_bind; [apply safe_reads |]; intros ? ? _ _). apply safe_ret. }
  intros l H6 _ _. apply safe_bind; [apply safe_reads |]. intros p H7 _ _. apply safe_bind; [apply IH | intros; apply safe_ret].
Qed.

Lemma spec_basic fs ly : layout_spec fs ly -> alignment ly < 2 ^ 16 -> basic ly.
Proof.
  intros [[Hn Hlf] [Ha _] [Hs _] _ _ (Hnp & Hfp & Hps & Hin) H8 _ _ _] Hal. split; try done.
  unfold jl_is_layout_opaque. rewrite Hn, Hnp. destruct fs as [| i fs]; [| by rewrite (proj2 (Z.eqb_neq _ 0)) by (cbn; lia)].
  destruct (ptrs ly) as [| p ps]; [by rewrite andb_false_r |]. destruct (proj1 (Hin p)) as (k & i & _ & _ & Hk & _); [left | by rewrite lookup_nil in Hk].
Qed.

(** A layout computed for a struct is the one for its fields; [d'] is the type
    with the layout. *)
Lemma struct_layout_ok st d d' nm flds H ly H' : get_datatype H' st = Ok d -> get_typename H' (dt_name d) = Ok nm -> get_svec H' (dt_types d) = Ok flds ->
  Forall (field_ok H n) flds -> wf_types H -> struct_layout depth compute st d nm flds H = Ok (Ret (ly, dt_zeroinit d'), H') -> inline_wf H' -> types_fit H' ->
  same_type d d' -> determined H' st -> struct_exact H' st d' ly /\ basic ly.
Proof.
  intros Ed En Ef Hf Hw E HI HF Hd Ht. destruct (struct_layout_fields st d nm flds H ly _ H' Hf Hw E HI) as (firstty & fs & v & Eh & Hi & Hch & Hwf & Hres).
  assert (HF0 : fits None fs) by (eapply HF; try done; by left). destruct (Hres HF0) as (Hvf & Hwv & El).
  assert (HFv : fits v fs) by (eapply HF; try done). destruct (layout_of_fields_spec v fs Hwf Hwv HFv) as (ly' & El' & Hsp & _ & Hal).
  pose proof El as El0. rewrite El in El'. injection El' as El' _. subst ly'. split; [| apply (spec_basic fs); [done |]; rewrite Hal; apply HFv].
  split; [done |]. exists nm, flds, firstty, fs, v. rewrite (st_name _ _ Hd), (st_types _ _ Hd). repeat (split; [done |]).
  split; [by apply (infos_for_later H' H' (reflexivity H') d) | done].
Qed.
End Inline.

(** ** Changes to the heap *)

(** The layout of [p], whose new contents are [d], is right. *)
Definition new_ok (H : heap) (p : ptr) (d : jl_datatype_t) (ly : jl_datatype_layout_t) : Prop :=
  (forall nm, get_typename H (dt_name d) = Ok nm -> tn_mayinlinealloc nm = true -> basic ly) /\ (0 < nfields ly -> laid_out H p d ly).

Lemma layouts_wf_change H H' : H ⊑ H' ->
  (forall p d' ly, get_datatype H' p = Ok d' -> dt_layout d' = Some ly -> exists d, get_datatype H p = Ok d /\ same_type d d' /\ (dt_layout d = Some ly \/ new_ok H p d' ly)) ->
  layouts_wf H -> layouts_wf H'.
Proof.
  intros Hx Hc [HI HS]. split.
  - intros p d' ly nm Ed' El En Hm. destruct (Hc p d' ly Ed' El) as (d & Ed & Hd & Hl). apply (get_typename_old H H' Hx) in En.
    destruct Hl as [Hl | [Hb _]]; [| by eapply Hb]. rewrite (st_name _ _ Hd) in En. by eapply HI.
  - intros p d' ly Ed' El Hn. destruct (Hc p d' ly Ed' El) as (d & Ed & Hd & [Hl | [_ Hs]]).
    + apply (laid_out_later H H' Hx p d); [done | by apply (st_layout _ _ Hd ly) | by apply HS].
    + apply (laid_out_later H H' Hx p d'); [apply same_type_refl | done | by apply Hs].
Qed.

Lemma get_datatype_object H p d : get_datatype H p = Ok d <-> exists o, objects H !! p = Some o /\ obody o = BDatatype d.
Proof.
  unfold get_datatype, deref. destruct (objects H !! p) as [o |]; cbn.
  - destruct (obody o) eqn:E; split; try done; try (intros (o' & [= <-] & ?); congruence). intros [= <-]. by exists o.
  - split; [done | by intros (? & ? & _)].
Qed.

Lemma update_inv st f H r H' : update st f H = Ok (r, H') -> exists d o, r = Ret tt /\ objects H !! st = Some o /\ obody o = BDatatype d /\
  H' = with_objects H (<[st := Obj (before o) (header o) (BDatatype (f d))]> (objects H)).
Proof.
  intros (d & (o & Eo & Eb)%get_datatype_object & (H1 & E & [= <- <-])%obind_Ok_inv)%obind_Ok_inv. exists d, o.
  unfold put_datatype, deref in E. rewrite Eo in E. cbn in E. rewrite Eb in E. by injection E as <-.
Qed.

Lemma update_step m st f H : (rank st < m)%nat ->
  (forall d, get_datatype H st = Ok d -> same_type d (f d) /\ (types_fit H -> layouts_wf H -> forall ly, dt_layout (f d) = Some ly -> dt_layout d = Some ly \/ new_ok H st (f d) ly)) ->
  safe m H (update st f).
Proof.
  intros Hr Hf r H' (d & o & -> & Eo & Eb & ->)%update_inv. destruct (Hf d) as [Hs Hn]; [apply get_datatype_object; by exists o |].
  set (o' := Obj (before o) (header o) (BDatatype (f d))). set (H' := with_objects H (<[st := o']> (objects H))).
  assert (Hx : H ⊑ H').
  { split; [done | |].
    - intros p o1 E. cbn. destruct (decide (p = st)) as [-> | Hne].
      + rewrite lookup_insert_eq. exists o'. simplify_eq. split; [done |]. split; [done |]. rewrite Eb. cbn. by eexists.
      + rewrite lookup_insert_ne by done. exists o1. split; [done |]. split; [done | apply body_ext_refl].
    - cbn. intros p o1 E En. rewrite lookup_insert_ne in E by congruence. congruence. }
  assert (Hg : forall p d', get_datatype H' p = Ok d' -> p = st /\ d' = f d \/ p <> st /\ get_datatype H p = Ok d').
  { intros p d' (o1 & E1 & Eb1)%get_datatype_object. cbn in E1. destruct (decide (p = st)) as [-> | Hne].
    - rewrite lookup_insert_eq in E1. simplify_eq. left. by injection Eb1 as <-.
    - rewrite lookup_insert_ne in E1 by done. right. split; [done |]. apply get_datatype_object. by exists o1. }
  split; [done | |].
  - intros p d0 Hp (o1 & E1 & Eb1)%get_datatype_object. apply get_datatype_object. exists o1. split; [| done]. cbn. rewrite lookup_insert_ne; [done |]. intros ->. lia.
  - intros Hf0 Hxf HF HL. apply (layouts_wf_change H H' Hx); [| done]. intros p d' ly [[-> ->] | [Hne Ed]]%Hg El.
    + exists d. split; [apply get_datatype_object; by exists o |]. split; [done |]. apply Hn; [| done | done]. apply (types_fit_earlier H Hf0); [by etrans | done].
    + exists d'. split; [done |]. split; [apply same_type_refl | by left].
Qed.

(** A change that is not about the layout. *)
Lemma update_flags_safe m st f H : (rank st < m)%nat -> (forall d, same_type d (f d) /\ dt_layout (f d) = dt_layout d) -> safe m H (update st f).
Proof. intros Hr Hf. apply update_step; [done |]. intros d _. destruct (Hf d) as [Hs E]. split; [done |]. intros _ _ ly. rewrite E. by left. Qed.

Lemma update_update st f g H : (update st f ;; update st g) H = update st (fun d => g (f d)) H.
Proof.
  unfold update, bind. destruct (get_datatype H st) as [d | |] eqn:Ed; try done. cbn [obind]. apply get_datatype_object in Ed as (o & Eo & Eb).
  unfold put_datatype, deref. rewrite Eo. cbn [obind]. rewrite Eb. cbn [obind]. unfold get_datatype, deref. cbn [objects with_objects].
  rewrite lookup_insert_eq. cbn [obind obody before header]. by rewrite insert_insert_eq.
Qed.

Lemma bind_assoc {A B C} (m : M A) (k : A -> M B) (l : B -> M C) H : bind (bind m k) l H = bind m (fun a => bind (k a) l) H.
Proof. unfold bind. by destruct (m H) as [[[|] ?] | |]. Qed.

Lemma update_bind {A} st f g (k : unit -> M A) H : bind (update st f) (fun _ => bind (update st g) k) H = bind (update st (fun d => g (f d))) k H.
Proof. rewrite <- (bind_assoc (update st f) (fun _ => update st g) k). unfold bind at 1. rewrite update_update. done. Qed.

(** ** Computing a layout *)

Section Compute.
Context (jl_gc_perm_alloc : heap -> Z -> ptr) (Halloc : forall H sz, objects H !! jl_gc_perm_alloc H sz = None).

Lemma permobj_safe m data ty H : safe m H (jl_gc_permobj jl_gc_perm_alloc data ty).
Proof.
  intros r H' [= <- <-]. pose proof (Halloc H (Z.of_nat (length (data 0)) + 8)) as Hv. set (v := jl_gc_perm_alloc H _) in *.
  set (o := Obj 0 (Z.lor ty 3) (BData (data v))). set (H' := with_objects H (<[v := o]> (objects H))).
  assert (Hx : H ⊑ H').
  { split; [done | |]; cbn.
    - intros p o1 E. exists o1. rewrite lookup_insert_ne by congruence. split; [done |]. split; [done | apply body_ext_refl].
    - intros p o1 E En. destruct (decide (p = v)) as [-> | Hne]; [rewrite lookup_insert_eq in E; injection E as <-; by eexists |].
      rewrite lookup_insert_ne in E by done. congruence. }
  assert (Hg : forall p d, get_datatype H' p = Ok d <-> get_datatype H p = Ok d).
  { intros p d. rewrite !get_datatype_object. cbn. split; intros (o1 & E & Eb); exists o1; (split; [| done]).
    - destruct (decide (p = v)) as [-> | Hne]; [rewrite lookup_insert_eq in E; by injection E as <- | by rewrite lookup_insert_ne in E].
    - rewrite lookup_insert_ne by congruence. done. }
  split; [done | intros p d _; apply Hg |]. intros Hf _ _. apply layouts_wf_change; [done |]. intros p d' ly Ed%Hg El. exists d'. split; [done |].
  split; [apply same_type_refl | by left].
Qed.

Lemma singleton_safe m st H : (rank st < m)%nat -> safe m H (jl_maybe_allocate_singleton_instance depth jl_gc_perm_alloc st).
Proof.
  intros Hr. unfold jl_maybe_allocate_singleton_instance. apply safe_bind; [apply safe_reads |]. intros d H1 _ _. destruct (negb _); [apply safe_ret |].
  apply safe_bind.
  - unfold jl_is_datatype_make_singleton. destruct (dt_layout d); [| apply safe_ret]. destruct (dt_isconcretetype d); [| apply safe_ret].
    do 2 (apply safe_bind; [apply safe_reads |]; intros ? ? _ _). apply safe_ret.
  - intros b H2 _ _. destruct b; [| apply safe_ret]. apply safe_bind; [apply permobj_safe |]. intros v H3 _ _. by apply update_flags_safe.
Qed.

Lemma concrete_subtype_safe m st flds : forall H, (rank st < m)%nat -> safe m H (concrete_subtype_loop st flds).
Proof.
  induction flds as [| fld flds IH]; intros H Hr; cbn [concrete_subtype_loop]; [apply safe_ret |].
  apply safe_bind; [apply safe_reads |]. intros d H1 _ _. destruct (dt_has_concrete_subtype d); [| apply safe_ret].
  apply safe_bind; [apply safe_reads |]. intros b H2 _ _. apply safe_bind; [| intros _ H3 _ _; by apply IH].
  destruct b; [by apply update_flags_safe |]. apply safe_bind; [apply safe_reads |]. intros isd H3 _ _.
  apply safe_bind; [destruct isd; [apply safe_bind; [apply safe_reads | intros; apply safe_ret] | apply safe_ret] |]. intros c H4 _ _. by apply update_flags_safe.
Qed.

Lemma flags_loop_safe m d nm flds : forall i a b c H, safe m H (flags_loop depth d nm i flds a b c).
Proof.
  induction flds as [| fld flds IH]; intros i a b c H; cbn [flags_loop]; [apply safe_ret |]. destruct (_ || _); [| apply safe_ret].
  apply safe_bind; [apply safe_reads |]. intros x H1 _ _. apply safe_bind; [destruct (negb _); [apply safe_ret | apply safe_reads] |]. intros y H2 _ _.
  apply safe_bind; [destruct y; [apply safe_reads | apply safe_ret] |]. intros z H3 _ _. apply safe_bind; [apply safe_reads |]. intros w H4 _ _. apply IH.
Qed.

Section Own.
Context (compute : ptr -> M unit) (st : ptr).
Context (Hcompute : forall p H r H' d, (rank p < rank st)%nat -> wf_types H -> get_datatype H p = Ok d -> dt_layout d = None ->
  compute p H = Ok (r, H') -> step (rank st) H H').

Lemma finish_safe nm flds a b c H : wf_types H ->
  (forall d, get_datatype H st = Ok d -> dt_layout d = None ->
     get_typename H (dt_name d) = Ok nm /\ get_svec H (dt_types d) = Ok flds /\ Forall (field_ok H (rank st)) flds /\ determined H st) ->
  safe (S (rank st)) H (finish_layout depth jl_gc_perm_alloc compute st nm flds a b c).
Proof.
  intros Hw Hpre. unfold finish_layout. intros r H' (d0 & _ & E)%bind_reads.
  apply bind_inv in E as [(exc & E & _) | ([[a1 b1] c1] & H1 & E1 & E)]; [by eapply flags_loop_safe |].
  pose proof (flags_loop_safe 0 _ _ _ _ _ _ _ _ _ _ E1) as S1. apply (step_mono 0 (S (rank st))) in S1 as S1'; [| lia]. etrans; [exact S1' |].
  apply bind_reads in E as (d & Ed & E). revert r H' E. pose proof (step_extends _ _ _ S1) as Hx1.
  assert (Hw1 : wf_types H1) by (by eapply wf_types_later). apply safe_bind.
  - destruct (dt_layout d) as [l |] eqn:El; cbn [is_some]; [apply safe_ret |].
    assert (Hd : exists d1, get_datatype H st = Ok d1) by (destruct (get_datatype_old H H1 Hx1 _ _ Ed) as (d1 & ? & _); by exists d1).
    destruct Hd as [d1 Hd1]. pose proof (step_untouched _ _ _ S1 st d1 ltac:(lia) Hd1) as Hd1'. rewrite Ed in Hd1'. injection Hd1' as <-.
    destruct (Hpre d Hd1 El) as (En & Ef & Hf & Ht). assert (Hf1 : Forall (field_ok H1 (rank st)) flds) by (eapply Forall_impl; [exact Hf |]; by apply field_ok_later).
    apply safe_bind; [intros r H' E; apply (step_mono (rank st)); [lia |]; by eapply (struct_layout_safe compute (rank st) Hcompute) |].
    intros [ly z] H2 E2 _. pose proof (struct_layout_safe compute (rank st) Hcompute st d nm flds H1 Hf1 Hw1 _ _ E2) as S2. pose proof (step_extends _ _ _ S2) as Hx2.
    assert (Ed2 : get_datatype H2 st = Ok d) by (apply (step_untouched _ _ _ S2); [lia | done]).
    intros r H'. rewrite update_update. revert r H'. apply update_step; [lia |]. intros d2 Ed2'. rewrite Ed2 in Ed2'. injection Ed2' as <-.
    split; [by split; cbn; [done | done | done | done | done | done | done | rewrite El] |]. intros HF HL ly' [= <-]. right.
    destruct (struct_layout_ok compute (rank st) Hcompute st d (set_zeroinit z (set_layout (Some ly) d)) nm flds H1 ly H2) as [Hs Hb]; try done.
    { apply (get_typename_ext H1 H2 Hx2), (get_typename_ext H H1 Hx1), En. }
    { apply (get_svec_ext H1 H2 Hx2), (get_svec_ext H H1 Hx1), Ef. }
    { apply HL. }
    { by split; cbn; [done | done | done | done | done | done | done | rewrite El]. }
    { by apply (determined_later H H2 (transitivity Hx1 Hx2)). }
    split; [done |]. intros _. by left.
  - intros _ H2 _ _. apply safe_bind; [apply safe_reads |]. intros d2 H3 _ _. apply safe_bind; [apply safe_reads |]. intros ly H4 _ _.
    destruct (_ && _); [apply safe_undefined |]. apply safe_bind; [apply update_flags_safe; [lia | by intros d3; split] |]. intros _ H5 _ _. apply singleton_safe. lia.
Qed.

Lemma inline_elements_safe t H : field_ok H (rank st) t -> wf_types H -> safe (rank st) H (jl_islayout_inline depth compute t 0 1).
Proof.
  intros Hf Hw. apply safe_bind; [| intros [[? ?] ?] H1 _ _; apply safe_ret].
  intros r H' E. by apply (union_isinlinable_spec compute (rank st) Hcompute depth t false 0 1 H r H' Hf Hw E).
Qed.

Lemma unboxed_elements_safe m t a u elsz al H : safe m H (unboxed_elements t a u elsz al).
Proof.
  unfold unboxed_elements. apply safe_bind.
  - destruct u; [apply safe_ret |]. apply safe_bind; [apply safe_reads |]. intros isd H1 _ _. destruct isd; [| apply safe_undefined].
    apply safe_bind; [apply safe_reads |]. intros d H2 _ _. apply safe_bind; [apply safe_reads |]. intros ly H3 _ _.
    destruct (0 <=? first_ptr ly); [destruct (_ <? _); [apply safe_undefined | apply safe_ret] | apply safe_ret].
  - intros [[zi hp] ps] H1 _ _. cbv zeta.
    destruct (a && (MAX_ATOMIC_SIZE <? LLT_ALIGN elsz al)); [| apply safe_ret]. destruct (JL_SMALL_BYTE_ALIGNMENT <? _); [apply safe_undefined | apply safe_ret].
Qed.

Lemma get_layout_nfields sz nf np al hp be ae desc ps ly : jl_get_layout sz nf np al hp be ae desc ps = Ok ly -> nfields ly = nf.
Proof.
  unfold jl_get_layout. destruct (al =? 0); [done |]. destruct (_ || _); [done |].
  intros (? & _ & (? & _ & (? & _ & (? & _ & [= <-])%obind_Ok_inv)%obind_Ok_inv)%obind_Ok_inv)%obind_Ok_inv. done.
Qed.

(** A layout without fields for a type that is not stored inline. *)
Lemma new_ok_opaque H p d ly : (forall nm, get_typename H (dt_name d) = Ok nm -> tn_mayinlinealloc nm = false) -> nfields ly = 0 -> new_ok H p d ly.
Proof. intros Hm Hn. split; [intros nm En Hm'; by rewrite (Hm nm En) in Hm' | lia]. Qed.

Lemma memory_not_inline H d nm : wf_types H -> get_datatype H st = Ok d -> dt_name d = jl_genericmemory_typename H -> get_typename H (dt_name d) = Ok nm ->
  tn_mayinlinealloc nm = false.
Proof. intros Hw Ed En Et. destruct (tn_mayinlinealloc nm) eqn:E; [| done]. by destruct (wt_opaque H Hw st d nm Ed Et E). Qed.

Lemma memory_safe d H : wf_types H -> get_datatype H st = Ok d -> dt_layout d = None -> dt_name d = jl_genericmemory_typename H ->
  safe (S (rank st)) H (jl_get_genericmemory_layout depth jl_gc_perm_alloc compute st).
Proof.
  intros Hw Ed El Enm. unfold jl_get_genericmemory_layout. intros r H' (d' & Ed' & (kind & Ek & (t & Et & (addr & Ea & E)%bind_reads)%bind_reads)%bind_reads)%bind_reads.
  rewrite Ed in Ed'. injection Ed' as <-. revert r H' E. destruct (negb (dt_isconcretetype d)); [apply safe_ret |]. intros r H' (ist & Ei & E)%bind_reads. revert r H' E.
  destruct ist; cbn [negb].
  2:{ intros r H'. rewrite update_update. revert r H'. apply update_step; [lia |]. intros d2 Ed2. rewrite Ed in Ed2. injection Ed2 as <-.
      split; [by split; cbn; [done | done | done | done | done | done | done | rewrite El] |]. intros _ _ ly [= <-]. right. apply new_ok_opaque; [| done]. intros nm En. by eapply memory_not_inline. }
  destruct (wt_memory H Hw st d t Ed Enm Et) as [Hf | Hf]; [congruence |].
  intros r H' [(exc & E1 & _) | ([[c elsz] al] & H1 & E1 & E)]%bind_inv; pose proof (inline_elements_safe t H Hf Hw _ _ E1) as S1; [by apply (step_mono (rank st)); [lia |] |].
  pose proof (step_extends _ _ _ S1) as Hx1. etrans; [apply (step_mono (rank st)); [lia | exact S1] |]. assert (Hw1 : wf_types H1) by (by eapply wf_types_later).
  pose proof (step_untouched _ _ _ S1 st d ltac:(lia) Ed) as Ed1.
  apply bind_reads in E as (isatomic & _ & (isd & _ & (isu & _ & E)%bind_reads)%bind_reads).
  apply bind_inv in E as [(exc & E2 & _) | ([[[[elsz' al'] zi] needlock] ps] & H2 & E2 & E)].
  { destruct (negb (c =? 0) && _); [by eapply unboxed_elements_safe | done]. }
  assert (S2 : forall m, step m H1 H2) by (intros m; destruct (negb (c =? 0) && _); [by eapply unboxed_elements_safe | by injection E2 as _ _ _ _ _ <-]).
  etrans; [apply S2 |]. pose proof (step_untouched _ _ _ (S2 (rank st)) st d ltac:(lia) Ed1) as Ed2. pose proof (step_extends _ _ _ (S2 0%nat)) as Hx2.
  assert (Hw2 : wf_types H2) by (by eapply wf_types_later). apply bind_reads in E as (d' & Ed' & E). change (datatype st) with (reads (fun H => get_datatype H st)) in *.
  rewrite Ed2 in Ed'. injection Ed' as <-. rewrite El in E. cbn [is_some] in E. apply bind_reads in E as (ly & Ely & E). rewrite update_bind in E. revert r H' E. apply safe_bind.
  - apply update_step; [lia |]. intros d2 Ed2'. rewrite Ed2 in Ed2'. injection Ed2' as <-. split; [by split; cbn; [done | done | done | done | done | done | done | rewrite El] |].
    intros _ _ ly' [= <-]. right. apply new_ok_opaque; [| by eapply get_layout_nfields]. intros nm En. eapply (memory_not_inline H2 d); try done.
    rewrite Enm. symmetry. etrans; [by apply (globals_eq H1 H2 Hx2 jl_genericmemory_typename) |]. by apply (globals_eq H H1 Hx1 jl_genericmemory_typename).
  - intros _ H3 _ _. apply safe_bind; [apply safe_reads |]. intros isas H4 _ _.
    apply safe_bind; [destruct isas; [apply safe_reads | apply safe_ret] |]. intros as0 H5 _ _. apply safe_bind; [apply safe_reads |]. intros known H6 _ _.
    destruct (as0 && known); [| apply safe_ret]. apply safe_bind; [apply permobj_safe |]. intros v H7 _ _. apply safe_bind; [apply safe_reads |]. intros d3 H8 _ _.
    destruct (dt_instance d3 =? 0); [apply update_flags_safe; [lia | by intros d4; split] | apply safe_undefined].
Qed.

Lemma reuse_safe d nm w dw wl b H : wf_types H -> get_datatype H st = Ok d -> dt_layout d = None -> get_typename H (dt_name d) = Ok nm ->
  jl_unwrap_unionall H depth (tn_wrapper nm) = Ok w -> get_datatype H w = Ok dw -> dt_name dw = dt_name d -> dt_layout dw = Some wl -> safe (S (rank st)) H (reuse_layout depth jl_gc_perm_alloc st dw wl b).
Proof.
  intros Hw Ed El Enm Ew Edw Enw Elw. unfold reuse_layout. intros r H'. rewrite update_bind, update_bind. revert r H'. apply safe_bind.
  - apply update_step; [lia |]. intros d2 Ed2. rewrite Ed in Ed2. injection Ed2 as <-. split; [by split; cbn; [done | done | done | done | done | done | done | rewrite El] |].
    intros _ HL ly [= <-]. right. split.
    + intros nm' En Hm. apply (lw_inline _ HL w dw wl nm'); try done. by rewrite Enw.
    + intros Hn. assert (Hs : struct_exact H w dw wl).
      { destruct (lw_struct _ HL w dw wl Edw Elw Hn) as [? | (nm' & w' & dw' & En' & Ew' & Edw' & _ & _ & Hs)]; [done |].
        rewrite Enw, Enm in En'. injection En' as <-. rewrite Ew in Ew'. injection Ew' as <-. rewrite Edw in Edw'. by injection Edw' as <-. }
      right. by exists nm, w, dw.
  - intros _ H1 _ _. destruct (negb (jl_is_layout_opaque wl)); [| apply safe_ret].
    apply safe_bind; [apply update_flags_safe; [lia | by intros d4; split] |]. intros _ H2 _ _. apply singleton_safe. lia.
Qed.

Lemma singleton_basic : basic singleton_layout.
Proof. split; cbn; try done; [split; [by exists 0 | done] | by repeat split; constructor]. Qed.

Lemma own_safe d w nm a b c H : wf_types H -> get_datatype H st = Ok d -> dt_layout d = None -> get_typename H (dt_name d) = Ok nm ->
  safe (S (rank st)) H (compute_own_layout depth jl_gc_perm_alloc compute st w nm a b c).
Proof.
  intros Hw Ed El En. unfold compute_own_layout. intros r H' (d' & Ed' & (dw & _ & E)%bind_reads)%bind_reads. rewrite Ed in Ed'. injection Ed' as <-.
  revert r H' E. destruct (_ || _); [apply safe_undefined |]. intros r H' (flds & Ef & E)%bind_reads. pose proof (wt_fields H Hw st d flds Ed Ef) as Hf. revert r H' E.
  destruct (_ <? tn_n_uninitialized nm); [apply safe_undefined |]. destruct (Z.eqb_spec (Z.of_nat (length flds)) 0) as [E0 | E0].
  - intros r H' (l & [= <-] & E)%bind_reads. revert r H' E. assert (Hset : forall ly, nfields ly = 0 -> (forall nm', get_typename H (dt_name d) = Ok nm' -> tn_mayinlinealloc nm' = true -> basic ly) ->
      safe (S (rank st)) H (update st (set_layout (Some ly)))).
    { intros ly Hn Hb. apply update_step; [lia |]. intros d2 Ed2. rewrite Ed in Ed2. injection Ed2 as <-. split; [by split; cbn; [done | done | done | done | done | done | done | rewrite El] |].
      intros _ _ ly' [= <-]. right. split; [done | lia]. }
    assert (Hop : st ∈ map (small_typeof H) [jl_symbol_tag; jl_string_tag; jl_simplevector_tag; jl_module_tag] -> forall ly nm', get_typename H (dt_name d) = Ok nm' -> tn_mayinlinealloc nm' = true -> basic ly).
    { intros Hin ly nm' En' Hm. by destruct (wt_opaque H Hw st d nm' Ed En' Hm) as [_ ?]. }
    unfold fieldless_layout. destruct ((st =? small_typeof H jl_symbol_tag) || _) eqn:E1; [apply Hset; [done |]; apply Hop; cbn; apply orb_prop in E1 as [->%Z.eqb_eq | ->%Z.eqb_eq]; set_solver |].
    destruct ((st =? small_typeof H jl_simplevector_tag) || _) eqn:E2; [apply Hset; [done |]; apply Hop; cbn; apply orb_prop in E2 as [->%Z.eqb_eq | ->%Z.eqb_eq]; set_solver |].
    apply safe_bind; [apply Hset; [done | intros; apply singleton_basic] |]. intros u H1 E3 S3. apply finish_safe; [by eapply wf_types_later; [apply S3 |] |].
    intros d2 Ed2 El2. destruct (update_inv _ _ _ _ _ E3) as (d3 & o & _ & Eo & Eb & EH). rewrite EH in Ed2. apply get_datatype_object in Ed2 as (o2 & Eo2 & Eb2). cbn in Eo2.
    rewrite lookup_insert_eq in Eo2. injection Eo2 as <-. by injection Eb2 as <-.
  - apply safe_bind; [apply concrete_subtype_safe; lia |]. intros _ H1 _ S1. pose proof (step_extends _ _ _ S1) as Hx1. apply safe_bind; [apply safe_reads |]. intros d1 H2 E2 _.
    apply (reads_inv (fun H => get_datatype H st)) in E2 as (d1' & Ed1 & [= <-] & EH). subst H2. apply safe_bind; [destruct (dt_isconcretetype d1); [apply safe_ret | apply safe_reads] |].
    intros fixed H2 E2 S2. assert (H2 = H1) as -> by (destruct (dt_isconcretetype d1); [by injection E2 | by apply reads_inv in E2 as (? & _ & _ & ?)]).
    apply safe_bind; [destruct fixed; [apply safe_ret | apply safe_reads] |]. intros free H2 E3 _.
    assert (H2 = H1) as -> by (destruct fixed; [by injection E3 | by apply reads_inv in E3 as (? & _ & _ & ?)]).
    destruct free; [destruct (st =? w); [apply safe_ret | apply safe_undefined] |]. apply finish_safe; [by eapply wf_types_later |]. intros d2 Ed2 El2.
    rewrite Ed1 in Ed2. injection Ed2 as <-. pose proof Ed1 as Ed2.
    assert (Ht : determined H1 st).
    { exists H1, d1. split; [done |]. split; [done |]. split; [done |]. destruct (dt_isconcretetype d1); [by left | right].
      destruct fixed; [left; by apply reads_inv in E2 as (? & ? & [= <-] & _) | right; by apply reads_inv in E3 as (? & ? & [= <-] & _)]. }
    destruct (get_datatype_ext H H1 Hx1 _ _ Ed) as (d3 & Ed3 & Hd). rewrite Ed2 in Ed3. injection Ed3 as <-. rewrite (st_name _ _ Hd), (st_types _ _ Hd).
    split; [by apply (get_typename_ext H H1 Hx1) |]. split; [by apply (get_svec_ext H H1 Hx1) |]. split; [| done]. eapply Forall_impl; [exact Hf |]. by apply field_ok_later.
Qed.

Lemma compute_safe d H : wf_types H -> get_datatype H st = Ok d -> dt_layout d = None ->
  safe (S (rank st)) H (compute_field_offsets depth jl_gc_perm_alloc compute st).
Proof.
  intros Hw Ed El. unfold compute_field_offsets. intros r H' (d' & Ed' & (nm & En & E)%bind_reads)%bind_reads. rewrite Ed in Ed'. injection Ed' as <-. revert r H' E.
  destruct (Z.eqb_spec (tn_wrapper nm) 0) as [E0 | E0]; [apply safe_ret |]. destruct (wt_wrapper H Hw st d nm Ed En E0) as (w & dw & Ew & Edw & Enw).
  intros r H' (w' & Ew' & E)%bind_reads. rewrite Ew in Ew'. injection Ew' as <-. revert r H' E. rewrite El. cbn [is_some]. rewrite andb_false_r.
  apply safe_bind; [apply safe_ret |]. intros u H1 EH _. injection EH as _ <-. intros r H' (gm & [= <-] & E)%bind_reads. revert r H' E.
  destruct (Z.eqb_spec (dt_name d) (jl_genericmemory_typename H)) as [Eg | _]; [by eapply memory_safe |].
  intros r H' (d' & Ed' & (dw' & Edw' & E)%bind_reads)%bind_reads. rewrite Ed in Ed'. injection Ed' as <-. rewrite Edw in Edw'. injection Edw' as <-. revert r H' E.
  destruct (dt_layout dw) as [wl |] eqn:Elw; [by apply (reuse_safe d nm w) | by eapply own_safe].
Qed.
End Own.

Lemma compute_field_offsets_step fuel : forall st d H r H', wf_types H -> get_datatype H st = Ok d -> dt_layout d = None ->
  jl_compute_field_offsets depth jl_gc_perm_alloc fuel st H = Ok (r, H') -> step (S (rank st)) H H'.
Proof.
  induction fuel as [| fuel IH]; intros st d H r H' Hw Ed El; cbn; [done |].
  apply (compute_safe (jl_compute_field_offsets depth jl_gc_perm_alloc fuel) st) with (d := d); try done. intros p H0 r0 H0' d0 Hr Hw0 Ed0 El0 E. apply (step_mono (S (rank p))); [lia |]. by eapply IH.
Qed.
End Compute.
End Wf.
