(* ===== verification/LayoutSound.v ===== *)
(** * What the layouts are good for

    The theorems about field offsets and layouts, their use by egal, and the
    inputs on which the code goes wrong: sizes just below 4 GiB, and fields of
    type [Type{Union{}}]. *)

From stdpp Require Import base gmap numbers option list.
From Stdlib Require Import ZArith Lia.
From S2P Require Import Prelude Probe Identity Hashing Bytes Objects Egal EgalFacts HeapMonad LayoutCore LayoutCoreFacts Layout LayoutHeap LayoutFacts.

(** ** Layouts and egal *)

Section Bridge.
Context (depth : nat) (H : heap) (HI : inline_wf H).

Lemma infos_for_lookup d nm ty nf flds : forall k fs j fld i, infos_for depth H d nm ty nf k flds fs -> flds !! j = Some fld -> fs !! j = Some i ->
  field_for depth H d nm ty nf (k + Z.of_nat j) fld i.
Proof.
  induction flds as [| fld0 flds IH]; intros k [| i0 fs] j fld i; cbn; try done. intros [Hi His] Hf Hj. destruct j as [| j]; cbn in Hf, Hj.
  - simplify_eq. by rewrite Z.add_0_r.
  - replace (k + Z.of_nat (S j)) with (k + 1 + Z.of_nat j) by lia. by eapply IH.
Qed.

(** A type that has a layout of its own and is stored inline. *)
Lemma part_at_inv p pf r : part_at H p pf = Ok r -> exists q d ly, normalize_typeofbottom_layout_alias H p = Ok q /\ get_datatype H q = Ok d /\
  dt_layout d = Some ly /\ basic ly /\ (pf = true -> ptrs ly = []).
Proof.
  intros (q & Eq & (d & Ed & (nm & En & (ly & El%the_layout_Some & E)%obind_Ok_inv)%obind_Ok_inv)%obind_Ok_inv)%obind_Ok_inv. exists q, d, ly.
  destruct (tn_mayinlinealloc nm) eqn:Em; [| done]. pose proof (HI q d ly nm Ed El En Em) as Hb. repeat split; try done; try apply Hb.
  intros ->. rewrite (ba_opaque _ Hb) in E. cbn in E. rewrite (ba_npointers _ Hb) in E. destruct (ptrs ly); [done | done].
Qed.

(** An object that is a data type is not [Type{Union{}}]. *)
Lemma normalize_datatype p q d : get_datatype H p = Ok d -> normalize_typeofbottom_layout_alias H p = Ok q -> q = p.
Proof.
  intros (o & Eo & Eb)%get_datatype_object. unfold normalize_typeofbottom_layout_alias. destruct (_ =? 0); [by intros [= <-] |].
  intros (e & _ & E)%obind_Ok_inv. destruct e; [| by injection E]. apply obind_Ok_inv in E as (t & Et & _). exfalso.
  revert Et. unfold jl_typeeq_T, ptr_field, load_ptr, load_uint, load_bytes, data_at, deref, shift. cbn. rewrite Eo. cbn. by rewrite Eb.
Qed.

(** The components of an inline union hold no references. *)
Lemma union_component_pointerfree n : forall n' ty pf nb al r i ft j, union_at H n ty pf nb al = Ok r -> pf = true \/ jl_is_uniontype H ty = Ok true ->
  nth_union_component H n' ty i = Ok (Some ft, j) -> exists s, part_at H ft true = Ok s.
Proof.
  assert (Hleaf : forall n n' ty nb al r i ft j, union_at H n ty true nb al = Ok r -> jl_is_uniontype H ty = Ok false ->
    nth_union_component H n' ty i = Ok (Some ft, j) -> exists s, part_at H ft true = Ok s).
  { intros n0 n' ty nb al r i ft j U Eu Ec.
    assert (Eft : ft = ty) by (destruct n'; cbn in Ec; rewrite Eu in Ec; cbn in Ec; destruct (i =? 0); by injection Ec). subst ft.
    destruct n0; cbn [union_at] in U; rewrite Eu in U; cbn [obind] in U; apply obind_Ok_inv in U as (s & Es & _); by exists s. }
  induction n as [| n IH]; intros n' ty pf nb al r i ft j U Hpf Ec; pose proof U as U0; cbn [union_at] in U; apply obind_Ok_inv in U as (u & Eu & U); destruct u; try done.
  - destruct Hpf as [-> | ?]; [by eapply Hleaf | congruence].
  - apply obind_Ok_inv in U as (a & Ea & ([nb1 al1] & U1 & (b & Eb & U2)%obind_Ok_inv)%obind_Ok_inv).
    destruct n' as [| n']; cbn [nth_union_component] in Ec; rewrite Eu in Ec; cbn [obind] in Ec; [done |]. rewrite Ea in Ec. cbn [obind] in Ec.
    apply obind_Ok_inv in Ec as ([[t |] i1] & Ec1 & Ec).
    + injection Ec as <- <-. eapply (IH n' a true); try done. by left.
    + rewrite Eb in Ec. cbn [obind] in Ec. eapply (IH n' b true); try done. by left.
  - destruct Hpf as [-> | ?]; [by eapply Hleaf | congruence].
Qed.

Lemma inline_union_pointerfree fld s sel ft fdt fly : inline_at depth H fld = Ok s -> jl_is_uniontype H fld = Ok true ->
  jl_nth_union_component H depth fld sel = Ok (Some ft) -> get_datatype H ft = Ok fdt -> dt_layout fdt = Some fly -> first_ptr fly < 0.
Proof.
  intros ([fsz al] & U & _)%obind_Ok_inv Hu ([r j] & Ec & [= ->])%obind_Ok_inv Ed El.
  destruct (union_component_pointerfree depth depth fld false 0 1 _ sel ft j U (or_intror Hu) Ec) as [sz Hs].
  destruct (part_at_inv ft true sz Hs) as (q & d & ly & Eq & Ed' & El' & Hb & Hp). pose proof (normalize_datatype _ _ _ Ed Eq) as ->. rewrite Ed in Ed'. injection Ed' as <-. rewrite El in El'. injection El' as <-.
  rewrite (ba_first_ptr _ Hb), (Hp eq_refl). done.
Qed.

(** A struct stored inline in a struct that is compared bit by bit. *)
Lemma inline_plain fld i : inline_at depth H fld = Ok (fi_slot i) -> wf_slot (fi_slot i) -> slot_isptr i = false -> slot_bitsegal i = true -> slot_padding i = false ->
  (forall q, normalize_typeofbottom_layout_alias H fld = Ok q -> q = fld) ->
  jl_is_uniontype H fld = Ok false /\ exists fdt fly, get_datatype H fld = Ok fdt /\ dt_layout fdt = Some fly /\ plain_bits fly = true /\ basic fly /\ size fly <= slot_size i.
Proof.
  intros Hin Hw Hptr Hb Hp Hal. destruct (slot_size_spec i Hw) as [Hss _]. unfold inline_at in Hin. apply obind_Ok_inv in Hin as ([fsz al] & U & (u & Eu & E)%obind_Ok_inv).
  destruct u; [injection E as E; unfold slot_bitsegal in Hb; by rewrite <- E in Hb |]. split; [done |].
  apply obind_Ok_inv in E as (q & Eq & (isd & _ & (d & Ed & (ly & El%the_layout_Some & E)%obind_Ok_inv)%obind_Ok_inv)%obind_Ok_inv). destruct isd; [| done]. injection E as E.
  assert (Hpt : exists r, part_at H fld false = Ok r) by (destruct depth; cbn [union_at] in U; rewrite Eu in U; cbn [obind] in U; apply obind_Ok_inv in U as (r & ? & _); by exists r).
  destruct Hpt as [r Hpt]. destruct (part_at_inv fld false r Hpt) as (q' & d' & ly' & Eq' & Ed' & El' & Hbas & _). rewrite Eq in Eq'. injection Eq' as <-. rewrite Ed in Ed'. injection Ed' as <-. rewrite El in El'. injection El' as <-.
  pose proof (Hal q Eq) as ->. exists d, ly. split; [done |]. split; [done |]. unfold slot_bitsegal, slot_padding, slot_req in *. rewrite <- E in *. cbn in *.
  apply orb_false_elim in Hp as [_ Hp]. apply andb_prop in Hb as [[_ Hb]%andb_prop _]. split; [unfold plain_bits; by rewrite Hp, Hb |]. split; [done |].
  destruct Hw as (Hd & _). lia.
Qed.

(** Fields at offsets egal can use, for a type [d] with the layout of [dw]. *)
Lemma struct_ok_supports_egal dw d ly : struct_ok depth H dw ly ->
  (forall f fd, fields ly !! f = Some fd -> fd_isptr fd = false -> jl_field_type_concrete H d (Z.of_nat f) = jl_field_type_concrete H dw (Z.of_nat f)) ->
  (forall f fd fld q, fields ly !! f = Some fd -> jl_field_type_concrete H d (Z.of_nat f) = Ok fld -> normalize_typeofbottom_layout_alias H fld = Ok q -> q = fld) ->
  wf_layout H depth d ly.
Proof.
  intros (nm & flds & ty & fs & _ & Ef & _ & Hi & Hs) Hin Hal. pose proof (infos_for_length _ _ _ _ _ _ _ _ _ Hi) as Hlen. destruct (ls_nfields _ _ Hs) as [Hn Hlf].
  split; [lia |]. intros f fd Hfd. destruct (lookup_lt_is_Some_2 fs f) as [i Hfi]; [apply lookup_lt_Some in Hfd; lia |].
  destruct (lookup_lt_is_Some_2 flds f) as [fld Hfld]; [apply lookup_lt_Some in Hfd; lia |].
  destruct (infos_for_lookup dw nm ty _ flds 0 fs f fld i Hi Hfld Hfi) as (_ & Hst & _ & _).
  destruct (ls_field _ _ Hs f i fd Hfi Hfd) as (Hip & Hsz & Hd & Hlk & He). destruct (ls_ptrs _ _ Hs) as (_ & _ & [_ Hpin] & Hps). unfold wf_field. rewrite Hip.
  destruct (slot_isptr i) eqn:Ep.
  - assert (Hsl : slot_ptrs i = [0]) by (unfold slot_isptr, slot_ptrs in *; by destruct (fi_slot i)).
    assert (Hwi : wf_slot (fi_slot i)) by (unfold slot_isptr in Ep; by destruct (fi_slot i)).
    destruct (Z.divide_trans 8 _ _ (proj2 (slot_ptrs_in i Hwi) ltac:(by rewrite Hsl)) Hd) as [o Ho]. exists o.
    assert (Ho' : o ∈ ptrs ly) by (apply Hps; exists f, i, fd, 0; rewrite Hsl; repeat split; [done | done | left | lia]).
    rewrite Forall_forall in Hpin. specialize (Hpin o Ho'). repeat split; [done | lia | lia | lia].
  - destruct Hst as [? | Hst]; [done |]. pose proof (inline_at_wf depth H fld _ HI Hst) as Hwi.
    assert (Hft : jl_field_type_concrete H d (Z.of_nat f) = Ok fld).
    { rewrite (Hin f fd Hfd) by congruence. unfold jl_field_type_concrete. rewrite Ef. cbn [obind]. apply rd_lookup. split; [lia |]. by rewrite Nat2Z.id. }
    split.
    + intros Hpl. unfold plain_bits in Hpl. apply andb_prop in Hpl as [Hpad%negb_true_iff Hbe]. rewrite (ls_bitsegal _ _ Hs) in Hbe.
      destruct (ls_padding _ _ Hs Hpad) as (Hl0 & _ & Hpd & _). assert (Hifs : i ∈ fs) by (by eapply list_elem_of_lookup_2).
      assert (Hbi : slot_bitsegal i = true) by (eapply forallb_forall; [exact Hbe | by apply list_elem_of_In]).
      assert (Hpi : slot_padding i = false). { destruct (slot_padding i) eqn:E; [| done]. enough (existsb slot_padding fs = true) by congruence. apply existsb_exists. exists i. by rewrite <- list_elem_of_In. }
      destruct (inline_plain fld i Hst Hwi Ep Hbi Hpi) as (Hu & fdt & fly & Ed & El & Hplf & Hbas & Hle); [by intros q; apply (Hal f fd fld q) |].
      exists fld, fdt, fly. pose proof (ba_size _ Hbas). repeat split; try done; try lia.
      * intros Hfp. rewrite (ba_first_ptr _ Hbas) in Hfp |- *. destruct (ba_ptrs _ Hbas) as [_ Hpf]. destruct (ptrs fly) as [| p ps]; [cbn in Hfp; lia |]. apply Forall_cons in Hpf as [? _]. cbn. lia.
    + intros ft sel ft' fdt fly Et Hu Hc. rewrite Hft in Et. injection Et as <-.
      by apply (inline_union_pointerfree fld (fi_slot i) sel ft').
Qed.
End Bridge.

(** ** The theorems *)

(** C6: Field offsets: if the fields of a struct, laid out one after the other at the least aligned
    offsets, fit the descriptor, the code returns that layout: every field is aligned, inside the
    struct and disjoint from the others and from the lock, the table of references lists exactly the
    references of the fields in increasing order, no descriptor entry is truncated, and the padding
    flag is clear only if the fields fill the struct. *)
Theorem field_offsets_correct (vector : option Z) (fs : list field_info) :
  wf_fields fs -> wf_vector vector fs -> fits vector fs ->
  exists ly, layout_of_fields vector fs = Ok (inr (ly, existsb slot_zeroinit fs)) /\ layout_spec fs ly /\
    size ly = total_size vector fs /\ alignment ly = total_align vector fs.
Proof. exact (layout_of_fields_spec vector fs). Qed.



(** ** Checking the hypotheses on a heap *)

Section Checks.
Context (depth : nat) (rank : ptr -> nat) (H : heap).

Definition each_type (P : ptr -> jl_datatype_t -> bool) : bool :=
  forallb (fun po => match obody po.2 with BDatatype d => P po.1 d | _ => true end) (map_to_list (objects H)).

Lemma each_type_spec P : each_type P = true -> forall p d, get_datatype H p = Ok d -> P p d = true.
Proof.
  intros HP p d (o & Eo & Eb)%get_datatype_object. unfold each_type in HP. rewrite forallb_forall in HP. apply elem_of_map_to_list, list_elem_of_In in Eo.
  specialize (HP _ Eo). cbn in HP. by rewrite Eb in HP.
Qed.

Definition is_ok {A} (m : outcome A) (P : A -> bool) : bool := match m with Ok a => P a | _ => false end.

Definition pow2_b (x : Z) : bool := existsb (Z.eqb x) [1; 2; 4; 8; 16; 32; 64].
Lemma pow2_b_spec x : pow2_b x = true -> pow2 x /\ 1 <= x <= 64.
Proof.
  unfold pow2_b. intros (y & Hy & ->%Z.eqb_eq)%existsb_exists. cbn in Hy. repeat destruct Hy as [<- | Hy]; [by split; [exists 0 |] | by split; [exists 1 |] | by split; [exists 2 |]
    | by split; [exists 3 |] | by split; [exists 4 |] | by split; [exists 5 |] | by split; [exists 6 |] | done].
Qed.

(** Layouts without references. *)
Definition bits_b (ly : jl_datatype_layout_t) : bool :=
  pow2_b (alignment ly) && (0 <=? size ly) && (size ly <? 2 ^ 32) && (npointers ly =? 0) && (first_ptr ly =? -1) && match ptrs ly with [] => true | _ => false end.
Lemma bits_b_spec ly : bits_b ly = true -> basic ly.
Proof.
  unfold bits_b. intros ((((([Ha Hb]%pow2_b_spec & Hs%Z.leb_le)%andb_prop & Hs2%Z.ltb_lt)%andb_prop & Hn%Z.eqb_eq)%andb_prop & Hf%Z.eqb_eq)%andb_prop & Hp)%andb_prop.
  destruct (ptrs ly) as [| ? ?] eqn:Ep; [| done]. split; try done; rewrite ?Ep; try done; [split; [done | lia] | by split; constructor |].
  unfold jl_is_layout_opaque. by rewrite Hn, andb_false_r.
Qed.

Definition layouts_b : bool := each_type (fun _ d => match dt_layout d with
  | Some ly => (nfields ly =? 0) && is_ok (get_typename H (dt_name d)) (fun nm => negb (tn_mayinlinealloc nm) || bits_b ly) | None => true end).
Lemma layouts_b_spec : layouts_b = true -> layouts_wf depth H.
Proof.
  intros HB. split.
  - intros p d ly nm Ed El En Hm. pose proof (each_type_spec _ HB p d Ed) as E. cbn in E. rewrite El, En in E. cbn in E. rewrite Hm in E.
    apply andb_prop in E as [_ E]. by apply bits_b_spec.
  - intros p d ly Ed El Hn. pose proof (each_type_spec _ HB p d Ed) as E. cbn in E. rewrite El in E. apply andb_prop in E as [E%Z.eqb_eq _]. lia.
Qed.

Fixpoint field_ok_b (n : nat) (r : nat) (fld : ptr) : bool :=
  is_ok (jl_is_uniontype H fld) (fun u =>
    if u : bool then
      match n with
      | O => false
      | S n' => is_ok (ptr_field H fld 0) (field_ok_b n' r) && is_ok (ptr_field H fld 1) (field_ok_b n' r)
      end
    else is_ok (normalize_typeofbottom_layout_alias H fld) (fun q =>
      is_ok (get_datatype H q) (fun d => is_ok (get_typename H (dt_name d)) (fun nm => negb (tn_mayinlinealloc nm) || (rank q <? r)%nat)))).
Lemma is_ok_inv {A} (m : outcome A) P : is_ok m P = true -> exists a, m = Ok a /\ P a = true.
Proof. destruct m; try done. intros E. by eexists. Qed.
Lemma field_ok_b_spec n r : forall fld, field_ok_b n r fld = true -> field_ok rank H r fld.
Proof.
  induction n as [| n IH]; intros fld; cbn [field_ok_b]; intros (u & Eu & E)%is_ok_inv; destruct u; try done.
  2:{ apply andb_prop in E as [(a & Ea & Ha)%is_ok_inv (b & Eb & Hb)%is_ok_inv]. eapply fo_union; eauto. }
  all: apply is_ok_inv in E as (q & Eq & (d & Ed & (nm & En & E)%is_ok_inv)%is_ok_inv); eapply fo_leaf; [done | done |];
    intros d' nm' Ed' En' Hm; rewrite Ed in Ed'; injection Ed' as <-; rewrite En in En'; injection En' as <-; rewrite Hm in E; by apply Nat.ltb_lt in E.
Qed.

(** Programs without memories and with field types in place. *)
Definition types_b : bool := each_type (fun p d =>
  is_ok (get_typename H (dt_name d)) (fun nm =>
    ((tn_wrapper nm =? 0) || is_ok (jl_unwrap_unionall H depth (tn_wrapper nm)) (fun w => is_ok (get_datatype H w) (fun dw => dt_name dw =? dt_name d)))
    && (negb (tn_mayinlinealloc nm) || negb (existsb (Z.eqb p) (map (small_typeof H) [jl_symbol_tag; jl_string_tag; jl_simplevector_tag; jl_module_tag]))))
  && negb (dt_name d =? jl_genericmemory_typename H)
  && (negb (dt_isprimitivetype d) || match dt_layout d with Some ly => negb (jl_is_layout_opaque ly) | None => false end)
  && is_ok (get_svec H (dt_types d)) (forallb (field_ok_b depth (rank p)))).
Lemma types_b_spec : types_b = true -> wf_types depth rank H.
Proof.
  intros HB. assert (HB' := each_type_spec _ HB). cbn beta in HB'.
  split; intros p d; [intros nm Ed En Hn | intros nm Ed En Hm | intros Ed Hp | intros flds Ed Ef | intros t Ed En];
    pose proof (HB' p d Ed) as [[[(nm' & En' & [Hw Ho]%andb_prop)%is_ok_inv Hg]%andb_prop Hpr]%andb_prop Hf]%andb_prop.
  - rewrite En in En'. injection En' as <-. apply orb_prop in Hw as [Hw%Z.eqb_eq | (w & Ew & (dw & Edw & Hw%Z.eqb_eq)%is_ok_inv)%is_ok_inv]; [done | by exists w, dw].
  - rewrite En in En'. injection En' as <-. rewrite Hm in Ho. cbn [negb orb] in Ho. split; [by apply negb_true_iff, Z.eqb_neq in Hg |].
    intros Hin. apply negb_true_iff in Ho. enough (Ht : existsb (Z.eqb p) (map (small_typeof H) [jl_symbol_tag; jl_string_tag; jl_simplevector_tag; jl_module_tag]) = true) by congruence.
    apply existsb_exists. exists p. split; [by apply list_elem_of_In | apply Z.eqb_refl].
  - rewrite Hp in Hpr. cbn in Hpr. destruct (dt_layout d) as [ly |]; [| done]. exists ly. by apply negb_true_iff in Hpr.
  - rewrite Ef in Hf. cbn in Hf. rewrite forallb_forall in Hf. apply Forall_forall. intros fld Hin%list_elem_of_In. by eapply field_ok_b_spec, Hf.
  - by rewrite En, Z.eqb_refl in Hg.
Qed.
(** Small structs fit. *)
Definition small_req (s : slot) : bool :=
  match s with
  | SPointer _ => true
  | SUnion fsz al => (0 <=? fsz) && (fsz <? 4000) && (1 <=? al) && (al <=? 64)
  | SInline fsz al _ _ _ => (0 <=? fsz) && (fsz <? 4000) && (1 <=? al) && (al <=? 64)
  end.
Lemma small_slot i : small_req (fi_slot i) = true -> 0 <= slot_size i <= 4000 /\ 1 <= slot_align i <= 64.
Proof.
  intros Hs. assert (Hr : 0 <= (slot_req i).1 <= 4000 /\ 1 <= (slot_req i).2 <= 64).
  { unfold small_req, slot_req in *. destruct (fi_slot i); cbn in *; [lia | |]; apply andb_prop in Hs as [[[?%Z.leb_le ?%Z.ltb_lt]%andb_prop ?%Z.leb_le]%andb_prop ?%Z.leb_le]; lia. }
  unfold slot_size, slot_align. destruct (small_atomic i) eqn:E; [| lia]. unfold small_atomic in E. apply andb_prop in E as [_ E%Z.leb_le].
  destruct (Z.eqb_spec (slot_req i).1 0); [lia |]. pose proof (npo2_small (slot_req i).1 ltac:(lia)). unfold MAX_ATOMIC_SIZE in *. lia.
Qed.

Lemma small_fits fs : Forall (fun i => small_req (fi_slot i) = true) fs -> Z.of_nat (length fs) <= 1000 -> fits None fs.
Proof.
  intros Hs Hl. assert (Hm : forall al, 1 <= al <= 64 -> 1 <= max_align fs al <= 64).
  { clear Hl. induction Hs as [| i fs Hi Hs IH]; intros al Hal; cbn; [done |]. apply IH. pose proof (small_slot i Hi). lia. }
  assert (He : forall sz, 0 <= sz -> 0 <= fields_end fs sz <= sz + 4064 * Z.of_nat (length fs)).
  { clear Hl Hm. induction Hs as [| i fs Hi Hs IH]; intros sz Hsz; cbn [fields_end length]; [lia |]. pose proof (small_slot i Hi) as [? ?].
    pose proof (align_up_spec sz (slot_align i) ltac:(lia)) as [_ ?]. specialize (IH (align_up sz (slot_align i) + slot_size i) ltac:(lia)). lia. }
  specialize (Hm 1 ltac:(lia)). specialize (He 0 ltac:(lia)). assert (Hk : 0 <= lock_size fs <= 80).
  { unfold lock_size. destruct (existsb _ _); [| lia]. pose proof (align_up_spec sizeof_jl_mutex_t (max_align fs 1) ltac:(lia)) as [_ ?]. unfold sizeof_jl_mutex_t in *. lia. }
  split; [eapply Forall_impl; [exact Hs |]; intros i Hi; pose proof (small_slot i Hi); lia |]. unfold total_size, total_align.
  pose proof (align_up_spec (fields_end fs 0 + lock_size fs) (max_align fs 1) ltac:(lia)) as [_ ?]. repeat split; lia.
Qed.

Definition fit_b : bool := each_type (fun p d =>
  negb (dt_name d =? jl_tuple_typename H) &&
  is_ok (get_svec H (dt_types d)) (fun flds => (Z.of_nat (length flds) <=? 1000) &&
    forallb (fun fld => match inline_at depth H fld with Ok s => small_req s | _ => true end) flds)).
Lemma fit_b_spec : fit_b = true -> types_fit depth H.
Proof.
  intros HB p d nm flds ty fs v Ed En Ef Eh Hi Hv. pose proof (each_type_spec _ HB p d Ed) as [Ht Hc]%andb_prop. rewrite Ef in Hc. cbn in Hc.
  apply andb_prop in Hc as [Hl%Z.leb_le Hc]. rewrite <- (infos_for_length _ _ _ _ _ _ _ _ _ Hi) in Hl.
  assert (v = None) as ->.
  { destruct Hv as [-> | (al & _ & _ & Htu & _)]; [done |]. apply obind_Ok_inv in Htu as (b & _ & Htu). destruct b; [| done]. rewrite Ed in Htu. injection Htu as Htu. by rewrite Htu in Ht. }
  apply small_fits; [| done]. clear -Hc Hi. revert fs Hi. generalize 0 as k. generalize (Z.of_nat (length flds)) as nf. induction flds as [| fld flds IH]; intros nf k [| i fs]; cbn; try done.
  cbn in Hc. apply andb_prop in Hc as [Hf Hc]. intros [(_ & Hs & _) Hi]. constructor; [| by eapply IH].
  destruct Hs as [Hs | Hs]; [unfold slot_isptr in Hs; by destruct (fi_slot i) | by rewrite Hs in Hf].
Qed.
End Checks.

(** ** A heap

    [struct Inner; a::Int8; u::Union{Int8,Int64}; s::String end] and
    [struct Outer; x::Int8; inner::Inner; b::Int64 end], not laid out yet;
    [struct WithBottom; t::Type{Union{}}; s::String end] and two instances
    that differ in the string. *)
Definition demo_addr (t : jl_small_typeof_tags) : Z := 16384 + 16 * index_of t small_tags.
Definition demo_words (l : list Z) : body := BData (concat (map (le_bytes 8) l)).
Definition demo_small (t : jl_small_typeof_tags) (b : body) : obj := Obj 0 (tag t) b.
Definition bits_type_layout (sz : Z) : jl_datatype_layout_t := Layout sz 0 0 (-1) sz false JL_FIELDDESC_8 0 true [] [].

Definition demo_smalltag (a : Z) : Z := if a <? demo_addr jl_tags_count then (a - 16384) / 16 else 0.

(** A type at [a], its name at [a + 16384] and its field types at [a + 32768]. *)
Definition demo_type (a : Z) (mutabl mayinlinealloc primitive : bool) (ly : option jl_datatype_layout_t) (flds : list Z) : list (Z * obj) :=
  [(a, demo_small jl_datatype_tag (BDatatype (Datatype (a + 16384) 8192 (a + 32768) 0 ly a true primitive false false primitive true true true (demo_smalltag a))));
   (a + 16384, Obj 0 4096 (BTypename (Typename a a false mutabl mayinlinealloc 0 None None)));
   (a + 32768, demo_small jl_simplevector_tag (BSvec flds))].

Definition Int64 : Z := demo_addr jl_int64_tag.
Definition Int8 : Z := demo_addr jl_int8_tag.
Definition String : Z := demo_addr jl_string_tag.
Definition TypeofBottom : Z := demo_addr jl_typeofbottom_tag.
Definition Union_Int8_Int64 : Z := 9008.
Definition Type_Bottom : Z := 9024.
Definition Bottom : Z := 9040.
Definition Inner : Z := 17408.
Definition Outer : Z := 17424.
Definition WithBottom : Z := 17440.

Definition demo_types : heap :=
  Heap (list_to_map (
    demo_type Int64 false true true (Some (bits_type_layout 8)) [] ++ demo_type Int8 false true true (Some (bits_type_layout 1)) [] ++
    demo_type String true false false (Some opaque_byte_layout) [] ++ demo_type TypeofBottom false true false (Some singleton_layout) [] ++
    demo_type Inner false true false None [Int8; Union_Int8_Int64; String] ++ demo_type Outer false true false None [Int8; Inner; Int64] ++
    demo_type WithBottom false true false None [Type_Bottom; String] ++
    [(8192, demo_small jl_simplevector_tag (BSvec [])); (Union_Int8_Int64, demo_small jl_uniontype_tag (demo_words [Int8; Int64]));
     (Type_Bottom, demo_small jl_typeeq_tag (demo_words [Bottom])); (Bottom, demo_small jl_typeofbottom_tag (BData []));
     (9056, demo_small jl_string_tag (BString [104])); (9072, demo_small jl_string_tag (BString [105]));
     (9088, Obj 0 WithBottom (demo_words [9056])); (9104, Obj 0 WithBottom (demo_words [9072]))]))
    demo_addr 4096 1 0 2 3 4 5 Bottom 0 0 0 6 7.

Definition demo_rank (p : ptr) : nat := if p =? Outer then 2 else if p =? Inner then 1 else if p =? WithBottom then 1 else 0.
Definition demo_alloc (H : heap) (_ : Z) : ptr := fresh (dom (objects H)).

Lemma demo_alloc_fresh H sz : objects H !! demo_alloc H sz = None.
Proof. apply not_elem_of_dom. unfold demo_alloc. apply is_fresh. Qed.

Definition after (m : M unit) (H : heap) : heap := match m H with Ok (_, H') => H' | _ => H end.
Definition returns (m : M unit) (H : heap) : bool := match m H with Ok (Ret tt, _) => true | _ => false end.
Lemma returns_after m H : returns m H = true -> m H = Ok (Ret tt, after m H).
Proof. unfold returns, after. by destruct (m H) as [[[[] |] ?] | |]. Qed.

Definition demo_laid : heap := after (jl_compute_field_offsets 5 demo_alloc 5 Outer) demo_types.

Lemma field_offsets_correct_witness :
  let fs := [FieldInfo (SInline 1 1 1 (bits_type_layout 1) false) false false true; FieldInfo (SPointer false) false false false;
             FieldInfo (SUnion 8 8) false false false] in
  exists ly, layout_of_fields None fs = Ok (inr (ly, true)) /\ layout_spec fs ly /\ size ly = 32 /\ alignment ly = 8.
Proof.
  apply (field_offsets_correct None
    [FieldInfo (SInline 1 1 1 (bits_type_layout 1) false) false false true; FieldInfo (SPointer false) false false false; FieldInfo (SUnion 8 8) false false false]).
  - repeat constructor; cbn; try lia; try (by exists 0); try (by exists 3); done.
  - exact I.
  - apply small_fits; [repeat constructor | cbn; lia].
Defined.

Definition demo_get (H : heap) (p : ptr) : jl_datatype_t :=
  match get_datatype H p with Ok d => d | _ => Datatype 0 0 0 0 None 0 false false false false false false false false 0 end.

(** The hypotheses of the theorem hold in the heap above. *)
Lemma demo_types_wf : wf_types 5 demo_rank demo_types /\ layouts_wf 5 demo_types /\ get_datatype demo_types Outer = Ok (demo_get demo_types Outer) /\
  dt_layout (demo_get demo_types Outer) = None /\ jl_compute_field_offsets 5 demo_alloc 5 Outer demo_types = Ok (Ret tt, demo_laid) /\ types_fit 5 demo_laid.
Proof.
  split; [apply types_b_spec; vm_compute; reflexivity |]. split; [apply layouts_b_spec; vm_compute; reflexivity |]. split; [vm_compute; reflexivity |].
  split; [vm_compute; reflexivity |]. split; [apply returns_after; vm_compute; reflexivity | apply fit_b_spec; vm_compute; reflexivity].
Qed.


Lemma demo_laid_wf : layouts_wf 5 demo_laid.
Proof.
  destruct demo_types_wf as (Hw & HL & Ed & El & E & HF).
  destruct (compute_field_offsets_step 5 demo_rank demo_alloc demo_alloc_fresh 5 Outer (demo_get demo_types Outer) demo_types (Ret tt) demo_laid Hw Ed El E) as [_ _ HS].
  by apply (HS demo_laid).
Qed.

Lemma Ok_inj {X} (a b : X) : Ok a = Ok b -> a = b.
Proof. by intros [= ->]. Qed.

Definition demo_layout (H : heap) (p : ptr) : jl_datatype_layout_t := default singleton_layout (dt_layout (demo_get H p)).


(** ** Where the code goes wrong *)

Definition huge : slot := SInline (2 ^ 31 - 1) 1 (2 ^ 31 - 1) (Layout (2 ^ 31 - 1) 0 0 (-1) 1 false JL_FIELDDESC_8 0 true [] []) false.
Definition plain_field (s : slot) : field_info := FieldInfo s false false false.

(** C35: Sizes that do not fit are not always refused; two structs and all vectors. Of the fields of
    2^31 - 1, 2^31 - 1, 1 and 8 bytes, the first three end at 2^32 - 1, so the last, aligned to 8, goes
    to offset 2^32: the test [max_offset - sz < fsz] wraps, the field is stored at offset 0, on top of the
    first one, and the struct has size 8. A single inline union of 2^31 - 1 bytes has, with its selector,
    a size that is stored as 0. And 65536 vector elements of one byte need the alignment 65536, which is
    stored as 0 in every layout with that alignment. *)
Theorem layout_offsets_wrap :
  (exists ly, layout_of_fields None (map plain_field [huge; huge; SInline 1 1 1 (bits_type_layout 1) false; SInline 8 8 8 (bits_type_layout 8) false]) = Ok (inr (ly, false)) /\
     size ly = 8 /\ fields ly !! 0%nat = Some (FieldDesc false (2 ^ 31 - 1) 0) /\ fields ly !! 3%nat = Some (FieldDesc false 8 0)) /\
  (exists ly, layout_of_fields None [plain_field (SUnion (2 ^ 31 - 1) 1)] = Ok (inr (ly, true)) /\ fields ly = [FieldDesc false 0 0]) /\
  (next_power_of_two (u64 (65536 * 1)) = 65536 /\
   forall sz nf np hp be ae desc ps ly, jl_get_layout sz nf np 65536 hp be ae desc ps = Ok ly -> alignment ly = 0).
Proof.
  split; [eexists; split; [vm_compute; reflexivity | done] |]. split; [eexists; split; [vm_compute; reflexivity | done] |]. split; [done |].
  intros sz nf np hp be ae desc ps ly. unfold jl_get_layout. cbn [Z.eqb]. destruct (_ || _); [done |].
  intros (? & _ & (? & _ & (? & _ & (? & _ & [= <-])%obind_Ok_inv)%obind_Ok_inv)%obind_Ok_inv)%obind_Ok_inv. done.
Qed.

(** An atomic field of three bytes takes four, and the struct is not marked as
    padded. *)
Example atomic_padding_unmarked :
  exists ly, layout_of_fields None [FieldInfo (SInline 3 1 3 (Layout 3 0 0 (-1) 1 false JL_FIELDDESC_8 0 true [] []) false) true false true] = Ok (inr (ly, false)) /\
    size ly = 4 /\ fields ly = [FieldDesc false 4 0] /\ haspadding ly = false.
Proof. eexists. split; [vm_compute; reflexivity | done]. Qed.

(** [Memory{Type{Union{}}}]. *)
Definition MemoryOfBottom : Z := 17456.
Definition demo_memory : heap := with_objects demo_types (
  <[MemoryOfBottom := demo_small jl_datatype_tag (BDatatype (Datatype 4 8208 8192 0 None 0 true false false false false true false false 0))]>
  (<[4 := Obj 0 4096 (BTypename (Typename MemoryOfBottom 0 false true false 0 None None))]>
  (<[8208 := demo_small jl_simplevector_tag (BSvec [7; Type_Bottom; 9120])]>
  (<[9120 := demo_small jl_addrspacecore_tag (BData [0])]> (objects demo_types))))).

(** A field of type [Type{Union{}}] is stored inline, as [typeof(Union{})], but its type is not a data
    type: comparing two structs with such a field reads the layout of the [TypeEq] object, as does
    computing the layout of a memory with such elements. *)
Theorem bottom_alias_not_normalized :
  jl_compute_field_offsets 5 demo_alloc 5 WithBottom demo_types = Ok (Ret tt, after (jl_compute_field_offsets 5 demo_alloc 5 WithBottom) demo_types) /\
  jl_egal (after (jl_compute_field_offsets 5 demo_alloc 5 WithBottom) demo_types) 5 5 9088 9104 = UB /\
  jl_compute_field_offsets 5 demo_alloc 5 MemoryOfBottom demo_memory = UB.
Proof. split; [apply returns_after; vm_compute; reflexivity | split; vm_compute; reflexivity]. Qed.
