(* ===== verification/Bits.v ===== *)
(** * Values from memory (datatype.c, threading.c)

    Boxes: objects made from bits in memory ([jl_new_bits] and its atomic
    variants), with the caches of small integers; copying of values into
    memory; the locks of large atomic fields.  Every function is one step of
    one thread: an atomic operation is a load and a store with nothing between
    them.  The barriers that inform the collector of a store change nothing
    here.

    [alloc] chooses the address of a new object and [junk] is what its memory
    holds; the allocator rounds sizes up to words at least.  [self] is the
    current task, which owns the locks it takes. *)

From stdpp Require Import base gmap numbers option list.
From Stdlib Require Import ZArith Lia.
From S2P Require Import Prelude Probe Identity Hashing Bytes Objects Egal HeapMonad LayoutCore Layout.

(** ** Memory *)

Definition put_obj (p : ptr) (o : obj) (H : heap) : heap := with_objects H (<[p := o]> (objects H)).

Definition store_bytes (l : loc) (bs : list Z) (H : heap) : outcome heap :=
  let! o := deref H l.1 in
  match obody o with
  | BData data =>
      if (0 <=? l.2) && (l.2 + Z.of_nat (length bs) <=? Z.of_nat (length data)) then
        Ok (put_obj l.1 (Obj (before o) (header o)
              (BData (take (Z.to_nat l.2) data ++ bs ++ drop (Z.to_nat l.2 + length bs) data))) H)
      else UB
  | _ => UB
  end.

Definition load (l : loc) (w : Z) : M Z := reads (fun H => load_uint H l w).
Definition store (l : loc) (w : Z) (x : Z) : M unit := writes (store_bytes l (le_bytes (Z.to_nat w) x)).
Definition memcpy (dst src : loc) (n : Z) : M unit :=
  let* bs := reads (fun H => load_bytes H src n) in writes (store_bytes dst bs).
Definition memset0 (dst : loc) (n : Z) : M unit := writes (store_bytes dst (replicate (Z.to_nat n) 0)).

(** [jl_atomic_exchange] *)
Definition atomic_exchange (l : loc) (w z : Z) : M Z := let* y := load l w in store l w z ;; ret y.

(** [jl_atomic_cmpswap(l, &y, z)]: whether it stored, and [y] afterwards. *)
Definition atomic_cmpswap (l : loc) (w y z : Z) : M (bool * Z) :=
  let* x := load l w in
  if x =? y then store l w z ;; ret (true, y) else ret (false, x).

(** Word by word, from the end if the areas overlap that way. *)
Fixpoint copy_words (dst src : loc) (ks : list Z) : M unit :=
  match ks with
  | [] => ret tt
  | k :: ks => let* x := load (shift src (8 * k)) 8 in store (shift dst (8 * k)) 8 x ;; copy_words dst src ks
  end.

Definition memmove_refs (dst src : loc) (n : Z) : M unit :=
  let dstp := dst.1 + dst.2 in
  let srcp := src.1 + src.2 in
  if (dstp <? srcp) || (srcp + 8 * n <? dstp) then copy_words dst src (seqZ 0 n)
  else copy_words dst src (rev (seqZ 0 n)).

Section Bits.
Context (depth : nat) (alloc : heap -> Z -> ptr) (junk : heap -> Z -> Z) (self : ptr).

Definition memassign_safe (hasptr : bool) (dst : loc) (src : ptr) (nb : Z) : M unit :=
  let* t := reads (fun H => jl_typeof H src) in
  let* sz := reads (fun H => jl_datatype_size H depth t) in
  if negb (nb =? sz) then undefined
  else if hasptr then
    let nptr := nb / 8 in
    memmove_refs dst (src, 0) nptr ;;
    let nb := nb - nptr * 8 in
    if nb =? 0 then ret tt else memcpy (shift dst (nptr * 8)) (src, nptr * 8) nb
  else if 16 <=? nb then memcpy dst (src, 0) nb
  else memcpy dst (src, 0) nb.

(** ** Allocation *)

Definition uninitialized (H : heap) (n : Z) : list Z := map (fun i => u8 (junk H i)) (seqZ 0 n).

Definition jl_gc_alloc (sz : Z) (ty : ptr) : M ptr := fun H =>
  let v := alloc H sz in
  Ok (Ret v, put_obj v (Obj 0 ty (BData (uninitialized H (LLT_ALIGN sz 8)))) H).

Definition set_header (v : ptr) (h : Z) (H : heap) : outcome heap :=
  let! o := deref H v in Ok (put_obj v (Obj (before o) h (obody o)) H).
Definition jl_set_typetagof (v : ptr) (t gc : Z) : M unit := writes (set_header v (Z.lor (Z.shiftl t 4) gc)).

(** ** Boxes *)

Definition NBOX_C : Z := 1024.

Record boxes := Boxes {
  jl_true : ptr;
  jl_false : ptr;
  boxed_cache : jl_small_typeof_tags -> list ptr
}.
Context (B : boxes).

(** The value of a signed integer of [w] bytes. *)
Definition to_signed (w x : Z) : Z := (x + 2 ^ (8 * w - 1)) mod 2 ^ (8 * w) - 2 ^ (8 * w - 1).

(** A new box: what the macros below do for a value that is not cached. *)
Definition new_box (t : jl_small_typeof_tags) (w x : Z) : M ptr :=
  let* ty := reads (fun H => Ok (small_typeof H t)) in
  let* v := jl_gc_alloc (LLT_ALIGN w 8) ty in
  jl_set_typetagof v (index_of t small_tags) 0 ;;
  store (v, 0) w x ;;
  ret v.

(** [ty] is the type the macro is used for. *)
Definition BOX_FUNC (ty : ptr) (w x : Z) : M ptr :=
  let* v := jl_gc_alloc (LLT_ALIGN w 8) ty in
  store (v, 0) w x ;;
  ret v.

(** The bits of the result, as an unsigned number. *)
Definition UNBOX_FUNC (w : Z) (v : ptr) : M Z :=
  let* t := reads (fun H => jl_typeof H v) in
  let* prim := reads (fun H => jl_is_primitivetype H t) in
  if negb prim then undefined
  else
    let* sz := reads (fun H => jl_datatype_size H depth t) in
    if negb (sz =? w) then undefined else load (v, 0) w.

Definition SIBOX_FUNC (t : jl_small_typeof_tags) (w x : Z) : M ptr :=
  let idx := to_signed w (x + NBOX_C / 2) in
  if idx mod 2 ^ (8 * w) <? NBOX_C then reads (fun _ => rd (boxed_cache B t) idx) else new_box t w x.

Definition UIBOX_FUNC (t : jl_small_typeof_tags) (w x : Z) : M ptr :=
  if x <? NBOX_C then reads (fun _ => rd (boxed_cache B t) x) else new_box t w x.

Definition bswap_32 (x : Z) : Z := le_word (rev (le_bytes 4 x)).
Definition jl_box_char (x : Z) : M ptr :=
  let u := bswap_32 x in
  if u <? 128 then reads (fun _ => rd (boxed_cache B jl_char_tag) (u8 u)) else new_box jl_char_tag 4 x.

Definition jl_box_int8 (x : Z) : M ptr := reads (fun _ => rd (boxed_cache B jl_int8_tag) (u8 x)).
Definition jl_box_uint8 (x : Z) : M ptr := reads (fun _ => rd (boxed_cache B jl_uint8_tag) x).

Definition jl_box_bool (x : Z) : ptr := if negb (x =? 0) then jl_true B else jl_false B.

(** The value of the type's small tag. *)
Definition smalltag (d : jl_datatype_t) : option jl_small_typeof_tags := small_tags !! Z.to_nat (dt_smalltag d).

(** The types with special pools: how many bytes they have and the box of a
    value of that width.  The switches of [jl_new_bits] and its variants. *)
Definition pooled (t : option jl_small_typeof_tags) : option (Z * (Z -> M ptr)) :=
  match t with
  | Some jl_bool_tag => Some (1, fun x => ret (if negb (Z.land 1 x =? 0) then jl_true B else jl_false B))
  | Some jl_uint8_tag => Some (1, jl_box_uint8)
  | Some jl_int64_tag => Some (8, fun x => SIBOX_FUNC jl_int64_tag 8 (to_signed 8 x))
  | Some jl_int32_tag => Some (4, fun x => SIBOX_FUNC jl_int32_tag 4 (to_signed 4 x))
  | Some jl_int8_tag => Some (1, fun x => jl_box_int8 (to_signed 1 x))
  | Some jl_int16_tag => Some (2, fun x => SIBOX_FUNC jl_int16_tag 2 (to_signed 2 x))
  | Some jl_uint64_tag => Some (8, UIBOX_FUNC jl_uint64_tag 8)
  | Some jl_uint32_tag => Some (4, UIBOX_FUNC jl_uint32_tag 4)
  | Some jl_uint16_tag => Some (2, UIBOX_FUNC jl_uint16_tag 2)
  | Some jl_char_tag => Some (4, jl_box_char)
  | Some jl_ssavalue_tag => Some (8, UIBOX_FUNC jl_ssavalue_tag 8)
  | Some jl_slotnumber_tag => Some (8, UIBOX_FUNC jl_slotnumber_tag 8)
  | _ => None
  end.

(** *** The caches *)

Definition permbox (t : jl_small_typeof_tags) (nb : Z) (x : Z) : M ptr := fun H =>
  let v := alloc H (LLT_ALIGN nb 8) in
  let tg := index_of t small_tags in
  if tg =? 0 then UB
  else
    let data := uninitialized H (LLT_ALIGN nb 8) in
    let H := put_obj v (Obj 0 (Z.lor (Z.shiftl tg 4) 3) (BData data)) H in
    (let* _ := store (v, 0) (nb / 8) x in ret v) H.

Fixpoint permboxes (l : list (jl_small_typeof_tags * Z * Z)) : M (list ptr) :=
  match l with
  | [] => ret []
  | (t, nb, x) :: l => let* v := permbox t nb x in let* vs := permboxes l in ret (v :: vs)
  end.

(** A loop that makes one box of each kind for every [i]. *)
Fixpoint permbox_rows (row : Z -> list (jl_small_typeof_tags * Z * Z)) (l : list Z) : M (list (list ptr)) :=
  match l with
  | [] => ret []
  | i :: l => let* vs := permboxes (row i) in let* rows := permbox_rows row l in ret (vs :: rows)
  end.
Definition column (k : nat) (rows : list (list ptr)) : list ptr := map (fun vs => nth k vs 0) rows.

Definition jl_init_box_caches (tru fls : ptr) : M boxes :=
  let* r := permbox_rows (fun i =>
    [(jl_int32_tag, 32, i - NBOX_C / 2); (jl_int64_tag, 64, i - NBOX_C / 2); (jl_uint16_tag, 16, i); (jl_uint64_tag, 64, i);
     (jl_uint32_tag, 32, i); (jl_int16_tag, 16, i - NBOX_C / 2); (jl_ssavalue_tag, 64, i); (jl_slotnumber_tag, 64, i)]) (seqZ 0 NBOX_C) in
  let* rc := permbox_rows (fun i => [(jl_char_tag, 32, Z.shiftl i 24)]) (seqZ 0 128) in
  let* r8 := permbox_rows (fun i => [(jl_uint8_tag, 8, i); (jl_int8_tag, 8, i)]) (seqZ 0 256) in
  ret (Boxes tru fls (fun t =>
    match t with
    | jl_int32_tag => column 0 r | jl_int64_tag => column 1 r | jl_uint16_tag => column 2 r | jl_uint64_tag => column 3 r
    | jl_uint32_tag => column 4 r | jl_int16_tag => column 5 r | jl_ssavalue_tag => column 6 r | jl_slotnumber_tag => column 7 r
    | jl_char_tag => column 0 rc
    | jl_uint8_tag => column 0 r8 | jl_int8_tag => column 1 r8
    | _ => []
    end)).

(** *** Structs without initialization *)

Definition is_opaque_or_unset (l : option jl_datatype_layout_t) : bool :=
  match l with Some l => jl_is_layout_opaque l | None => true end.

(** The test the constructors start with. *)
Definition constructible (ty : ptr) : M bool :=
  let* isd := reads (fun H => jl_is_datatype H ty) in
  if negb isd then ret false
  else let* d := datatype ty in ret (dt_isconcretetype d && negb (is_opaque_or_unset (dt_layout d))).
Definition bad_type (ty : ptr) : M ptr :=
  let* dt := reads (fun H => Ok (small_typeof H jl_datatype_tag)) in throw (type_error dt ty).

(** A new object of type [ty] with its small tag, if it has one. *)
Definition alloc_tagged (sz : Z) (ty : ptr) : M ptr :=
  let* v := jl_gc_alloc sz ty in
  let* d := datatype ty in
  (if negb (dt_smalltag d =? 0) then jl_set_typetagof v (dt_smalltag d) 0 else ret tt) ;;
  ret v.

Definition jl_new_struct_uninit (ty : ptr) : M ptr :=
  let* ok := constructible ty in
  if negb ok then bad_type ty
  else
    let* d := datatype ty in
    if negb (dt_instance d =? 0) then ret (dt_instance d)
    else
      let* sz := reads (fun H => jl_datatype_size H depth ty) in
      let* jv := alloc_tagged sz ty in
      (if 0 <? sz then memset0 (jv, 0) sz else ret tt) ;;
      ret jv.

(** ** Values from bits *)

Definition jl_new_bits (dt : ptr) (data : loc) : M ptr :=
  let* isd := reads (fun H => jl_is_datatype H dt) in
  if negb isd then undefined
  else
    let* bt := datatype dt in
    match pooled (smalltag bt) with
    | Some (w, box) => let* x := load data w in box x
    | None =>
        let* nb := reads (fun H => jl_datatype_size H depth dt) in
        if nb =? 0 then jl_new_struct_uninit dt
        else
          let* v := alloc_tagged nb dt in
          memcpy (v, 0) data nb ;;
          ret v
    end.

(** The bytes of an object as an integer, extended with zeros. *)
Definition zext_read32 (x : loc) (nb : Z) : M Z :=
  let* y := load x 4 in ret (if nb =? 4 then y else Z.land 0xffffff y).
Definition zext_read64 (x : loc) (nb : Z) : M Z :=
  let* y := load x 8 in
  ret (if nb =? 8 then y else if nb =? 7 then Z.land 0xffffffffffffff y else if nb =? 6 then Z.land 0xffffffffffff y
       else Z.land 0xffffffffff y).
Definition zext_read128 (x : loc) (nb : Z) : M Z :=
  if nb =? 16 then load x 16
  else let* bs := reads (fun H => load_bytes H x nb) in ret (le_word bs).
Definition assign_uint128 (v : loc) (x nb : Z) : M unit :=
  writes (store_bytes v (take (Z.to_nat nb) (le_bytes 16 x))).

(** The width of the atomic operation on [nb] bytes, and what is read from an
    object for it. *)
Definition atomic_read (src : loc) (nb : Z) : M (Z * Z) :=
  if nb =? 1 then let* x := load src 1 in ret (1, x)
  else if nb =? 2 then let* x := load src 2 in ret (2, x)
  else if nb <=? 4 then let* x := zext_read32 src nb in ret (4, x)
  else if nb <=? 8 then let* x := zext_read64 src nb in ret (8, x)
  else if nb <=? 16 then let* x := zext_read128 src nb in ret (16, x)
  else undefined.

Definition jl_atomic_new_bits (dt : ptr) (data : loc) : M ptr :=
  let* isd := reads (fun H => jl_is_datatype H dt) in
  if negb isd then undefined
  else
    let* bt := datatype dt in
    match pooled (smalltag bt) with
    | Some (w, box) => let* x := load data w in box x
    | None =>
        let* nb := reads (fun H => jl_datatype_size H depth dt) in
        if nb =? 0 then jl_new_struct_uninit dt
        else
          let* v := alloc_tagged nb dt in
          (if nb =? 1 then let* x := load data 1 in store (v, 0) 1 x
           else if nb <=? 2 then let* x := load data 2 in store (v, 0) 2 x
           else if nb <=? 4 then let* x := load data 4 in store (v, 0) 4 x
           else if nb <=? 8 then let* x := load data 8 in store (v, 0) 8 x
           else if nb <=? 12 then let* x := load data 16 in assign_uint128 (v, 0) x 12
           else if nb <=? 16 then let* x := load data 16 in store (v, 0) 16 x
           else undefined) ;;
          ret v
    end.

Definition jl_atomic_store_bits (dst : loc) (src : ptr) (nb : Z) : M unit :=
  if nb =? 0 then ret tt
  else let* (w, x) := atomic_read (src, 0) nb in store dst w x.

Definition jl_atomic_swap_bits (dt : ptr) (dst : loc) (src : ptr) (nb : Z) : M ptr :=
  let* isd := reads (fun H => jl_is_datatype H dt) in
  if negb isd then undefined
  else
    let* bt := datatype dt in
    if nb =? 0 then jl_new_struct_uninit dt
    else
      match pooled (smalltag bt) with
      | Some (w, box) =>
          let* x := load (src, 0) w in
          let x := match smalltag bt with Some jl_bool_tag => Z.land 1 x | _ => x end in
          let* y := atomic_exchange dst w x in box y
      | None =>
          let* sz := reads (fun H => jl_datatype_size H depth dt) in
          let* v := alloc_tagged sz dt in
          let* (w, x) := atomic_read (src, 0) nb in
          let* y := atomic_exchange dst w x in
          (if (8 <? nb) && (nb <=? 12) then assign_uint128 (v, 0) y 12 else store (v, 0) w y) ;;
          ret v
      end.

Definition jl_atomic_bool_cmpswap_bits (dst : loc) (expected src : ptr) (nb : Z) : M bool :=
  if nb =? 0 then ret true
  else
    let* (w, y) := atomic_read (expected, 0) nb in
    let* (_, z) := atomic_read (src, 0) nb in
    let* (success, _) := atomic_cmpswap dst w y z in
    ret success.

(** Whether a value can be compared bit by bit. *)
Definition plain (d : jl_datatype_t) : outcome bool := let! ly := the_layout d in Ok (isbitsegal ly && negb (haspadding ly)).

Section Compare.
Context (egal_fuel : nat).

Definition egal__bits (a b : loc) (dt : ptr) : M bool := reads (fun H => jl_egal__bits H depth (jl_egal H depth egal_fuel) a b dt).

(** The loop for values with padding: another representation of the expected
    value is replaced as well.  [assign] stores into the result. *)
Fixpoint cmpswap_loop (n : nat) (dt y : ptr) (d : jl_datatype_t) (dst : loc) (expected : ptr) (w yv z : Z) (assign : Z -> M unit)
    : M bool :=
  match n with
  | O => fun _ => Timeout
  | S n' =>
      let* (success, yv) := atomic_cmpswap dst w yv z in
      assign yv ;;
      let* pl := reads (fun _ => plain d) in
      if success || pl then ret success
      else
        let* eq := egal__bits (y, 0) (expected, 0) dt in
        if negb eq then ret false else cmpswap_loop n' dt y d dst expected w yv z assign
  end.

Definition jl_atomic_cmpswap_bits (tries : nat) (dt y : ptr) (dst : loc) (expected src : ptr) (nb : Z) : M bool :=
  let* d := datatype dt in
  let* et := reads (fun H => jl_typeof H expected) in
  if nb =? 0 then ret (dt =? et)
  else if nb <=? 2 then
    let* pl := reads (fun _ => plain d) in
    if negb pl then undefined
    else if dt =? et then
      let* yv := load (expected, 0) nb in
      store (y, 0) nb yv ;;
      let* z := load (src, 0) nb in
      let* (success, yv) := atomic_cmpswap dst nb yv z in
      store (y, 0) nb yv ;;
      ret success
    else let* x := load dst nb in store (y, 0) nb x ;; ret false
  else if nb <=? 16 then
    let w := if nb <=? 4 then 4 else if nb <=? 8 then 8 else 16 in
    let assign := if nb <=? 8 then store (y, 0) w else fun x => assign_uint128 (y, 0) x nb in
    if dt =? et then
      let* (_, yv) := atomic_read (expected, 0) nb in
      (if nb <=? 8 then assign yv else ret tt) ;;
      let* (_, z) := atomic_read (src, 0) nb in
      cmpswap_loop tries dt y d dst expected w yv z assign
    else let* x := load dst w in assign x ;; ret false
  else undefined.

(** [undefref_check] of a value in a register. *)
Definition undefref_bits (d : jl_datatype_t) (w x : Z) : outcome bool :=
  let! ly := the_layout d in
  if 0 <=? first_ptr ly then
    if 8 * first_ptr ly + 8 <=? w then
      Ok (le_word (take 8 (drop (Z.to_nat (8 * first_ptr ly)) (le_bytes (Z.to_nat w) x))) =? 0)
    else UB
  else Ok false.

Fixpoint storeonce_loop (n : nat) (d : jl_datatype_t) (dst : loc) (w y z : Z) : M bool :=
  match n with
  | O => fun _ => Timeout
  | S n' =>
      let* (success, y) := atomic_cmpswap dst w y z in
      if (success : bool) then ret true
      else
        let* u := reads (fun _ => undefref_bits d w y) in
        if negb u then ret false else storeonce_loop n' d dst w y z
  end.

Definition jl_atomic_storeonce_bits (tries : nat) (dt : ptr) (dst : loc) (src : ptr) (nb : Z) : M bool :=
  let* d := datatype dt in
  if nb <=? 4 then
    let* z := zext_read32 (src, 0) nb in
    let* (success, _) := atomic_cmpswap dst 4 0 z in ret success
  else if nb <=? 8 then let* z := zext_read64 (src, 0) nb in storeonce_loop tries d dst 8 0 z
  else if nb <=? 16 then let* z := zext_read128 (src, 0) nb in storeonce_loop tries d dst 16 0 z
  else undefined.
End Compare.

(** ** Locks *)

(** [JL_LOCK_NOGC]: a lock held by another task is waited for. *)
Definition lock_nogc (l : loc) : M unit :=
  let* owner := load l 8 in
  if owner =? self then let* c := load (shift l 8) 4 in store (shift l 8) 4 (u32 (c + 1))
  else if owner =? 0 then store l 8 self ;; store (shift l 8) 4 1
  else fun _ => Timeout.
Definition unlock_nogc (l : loc) : M unit :=
  let* owner := load l 8 in
  if negb (owner =? self) then undefined
  else
    let* c := load (shift l 8) 4 in
    store (shift l 8) 4 (u32 (c - 1)) ;;
    if u32 (c - 1) =? 0 then store l 8 0 else ret tt.
End Bits.
