(* ===== verification/Fields.v ===== *)
(** * Fields of structs (datatype.c)

    Reading, writing, swapping, modifying and replacing fields, and the
    constructors of structs, through the layouts of [Layout] and the boxes of
    [Bits].

    Three things are left open: [jl_isa] is the subtype test of subtype.c,
    [jl_apply_generic] calls a Julia function, and [jl_apply_cmpswap_type] and
    [jl_apply_modify_type] make the types of the results of replacing and
    modifying.  [tries] bounds the loops that start over when the field was
    changed meanwhile. *)

From stdpp Require Import base gmap numbers option list.
From Stdlib Require Import ZArith Lia.
From S2P Require Import Prelude Probe Identity Hashing Bytes Objects Egal HeapMonad LayoutCore Layout Bits.

Inductive atomic_kind := isatomic_none | isatomic_object | isatomic_field.
Definition is_atomic (k : atomic_kind) : bool := match k with isatomic_none => false | _ => true end.

(** ** Descriptions of fields *)

Section Accessors.
Context (H : heap) (depth : nat).

Definition jl_datatype_nfields (d : jl_datatype_t) : outcome Z := let! ly := jl_datatype_layout H depth d in Ok (nfields ly).
Definition jl_nfields (v : ptr) : outcome Z :=
  let! t := jl_typeof H v in let! d := get_datatype H t in jl_datatype_nfields d.

Definition field_desc (d : jl_datatype_t) (i : Z) : outcome jl_fielddesc32_t :=
  let! ly := jl_datatype_layout H depth d in
  if (0 <=? i) && (i <? nfields ly) && negb (bool_decide (fielddesc_type ly = JL_FIELDDESC_FOREIGN)) then rd (fields ly) i else UB.
Definition jl_field_offset (d : jl_datatype_t) (i : Z) : outcome Z := let! fd := field_desc d i in Ok (fd_offset fd).
Definition jl_field_size (d : jl_datatype_t) (i : Z) : outcome Z := let! fd := field_desc d i in Ok (fd_size fd).
Definition jl_field_isptr (d : jl_datatype_t) (i : Z) : outcome bool := let! fd := field_desc d i in Ok (fd_isptr fd).

(** The number of the component [needle] of a union: whether it was found and
    how many components were passed. *)
Fixpoint find_union_component (fuel : nat) (haystack needle : ptr) (nth : Z) : outcome (bool * Z) :=
  let! u := jl_is_uniontype H haystack in
  if (u : bool) then
    match fuel with
    | O => Timeout
    | S fuel' =>
        let! a := ptr_field H haystack 0 in
        let! (found, nth) := find_union_component fuel' a needle nth in
        if (found : bool) then Ok (true, nth)
        else let! b := ptr_field H haystack 1 in find_union_component fuel' b needle nth
    end
  else if needle =? haystack then Ok (true, nth) else Ok (false, u32 (nth + 1)).
Definition jl_find_union_component (haystack needle : ptr) : outcome (bool * Z) := find_union_component depth haystack needle 0.

(** A value with a reference that was not set is not defined ([None]). *)
Definition undefref_check (d : jl_datatype_t) (l : loc) : outcome bool :=
  let! ly := the_layout d in
  if 0 <=? first_ptr ly then let! nullp := load_ptr H l (first_ptr ly) in Ok (nullp =? 0) else Ok false.

(** The type of the value in an inline union. *)
Definition union_value_type (ty : ptr) (psel : loc) : outcome ptr :=
  let! sel := load_uint H psel 1 in
  let! t := jl_nth_union_component H depth ty sel in
  match t with Some t => normalize_typeofbottom_layout_alias H t | None => UB end.
End Accessors.

Section Fields.
Context (depth : nat) (alloc : heap -> Z -> ptr) (junk : heap -> Z -> Z) (self : ptr) (B : boxes).

Definition jl_lock_value (v : ptr) : M unit := lock_nogc self (v, 0).
Definition jl_unlock_value (v : ptr) : M unit := unlock_nogc self (v, 0).
Definition jl_lock_field (p : loc) : M unit := lock_nogc self p.
Definition jl_unlock_field (p : loc) : M unit := unlock_nogc self p.

Definition lock (p : loc) (parent : ptr) (needlock : bool) (isatomic : atomic_kind) : M loc :=
  if needlock then
    match isatomic with
    | isatomic_object => jl_lock_value parent ;; ret p
    | _ => jl_lock_field p ;; ret (shift p (LLT_ALIGN sizeof_jl_mutex_t JL_SMALL_BYTE_ALIGNMENT))
    end
  else ret p.
Definition unlock (p : loc) (parent : ptr) (needlock : bool) (isatomic : atomic_kind) : M unit :=
  if needlock then
    match isatomic with
    | isatomic_object => jl_unlock_value parent
    | _ => jl_unlock_field p
    end
  else ret tt.

(** ** Reading *)

(** [undefref_check] of a new value: NULL if it is not defined. *)
Definition checked (d : jl_datatype_t) (r : ptr) : M ptr :=
  let* u := reads (fun H => undefref_check H d (r, 0)) in ret (if (u : bool) then 0 else r).

(** The value of type [layout_ty] stored inline at [offs] in [v]. *)
Definition read_inline (v : ptr) (offs : Z) (isatomic : bool) (layout_ty : ptr) : M ptr :=
  let* fsz := reads (fun H => jl_datatype_size H depth layout_ty) in
  let needlock := isatomic && (MAX_ATOMIC_SIZE <? fsz) in
  let* r :=
    if isatomic && negb needlock then jl_atomic_new_bits depth alloc junk B layout_ty (v, offs)
    else if needlock then
      let* r := jl_gc_alloc alloc junk fsz layout_ty in
      jl_lock_value v ;;
      memcpy (r, 0) (v, offs) fsz ;;
      jl_unlock_value v ;;
      ret r
    else jl_new_bits depth alloc junk B layout_ty (v, offs) in
  let* d := datatype layout_ty in
  checked d r.

Definition jl_get_nth_field (v : ptr) (i : Z) : M ptr :=
  let* st := reads (fun H => jl_typeof H v) in
  let* d := datatype st in
  let* n := reads (fun H => jl_datatype_nfields H depth d) in
  if n <=? i then throw (bounds_error v (i + 1))
  else
    let* offs := reads (fun H => jl_field_offset H depth d i) in
    let* isptr := reads (fun H => jl_field_isptr H depth d i) in
    if (isptr : bool) then load (v, offs) 8
    else
      let* ty := reads (fun H => jl_field_type_concrete H d i) in
      let* isatomic := reads (fun H => jl_field_isatomic H d i) in
      let* u := reads (fun H => jl_is_uniontype H ty) in
      if (u : bool) then
        if (isatomic : bool) then undefined
        else
          let* fsz := reads (fun H => jl_field_size H depth d i) in
          let* layout_ty := reads (fun H => union_value_type H depth ty (v, offs + fsz - 1)) in
          let* dl := datatype layout_ty in
          let* single := reads (fun _ => jl_is_datatype_singleton dl) in
          if (single : bool) then ret (dt_instance dl) else read_inline v offs isatomic layout_ty
      else
        let* layout_ty := reads (fun H => normalize_typeofbottom_layout_alias H ty) in
        read_inline v offs isatomic layout_ty.

Definition jl_get_nth_field_noalloc (v : ptr) (i : Z) : M ptr :=
  let* st := reads (fun H => jl_typeof H v) in
  let* d := datatype st in
  let* n := reads (fun H => jl_datatype_nfields H depth d) in
  if n <=? i then undefined
  else
    let* offs := reads (fun H => jl_field_offset H depth d i) in
    let* isptr := reads (fun H => jl_field_isptr H depth d i) in
    if (isptr : bool) then load (v, offs) 8 else undefined.

Definition jl_get_nth_field_checked (v : ptr) (i : Z) : M ptr :=
  let* r := jl_get_nth_field v i in
  if r =? 0 then throw undefref_exception else ret r.

(** ** Writing *)

(** Selects the component of a union the value belongs to. *)
Definition select (ty rty : ptr) (psel : loc) : M unit :=
  let* (found, nth) := reads (fun H => jl_find_union_component H depth ty rty) in
  if (found : bool) then store psel 1 nth else undefined.

(** Whether the type of an inline field has references. *)
Definition has_ptr (layout_ty : ptr) : M bool :=
  let* d := datatype layout_ty in
  let* ly := reads (fun _ => the_layout d) in ret (0 <=? first_ptr ly).

(** The value itself. *)
Definition write_inline (v : ptr) (offs : Z) (ty rty rhs : ptr) (hasptr isatomic : bool) : M unit :=
  let* fsz := reads (fun H => jl_datatype_size H depth rty) in
  if isatomic && negb (rty =? ty) then undefined
  else
    let needlock := isatomic && (MAX_ATOMIC_SIZE <? fsz) in
    if isatomic && negb needlock then jl_atomic_store_bits (v, offs) rhs fsz
    else if needlock then
      jl_lock_value v ;;
      memcpy (v, offs) (rhs, 0) fsz ;;
      jl_unlock_value v
    else memassign_safe depth hasptr (v, offs) rhs fsz.

Definition set_nth_field (st v : ptr) (i : Z) (rhs : ptr) (isatomic : bool) : M unit :=
  let* d := datatype st in
  let* offs := reads (fun H => jl_field_offset H depth d i) in
  let* isptr := reads (fun H => jl_field_isptr H depth d i) in
  if rhs =? 0 then
    if negb isptr then undefined
    else let* x := load (v, offs) 8 in if x =? 0 then ret tt else undefined
  else if (isptr : bool) then store (v, offs) 8 rhs
  else
    let* ty := reads (fun H => jl_field_type_concrete H d i) in
    let* layout_ty := reads (fun H => normalize_typeofbottom_layout_alias H ty) in
    let* rty := reads (fun H => jl_typeof H rhs) in
    let* isunion := reads (fun H => jl_is_uniontype H ty) in
    if (isunion : bool) then
      if isatomic then undefined
      else
        let* fsz := reads (fun H => jl_field_size H depth d i) in
        select ty rty (v, offs + fsz - 1) ;;
        let* rd := datatype rty in
        let* single := reads (fun _ => jl_is_datatype_singleton rd) in
        if (single : bool) then ret tt else write_inline v offs ty rty rhs false isatomic
    else
      let* hasptr := has_ptr layout_ty in
      write_inline v offs ty rty rhs hasptr isatomic.

(** Reads and writes that go through the type of the field: the location of
    the selector if it is an inline union. *)
Definition selector (ty : ptr) (d : jl_datatype_t) (i : Z) (p : loc) : M (option loc) :=
  let* u := reads (fun H => jl_is_uniontype H ty) in
  if (u : bool) then let* fsz := reads (fun H => jl_field_size H depth d i) in ret (Some (shift p (fsz - 1))) else ret None.

Definition union_or (ty layout_ty : ptr) (psel : option loc) : M ptr :=
  match psel with
  | Some psel => reads (fun H => union_value_type H depth ty psel)
  | None => ret layout_ty
  end.

Definition inline_hasptr (layout_ty : ptr) (psel : option loc) (isatomic : atomic_kind) : M bool :=
  match psel with
  | Some _ => if is_atomic isatomic then undefined else ret false
  | None => has_ptr layout_ty
  end.

(** ** Swapping *)

Definition swap_bits (ty : ptr) (p : loc) (psel : option loc) (parent rhs : ptr) (isatomic : atomic_kind) : M ptr :=
  let* rty := reads (fun H => jl_typeof H rhs) in
  let* layout_ty := reads (fun H => normalize_typeofbottom_layout_alias H ty) in
  let* hasptr := inline_hasptr layout_ty psel isatomic in
  let* fsz := reads (fun H => jl_datatype_size H depth rty) in
  let needlock := is_atomic isatomic && (MAX_ATOMIC_SIZE <? fsz) in
  if is_atomic isatomic && negb (rty =? ty) then undefined
  else
    let* (r, early) :=
      if is_atomic isatomic && negb needlock then
        let* r := jl_atomic_swap_bits depth alloc junk B rty p rhs fsz in ret (r, false)
      else if needlock then
        let* r := jl_gc_alloc alloc junk fsz ty in
        let* px := lock p parent needlock isatomic in
        memcpy (r, 0) px fsz ;;
        memcpy px (rhs, 0) fsz ;;
        unlock p parent needlock isatomic ;;
        ret (r, false)
      else
        let* t := union_or ty layout_ty psel in
        let* r := jl_new_bits depth alloc junk B t p in
        let* single :=
          match psel with
          | Some psel =>
              select ty rty psel ;;
              let* rd := datatype rty in reads (fun _ => jl_is_datatype_singleton rd)
          | None => ret false
          end in
        if (single : bool) then ret (r, true)
        else memassign_safe depth hasptr p rhs fsz ;; ret (r, false) in
    if (early : bool) then ret r
    else
      let* r := match psel with Some _ => ret r | None => let* dl := datatype layout_ty in checked dl r end in
      if r =? 0 then throw undefref_exception else ret r.

Section Open.
Context (jl_isa : heap -> ptr -> ptr -> outcome bool) (egal_fuel tries : nat).
Context (jl_apply_cmpswap_type jl_apply_modify_type : ptr -> M ptr) (jl_apply_generic : ptr -> ptr -> ptr -> M ptr).

Definition check_isa (v ty : ptr) : M unit :=
  let* ok := reads (fun H => jl_isa H v ty) in if (ok : bool) then ret tt else throw (type_error ty v).

Definition kind (isatomic : bool) : atomic_kind := if isatomic then isatomic_object else isatomic_none.

Definition swap_nth_field (st v : ptr) (i : Z) (rhs : ptr) (isatomic : bool) : M ptr :=
  let* d := datatype st in
  let* ty := reads (fun H => jl_field_type_concrete H d i) in
  check_isa rhs ty ;;
  let* offs := reads (fun H => jl_field_offset H depth d i) in
  let* isptr := reads (fun H => jl_field_isptr H depth d i) in
  if (isptr : bool) then
    let* r := atomic_exchange (v, offs) 8 rhs in
    if r =? 0 then throw undefref_exception else ret r
  else
    let* psel := selector ty d i (v, offs) in
    swap_bits ty (v, offs) psel v rhs (kind isatomic).

(** ** Constructors *)

Fixpoint set_fields (ty jv : ptr) (i : Z) (args : list ptr) : M unit :=
  match args with
  | [] => ret tt
  | x :: args => set_nth_field ty jv i x false ;; set_fields ty jv (i + 1) args
  end.

(** The bytes before the first field. *)
Definition clear_start (ty jv : ptr) : M unit :=
  let* d := datatype ty in
  let* offs := reads (fun H => jl_field_offset H depth d 0) in
  if negb (offs =? 0) then memset0 (jv, 0) offs else ret tt.

(** [args] are the variable arguments; [va_arg] past the last one is
    undefined. *)
Definition jl_new_struct (ty : ptr) (args : list ptr) : M ptr :=
  let* ok := constructible ty in
  if negb ok then bad_type ty
  else
    let* d := datatype ty in
    if negb (dt_instance d =? 0) then ret (dt_instance d)
    else
      let* nf := reads (fun H => jl_datatype_nfields H depth d) in
      let* sz := reads (fun H => jl_datatype_size H depth ty) in
      let* jv := alloc_tagged alloc junk sz ty in
      (if 0 <? nf then clear_start ty jv else ret tt) ;;
      if Z.of_nat (length args) <? nf then undefined
      else set_fields ty jv 0 (take (Z.to_nat nf) args) ;; ret jv.

Fixpoint check_args (d : jl_datatype_t) (i : Z) (args : list ptr) : M unit :=
  match args with
  | [] => ret tt
  | x :: args =>
      let* ft := reads (fun H => jl_field_type_concrete H d i) in
      check_isa x ft ;; check_args d (i + 1) args
  end.

Definition jl_new_structv (ty : ptr) (args : list ptr) : M ptr :=
  let* ok := constructible ty in
  if negb ok then bad_type ty
  else
    let* d := datatype ty in
    let* nf := reads (fun H => jl_datatype_nfields H depth d) in
    let* nm := typename_of d in
    let na := Z.of_nat (length args) in
    if (na <? u64 (nf - tn_n_uninitialized nm)) || (nf <? na) then throw invalid_allocation
    else
      check_args d 0 args ;;
      if negb (dt_instance d =? 0) then ret (dt_instance d)
      else
        let* sz := reads (fun H => jl_datatype_size H depth ty) in
        let* jv := alloc_tagged alloc junk sz ty in
        if 0 <? nf then
          clear_start ty jv ;;
          set_fields ty jv 0 args ;;
          (if na <? nf then
             let* offs := reads (fun H => jl_field_offset H depth d na) in memset0 (jv, offs) (sz - offs)
           else ret tt) ;;
          ret jv
        else ret jv.

(** The loop of [jl_new_structt]. *)
Fixpoint move_fields (ty jv tup : ptr) (d : jl_datatype_t) (n : nat) (i : Z) : M unit :=
  match n with
  | O => ret tt
  | S n' =>
      let* ft := reads (fun H => jl_field_type_concrete H d i) in
      let* fi := jl_get_nth_field tup i in
      check_isa fi ft ;;
      set_nth_field ty jv i fi false ;;
      move_fields ty jv tup d n' (i + 1)
  end.

(** The types of the elements of a tuple are those of the fields. *)
Fixpoint same_types (tup : ptr) (d dt : jl_datatype_t) (n : nat) (i : Z) : M unit :=
  match n with
  | O => ret tt
  | S n' =>
      let* ft := reads (fun H => jl_field_type_concrete H d i) in
      let* et := reads (fun H => jl_field_type_concrete H dt i) in
      if negb (et =? ft) then let* fi := jl_get_nth_field tup i in throw (type_error ft fi)
      else same_types tup d dt n' (i + 1)
  end.

(** [jl_tuple_type] is named in the error only. *)
Definition jl_new_structt (jl_tuple_type ty tup : ptr) : M ptr :=
  let* tt_ := reads (fun H => jl_typeof H tup) in
  let* dt := datatype tt_ in
  let* istuple := reads (fun H => Ok (dt_name dt =? jl_tuple_typename H)) in
  if negb istuple then throw (type_error jl_tuple_type tup)
  else
    let* ok := constructible ty in
    if negb ok then bad_type ty
    else
      let* d := datatype ty in
      let* nargs := reads (fun H => jl_nfields H depth tup) in
      let* nf := reads (fun H => jl_datatype_nfields H depth d) in
      if negb (nargs =? nf) then throw argument_count
      else if negb (dt_instance d =? 0) then same_types tup d dt (Z.to_nat nargs) 0 ;; ret (dt_instance d)
      else
        let* sz := reads (fun H => jl_datatype_size H depth ty) in
        let* jv := alloc_tagged alloc junk sz ty in
        if nf =? 0 then ret jv
        else
          (if dt_zeroinit d then memset0 (jv, 0) sz else clear_start ty jv) ;;
          move_fields ty jv tup d (Z.to_nat nargs) 0 ;;
          ret jv.

(** ** Replacing *)

Fixpoint replace_value_loop (n : nat) (p : loc) (expected r rhs : ptr) : M (ptr * bool) :=
  match n with
  | O => fun _ => Timeout
  | S n' =>
      let* (success, r) := atomic_cmpswap p 8 r rhs in
      if r =? 0 then throw undefref_exception
      else
        let* again := if (success : bool) then ret false else reads (fun H => jl_egal H depth egal_fuel r expected) in
        if (again : bool) then replace_value_loop n' p expected r rhs else ret (r, success)
  end.

Definition replace_value (ty : ptr) (p : loc) (expected rhs : ptr) : M ptr :=
  let* rettyp := jl_apply_cmpswap_type ty in
  let* (r, success) := replace_value_loop tries p expected expected rhs in
  jl_new_struct rettyp [r; if (success : bool) then jl_true B else jl_false B].

(** Whether the old value [r], of type [rty], is the expected one. *)
Definition same_value (rty r expected : ptr) (rsz : Z) : M bool :=
  let* et := reads (fun H => jl_typeof H expected) in
  if negb (rty =? et) then ret false
  else
    let* eq := reads (fun H => bits_equal H (r, 0) (expected, 0) rsz) in
    if (eq : bool) then ret true
    else
      let* d := datatype rty in
      let* pl := reads (fun _ => plain d) in
      if (pl : bool) then ret false else egal__bits depth egal_fuel (r, 0) (expected, 0) rty.

Definition replace_bits (ty : ptr) (p : loc) (psel : option loc) (parent expected rhs : ptr) (isatomic : atomic_kind) : M ptr :=
  let* rettyp := jl_apply_cmpswap_type ty in
  let* layout_ty := reads (fun H => normalize_typeofbottom_layout_alias H ty) in
  let* rd := datatype rettyp in
  let* fsz := reads (fun H => jl_field_size H depth rd 0) in
  let needlock := is_atomic isatomic && (MAX_ATOMIC_SIZE <? fsz) in
  let* offs1 := reads (fun H => jl_field_offset H depth rd 1) in
  if negb (offs1 =? fsz) then undefined
  else
    let* hasptr := inline_hasptr layout_ty psel isatomic in
    let* rhsty := reads (fun H => jl_typeof H rhs) in
    if match psel with None => negb (rhsty =? ty) | Some _ => false end then undefined
    else
      let* isptr0 := reads (fun H => jl_field_isptr H depth rd 0) in
      if (isptr0 : bool) then undefined
      else
        let* rsize := reads (fun H => jl_datatype_size H depth rettyp) in
        let* r := jl_gc_alloc alloc junk rsize rettyp in
        let* early :=
          if is_atomic isatomic && negb needlock then
            let* rsz := reads (fun H => jl_datatype_size H depth layout_ty) in
            let* success := jl_atomic_cmpswap_bits depth egal_fuel tries layout_ty r p expected rhs rsz in
            store (r, fsz) 1 (if (success : bool) then 1 else 0) ;;
            ret false
          else
            let* px := lock p parent needlock isatomic in
            let* rty := union_or ty layout_ty psel in
            let* rsz := reads (fun H => jl_datatype_size H depth rty) in
            memcpy (r, 0) px rsz ;;
            (match psel with Some psel => memcpy (r, fsz - 1) psel 1 | None => ret tt end) ;;
            let* success := same_value rty r expected rsz in
            store (r, fsz) 1 (if (success : bool) then 1 else 0) ;;
            if (success : bool) then
              match psel with
              | Some psel =>
                  let* rsz := reads (fun H => jl_datatype_size H depth rhsty) in
                  select ty rhsty psel ;;
                  let* d := datatype rhsty in
                  let* single := reads (fun _ => jl_is_datatype_singleton d) in
                  if (single : bool) then ret true
                  else
                    memassign_safe depth hasptr px rhs rsz ;;
                    unlock p parent needlock isatomic ;; ret false
              | None =>
                  memassign_safe depth hasptr px rhs rsz ;;
                  unlock p parent needlock isatomic ;; ret false
              end
            else unlock p parent needlock isatomic ;; ret false in
        if (early : bool) then ret r
        else
          match psel with
          | Some _ => ret r
          | None =>
              let* dl := datatype layout_ty in
              let* r := checked dl r in
              if r =? 0 then throw undefref_exception else ret r
          end.

Definition replace_nth_field (st v : ptr) (i : Z) (expected rhs : ptr) (isatomic : bool) : M ptr :=
  let* d := datatype st in
  let* ty := reads (fun H => jl_field_type_concrete H d i) in
  check_isa rhs ty ;;
  let* offs := reads (fun H => jl_field_offset H depth d i) in
  let* isptr := reads (fun H => jl_field_isptr H depth d i) in
  if (isptr : bool) then replace_value ty (v, offs) expected rhs
  else
    let* psel := selector ty d i (v, offs) in
    replace_bits ty (v, offs) psel v expected rhs (kind isatomic).

(** ** Modifying *)

Fixpoint modify_value_loop (n : nat) (ty : ptr) (p : loc) (op r rhs : ptr) : M (ptr * ptr) :=
  match n with
  | O => fun _ => Timeout
  | S n' =>
      let* y := jl_apply_generic op r rhs in
      check_isa y ty ;;
      let* (success, r') := atomic_cmpswap p 8 r y in
      if (success : bool) then ret (r, y) else modify_value_loop n' ty p op r' rhs
  end.

(** Of a field; globals are modified by the same function. *)
Definition modify_value (ty : ptr) (p : loc) (op rhs : ptr) : M ptr :=
  let* r := load p 8 in
  if r =? 0 then throw undefref_exception
  else
    let* (old, new) := modify_value_loop tries ty p op r rhs in
    let* rettyp := jl_apply_modify_type ty in
    jl_new_struct rettyp [old; new].

(** Stores [y] if the field still holds the value [r], of type [rty]. *)
Definition modify_store (ty : ptr) (p : loc) (psel : option loc) (parent : ptr) (layout_ty rty r y : ptr) (hasptr : bool)
    (isatomic : atomic_kind) (fsz : Z) : M bool :=
  let needlock := is_atomic isatomic && (MAX_ATOMIC_SIZE <? fsz) in
  let* yty := reads (fun H => jl_typeof H y) in
  if is_atomic isatomic && negb needlock then
    if negb (yty =? rty) then undefined else jl_atomic_bool_cmpswap_bits p r y fsz
  else
    let* px := lock p parent needlock isatomic in
    let* eq := reads (fun H => bits_equal H px (r, 0) fsz) in
    let* d := datatype rty in
    let* pl := reads (fun _ => plain d) in
    let* success :=
      if (eq : bool) then ret true
      else if (pl : bool) then ret false
      else egal__bits depth egal_fuel px (r, 0) rty in
    if negb success then unlock p parent needlock isatomic ;; ret false
    else
      match psel with
      | Some psel =>
          let* t := reads (fun H => let! sel := load_uint H psel 1 in jl_nth_union_component H depth ty sel) in
          if negb (bool_decide (t = Some rty)) then
            let* fsz := reads (fun H => jl_datatype_size H depth yty) in
            memassign_safe depth hasptr px y fsz ;;
            unlock p parent needlock isatomic ;; ret false
          else
            select ty yty psel ;;
            let* yd := datatype yty in
            let* single := reads (fun _ => jl_is_datatype_singleton yd) in
            if (single : bool) then ret true
            else
              let* fsz := reads (fun H => jl_datatype_size H depth yty) in
              memassign_safe depth hasptr px y fsz ;;
              unlock p parent needlock isatomic ;; ret true
      | None =>
          if negb (yty =? ty) || negb (rty =? layout_ty) then undefined
          else memassign_safe depth hasptr px y fsz ;; unlock p parent needlock isatomic ;; ret true
      end.

Fixpoint modify_bits_loop (n : nat) (ty : ptr) (p : loc) (psel : option loc) (parent op rhs layout_ty : ptr) (hasptr : bool)
    (isatomic : atomic_kind) : M (ptr * ptr) :=
  match n with
  | O => fun _ => Timeout
  | S n' =>
      let* rty := union_or ty layout_ty psel in
      let* fsz := reads (fun H => jl_datatype_size H depth rty) in
      let needlock := is_atomic isatomic && (MAX_ATOMIC_SIZE <? fsz) in
      let* r :=
        if is_atomic isatomic && negb needlock then jl_atomic_new_bits depth alloc junk B rty p
        else if needlock then
          let* r := jl_gc_alloc alloc junk fsz rty in
          let* px := lock p parent needlock isatomic in
          memcpy (r, 0) px fsz ;;
          unlock p parent needlock isatomic ;;
          ret r
        else jl_new_bits depth alloc junk B rty p in
      let* d := datatype rty in
      let* r := checked d r in
      if r =? 0 then throw undefref_exception
      else
        let* y := jl_apply_generic op r rhs in
        check_isa y ty ;;
        let* success := modify_store ty p psel parent layout_ty rty r y hasptr isatomic fsz in
        if (success : bool) then ret (r, y) else modify_bits_loop n' ty p psel parent op rhs layout_ty hasptr isatomic
  end.

Definition modify_bits (ty : ptr) (p : loc) (psel : option loc) (parent op rhs : ptr) (isatomic : atomic_kind) : M ptr :=
  let* layout_ty := reads (fun H => normalize_typeofbottom_layout_alias H ty) in
  let* hasptr := inline_hasptr layout_ty psel isatomic in
  let* (old, new) := modify_bits_loop tries ty p psel parent op rhs layout_ty hasptr isatomic in
  let* rettyp := jl_apply_modify_type ty in
  jl_new_struct rettyp [old; new].

Definition modify_nth_field (st v : ptr) (i : Z) (op rhs : ptr) (isatomic : bool) : M ptr :=
  let* d := datatype st in
  let* offs := reads (fun H => jl_field_offset H depth d i) in
  let* ty := reads (fun H => jl_field_type_concrete H d i) in
  let* isptr := reads (fun H => jl_field_isptr H depth d i) in
  if (isptr : bool) then modify_value ty (v, offs) op rhs
  else
    let* psel := selector ty d i (v, offs) in
    modify_bits ty (v, offs) psel v op rhs (kind isatomic).

(** ** Setting once *)

Definition setonce_bits (rty : ptr) (p : loc) (parent rhs : ptr) (isatomic : atomic_kind) : M bool :=
  let* fsz := reads (fun H => jl_datatype_size H depth rty) in
  let* hasptr := has_ptr rty in
  if negb hasptr then undefined
  else
    let needlock := is_atomic isatomic && (MAX_ATOMIC_SIZE <? fsz) in
    if is_atomic isatomic && negb needlock then jl_atomic_storeonce_bits tries rty p rhs fsz
    else
      let* px := lock p parent needlock isatomic in
      let* d := datatype rty in
      let* success := reads (fun H => undefref_check H d px) in
      (if (success : bool) then memassign_safe depth true px rhs fsz else ret tt) ;;
      unlock p parent needlock isatomic ;;
      ret success.

Definition set_nth_fieldonce (st v : ptr) (i : Z) (rhs : ptr) (isatomic : bool) : M bool :=
  let* d := datatype st in
  let* ty := reads (fun H => jl_field_type_concrete H d i) in
  check_isa rhs ty ;;
  let* offs := reads (fun H => jl_field_offset H depth d i) in
  let* isptr := reads (fun H => jl_field_isptr H depth d i) in
  if (isptr : bool) then let* (success, _) := atomic_cmpswap (v, offs) 8 0 rhs in ret success
  else
    let* isunion := reads (fun H => jl_is_uniontype H ty) in
    if (isunion : bool) then ret false
    else
      let* layout_ty := reads (fun H => normalize_typeofbottom_layout_alias H ty) in
      let* hasptr := has_ptr layout_ty in
      if negb hasptr then ret false
      else
        let* rty := reads (fun H => jl_typeof H rhs) in
        if negb (ty =? rty) then undefined else setonce_bits layout_ty (v, offs) v rhs (kind isatomic).
End Open.

(** ** Whether fields are defined *)

Definition jl_field_isdefined (H : heap) (v : ptr) (i : Z) : outcome Z :=
  let! st := jl_typeof H v in
  let! d := get_datatype H st in
  let! offs := jl_field_offset H depth d i in
  let! isptr := jl_field_isptr H depth d i in
  let defined (l : loc) := let! fval := load_uint H l 8 in Ok (if negb (fval =? 0) then 1 else 0) in
  if (isptr : bool) then defined (v, offs)
  else
    let! ty := jl_field_type_concrete H d i in
    let! ft := normalize_typeofbottom_layout_alias H ty in
    let! isd := jl_is_datatype H ft in
    if negb isd then Ok 2
    else
      let! fd := get_datatype H ft in
      let! ly := the_layout fd in
      if first_ptr ly <? 0 then Ok 2 else defined (v, offs + 8 * first_ptr ly).

(** Of a module only the symbols may be asked for. *)
Definition jl_field_isdefined_checked (v : ptr) (i : Z) : M bool :=
  let* m := reads (fun H => is_tag H jl_module_tag v) in
  if (m : bool) then
    let* sym := reads (fun H => Ok (small_typeof H jl_symbol_tag)) in
    let* x := SIBOX_FUNC alloc junk B jl_int64_tag 8 (to_signed 8 (i + 1)) in throw (type_error sym x)
  else
    let* n := reads (fun H => jl_nfields H depth v) in
    if n <=? i then ret false
    else let* r := reads (fun H => jl_field_isdefined H v i) in ret (negb (r =? 0)).

Definition get_nth_pointer (v : ptr) (i : Z) : M ptr :=
  let* st := reads (fun H => jl_typeof H v) in
  let* d := datatype st in
  let* ly := reads (fun _ => the_layout d) in
  if npointers ly <=? i then throw (bounds_error v i)
  else if bool_decide (fielddesc_type ly = JL_FIELDDESC_FOREIGN) then ret 0
  else
    let* fld := reads (fun _ => rd (ptrs ly) i) in
    reads (fun H => load_ptr H (v, 0) fld).

Definition jl_get_nth_pointer (v : ptr) (i : Z) : M ptr :=
  let* r := get_nth_pointer v i in if r =? 0 then throw undefref_exception else ret r.
Definition jl_nth_pointer_isdefined (v : ptr) (i : Z) : M bool :=
  let* r := get_nth_pointer v i in ret (negb (r =? 0)).
End Fields.

(** The offset of a field, of a type that may not have a layout yet. *)
Definition jl_get_field_offset (depth : nat) (compute : ptr -> M unit) (ty : ptr) (field : Z) : M Z :=
  let* ok := jl_struct_try_layout depth compute ty in
  let* d := datatype ty in
  let* bad :=
    if negb ok then ret true
    else let* n := reads (fun H => jl_datatype_nfields H depth d) in ret ((n <? field) || (field <? 1)) in
  if (bad : bool) then throw (bounds_error ty field) else reads (fun H => jl_field_offset H depth d (field - 1)).
