(* ===== verification/BitsFacts.v ===== *)
(** * Values and memory

    Loads and stores of bytes; what changes of values leave as it was; boxes
    hold the bits they were made from. *)

From stdpp Require Import base gmap numbers option list.
From Stdlib Require Import ZArith Lia.
From S2P Require Import Prelude Probe Identity Hashing HashingFacts Bytes Objects Egal HeapMonad LayoutCore LayoutCoreFacts Layout Bits.

(** ** Running the monad forwards *)

Lemma bind_Ret {A B} (m : M A) (k : A -> M B) H a H1 : m H = Ok (Ret a, H1) -> bind m k H = k a H1.
Proof. intros E. unfold bind. by rewrite E. Qed.

Lemma bind_reads_Ok {A B} (f : heap -> outcome A) (k : A -> M B) H a : f H = Ok a -> bind (reads f) k H = k a H.
Proof. intros E. unfold bind, reads. by rewrite E. Qed.

Lemma bind_reads_ext {A B} (f : heap -> outcome A) (k1 k2 : A -> M B) H : (forall a, f H = Ok a -> k1 a H = k2 a H) -> bind (reads f) k1 H = bind (reads f) k2 H.
Proof. intros Hk. unfold bind, reads. destruct (f H) as [a | |]; [by apply Hk | done | done]. Qed.

Lemma bind_writes_Ok {B} (f : heap -> outcome heap) (k : unit -> M B) H H1 : f H = Ok H1 -> bind (writes f) k H = k tt H1.
Proof. intros E. unfold bind, writes. by rewrite E. Qed.

Lemma bind_ret {A B} (a : A) (k : A -> M B) H : bind (ret a) k H = k a H.
Proof. done. Qed.

Lemma bind_bind {A B C} (m : M A) (k : A -> M B) (l : B -> M C) H : bind (bind m k) l H = bind m (fun a => bind (k a) l) H.
Proof. unfold bind. by destruct (m H) as [[[a | e] H1] | |]. Qed.

Lemma datatype_Ok {B} p d (k : jl_datatype_t -> M B) H : get_datatype H p = Ok d -> bind (datatype p) k H = k d H.
Proof. apply (bind_reads_Ok (fun H => get_datatype H p)). Qed.

(** ** Slices of bytes *)

Definition slice (data : list Z) (o n : Z) : list Z := take (Z.to_nat n) (drop (Z.to_nat o) data).
Definition splice (data : list Z) (o : Z) (bs : list Z) : list Z := take (Z.to_nat o) data ++ bs ++ drop (Z.to_nat o + length bs) data.

Lemma length_slice data o n : 0 <= o -> 0 <= n -> o + n <= Z.of_nat (length data) -> length (slice data o n) = Z.to_nat n.
Proof. intros. unfold slice. rewrite length_take, length_drop. lia. Qed.

Lemma length_splice data o bs : 0 <= o -> o + Z.of_nat (length bs) <= Z.of_nat (length data) -> length (splice data o bs) = length data.
Proof. intros. unfold splice. rewrite !length_app, length_take, length_drop. lia. Qed.

Lemma lookup_slice data o n k : 0 <= o -> (k < Z.to_nat n)%nat -> slice data o n !! k = data !! (Z.to_nat o + k)%nat.
Proof. intros Ho Hk. unfold slice. rewrite lookup_take_lt by done. by rewrite lookup_drop. Qed.

Lemma lookup_splice data o bs k : 0 <= o -> o + Z.of_nat (length bs) <= Z.of_nat (length data) ->
  splice data o bs !! k =
    if (Z.of_nat k <? o) || (o + Z.of_nat (length bs) <=? Z.of_nat k) then data !! k else bs !! (k - Z.to_nat o)%nat.
Proof.
  intros Ho Hl. unfold splice. destruct (Z.ltb_spec (Z.of_nat k) o) as [Hk | Hk]; cbn [orb].
  - rewrite lookup_app_l by (rewrite length_take; lia). by rewrite lookup_take_lt by lia.
  - rewrite lookup_app_r by (rewrite length_take; lia). rewrite length_take, Nat.min_l by lia.
    destruct (Z.leb_spec (o + Z.of_nat (length bs)) (Z.of_nat k)).
    + rewrite lookup_app_r by lia. rewrite lookup_drop. f_equal. lia.
    + by rewrite lookup_app_l by lia.
Qed.

(** Reading elsewhere. *)
Lemma slice_splice_other data o bs o2 n : 0 <= o -> o + Z.of_nat (length bs) <= Z.of_nat (length data) -> 0 <= o2 -> 0 <= n ->
  o2 + n <= o \/ o + Z.of_nat (length bs) <= o2 -> slice (splice data o bs) o2 n = slice data o2 n.
Proof.
  intros Ho Hl Ho2 Hn Hd. apply list_eq. intros k. destruct (decide (k < Z.to_nat n)%nat) as [Hk | Hk].
  - rewrite !lookup_slice by done. rewrite lookup_splice by done.
    destruct (Z.ltb_spec (Z.of_nat (Z.to_nat o2 + k)) o), (Z.leb_spec (o + Z.of_nat (length bs)) (Z.of_nat (Z.to_nat o2 + k))); cbn [orb]; try done; lia.
  - unfold slice. by rewrite !lookup_take_ge by lia.
Qed.

(** Reading a part of what was written. *)
Lemma slice_splice_in data o bs o2 n : 0 <= o -> o + Z.of_nat (length bs) <= Z.of_nat (length data) -> o <= o2 -> 0 <= n ->
  o2 + n <= o + Z.of_nat (length bs) -> slice (splice data o bs) o2 n = slice bs (o2 - o) n.
Proof.
  intros Ho Hl Ho2 Hn Hd. apply list_eq. intros k. destruct (decide (k < Z.to_nat n)%nat) as [Hk | Hk].
  - rewrite !lookup_slice by lia. rewrite lookup_splice by done.
    destruct (Z.ltb_spec (Z.of_nat (Z.to_nat o2 + k)) o), (Z.leb_spec (o + Z.of_nat (length bs)) (Z.of_nat (Z.to_nat o2 + k))); cbn [orb]; try lia.
    f_equal. lia.
  - unfold slice. by rewrite !lookup_take_ge by lia.
Qed.

Lemma slice_whole bs n : n = Z.of_nat (length bs) -> slice bs 0 n = bs.
Proof. intros ->. unfold slice. cbn. rewrite Nat2Z.id. by apply take_ge. Qed.

Lemma slice_slice data o n o2 m : 0 <= o -> 0 <= o2 -> 0 <= m -> o2 + m <= n -> slice (slice data o n) o2 m = slice data (o + o2) m.
Proof.
  intros Ho Ho2 Hm Hn. apply list_eq. intros k. destruct (decide (k < Z.to_nat m)%nat) as [Hk | Hk].
  - rewrite !lookup_slice by lia. f_equal. lia.
  - unfold slice. by rewrite !lookup_take_ge by lia.
Qed.

Lemma slice_bytes data o n : Forall is_byte data -> Forall is_byte (slice data o n).
Proof. intros. by apply Forall_take, Forall_drop. Qed.

Lemma splice_bytes data o bs : Forall is_byte data -> Forall is_byte bs -> Forall is_byte (splice data o bs).
Proof. intros. apply Forall_app. split; [by apply Forall_take |]. apply Forall_app. split; [done | by apply Forall_drop]. Qed.

(** Writing two neighbours is writing both. *)
Lemma splice_splice data o bs bs2 : 0 <= o -> o + Z.of_nat (length bs) + Z.of_nat (length bs2) <= Z.of_nat (length data) ->
  splice (splice data o bs) (o + Z.of_nat (length bs)) bs2 = splice data o (bs ++ bs2).
Proof.
  intros Ho Hl. apply list_eq. intros k. rewrite !lookup_splice; try (rewrite ?length_splice, ?length_app; lia). rewrite length_app.
  destruct (Z.ltb_spec (Z.of_nat k) (o + Z.of_nat (length bs))), (Z.leb_spec (o + Z.of_nat (length bs) + Z.of_nat (length bs2)) (Z.of_nat k)),
    (Z.ltb_spec (Z.of_nat k) o), (Z.leb_spec (o + Z.of_nat (length bs)) (Z.of_nat k)),
    (Z.leb_spec (o + Z.of_nat (length bs + length bs2)) (Z.of_nat k)); cbn [orb]; try done; try lia.
  - by rewrite lookup_app_l by lia.
  - rewrite lookup_app_r by lia. f_equal. lia.
Qed.

(** ** Objects with data *)

Definition has_data (H : heap) (p h : Z) (data : list Z) : Prop := exists b, objects H !! p = Some (Obj b h (BData data)).

Section Objects.
Context (H : heap).

Lemma load_bytes_data p h data o n : has_data H p h data -> 0 <= o -> 0 <= n -> o + n <= Z.of_nat (length data) ->
  load_bytes H (p, o) n = Ok (slice data o n).
Proof.
  intros [b E] Ho Hn Hl. unfold load_bytes, data_at, deref. cbn [fst snd]. rewrite E. cbn [obind obody].
  rewrite (proj2 (Z.leb_le 0 o)), (proj2 (Z.leb_le o _)) by lia. cbn [andb obind]. rewrite length_drop.
  rewrite (proj2 (Z.leb_le 0 n)), (proj2 (Z.leb_le n _)) by lia. done.
Qed.

Lemma load_uint_data p h data o n : has_data H p h data -> 0 <= o -> 0 <= n -> o + n <= Z.of_nat (length data) ->
  load_uint H (p, o) n = Ok (le_word (slice data o n)).
Proof. intros. unfold load_uint. by erewrite load_bytes_data. Qed.

Lemma store_bytes_data p h data o bs : has_data H p h data -> 0 <= o -> o + Z.of_nat (length bs) <= Z.of_nat (length data) ->
  exists H', store_bytes (p, o) bs H = Ok H' /\ has_data H' p h (splice data o bs) /\ (forall q, q <> p -> objects H' !! q = objects H !! q) /\
    H' = with_objects H (objects H').
Proof.
  intros [b E] Ho Hl. unfold store_bytes, deref. cbn [fst snd]. rewrite E. cbn [obind obody before header].
  rewrite (proj2 (Z.leb_le 0 o)), (proj2 (Z.leb_le _ _) Hl) by lia. cbn [andb]. eexists. split; [done |]. unfold put_obj, with_objects, has_data. cbn [objects].
  split; [exists b; by rewrite lookup_insert_eq |]. split; [| done]. intros q Hq. by rewrite lookup_insert_ne.
Qed.

Lemma has_data_typetag p h data : has_data H p h data -> jl_typetagof H p = Ok (Z.land h (Z.lnot 15)).
Proof. intros [b E]. unfold jl_typetagof, deref. by rewrite E. Qed.
End Objects.

(** ** Changes of values

    Objects may be new, and the data of objects may change, except that of
    types. *)
Definition type_header (h : Z) : bool :=
  let t := Z.land h (Z.lnot 15) in (t =? tag jl_uniontype_tag) || (t =? tag jl_unionall_tag) || (t =? tag jl_typeeq_tag).

Record value_change (H H' : heap) : Prop := {
  vc_globals : H' = with_objects H (objects H');
  vc_old : forall p o, objects H !! p = Some o -> exists o', objects H' !! p = Some o' /\ header o' = header o /\
    (obody o' = obody o \/ type_header (header o) = false /\ (exists bs, obody o = BData bs) /\ exists bs, obody o' = BData bs)
}.

#[export] Instance value_change_preorder : PreOrder value_change.
Proof.
  split.
  - intros H. split; [by destruct H |]. intros p o E. exists o. split; [done |]. split; [done | by left].
  - intros H1 H2 H3 [G2 O2] [G3 O3]. split; [rewrite G3, G2; by destruct H1 |]. intros p o E.
    destruct (O2 p o E) as (o2 & E2 & Hh2 & B2), (O3 p o2 E2) as (o3 & E3 & Hh3 & B3). exists o3. split; [done |]. split; [congruence |].
    rewrite Hh2 in B3. destruct B2 as [B2 | (Ht & Hb & bs2 & B2)], B3 as [B3 | (Ht3 & (bs3 & Hb3) & B3)]; [left; congruence | | |]; right; split; try done.
    + split; [exists bs3; congruence | done].
    + split; [done | exists bs2; congruence].
Qed.

(** A step that writes to one object or makes it. *)
Lemma put_change H H' p : H' = with_objects H (objects H') -> (forall q, q <> p -> objects H' !! q = objects H !! q) ->
  (forall o, objects H !! p = Some o -> type_header (header o) = false /\ (exists bs, obody o = BData bs) /\
    exists o', objects H' !! p = Some o' /\ header o' = header o /\ exists bs, obody o' = BData bs) -> value_change H H'.
Proof.
  intros HG Ho Hp. split; [done |]. intros q o E. destruct (decide (q = p)) as [-> | Hq].
  - destruct (Hp o E) as (Ht & Hb & o' & E' & Hh & Hb'). exists o'. split; [done |]. split; [done |]. by right.
  - exists o. rewrite Ho by done. split; [done |]. split; [done | by left].
Qed.

(** What is read of types does not change. *)
Section Types.
Context (H H' : heap) (Hvc : value_change H H').

Lemma vc_global {A} (f : heap -> A) : (forall m, f (with_objects H m) = f H) -> f H' = f H.
Proof. intros Hf. rewrite (vc_globals _ _ Hvc). apply Hf. Qed.

Lemma vc_deref p o : deref H p = Ok o -> exists o', deref H' p = Ok o' /\ header o' = header o /\
  (obody o' = obody o \/ type_header (header o) = false /\ (exists bs, obody o = BData bs) /\ exists bs, obody o' = BData bs).
Proof.
  unfold deref. destruct (objects H !! p) as [o1 |] eqn:E; [| done]. intros [= ->].
  destruct (vc_old _ _ Hvc p o E) as (o' & -> & ?). by exists o'.
Qed.

Lemma vc_typetagof p t : jl_typetagof H p = Ok t -> jl_typetagof H' p = Ok t.
Proof. intros (o & (o' & E & Hh & _)%vc_deref & [= <-])%obind_Ok_inv. unfold jl_typetagof. rewrite E. cbn. by rewrite Hh. Qed.

Lemma vc_is_tag t p b : is_tag H t p = Ok b -> is_tag H' t p = Ok b.
Proof. intros (d & Ed%vc_typetagof & E)%obind_Ok_inv. unfold is_tag. by rewrite Ed. Qed.

Lemma vc_typeof p t : jl_typeof H p = Ok t -> jl_typeof H' p = Ok t.
Proof.
  intros (d & Ed%vc_typetagof & E)%obind_Ok_inv. unfold jl_typeof. rewrite Ed. cbn. unfold jl_to_typeof in *. by rewrite (vc_global small_typeof).
Qed.

(** The body of an object without data. *)
Lemma vc_body {A} (f : body -> outcome A) p a : (forall bs, f (BData bs) = UB) -> (let! o := deref H p in f (obody o)) = Ok a ->
  (let! o := deref H' p in f (obody o)) = Ok a.
Proof.
  intros Hf (o & (o' & E & _ & Hb)%vc_deref & Ea)%obind_Ok_inv. rewrite E. cbn. destruct Hb as [-> | (_ & [bs Hb] & _)]; [done |].
  by rewrite Hb, Hf in Ea.
Qed.

Lemma vc_datatype p d : get_datatype H p = Ok d -> get_datatype H' p = Ok d.
Proof. by apply (vc_body (fun b => match b with BDatatype d => Ok d | _ => UB end)). Qed.

Lemma vc_svec p l : get_svec H p = Ok l -> get_svec H' p = Ok l.
Proof. by apply (vc_body (fun b => match b with BSvec l => Ok l | _ => UB end)). Qed.

Lemma vc_typename p n : get_typename H p = Ok n -> get_typename H' p = Ok n.
Proof. by apply (vc_body (fun b => match b with BTypename n => Ok n | _ => UB end)). Qed.

(** The parts of a type. *)
Lemma vc_ptr_field t p i q : t ∈ [jl_uniontype_tag; jl_unionall_tag; jl_typeeq_tag] -> is_tag H t p = Ok true ->
  ptr_field H p i = Ok q -> ptr_field H' p i = Ok q.
Proof.
  intros Ht (x & (o1 & E1 & [= <-])%obind_Ok_inv & [= Etag%Z.eqb_eq])%obind_Ok_inv E.
  unfold ptr_field, load_ptr, load_uint in *. apply obind_Ok_inv in E as (bs & Eb & Eq). apply obind_Ok_inv in Eb as (ds & Ed & Eb).
  apply obind_Ok_inv in Ed as (o & Eo & Ed). cbn [fst shift] in Eo. rewrite E1 in Eo. injection Eo as <-.
  destruct (vc_deref p o1 E1) as (o' & E' & Hh & Hb). unfold load_bytes, data_at. cbn [fst snd shift] in *. rewrite E'. cbn [obind].
  destruct Hb as [-> | (Hty & _)]; [rewrite Ed; cbn [obind]; rewrite Eb; by cbn [obind] |]. exfalso. unfold type_header in Hty. rewrite Etag in Hty.
  by apply list_elem_of_In in Ht; cbn in Ht; destruct Ht as [<- | [<- | [<- | []]]].
Qed.

Lemma vc_unwrap n : forall v w, jl_unwrap_unionall H n v = Ok w -> jl_unwrap_unionall H' n v = Ok w.
Proof.
  induction n as [| n IH]; intros v w; cbn; intros (u & Eu & E)%obind_Ok_inv; rewrite (vc_is_tag _ _ _ Eu); cbn; destruct u; try done.
  apply obind_Ok_inv in E as (b & Eb & E). rewrite (vc_ptr_field jl_unionall_tag _ _ _ ltac:(by apply list_elem_of_In; cbn; auto) Eu Eb). cbn. by apply IH.
Qed.

Lemma vc_layout depth d ly : jl_datatype_layout H depth d = Ok ly -> jl_datatype_layout H' depth d = Ok ly.
Proof.
  unfold jl_datatype_layout. assert (Hw : forall r, (let! n := get_typename H (dt_name d) in let! w := jl_unwrap_unionall H depth (tn_wrapper n) in
    let! d := get_datatype H w in the_layout d) = Ok r -> (let! n := get_typename H' (dt_name d) in let! w := jl_unwrap_unionall H' depth (tn_wrapper n) in
    let! d := get_datatype H' w in the_layout d) = Ok r).
  { intros r (n & En%vc_typename & (w & Ew%vc_unwrap & (dw & Edw%vc_datatype & E)%obind_Ok_inv)%obind_Ok_inv)%obind_Ok_inv.
    rewrite En. cbn. rewrite Ew. cbn. rewrite Edw. by cbn. }
  destruct (dt_layout d) as [l |]; [destruct (jl_is_layout_opaque l) |]; try done; apply Hw.
Qed.

Lemma vc_size depth p n : jl_datatype_size H depth p = Ok n -> jl_datatype_size H' depth p = Ok n.
Proof.
  intros (d & Ed%vc_datatype & (ly & El%vc_layout & E)%obind_Ok_inv)%obind_Ok_inv. unfold jl_datatype_size. rewrite Ed. cbn. rewrite El. by cbn.
Qed.

Lemma vc_normalize p q : normalize_typeofbottom_layout_alias H p = Ok q -> normalize_typeofbottom_layout_alias H' p = Ok q.
Proof.
  unfold normalize_typeofbottom_layout_alias. rewrite (vc_global small_typeof) by done. destruct (_ =? 0); [done |].
  intros (e & Ee & E)%obind_Ok_inv. unfold jl_is_typeeq. rewrite (vc_is_tag _ _ _ Ee). cbn. destruct e; [| done].
  apply obind_Ok_inv in E as (t & Et & E). unfold jl_typeeq_T in *. rewrite (vc_ptr_field jl_typeeq_tag _ _ _ ltac:(by apply list_elem_of_In; cbn; auto) Ee Et).
  cbn. by rewrite (vc_global jl_bottom_type).
Qed.

Lemma vc_nth_union n : forall v i r, nth_union_component H n v i = Ok r -> nth_union_component H' n v i = Ok r.
Proof.
  induction n as [| n IH]; intros v i r; cbn; intros (u & Eu & E)%obind_Ok_inv; unfold jl_is_uniontype; rewrite (vc_is_tag _ _ _ Eu); cbn; destruct u; try done.
  apply obind_Ok_inv in E as (a & Ea & ([r1 i1] & E1%IH & E)%obind_Ok_inv).
  rewrite (vc_ptr_field jl_uniontype_tag _ _ _ ltac:(by apply list_elem_of_In; cbn; auto) Eu Ea). cbn. rewrite E1. cbn. destruct r1; [done |].
  apply obind_Ok_inv in E as (b & Eb & E%IH). by rewrite (vc_ptr_field jl_uniontype_tag _ _ _ ltac:(by apply list_elem_of_In; cbn; auto) Eu Eb).
Qed.

Lemma vc_field_type d i t : jl_field_type_concrete H d i = Ok t -> jl_field_type_concrete H' d i = Ok t.
Proof. intros (l & El%vc_svec & E)%obind_Ok_inv. unfold jl_field_type_concrete. by rewrite El. Qed.

Lemma vc_isatomic d i b : jl_field_isatomic H d i = Ok b -> jl_field_isatomic H' d i = Ok b.
Proof. intros (n & En%vc_typename & E)%obind_Ok_inv. unfold jl_field_isatomic. by rewrite En. Qed.
End Types.

(** ** Allocation *)

(** Objects stay as they are; there may be new ones. *)
Record grows (H H' : heap) : Prop := {
  gr_globals : H' = with_objects H (objects H');
  gr_old : forall p o, objects H !! p = Some o -> objects H' !! p = Some o
}.

#[export] Instance grows_preorder : PreOrder grows.
Proof.
  split; [intros H; split; [by destruct H | done] |]. intros H1 H2 H3 [G2 O2] [G3 O3]. split; [rewrite G3, G2; by destruct H1 |].
  intros p o E. by apply O3, O2.
Qed.

Lemma grows_change H H' : grows H H' -> value_change H H'.
Proof. intros [G O]. split; [done |]. intros p o E. exists o. split; [by apply O |]. split; [done | by left]. Qed.

Lemma grows_data H H' p h data : grows H H' -> has_data H p h data -> has_data H' p h data.
Proof. intros [_ O] [b E]. exists b. by apply O. Qed.

Lemma grows_new H p o : objects H !! p = None -> grows H (put_obj p o H).
Proof.
  intros E. split; [done |]. intros q o' E'. unfold put_obj. cbn. rewrite lookup_insert_ne; [done |]. intros ->. congruence.
Qed.

(** The object [p] has type [ty] and its data starts with [bs]. *)
Record is_value (H : heap) (p ty : ptr) (bs : list Z) : Prop := {
  iv_addr : p <> 0;
  iv_type : jl_typeof H p = Ok ty;
  iv_data : load_bytes H (p, 0) (Z.of_nat (length bs)) = Ok bs
}.

Lemma load_bytes_grows H H' l n bs : grows H H' -> load_bytes H l n = Ok bs -> load_bytes H' l n = Ok bs.
Proof.
  intros [_ O] (x & (o & Eo & Ex)%obind_Ok_inv & E)%obind_Ok_inv. unfold load_bytes, data_at, deref in *.
  destruct (objects H !! l.1) as [o1 |] eqn:E1; [| done]. injection Eo as ->. rewrite (O _ _ E1). cbn [obind]. rewrite Ex. exact E.
Qed.

Lemma is_value_grows H H' p ty bs : grows H H' -> is_value H p ty bs -> is_value H' p ty bs.
Proof. intros Hg [Ha Ht Hd]. split; [done | by apply (vc_typeof H H' (grows_change _ _ Hg)) | by eapply load_bytes_grows]. Qed.

Lemma has_data_value H p h data ty bs : p <> 0 -> has_data H p h data -> jl_to_typeof H (Z.land h (Z.lnot 15)) = Ok ty ->
  bs = take (length bs) data -> is_value H p ty bs.
Proof.
  intros Hp Hd Ht Hb. assert (Hl : (length bs <= length data)%nat) by (apply (f_equal length) in Hb; rewrite length_take in Hb; lia).
  split; [done | |].
  - unfold jl_typeof. by rewrite (has_data_typetag H p h data Hd).
  - rewrite (load_bytes_data H p h data) by (done || lia). unfold slice. rewrite Nat2Z.id. f_equal. symmetry. exact Hb.
Qed.

(** ** Tags *)

Lemma small_tag_header t gc : gc = 0 \/ gc = 3 -> Z.land (Z.lor (Z.shiftl (index_of t small_tags) 4) gc) (Z.lnot 15) = tag t.
Proof. intros [-> | ->]; by destruct t. Qed.

Lemma to_typeof_small H t : jl_to_typeof H (tag t) = Ok (small_typeof H t).
Proof. by destruct t. Qed.

Lemma type_header_small t gc : gc = 0 \/ gc = 3 -> t ∉ [jl_uniontype_tag; jl_unionall_tag; jl_typeeq_tag] ->
  type_header (Z.lor (Z.shiftl (index_of t small_tags) 4) gc) = false.
Proof. intros Hg Ht. unfold type_header. rewrite small_tag_header by done. rewrite !elem_of_cons in Ht. destruct t; try done; exfalso; apply Ht; auto. Qed.

(** ** Integers *)

Lemma le_bytes_le_word bs : Forall is_byte bs -> le_bytes (length bs) (le_word bs) = bs.
Proof.
  induction 1 as [| b bs Hb Hbs IH]; cbn [length le_bytes le_word]; [done |]. unfold is_byte in Hb.
  assert (E1 : (b + 256 * le_word bs) mod 256 = b) by (rewrite Z.mul_comm, Z.mod_add, Z.mod_small; lia).
  assert (E2 : (b + 256 * le_word bs) / 256 = le_word bs) by (rewrite Z.mul_comm, Z.div_add, Z.div_small; lia).
  change (2 ^ 8) with 256. by rewrite E1, E2, IH.
Qed.

Lemma le_bytes_cong n x y : x mod 2 ^ (8 * Z.of_nat n) = y mod 2 ^ (8 * Z.of_nat n) -> le_bytes n x = le_bytes n y.
Proof.
  intros E. rewrite <- !le_word_le_bytes in E. rewrite <- (le_bytes_le_word (le_bytes n x)), <- (le_bytes_le_word (le_bytes n y)) by apply le_bytes_bytes.
  by rewrite E, !length_le_bytes.
Qed.

Lemma to_signed_mod w x : 0 < w -> to_signed w x mod 2 ^ (8 * w) = x mod 2 ^ (8 * w).
Proof.
  intros Hw. unfold to_signed. rewrite Zminus_mod_idemp_l. f_equal. lia.
Qed.

Lemma to_signed_bytes w x : 0 < w -> le_bytes (Z.to_nat w) (to_signed w x) = le_bytes (Z.to_nat w) x.
Proof. intros Hw. apply le_bytes_cong. rewrite Z2Nat.id by lia. by apply to_signed_mod. Qed.

(** ** Boxes *)

(** The bytes of the value number [i] of a cache. *)
Definition cached_value (t : jl_small_typeof_tags) (i : Z) : option (list Z) :=
  let within n bs := if (0 <=? i) && (i <? n) then Some bs else None in
  match t with
  | jl_int16_tag => within NBOX_C (le_bytes 2 (i - NBOX_C / 2))
  | jl_int32_tag => within NBOX_C (le_bytes 4 (i - NBOX_C / 2))
  | jl_int64_tag => within NBOX_C (le_bytes 8 (i - NBOX_C / 2))
  | jl_uint16_tag => within NBOX_C (le_bytes 2 i)
  | jl_uint32_tag => within NBOX_C (le_bytes 4 i)
  | jl_uint64_tag | jl_ssavalue_tag | jl_slotnumber_tag => within NBOX_C (le_bytes 8 i)
  | jl_char_tag => within 128 (le_bytes 4 (Z.shiftl i 24))
  | jl_int8_tag | jl_uint8_tag => within 256 (le_bytes 1 i)
  | _ => None
  end.

Record boxes_ok (B : boxes) (H : heap) : Prop := {
  bo_true : is_value H (jl_true B) (small_typeof H jl_bool_tag) [1];
  bo_false : is_value H (jl_false B) (small_typeof H jl_bool_tag) [0];
  bo_cache : forall t i bs, cached_value t i = Some bs ->
    exists p, rd (boxed_cache B t) i = Ok p /\ is_value H p (small_typeof H t) bs
}.

Lemma boxes_ok_grows B H H' : grows H H' -> boxes_ok B H -> boxes_ok B H'.
Proof.
  intros Hg [Ht Hf Hc]. assert (Hs : small_typeof H' = small_typeof H) by (by rewrite (gr_globals _ _ Hg)).
  split; rewrite ?Hs; [by eapply is_value_grows | by eapply is_value_grows |]. intros t i bs E. destruct (Hc t i bs E) as (p & Ep & Hv).
  exists p. split; [done |]. by eapply is_value_grows.
Qed.

Section NewBits.
Context (depth : nat) (alloc : heap -> Z -> ptr) (junk : heap -> Z -> Z) (B : boxes).
Context (alloc_fresh : forall H sz, objects H !! alloc H sz = None) (alloc_nonnull : forall H sz, alloc H sz <> 0).

Lemma length_uninitialized H n : 0 <= n -> length (uninitialized junk H n) = Z.to_nat n.
Proof. intros. unfold uninitialized. rewrite length_map, length_seqZ. done. Qed.

Lemma uninitialized_bytes H n : Forall is_byte (uninitialized junk H n).
Proof. apply Forall_forall. intros x (y & -> & _)%list_elem_of_fmap. apply u8_range. Qed.

(** The result of a function that makes a value. *)
Definition makes (H : heap) (m : M ptr) (ty : ptr) (bs : list Z) : Prop :=
  exists p H', m H = Ok (Ret p, H') /\ grows H H' /\ is_value H' p ty bs.

Lemma new_box_makes H t w x : w ∈ [2; 4; 8] -> makes H (new_box alloc junk t w x) (small_typeof H t) (le_bytes (Z.to_nat w) x).
Proof.
  intros Hw. unfold new_box. set (v := alloc H (LLT_ALIGN w 8)).
  assert (Ha : LLT_ALIGN (LLT_ALIGN w 8) 8 = 8) by (apply list_elem_of_In in Hw; cbn in Hw; destruct Hw as [<- | [<- | [<- | []]]]; done).
  assert (Hw8 : 0 <= w <= 8) by (apply list_elem_of_In in Hw; cbn in Hw; lia).
  pose proof (alloc_fresh H (LLT_ALIGN w 8)) as Hf. fold v in Hf.
  set (data := uninitialized junk H 8). assert (Hl : length data = 8%nat) by (by apply length_uninitialized).
  set (h := Z.lor (Z.shiftl (index_of t small_tags) 4) 0).
  set (H1 := put_obj v (Obj 0 h (BData data)) (put_obj v (Obj 0 (small_typeof H t) (BData data)) H)).
  assert (Hd : has_data H1 v h data) by (exists 0; unfold H1, put_obj; cbn; by rewrite lookup_insert_eq).
  destruct (store_bytes_data H1 v h data 0 (le_bytes (Z.to_nat w) x) Hd) as (H2 & E2 & Hd2 & Ho & Hg); [lia | rewrite length_le_bytes; lia |].
  exists v, H2. split; [| split].
  - rewrite (bind_reads_Ok _ _ H (small_typeof H t)) by done.
    rewrite (bind_Ret _ _ _ v (put_obj v (Obj 0 (small_typeof H t) (BData data)) H)) by (unfold jl_gc_alloc; by rewrite Ha).
    unfold jl_set_typetagof. rewrite (bind_writes_Ok _ _ _ H1).
    + unfold store. by rewrite (bind_writes_Ok _ _ _ H2).
    + unfold set_header, deref. unfold put_obj at 1. cbn [objects with_objects]. by rewrite lookup_insert_eq.
  - split; [rewrite Hg; unfold H1, put_obj, with_objects; by cbn |]. intros p o E. rewrite Ho by (intros ->; congruence).
    unfold H1, put_obj. cbn. rewrite !lookup_insert_ne by (intros ->; congruence). done.
  - apply (has_data_value H2 v h _ _ _ (alloc_nonnull _ _) Hd2).
    + unfold h. rewrite small_tag_header by auto. rewrite to_typeof_small. rewrite Hg. by cbn.
    + rewrite length_le_bytes. symmetry. apply take_le_bytes.
Qed.

Lemma cache_makes H t i bs : boxes_ok B H -> cached_value t i = Some bs -> makes H (reads (fun _ => rd (boxed_cache B t) i)) (small_typeof H t) bs.
Proof.
  intros Hb Hc. destruct (bo_cache B H Hb t i bs Hc) as (p & Ep & Hv). exists p, H. split; [unfold reads; by rewrite Ep |].
  split; [reflexivity | done].
Qed.

Lemma sibox_makes H t w x : boxes_ok B H -> w ∈ [2; 4; 8] ->
  (forall i, 0 <= i < NBOX_C -> cached_value t i = Some (le_bytes (Z.to_nat w) (i - NBOX_C / 2))) ->
  makes H (SIBOX_FUNC alloc junk B t w x) (small_typeof H t) (le_bytes (Z.to_nat w) x).
Proof.
  intros Hb Hw Hc. unfold SIBOX_FUNC. destruct (Z.ltb_spec (to_signed w (x + NBOX_C / 2) mod 2 ^ (8 * w)) NBOX_C) as [Hi |]; [| by apply new_box_makes].
  apply cache_makes; [done |]. set (y := x + NBOX_C / 2) in *.
  assert (Hw2 : 2 <= w) by (apply list_elem_of_In in Hw; cbn in Hw; lia).
  assert (Hp : 2 ^ 15 <= 2 ^ (8 * w - 1)) by (apply Z.pow_le_mono_r; lia).
  assert (Hpp : 2 ^ (8 * w) = 2 * 2 ^ (8 * w - 1)) by (rewrite <- Z.pow_succ_r by lia; f_equal; lia).
  assert (Hr : - 2 ^ (8 * w - 1) <= to_signed w y < 2 ^ (8 * w - 1)).
  { unfold to_signed. pose proof (Z.mod_pos_bound (y + 2 ^ (8 * w - 1)) (2 ^ (8 * w)) ltac:(lia)). lia. }
  assert (H0 : 0 <= to_signed w y < NBOX_C).
  { unfold NBOX_C in *. destruct (Z.leb_spec 0 (to_signed w y)); [rewrite Z.mod_small in Hi by lia; lia |].
    rewrite <- (Z.mod_unique_pos (to_signed w y) (2 ^ (8 * w)) (-1) (to_signed w y + 2 ^ (8 * w))) in Hi by lia. lia. }
  rewrite Hc by done. f_equal. apply le_bytes_cong. rewrite Z2Nat.id by lia. rewrite <- Zminus_mod_idemp_l, to_signed_mod, Zminus_mod_idemp_l by lia.
  f_equal. lia.
Qed.

Lemma uibox_makes H t w x : boxes_ok B H -> w ∈ [2; 4; 8] -> 0 <= x ->
  (forall i, 0 <= i < NBOX_C -> cached_value t i = Some (le_bytes (Z.to_nat w) i)) ->
  makes H (UIBOX_FUNC alloc junk B t w x) (small_typeof H t) (le_bytes (Z.to_nat w) x).
Proof.
  intros Hb Hw Hx Hc. unfold UIBOX_FUNC. destruct (Z.ltb_spec x NBOX_C); [| by apply new_box_makes].
  apply cache_makes; [done | apply Hc; lia].
Qed.

(** A character below 128 has the byte that is not 0 at the end. *)
Lemma bswap_small b0 b1 b2 b3 : Forall is_byte [b0; b1; b2; b3] -> bswap_32 (le_word [b0; b1; b2; b3]) < 128 ->
  bswap_32 (le_word [b0; b1; b2; b3]) = b3 /\ [b0; b1; b2; b3] = le_bytes 4 (Z.shiftl b3 24).
Proof.
  intros Hb. unfold bswap_32. pose proof (le_bytes_le_word [b0; b1; b2; b3] Hb) as Hle. cbn [length] in Hle. rewrite Hle. cbn [rev app le_word]. rewrite !Forall_cons in Hb. destruct Hb as (H0 & H1 & H2 & H3 & _).
  unfold is_byte in *. intros Hlt. assert (b2 = 0 /\ b1 = 0 /\ b0 = 0) as (-> & -> & ->) by lia. split; [lia |].
  symmetry. rewrite <- (le_bytes_le_word [0; 0; 0; b3]) by (repeat constructor; unfold is_byte; lia). f_equal. cbn [le_word]. rewrite Z.shiftl_mul_pow2 by lia. lia.
Qed.

Lemma char_makes H bs : boxes_ok B H -> Forall is_byte bs -> length bs = 4%nat -> makes H (jl_box_char alloc junk B (le_word bs)) (small_typeof H jl_char_tag) bs.
Proof.
  intros Hb Hbs Hl. destruct bs as [| b0 [| b1 [| b2 [| b3 [|]]]]]; try done. unfold jl_box_char.
  destruct (Z.ltb_spec (bswap_32 (le_word [b0; b1; b2; b3])) 128) as [Hs | Hs].
  - destruct (bswap_small b0 b1 b2 b3 Hbs Hs) as [E1 E2]. rewrite E1 in Hs |- *. rewrite E2. rewrite !Forall_cons in Hbs. destruct Hbs as (_ & _ & _ & H3 & _).
    unfold is_byte in H3. apply cache_makes; [done |]. rewrite u8_small by lia. cbn [cached_value]. rewrite (proj2 (Z.leb_le 0 b3)), (proj2 (Z.ltb_lt b3 128)) by lia. done.
  - pose proof (new_box_makes H jl_char_tag 4 (le_word [b0; b1; b2; b3]) ltac:(by apply list_elem_of_In; cbn; auto)) as Hn.
    change (Z.to_nat 4) with (length [b0; b1; b2; b3]) in Hn. by rewrite le_bytes_le_word in Hn.
Qed.

(** Booleans are 0 or 1. *)
Definition bool_bits (t : jl_small_typeof_tags) (bs : list Z) : Prop := t = jl_bool_tag -> bs = [0] \/ bs = [1].

Lemma pooled_makes H t w box bs : boxes_ok B H -> pooled alloc junk B (Some t) = Some (w, box) -> Forall is_byte bs -> Z.of_nat (length bs) = w ->
  bool_bits t bs -> makes H (box (le_word bs)) (small_typeof H t) bs.
Proof.
  intros Hb Ep Hbs Hl Hbool. pose proof (le_bytes_le_word bs Hbs) as Hle. pose proof (le_word_range bs Hbs) as Hr.
  assert (HS : forall t w, w ∈ [2; 4; 8] -> Z.of_nat (length bs) = w ->
    (forall i, 0 <= i < NBOX_C -> cached_value t i = Some (le_bytes (Z.to_nat w) (i - NBOX_C / 2))) ->
    makes H (SIBOX_FUNC alloc junk B t w (to_signed w (le_word bs))) (small_typeof H t) bs).
  { intros t0 w0 Hw0 Hl0 Hc. pose proof (sibox_makes H t0 w0 (to_signed w0 (le_word bs)) Hb Hw0 Hc) as Hm.
    rewrite to_signed_bytes in Hm by (apply list_elem_of_In in Hw0; cbn in Hw0; lia). replace (Z.to_nat w0) with (length bs) in Hm by lia. by rewrite Hle in Hm. }
  assert (HU : forall t w, w ∈ [2; 4; 8] -> Z.of_nat (length bs) = w ->
    (forall i, 0 <= i < NBOX_C -> cached_value t i = Some (le_bytes (Z.to_nat w) i)) ->
    makes H (UIBOX_FUNC alloc junk B t w (le_word bs)) (small_typeof H t) bs).
  { intros t0 w0 Hw0 Hl0 Hc. pose proof (uibox_makes H t0 w0 (le_word bs) Hb Hw0 ltac:(lia) Hc) as Hm. replace (Z.to_nat w0) with (length bs) in Hm by lia. by rewrite Hle in Hm. }
  assert (Hin : forall i, 0 <= i < NBOX_C -> (0 <=? i) && (i <? NBOX_C) = true) by (intros i Hi; apply andb_true_intro; split; [apply Z.leb_le | apply Z.ltb_lt]; lia).
  destruct t; try done; cbn in Ep; injection Ep as <- <-.
  - destruct (Hbool eq_refl) as [-> | ->]; cbn; (eexists _, H; split; [done | split; [reflexivity | by apply Hb]]).
  - by apply char_makes; [| | lia].
  - apply HS; [by apply list_elem_of_In; cbn; auto | done | intros i Hi; cbn; by rewrite Hin].
  - apply HS; [by apply list_elem_of_In; cbn; auto | done | intros i Hi; cbn; by rewrite Hin].
  - apply HS; [by apply list_elem_of_In; cbn; auto | done | intros i Hi; cbn; by rewrite Hin].
  - destruct bs as [| b [| b1 bs]]; try (cbn [length] in Hl; lia). apply Forall_inv in Hbs. apply cache_makes; [done |]. cbn [cached_value le_word]. unfold is_byte in Hbs.
    assert (Eu : u8 (to_signed 1 (b + 256 * 0)) = b) by (unfold u8; change (2 ^ 8) with (2 ^ (8 * 1)); rewrite to_signed_mod by lia; rewrite Z.mod_small; lia).
    rewrite Eu, (proj2 (Z.leb_le 0 b)), (proj2 (Z.ltb_lt b 256)) by lia. cbn. by rewrite Z.mod_small.
  - apply HU; [by apply list_elem_of_In; cbn; auto | done | intros i Hi; cbn; by rewrite Hin].
  - apply HU; [by apply list_elem_of_In; cbn; auto | done | intros i Hi; cbn; by rewrite Hin].
  - apply HU; [by apply list_elem_of_In; cbn; auto | done | intros i Hi; cbn; by rewrite Hin].
  - destruct bs as [| b [| b1 bs]]; try (cbn [length] in Hl; lia). apply Forall_inv in Hbs. apply cache_makes; [done |]. cbn [cached_value le_word]. unfold is_byte in Hbs.
    rewrite (proj2 (Z.leb_le 0 _)), (proj2 (Z.ltb_lt _ 256)) by lia. cbn [le_bytes andb]. repeat f_equal. rewrite Z.mod_small; lia.
  - apply HU; [by apply list_elem_of_In; cbn; auto | done | intros i Hi; cbn; by rewrite Hin].
  - apply HU; [by apply list_elem_of_In; cbn; auto | done | intros i Hi; cbn; by rewrite Hin].
Qed.

(** *** Values of types that are stored inline *)

(** The header an object of type [q] gets. *)
Definition header_of (q : ptr) (d : jl_datatype_t) : Z := if dt_smalltag d =? 0 then q else Z.lor (Z.shiftl (dt_smalltag d) 4) 0.

Record value_type (H : heap) (q : ptr) (d : jl_datatype_t) (ly : jl_datatype_layout_t) : Prop := {
  vt_datatype : get_datatype H q = Ok d;
  vt_isd : jl_is_datatype H q = Ok true;
  vt_layout : dt_layout d = Some ly;
  vt_opaque : jl_is_layout_opaque ly = false;
  vt_size : 0 <= size ly < 2 ^ 32;
  (** The tag of its objects leads back to it. *)
  vt_tag : jl_to_typeof H (Z.land (header_of q d) (Z.lnot 15)) = Ok q /\ type_header (header_of q d) = false;
  vt_small : forall t, smalltag d = Some t -> t <> jl_null_tag -> small_typeof H t = q;
  vt_pooled : forall w box, pooled alloc junk B (smalltag d) = Some (w, box) -> size ly = w;
  (** Without data there is one value. *)
  vt_single : size ly = 0 -> dt_isconcretetype d = true /\ is_value H (dt_instance d) q [];
  vt_large : MAX_ATOMIC_SIZE < size ly -> dt_smalltag d = 0;
  vt_first : 0 <= first_ptr ly -> 8 * first_ptr ly + 8 <= size ly
}.

Lemma is_value_nil H H' p ty : value_change H H' -> is_value H p ty [] -> is_value H' p ty [].
Proof.
  intros Hvc [Ha Ht Hd]. split; [done | by apply (vc_typeof H H') |]. unfold load_bytes, data_at in *. cbn [fst snd length] in *.
  destruct (deref H p) as [o | |] eqn:Eo; try done. destruct (vc_deref H H' Hvc p o Eo) as (o' & -> & _ & Hb). cbn [obind] in *.
  assert (exists bs, obody o' = BData bs) as [bs ->].
  { destruct Hb as [-> | (_ & _ & Hb)]; [| done]. destruct (obody o); try done. by eexists. }
  assert (E : forall n, (0 <=? Z.of_nat n) = true) by (intros; apply Z.leb_le; lia). cbn [Z.leb Z.compare andb]. rewrite E. cbn [obind]. change (Z.of_nat 0) with 0. rewrite E. done.
Qed.

Lemma value_type_change H H' q d ly : value_change H H' -> value_type H q d ly -> value_type H' q d ly.
Proof.
  intros Hvc [Hd Hs Hl Ho Hz [Ht Hth] Hsm Hp Hv Hlg Hfi]. split; try done.
  - by apply (vc_datatype H H').
  - by apply (vc_is_tag H H').
  - split; [| done]. unfold jl_to_typeof in *. by rewrite (vc_global H H' Hvc small_typeof).
  - intros t. rewrite (vc_global H H' Hvc small_typeof) by done. apply Hsm.
  - intros E. split; [by apply Hv |]. apply (is_value_nil H); [done | by apply Hv].
Qed.

Lemma value_layout H q d ly : value_type H q d ly -> jl_datatype_layout H depth d = Ok ly.
Proof. intros Hv. unfold jl_datatype_layout. by rewrite (vt_layout _ _ _ _ Hv), (vt_opaque _ _ _ _ Hv). Qed.

Lemma value_size H q d ly : value_type H q d ly -> jl_datatype_size H depth q = Ok (size ly).
Proof. intros Hv. unfold jl_datatype_size. rewrite (vt_datatype _ _ _ _ Hv). cbn. by rewrite (value_layout H q d ly Hv). Qed.

Lemma value_the_layout H q d ly : value_type H q d ly -> the_layout d = Ok ly.
Proof. intros Hv. unfold the_layout. by rewrite (vt_layout _ _ _ _ Hv). Qed.

Lemma word_align sz : 0 <= sz < 2 ^ 32 -> sz <= LLT_ALIGN sz 8 < sz + 8 /\ (8 | LLT_ALIGN sz 8).
Proof.
  intros Hs. rewrite LLT_ALIGN_align_up by (lia || by exists 3). pose proof (align_up_spec sz 8 ltac:(lia)) as [? ?]. done.
Qed.

(** A new object has room for [sz] bytes, up to a whole number of words. *)
Lemma alloc_tagged_spec H q d sz : get_datatype H q = Ok d -> 0 <= sz < 2 ^ 32 ->
  exists v H1 data, alloc_tagged alloc junk sz q H = Ok (Ret v, H1) /\ v <> 0 /\ objects H !! v = None /\ grows H H1 /\
    has_data H1 v (header_of q d) data /\ Z.of_nat (length data) = LLT_ALIGN sz 8 /\ Forall is_byte data /\ (forall p, p <> v -> objects H1 !! p = objects H !! p).
Proof.
  intros Hv Hs. set (v := alloc H sz). set (data := uninitialized junk H (LLT_ALIGN sz 8)).
  pose proof (alloc_fresh H sz) as Hf. fold v in Hf. pose proof (word_align sz Hs) as [Ha _].
  set (H1 := put_obj v (Obj 0 q (BData data)) H). assert (Hg : grows H H1) by (by apply grows_new).
  assert (Ed : get_datatype H1 q = Ok d) by (by apply (vc_datatype H H1 (grows_change _ _ Hg))).
  assert (Hl : Z.of_nat (length data) = LLT_ALIGN sz 8) by (unfold data; rewrite length_uninitialized; lia).
  assert (El : objects H1 !! v = Some (Obj 0 q (BData data))) by (unfold H1, put_obj; cbn; by rewrite lookup_insert_eq).
  assert (Ho : forall p, p <> v -> objects H1 !! p = objects H !! p) by (intros p Hp; unfold H1, put_obj; cbn; by rewrite lookup_insert_ne).
  unfold alloc_tagged. rewrite (bind_Ret _ _ H v H1) by done. rewrite (datatype_Ok q d) by done. unfold header_of.
  destruct (Z.eqb_spec (dt_smalltag d) 0); cbn [negb].
  - exists v, H1, data. rewrite bind_ret. do 3 (split; [done || apply alloc_nonnull |]). split; [done |]. split; [by exists 0 |].
    split; [done |]. split; [apply uninitialized_bytes | done].
  - set (h := Z.lor (Z.shiftl (dt_smalltag d) 4) 0). set (H2 := put_obj v (Obj 0 h (BData data)) H1). exists v, H2, data.
    split; [unfold jl_set_typetagof; rewrite (bind_writes_Ok _ _ _ H2); [done |]; unfold set_header, deref; by rewrite El |].
    split; [apply alloc_nonnull |]. split; [done |].
    assert (Ho2 : forall p, p <> v -> objects H2 !! p = objects H !! p) by (intros p Hp; unfold H2, put_obj; cbn; rewrite lookup_insert_ne by done; by apply Ho).
    split; [split; [done |]; intros p o E; rewrite Ho2; [done | intros ->; congruence] |].
    split; [exists 0; unfold H2, put_obj; cbn; by rewrite lookup_insert_eq |]. split; [done |]. split; [apply uninitialized_bytes | done].
Qed.

(** Filling a new object. *)
Lemma filled_value H H1 v h data bs q : objects H !! v = None -> grows H H1 -> v <> 0 -> has_data H1 v h data -> jl_to_typeof H (Z.land h (Z.lnot 15)) = Ok q ->
  Z.of_nat (length bs) <= Z.of_nat (length data) ->
  exists H2, store_bytes (v, 0) bs H1 = Ok H2 /\ grows H H2 /\ forall n, (n <= length bs)%nat -> is_value H2 v q (take n bs).
Proof.
  intros Hf Hg Hv Hd Ht Hl. destruct (store_bytes_data H1 v h data 0 bs Hd) as (H2 & E2 & Hd2 & Ho & Hg2); [lia | lia |].
  exists H2. split; [done |]. split.
  - split; [rewrite Hg2, (gr_globals _ _ Hg); by destruct H |]. intros p o E. rewrite Ho by (intros ->; congruence). by apply (gr_old _ _ Hg).
  - intros n Hn. apply (has_data_value H2 v h _ q _ Hv Hd2).
    + unfold jl_to_typeof in *. rewrite Hg2, (gr_globals _ _ Hg). exact Ht.
    + unfold splice. rewrite length_take, Nat.min_l by done. change (take (Z.to_nat 0) data) with (@nil Z). cbn [app].
      by rewrite take_app_le by done.
Qed.

Lemma uninit_single H q d ly : value_type H q d ly -> size ly = 0 -> jl_new_struct_uninit depth alloc junk q H = Ok (Ret (dt_instance d), H).
Proof.
  intros Hv Hs. destruct (vt_single _ _ _ _ Hv Hs) as [Hc Hi]. unfold jl_new_struct_uninit.
  assert (Ec : constructible q H = Ok (Ret true, H)).
  { unfold constructible. rewrite (bind_reads_Ok _ _ _ true) by apply Hv. cbn [negb]. rewrite (datatype_Ok q d) by apply Hv.
    unfold is_opaque_or_unset. by rewrite Hc, (vt_layout _ _ _ _ Hv), (vt_opaque _ _ _ _ Hv). }
  rewrite (bind_Ret _ _ H true H Ec). cbn [negb]. rewrite (datatype_Ok q d) by apply Hv.
  pose proof (iv_addr _ _ _ _ Hi). destruct (Z.eqb_spec (dt_instance d) 0); done.
Qed.

Lemma le_word_load H l n bs : load_bytes H l n = Ok bs -> load_uint H l n = Ok (le_word bs).
Proof. intros E. unfold load_uint. by rewrite E. Qed.

Lemma load_bytes_length H l n bs : load_bytes H l n = Ok bs -> 0 <= n /\ length bs = Z.to_nat n.
Proof.
  intros (x & _ & E)%obind_Ok_inv. destruct (Z.leb_spec 0 n), (Z.leb_spec n (Z.of_nat (length x))); try done. injection E as <-.
  rewrite length_take. lia.
Qed.

(** Value from bits: the same in both variants for the types with pools and
    those without data. *)
Lemma small_bits_make H q d ly data bs (rest : Z -> M ptr) : boxes_ok B H -> value_type H q d ly -> load_bytes H data (size ly) = Ok bs ->
  Forall is_byte bs -> (forall t, smalltag d = Some t -> bool_bits t bs) ->
  (pooled alloc junk B (smalltag d) = None -> size ly <> 0 -> makes H (rest (size ly)) q bs) ->
  makes H (let* bt := datatype q in
    match pooled alloc junk B (smalltag bt) with
    | Some (w, box) => let* x := Bits.load data w in box x
    | None => let* nb := reads (fun H => jl_datatype_size H depth q) in if nb =? 0 then jl_new_struct_uninit depth alloc junk q else rest nb
    end) q bs.
Proof.
  intros Hb Hv Hd Hbs Hbool Hrest. unfold makes. rewrite (datatype_Ok q d) by apply Hv. destruct (pooled alloc junk B (smalltag d)) as [[w box] |] eqn:Ep.
  - pose proof (vt_pooled _ _ _ _ Hv _ _ Ep) as Hw. rewrite Hw in *. unfold Bits.load. rewrite (bind_reads_Ok _ _ H (le_word bs)) by (by apply le_word_load).
    destruct (smalltag d) as [t |] eqn:Et; [| done]. destruct (load_bytes_length _ _ _ _ Hd) as [Hs Hl].
    rewrite <- (vt_small _ _ _ _ Hv t Et) by (intros ->; done). apply (pooled_makes H t w box); try done; [| by apply Hbool].
    lia.
  - rewrite (bind_reads_Ok _ _ H (size ly)) by (by apply (value_size H q d)). destruct (Z.eqb_spec (size ly) 0) as [E0 | E0]; [| by apply Hrest].
    exists (dt_instance d), H. split; [by apply (uninit_single H q d ly) |]. split; [reflexivity |].
    rewrite E0 in Hd. destruct (load_bytes_length _ _ _ _ Hd) as [_ Hl]. destruct bs; [| done]. by apply (vt_single _ _ _ _ Hv).
Qed.

(** *** Atomic variants *)

Definition atomic_width (nb : Z) : Z := if nb <=? 1 then 1 else if nb <=? 2 then 2 else if nb <=? 4 then 4 else if nb <=? 8 then 8 else 16.

(** Filling a new object of the type with at least its size. *)
Lemma filled_makes H q d ly wb (fill : ptr -> M unit) : value_type H q d ly ->
  size ly <= Z.of_nat (length wb) <= LLT_ALIGN (size ly) 8 ->
  (forall v H1, grows H H1 -> fill v H1 = writes (store_bytes (v, 0) wb) H1) ->
  makes H (let* v := alloc_tagged alloc junk (size ly) q in fill v ;; ret v) q (take (Z.to_nat (size ly)) wb).
Proof.
  intros Hv Hl Hfill. pose proof (vt_size _ _ _ _ Hv) as Hs.
  destruct (alloc_tagged_spec H q d (size ly) (vt_datatype _ _ _ _ Hv) Hs) as (v & H1 & dat & E1 & Hv0 & Hf & Hg & Hdat & Hld & _).
  destruct (filled_value H H1 v (header_of q d) dat wb q Hf Hg Hv0 Hdat) as (H2 & E2 & Hg2 & Hval); [apply Hv | lia |].
  exists v, H2. split; [| split; [done |]; apply Hval; lia].
  rewrite (bind_Ret _ _ _ _ _ E1). rewrite (bind_Ret (fill v) _ H1 tt H2); [done |]. rewrite Hfill by done. unfold writes. by rewrite E2.
Qed.

Lemma jl_new_bits_makes H q d ly data bs : boxes_ok B H -> value_type H q d ly -> load_bytes H data (size ly) = Ok bs -> Forall is_byte bs ->
  (forall t, smalltag d = Some t -> bool_bits t bs) -> makes H (jl_new_bits depth alloc junk B q data) q bs.
Proof.
  intros Hb Hv Hd Hbs Hbool. unfold makes, jl_new_bits. rewrite (bind_reads_Ok _ _ H true) by apply Hv. cbn [negb].
  apply (small_bits_make H q d ly data bs (fun nb => let* v := alloc_tagged alloc junk nb q in memcpy (v, 0) data nb ;; ret v)); try done.
  intros _ _. destruct (load_bytes_length _ _ _ _ Hd) as [Hs0 Hl]. rewrite <- (take_ge bs (Z.to_nat (size ly))) by lia.
  apply (filled_makes H q d ly bs); [done | pose proof (word_align _ (vt_size _ _ _ _ Hv)); lia |]. intros v H1 Hg. unfold memcpy.
  by rewrite (bind_reads_Ok _ _ H1 bs) by (by apply (load_bytes_grows H)).
Qed.

Lemma jl_atomic_new_bits_makes H q d ly data bs bsw : boxes_ok B H -> value_type H q d ly -> load_bytes H data (size ly) = Ok bs -> Forall is_byte bs ->
  (forall t, smalltag d = Some t -> bool_bits t bs) -> size ly <= 16 ->
  (size ly <> 0 -> load_bytes H data (atomic_width (size ly)) = Ok bsw /\ Forall is_byte bsw /\ bs = take (Z.to_nat (size ly)) bsw) ->
  makes H (jl_atomic_new_bits depth alloc junk B q data) q bs.
Proof.
  intros Hb Hv Hd Hbs Hbool H16 Hw. unfold makes, jl_atomic_new_bits. rewrite (bind_reads_Ok _ _ H true) by apply Hv. cbn [negb].
  apply (small_bits_make H q d ly data bs (fun nb => let* v := alloc_tagged alloc junk nb q in
    (if nb =? 1 then let* x := Bits.load data 1 in store (v, 0) 1 x
     else if nb <=? 2 then let* x := Bits.load data 2 in store (v, 0) 2 x
     else if nb <=? 4 then let* x := Bits.load data 4 in store (v, 0) 4 x
     else if nb <=? 8 then let* x := Bits.load data 8 in store (v, 0) 8 x
     else if nb <=? 12 then let* x := Bits.load data 16 in assign_uint128 (v, 0) x 12
     else if nb <=? 16 then let* x := Bits.load data 16 in store (v, 0) 16 x
     else undefined) ;; ret v)); try done.
  intros _ Hn0. destruct (Hw Hn0) as (Ew & Hbw & Ebs). destruct (load_bytes_length _ _ _ _ Ew) as [Hw0 Hlw]. pose proof (le_bytes_le_word bsw Hbw) as Hle.
  pose proof (vt_size _ _ _ _ Hv) as Hs. pose proof (word_align (size ly) Hs) as [Ha [k Hk]].
  set (wb := if (8 <? size ly) && (size ly <=? 12) then take 12 bsw else bsw).
  assert (Hwb : size ly <= Z.of_nat (length wb) <= LLT_ALIGN (size ly) 8 /\ take (Z.to_nat (size ly)) wb = bs).
  { unfold wb, atomic_width in *. rewrite Ebs. destruct (Z.ltb_spec 8 (size ly)), (Z.leb_spec (size ly) 12); cbn [andb]; [rewrite take_take, length_take, Hlw |  | |];
    (repeat case_match; (split; [rewrite ?Hlw; lia | (f_equal; lia) || done])). }
  destruct Hwb as [Hlwb <-]. apply (filled_makes H q d ly wb); [done | done |]. intros v H1 Hg.
  assert (HL : forall w (k : Z -> M unit), w = atomic_width (size ly) -> bind (Bits.load data w) k H1 = k (le_word bsw) H1).
  { intros w k0 ->. apply bind_reads_Ok, le_word_load. by apply (load_bytes_grows H). }
  unfold atomic_width in *. unfold wb, store, assign_uint128.
  destruct (Z.eqb_spec (size ly) 1), (Z.leb_spec (size ly) 1), (Z.leb_spec (size ly) 2), (Z.leb_spec (size ly) 4), (Z.leb_spec (size ly) 8), (Z.leb_spec (size ly) 12),
    (Z.leb_spec (size ly) 16), (Z.ltb_spec 8 (size ly)); try lia; cbn [andb]; rewrite HL by done; rewrite Hlw in Hle; first [by rewrite Hle | change (Z.to_nat 16) with 16%nat in Hle; by rewrite Hle].
Qed.
End NewBits.

(** ** Copying values into memory *)

Lemma le_word_app a b : le_word (a ++ b) = le_word a + 2 ^ (8 * Z.of_nat (length a)) * le_word b.
Proof.
  induction a as [| x a IH]; cbn [le_word app length]; [lia |]. rewrite IH. replace (8 * Z.of_nat (S (length a))) with (8 + 8 * Z.of_nat (length a)) by lia.
  rewrite Z.pow_add_r by lia. change (2 ^ 8) with 256. lia.
Qed.

Lemma le_word_take bs n : Forall is_byte bs -> 0 <= n <= Z.of_nat (length bs) -> le_word (take (Z.to_nat n) bs) = le_word bs mod 2 ^ (8 * n).
Proof.
  intros Hb Hn. rewrite <- (take_drop (Z.to_nat n) bs) at 2. rewrite le_word_app. rewrite length_take, Nat.min_l, Z2Nat.id by lia.
  pose proof (le_word_range (take (Z.to_nat n) bs) ltac:(by apply Forall_take)) as Hr. rewrite length_take, Nat.min_l, Z2Nat.id in Hr by lia.
  rewrite Z.mul_comm, Z.mod_add by lia. by rewrite Z.mod_small.
Qed.

Lemma le_word_zeros bs n : le_word (bs ++ replicate n 0) = le_word bs.
Proof.
  rewrite le_word_app. assert (E : le_word (replicate n 0) = 0) by (induction n as [| n IH]; cbn; [done |]; by rewrite IH). rewrite E. lia.
Qed.

(** The value extended to a word of memory. *)
Lemma le_bytes_extend bs n : Forall is_byte bs -> (length bs <= n)%nat -> le_bytes n (le_word bs) = bs ++ replicate (n - length bs) 0.
Proof.
  intros Hb Hl. rewrite <- (le_word_zeros bs (n - length bs)). replace n with (length (bs ++ replicate (n - length bs) 0)) at 1 by (rewrite length_app, length_replicate; lia).
  apply le_bytes_le_word. apply Forall_app. split; [done |]. apply Forall_replicate. unfold is_byte. lia.
Qed.

(** Reading the first [nb] bytes of an object for an atomic operation. *)
Lemma atomic_read_spec H p h data nb : has_data H p h data -> Forall is_byte data -> 1 <= nb <= 16 -> LLT_ALIGN nb 8 <= Z.of_nat (length data) ->
  atomic_read (p, 0) nb H = Ok (Ret (atomic_width nb, le_word (slice data 0 nb)), H).
Proof.
  intros Hd Hb Hnb Hl. pose proof (word_align nb ltac:(lia)) as [Ha [k Hk]].
  assert (HL : forall A w (f : Z -> M A), 0 <= w <= Z.of_nat (length data) -> bind (Bits.load (p, 0) w) f H = f (le_word (slice data 0 w)) H).
  { intros A w f Hw. apply bind_reads_Ok. apply (load_uint_data H p h); (done || lia). }
  assert (HM : forall w n mask, 0 <= n <= w -> w <= Z.of_nat (length data) -> mask = Z.ones (8 * n) ->
    Z.land mask (le_word (slice data 0 w)) = le_word (slice data 0 n)).
  { intros w n mask Hn Hw ->. rewrite Z.land_comm, Z.land_ones by lia. rewrite <- le_word_take.
    - unfold slice. rewrite take_take. do 2 f_equal. lia.
    - by apply slice_bytes.
    - rewrite length_slice; lia. }
  unfold atomic_read, atomic_width, zext_read32, zext_read64, zext_read128.
  destruct (Z.eqb_spec nb 1) as [-> | ]; [by rewrite HL by lia |]. destruct (Z.leb_spec nb 1); [lia |].
  destruct (Z.eqb_spec nb 2) as [-> | ]; [by rewrite HL by lia |]. destruct (Z.leb_spec nb 2); [lia |].
  destruct (Z.leb_spec nb 4).
  { rewrite bind_bind, HL by lia. rewrite bind_ret. destruct (Z.eqb_spec nb 4) as [-> |]; [done |]. assert (nb = 3) as -> by lia. by rewrite (HM 4 3) by (done || lia). }
  destruct (Z.leb_spec nb 8).
  { rewrite bind_bind, HL by lia. rewrite bind_ret. destruct (Z.eqb_spec nb 8) as [-> |]; [done |]. destruct (Z.eqb_spec nb 7) as [-> |]; [by rewrite (HM 8 7) by (done || lia) |].
    destruct (Z.eqb_spec nb 6) as [-> |]; [by rewrite (HM 8 6) by (done || lia) |]. assert (nb = 5) as -> by lia. by rewrite (HM 8 5) by (done || lia). }
  destruct (Z.leb_spec nb 16); [| lia]. destruct (Z.eqb_spec nb 16) as [-> |]; [by rewrite HL by lia |].
  rewrite bind_bind, (bind_reads_Ok _ _ H (slice data 0 nb)) by (apply (load_bytes_data H p h); (done || lia)). done.
Qed.

(** An atomic store writes the value and zeros after it. *)
Lemma atomic_store_spec H dst p h data nb : has_data H p h data -> Forall is_byte data -> 0 <= nb <= 16 -> LLT_ALIGN nb 8 <= Z.of_nat (length data) ->
  jl_atomic_store_bits dst p nb H =
    if nb =? 0 then Ok (Ret tt, H) else writes (store_bytes dst (slice data 0 nb ++ replicate (Z.to_nat (atomic_width nb - nb)) 0)) H.
Proof.
  intros Hd Hb Hnb Hl. unfold jl_atomic_store_bits. destruct (Z.eqb_spec nb 0); [done |].
  pose proof (word_align nb ltac:(lia)) as [Ha _]. rewrite (bind_Ret _ _ _ _ _ (atomic_read_spec H p h data nb Hd Hb ltac:(lia) Hl)).
  assert (Hw : nb <= atomic_width nb) by (unfold atomic_width; repeat case_match; lia).
  unfold store. rewrite le_bytes_extend; [| by apply slice_bytes | rewrite length_slice; lia]. rewrite length_slice by lia. by rewrite Z2Nat.inj_sub by lia.
Qed.

(** *** Copies between objects *)

Section Copy.
Context (src hs : Z) (sdata : list Z).

(** Copying between different objects one word after another, in any order. *)
Lemma copy_words_spec dst hd o ks : forall H1 ddata, has_data H1 src hs sdata -> has_data H1 dst hd ddata -> src <> dst -> Forall is_byte sdata ->
  0 <= o -> Forall (fun k => 0 <= k /\ 8 * k + 8 <= Z.of_nat (length sdata) /\ o + 8 * k + 8 <= Z.of_nat (length ddata)) ks ->
  exists H2 ddata2, copy_words (dst, o) (src, 0) ks H1 = Ok (Ret tt, H2) /\ has_data H2 dst hd ddata2 /\ length ddata2 = length ddata /\
    (forall q, q <> dst -> objects H2 !! q = objects H1 !! q) /\ H2 = with_objects H1 (objects H2) /\
    forall i, ddata2 !! i = if bool_decide ((Z.of_nat i - o) / 8 ∈ ks) then sdata !! (i - Z.to_nat o)%nat else ddata !! i.
Proof.
  induction ks as [| k ks IH]; intros H1 ddata Hs Hd Hne Hb Ho Hks.
  - exists H1, ddata. split; [done |]. split; [done |]. split; [done |]. split; [done |]. split; [by destruct H1 |]. intros i. done.
  - apply Forall_cons in Hks as [(Hk0 & Hks1 & Hkd) Hks]. cbn [copy_words]. unfold Bits.load, store.
    rewrite (bind_reads_Ok _ _ H1 (le_word (slice sdata (8 * k) 8))) by (apply (load_uint_data H1 src hs); (done || lia)).
    assert (Hls : length (slice sdata (8 * k) 8) = 8%nat) by (by rewrite length_slice by lia).
    pose proof (le_bytes_le_word (slice sdata (8 * k) 8) ltac:(by apply slice_bytes)) as Hle. rewrite Hls in Hle. change (Z.to_nat 8) with 8%nat. rewrite Hle.
    destruct (store_bytes_data H1 dst hd ddata (o + 8 * k) (slice sdata (8 * k) 8) Hd) as (H2 & E2 & Hd2 & Ho2 & Hg2); [lia | lia |].
    rewrite (bind_writes_Ok _ _ _ H2) by exact E2.
    assert (Hs2 : has_data H2 src hs sdata) by (destruct Hs as [b Hs]; exists b; by rewrite Ho2).
    assert (Hl2 : length (splice ddata (o + 8 * k) (slice sdata (8 * k) 8)) = length ddata) by (apply length_splice; lia).
    destruct (IH H2 _ Hs2 Hd2 Hne Hb Ho) as (H3 & dd & E3 & Hd3 & Hl3 & Ho3 & Hg3 & Hi3); [by rewrite Hl2 |].
    exists H3, dd. split; [done |]. split; [done |]. split; [lia |]. split; [intros q Hq; by rewrite Ho3, Ho2 |]. split; [rewrite Hg3, Hg2; by destruct H1 |].
    intros i. rewrite Hi3. destruct (decide ((Z.of_nat i - o) / 8 ∈ ks)) as [Hin | Hin].
    + rewrite !bool_decide_eq_true_2; [done | by right | done].
    + rewrite (bool_decide_eq_false_2 _ Hin). rewrite lookup_splice by lia. rewrite Hls.
      destruct (decide ((Z.of_nat i - o) / 8 = k)) as [Hk | Hk].
      * rewrite bool_decide_eq_true_2 by (rewrite Hk; by left). pose proof (Z.div_mod (Z.of_nat i - o) 8 ltac:(lia)). pose proof (Z.mod_pos_bound (Z.of_nat i - o) 8 ltac:(lia)).
        destruct (Z.ltb_spec (Z.of_nat i) (o + 8 * k)), (Z.leb_spec (o + 8 * k + Z.of_nat 8) (Z.of_nat i)); cbn [orb]; try lia.
        rewrite lookup_slice by lia. f_equal. lia.
      * rewrite bool_decide_eq_false_2 by (rewrite elem_of_cons; intros [?|?]; done).
        destruct (Z.ltb_spec (Z.of_nat i) (o + 8 * k)), (Z.leb_spec (o + 8 * k + Z.of_nat 8) (Z.of_nat i)); cbn [orb]; try done.
        exfalso. apply Hk. symmetry. apply (Z.div_unique _ _ _ (Z.of_nat i - o - 8 * k)); lia.
Qed.

(** [H2] is [H1] with new data in one object. *)
Record wrote (H1 H2 : heap) (p h : Z) (data : list Z) : Prop := {
  wr_data : has_data H2 p h data;
  wr_other : forall q, q <> p -> objects H2 !! q = objects H1 !! q;
  wr_globals : H2 = with_objects H1 (objects H2)
}.

Lemma wrote_trans H1 H2 H3 p h data data' : wrote H1 H2 p h data -> wrote H2 H3 p h data' -> wrote H1 H3 p h data'.
Proof. intros [_ O2 G2] [D3 O3 G3]. split; [done | intros q Hq; by rewrite O3, O2 | rewrite G3, G2; by destruct H1]. Qed.

Lemma wrote_refl H p h data : has_data H p h data -> wrote H H p h data.
Proof. intros Hd. split; [done | done | by destruct H]. Qed.

Lemma wrote_change H1 H2 p h data data' : has_data H1 p h data -> type_header h = false -> wrote H1 H2 p h data' -> value_change H1 H2.
Proof.
  intros [b Hd] Ht [[b' Hd'] Ho Hg]. apply (put_change H1 H2 p); [done | done |]. intros o E. rewrite Hd in E. injection E as <-. split; [done |].
  split; [by eexists |]. eexists. split; [done |]. split; [done | by eexists].
Qed.

Lemma wrote_keeps H1 H2 p h data q hq dq : wrote H1 H2 p h data -> q <> p -> has_data H1 q hq dq -> has_data H2 q hq dq.
Proof. intros [_ Ho _] Hq [b E]. exists b. by rewrite Ho. Qed.

Lemma store_wrote H p h data o bs : has_data H p h data -> 0 <= o -> o + Z.of_nat (length bs) <= Z.of_nat (length data) ->
  exists H', store_bytes (p, o) bs H = Ok H' /\ wrote H H' p h (splice data o bs).
Proof. intros Hd Ho Hl. destruct (store_bytes_data H p h data o bs Hd Ho Hl) as (H' & E & ? & ? & ?). exists H'. by split. Qed.

Lemma memcpy_spec H dst hd ddata o so n : has_data H src hs sdata -> has_data H dst hd ddata -> 0 <= o -> 0 <= n -> 0 <= so -> so + n <= Z.of_nat (length sdata) ->
  o + n <= Z.of_nat (length ddata) -> exists H', memcpy (dst, o) (src, so) n H = Ok (Ret tt, H') /\ wrote H H' dst hd (splice ddata o (slice sdata so n)).
Proof.
  intros Hs Hd Ho Hn Hso Hls Hld. destruct (store_wrote H dst hd ddata o (slice sdata so n) Hd Ho) as (H' & E & Hw); [rewrite length_slice; lia |].
  exists H'. split; [| done]. unfold memcpy. rewrite (bind_reads_Ok _ _ H (slice sdata so n)) by (apply (load_bytes_data H src hs); (done || lia)).
  unfold writes. by rewrite E.
Qed.

Lemma memmove_refs_spec H dst hd ddata o n : has_data H src hs sdata -> has_data H dst hd ddata -> src <> dst -> Forall is_byte sdata -> 0 <= o -> 0 <= n ->
  8 * n <= Z.of_nat (length sdata) -> o + 8 * n <= Z.of_nat (length ddata) ->
  exists H', memmove_refs (dst, o) (src, 0) n H = Ok (Ret tt, H') /\ wrote H H' dst hd (splice ddata o (slice sdata 0 (8 * n))).
Proof.
  intros Hs Hd Hne Hb Ho Hn Hls Hld.
  assert (HC : forall ks, (forall k, k ∈ ks <-> 0 <= k < n) -> exists H', copy_words (dst, o) (src, 0) ks H = Ok (Ret tt, H') /\
    wrote H H' dst hd (splice ddata o (slice sdata 0 (8 * n)))).
  { intros ks Hks. destruct (copy_words_spec dst hd o ks H ddata Hs Hd Hne Hb Ho) as (H2 & dd & E & Hd2 & Hl2 & Ho2 & Hg2 & Hi).
    { apply Forall_forall. intros k Hk%Hks. lia. }
    exists H2. split; [done |]. replace (splice ddata o (slice sdata 0 (8 * n))) with dd; [by split |]. apply list_eq. intros i.
    assert (Hsl : length (slice sdata 0 (8 * n)) = Z.to_nat (8 * n)) by (apply length_slice; lia).
    rewrite Hi, lookup_splice by lia. rewrite Hsl, Z2Nat.id by lia. pose proof (Z.div_mod (Z.of_nat i - o) 8 ltac:(lia)). pose proof (Z.mod_pos_bound (Z.of_nat i - o) 8 ltac:(lia)).
    destruct (decide ((Z.of_nat i - o) / 8 ∈ ks)) as [Hin | Hin].
    - rewrite bool_decide_eq_true_2 by done. apply Hks in Hin.
      destruct (Z.ltb_spec (Z.of_nat i) o), (Z.leb_spec (o + 8 * n) (Z.of_nat i)); cbn [orb]; try lia. by rewrite lookup_slice by lia.
    - rewrite bool_decide_eq_false_2 by done. rewrite Hks in Hin.
      destruct (Z.ltb_spec (Z.of_nat i) o), (Z.leb_spec (o + 8 * n) (Z.of_nat i)); cbn [orb]; try done. lia. }
  unfold memmove_refs. destruct (_ || _); apply HC; intros k; [| rewrite list_elem_of_In, <- in_rev, <- list_elem_of_In]; rewrite elem_of_seqZ; lia.
Qed.
End Copy.

(** [memassign_safe] copies the value, with references or without. *)
Lemma memassign_spec depth H hasptr src hs sdata dst hd ddata o nb t : has_data H src hs sdata -> has_data H dst hd ddata -> src <> dst -> Forall is_byte sdata ->
  type_header hd = false -> jl_typeof H src = Ok t -> jl_datatype_size H depth t = Ok nb -> 0 <= o -> 0 <= nb <= Z.of_nat (length sdata) ->
  o + nb <= Z.of_nat (length ddata) ->
  exists H', memassign_safe depth hasptr (dst, o) src nb H = Ok (Ret tt, H') /\ wrote H H' dst hd (splice ddata o (slice sdata 0 nb)).
Proof.
  intros Hs Hd Hne Hb Hth Ht Hsz Ho Hnb Hld. unfold memassign_safe. rewrite (bind_reads_Ok _ _ H t) by done. rewrite (bind_reads_Ok _ _ H nb) by done.
  rewrite Z.eqb_refl. cbn [negb]. destruct hasptr; [| destruct (16 <=? nb); apply (memcpy_spec src hs sdata H dst hd ddata o 0 nb); (done || lia)].
  pose proof (Z.div_mod nb 8 ltac:(lia)) as Hdm. pose proof (Z.mod_pos_bound nb 8 ltac:(lia)) as Hm. set (n := nb / 8) in *.
  assert (Hn0 : 0 <= n) by (apply Z.div_pos; lia).
  destruct (memmove_refs_spec src hs sdata H dst hd ddata o n Hs Hd Hne Hb) as (H1 & E1 & W1); [lia .. |]. rewrite (bind_Ret _ _ _ _ _ E1).
  destruct (Z.eqb_spec (nb - n * 8) 0) as [E0 | E0].
  - exists H1. split; [done |]. replace nb with (8 * n) by lia. done.
  - assert (Hs1 : has_data H1 src hs sdata) by (by apply (wrote_keeps H H1 dst hd (splice ddata o (slice sdata 0 (8 * n))))).
    assert (Hl1 : length (slice sdata 0 (8 * n)) = Z.to_nat (8 * n)) by (apply length_slice; lia).
    destruct (memcpy_spec src hs sdata H1 dst hd _ (o + n * 8) (n * 8) (nb - n * 8) Hs1 (wr_data _ _ _ _ _ W1)) as (H2 & E2 & W2);
      [lia | lia | lia | lia | rewrite length_splice by lia; lia |].
    exists H2. split; [exact E2 |]. pose proof (wrote_trans _ _ _ _ _ _ _ W1 W2) as W. replace (o + n * 8) with (o + Z.of_nat (length (slice sdata 0 (8 * n)))) in W by lia.
    rewrite splice_splice in W by (rewrite ?length_slice; lia). replace (slice sdata 0 nb) with (slice sdata 0 (8 * n) ++ slice sdata (n * 8) (nb - n * 8)); [done |].
    unfold slice. rewrite !drop_0. replace (Z.to_nat nb) with (Z.to_nat (8 * n) + Z.to_nat (nb - n * 8))%nat by lia.
    rewrite <- take_take_drop. do 3 f_equal. lia.
Qed.

(** ** Locks *)

(** A lock nobody holds, at the start of an object. *)
Definition unlocked (data : list Z) : Prop := slice data 0 8 = replicate 8 0.

Section Locks.
Context (self : ptr) (Hself : 0 < self < 2 ^ 64).

Lemma lock_spec H v h data : has_data H v h data -> 12 <= Z.of_nat (length data) -> unlocked data ->
  exists H', lock_nogc self (v, 0) H = Ok (Ret tt, H') /\ wrote H H' v h (splice data 0 (le_bytes 8 self ++ le_bytes 4 1)).
Proof.
  intros Hd Hl Hu. unfold lock_nogc, Bits.load, store. rewrite (bind_reads_Ok _ _ H 0).
  - destruct (Z.eqb_spec 0 self); [lia |]. cbn [Z.eqb].
    destruct (store_wrote H v h data 0 (le_bytes 8 self) Hd) as (H1 & E1 & W1); [lia | rewrite length_le_bytes; lia |].
    rewrite (bind_writes_Ok _ _ _ H1) by exact E1.
    destruct (store_wrote H1 v h _ 8 (le_bytes 4 1) (wr_data _ _ _ _ _ W1)) as (H2 & E2 & W2); [lia | rewrite length_splice, ?length_le_bytes by (rewrite ?length_le_bytes; lia); lia |].
    exists H2. split; [unfold writes, shift; cbn [fst snd]; change (Z.to_nat 4) with 4%nat; change (0 + 8) with 8; by rewrite E2 |].
    rewrite <- (splice_splice data 0 (le_bytes 8 self) (le_bytes 4 1)) by (rewrite ?length_le_bytes; lia). rewrite length_le_bytes. exact (wrote_trans _ _ _ _ _ _ _ W1 W2).
  - rewrite (load_uint_data H v h data) by (done || lia). by rewrite Hu.
Qed.

Lemma unlock_spec H v h data : has_data H v h data -> 12 <= Z.of_nat (length data) -> slice data 0 8 = le_bytes 8 self -> slice data 8 4 = le_bytes 4 1 ->
  exists H', unlock_nogc self (v, 0) H = Ok (Ret tt, H') /\ wrote H H' v h (splice (splice data 8 (replicate 4 0)) 0 (replicate 8 0)).
Proof.
  intros Hd Hl Hown Hcnt. unfold unlock_nogc, Bits.load, store, shift. cbn [fst snd]. change (0 + 8) with 8.
  rewrite (bind_reads_Ok _ _ H self) by (rewrite (load_uint_data H v h data) by (done || lia); rewrite Hown, le_word_le_bytes, Z.mod_small; [done | lia]).
  rewrite Z.eqb_refl. cbn [negb]. rewrite (bind_reads_Ok _ _ H 1) by (by rewrite (load_uint_data H v h data) by (done || lia); rewrite Hcnt).
  change (u32 (1 - 1)) with 0. cbn [Z.eqb].
  destruct (store_wrote H v h data 8 (replicate 4 0) Hd) as (H1 & E1 & W1); [lia | rewrite length_replicate; lia |].
  rewrite (bind_writes_Ok _ _ _ H1) by exact E1.
  destruct (store_wrote H1 v h _ 0 (replicate 8 0) (wr_data _ _ _ _ _ W1)) as (H2 & E2 & W2); [lia | rewrite length_splice, ?length_replicate by (rewrite ?length_replicate; lia); lia |].
  exists H2. split; [unfold writes; change (le_bytes (Z.to_nat 8) 0) with (replicate 8 0); by rewrite E2 | by eapply wrote_trans].
Qed.
End Locks.
