(* ===== verification/BoxCaches.v ===== *)
(** * The caches of boxes

    [jl_init_box_caches] makes a box for every small number of every cached
    type; after it the boxes are what the functions of [Bits] rely on. *)

From stdpp Require Import base gmap numbers option list.
From Stdlib Require Import ZArith Lia.
From S2P Require Import Prelude Probe Identity Hashing HashingFacts Bytes Objects Egal HeapMonad LayoutCore LayoutCoreFacts Layout LayoutHeap Bits BitsFacts.

Section Caches.
Context (alloc : heap -> Z -> ptr) (junk : heap -> Z -> Z).
Context (alloc_fresh : forall H sz, objects H !! alloc H sz = None) (alloc_nonnull : forall H sz, alloc H sz <> 0).

(** Objects with data were added, nothing else changed. *)
Record adds (H H' : heap) : Prop := { ad_grows : grows H H'; ad_extends : H ⊑ H' }.

#[local] Instance adds_preorder : PreOrder adds.
Proof. split; [intros H; by split | intros H1 H2 H3 [] []; split; by etrans]. Qed.

Lemma adds_put H p h h2 data1 data2 : objects H !! p = None -> adds H (put_obj p (Obj h h2 (BData data2)) (put_obj p (Obj h h2 (BData data1)) H)).
Proof.
  intros Hp. assert (E : put_obj p (Obj h h2 (BData data2)) (put_obj p (Obj h h2 (BData data1)) H) = put_obj p (Obj h h2 (BData data2)) H).
  { unfold put_obj, with_objects. cbn. by rewrite insert_insert_eq. }
  rewrite E. split; [by apply grows_new |]. split; [done | |]; intros q o Hq; unfold put_obj in *; cbn in *.
  - exists o. rewrite lookup_insert_ne by (intros ->; congruence). split; [done |]. split; [done | apply body_ext_refl].
  - intros Hn. destruct (decide (p = q)) as [-> | Hne]; [rewrite lookup_insert_eq in Hq; injection Hq as <-; by eexists |].
    rewrite lookup_insert_ne in Hq by done. congruence.
Qed.

(** A box of [nb] bits that was not there in [H0]. *)
Definition boxed (H0 H : heap) (b : jl_small_typeof_tags * Z * Z) (v : ptr) : Prop :=
  is_value H v (small_typeof H b.1.1) (le_bytes (Z.to_nat (b.1.2 / 8)) b.2) /\ objects H0 !! v = None.

Lemma boxed_adds H0 H H' b v : adds H H' -> boxed H0 H b v -> boxed H0 H' b v.
Proof.
  intros [G _] [Hv Hf]. split; [| done]. rewrite (vc_global H H' (grows_change _ _ G) small_typeof) by done. by apply (is_value_grows H).
Qed.

Lemma boxed_earlier H0 H1 H b v : grows H0 H1 -> boxed H1 H b v -> boxed H0 H b v.
Proof. intros [_ O] [Hv Hf]. split; [done |]. destruct (objects H0 !! v) eqn:E; [| done]. apply O in E. congruence. Qed.

(** What the caches are filled with. *)
Definition boxable (b : jl_small_typeof_tags * Z * Z) : Prop := index_of b.1.1 small_tags <> 0 /\ b.1.2 ∈ [8; 16; 32; 64].

Lemma permbox_spec H b : boxable b -> exists v H', permbox alloc junk b.1.1 b.1.2 b.2 H = Ok (Ret v, H') /\ adds H H' /\ boxed H H' b v.
Proof.
  destruct b as [[t nb] x]. cbn [fst snd]. intros [Ht Hnb]. cbn [fst snd] in *. unfold permbox. rewrite (proj2 (Z.eqb_neq _ _) Ht).
  set (v := alloc H (LLT_ALIGN nb 8)). set (data := uninitialized junk H (LLT_ALIGN nb 8)). set (h := Z.lor (Z.shiftl (index_of t small_tags) 4) 3).
  pose proof (alloc_fresh H (LLT_ALIGN nb 8)) as Hf. fold v in Hf. set (H1 := put_obj v (Obj 0 h (BData data)) H).
  assert (Hl : nb / 8 <= Z.of_nat (length data) /\ 0 <= nb / 8).
  { unfold data. apply list_elem_of_In in Hnb. cbn in Hnb. rewrite length_uninitialized by (destruct Hnb as [<- | [<- | [<- | [<- | []]]]]; done).
    destruct Hnb as [<- | [<- | [<- | [<- | []]]]]; split; vm_compute; discriminate. }
  assert (Ed : objects H1 !! v = Some (Obj 0 h (BData data))) by (unfold H1, put_obj; cbn; by rewrite lookup_insert_eq).
  set (data2 := splice data 0 (le_bytes (Z.to_nat (nb / 8)) x)).
  assert (E2 : store_bytes (v, 0) (le_bytes (Z.to_nat (nb / 8)) x) H1 = Ok (put_obj v (Obj 0 h (BData data2)) H1)).
  { unfold store_bytes, deref. cbn [fst snd]. rewrite Ed. cbn [obind obody before header]. rewrite length_le_bytes.
    destruct (Z.leb_spec (0 + Z.of_nat (Z.to_nat (nb / 8))) (Z.of_nat (length data))); [| lia]. unfold data2, splice. rewrite length_le_bytes. reflexivity. }
  exists v, (put_obj v (Obj 0 h (BData data2)) H1). split; [unfold store; by rewrite (bind_writes_Ok _ _ _ _ E2) |].
  split; [by apply adds_put |]. split; [| done]. cbn [fst snd].
  apply (has_data_value _ v h data2 _ _ (alloc_nonnull _ _)); [exists 0; unfold put_obj; cbn; by rewrite lookup_insert_eq | |].
  - unfold h. rewrite small_tag_header by auto. apply to_typeof_small.
  - unfold data2, splice. change (take (Z.to_nat 0) data) with (@nil Z). cbn [app]. by rewrite take_app_length.
Qed.

Lemma permboxes_spec l : forall H, Forall boxable l -> exists vs H', permboxes alloc junk l H = Ok (Ret vs, H') /\ adds H H' /\ Forall2 (boxed H H') l vs.
Proof.
  induction l as [| [[t nb] x] l IH]; intros H Hl; [exists [], H; split; [done |]; by split |]. apply Forall_cons in Hl as [Hb Hl].
  destruct (permbox_spec H (t, nb, x) Hb) as (v & H1 & E1 & A1 & B1). destruct (IH H1 Hl) as (vs & H2 & E2 & A2 & B2). cbn [fst snd] in E1.
  exists (v :: vs), H2. split; [cbn [permboxes]; rewrite (bind_Ret _ _ _ _ _ E1); by rewrite (bind_Ret _ _ _ _ _ E2) |]. split; [by etrans |].
  constructor; [by apply (boxed_adds _ H1) |]. eapply Forall2_impl; [exact B2 |]. intros b w. apply boxed_earlier, A1.
Qed.

Lemma permbox_rows_spec row l : forall H, Forall (fun i => Forall boxable (row i)) l ->
  exists rows H', permbox_rows alloc junk row l H = Ok (Ret rows, H') /\ adds H H' /\ Forall2 (fun i vs => Forall2 (boxed H H') (row i) vs) l rows.
Proof.
  induction l as [| i l IH]; intros H Hl; [exists [], H; split; [done |]; by split |]. apply Forall_cons in Hl as [Hb Hl].
  destruct (permboxes_spec (row i) H Hb) as (vs & H1 & E1 & A1 & B1). destruct (IH H1 Hl) as (rows & H2 & E2 & A2 & B2).
  exists (vs :: rows), H2. split; [cbn [permbox_rows]; rewrite (bind_Ret _ _ _ _ _ E1); by rewrite (bind_Ret _ _ _ _ _ E2) |]. split; [by etrans |].
  constructor; [eapply Forall2_impl; [exact B1 |]; intros b w; by apply boxed_adds |].
  eapply Forall2_impl; [exact B2 |]. intros j ws Hw. eapply Forall2_impl; [exact Hw |]. intros b w. apply boxed_earlier, A1.
Qed.

(** The entry number [i] of a cache. *)
Lemma column_entry H0 H1 H H' row n rows k i t nb x bs : Forall2 (fun i vs => Forall2 (boxed H1 H) (row i) vs) (seqZ 0 n) rows -> adds H H' -> grows H0 H1 ->
  0 <= i < n -> row i !! k = Some (t, nb, x) -> bs = le_bytes (Z.to_nat (nb / 8)) x ->
  exists p, rd (column k rows) i = Ok p /\ is_value H' p (small_typeof H' t) bs /\ objects H0 !! p = None.
Proof.
  intros HF HA HG Hi Hb ->. destruct (Forall2_lookup_l _ _ _ (Z.to_nat i) i HF) as (vs & Hvs & Hrow); [apply lookup_seqZ; lia |].
  destruct (Forall2_lookup_l _ _ _ k _ Hrow Hb) as (p & Hp & Hbox). exists p.
  split; [| destruct (boxed_earlier _ _ _ _ _ HG (boxed_adds _ H _ _ _ HA Hbox)); by split].
  apply rd_lookup. split; [lia |]. unfold column. rewrite list_lookup_fmap, Hvs. cbn. f_equal. by apply nth_lookup_Some.
Qed.

(** Afterwards the boxes are right, and new. *)
Lemma init_box_caches_spec H tru fls : is_value H tru (small_typeof H jl_bool_tag) [1] -> is_value H fls (small_typeof H jl_bool_tag) [0] ->
  exists B H', jl_init_box_caches alloc junk tru fls H = Ok (Ret B, H') /\ adds H H' /\ boxes_ok B H' /\ jl_true B = tru /\ jl_false B = fls /\
    forall t i p bs, cached_value t i = Some bs -> rd (boxed_cache B t) i = Ok p -> objects H !! p = None.
Proof.
  intros Ht Hf. unfold jl_init_box_caches. set (row1 := fun i : Z => [_; _; _; _; _; _; _; _]). set (row2 := fun i : Z => [(jl_char_tag, _, _)]). set (row3 := fun i : Z => [_; _]).
  assert (Hrow : forall (row : Z -> list (jl_small_typeof_tags * Z * Z)) l, (forall i, forallb (fun b => negb (index_of b.1.1 small_tags =? 0) && existsb (Z.eqb b.1.2) [8; 16; 32; 64]) (row i) = true) ->
    Forall (fun i => Forall boxable (row i)) l).
  { intros row l Hr. apply Forall_forall. intros i _. apply Forall_forall. intros b Hin%list_elem_of_In. pose proof (proj1 (forallb_forall _ _) (Hr i) b Hin) as E.
    apply andb_prop in E as [E1%negb_true_iff%Z.eqb_neq (y & Hy & Ey%Z.eqb_eq)%existsb_exists]. split; [done | rewrite Ey; by apply list_elem_of_In]. }
  destruct (permbox_rows_spec row1 (seqZ 0 NBOX_C) H) as (r1 & H1 & E1 & A1 & F1); [by apply Hrow |]. rewrite (bind_Ret _ _ _ _ _ E1).
  destruct (permbox_rows_spec row2 (seqZ 0 128) H1) as (r2 & H2 & E2 & A2 & F2); [by apply Hrow |]. rewrite (bind_Ret _ _ _ _ _ E2).
  destruct (permbox_rows_spec row3 (seqZ 0 256) H2) as (r3 & H3 & E3 & A3 & F3); [by apply Hrow |]. rewrite (bind_Ret _ _ _ _ _ E3).
  eexists _, H3. split; [done |]. assert (A : adds H H3) by (do 2 (etrans; [eassumption |]); done). pose proof (ad_grows _ _ A) as G. split; [done |].
  assert (A13 : adds H1 H3) by (by etrans). assert (Hs : small_typeof H3 = small_typeof H) by (by rewrite (gr_globals _ _ G)).
  match goal with |- boxes_ok ?b _ /\ _ => set (B := b) end.
  assert (Hc : forall t i bs, cached_value t i = Some bs -> exists p, rd (boxed_cache B t) i = Ok p /\ is_value H3 p (small_typeof H3 t) bs /\ objects H !! p = None).
  { assert (Hin : forall n (bs bs' : list Z) i, (if (0 <=? i) && (i <? n) then Some bs else None) = Some bs' -> 0 <= i < n /\ bs' = bs).
    { intros n bs bs' i. destruct (Z.leb_spec 0 i), (Z.ltb_spec i n); try done. by intros [= ->]. }
    intros t i bs E. unfold cached_value in E. cbv zeta in E.
    destruct t; try done; apply Hin in E as [Hi ->]; cbn [boxed_cache B];
      first [eapply (column_entry H H H1 H3 row1 NBOX_C); [exact F1 | exact A13 | reflexivity | exact Hi | reflexivity | reflexivity]
            | eapply (column_entry H H1 H2 H3 row2 128); [exact F2 | exact A3 | apply A1 | exact Hi | reflexivity | reflexivity]
            | eapply (column_entry H H2 H3 H3 row3 256); [exact F3 | reflexivity | by etrans; [apply A1 | apply A2] | exact Hi | reflexivity | reflexivity]]. }
  split; [split; rewrite ?Hs; [by apply (is_value_grows H) | by apply (is_value_grows H) |] | split; [done |]; split; [done |]].
  - intros t i bs E. rewrite <- Hs. destruct (Hc t i bs E) as (p & ? & ? & _). by exists p.
  - intros t i p bs E Ep. destruct (Hc t i bs E) as (p' & Ep' & _ & Hp). congruence.
Qed.
End Caches.
