(* ===== verification/FieldsFacts.v ===== *)
(** * Reading and writing fields

    What is stored in a field is read back, and nothing else in the struct
    changes. *)

From stdpp Require Import base gmap numbers option list.
From Stdlib Require Import ZArith Lia.
From S2P Require Import Prelude Probe Identity Hashing HashingFacts Bytes Objects Egal EgalFacts HeapMonad LayoutCore LayoutCoreFacts Layout LayoutHeap LayoutFacts LayoutSound Bits Fields BitsFacts.

(** ** Components of unions *)

Section Unions.
Context (H : heap).

Lemma nth_union_past n : forall ty c i, union_count H n ty = Ok c -> c <= i -> nth_union_component H n ty i = Ok (None, i - c).
Proof.
  induction n as [| n IH]; intros ty c i; cbn; intros (u & Eu & E)%obind_Ok_inv Hi; rewrite Eu; cbn; destruct u; try done;
    try (injection E as <-; destruct (Z.eqb_spec i 0); [lia | done]).
  apply obind_Ok_inv in E as (a & -> & (x & Ex & (b & Eb & (y & Ey & [= <-])%obind_Ok_inv)%obind_Ok_inv)%obind_Ok_inv). cbn.
  pose proof (union_count_pos H n b y Ey). rewrite (IH a x i Ex) by lia. cbn. rewrite Eb. cbn. rewrite (IH b y (i - x) Ey) by lia. do 2 f_equal. lia.
Qed.

(** The number [jl_find_union_component] finds leads back to the component. *)
Lemma find_nth n : forall ty c x k f m, union_count H n ty = Ok c -> 0 <= k -> k + c < 2 ^ 32 -> find_union_component H n ty x k = Ok (f, m) ->
  if (f : bool) then k <= m < k + c /\ nth_union_component H n ty (m - k) = Ok (Some x, 0) else m = k + c.
Proof.
  assert (Leaf : forall ty x k f m, 0 <= k -> k + 1 < 2 ^ 32 -> (if x =? ty then Ok (true, k) else Ok (false, u32 (k + 1))) = Ok (f, m) ->
    if (f : bool) then k <= m < k + 1 /\ (if m - k =? 0 then Ok (Some ty, m - k) else Ok (None, m - k - 1)) = Ok (Some x, 0) else m = k + 1).
  { intros ty x k f m Hk Hb E. destruct (Z.eqb_spec x ty) as [-> |]; injection E as <- <-; [| by rewrite u32_small by lia].
    rewrite Z.sub_diag. split; [lia | done]. }
  induction n as [| n IH]; intros ty c x k f m; cbn; intros (u & Eu & E)%obind_Ok_inv Hk Hc; rewrite Eu; cbn; destruct u; try done;
    try (injection E as <-; by apply Leaf).
  apply obind_Ok_inv in E as (a & -> & (ca & Ea & (b & Eb & (cb & Ecb & [= <-])%obind_Ok_inv)%obind_Ok_inv)%obind_Ok_inv). cbn.
  pose proof (union_count_pos H n a ca Ea). pose proof (union_count_pos H n b cb Ecb).
  intros ([fa ma] & Efa & E)%obind_Ok_inv. pose proof (IH a ca x k fa ma Ea Hk ltac:(lia) Efa) as Ha. destruct fa.
  - injection E as <- <-. destruct Ha as [Hm ->]. split; [lia | done].
  - subst ma. rewrite Eb in E. cbn in E. pose proof (IH b cb x (k + ca) f m Ecb ltac:(lia) ltac:(lia) E) as Hb. destruct f; [| lia]. destruct Hb as [Hm Hb].
    split; [lia |]. rewrite (nth_union_past n a ca (m - k) Ea) by lia. cbn. rewrite Eb. cbn. rewrite <- Hb. f_equal. lia.
Qed.

Lemma nth_union_within n : forall ty c i, union_count H n ty = Ok c -> 0 <= i < c -> exists x, nth_union_component H n ty i = Ok (Some x, 0).
Proof.
  induction n as [| n IH]; intros ty c i; cbn; intros (u & Eu & E)%obind_Ok_inv Hi; rewrite Eu; cbn; destruct u; try done;
    try (injection E as <-; exists ty; by replace i with 0 by lia).
  apply obind_Ok_inv in E as (a & -> & (x & Ex & (b & Eb & (y & Ey & [= <-])%obind_Ok_inv)%obind_Ok_inv)%obind_Ok_inv). cbn. rewrite Eb.
  destruct (decide (i < x)) as [Hl | Hg].
  - destruct (IH a x i Ex ltac:(lia)) as [z ->]. by exists z.
  - rewrite (nth_union_past n a x i Ex) by lia. cbn. apply (IH b y); [done | lia].
Qed.

(** No component before it is the same. *)
Lemma find_first n : forall ty c x k f m j y r, union_count H n ty = Ok c -> 0 <= k -> k + c < 2 ^ 32 -> find_union_component H n ty x k = Ok (f, m) ->
  0 <= j -> (f = true -> k + j < m) -> nth_union_component H n ty j = Ok (Some y, r) -> y <> x.
Proof.
  assert (Leaf : forall ty x k f m j y r, (if x =? ty then Ok (true, k) else Ok (false, u32 (k + 1))) = Ok (f, m) -> 0 <= j -> (f = true -> k + j < m) ->
    (if j =? 0 then Ok (Some ty, j) else Ok (None, j - 1)) = Ok (Some y, r) -> y <> x).
  { intros ty x k f m j y r E Hj Hm. destruct (Z.eqb_spec j 0) as [-> |]; [| done]. intros [= <- <-]. destruct (Z.eqb_spec x ty) as [-> | Hne]; [| congruence].
    injection E as <- <-. specialize (Hm eq_refl). lia. }
  induction n as [| n IH]; intros ty c x k f m j y r; cbn; intros (u & Eu & E)%obind_Ok_inv Hk Hc; rewrite Eu; cbn; destruct u; try done; try (by apply Leaf).
  apply obind_Ok_inv in E as (a & -> & (ca & Ea & (b & Eb & (cb & Ecb & [= <-])%obind_Ok_inv)%obind_Ok_inv)%obind_Ok_inv). cbn. rewrite Eb.
  pose proof (union_count_pos H n a ca Ea). pose proof (union_count_pos H n b cb Ecb). cbn.
  intros ([fa ma] & Efa & E)%obind_Ok_inv Hj Hm. pose proof (find_nth n a ca x k fa ma Ea Hk ltac:(lia) Efa) as Ha.
  destruct (decide (j < ca)) as [Hl | Hg].
  - destruct (nth_union_within n a ca j Ea ltac:(lia)) as [z Ez]. rewrite Ez. cbn. intros [= <- <-]. apply (IH a ca x k fa ma j z 0 Ea Hk ltac:(lia) Efa Hj); [| done].
    intros ->. injection E as <- <-. by apply Hm.
  - rewrite (nth_union_past n a ca j Ea) by lia. cbn. destruct fa; [injection E as <- <-; specialize (Hm eq_refl); lia |]. subst ma.
    apply (IH b cb x (k + ca) f m (j - ca) y r Ecb); [lia | lia | done | lia | intros Hf; specialize (Hm Hf); lia].
Qed.

(** A component fits the field. *)
Lemma union_at_component n : forall ty pf nb al nb' al' i x j, union_at H n ty pf nb al = Ok (nb', al') -> nth_union_component H n ty i = Ok (Some x, j) ->
  exists pf' sz a, part_at H x pf' = Ok (sz, a) /\ sz <= nb'.
Proof.
  assert (Mono : forall n ty pf nb al nb' al', union_at H n ty pf nb al = Ok (nb', al') -> nb <= nb').
  { clear n. induction n as [| n IH]; intros ty pf nb al nb' al'; cbn; intros (u & _ & E)%obind_Ok_inv; destruct u; try done;
      try (apply obind_Ok_inv in E as ([sz a] & _ & [= <- <-]); lia).
    apply obind_Ok_inv in E as (a & _ & ([nb1 al1] & E1%IH & (b & _ & E2%IH)%obind_Ok_inv)%obind_Ok_inv). lia. }
  induction n as [| n IH]; intros ty pf nb al nb' al' i x j; cbn; intros (u & Eu & E)%obind_Ok_inv; rewrite Eu; cbn; destruct u; try done;
    try (apply obind_Ok_inv in E as ([sz a] & Ep & [= <- <-]); destruct (i =? 0); [intros [= <- <-] | done]; exists pf, sz, a; split; [done | lia]).
  apply obind_Ok_inv in E as (a & -> & ([nb1 al1] & E1 & (b & Eb & E2)%obind_Ok_inv)%obind_Ok_inv). cbn. rewrite Eb. cbn.
  intros ([r1 i1] & En & E)%obind_Ok_inv. destruct r1 as [t |].
  - injection E as -> ->. destruct (IH a true nb al nb1 al1 i x j E1 En) as (pf' & sz & a' & Ep & Hs). exists pf', sz, a'. split; [done |].
    pose proof (Mono n b true nb1 al1 nb' al' E2). lia.
  - by apply (IH b true nb1 al1 nb' al' i1 x j).
Qed.
End Unions.

Section VcUnion.
Context (H H' : heap) (Hvc : value_change H H') (depth : nat).

Lemma vc_find n : forall ty x k r, find_union_component H n ty x k = Ok r -> find_union_component H' n ty x k = Ok r.
Proof.
  induction n as [| n IH]; intros ty x k r; cbn; intros (u & Eu & E)%obind_Ok_inv; unfold jl_is_uniontype; rewrite (vc_is_tag H H' Hvc _ _ _ Eu); cbn; destruct u; try done.
  apply obind_Ok_inv in E as (a & Ea & ([r1 i1] & E1%IH & E)%obind_Ok_inv).
  rewrite (vc_ptr_field H H' Hvc jl_uniontype_tag _ _ _ ltac:(by apply list_elem_of_In; cbn; auto) Eu Ea). cbn. rewrite E1. cbn. destruct r1; [done |].
  apply obind_Ok_inv in E as (b & Eb & E%IH). by rewrite (vc_ptr_field H H' Hvc jl_uniontype_tag _ _ _ ltac:(by apply list_elem_of_In; cbn; auto) Eu Eb).
Qed.

Lemma vc_field_desc d i fd : field_desc H depth d i = Ok fd -> field_desc H' depth d i = Ok fd.
Proof. intros (ly & El%(vc_layout H H' Hvc) & E)%obind_Ok_inv. unfold field_desc. by rewrite El. Qed.
End VcUnion.

(** ** The bytes of a field *)

(** The bytes an inline value may take, and whether its struct is locked. *)
Definition room (isatomic : bool) (sz : Z) : Z := if isatomic && (sz <=? MAX_ATOMIC_SIZE) then if sz =? 0 then 0 else atomic_width sz else sz.
Definition is_locked (isatomic : bool) (sz : Z) : bool := isatomic && (MAX_ATOMIC_SIZE <? sz).

(** [data'] is [data] with [bs] at [o]; [n] bytes may have changed there, and
    the lock before all fields, which is free afterwards. *)
Record updated (lk : bool) (data data' : list Z) (o n : Z) (bs : list Z) : Prop := {
  up_length : length data' = length data;
  up_bytes : Forall is_byte data';
  up_value : slice data' o (Z.of_nat (length bs)) = bs;
  up_frame : forall o2 n2, 0 <= o2 -> 0 <= n2 -> (lk = true -> sizeof_jl_mutex_t <= o2) -> o2 + n2 <= o \/ o + n <= o2 -> slice data' o2 n2 = slice data o2 n2;
  up_unlocked : lk = true -> unlocked data'
}.

Lemma room_bound isatomic sz : 0 <= sz -> sz <= room isatomic sz.
Proof.
  intros. unfold room, atomic_width, MAX_ATOMIC_SIZE. destruct isatomic; cbn [andb]; [| lia]. destruct (Z.leb_spec sz 16); [| lia]. repeat case_match; lia.
Qed.

Lemma updated_splice data o wb n bs : Forall is_byte data -> Forall is_byte wb -> 0 <= o -> Z.of_nat (length wb) <= n -> o + n <= Z.of_nat (length data) ->
  bs = take (length bs) wb -> updated false data (splice data o wb) o n bs.
Proof.
  intros Hd Hw Ho Hn Hl Hb. assert (Hlb : (length bs <= length wb)%nat) by (apply (f_equal length) in Hb; rewrite length_take in Hb; lia).
  split; [apply length_splice; lia | by apply splice_bytes | | | done].
  - rewrite slice_splice_in by lia. rewrite Z.sub_diag. unfold slice. rewrite Nat2Z.id. by rewrite Hb at 2.
  - intros o2 n2 Ho2 Hn2 _ Hd2. apply slice_splice_other; lia.
Qed.

(** Under the lock. *)
Lemma updated_locked data o bs self : Forall is_byte data -> Forall is_byte bs -> sizeof_jl_mutex_t <= o -> o + Z.of_nat (length bs) <= Z.of_nat (length data) ->
  let data2 := splice (splice data 0 (le_bytes 8 self ++ le_bytes 4 1)) o bs in
  slice data2 0 8 = le_bytes 8 self /\ slice data2 8 4 = le_bytes 4 1 /\ length data2 = length data /\
  updated true data (splice (splice data2 8 (replicate 4 0)) 0 (replicate 8 0)) o (Z.of_nat (length bs)) bs.
Proof.
  intros Hd Hb Ho Hl data2. unfold sizeof_jl_mutex_t in *. set (lk := le_bytes 8 self ++ le_bytes 4 1) in *.
  assert (Hlk : length lk = 12%nat) by (unfold lk; by rewrite length_app, !length_le_bytes).
  assert (Hl1 : length (splice data 0 lk) = length data) by (apply length_splice; lia).
  assert (Hl2 : length data2 = length data) by (unfold data2; rewrite length_splice; lia).
  assert (Hsl : forall a n, 0 <= a -> 0 <= n -> a + n <= 12 -> slice data2 a n = slice lk a n).
  { intros a n Ha Hn Han. unfold data2. rewrite slice_splice_other by lia. rewrite slice_splice_in by lia. f_equal. lia. }
  split; [rewrite Hsl by lia; apply take_le_bytes |]. split.
  { rewrite Hsl by lia. unfold slice, lk. change (Z.to_nat 8) with 8%nat. rewrite drop_le_bytes. rewrite take_ge; [done |]. by rewrite length_le_bytes. }
  split; [done |]. set (d3 := splice data2 8 (replicate 4 0)). assert (Hl3 : length d3 = length data) by (unfold d3; rewrite length_splice; rewrite ?length_replicate; lia).
  assert (Hother : forall o2 n2, 16 <= o2 -> 0 <= n2 -> slice (splice d3 0 (replicate 8 0)) o2 n2 = slice data2 o2 n2).
  { intros o2 n2 Ho2 Hn2. rewrite slice_splice_other by (rewrite ?length_replicate; lia). unfold d3. by rewrite slice_splice_other by (rewrite ?length_replicate; lia). }
  assert (Hz : forall n, Forall is_byte (replicate n 0)) by (intros n; apply Forall_replicate; unfold is_byte; lia).
  split.
  - rewrite length_splice; rewrite ?length_replicate; lia.
  - apply splice_bytes; [apply splice_bytes; [| done] | done]. apply splice_bytes; [apply splice_bytes; [done |] | done].
    apply Forall_app. split; apply le_bytes_bytes.
  - rewrite Hother by lia. unfold data2. rewrite slice_splice_in by lia. rewrite Z.sub_diag. by apply slice_whole.
  - intros o2 n2 Ho2 Hn2 Hlo Hd2. specialize (Hlo eq_refl). unfold sizeof_jl_mutex_t in Hlo. rewrite Hother by lia. unfold data2. rewrite slice_splice_other by lia. apply slice_splice_other; lia.
  - intros _. unfold unlocked. rewrite slice_splice_in by (rewrite ?length_replicate; lia). by apply slice_whole.
Qed.

Section Access.
Context (depth : nat) (alloc : heap -> Z -> ptr) (junk : heap -> Z -> Z) (self : ptr) (B : boxes).
Context (alloc_fresh : forall H sz, objects H !! alloc H sz = None) (alloc_nonnull : forall H sz, alloc H sz <> 0) (Hself : 0 < self < 2 ^ 64).

(** The value [rhs], not [v] itself, of type [rty] with the bytes [bs]. *)
Record inline_value (H : heap) (v rhs rty : ptr) (rd : jl_datatype_t) (rl : jl_datatype_layout_t) (bs : list Z) : Prop := {
  in_type : jl_typeof H rhs = Ok rty;
  in_vt : value_type alloc junk B H rty rd rl;
  in_data : exists hr data, has_data H rhs hr data /\ Forall is_byte data /\ LLT_ALIGN (size rl) 8 <= Z.of_nat (length data) /\ bs = slice data 0 (size rl);
  in_other : rhs <> v;
  in_bool : forall t, smalltag rd = Some t -> bool_bits t bs;
  (** Its first reference was set. *)
  in_defined : undefref_check H rd (rhs, 0) = Ok false
}.

Lemma write_inline_spec H v hv data o ty rty rhs rd rl bs hasptr isatomic : inline_value H v rhs rty rd rl bs -> has_data H v hv data -> Forall is_byte data ->
  type_header hv = false -> 0 <= o -> o + room isatomic (size rl) <= Z.of_nat (length data) -> (isatomic = true -> rty = ty) ->
  (is_locked isatomic (size rl) = true -> sizeof_jl_mutex_t <= o /\ unlocked data) ->
  exists H' data', write_inline depth self v o ty rty rhs hasptr isatomic H = Ok (Ret tt, H') /\ wrote H H' v hv data' /\
    updated (is_locked isatomic (size rl)) data data' o (room isatomic (size rl)) bs.
Proof.
  intros [Ht Hvt (hr & rdata & Hr & Hrb & Hrl & ->) Hne _ _] Hd Hb Hth Ho Hroom Hat Hlk. pose proof (vt_size _ _ _ _ _ _ _ Hvt) as Hs.
  pose proof (word_align (size rl) Hs) as [Ha _]. unfold write_inline. rewrite (bind_reads_Ok _ _ H (size rl)) by (by apply (value_size depth alloc junk B H rty rd)).
  assert (isatomic && negb (rty =? ty) = false) as -> by (destruct isatomic; [rewrite Hat, Z.eqb_refl |]; done).
  assert (Hsl : length (slice rdata 0 (size rl)) = Z.to_nat (size rl)) by (apply length_slice; lia).
  assert (Hsb : Forall is_byte (slice rdata 0 (size rl))) by (by apply slice_bytes).
  fold (is_locked isatomic (size rl)). unfold room, is_locked in *. destruct isatomic; cbn [andb negb] in *; [destruct (Z.ltb_spec MAX_ATOMIC_SIZE (size rl)) as [Hbig | Hsm]; cbn [negb] |].
  - destruct (Hlk eq_refl) as [Ho16 Hu]. destruct (Z.leb_spec (size rl) MAX_ATOMIC_SIZE); [lia |]. unfold jl_lock_value, jl_unlock_value, sizeof_jl_mutex_t in *.
    destruct (lock_spec self Hself H v hv data Hd) as (H1 & E1 & W1); [lia | done |]. rewrite (bind_Ret _ _ _ _ _ E1).
    assert (Hlk12 : length (le_bytes 8 self ++ le_bytes 4 1) = 12%nat) by (by rewrite length_app, !length_le_bytes).
    destruct (memcpy_spec rhs hr rdata H1 v hv _ o 0 (size rl) (wrote_keeps _ _ _ _ _ _ _ _ W1 Hne Hr) (wr_data _ _ _ _ _ W1)) as (H2 & E2 & W2);
      [lia | lia | lia | lia | rewrite length_splice; lia |]. rewrite (bind_Ret _ _ _ _ _ E2).
    destruct (updated_locked data o (slice rdata 0 (size rl)) self Hb Hsb) as (S1 & S2 & Hl2 & U); [unfold sizeof_jl_mutex_t; lia | lia |].
    destruct (unlock_spec self Hself H2 v hv _ (wr_data _ _ _ _ _ W2)) as (H3 & E3 & W3); [lia | done | done |].
    eexists H3, _. split; [exact E3 |]. split; [eapply wrote_trans; [eapply wrote_trans; [exact W1 | exact W2] | exact W3] |].
    rewrite Hsl in U. by rewrite Z2Nat.id in U by lia.
  - destruct (Z.leb_spec (size rl) MAX_ATOMIC_SIZE); [| lia]. unfold MAX_ATOMIC_SIZE in *. rewrite (atomic_store_spec H (v, o) rhs hr rdata (size rl)) by (done || lia).
    destruct (Z.eqb_spec (size rl) 0) as [E0 | E0].
    + eexists H, data. split; [done |]. split; [by apply wrote_refl |]. rewrite E0. split; [done | done | done | done | done].
    + set (wb := slice rdata 0 (size rl) ++ replicate (Z.to_nat (atomic_width (size rl) - size rl)) 0).
      assert (Haw : size rl <= atomic_width (size rl)) by (unfold atomic_width; repeat case_match; lia).
      assert (Hlw : Z.of_nat (length wb) = atomic_width (size rl)) by (unfold wb; rewrite length_app, length_replicate, Hsl; lia).
      destruct (store_wrote H v hv data o wb Hd) as (H1 & E1 & W1); [lia | lia |]. exists H1, (splice data o wb). split; [unfold writes; by rewrite E1 |].
      split; [done |]. apply updated_splice; [done | | lia | lia | lia | unfold wb; by rewrite take_app_length].
      apply Forall_app. split; [done |]. apply Forall_replicate. unfold is_byte. lia.
  - destruct (memassign_spec depth H hasptr rhs hr rdata v hv data o (size rl) rty) as (H1 & E1 & W1);
      [done | done | done | done | done | done | by apply (value_size depth alloc junk B H rty rd) | lia | lia | lia |].
    exists H1, (splice data o (slice rdata 0 (size rl))). split; [done |]. split; [done |]. apply updated_splice; [done | done | lia | lia | lia | by rewrite take_ge].
Qed.

(** The first reference of the bytes was set. *)
Definition defined_bits (ly : jl_datatype_layout_t) (bs : list Z) : Prop := 0 <= first_ptr ly -> le_word (slice bs (8 * first_ptr ly) 8) <> 0.

Lemma inline_value_defined H v rhs rty rd rl bs : inline_value H v rhs rty rd rl bs -> defined_bits rl bs.
Proof.
  intros [Ht Hvt (hr & rdata & Hr & _ & Hrl & ->) _ _ Hu] Hf. unfold undefref_check in Hu. rewrite (value_the_layout _ _ _ _ _ _ _ Hvt) in Hu. cbn [obind] in Hu.
  rewrite (proj2 (Z.leb_le _ _) Hf) in Hu. pose proof (vt_first _ _ _ _ _ _ _ Hvt Hf). pose proof (word_align _ (vt_size _ _ _ _ _ _ _ Hvt)) as [? _].
  unfold load_ptr, shift in Hu. cbn [fst snd] in Hu. rewrite (load_uint_data H rhs hr rdata) in Hu by (done || lia). injection Hu as Hu%Z.eqb_neq.
  rewrite slice_slice by lia. exact Hu.
Qed.

Lemma checked_value H q d ly r bs : value_type alloc junk B H q d ly -> is_value H r q bs -> Z.of_nat (length bs) = size ly -> defined_bits ly bs ->
  checked d r H = Ok (Ret r, H).
Proof.
  intros Hvt [Hr Ht Hd] Hl Hdef. unfold checked. rewrite (bind_reads_Ok _ _ H false); [done |]. unfold undefref_check. rewrite (value_the_layout _ _ _ _ _ _ _ Hvt). cbn [obind].
  destruct (Z.leb_spec 0 (first_ptr ly)) as [Hf |]; [| done]. pose proof (vt_first _ _ _ _ _ _ _ Hvt Hf). unfold load_ptr, load_uint.
  rewrite (load_bytes_sub H (r, 0) _ bs (8 * first_ptr ly) 8 Hd) by lia. cbn [obind]. destruct (Z.eqb_spec (le_word (slice bs (8 * first_ptr ly) 8)) 0) as [E |]; [by apply Hdef in E |].
  unfold slice in *. destruct (Z.eqb_spec (le_word (take (Z.to_nat 8) (drop (Z.to_nat (8 * first_ptr ly)) bs))) 0); done.
Qed.

Lemma alloc_large H q d ly : value_type alloc junk B H q d ly -> MAX_ATOMIC_SIZE < size ly ->
  exists v H1 data, jl_gc_alloc alloc junk (size ly) q H = Ok (Ret v, H1) /\ v <> 0 /\ objects H !! v = None /\ grows H H1 /\
    has_data H1 v (header_of q d) data /\ size ly <= Z.of_nat (length data) /\ (forall p, p <> v -> objects H1 !! p = objects H !! p).
Proof.
  intros Hvt Hl. destruct (alloc_tagged_spec alloc junk alloc_fresh alloc_nonnull H q d (size ly) (vt_datatype _ _ _ _ _ _ _ Hvt) (vt_size _ _ _ _ _ _ _ Hvt)) as (v & H1 & data & E & Hv0 & Hf & Hg & Hd & Hlen & _ & Ho).
  exists v, H1, data. pose proof (word_align _ (vt_size _ _ _ _ _ _ _ Hvt)) as [? _]. split; [| repeat (split; [done || lia |]); done].
  unfold alloc_tagged in E. apply bind_Ret_inv in E as (v' & H1' & E1 & E2). rewrite E1. apply bind_Ret_inv in E2 as (d' & H2 & Ed & E2).
  unfold datatype in Ed. apply reads_inv in Ed as (d2 & Ed & [= ->] & ->).
  assert (get_datatype H1' q = Ok d) as Ed2.
  { injection E1 as <- <-. apply (vc_datatype H); [| apply Hvt]. apply grows_change, grows_new, alloc_fresh. }
  rewrite Ed in Ed2. injection Ed2 as ->. rewrite (vt_large _ _ _ _ _ _ _ Hvt Hl) in E2. cbn [Z.eqb negb] in E2. rewrite bind_ret in E2. by injection E2 as -> ->.
Qed.

(** Copying a value out under the lock. *)
Lemma read_locked H v hv data o q d ly : value_type alloc junk B H q d ly -> has_data H v hv data -> Forall is_byte data -> type_header hv = false ->
  sizeof_jl_mutex_t <= o -> o + size ly <= Z.of_nat (length data) -> MAX_ATOMIC_SIZE < size ly -> unlocked data ->
  exists r H', (let* r := jl_gc_alloc alloc junk (size ly) q in
      jl_lock_value self v ;; memcpy (r, 0) (v, o) (size ly) ;; jl_unlock_value self v ;; ret r) H = Ok (Ret r, H') /\
    is_value H' r q (slice data o (size ly)) /\ value_change H H'.
Proof.
  intros Hvt Hd Hb Hth Ho Hl Hbig Hu. unfold sizeof_jl_mutex_t, MAX_ATOMIC_SIZE in *.
  destruct (alloc_large H q d ly Hvt) as (r & H1 & rdata & E1 & Hr0 & Hf & Hg & Hrd & Hrl & Ho1); [done |]. rewrite (bind_Ret _ _ _ _ _ E1).
  pose proof (grows_data _ _ _ _ _ Hg Hd) as Hd1. assert (Hne : v <> r) by (intros ->; destruct Hd as [? ?]; congruence).
  destruct (lock_spec self Hself H1 v hv data Hd1) as (H2 & E2 & W2); [lia | done |]. unfold jl_lock_value, jl_unlock_value. rewrite (bind_Ret _ _ _ _ _ E2).
  assert (Hlk12 : length (le_bytes 8 self ++ le_bytes 4 1) = 12%nat) by (by rewrite length_app, !length_le_bytes). set (lk := le_bytes 8 self ++ le_bytes 4 1) in *.
  pose proof (wrote_keeps _ _ _ _ _ r _ _ W2 (not_eq_sym Hne) Hrd) as Hrd2. assert (Hl1 : length (splice data 0 lk) = length data) by (apply length_splice; lia).
  destruct (memcpy_spec v hv _ H2 r (header_of q d) rdata 0 o (size ly) (wr_data _ _ _ _ _ W2) Hrd2) as (H3 & E3 & W3); [lia | lia | lia | lia | lia |].
  rewrite (bind_Ret _ _ _ _ _ E3). rewrite slice_splice_other in W3 by lia.
  pose proof (wrote_keeps _ _ _ _ _ v _ _ W3 Hne (wr_data _ _ _ _ _ W2)) as Hd3.
  destruct (unlock_spec self Hself H3 v hv _ Hd3) as (H4 & E4 & W4); [lia | | |].
  { rewrite slice_splice_in by lia. unfold lk. apply take_le_bytes. }
  { rewrite slice_splice_in by lia. unfold slice, lk. change (Z.to_nat (8 - 0)) with 8%nat. rewrite drop_le_bytes, take_ge; [done | by rewrite length_le_bytes]. }
  rewrite (bind_Ret _ _ _ _ _ E4). exists r, H4. split; [done |].
  assert (V1 : value_change H H1) by (by apply grows_change). assert (V2 : value_change H1 H2) by (by eapply wrote_change).
  assert (V3 : value_change H2 H3) by (eapply wrote_change; [exact Hrd2 | apply Hvt | exact W3]). assert (V4 : value_change H3 H4) by (eapply wrote_change; [exact Hd3 | done | exact W4]).
  assert (V : value_change H H4) by (do 3 (etrans; [eassumption |]); done). split; [| done].
  pose proof (wrote_keeps _ _ _ _ _ r _ _ W4 (not_eq_sym Hne) (wr_data _ _ _ _ _ W3)) as Hrd4.
  apply (has_data_value H4 r (header_of q d) _ q _ Hr0 Hrd4).
  - unfold jl_to_typeof. rewrite (vc_global H H4 V small_typeof) by done. apply Hvt.
  - unfold splice. change (take (Z.to_nat 0) rdata) with (@nil Z). cbn [app]. by rewrite take_app_length.
Qed.

(** Reading an inline value. *)
Lemma read_inline_spec H v hv data o q d ly bs isatomic : boxes_ok B H -> value_type alloc junk B H q d ly -> has_data H v hv data -> Forall is_byte data ->
  type_header hv = false -> 0 <= o -> o + room isatomic (size ly) <= Z.of_nat (length data) -> slice data o (size ly) = bs ->
  (forall t, smalltag d = Some t -> bool_bits t bs) -> defined_bits ly bs -> (is_locked isatomic (size ly) = true -> sizeof_jl_mutex_t <= o /\ unlocked data) ->
  exists r H', read_inline depth alloc junk self B v o isatomic q H = Ok (Ret r, H') /\ is_value H' r q bs /\ value_change H H'.
Proof.
  intros HB Hvt Hd Hb Hth Ho Hroom <- Hbool Hdef Hlk. pose proof (vt_size _ _ _ _ _ _ _ Hvt) as Hs. pose proof (room_bound isatomic (size ly) ltac:(lia)) as Hrb.
  unfold read_inline. rewrite (bind_reads_Ok _ _ H (size ly)) by (by apply (value_size depth alloc junk B H q d)).
  assert (HL : load_bytes H (v, o) (size ly) = Ok (slice data o (size ly))) by (apply (load_bytes_data H v hv); (done || lia)).
  assert (Hbs : Forall is_byte (slice data o (size ly))) by (by apply slice_bytes).
  assert (Hlen : Z.of_nat (length (slice data o (size ly))) = size ly) by (rewrite length_slice; lia).
  assert (Hend : forall m, (exists r H', m H = Ok (Ret r, H') /\ is_value H' r q (slice data o (size ly)) /\ value_change H H') ->
    exists r H', (let* r := m in let* d := datatype q in checked d r) H = Ok (Ret r, H') /\ is_value H' r q (slice data o (size ly)) /\ value_change H H').
  { intros m (r & H' & E & Hv & Hvc). exists r, H'. split; [| done]. rewrite (bind_Ret _ _ _ _ _ E). rewrite (datatype_Ok q d) by (apply (vc_datatype H H' Hvc), Hvt).
    destruct (Z.eq_dec (size ly) 0) as [E0 |].
    - unfold checked. rewrite (bind_reads_Ok _ _ H' false); [done |]. unfold undefref_check. rewrite (value_the_layout _ _ _ _ _ _ _ Hvt). cbn [obind].
      destruct (Z.leb_spec 0 (first_ptr ly)) as [Hf |]; [| done]. pose proof (vt_first _ _ _ _ _ _ _ Hvt Hf). lia.
    - apply (checked_value H' q d ly r (slice data o (size ly))); [| done | done | done]. by apply (value_type_change alloc junk B H). }
  apply Hend. assert (Hm : forall m, makes H m q (slice data o (size ly)) -> exists r H', m H = Ok (Ret r, H') /\ is_value H' r q (slice data o (size ly)) /\ value_change H H').
  { intros m (r & H' & E & Hg & Hv). exists r, H'. split; [done |]. split; [done | by apply grows_change]. }
  unfold room, is_locked in *. destruct isatomic; cbn [andb negb] in *; [| apply Hm; by apply (jl_new_bits_makes depth alloc junk B alloc_fresh alloc_nonnull H q d ly)].
  destruct (Z.ltb_spec MAX_ATOMIC_SIZE (size ly)) as [Hbig | Hsm]; cbn [negb].
  - destruct (Hlk eq_refl) as [Ho16 Hu]. by apply (read_locked H v hv data o q d ly); try lia.
  - apply Hm. destruct (Z.leb_spec (size ly) MAX_ATOMIC_SIZE); [| lia]. unfold MAX_ATOMIC_SIZE in *.
    apply (jl_atomic_new_bits_makes depth alloc junk B alloc_fresh alloc_nonnull H q d ly (v, o) _ (slice data o (atomic_width (size ly)))); try done. intros Hn0.
    rewrite (proj2 (Z.eqb_neq _ _) Hn0) in *. assert (Haw : 0 < atomic_width (size ly)) by (unfold atomic_width; repeat case_match; lia).
    split; [apply (load_bytes_data H v hv); (done || lia) |]. split; [by apply slice_bytes |].
    unfold slice. rewrite take_take. f_equal. lia.
Qed.

(** ** The fields of a struct *)

(** [v] is a struct of type [st], laid out for its fields. *)
Record struct_at (H : heap) (v st : ptr) (d : jl_datatype_t) (ly : jl_datatype_layout_t) (h : Z) (data : list Z) : Prop := {
  sa_type : jl_typeof H v = Ok st;
  sa_datatype : get_datatype H st = Ok d;
  sa_layout : jl_datatype_layout H depth d = Ok ly;
  sa_struct : struct_ok depth H d ly;
  sa_inline : inline_wf H;
  sa_data : has_data H v h data;
  sa_size : size ly <= Z.of_nat (length data);
  sa_bytes : Forall is_byte data;
  sa_header : type_header h = false
}.

(** What the layout says of the field number [k]. *)
Record field_view (H : heap) (d : jl_datatype_t) (ly : jl_datatype_layout_t) (k : Z) (fd : jl_fielddesc32_t) (fld : ptr) (i : field_info) : Prop := {
  fv_desc : field_desc H depth d k = Ok fd;
  fv_type : jl_field_type_concrete H d k = Ok fld;
  fv_atomic : jl_field_isatomic H d k = Ok (fi_isatomic i);
  fv_isptr : fd_isptr fd = slot_isptr i;
  fv_size : fd_size fd = slot_size i;
  fv_range : 0 <= fd_offset fd /\ fd_offset fd + fd_size fd <= size ly;
  fv_slot : slot_isptr i = true \/ inline_at depth H fld = Ok (fi_slot i);
  fv_union : fi_isatomic i = true -> slot_isptr i = true \/ jl_is_uniontype H fld = Ok false;
  fv_lock : slot_lock i = true -> sizeof_jl_mutex_t <= fd_offset fd;
  fv_others : forall j fdj, Z.of_nat j <> k -> fields ly !! j = Some fdj -> 0 <= fd_offset fdj /\ 0 <= fd_size fdj /\
    (slot_lock i = true -> sizeof_jl_mutex_t <= fd_offset fdj) /\ (fd_offset fdj + fd_size fdj <= fd_offset fd \/ fd_offset fd + fd_size fd <= fd_offset fdj)
}.

Lemma infos_wf H d nm ty nf flds : forall k fs, inline_wf H -> infos_for depth H d nm ty nf k flds fs -> wf_fields fs.
Proof.
  induction flds as [| fld flds IH]; intros k [| i fs] HI; cbn; try done. intros [(_ & Hs & _) Hi]. constructor; [| by eapply IH].
  destruct Hs as [Hs | Hs]; [| by eapply inline_at_wf]. unfold slot_isptr in Hs. by destruct (fi_slot i).
Qed.

(** A large atomic field needs a lock. *)
Lemma big_atomic_lock i : wf_slot (fi_slot i) -> fi_isatomic i = true -> MAX_ATOMIC_SIZE < slot_size i -> slot_lock i = true.
Proof.
  intros Hwf Ha Hbig. unfold slot_lock, slot_size, small_atomic in *. rewrite Ha in *. cbn [andb] in *. apply Z.ltb_lt.
  destruct (Z.leb_spec (slot_req i).1 MAX_ATOMIC_SIZE); [| lia]. unfold MAX_ATOMIC_SIZE in *. destruct (Z.eqb_spec (slot_req i).1 0); [lia |].
  pose proof (slot_req_nonneg i Hwf) as [? _]. pose proof (npo2_small (slot_req i).1). unfold MAX_ATOMIC_SIZE in *. lia.
Qed.

(** The fields of a type that was laid out for them; [lk] says whether there
    is a lock before them. *)
Lemma struct_fields H d ly : jl_datatype_layout H depth d = Ok ly -> struct_ok depth H d ly -> inline_wf H ->
  exists lk, forall k, 0 <= k < nfields ly -> exists fd fld i, field_view H d ly k fd fld i /\ fields ly !! Z.to_nat k = Some fd /\ 0 <= fd_size fd /\
    (lk = true -> sizeof_jl_mutex_t <= fd_offset fd) /\ (fi_isatomic i = true -> MAX_ATOMIC_SIZE < fd_size fd -> lk = true).
Proof.
  intros Hly (nm & flds & ty & fs & En & Ef & Eh & Hi & Hs) HI. pose proof (infos_for_length _ _ _ _ _ _ _ _ _ Hi) as Hlen.
  destruct (ls_nfields _ _ Hs) as [Hn Hlf]. pose proof (infos_wf _ _ _ _ _ _ _ _ HI Hi) as Hwf. destruct (lock_size_spec fs Hwf) as [Hl0 _]. rewrite Forall_forall in Hwf.
  assert (Hlk : existsb slot_lock fs = true -> sizeof_jl_mutex_t <= lock_size fs).
  { intros E. unfold lock_size. rewrite E. destruct (max_align_fs fs) as [_ Hm]; [by apply Forall_forall |].
    pose proof (align_up_spec sizeof_jl_mutex_t (max_align fs 1) ltac:(lia)). lia. }
  exists (existsb slot_lock fs). intros k Hk.
  destruct (lookup_lt_is_Some_2 fs (Z.to_nat k) ltac:(lia)) as [i Ei]. destruct (lookup_lt_is_Some_2 flds (Z.to_nat k) ltac:(lia)) as [fld Efld].
  destruct (lookup_lt_is_Some_2 (fields ly) (Z.to_nat k) ltac:(lia)) as [fd Efd]. destruct (ls_field _ _ Hs _ _ _ Ei Efd) as (H1 & H2 & H3 & H4 & H5).
  pose proof (infos_for_lookup depth H d nm ty _ flds 0 fs _ fld i Hi Efld Ei) as (Ha & Hst & _ & _ & Hu). rewrite Z.add_0_l, Z2Nat.id in Ha by lia.
  assert (Hex : slot_lock i = true -> existsb slot_lock fs = true).
  { intros E. apply existsb_exists. exists i. split; [| done]. apply list_elem_of_In. by eapply list_elem_of_lookup_2. }
  assert (Hszw : forall j ij, fs !! j = Some ij -> 0 <= slot_size ij).
  { intros j ij Ej. apply (slot_size_spec ij (Hwf ij ltac:(by eapply list_elem_of_lookup_2))). }
  exists fd, fld, i. split; [split; try done; [| | lia | |] | split; [done |]; split; [rewrite H2; by eapply Hszw |]; split; [intros E; specialize (Hlk E); lia |]].
  - unfold field_desc. rewrite Hly. cbn [obind]. rewrite (proj2 (Z.leb_le 0 k)), (proj2 (Z.ltb_lt k _)) by lia.
    rewrite bool_decide_eq_false_2 by apply (ls_fielddesc _ _ Hs). cbn [andb negb]. apply rd_lookup. split; [lia | done].
  - unfold jl_field_type_concrete. rewrite Ef. cbn [obind]. apply rd_lookup. split; [lia | done].
  - intros E%Hex%Hlk. lia.
  - intros j fdj Hj Ej. destruct (lookup_lt_is_Some_2 fs j) as [ij Eij]; [apply lookup_lt_Some in Ej; lia |].
    destruct (ls_field _ _ Hs _ _ _ Eij Ej) as (_ & G2 & _ & G4 & _). pose proof (Hszw j ij Eij). split; [lia |]. split; [lia |].
    split; [intros E%Hex%Hlk; lia |]. destruct (decide (j < Z.to_nat k)%nat) as [Hlt | Hge].
    + left. by apply (ls_disjoint _ _ Hs j (Z.to_nat k)).
    + right. apply (ls_disjoint _ _ Hs (Z.to_nat k) j); [lia | done | done].
  - intros E Hbig. apply Hex, big_atomic_lock; [by eapply Hwf, list_elem_of_lookup_2 | done | lia].
Qed.

Lemma struct_field H v st d ly h data k : struct_at H v st d ly h data -> 0 <= k < nfields ly -> exists fd fld i, field_view H d ly k fd fld i /\ fields ly !! Z.to_nat k = Some fd.
Proof.
  intros Hsa Hk. destruct (struct_fields H d ly) as [lk Hf]; [apply Hsa | apply Hsa | apply Hsa |]. destruct (Hf k Hk) as (fd & fld & i & ? & ? & _). by exists fd, fld, i.
Qed.

(** The value [rhs] can be stored in the field; if it is stored inline, its
    type and bytes. *)
Inductive field_value (H : heap) (v : ptr) (fd : jl_fielddesc32_t) (fld : ptr) (isatomic : bool) (rhs : ptr) : option (ptr * list Z) -> Prop :=
| value_ptr : fd_isptr fd = true -> 0 < rhs < 2 ^ 64 -> field_value H v fd fld isatomic rhs None
| value_inline q rd rl bs : fd_isptr fd = false -> jl_is_uniontype H fld = Ok false -> normalize_typeofbottom_layout_alias H fld = Ok q ->
    inline_value H v rhs q rd rl bs -> (isatomic = true -> q = fld) -> rhs <> 0 -> field_value H v fd fld isatomic rhs (Some (q, bs))
| value_union rty rd rl bs nth c : fd_isptr fd = false -> jl_is_uniontype H fld = Ok true -> union_count H depth fld = Ok c -> c < 127 ->
    jl_find_union_component H depth fld rty = Ok (true, nth) -> inline_value H v rhs rty rd rl bs -> rhs <> 0 -> field_value H v fd fld isatomic rhs (Some (rty, bs)).

(** [r] is that value. *)
Definition reads_as (H : heap) (r rhs : ptr) (w : option (ptr * list Z)) : Prop :=
  match w with None => r = rhs | Some (ty, bs) => is_value H r ty bs end.

Lemma vt_part H p pf sz al d ly : inline_wf H -> part_at H p pf = Ok (sz, al) -> normalize_typeofbottom_layout_alias H p = Ok p -> value_type alloc junk B H p d ly -> size ly <= sz.
Proof.
  intros HI (q & Eq & (d' & Ed & (nm & En & (ly' & El%the_layout_Some & E)%obind_Ok_inv)%obind_Ok_inv)%obind_Ok_inv)%obind_Ok_inv Enorm Hvt.
  rewrite Enorm in Eq. injection Eq as <-. rewrite (vt_datatype _ _ _ _ _ _ _ Hvt) in Ed. injection Ed as <-. rewrite (vt_layout _ _ _ _ _ _ _ Hvt) in El. injection El as <-.
  destruct (tn_mayinlinealloc nm) eqn:Em; [| done]. destruct (HI p d ly nm (vt_datatype _ _ _ _ _ _ _ Hvt) (vt_layout _ _ _ _ _ _ _ Hvt) En Em) as [[Hp Ha] Hs _ _ _ _ Ho]. rewrite Ho in E. cbn in E.
  destruct (pf && (0 <? npointers ly)); [done |]. injection E as <- <-. destruct (dt_isprimitivetype d); [| lia].
  pose proof (pow2_pos _ Hp). rewrite LLT_ALIGN_align_up by (done || lia). pose proof (align_up_spec (size ly) (alignment ly)). lia.
Qed.

Lemma normalize_is_datatype H q : jl_is_datatype H q = Ok true -> normalize_typeofbottom_layout_alias H q = Ok q.
Proof.
  intros Hd. unfold normalize_typeofbottom_layout_alias. destruct (_ =? 0); [done |]. unfold jl_is_typeeq. by rewrite (is_tag_excl H _ jl_typeeq_tag q Hd).
Qed.

(** The inline value fits the field. *)
Lemma inline_room H d ly k fd fld i q rd rl : field_view H d ly k fd fld i -> inline_wf H -> fd_isptr fd = false -> jl_is_uniontype H fld = Ok false ->
  normalize_typeofbottom_layout_alias H fld = Ok q -> value_type alloc junk B H q rd rl ->
  room (fi_isatomic i) (size rl) <= fd_size fd /\ (is_locked (fi_isatomic i) (size rl) = true -> slot_lock i = true /\ MAX_ATOMIC_SIZE < fd_size fd).
Proof.
  intros Hfv HI Hp Hu Hq Hvt. rewrite (fv_isptr _ _ _ _ _ _ _ Hfv) in Hp. destruct (fv_slot _ _ _ _ _ _ _ Hfv) as [? | Hin]; [congruence |].
  pose proof (inline_at_wf depth H fld (fi_slot i) HI Hin) as Hwf. apply obind_Ok_inv in Hin as ([fsz al] & _ & (u & Eu & E)%obind_Ok_inv). rewrite Hu in Eu. injection Eu as <-.
  rewrite Hq in E. cbn [obind] in E. rewrite (vt_isd _ _ _ _ _ _ _ Hvt) in E. cbn [obind] in E. rewrite (vt_datatype _ _ _ _ _ _ _ Hvt) in E. cbn [obind] in E.
  rewrite (value_the_layout _ _ _ _ _ _ _ Hvt) in E. cbn [obind] in E. injection E as E. rewrite <- E in Hwf. cbn [wf_slot] in Hwf. destruct Hwf as [Hds _].
  rewrite (fv_size _ _ _ _ _ _ _ Hfv). unfold slot_size, slot_lock, small_atomic, slot_req, room, is_locked. rewrite <- E. cbn [fst].
  destruct (fi_isatomic i); cbn [andb]; [| split; [lia | done]]. unfold MAX_ATOMIC_SIZE.
  destruct (Z.leb_spec (size rl) 16), (Z.ltb_spec 16 (size rl)), (Z.leb_spec fsz 16), (Z.ltb_spec 16 fsz); try lia; (split; [| try done]); try lia.
  - destruct (Z.eqb_spec (size rl) 0), (Z.eqb_spec fsz 0); try lia; [pose proof (npo2_small fsz); unfold MAX_ATOMIC_SIZE in *; lia |].
    destruct (npo2_small fsz ltac:(unfold MAX_ATOMIC_SIZE; lia)) as [(m & Hm & Em) Hr]. unfold atomic_width. rewrite Em in *.
    assert (m = 0 \/ m = 1 \/ m = 2 \/ m = 3 \/ 4 <= m) as Hc by lia. repeat case_match; destruct Hc as [-> | [-> | [-> | [-> | Hm4]]]]; try lia;
      pose proof (Z.pow_le_mono_r 2 4 m ltac:(lia) Hm4); lia.
  - destruct (Z.eqb_spec (size rl) 0); [lia |]. unfold atomic_width. repeat case_match; lia.
Qed.

(** An object with the memory [data]. *)
Record holder (H : heap) (v h : Z) (data : list Z) : Prop := {
  ho_data : has_data H v h data;
  ho_bytes : Forall is_byte data;
  ho_header : type_header h = false
}.

(** What finding the field takes; changes of values keep it. *)
Record access (H : heap) (v st : ptr) (d : jl_datatype_t) (k : Z) (fd : jl_fielddesc32_t) (fld : ptr) (isatomic : bool) : Prop := {
  ac_type : jl_typeof H v = Ok st;
  ac_datatype : get_datatype H st = Ok d;
  ac_index : exists n, jl_datatype_nfields H depth d = Ok n /\ k < n;
  ac_desc : field_desc H depth d k = Ok fd;
  ac_field : jl_field_type_concrete H d k = Ok fld;
  ac_atomic : jl_field_isatomic H d k = Ok isatomic
}.

Lemma access_change H H' v st d k fd fld isatomic : value_change H H' -> access H v st d k fd fld isatomic -> access H' v st d k fd fld isatomic.
Proof.
  intros Hvc [Ht Hd (n & (ly & El%(vc_layout H H' Hvc) & En)%obind_Ok_inv & Hk) Hf Hty Ha].
  split; [by apply (vc_typeof H H') | by apply (vc_datatype H H') | | by apply (vc_field_desc H H') | by apply (vc_field_type H H') | by apply (vc_isatomic H H')].
  exists n. unfold jl_datatype_nfields. by rewrite El.
Qed.

Lemma struct_access H v st d ly h data k fd fld i : struct_at H v st d ly h data -> 0 <= k < nfields ly -> field_view H d ly k fd fld i ->
  access H v st d k fd fld (fi_isatomic i).
Proof.
  intros Hsa Hk Hfv. split; [apply Hsa | apply Hsa | | apply Hfv | apply Hfv | apply Hfv]. exists (nfields ly). split; [| lia].
  unfold jl_datatype_nfields. by rewrite (sa_layout _ _ _ _ _ _ _ Hsa).
Qed.

(** Reading the descriptor. *)
Lemma offset_Ok H d k fd : field_desc H depth d k = Ok fd -> jl_field_offset H depth d k = Ok (fd_offset fd).
Proof. intros E. unfold jl_field_offset. by rewrite E. Qed.
Lemma isptr_Ok H d k fd : field_desc H depth d k = Ok fd -> jl_field_isptr H depth d k = Ok (fd_isptr fd).
Proof. intros E. unfold jl_field_isptr. by rewrite E. Qed.
Lemma size_Ok H d k fd : field_desc H depth d k = Ok fd -> jl_field_size H depth d k = Ok (fd_size fd).
Proof. intros E. unfold jl_field_size. by rewrite E. Qed.

Lemma singleton_test H q d ly : value_type alloc junk B H q d ly -> exists b, jl_is_datatype_singleton d = Ok b /\ (b = true -> size ly = 0).
Proof.
  intros Hvt. unfold jl_is_datatype_singleton. destruct (dt_instance d =? 0); [by exists false |]. rewrite (value_the_layout _ _ _ _ _ _ _ Hvt). cbn.
  eexists. split; [done |]. intros [E%Z.eqb_eq _]%andb_prop. done.
Qed.

Lemma inline_value_wrote H H1 v h data data1 rhs rty rd rl bs : has_data H v h data -> type_header h = false -> wrote H H1 v h data1 ->
  inline_value H v rhs rty rd rl bs -> inline_value H1 v rhs rty rd rl bs.
Proof.
  intros Hd Hth W [Ht Hvt (hr & rdata & Hr & Hrb & Hrl & Ebs) Hne Hbool Hdef]. pose proof (wrote_change _ _ _ _ _ _ Hd Hth W) as V.
  split; try done; [by apply (vc_typeof H H1) | by apply (value_type_change alloc junk B H) | |].
  - exists hr, rdata. split; [by apply (wrote_keeps _ _ _ _ _ _ _ _ W Hne) | done].
  - unfold undefref_check, load_ptr, load_uint, load_bytes, data_at, deref, shift in *. cbn [fst snd] in *. by rewrite (wr_other _ _ _ _ _ W rhs Hne).
Qed.

(** *** Storing *)

Lemma set_ptr H v st d h data k fd fld i rhs isat : holder H v h data -> access H v st d k fd fld i -> fd_isptr fd = true -> 0 < rhs < 2 ^ 64 ->
  0 <= fd_offset fd -> fd_offset fd + 8 <= Z.of_nat (length data) ->
  exists H1 data1, set_nth_field depth self st v k rhs isat H = Ok (Ret tt, H1) /\ wrote H H1 v h data1 /\ updated false data data1 (fd_offset fd) 8 (le_bytes 8 rhs).
Proof.
  intros Hsa Hac Hp Hr Ho Hl. unfold set_nth_field. rewrite (datatype_Ok st d) by apply Hac. rewrite (bind_reads_Ok _ _ H _ (offset_Ok H d k fd (ac_desc _ _ _ _ _ _ _ _ Hac))).
  rewrite (bind_reads_Ok _ _ H _ (isptr_Ok H d k fd (ac_desc _ _ _ _ _ _ _ _ Hac))). destruct (Z.eqb_spec rhs 0); [lia |]. rewrite Hp.
  destruct (store_wrote H v h data (fd_offset fd) (le_bytes 8 rhs) (ho_data _ _ _ _ Hsa) Ho) as (H1 & E1 & W1); [rewrite length_le_bytes; lia |].
  exists H1, (splice data (fd_offset fd) (le_bytes 8 rhs)). split; [unfold store, writes; change (Z.to_nat 8) with 8%nat; by rewrite E1 |]. split; [done |].
  apply updated_splice; [apply Hsa | apply le_bytes_bytes | lia | rewrite length_le_bytes; lia | lia | by rewrite take_ge].
Qed.

Lemma set_inline H v st d h data k fd fld i rhs q rd rl bs isat : holder H v h data -> access H v st d k fd fld i -> fd_isptr fd = false ->
  jl_is_uniontype H fld = Ok false -> normalize_typeofbottom_layout_alias H fld = Ok q -> inline_value H v rhs q rd rl bs -> (isat = true -> q = fld) -> rhs <> 0 ->
  0 <= fd_offset fd -> fd_offset fd + room isat (size rl) <= Z.of_nat (length data) ->
  (is_locked isat (size rl) = true -> sizeof_jl_mutex_t <= fd_offset fd /\ unlocked data) ->
  exists H1 data1, set_nth_field depth self st v k rhs isat H = Ok (Ret tt, H1) /\ wrote H H1 v h data1 /\
    updated (is_locked isat (size rl)) data data1 (fd_offset fd) (room isat (size rl)) bs.
Proof.
  intros Hsa Hac Hp Hu Hq Hiv Hat Hr0 Ho Hl Hlk. unfold set_nth_field. rewrite (datatype_Ok st d) by apply Hac.
  rewrite (bind_reads_Ok _ _ H _ (offset_Ok H d k fd (ac_desc _ _ _ _ _ _ _ _ Hac))).
  rewrite (bind_reads_Ok _ _ H _ (isptr_Ok H d k fd (ac_desc _ _ _ _ _ _ _ _ Hac))). rewrite (proj2 (Z.eqb_neq _ _) Hr0), Hp.
  rewrite (bind_reads_Ok _ _ H fld) by apply Hac. rewrite (bind_reads_Ok _ _ H q) by done. rewrite (bind_reads_Ok _ _ H q) by apply Hiv.
  rewrite (bind_reads_Ok _ _ H false) by done. pose proof (in_vt _ _ _ _ _ _ _ Hiv) as Hvt. unfold has_ptr. rewrite bind_bind, (datatype_Ok q rd) by apply Hvt.
  rewrite bind_bind, (bind_reads_Ok _ _ H rl) by (by eapply value_the_layout). rewrite bind_ret.
  apply (write_inline_spec H v h data (fd_offset fd) fld q rhs rd rl bs); try done; apply Hsa.
Qed.

Lemma set_union H v st d h data k fd fld i rhs rty rd rl bs nth c : holder H v h data -> access H v st d k fd fld i -> fd_isptr fd = false ->
  jl_is_uniontype H fld = Ok true -> union_count H depth fld = Ok c -> c < 127 -> jl_find_union_component H depth fld rty = Ok (true, nth) ->
  inline_value H v rhs rty rd rl bs -> rhs <> 0 -> 0 <= fd_offset fd -> size rl + 1 <= fd_size fd -> fd_offset fd + fd_size fd <= Z.of_nat (length data) ->
  exists H1 data1, set_nth_field depth self st v k rhs false H = Ok (Ret tt, H1) /\ wrote H H1 v h data1 /\ slice data1 (fd_offset fd + fd_size fd - 1) 1 = [nth] /\
    updated false data data1 (fd_offset fd) (fd_size fd) bs.
Proof.
  intros Hsa Hac Hp Hu Hc Hc127 Hfind Hiv Hr0 Ho Hsz Hl. pose proof (in_vt _ _ _ _ _ _ _ Hiv) as Hvt. pose proof (vt_size _ _ _ _ _ _ _ Hvt) as Hs0.
  destruct (find_nth H depth fld c rty 0 true nth Hc ltac:(lia) ltac:(lia) Hfind) as [Hnth _]. assert (Hnb : is_byte nth) by (unfold is_byte; lia).
  assert (Enb : le_bytes 1 nth = [nth]) by (cbn; by rewrite Z.mod_small by apply Hnb).
  unfold set_nth_field. rewrite (datatype_Ok st d) by apply Hac.
  rewrite (bind_reads_Ok _ _ H _ (offset_Ok H d k fd (ac_desc _ _ _ _ _ _ _ _ Hac))).
  rewrite (bind_reads_Ok _ _ H _ (isptr_Ok H d k fd (ac_desc _ _ _ _ _ _ _ _ Hac))). rewrite (proj2 (Z.eqb_neq _ _) Hr0), Hp.
  rewrite (bind_reads_Ok _ _ H fld) by apply Hac.
  assert (En : normalize_typeofbottom_layout_alias H fld = Ok fld).
  { unfold normalize_typeofbottom_layout_alias. destruct (_ =? 0); [done |]. unfold jl_is_typeeq. by rewrite (is_tag_excl H _ jl_typeeq_tag fld Hu). }
  rewrite (bind_reads_Ok _ _ H fld) by done. rewrite (bind_reads_Ok _ _ H rty) by apply Hiv. rewrite (bind_reads_Ok _ _ H true) by done.
  rewrite (bind_reads_Ok _ _ H _ (size_Ok H d k fd (ac_desc _ _ _ _ _ _ _ _ Hac))). unfold select. rewrite bind_bind, (bind_reads_Ok _ _ H (true, nth)) by done.
  set (so := fd_offset fd + fd_size fd - 1). destruct (store_wrote H v h data so [nth] (ho_data _ _ _ _ Hsa)) as (H1 & E1 & W1); [lia | cbn [length]; lia |].
  unfold store. change (Z.to_nat 1) with 1%nat. rewrite Enb. rewrite (bind_writes_Ok _ _ _ H1) by exact E1.
  pose proof (wrote_change _ _ _ _ _ _ (ho_data _ _ _ _ Hsa) (ho_header _ _ _ _ Hsa) W1) as V1.
  pose proof (value_type_change alloc junk B _ _ _ _ _ V1 Hvt) as Hvt1. rewrite (datatype_Ok rty rd) by apply Hvt1.
  destruct (singleton_test H1 rty rd rl Hvt1) as (b & Eb & Hsg). rewrite (bind_reads_Ok _ _ H1 b) by done.
  set (data1 := splice data so [nth]) in *. assert (Hl1 : length data1 = length data) by (apply length_splice; cbn [length]; lia).
  assert (Hb1 : Forall is_byte data1) by (apply splice_bytes; [apply Hsa | constructor; [exact Hnb | constructor]]).
  assert (Hsel : slice data1 so 1 = [nth]) by (unfold data1; rewrite slice_splice_in by (cbn [length]; lia); by rewrite Z.sub_diag).
  assert (Hframe : forall o2 n2, 0 <= o2 -> 0 <= n2 -> o2 + n2 <= so \/ so + 1 <= o2 -> slice data1 o2 n2 = slice data o2 n2) by (intros; apply slice_splice_other; cbn [length]; lia).
  pose proof (in_data _ _ _ _ _ _ _ Hiv) as (hr & rdata & Hr & Hrb & Hrl & Ebs). pose proof (word_align (size rl) Hs0) as [Hw8 _].
  assert (Hbl : Z.of_nat (length bs) = size rl) by (rewrite Ebs, length_slice; lia).
  destruct b.
  - exists H1, data1. split; [done |]. split; [done |]. split; [done |]. specialize (Hsg eq_refl). destruct bs; [| cbn [length] in Hbl; lia].
    split; [done | done | done | intros; apply Hframe; lia | done].
  - pose proof (inline_value_wrote _ _ _ _ _ _ _ _ _ _ _ (ho_data _ _ _ _ Hsa) (ho_header _ _ _ _ Hsa) W1 Hiv) as Hiv1.
    destruct (write_inline_spec H1 v h data1 (fd_offset fd) fld rty rhs rd rl bs false false Hiv1 (wr_data _ _ _ _ _ W1) Hb1 (ho_header _ _ _ _ Hsa)) as (H2 & data2 & E2 & W2 & U2);
      [lia | unfold room; cbn [andb]; lia | done | done |].
    exists H2, data2. split; [done |]. split; [by eapply wrote_trans |]. destruct U2 as [UL UB UV UF _]. unfold room in UF. cbn [andb] in UF.
    split; [rewrite UF by (done || lia); done |].
    split; [lia | done | done | | done]. intros o2 n2 Ho2 Hn2 _ Hd2. rewrite UF by (done || lia). apply Hframe; lia.
Qed.

(** *** Reading *)

(** Down to the descriptor of the field. *)
Lemma get_start H v st d k fd fld i : access H v st d k fd fld i ->
  jl_get_nth_field depth alloc junk self B v k H =
    (if fd_isptr fd then Bits.load (v, fd_offset fd) 8
     else
       let* u := reads (fun H => jl_is_uniontype H fld) in
       if (u : bool) then
         if i then undefined
         else
           let* layout_ty := reads (fun H => union_value_type H depth fld (v, fd_offset fd + fd_size fd - 1)) in
           let* dl := datatype layout_ty in
           let* single := reads (fun _ => jl_is_datatype_singleton dl) in
           if (single : bool) then ret (dt_instance dl) else read_inline depth alloc junk self B v (fd_offset fd) i layout_ty
       else
         let* layout_ty := reads (fun H => normalize_typeofbottom_layout_alias H fld) in
         read_inline depth alloc junk self B v (fd_offset fd) i layout_ty) H.
Proof.
  intros Hac. destruct (ac_index _ _ _ _ _ _ _ _ Hac) as (n & En & Hk). unfold jl_get_nth_field. rewrite (bind_reads_Ok _ _ H st) by apply Hac.
  rewrite (datatype_Ok st d) by apply Hac. rewrite (bind_reads_Ok _ _ H n) by done. rewrite (proj2 (Z.leb_gt n k)) by lia.
  rewrite (bind_reads_Ok _ _ H _ (offset_Ok H d k fd (ac_desc _ _ _ _ _ _ _ _ Hac))).
  rewrite (bind_reads_Ok _ _ H _ (isptr_Ok H d k fd (ac_desc _ _ _ _ _ _ _ _ Hac))). destruct (fd_isptr fd); [done |].
  rewrite (bind_reads_Ok _ _ H fld) by apply Hac. rewrite (bind_reads_Ok _ _ H i) by apply Hac.
  apply bind_reads_ext. intros u _. destruct u; [| done]. destruct i; [done |].
  by rewrite (bind_reads_Ok _ _ H _ (size_Ok H d k fd (ac_desc _ _ _ _ _ _ _ _ Hac))).
Qed.

(** The memory [data] of the struct holds the value in the field. *)
Inductive field_holds (H : heap) (data : list Z) (fd : jl_fielddesc32_t) (fld : ptr) (isatomic : bool) (rhs : ptr) : option (ptr * list Z) -> Prop :=
| holds_ptr : fd_isptr fd = true -> fd_size fd = 8 -> 0 <= fd_offset fd -> fd_offset fd + 8 <= Z.of_nat (length data) -> 0 < rhs < 2 ^ 64 ->
    slice data (fd_offset fd) 8 = le_bytes 8 rhs -> field_holds H data fd fld isatomic rhs None
| holds_inline q rd rl bs : fd_isptr fd = false -> jl_is_uniontype H fld = Ok false -> normalize_typeofbottom_layout_alias H fld = Ok q ->
    value_type alloc junk B H q rd rl -> (forall t, smalltag rd = Some t -> bool_bits t bs) -> defined_bits rl bs ->
    0 <= fd_offset fd -> room isatomic (size rl) <= fd_size fd -> fd_offset fd + room isatomic (size rl) <= Z.of_nat (length data) -> slice data (fd_offset fd) (size rl) = bs ->
    (is_locked isatomic (size rl) = true -> sizeof_jl_mutex_t <= fd_offset fd /\ unlocked data) -> field_holds H data fd fld isatomic rhs (Some (q, bs))
| holds_union rty rd rl bs nth j : fd_isptr fd = false -> jl_is_uniontype H fld = Ok true -> isatomic = false -> 
    nth_union_component H depth fld nth = Ok (Some rty, j) -> is_byte nth -> value_type alloc junk B H rty rd rl -> (forall t, smalltag rd = Some t -> bool_bits t bs) -> defined_bits rl bs ->
    0 <= fd_offset fd -> size rl + 1 <= fd_size fd -> fd_offset fd + fd_size fd <= Z.of_nat (length data) ->
    slice data (fd_offset fd) (size rl) = bs -> slice data (fd_offset fd + fd_size fd - 1) 1 = [nth] -> field_holds H data fd fld isatomic rhs (Some (rty, bs)).

Lemma get_holds H v st d k fd fld isatomic h data rhs w : boxes_ok B H -> access H v st d k fd fld isatomic -> has_data H v h data -> Forall is_byte data -> type_header h = false ->
  field_holds H data fd fld isatomic rhs w ->
  exists r H', jl_get_nth_field depth alloc junk self B v k H = Ok (Ret r, H') /\ reads_as H' r rhs w /\ value_change H H'.
Proof.
  intros HB Hac Hd Hb Hth Hfh. rewrite (get_start H v st d k fd fld isatomic Hac).
  destruct Hfh as [Hp _ Ho Hl Hr Hs | q rd rl bs Hp Hu Hq Hvt Hbool Hdef Ho _ Hl Hs Hlk | rty rd rl bs nth j Hp Hu -> Hnth Hnb Hvt Hbool Hdef Ho Hsz Hl Hs Hsel]; rewrite Hp.
  - exists rhs, H. split; [| split; [done | reflexivity]]. unfold Bits.load, reads. rewrite (load_uint_data H v h data) by (done || lia).
    rewrite Hs, le_word_le_bytes, Z.mod_small by lia. done.
  - rewrite (bind_reads_Ok _ _ H false) by done. rewrite (bind_reads_Ok _ _ H q) by done.
    by apply (read_inline_spec H v h data (fd_offset fd) q rd rl bs).
  - rewrite (bind_reads_Ok _ _ H true) by done. pose proof (vt_size _ _ _ _ _ _ _ Hvt). rewrite (bind_reads_Ok _ _ H rty).
    + rewrite (datatype_Ok rty rd) by apply Hvt. destruct (singleton_test H rty rd rl Hvt) as (b & Eb & Hsg). rewrite (bind_reads_Ok _ _ H b) by done. destruct b.
      * exists (dt_instance rd), H. split; [done |]. split; [| reflexivity]. specialize (Hsg eq_refl). rewrite Hsg in Hs. unfold slice in Hs. cbn in Hs. subst bs.
        by apply (vt_single _ _ _ _ _ _ _ Hvt).
      * apply (read_inline_spec H v h data (fd_offset fd) rty rd rl bs); try done. unfold room. cbn [andb]. lia.
    + unfold union_value_type. rewrite (load_uint_data H v h data) by (done || lia). rewrite Hsel. cbn [obind le_word]. rewrite Z.mul_0_r, Z.add_0_r.
      unfold jl_nth_union_component. rewrite Hnth. cbn [obind]. apply normalize_is_datatype, Hvt.
Qed.

(** ** Storing and reading back *)

Lemma boxes_ok_wrote H H1 v h data data1 : has_data H v h data -> wrote H H1 v h data1 -> 
  (forall t i p bs, cached_value t i = Some bs -> rd (boxed_cache B t) i = Ok p -> p <> v) -> jl_true B <> v -> jl_false B <> v -> boxes_ok B H -> boxes_ok B H1.
Proof.
  intros Hd Hw Hc Ht Hf [BT BF BC].
  assert (Hv : forall p ty bs, p <> v -> is_value H p ty bs -> is_value H1 p ty bs).
  { intros p ty bs Hp [Ha Hty Hdat]. split; [done | |].
    - unfold jl_typeof, jl_typetagof, deref, jl_to_typeof in *. rewrite (wr_other _ _ _ _ _ Hw p Hp), (wr_globals _ _ _ _ _ Hw). exact Hty.
    - unfold load_bytes, data_at, deref in *. cbn [fst] in *. by rewrite (wr_other _ _ _ _ _ Hw p Hp). }
  assert (Hs : small_typeof H1 = small_typeof H) by (by rewrite (wr_globals _ _ _ _ _ Hw)).
  split; rewrite ?Hs; [by apply Hv | by apply Hv |]. intros t i bs E. destruct (BC t i bs E) as (p & Ep & Hp). exists p. split; [done |]. apply Hv; [by eapply Hc | done].
Qed.

(** Boxes are not structs that are written to. *)
Definition not_a_box (v : ptr) : Prop :=
  jl_true B <> v /\ jl_false B <> v /\ forall t i p bs, cached_value t i = Some bs -> rd (boxed_cache B t) i = Ok p -> p <> v.

Lemma union_room H d ly k fd fld i rty rd rl c nth : field_view H d ly k fd fld i -> inline_wf H -> fd_isptr fd = false -> jl_is_uniontype H fld = Ok true ->
  union_count H depth fld = Ok c -> c < 127 -> jl_find_union_component H depth fld rty = Ok (true, nth) -> value_type alloc junk B H rty rd rl ->
  fi_isatomic i = false /\ size rl + 1 <= fd_size fd /\ is_byte nth /\ nth_union_component H depth fld nth = Ok (Some rty, 0).
Proof.
  intros Hfv HI Hp Hu Hc Hc127 Hfind Hvt. rewrite (fv_isptr _ _ _ _ _ _ _ Hfv) in Hp.
  assert (Ha : fi_isatomic i = false).
  { destruct (fi_isatomic i) eqn:E; [| done]. destruct (fv_union _ _ _ _ _ _ _ Hfv E); congruence. }
  split; [done |]. destruct (find_nth H depth fld c rty 0 true nth Hc ltac:(lia) ltac:(lia) Hfind) as [Hn Hnth]. rewrite Z.sub_0_r in Hnth.
  destruct (fv_slot _ _ _ _ _ _ _ Hfv) as [? | Hin]; [congruence |]. apply obind_Ok_inv in Hin as ([fsz al] & Eun & (u & Eu & E)%obind_Ok_inv). rewrite Hu in Eu. injection Eu as <-. injection E as E.
  destruct (union_at_component H depth fld false 0 1 fsz al nth rty 0 Eun Hnth) as (pf & sz & a & Ep & Hsz).
  pose proof (vt_part H rty pf sz a rd rl HI Ep (normalize_is_datatype H rty (vt_isd _ _ _ _ _ _ _ Hvt)) Hvt).
  rewrite (fv_size _ _ _ _ _ _ _ Hfv). unfold slot_size, small_atomic, slot_req. rewrite Ha, <- E. cbn [andb fst]. split; [lia |]. split; [unfold is_byte; lia | done].
Qed.

Lemma field_isptr_size H d ly k fd fld i : field_view H d ly k fd fld i -> fd_isptr fd = true -> fd_size fd = 8.
Proof.
  intros Hfv Hp. rewrite (fv_size _ _ _ _ _ _ _ Hfv). rewrite (fv_isptr _ _ _ _ _ _ _ Hfv) in Hp. unfold slot_isptr in Hp. unfold slot_size, small_atomic, slot_req.
  destruct (fi_slot i); try done. cbn [fst]. destruct (fi_isatomic i); done.
Qed.

Lemma updated_weaken lk data data' o n m bs : n <= m -> updated lk data data' o n bs -> updated lk data data' o m bs.
Proof. intros Hn [L Bt V F U]. split; try done. intros o2 n2 Ho2 Hn2 Hlk Hd. apply F; try done. lia. Qed.

(** A value that can be stored in a field, with what the layout says of the
    space for it; [a] is whether the field is atomic and [isat] whether the
    store is. *)
Inductive storable (H : heap) (v : ptr) (fd : jl_fielddesc32_t) (fld : ptr) (a isat : bool) (rhs : ptr) : option (ptr * list Z) -> Prop :=
| storable_ptr : fd_isptr fd = true -> 0 < rhs < 2 ^ 64 -> fd_size fd = 8 -> storable H v fd fld a isat rhs None
| storable_inline q rd rl bs : fd_isptr fd = false -> jl_is_uniontype H fld = Ok false -> normalize_typeofbottom_layout_alias H fld = Ok q ->
    inline_value H v rhs q rd rl bs -> (isat = true -> q = fld) -> rhs <> 0 -> room a (size rl) <= fd_size fd ->
    (is_locked a (size rl) = true -> sizeof_jl_mutex_t <= fd_offset fd /\ MAX_ATOMIC_SIZE < fd_size fd) -> storable H v fd fld a isat rhs (Some (q, bs))
| storable_union rty rd rl bs nth c : fd_isptr fd = false -> jl_is_uniontype H fld = Ok true -> union_count H depth fld = Ok c -> c < 127 ->
    jl_find_union_component H depth fld rty = Ok (true, nth) -> inline_value H v rhs rty rd rl bs -> rhs <> 0 -> a = false -> isat = false -> size rl + 1 <= fd_size fd ->
    is_byte nth -> nth_union_component H depth fld nth = Ok (Some rty, 0) -> storable H v fd fld a isat rhs (Some (rty, bs)).

Lemma value_storable H d ly k fd fld i v isat rhs w : field_view H d ly k fd fld i -> inline_wf H -> isat = fi_isatomic i \/ isat = false -> field_value H v fd fld isat rhs w ->
  storable H v fd fld (fi_isatomic i) isat rhs w.
Proof.
  intros Hfv HI Hisat [Hp Hr | q rd rl bs Hp Hu Hq Hiv Hat Hr0 | rty rd rl bs nth c Hp Hu Hc Hc127 Hfind Hiv Hr0].
  - apply storable_ptr; [done | done |]. by eapply field_isptr_size.
  - destruct (inline_room _ _ _ _ _ _ _ _ _ _ Hfv HI Hp Hu Hq (in_vt _ _ _ _ _ _ _ Hiv)) as [Hroom Hlk].
    apply (storable_inline _ _ _ _ _ _ _ q rd rl bs); try done. intros E. destruct (Hlk E). split; [by apply Hfv | done].
  - destruct (union_room _ _ _ _ _ _ _ _ _ _ _ _ Hfv HI Hp Hu Hc Hc127 Hfind (in_vt _ _ _ _ _ _ _ Hiv)) as (Ha & Hfit & Hnb & Hnth).
    apply (storable_union _ _ _ _ _ _ _ rty rd rl bs nth c); try done. destruct Hisat; congruence.
Qed.

Lemma room_le a isat sz : 0 <= sz -> isat = a \/ isat = false -> room isat sz <= room a sz.
Proof. intros Hs [-> | ->]; [lia |]. apply (room_bound a sz Hs). Qed.

(** After a store the memory holds the value, and what is outside the field
    is as before. *)
Lemma set_holds H v st d h data k fd fld a isat rhs w : holder H v h data -> access H v st d k fd fld a -> isat = a \/ isat = false -> 0 <= fd_offset fd ->
  fd_offset fd + fd_size fd <= Z.of_nat (length data) -> storable H v fd fld a isat rhs w -> (a = true -> MAX_ATOMIC_SIZE < fd_size fd -> unlocked data) ->
  exists H1 data1, set_nth_field depth self st v k rhs isat H = Ok (Ret tt, H1) /\ wrote H H1 v h data1 /\ Forall is_byte data1 /\ length data1 = length data /\
    (unlocked data -> sizeof_jl_mutex_t <= fd_offset fd -> unlocked data1) /\ field_holds H1 data1 fd fld a rhs w /\
    forall o n, 0 <= o -> 0 <= n -> (a = true -> MAX_ATOMIC_SIZE < fd_size fd -> sizeof_jl_mutex_t <= fd_offset fd -> sizeof_jl_mutex_t <= o) ->
      o + n <= fd_offset fd \/ fd_offset fd + fd_size fd <= o -> slice data1 o n = slice data o n.
Proof.
  intros Hsa Hac Hisat Ho Hl Hval Hun.
  assert (HV : forall H1 data1, wrote H H1 v h data1 -> value_change H H1) by (intros H1 data1 W; eapply wrote_change; [apply Hsa | apply Hsa | exact W]).
  assert (Hunl : forall lk data1 n bs, updated lk data data1 (fd_offset fd) n bs -> unlocked data -> sizeof_jl_mutex_t <= fd_offset fd -> unlocked data1).
  { intros lk data1 n bs U Hu H16. destruct lk; [by apply U |]. unfold unlocked, sizeof_jl_mutex_t in *. rewrite (up_frame _ _ _ _ _ _ U); (done || lia). }
  destruct Hval as [Hp Hr H8 | q rd rl bs Hp Hu Hq Hiv Hat Hr0 Hroom Hlk | rty rd rl bs nth c Hp Hu Hc Hc127 Hfind Hiv Hr0 -> -> Hfit Hnb Hnth].
  - destruct (set_ptr H v st d h data k fd fld a rhs isat Hsa Hac Hp Hr Ho ltac:(lia)) as (H1 & data1 & E & W & U).
    exists H1, data1. split; [done |]. split; [done |]. split; [apply U |]. split; [apply U |]. split; [by eapply Hunl |].
    split; [apply holds_ptr; [done | done | done | rewrite (up_length _ _ _ _ _ _ U); lia | done | apply U] |].
    intros o n Hon Hn _ Hd. apply (up_frame _ _ _ _ _ _ U); (done || lia).
  - pose proof (in_vt _ _ _ _ _ _ _ Hiv) as Hvt. pose proof (vt_size _ _ _ _ _ _ _ Hvt) as Hs0. pose proof (room_le a isat (size rl) ltac:(lia) Hisat) as Hrm.
    assert (Hsub : is_locked isat (size rl) = true -> is_locked a (size rl) = true) by (destruct Hisat as [-> | ->]; done).
    assert (Hlock : is_locked a (size rl) = true -> sizeof_jl_mutex_t <= fd_offset fd /\ unlocked data).
    { intros E. destruct (Hlk E) as [H16 Hbig]. split; [done |]. apply Hun; [| done]. unfold is_locked in E. by destruct a. }
    destruct (set_inline H v st d h data k fd fld a rhs q rd rl bs isat Hsa Hac Hp Hu Hq Hiv Hat Hr0 Ho ltac:(lia) ltac:(auto)) as (H1 & data1 & E & W & U).
    exists H1, data1. split; [done |]. split; [done |]. split; [apply U |]. split; [apply U |]. split; [by eapply Hunl |].
    pose proof (HV _ _ W) as V. pose proof (in_data _ _ _ _ _ _ _ Hiv) as (hr & rdata & _ & _ & Hrl & Ebs). pose proof (word_align (size rl) ltac:(lia)) as [? _].
    assert (Hbl : Z.of_nat (length bs) = size rl) by (rewrite Ebs, length_slice; lia). split.
    + apply (holds_inline _ _ _ _ _ _ q rd rl bs); [done | by apply (vc_is_tag H H1 V) | by apply (vc_normalize H H1 V) | by apply (value_type_change alloc junk B H) | apply Hiv |
        by eapply inline_value_defined | done | done | rewrite (up_length _ _ _ _ _ _ U); lia | rewrite <- Hbl; apply U |].
      intros El. destruct (Hlock El). split; [done |]. by eapply Hunl.
    + intros o n Hon Hn H16 Hd. apply (up_frame _ _ _ _ _ _ U); [done | done | | lia]. intros El%Hsub. destruct (Hlk El). apply H16; try done. unfold is_locked in El. by destruct a.
  - destruct (set_union H v st d h data k fd fld false rhs rty rd rl bs nth c Hsa Hac Hp Hu Hc Hc127 Hfind Hiv Hr0 Ho Hfit Hl) as (H1 & data1 & E & W & Hsel & U).
    exists H1, data1. split; [done |]. split; [done |]. split; [apply U |]. split; [apply U |]. split; [by eapply Hunl |].
    pose proof (HV _ _ W) as V. pose proof (in_vt _ _ _ _ _ _ _ Hiv) as Hvt. pose proof (in_data _ _ _ _ _ _ _ Hiv) as (hr & rdata & _ & _ & Hrl & Ebs). pose proof (vt_size _ _ _ _ _ _ _ Hvt). pose proof (word_align (size rl) ltac:(lia)) as [? _].
    assert (Hbl : Z.of_nat (length bs) = size rl) by (rewrite Ebs, length_slice; lia). split.
    + apply (holds_union _ _ _ _ _ _ rty rd rl bs nth 0); [done | by apply (vc_is_tag H H1 V) | done | by apply (vc_nth_union H H1 V) | done | by apply (value_type_change alloc junk B H) | apply Hiv |
        by eapply inline_value_defined | done | done | rewrite (up_length _ _ _ _ _ _ U); lia | rewrite <- Hbl; apply U | done].
    + intros o n Hon Hn _ Hd. apply (up_frame _ _ _ _ _ _ U); (done || lia).
Qed.

Lemma struct_holder H v st d ly h data : struct_at H v st d ly h data -> holder H v h data.
Proof. intros Hsa. split; apply Hsa. Qed.

Lemma set_get H v st d ly h data k fd fld i rhs w : boxes_ok B H -> not_a_box v -> struct_at H v st d ly h data -> 0 <= k < nfields ly -> field_view H d ly k fd fld i ->
  field_value H v fd fld (fi_isatomic i) rhs w -> (fi_isatomic i = true -> MAX_ATOMIC_SIZE < fd_size fd -> unlocked data) ->
  exists H1 data1 r H2, set_nth_field depth self st v k rhs (fi_isatomic i) H = Ok (Ret tt, H1) /\ wrote H H1 v h data1 /\
    (forall j fdj, Z.of_nat j <> k -> fields ly !! j = Some fdj -> slice data1 (fd_offset fdj) (fd_size fdj) = slice data (fd_offset fdj) (fd_size fdj)) /\
    jl_get_nth_field depth alloc junk self B v k H1 = Ok (Ret r, H2) /\ reads_as H2 r rhs w.
Proof.
  intros HB (Nt & Nf & Nc) Hsa Hk Hfv Hval Hun. pose proof (struct_access H v st d ly h data k fd fld i Hsa Hk Hfv) as Hac. pose proof (fv_range _ _ _ _ _ _ _ Hfv) as [Ho Hl].
  pose proof (sa_size _ _ _ _ _ _ _ Hsa) as Hsz.
  destruct (set_holds H v st d h data k fd fld (fi_isatomic i) (fi_isatomic i) rhs w (struct_holder _ _ _ _ _ _ _ Hsa) Hac) as (H1 & data1 & E1 & W & Hb1 & _ & _ & Hh & Hfr);
    [by left | done | lia | apply (value_storable H d ly k fd fld i); [done | apply Hsa | by left | done] | done |].
  pose proof (wrote_change _ _ _ _ _ _ (sa_data _ _ _ _ _ _ _ Hsa) (sa_header _ _ _ _ _ _ _ Hsa) W) as V.
  destruct (get_holds H1 v st d k fd fld (fi_isatomic i) h data1 rhs w) as (r & H2 & E2 & Hr & _); [by eapply boxes_ok_wrote; [apply Hsa | exact W | | | |] | | | | | |].
  - by apply (access_change H).
  - apply W.
  - done.
  - apply Hsa.
  - done.
  - exists H1, data1, r, H2. split; [done |]. split; [done |]. split; [| done]. intros j fdj Hj Ej.
    destruct (fv_others _ _ _ _ _ _ _ Hfv j fdj Hj Ej) as (Hj1 & Hj2 & Hj3 & Hj4). apply Hfr; [done | done | | lia]. intros Ha Hbig _.
    apply Hj3, big_atomic_lock; [| done | rewrite <- (fv_size _ _ _ _ _ _ _ Hfv); done].
    destruct (fv_slot _ _ _ _ _ _ _ Hfv) as [Hp | Hin]; [unfold slot_isptr in Hp; by destruct (fi_slot i) | by apply (inline_at_wf depth H fld), Hin; apply Hsa].
Qed.

(** ** Constructors *)

(** Writing elsewhere keeps what a field holds. *)
Lemma holds_frame H H1 data data1 fd fld a rhs w : value_change H H1 -> length data1 = length data -> 0 <= fd_size fd ->
  (forall o n, fd_offset fd <= o -> 0 <= n -> o + n <= fd_offset fd + fd_size fd -> slice data1 o n = slice data o n) ->
  (unlocked data -> a = true -> MAX_ATOMIC_SIZE < fd_size fd -> unlocked data1) -> field_holds H data fd fld a rhs w -> field_holds H1 data1 fd fld a rhs w.
Proof.
  intros V Hlen Hs0 Hfr Hun [Hp H8 Ho Hl Hr Hs | q rd rl bs Hp Hu Hq Hvt Hbool Hdef Ho Hrm Hl Hs Hlk | rty rd rl bs nth j Hp Hu Ha Hnth Hnb Hvt Hbool Hdef Ho Hsz Hl Hs Hsel].
  - apply holds_ptr; try done; [lia |]. by rewrite Hfr by lia.
  - pose proof (vt_size _ _ _ _ _ _ _ Hvt). pose proof (room_bound a (size rl) ltac:(lia)).
    apply (holds_inline _ _ _ _ _ _ q rd rl bs); try done; [by apply (vc_is_tag H H1 V) | by apply (vc_normalize H H1 V) | by apply (value_type_change alloc junk B H) | lia | by rewrite Hfr by lia |].
    intros El. destruct (Hlk El) as [H16 Hul]. split; [done |]. apply Hun; [done | |]; unfold is_locked in El; destruct a; try done. cbn [andb] in El. apply Z.ltb_lt in El. lia.
  - pose proof (vt_size _ _ _ _ _ _ _ Hvt).
    apply (holds_union _ _ _ _ _ _ rty rd rl bs nth j); try done; [by apply (vc_is_tag H H1 V) | by apply (vc_nth_union H H1 V) | by apply (value_type_change alloc junk B H) | lia | by rewrite Hfr by lia | by rewrite Hfr by lia].
Qed.

Lemma vc_union_count H H' n : value_change H H' -> forall ty c, union_count H n ty = Ok c -> union_count H' n ty = Ok c.
Proof.
  intros V. induction n as [| n IH]; intros ty c; cbn; intros (u & Eu & E)%obind_Ok_inv; unfold jl_is_uniontype; rewrite (vc_is_tag H H' V _ _ _ Eu); cbn; destruct u; try done.
  apply obind_Ok_inv in E as (a & Ea & (x & Ex & (b & Eb & (y & Ey & E)%obind_Ok_inv)%obind_Ok_inv)%obind_Ok_inv).
  rewrite (vc_ptr_field H H' V jl_uniontype_tag _ _ _ ltac:(by apply list_elem_of_In; cbn; auto) Eu Ea). cbn. rewrite (IH _ _ Ex). cbn.
  rewrite (vc_ptr_field H H' V jl_uniontype_tag _ _ _ ltac:(by apply list_elem_of_In; cbn; auto) Eu Eb). cbn. by rewrite (IH _ _ Ey).
Qed.

(** What can be stored can be stored later. *)
Lemma storable_later H H1 v v1 fd fld a isat rhs w : value_change H H1 ->
  (forall rty rd rl bs, inline_value H v rhs rty rd rl bs -> inline_value H1 v1 rhs rty rd rl bs) -> storable H v fd fld a isat rhs w -> storable H1 v1 fd fld a isat rhs w.
Proof.
  intros V Hiv1 [Hp Hr H8 | q rd rl bs Hp Hu Hq Hiv Hat Hr0 Hroom Hlk | rty rd rl bs nth c Hp Hu Hc Hc127 Hfind Hiv Hr0 Ha Hi Hfit Hnb Hnth].
  - by apply storable_ptr.
  - apply (storable_inline _ _ _ _ _ _ _ q rd rl bs); try done; [by apply (vc_is_tag H H1 V) | by apply (vc_normalize H H1 V) | by apply Hiv1].
  - apply (storable_union _ _ _ _ _ _ _ rty rd rl bs nth c); try done; [by apply (vc_is_tag H H1 V) | by apply (vc_union_count H H1) | by apply (vc_find H H1 V) | by apply Hiv1 | by apply (vc_nth_union H H1 V)].
Qed.
End Access.
