(* ===== verification/Construct.v ===== *)
(** * Constructors of structs

    A new struct holds the values it was made from. *)

From stdpp Require Import base gmap numbers option list.
From Stdlib Require Import ZArith Lia.
From S2P Require Import Prelude Probe Identity Hashing HashingFacts Bytes Objects Egal EgalFacts HeapMonad LayoutCore LayoutCoreFacts Layout LayoutHeap LayoutFacts LayoutSound Bits Fields BitsFacts FieldsFacts.

Section Construct.
Context (depth : nat) (alloc : heap -> Z -> ptr) (junk : heap -> Z -> Z) (self : ptr) (B : boxes).
Context (alloc_fresh : forall H sz, objects H !! alloc H sz = None) (alloc_nonnull : forall H sz, alloc H sz <> 0) (Hself : 0 < self < 2 ^ 64).

(** ** Storing all fields *)

(** The field a value goes to: its descriptor and type, whether it is atomic,
    and what it holds then. *)
Record place := Place { pl_fd : jl_fielddesc32_t; pl_fld : ptr; pl_atomic : bool; pl_value : option (ptr * list Z) }.

Section Fields.
Context (ty jv h : Z) (d : jl_datatype_t) (total : Z) (lk : bool).

(** The value [x] goes to field number [k]; [lk] says that the struct has a
    lock. *)
Record goes_to (H : heap) (k : Z) (x : ptr) (p : place) : Prop := {
  gt_access : access depth H jv ty d k (pl_fd p) (pl_fld p) (pl_atomic p);
  gt_value : storable depth alloc junk B H jv (pl_fd p) (pl_fld p) (pl_atomic p) false x (pl_value p);
  gt_range : 0 <= fd_offset (pl_fd p) /\ 0 <= fd_size (pl_fd p) /\ fd_offset (pl_fd p) + fd_size (pl_fd p) <= total;
  gt_lock : lk = true -> sizeof_jl_mutex_t <= fd_offset (pl_fd p);
  gt_atomic : pl_atomic p = true -> MAX_ATOMIC_SIZE < fd_size (pl_fd p) -> lk = true
}.

Fixpoint all_go (H : heap) (k : Z) (args : list ptr) (ps : list place) : Prop :=
  match args, ps with
  | [], [] => True
  | x :: args, p :: ps =>
      goes_to H k x p /\ Forall (fun q => fd_offset (pl_fd p) + fd_size (pl_fd p) <= fd_offset (pl_fd q)) ps /\ all_go H (k + 1) args ps
  | _, _ => False
  end.

(** Outside the fields, and the lock. *)
Definition clear_of (ps : list place) (o n : Z) : Prop :=
  0 <= o /\ 0 <= n /\ (lk = true -> sizeof_jl_mutex_t <= o) /\
  Forall (fun p => o + n <= fd_offset (pl_fd p) \/ fd_offset (pl_fd p) + fd_size (pl_fd p) <= o) ps.

Lemma all_go_wrote H H1 data data1 ps : forall args k, holder H jv h data -> wrote H H1 jv h data1 -> all_go H k args ps -> all_go H1 k args ps.
Proof.
  induction ps as [| p ps IH]; intros [| x args] k Hh W; cbn; try done. intros ([Ha Hv Hr Hl Hat] & Ho & Hgo).
  pose proof (wrote_change _ _ _ _ _ _ (ho_data _ _ _ _ Hh) (ho_header _ _ _ _ Hh) W) as V.
  split; [| split; [done | by apply IH]]. split; try done; [by apply (access_change depth H) |].
  apply (storable_later depth alloc junk B H H1 jv); [done | | done]. intros rty rd rl bs. apply (inline_value_wrote alloc junk B H H1 jv h data data1); [apply Hh | apply Hh | done].
Qed.

Lemma all_go_lookup H ps : forall args k j x p, all_go H k args ps -> args !! j = Some x -> ps !! j = Some p -> goes_to H (k + Z.of_nat j) x p.
Proof.
  induction ps as [| q ps IH]; intros [| y args] k j x p; try done. intros (Hg & _ & Hgo) Hx Hp. destruct j as [| j]; cbn in Hx, Hp.
  - injection Hx as ->. injection Hp as ->. by rewrite Z.add_0_r.
  - replace (k + Z.of_nat (S j)) with (k + 1 + Z.of_nat j) by lia. by eapply IH.
Qed.

(** Every field holds its value when all are stored. *)
Lemma set_fields_spec args : forall ps k H data, holder H jv h data -> total <= Z.of_nat (length data) -> (lk = true -> unlocked data) -> all_go H k args ps ->
  exists H' data', set_fields depth self ty jv k args H = Ok (Ret tt, H') /\ wrote H H' jv h data' /\ Forall is_byte data' /\ length data' = length data /\
    (lk = true -> unlocked data') /\
    (forall j x p, args !! j = Some x -> ps !! j = Some p -> field_holds depth alloc junk B H' data' (pl_fd p) (pl_fld p) (pl_atomic p) x (pl_value p)) /\
    forall o n, clear_of ps o n -> slice data' o n = slice data o n.
Proof.
  induction args as [| x args IH]; intros [| p ps] k H data Hh Hlen Hun Hgo; try done.
  { exists H, data. split; [done |]. split; [by apply wrote_refl, Hh |]. split; [apply Hh |]. done. }
  destruct Hgo as (Hg & Hord & Hgo). destruct (gt_range _ _ _ _ Hg) as (Ho & Hs & Hr). cbn [set_fields].
  destruct (set_holds depth alloc junk self B Hself H jv ty d h data k (pl_fd p) (pl_fld p) (pl_atomic p) false x (pl_value p)) as (H1 & data1 & E1 & W1 & Hb1 & Hl1 & Hu1 & Hh1 & Hf1);
    [done | apply Hg | by right | done | lia | apply Hg | intros Ha Hbig; by apply Hun, (gt_atomic _ _ _ _ Hg) |].
  rewrite (bind_Ret _ _ _ _ _ E1). assert (Hh1' : holder H1 jv h data1) by (split; [apply W1 | done | apply Hh]).
  assert (Hun1 : lk = true -> unlocked data1) by (intros E; apply Hu1; [by apply Hun | by apply (gt_lock _ _ _ _ Hg)]).
  destruct (IH ps (k + 1) H1 data1 Hh1' ltac:(lia) Hun1 (all_go_wrote _ _ _ _ _ _ _ Hh W1 Hgo)) as (H2 & data2 & E2 & W2 & Hb2 & Hl2 & Hun2 & Hh2 & Hf2).
  exists H2, data2. split; [done |]. split; [by eapply wrote_trans |]. split; [done |]. split; [lia |]. split; [done |].
  pose proof (wrote_change _ _ _ _ _ _ (ho_data _ _ _ _ Hh1') (ho_header _ _ _ _ Hh) W2) as V2.
  split.
  - intros [| j] y q Hy Hq; cbn in Hy, Hq; [| by eapply Hh2]. injection Hy as ->. injection Hq as ->.
    apply (holds_frame depth alloc junk B H1 H2 data1 data2); [done | done | done | | intros _ Ha Hbig; by apply Hun2, (gt_atomic _ _ _ _ Hg) | done].
    intros o n Hon Hn Hend. apply Hf2. split; [lia |]. split; [done |]. split; [intros E; pose proof (gt_lock _ _ _ _ Hg E); lia |].
    eapply Forall_impl; [exact Hord |]. intros q' Hq'. cbn beta in Hq'. lia.
  - intros o n (Hon & Hn & Ho16 & Hall). apply Forall_cons in Hall as [Hp Hall]. rewrite Hf2 by done. apply Hf1; [done | done | | lia].
    intros Ha Hbig _. by apply Ho16, (gt_atomic _ _ _ _ Hg).
Qed.
End Fields.

Lemma grows_wrote H H1 H2 p h data : grows H H1 -> objects H !! p = None -> wrote H1 H2 p h data -> grows H H2.
Proof.
  intros [G O] Hp [_ Ho Hg]. split; [rewrite Hg, G; by destruct H |]. intros q o E. rewrite Ho by (intros ->; congruence). by apply O.
Qed.

Lemma memset0_spec H v h data o n : holder H v h data -> 0 <= o -> 0 <= n -> o + n <= Z.of_nat (length data) ->
  exists H', memset0 (v, o) n H = Ok (Ret tt, H') /\ wrote H H' v h (splice data o (replicate (Z.to_nat n) 0)) /\ holder H' v h (splice data o (replicate (Z.to_nat n) 0)).
Proof.
  intros Hh Ho Hn Hl. destruct (store_wrote H v h data o (replicate (Z.to_nat n) 0) (ho_data _ _ _ _ Hh) Ho) as (H' & E & W); [rewrite length_replicate; lia |].
  exists H'. split; [unfold memset0, writes; by rewrite E |]. split; [done |]. split; [apply W | | apply Hh]. apply splice_bytes; [apply Hh |]. apply Forall_replicate. unfold is_byte. lia.
Qed.

(** A type structs are made of, which is not a singleton. *)
Record struct_type (H : heap) (ty : ptr) (d : jl_datatype_t) (ly : jl_datatype_layout_t) : Prop := {
  sty_datatype : get_datatype H ty = Ok d;
  sty_isd : jl_is_datatype H ty = Ok true;
  sty_concrete : dt_isconcretetype d = true;
  sty_layout : dt_layout d = Some ly;
  sty_opaque : jl_is_layout_opaque ly = false;
  sty_instance : dt_instance d = 0;
  sty_tag : jl_to_typeof H (Z.land (header_of ty d) (Z.lnot 15)) = Ok ty /\ type_header (header_of ty d) = false;
  sty_fields : struct_ok depth H d ly;
  sty_inline : inline_wf H;
  sty_nonempty : 0 < nfields ly
}.

Lemma struct_type_layout H ty d ly : struct_type H ty d ly -> jl_datatype_layout H depth d = Ok ly.
Proof. intros Hs. unfold jl_datatype_layout. by rewrite (sty_layout _ _ _ _ Hs), (sty_opaque _ _ _ _ Hs). Qed.

Lemma struct_type_size H ty d ly : struct_type H ty d ly -> 0 <= size ly < 2 ^ 32.
Proof. intros Hs. destruct (sty_fields _ _ _ _ Hs) as (nm & flds & t & fs & _ & _ & _ & _ & Hspec). apply (ls_size _ _ Hspec). Qed.

(** The arguments of a constructor, for the fields from number [k] on. *)
Fixpoint args_fit (H : heap) (d : jl_datatype_t) (ly : jl_datatype_layout_t) (k : Z) (args : list ptr) (ws : list (option (ptr * list Z))) : Prop :=
  match args, ws with
  | [], [] => True
  | x :: args, w :: ws => (forall fd fld i, field_view depth H d ly k fd fld i -> field_value depth alloc junk B H 0 fd fld false x w) /\ args_fit H d ly (k + 1) args ws
  | _, _ => False
  end.

Lemma inline_value_grows H H1 v v1 rhs rty rd rl bs : grows H H1 -> rhs <> v1 -> inline_value alloc junk B H v rhs rty rd rl bs -> inline_value alloc junk B H1 v1 rhs rty rd rl bs.
Proof.
  intros Hg Hne1 [Ht Hvt (hr & rdata & Hr & Hrb & Hrl & Ebs) Hne Hbool Hdef]. pose proof (grows_change _ _ Hg) as V.
  split; try done; [by apply (vc_typeof H H1) | by apply (value_type_change alloc junk B H) | |].
  - exists hr, rdata. split; [by apply (grows_data H H1) | done].
  - unfold undefref_check in *. apply obind_Ok_inv in Hdef as (l & -> & Hdef). cbn [obind]. destruct (0 <=? first_ptr l); [| done].
    apply obind_Ok_inv in Hdef as (x & (y & Ey & Ex)%obind_Ok_inv & E). unfold load_ptr, load_uint. rewrite (load_bytes_grows H H1 _ _ _ Hg Ey). cbn [obind]. rewrite <- E. by injection Ex as ->.
Qed.

(** The value is not the new struct. *)
Lemma inline_value_new H H1 jv rhs rty rd rl bs : grows H H1 -> objects H !! jv = None -> inline_value alloc junk B H 0 rhs rty rd rl bs -> inline_value alloc junk B H1 jv rhs rty rd rl bs.
Proof.
  intros Hg Hf Hiv. apply (inline_value_grows H H1 0); [done | | done]. intros ->. destruct (in_data _ _ _ _ _ _ _ _ _ _ Hiv) as (hr & rdata & [b Hr] & _). congruence.
Qed.

(** Where the arguments go in a new object. *)
Lemma places H H1 ty d ly jv lk : struct_type H ty d ly -> grows H H1 -> objects H !! jv = None -> jl_typeof H1 jv = Ok ty ->
  (forall k, 0 <= k < nfields ly -> exists fd fld i, field_view depth H d ly k fd fld i /\ fields ly !! Z.to_nat k = Some fd /\ 0 <= fd_size fd /\
    (lk = true -> sizeof_jl_mutex_t <= fd_offset fd) /\ (fi_isatomic i = true -> MAX_ATOMIC_SIZE < fd_size fd -> lk = true)) ->
  forall args ws k, 0 <= k -> k + Z.of_nat (length args) <= nfields ly -> args_fit H d ly k args ws ->
  exists ps, all_go ty jv d (size ly) lk H1 k args ps /\ length ps = length args /\
    forall j p, ps !! j = Some p -> fields ly !! (Z.to_nat k + j)%nat = Some (pl_fd p) /\ ws !! j = Some (pl_value p).
Proof.
  intros Hst Hg Hf Hty Hfields. pose proof (grows_change _ _ Hg) as V. induction args as [| x args IH]; intros [| w ws] k Hk Hl Hfit; try done; [by exists [] |].
  destruct Hfit as [Hx Hfit]. cbn [length] in Hl. destruct (Hfields k ltac:(lia)) as (fd & fld & i & Hfv & Efd & Hs0 & Hlk & Hat).
  destruct (IH ws (k + 1) ltac:(lia) ltac:(lia) Hfit) as (ps & Hgo & Hlen & Hps). set (p := Place fd fld (fi_isatomic i) w). exists (p :: ps).
  split; [| split; [cbn; lia |]].
  - split; [| split; [| done]].
    + split; cbn [p pl_fd pl_fld pl_atomic pl_value]; [| | pose proof (fv_range _ _ _ _ _ _ _ _ Hfv); lia | done | done].
      * split; [done | by apply (vc_datatype H H1), Hst | | by apply (vc_field_desc H H1), Hfv | by apply (vc_field_type H H1), Hfv | by apply (vc_isatomic H H1), Hfv].
        exists (nfields ly). split; [| lia]. unfold jl_datatype_nfields. by rewrite (vc_layout H H1 V depth d ly (struct_type_layout _ _ _ _ Hst)).
      * apply (storable_later depth alloc junk B H H1 0); [done | intros; by apply (inline_value_new H) |].
        apply (value_storable depth alloc junk B H d ly k fd fld i); [done | apply Hst | by right | by eapply Hx].
    + apply Forall_lookup. intros j q Ej. destruct (Hps j q Ej) as [Efj _]. destruct (sty_fields _ _ _ _ Hst) as (? & ? & ? & fs & _ & _ & _ & _ & Hspec).
      cbn [p pl_fd]. apply (ls_disjoint _ _ Hspec (Z.to_nat k) (Z.to_nat (k + 1) + j)%nat); [lia | done | done].
  - intros [| j] q Eq; cbn in Eq; [injection Eq as <-; rewrite Nat.add_0_r; done |]. destruct (Hps j q Eq) as [E1 E2]. split; [| done].
    rewrite <- E1. f_equal. lia.
Qed.

Lemma slice_zeros n o m : 0 <= o -> 0 <= m -> o + m <= Z.of_nat n -> slice (replicate n 0) o m = replicate (Z.to_nat m) 0.
Proof. intros Ho Hm Hn. unfold slice. rewrite drop_replicate, take_replicate. f_equal. lia. Qed.

(** The first step of the constructors: an object whose bytes before the
    fields, the lock among them, are zero. *)
Lemma new_cleared H ty d ly lk : struct_type H ty d ly ->
  (forall k, 0 <= k < nfields ly -> exists fd fld i, field_view depth H d ly k fd fld i /\ fields ly !! Z.to_nat k = Some fd /\ 0 <= fd_size fd /\
    (lk = true -> sizeof_jl_mutex_t <= fd_offset fd) /\ (fi_isatomic i = true -> MAX_ATOMIC_SIZE < fd_size fd -> lk = true)) ->
  exists jv H1 H2 data, alloc_tagged alloc junk (size ly) ty H = Ok (Ret jv, H1) /\ clear_start depth ty jv H1 = Ok (Ret tt, H2) /\ jv <> 0 /\ objects H !! jv = None /\
    grows H H2 /\ jl_typeof H2 jv = Ok ty /\ holder H2 jv (header_of ty d) data /\ size ly <= Z.of_nat (length data) /\ (lk = true -> unlocked data).
Proof.
  intros Hst Hfields. pose proof (struct_type_size _ _ _ _ Hst) as Hsz. pose proof (word_align (size ly) Hsz) as [Hw _].
  destruct (alloc_tagged_spec alloc junk alloc_fresh alloc_nonnull H ty d (size ly) (sty_datatype _ _ _ _ Hst) Hsz) as (jv & H1 & data & E1 & Hn0 & Hf & Hg & Hd & Hl & Hb & _).
  assert (Hh : holder H1 jv (header_of ty d) data) by (split; [done | done | apply Hst]). pose proof (grows_change _ _ Hg) as V1.
  assert (Hty : forall H2 data2, grows H H2 -> has_data H2 jv (header_of ty d) data2 -> jl_typeof H2 jv = Ok ty).
  { intros H2 data2 Hg2 Hd2. unfold jl_typeof. rewrite (has_data_typetag H2 jv _ _ Hd2). cbn [obind]. unfold jl_to_typeof. rewrite (vc_global H H2 (grows_change _ _ Hg2) small_typeof) by done. apply Hst. }
  destruct (Hfields 0 ltac:(pose proof (sty_nonempty _ _ _ _ Hst); lia)) as (fd & fld & i & Hfv & _ & Hs0 & Hlk & _). pose proof (fv_range _ _ _ _ _ _ _ _ Hfv).
  assert (Ec : clear_start depth ty jv H1 = (if negb (fd_offset fd =? 0) then memset0 (jv, 0) (fd_offset fd) else ret tt) H1).
  { unfold clear_start. rewrite (datatype_Ok ty d) by (by apply (vc_datatype H H1), Hst).
    rewrite (bind_reads_Ok _ _ H1 (fd_offset fd)) by (apply offset_Ok, (vc_field_desc H H1); [done | apply Hfv]). done. }
  destruct (Z.eqb_spec (fd_offset fd) 0) as [E0 | E0]; cbn [negb] in Ec.
  - exists jv, H1, H1, data. repeat (split; [done || lia || by eapply Hty |]). intros E%Hlk. unfold sizeof_jl_mutex_t in E. lia.
  - destruct (memset0_spec H1 jv _ data 0 (fd_offset fd) Hh) as (H2 & E2 & W2 & Hh2); [lia | lia | lia |]. rewrite E2 in Ec.
    assert (Hg2 : grows H H2) by (by eapply grows_wrote).
    exists jv, H1, H2, (splice data 0 (replicate (Z.to_nat (fd_offset fd)) 0)). do 5 (split; [done |]). split; [eapply Hty; [done | apply Hh2] |]. split; [done |].
    split; [rewrite length_splice by (rewrite ?length_replicate; lia); lia |]. intros E%Hlk. unfold sizeof_jl_mutex_t in E. unfold unlocked.
    rewrite slice_splice_in by (rewrite ?length_replicate; lia). apply slice_zeros; lia.
Qed.

(** A new struct [jv] with the values [args] in its first fields. *)
Record built (H H' : heap) (jv ty : ptr) (d : jl_datatype_t) (ly : jl_datatype_layout_t) (data : list Z) (args : list ptr) (ws : list (option (ptr * list Z))) : Prop := {
  bu_nonnull : jv <> 0;
  bu_fresh : objects H !! jv = None;
  bu_grows : grows H H';
  bu_type : jl_typeof H' jv = Ok ty;
  bu_holder : holder H' jv (header_of ty d) data;
  bu_size : size ly <= Z.of_nat (length data);
  bu_fields : forall j x w, args !! j = Some x -> ws !! j = Some w -> exists fd fld a, fields ly !! j = Some fd /\ 0 <= fd_size fd /\
    access depth H' jv ty d (Z.of_nat j) fd fld a /\ field_holds depth alloc junk B H' data fd fld a x w /\ (a = true -> MAX_ATOMIC_SIZE < fd_size fd -> unlocked data)
}.

(** Its fields are read back. *)
Lemma built_read H H' jv ty d ly data args ws j x w : boxes_ok B H -> built H H' jv ty d ly data args ws -> args !! j = Some x -> ws !! j = Some w ->
  exists r H2, jl_get_nth_field depth alloc junk self B jv (Z.of_nat j) H' = Ok (Ret r, H2) /\ reads_as H2 r x w.
Proof.
  intros HB Hbu Hx Hw. destruct (bu_fields _ _ _ _ _ _ _ _ _ Hbu j x w Hx Hw) as (fd & fld & a & _ & _ & Hac & Hh & _). pose proof (bu_holder _ _ _ _ _ _ _ _ _ Hbu) as Hho.
  destruct (get_holds depth alloc junk self B alloc_fresh alloc_nonnull Hself H' jv ty d (Z.of_nat j) fd fld a (header_of ty d) data x w) as (r & H2 & E & Hr & _);
    [eapply boxes_ok_grows; [apply Hbu | done] | done | apply Hho | apply Hho | apply Hho | done |]. by exists r, H2.
Qed.

Lemma args_fit_length H d ly args : forall ws k, args_fit H d ly k args ws -> length ws = length args.
Proof. induction args as [| x args IH]; intros [| w ws] k; cbn; try done. intros [_ Hf]. f_equal. by eapply IH. Qed.

(** All the steps that constructors share. *)
Lemma new_filled H ty d ly args ws : struct_type H ty d ly -> Z.of_nat (length args) <= nfields ly -> args_fit H d ly 0 args ws ->
  exists jv H1 H2 H3 data, alloc_tagged alloc junk (size ly) ty H = Ok (Ret jv, H1) /\ clear_start depth ty jv H1 = Ok (Ret tt, H2) /\
    set_fields depth self ty jv 0 args H2 = Ok (Ret tt, H3) /\ built H H3 jv ty d ly data args ws.
Proof.
  intros Hst Hlen Hfit. destruct (struct_fields depth H d ly (struct_type_layout _ _ _ _ Hst) (sty_fields _ _ _ _ Hst) (sty_inline _ _ _ _ Hst)) as [lk Hfields].
  destruct (new_cleared H ty d ly lk Hst Hfields) as (jv & H1 & H2 & data & E1 & E2 & Hn0 & Hf & Hg & Hty & Hh & Hsz & Hun).
  destruct (places H H2 ty d ly jv lk Hst Hg Hf Hty Hfields args ws 0 ltac:(lia) ltac:(lia) Hfit) as (ps & Hgo & Hps & Hpl).
  destruct (set_fields_spec ty jv (header_of ty d) d (size ly) lk args ps 0 H2 data Hh Hsz Hun Hgo) as (H3 & data3 & E3 & W3 & Hb3 & Hl3 & Hun3 & Hh3 & _).
  pose proof (wrote_change _ _ _ _ _ _ (ho_data _ _ _ _ Hh) (ho_header _ _ _ _ Hh) W3) as V3.
  exists jv, H1, H2, H3, data3. do 3 (split; [done |]). split; [done | done | by eapply grows_wrote | by apply (vc_typeof H2 H3) | split; [apply W3 | done | apply Hh] | lia |].
  intros j x w Hx Hw. destruct (lookup_lt_is_Some_2 ps j) as [p Hp]; [apply lookup_lt_Some in Hx; lia |]. destruct (Hpl j p Hp) as [Efd Ew].
  rewrite Hw in Ew. injection Ew as ->. pose proof (all_go_lookup ty jv d (size ly) lk H2 ps args 0 j x p Hgo Hx Hp) as [Ga Gv Gr Gl Gat].
  rewrite Z.add_0_l in Ga. exists (pl_fd p), (pl_fld p), (pl_atomic p). split; [done |]. split; [lia |]. split; [by apply (access_change depth H2) |]. split; [by eapply Hh3 |].
  intros Ha Hbig. by apply Hun3, Gat.
Qed.

Lemma constructible_type H ty d ly : struct_type H ty d ly -> constructible ty H = Ok (Ret true, H).
Proof.
  intros Hst. unfold constructible. rewrite (bind_reads_Ok _ _ H true) by apply Hst. cbn [negb]. rewrite (datatype_Ok ty d) by apply Hst.
  unfold is_opaque_or_unset. by rewrite (sty_concrete _ _ _ _ Hst), (sty_layout _ _ _ _ Hst), (sty_opaque _ _ _ _ Hst).
Qed.

Lemma struct_type_sizeof H ty d ly : struct_type H ty d ly -> jl_datatype_size H depth ty = Ok (size ly).
Proof. intros Hst. unfold jl_datatype_size. rewrite (sty_datatype _ _ _ _ Hst). cbn [obind]. by rewrite (struct_type_layout _ _ _ _ Hst). Qed.

Lemma struct_type_nfields H ty d ly : struct_type H ty d ly -> jl_datatype_nfields H depth d = Ok (nfields ly).
Proof. intros Hst. unfold jl_datatype_nfields. by rewrite (struct_type_layout _ _ _ _ Hst). Qed.

(** [jl_new_struct] *)
Lemma new_struct_built H ty d ly args ws : struct_type H ty d ly -> nfields ly <= Z.of_nat (length args) -> args_fit H d ly 0 (take (Z.to_nat (nfields ly)) args) ws ->
  exists jv H' data, jl_new_struct depth alloc junk self ty args H = Ok (Ret jv, H') /\ built H H' jv ty d ly data (take (Z.to_nat (nfields ly)) args) ws.
Proof.
  intros Hst Hlen Hfit. pose proof (sty_nonempty _ _ _ _ Hst).
  destruct (new_filled H ty d ly (take (Z.to_nat (nfields ly)) args) ws Hst ltac:(rewrite length_take; lia) Hfit) as (jv & H1 & H2 & H3 & data & E1 & E2 & E3 & Hbu). exists jv, H3, data. split; [| done].
  unfold jl_new_struct. rewrite (bind_Ret _ _ _ _ _ (constructible_type _ _ _ _ Hst)). cbn [negb]. rewrite (datatype_Ok ty d) by apply Hst.
  rewrite (sty_instance _ _ _ _ Hst). cbn [Z.eqb negb]. rewrite (bind_reads_Ok _ _ H (nfields ly)) by (by eapply struct_type_nfields).
  rewrite (bind_reads_Ok _ _ H (size ly)) by (by eapply struct_type_sizeof). rewrite (bind_Ret _ _ _ _ _ E1). rewrite (proj2 (Z.ltb_lt 0 _)) by done.
  rewrite (bind_Ret _ _ _ _ _ E2). destruct (Z.ltb_spec (Z.of_nat (length args)) (nfields ly)); [lia |]. by rewrite (bind_Ret _ _ _ _ _ E3).
Qed.

(** Zeros behind the fields that have values. *)
Lemma built_zeros H H' jv ty d ly data args ws o : built H H' jv ty d ly data args ws -> 0 <= o <= size ly ->
  (forall j fd, (j < length args)%nat -> fields ly !! j = Some fd -> 0 <= fd_offset fd /\ fd_offset fd + fd_size fd <= o) ->
  exists H2, memset0 (jv, o) (size ly - o) H' = Ok (Ret tt, H2) /\ built H H2 jv ty d ly (splice data o (replicate (Z.to_nat (size ly - o)) 0)) args ws.
Proof.
  intros Hbu Ho Hb. pose proof (bu_holder _ _ _ _ _ _ _ _ _ Hbu) as Hh. pose proof (bu_size _ _ _ _ _ _ _ _ _ Hbu) as Hs. pose proof (bu_grows _ _ _ _ _ _ _ _ _ Hbu) as Hg.
  destruct (memset0_spec H' jv _ data o (size ly - o) Hh) as (H2 & E2 & W2 & Hh2); [lia | lia | lia |]. exists H2. split; [done |].
  pose proof (wrote_change _ _ _ _ _ _ (ho_data _ _ _ _ Hh) (ho_header _ _ _ _ Hh) W2) as V2.
  split; [apply Hbu | apply Hbu | eapply grows_wrote; [exact Hg | apply Hbu | exact W2] | apply (vc_typeof H' H2 V2), Hbu | done | rewrite length_splice by (rewrite ?length_replicate; lia); lia |].
  intros j x w Hx Hw. destruct (bu_fields _ _ _ _ _ _ _ _ _ Hbu j x w Hx Hw) as (fd & fld & a & Efd & Hs0 & Hac & Hfh & Hu). destruct (Hb j fd (lookup_lt_Some _ _ _ Hx) Efd) as [Hof Hend].
  assert (Hun2 : MAX_ATOMIC_SIZE < fd_size fd -> unlocked data -> unlocked (splice data o (replicate (Z.to_nat (size ly - o)) 0))).
  { unfold unlocked, MAX_ATOMIC_SIZE. intros Hbig Hul. rewrite slice_splice_other; rewrite ?length_replicate; (done || lia). }
  exists fd, fld, a. split; [done |]. split; [done |]. split; [by apply (access_change depth H') |]. split; [| intros Ha Hbig; by apply Hun2, Hu].
  apply (holds_frame depth alloc junk B H' H2 data); [done | apply length_splice; rewrite ?length_replicate; lia | done | | intros Hul _ Hbig; by apply Hun2 | done].
  intros o2 n Ho2 Hn Hin. apply slice_splice_other; rewrite ?length_replicate; lia.
Qed.

(** The number of arguments a constructor takes. *)
Definition arity_ok (H : heap) (d : jl_datatype_t) (ly : jl_datatype_layout_t) (n : nat) : Prop :=
  exists nm, get_typename H (dt_name d) = Ok nm /\ 0 <= tn_n_uninitialized nm <= nfields ly /\ nfields ly < 2 ^ 32 /\
    nfields ly - tn_n_uninitialized nm <= Z.of_nat n <= nfields ly.

Lemma check_args_isa (jl_isa : heap -> ptr -> ptr -> outcome bool) H d args : forall k,
  (forall j x, args !! j = Some x -> exists fld, jl_field_type_concrete H d (k + Z.of_nat j) = Ok fld /\ jl_isa H x fld = Ok true) ->
  check_args jl_isa d k args H = Ok (Ret tt, H).
Proof.
  induction args as [| x args IH]; intros k Hisa; [done |]. cbn [check_args]. destruct (Hisa 0%nat x eq_refl) as (fld & Ef & Ei). rewrite Z.add_0_r in Ef.
  rewrite (bind_reads_Ok _ _ H fld) by done. unfold check_isa. rewrite bind_bind, (bind_reads_Ok _ _ H true) by done. rewrite bind_ret. apply IH.
  intros j y Ey. destruct (Hisa (S j) y Ey) as (fld' & E1 & E2). exists fld'. split; [| done]. rewrite <- E1. f_equal. lia.
Qed.

Lemma struct_type_field H ty d ly k : struct_type H ty d ly -> 0 <= k < nfields ly -> exists fd fld i, field_view depth H d ly k fd fld i /\ fields ly !! Z.to_nat k = Some fd /\ 0 <= fd_size fd.
Proof.
  intros Hst Hk. destruct (struct_fields depth H d ly (struct_type_layout _ _ _ _ Hst) (sty_fields _ _ _ _ Hst) (sty_inline _ _ _ _ Hst)) as [lk Hf].
  destruct (Hf k Hk) as (fd & fld & i & ? & ? & ? & _). by exists fd, fld, i.
Qed.

(** [jl_new_structv]: the fields without a value are zero. *)
Lemma new_structv_built (jl_isa : heap -> ptr -> ptr -> outcome bool) H ty d ly args ws : struct_type H ty d ly -> arity_ok H d ly (length args) ->
  (forall j x, args !! j = Some x -> exists fld, jl_field_type_concrete H d (Z.of_nat j) = Ok fld /\ jl_isa H x fld = Ok true) -> args_fit H d ly 0 args ws ->
  exists jv H' data, jl_new_structv depth alloc junk self jl_isa ty args H = Ok (Ret jv, H') /\ built H H' jv ty d ly data args ws /\
    forall k fd, (length args <= k)%nat -> fields ly !! k = Some fd -> slice data (fd_offset fd) (fd_size fd) = replicate (Z.to_nat (fd_size fd)) 0.
Proof.
  intros Hst (nm & En & Hu & Hnf & Hlo & Hhi) Hisa Hfit. pose proof (sty_nonempty _ _ _ _ Hst) as Hn.
  destruct (new_filled H ty d ly args ws Hst Hhi Hfit) as (jv & H1 & H2 & H3 & data & E1 & E2 & E3 & Hbu).
  assert (Estart : jl_new_structv depth alloc junk self jl_isa ty args H = ((if Z.of_nat (length args) <? nfields ly then
      let* offs := reads (fun H => jl_field_offset H depth d (Z.of_nat (length args))) in memset0 (jv, offs) (size ly - offs) else ret tt) ;; ret jv) H3).
  { unfold jl_new_structv. rewrite (bind_Ret _ _ _ _ _ (constructible_type _ _ _ _ Hst)). cbn [negb]. rewrite (datatype_Ok ty d) by apply Hst.
    rewrite (bind_reads_Ok _ _ H (nfields ly)) by (by eapply struct_type_nfields). unfold typename_of. rewrite (bind_reads_Ok _ _ H nm) by done. rewrite u64_small by lia.
    destruct (Z.ltb_spec (Z.of_nat (length args)) (nfields ly - tn_n_uninitialized nm)); [lia |]. destruct (Z.ltb_spec (nfields ly) (Z.of_nat (length args))); [lia |]. cbn [orb].
    rewrite (bind_Ret _ _ _ _ _ (check_args_isa jl_isa H d args 0 Hisa)). rewrite (sty_instance _ _ _ _ Hst). cbn [Z.eqb negb].
    rewrite (bind_reads_Ok _ _ H (size ly)) by (by eapply struct_type_sizeof). rewrite (bind_Ret _ _ _ _ _ E1). rewrite (proj2 (Z.ltb_lt 0 _)) by done.
    rewrite (bind_Ret _ _ _ _ _ E2). by rewrite (bind_Ret _ _ _ _ _ E3). }
  rewrite Estart. destruct (sty_fields _ _ _ _ Hst) as (? & ? & ? & fs & _ & _ & _ & _ & Hspec). destruct (ls_nfields _ _ Hspec) as [Hnf1 Hnf2].
  destruct (Z.ltb_spec (Z.of_nat (length args)) (nfields ly)) as [Hlt | Hge].
  - destruct (struct_type_field H ty d ly (Z.of_nat (length args)) Hst ltac:(lia)) as (fd & fld & i & Hfv & Efd & Hs0). rewrite Nat2Z.id in Efd.
    pose proof (fv_range _ _ _ _ _ _ _ _ Hfv) as Hr. pose proof (grows_change _ _ (bu_grows _ _ _ _ _ _ _ _ _ Hbu)) as V.
    rewrite bind_bind, (bind_reads_Ok _ _ H3 (fd_offset fd)) by (apply offset_Ok, (vc_field_desc H H3); [done | apply Hfv]).
    destruct (built_zeros H H3 jv ty d ly data args ws (fd_offset fd) Hbu ltac:(lia)) as (H4 & E4 & Hbu4).
    { intros j fdj Hj Ej. split; [| by apply (ls_disjoint _ _ Hspec j (length args))]. by apply (fv_others _ _ _ _ _ _ _ _ Hfv j fdj ltac:(lia) Ej). }
    rewrite (bind_Ret _ _ _ _ _ E4). eexists jv, H4, _. split; [done |]. split; [exact Hbu4 |]. intros k fdk Hk Ek.
    assert (Hge : fd_offset fd <= fd_offset fdk /\ 0 <= fd_size fdk).
    { destruct (decide (k = length args)) as [-> | Hne]; [rewrite Efd in Ek; by injection Ek as <- |].
      pose proof (ls_disjoint _ _ Hspec (length args) k fd fdk ltac:(lia) Efd Ek). destruct (fv_others _ _ _ _ _ _ _ _ Hfv k fdk ltac:(lia) Ek) as (_ & ? & _). lia. }
    destruct (lookup_lt_is_Some_2 fs k) as [ik Eik]; [apply lookup_lt_Some in Ek; lia |]. destruct (ls_field _ _ Hspec k ik fdk Eik Ek) as (_ & _ & _ & _ & Hend).
    pose proof (bu_size _ _ _ _ _ _ _ _ _ Hbu). rewrite slice_splice_in; rewrite ?length_replicate; try lia. apply slice_zeros; lia.
  - rewrite bind_ret. exists jv, H3, data. split; [done |]. split; [done |]. intros k fd Hk Ek. apply lookup_lt_Some in Ek. lia.
Qed.

(** Reading a reference that was not set. *)
Lemma built_unset H H' jv ty d ly data args ws k fd : struct_type H ty d ly -> built H H' jv ty d ly data args ws -> fields ly !! k = Some fd -> fd_isptr fd = true ->
  slice data (fd_offset fd) (fd_size fd) = replicate (Z.to_nat (fd_size fd)) 0 ->
  jl_get_nth_field_checked depth alloc junk self B jv (Z.of_nat k) H' = Ok (Throw undefref_exception, H').
Proof.
  intros Hst Hbu Ek Hp Hz. destruct (sty_fields _ _ _ _ Hst) as (? & ? & ? & fs & _ & _ & _ & _ & Hspec). destruct (ls_nfields _ _ Hspec) as [Hn1 Hn2].
  pose proof (lookup_lt_Some _ _ _ Ek) as Hlt. pose proof (grows_change _ _ (bu_grows _ _ _ _ _ _ _ _ _ Hbu)) as V.
  destruct (struct_type_field H ty d ly (Z.of_nat k) Hst ltac:(lia)) as (fd' & fld & i & Hfv & Efd & _). rewrite Nat2Z.id, Ek in Efd. injection Efd as <-.
  pose proof (field_isptr_size _ _ _ _ _ _ _ _ Hfv Hp) as H8. pose proof (fv_range _ _ _ _ _ _ _ _ Hfv). pose proof (bu_size _ _ _ _ _ _ _ _ _ Hbu).
  assert (Hac : access depth H' jv ty d (Z.of_nat k) fd fld (fi_isatomic i)).
  { split; [apply Hbu | by apply (vc_datatype H H'), Hst | | by apply (vc_field_desc H H'), Hfv | by apply (vc_field_type H H'), Hfv | by apply (vc_isatomic H H'), Hfv].
    exists (nfields ly). split; [| lia]. unfold jl_datatype_nfields. by rewrite (vc_layout H H' V depth d ly (struct_type_layout _ _ _ _ Hst)). }
  unfold jl_get_nth_field_checked. rewrite (bind_Ret _ _ H' 0 H'); [done |]. rewrite (get_start depth alloc junk self B H' jv ty d (Z.of_nat k) fd fld _ Hac), Hp.
  unfold Bits.load, reads. rewrite (load_uint_data H' jv (header_of ty d) data) by (apply (ho_data _ _ _ _ (bu_holder _ _ _ _ _ _ _ _ _ Hbu)) || lia).
  rewrite H8 in Hz. rewrite Hz. done.
Qed.
End Construct.
