(* ===== verification/FieldsSound.v ===== *)
(** * What fields are good for

    The theorems about reading and writing fields, constructors, boxes and
    the components of unions, with a heap on which they are used, and the
    case in which modifying a field goes wrong. *)

From stdpp Require Import base gmap numbers option fin_maps list.
From Stdlib Require Import ZArith Lia.
From S2P Require Import Prelude Probe Identity Hashing HashingFacts Bytes Objects Egal EgalFacts HeapMonad LayoutCore LayoutCoreFacts Layout LayoutHeap LayoutFacts LayoutSound Bits Fields BitsFacts BoxCaches FieldsFacts Construct.

(** What the descriptor says of a field is its view. *)
Lemma view_of depth H v st d ly h data k fd fld a : struct_at depth H v st d ly h data -> 0 <= k < nfields ly -> field_desc H depth d k = Ok fd ->
  jl_field_type_concrete H d k = Ok fld -> jl_field_isatomic H d k = Ok a -> exists i, field_view depth H d ly k fd fld i /\ fi_isatomic i = a.
Proof.
  intros Hsa Hk Ed Ef Ea. destruct (struct_field depth H v st d ly h data k Hsa Hk) as (fd' & fld' & i & Hfv & _). exists i.
  pose proof (fv_desc _ _ _ _ _ _ _ _ Hfv) as E1. pose proof (fv_type _ _ _ _ _ _ _ _ Hfv) as E2. pose proof (fv_atomic _ _ _ _ _ _ _ _ Hfv) as E3.
  rewrite Ed in E1. rewrite Ef in E2. rewrite Ea in E3. injection E1 as <-. injection E2 as <-. by injection E3 as ->.
Qed.

(** ** The theorems *)

(** C7: What is stored in a field is read back. In a struct with a layout of its own, storing a value
    of the field's type, as a reference, inline, or in an inline union, atomically if the field is
    atomic and under the lock if it is a large one, succeeds; it changes no other field and no other
    object, and reading the field then gives the reference, or a value of the same type with the same
    bytes. *)
Theorem set_get_field (depth : nat) alloc junk self B H v st d ly h data k fd fld a rhs w :
  (forall H sz, objects H !! alloc H sz = None) -> (forall H sz, alloc H sz <> 0) -> 0 < self < 2 ^ 64 ->
  boxes_ok B H -> not_a_box B v -> struct_at depth H v st d ly h data -> 0 <= k < nfields ly ->
  field_desc H depth d k = Ok fd -> jl_field_type_concrete H d k = Ok fld -> jl_field_isatomic H d k = Ok a ->
  field_value depth alloc junk B H v fd fld a rhs w -> (a = true -> MAX_ATOMIC_SIZE < fd_size fd -> unlocked data) ->
  exists H1 data1 r H2, set_nth_field depth self st v k rhs a H = Ok (Ret tt, H1) /\ wrote H H1 v h data1 /\
    (forall j fdj, Z.of_nat j <> k -> fields ly !! j = Some fdj -> slice data1 (fd_offset fdj) (fd_size fdj) = slice data (fd_offset fdj) (fd_size fdj)) /\
    jl_get_nth_field depth alloc junk self B v k H1 = Ok (Ret r, H2) /\ reads_as H2 r rhs w.
Proof.
  intros Hf Hn Hs HB Hnb Hsa Hk Ed Ef Ea Hv Hun. destruct (view_of _ _ _ _ _ _ _ _ _ _ _ _ Hsa Hk Ed Ef Ea) as (i & Hfv & <-).
  by eapply set_get.
Qed.

(** C8: A constructor makes what its arguments say. If the arguments are of the types of the fields
    and as many as the type requires, [jl_new_structv] returns a new object of the type and changes
    no other; every field that has an argument reads as it, and reading a reference without one
    throws [UndefRefError]. *)
Theorem new_structv_fields (depth : nat) alloc junk self B jl_isa H ty d ly args ws :
  (forall H sz, objects H !! alloc H sz = None) -> (forall H sz, alloc H sz <> 0) -> 0 < self < 2 ^ 64 ->
  boxes_ok B H -> struct_type depth H ty d ly -> arity_ok H d ly (length args) ->
  (forall j x, args !! j = Some x -> exists fld, jl_field_type_concrete H d (Z.of_nat j) = Ok fld /\ jl_isa H x fld = Ok true) ->
  args_fit depth alloc junk B H d ly 0 args ws ->
  exists jv H', jl_new_structv depth alloc junk self jl_isa ty args H = Ok (Ret jv, H') /\ objects H !! jv = None /\ grows H H' /\ jl_typeof H' jv = Ok ty /\
    (forall j x w, args !! j = Some x -> ws !! j = Some w ->
       exists r H2, jl_get_nth_field depth alloc junk self B jv (Z.of_nat j) H' = Ok (Ret r, H2) /\ reads_as H2 r x w) /\
    (forall k fd, (length args <= k)%nat -> fields ly !! k = Some fd -> fd_isptr fd = true ->
       jl_get_nth_field_checked depth alloc junk self B jv (Z.of_nat k) H' = Ok (Throw undefref_exception, H')).
Proof.
  intros Hf Hn Hs HB Hst Har Hisa Hfit.
  destruct (new_structv_built depth alloc junk self B Hf Hn Hs jl_isa H ty d ly args ws Hst Har Hisa Hfit) as (jv & H' & data & E & Hbu & Hz).
  exists jv, H'. split; [done |]. do 3 (split; [apply Hbu |]). split; [intros j x w Hx Hw; by eapply built_read |].
  intros k fd Hk Ek Hp. eapply built_unset; [exact Hst | exact Hbu | done | done | by eapply Hz].
Qed.

(** [jl_init_box_caches] never fails, keeps all objects, and leaves caches whose entry for a
    number is an object of the type that holds that number: what boxing, reading fields and atomic
    operations take from the caches. *)
Theorem init_box_caches_correct alloc junk H tru fls :
  (forall H sz, objects H !! alloc H sz = None) -> (forall H sz, alloc H sz <> 0) ->
  is_value H tru (small_typeof H jl_bool_tag) [1] -> is_value H fls (small_typeof H jl_bool_tag) [0] ->
  exists B H', jl_init_box_caches alloc junk tru fls H = Ok (Ret B, H') /\ grows H H' /\ boxes_ok B H'.
Proof.
  intros Hf Hn Ht Hfl. destruct (init_box_caches_spec alloc junk Hf Hn H tru fls Ht Hfl) as (B & H' & E & A & HB & _). exists B, H'. split; [done |]. split; [apply A | done].
Qed.

(** C37: The selector of an inline union: the number [jl_find_union_component] finds leads back to the
    component by [jl_nth_union_component], and is the first that does; a type that is not found is
    no component. *)
Theorem union_component_roundtrip (H : heap) (depth : nat) ty x c found i :
  union_count H depth ty = Ok c -> c < 2 ^ 32 -> jl_find_union_component H depth ty x = Ok (found, i) ->
  (if found : bool then 0 <= i < c /\ jl_nth_union_component H depth ty i = Ok (Some x) else i = c) /\
  forall j y, 0 <= j -> (found = true -> j < i) -> jl_nth_union_component H depth ty j = Ok (Some y) -> y <> x.
Proof.
  intros Hc Hb Hf. pose proof (find_nth H depth ty c x 0 found i Hc ltac:(lia) ltac:(lia) Hf) as Hn. split.
  - destruct found; [| lia]. destruct Hn as [Hi Hn]. rewrite Z.sub_0_r in Hn. split; [lia |]. unfold jl_nth_union_component. by rewrite Hn.
  - intros j y Hj Hlt ([r z] & En & [= ->])%obind_Ok_inv. by eapply (find_first H depth ty c x 0 found i j y z Hc); [lia | lia | exact Hf | done | |].
Qed.

(** C36: A number that is boxed is unboxed again: for every type whose small values are cached (all
    widths of integers, characters, booleans), the box of a number, from the cache or new, is an
    object of the type, and unboxing it gives the number. *)
Theorem box_unbox (depth : nat) alloc junk B H t w box x :
  (forall H sz, objects H !! alloc H sz = None) -> (forall H sz, alloc H sz <> 0) -> boxes_ok B H -> pooled alloc junk B (Some t) = Some (w, box) ->
  jl_is_primitivetype H (small_typeof H t) = Ok true -> jl_datatype_size H depth (small_typeof H t) = Ok w -> 0 <= x < 2 ^ (8 * w) -> (t = jl_bool_tag -> x <= 1) ->
  exists p H', box x H = Ok (Ret p, H') /\ jl_typeof H' p = Ok (small_typeof H t) /\ UNBOX_FUNC depth w p H' = Ok (Ret x, H').
Proof.
  intros Hf Hn HB Hp Hprim Hsz Hx Hbool. assert (Hw : 0 < w) by (destruct t; try done; by injection Hp as <- _).
  assert (Ex : le_word (le_bytes (Z.to_nat w) x) = x) by (rewrite le_word_le_bytes, Z2Nat.id, Z.mod_small; (done || lia)).
  destruct (pooled_makes alloc junk B Hf Hn H t w box (le_bytes (Z.to_nat w) x) HB Hp) as (p & H' & E & Hg & [Hv0 Hty Hd]); [apply le_bytes_bytes | rewrite length_le_bytes; lia | |].
  { intros ->. injection Hp as <- _. specialize (Hbool eq_refl). assert (x = 0 \/ x = 1) as [-> | ->] by lia; [by left | by right]. }
  rewrite Ex in E. exists p, H'. split; [done |]. split; [done |]. pose proof (grows_change _ _ Hg) as V. unfold UNBOX_FUNC.
  rewrite (bind_reads_Ok _ _ H' _ Hty). rewrite (bind_reads_Ok _ _ H' true).
  - cbn [negb]. rewrite (bind_reads_Ok _ _ H' w) by (by apply (vc_size H H' V)). rewrite Z.eqb_refl. cbn [negb]. rewrite length_le_bytes, Z2Nat.id in Hd by lia.
    unfold Bits.load, reads. rewrite (le_word_load H' (p, 0) w _ Hd), Ex. done.
  - apply obind_Ok_inv in Hprim as (b & Eb & E2). unfold jl_is_primitivetype, jl_is_datatype. rewrite (vc_is_tag H H' V _ _ _ Eb). cbn [obind]. destruct b; [| done].
    apply obind_Ok_inv in E2 as (d & Ed & E2). by rewrite (vc_datatype H H' V _ _ Ed).
Qed.

(** ** A heap

    The types of [LayoutSound] and
    [mutable struct Rec; x::Int8; @atomic inner::Inner; u::Union{Int8,Int64}; next::String end],
    whose constructors may leave out [next], with an instance at 9200, and
    values to store in it. *)
Definition Rec : Z := 17472.
Definition demo_inner : list Z := le_bytes 8 7 ++ le_bytes 8 5 ++ le_bytes 8 1 ++ le_bytes 8 9056.

Definition demo_objects : list (Z * obj) :=
  [(Rec, demo_small jl_datatype_tag (BDatatype (Datatype (Rec + 16384) 8192 (Rec + 32768) 0 None 0 true false false false false true false false 0)));
   (Rec + 16384, Obj 0 4096 (BTypename (Typename Rec Rec false true false 1 (Some [2]) None)));
   (Rec + 32768, demo_small jl_simplevector_tag (BSvec [Int8; Inner; Union_Int8_Int64; String]));
   (9200, Obj 0 Rec (BData (replicate 80 0)));
   (9216, Obj 0 Inner (BData demo_inner));
   (9232, demo_small jl_int8_tag (BData (le_bytes 8 (-3))));
   (9248, demo_small jl_int64_tag (BData (le_bytes 8 1000000)));
   (9264, demo_small jl_bool_tag (BData (le_bytes 8 1)));
   (9280, demo_small jl_bool_tag (BData (le_bytes 8 0)))].

Definition rec_types : heap := with_objects demo_types (list_to_map demo_objects ∪ objects demo_types).
Definition rec_rank (p : ptr) : nat := if p =? Rec then 2 else demo_rank p.
Definition rec_alloc (H : heap) (_ : Z) : ptr := fresh ({[0]} ∪ dom (objects H) : gset Z).

Lemma rec_alloc_fresh H sz : objects H !! rec_alloc H sz = None.
Proof. apply not_elem_of_dom. unfold rec_alloc. pose proof (is_fresh ({[0]} ∪ dom (objects H) : gset Z)). set_solver. Qed.
Lemma rec_alloc_nonnull H sz : rec_alloc H sz <> 0.
Proof. unfold rec_alloc. pose proof (is_fresh ({[0]} ∪ dom (objects H) : gset Z)). set_solver. Qed.

(** With the layouts, and with the boxes. *)
Definition rec_laid : heap := after (jl_compute_field_offsets 5 rec_alloc 5 Rec) rec_types.
Definition rec_d (p : ptr) : jl_datatype_t := demo_get rec_laid p.
Definition rec_ly (p : ptr) : jl_datatype_layout_t := demo_layout rec_laid p.

Lemma rec_types_wf : wf_types 5 rec_rank rec_types /\ layouts_wf 5 rec_types /\ get_datatype rec_types Rec = Ok (demo_get rec_types Rec) /\
  dt_layout (demo_get rec_types Rec) = None /\ jl_compute_field_offsets 5 rec_alloc 5 Rec rec_types = Ok (Ret tt, rec_laid) /\ types_fit 5 rec_laid.
Proof.
  split; [apply types_b_spec; vm_compute; reflexivity |]. split; [apply layouts_b_spec; vm_compute; reflexivity |]. split; [vm_compute; reflexivity |].
  split; [vm_compute; reflexivity |]. split; [apply returns_after; vm_compute; reflexivity | apply fit_b_spec; vm_compute; reflexivity].
Qed.

Lemma rec_laid_wf : layouts_wf 5 rec_laid.
Proof.
  destruct rec_types_wf as (Hw & HL & Ed & El & E & HF).
  destruct (compute_field_offsets_step 5 rec_rank rec_alloc rec_alloc_fresh 5 Rec (demo_get rec_types Rec) rec_types (Ret tt) rec_laid Hw Ed El E) as [_ _ HS].
  by apply (HS rec_laid).
Qed.

(** The layout is that of the type itself, which is its own wrapper. *)
Lemma rec_struct : struct_ok 5 rec_laid (rec_d Rec) (rec_ly Rec).
Proof.
  assert (Ed : get_datatype rec_laid Rec = Ok (rec_d Rec)) by (vm_compute; reflexivity).
  destruct (lw_struct _ _ rec_laid_wf Rec (rec_d Rec) (rec_ly Rec) Ed) as [Hs | (nm & w & dw & En & Ew & Edw & _ & _ & Hs)]; [vm_compute; reflexivity .. | |].
  - exact (struct_exact_ok _ _ _ _ _ Hs).
  - assert (Hw : (let! nm := get_typename rec_laid (dt_name (rec_d Rec)) in jl_unwrap_unionall rec_laid 5 (tn_wrapper nm)) = Ok Rec) by (vm_compute; reflexivity).
    rewrite En in Hw. cbn [obind] in Hw. rewrite Ew in Hw. apply Ok_inj in Hw as ->. rewrite Ed in Edw. apply Ok_inj in Edw. rewrite <- Edw in Hs.
    exact (struct_exact_ok _ _ _ _ _ Hs).
Qed.

Lemma vc_to_typeof H H' t q : value_change H H' -> jl_to_typeof H t = Ok q -> jl_to_typeof H' t = Ok q.
Proof. intros V. unfold jl_to_typeof. by rewrite (vc_global H H' V small_typeof) by done. Qed.

(** Types are not added. *)
Lemma adds_datatype_back H H' p d : adds H H' -> get_datatype H' p = Ok d -> get_datatype H p = Ok d.
Proof.
  intros [[_ O] [_ _ N]] (o & Eo & Eb)%get_datatype_object. unfold get_datatype, deref. destruct (objects H !! p) as [o' |] eqn:E.
  - apply O in E. rewrite Eo in E. injection E as <-. cbn. by rewrite Eb.
  - destruct (N p o Eo E) as [bs Hb]. congruence.
Qed.

Lemma adds_inline_wf H H' : adds H H' -> layouts_wf 5 H -> inline_wf H'.
Proof.
  intros A HL p d ly nm Ed El En Hm. pose proof (ad_extends _ _ A) as Hx. pose proof (adds_datatype_back _ _ _ _ A Ed) as Ed0.
  apply (lw_inline _ _ HL p d ly nm Ed0 El); [| done]. unfold get_typename in *. destruct A as [[_ O] [_ _ N]]. apply obind_Ok_inv in En as (o & Eo & En).
  unfold deref in *. destruct (objects H' !! dt_name d) as [o' |] eqn:E'; [| done]. injection Eo as ->. destruct (objects H !! dt_name d) as [o2 |] eqn:E.
  - apply O in E. rewrite E' in E. injection E as <-. done.
  - destruct (N _ _ E' E) as [bs Hb]. by rewrite Hb in En.
Qed.

(** Checking that a type has values with data. *)
Definition pool_width (t : jl_small_typeof_tags) : option Z :=
  match t with
  | jl_bool_tag | jl_uint8_tag | jl_int8_tag => Some 1
  | jl_int16_tag | jl_uint16_tag => Some 2
  | jl_int32_tag | jl_uint32_tag | jl_char_tag => Some 4
  | jl_int64_tag | jl_uint64_tag | jl_ssavalue_tag | jl_slotnumber_tag => Some 8
  | _ => None
  end.

Definition value_type_b (H : heap) (q : ptr) (d : jl_datatype_t) (ly : jl_datatype_layout_t) (t : jl_small_typeof_tags) : bool :=
  is_ok (jl_is_datatype H q) id && negb (jl_is_layout_opaque ly) && (0 <? size ly) && (size ly <? 2 ^ 32) &&
  is_ok (jl_to_typeof H (Z.land (header_of q d) (Z.lnot 15))) (Z.eqb q) && negb (type_header (header_of q d)) &&
  ((index_of t small_tags =? 0) || (small_typeof H t =? q)) && match pool_width t with Some w => size ly =? w | None => true end &&
  ((size ly <=? MAX_ATOMIC_SIZE) || (dt_smalltag d =? 0)) && ((first_ptr ly <? 0) || (8 * first_ptr ly + 8 <=? size ly)).

Lemma value_type_b_spec alloc junk B H q d ly t : get_datatype H q = Ok d -> dt_layout d = Some ly -> smalltag d = Some t -> value_type_b H q d ly t = true ->
  value_type alloc junk B H q d ly.
Proof.
  intros Ed El Et. unfold value_type_b. rewrite !andb_true_iff, !orb_true_iff.
  intros [[[[[[[[[(b & Eb & Hb)%is_ok_inv Ho%negb_true_iff] Hs0%Z.ltb_lt] Hs1%Z.ltb_lt] (q' & Eq & ->%Z.eqb_eq)%is_ok_inv] Hth%negb_true_iff] Hsm] Hw] Hlg] Hfi].
  destruct b; [| done]. split; try done; [lia | | | lia | destruct Hlg as [?%Z.leb_le | ?%Z.eqb_eq]; lia | destruct Hfi as [?%Z.ltb_lt | ?%Z.leb_le]; lia].
  - intros t' Et'. rewrite Et in Et'. injection Et' as <-. intros Hn. destruct Hsm as [H0%Z.eqb_eq | ?%Z.eqb_eq]; [by destruct t | done].
  - intros w box. rewrite Et. destruct t; cbn [pooled]; try done; intros [= <- _]; by apply Z.eqb_eq in Hw.
Qed.

(** Checking a value. *)
Definition data_of (H : heap) (x : ptr) : list Z := match objects H !! x with Some (Obj _ _ (BData data)) => data | _ => [] end.
Definition inline_b (H : heap) (x ty : ptr) (d : jl_datatype_t) (ly : jl_datatype_layout_t) : bool :=
  is_ok (jl_typeof H x) (Z.eqb ty) && forallb (fun z => (0 <=? z) && (z <? 256)) (data_of H x) && (1 <=? length (data_of H x))%nat &&
  (LLT_ALIGN (size ly) 8 <=? Z.of_nat (length (data_of H x))) && is_ok (undefref_check H d (x, 0)) negb.

Lemma inline_b_spec alloc junk B H v x ty d ly : value_type alloc junk B H ty d ly -> smalltag d <> Some jl_bool_tag -> v <> x -> inline_b H x ty d ly = true ->
  inline_value alloc junk B H v x ty d ly (slice (data_of H x) 0 (size ly)).
Proof.
  intros Hvt Hnb Hv. unfold inline_b. rewrite !andb_true_iff. intros [[[[(t & Et & ->%Z.eqb_eq)%is_ok_inv Hb] Hl] Ha%Z.leb_le] (u & Eu & Hu)%is_ok_inv].
  destruct u; [done |]. split; try done; [| by intros t' Et' ->]. unfold data_of in *. destruct (objects H !! x) as [[b h [data | | | | | |]] |] eqn:E; try done.
  exists h, data. split; [by exists b |]. split; [| done]. apply Forall_forall. intros z Hz%list_elem_of_In. pose proof (proj1 (forallb_forall _ _) Hb z Hz) as Hzz.
  apply andb_prop in Hzz as [?%Z.leb_le ?%Z.ltb_lt]. unfold is_byte. lia.
Qed.

Section After.
Context (B : boxes) (H' : heap) (A : adds rec_laid H').
Let junk (_ : heap) (i : Z) : Z := i.
Let V : value_change rec_laid H' := grows_change _ _ (ad_grows _ _ A).

Definition rec_tag (t : ptr) : jl_small_typeof_tags := if t =? Int8 then jl_int8_tag else if t =? Int64 then jl_int64_tag else jl_null_tag.

Lemma rec_value_type t : t ∈ [Int8; Int64; Inner] -> value_type rec_alloc junk B rec_laid t (rec_d t) (rec_ly t).
Proof.
  intros Ht. apply (value_type_b_spec rec_alloc junk B rec_laid t (rec_d t) (rec_ly t) (rec_tag t)); apply list_elem_of_In in Ht; cbn in Ht;
    destruct Ht as [<- | [<- | [<- | []]]]; vm_compute; reflexivity.
Qed.

(** The values that are stored. *)
Lemma rec_inline v x t : (x, t) ∈ [(9232, Int8); (9248, Int64); (9216, Inner)] -> v <> x -> 
  inline_value rec_alloc junk B rec_laid v x t (rec_d t) (rec_ly t) (slice (data_of rec_laid x) 0 (size (rec_ly t))).
Proof.
  intros Hx Hv. apply list_elem_of_In in Hx. cbn in Hx. apply inline_b_spec; [apply rec_value_type | | done |];
    destruct Hx as [[= <- <-] | [[= <- <-] | [[= <- <-] | []]]]; try (apply list_elem_of_In; cbn; by auto); vm_compute; done.
Qed.

Lemma after_inline v x t : (x, t) ∈ [(9232, Int8); (9248, Int64); (9216, Inner)] -> v <> x -> 
  inline_value rec_alloc junk B H' v x t (rec_d t) (rec_ly t) (slice (data_of rec_laid x) 0 (size (rec_ly t))).
Proof. intros Hx Hv. apply (inline_value_grows rec_alloc junk B rec_laid H' v); [apply A | done | by apply rec_inline]. Qed.

Lemma after_struct_ok : struct_ok 5 H' (rec_d Rec) (rec_ly Rec).
Proof. apply (struct_ok_later 5 rec_laid H' (ad_extends _ _ A) (rec_d Rec)); [apply same_type_refl | apply rec_struct]. Qed.

Lemma after_datatype p : p ∈ [Int8; Int64; Inner; Rec] -> get_datatype H' p = Ok (rec_d p).
Proof.
  intros Hp. apply (vc_datatype rec_laid H' V). apply list_elem_of_In in Hp. cbn in Hp. destruct Hp as [<- | [<- | [<- | [<- | []]]]]; vm_compute; reflexivity.
Qed.

(** The instance of [Rec], and the type. *)
Lemma after_struct_at : struct_at 5 H' 9200 Rec (rec_d Rec) (rec_ly Rec) Rec (replicate 80 0).
Proof.
  split; [apply (vc_typeof rec_laid H' V); vm_compute; reflexivity | apply after_datatype; apply list_elem_of_In; cbn; by auto | apply (vc_layout rec_laid H' V); vm_compute; reflexivity
    | apply after_struct_ok | apply (adds_inline_wf rec_laid H' A rec_laid_wf) | apply (grows_data rec_laid H'); [apply A |]; exists 0; vm_compute; reflexivity | vm_compute; discriminate
    | apply Forall_replicate; vm_compute; done | vm_compute; reflexivity].
Qed.

Lemma after_struct_type : struct_type 5 H' Rec (rec_d Rec) (rec_ly Rec).
Proof.
  split; [apply after_datatype; apply list_elem_of_In; cbn; by auto | apply (vc_is_tag rec_laid H' V); vm_compute; reflexivity | vm_compute; reflexivity .. | | apply after_struct_ok
    | apply (adds_inline_wf rec_laid H' A rec_laid_wf) | vm_compute; reflexivity].
  split; [apply (vc_to_typeof rec_laid H' _ _ V) |]; vm_compute; reflexivity.
Qed.

(** Its fields. *)
Definition rec_field (k : Z) : jl_fielddesc32_t * ptr * bool :=
  if k =? 0 then (FieldDesc false 1 16, Int8, false) else if k =? 1 then (FieldDesc false 32 24, Inner, true)
  else if k =? 2 then (FieldDesc false 9 56, Union_Int8_Int64, false) else (FieldDesc true 8 72, String, false).

Lemma after_field k : 0 <= k < 4 -> field_desc H' 5 (rec_d Rec) k = Ok (rec_field k).1.1 /\ jl_field_type_concrete H' (rec_d Rec) k = Ok (rec_field k).1.2 /\
  jl_field_isatomic H' (rec_d Rec) k = Ok (rec_field k).2.
Proof.
  intros Hk. assert (k = 0 \/ k = 1 \/ k = 2 \/ k = 3) as Hc by lia.
  split; [apply (vc_field_desc rec_laid H' V) | split; [apply (vc_field_type rec_laid H' V) | apply (vc_isatomic rec_laid H' V)]]; destruct Hc as [-> | [-> | [-> | ->]]]; vm_compute; reflexivity.
Qed.

Lemma after_view k fd fld i : 0 <= k < 4 -> field_view 5 H' (rec_d Rec) (rec_ly Rec) k fd fld i -> fd = (rec_field k).1.1 /\ fld = (rec_field k).1.2.
Proof.
  intros Hk Hfv. destruct (after_field k Hk) as (E1 & E2 & _). pose proof (fv_desc _ _ _ _ _ _ _ _ Hfv) as F1. pose proof (fv_type _ _ _ _ _ _ _ _ Hfv) as F2.
  rewrite E1 in F1. rewrite E2 in F2. split; symmetry; by apply Ok_inj.
Qed.

Lemma after_plain t : t ∈ [Int8; Inner] -> jl_is_uniontype H' t = Ok false /\ normalize_typeofbottom_layout_alias H' t = Ok t.
Proof.
  intros Ht. apply list_elem_of_In in Ht. cbn in Ht. split; [apply (vc_is_tag rec_laid H' V) | apply (vc_normalize rec_laid H' V)]; destruct Ht as [<- | [<- | []]]; vm_compute; reflexivity.
Qed.

Lemma after_typename : exists nm, get_typename H' (dt_name (rec_d Rec)) = Ok nm /\ tn_n_uninitialized nm = 1.
Proof. exists (Typename Rec Rec false true false 1 (Some [2]) None). split; [apply (vc_typename rec_laid H' V); vm_compute; reflexivity | reflexivity]. Qed.

Lemma after_primitive : jl_is_primitivetype H' (small_typeof H' jl_int64_tag) = Ok true /\ jl_datatype_size H' 5 (small_typeof H' jl_int64_tag) = Ok 8.
Proof.
  assert (Es : small_typeof H' jl_int64_tag = Int64).
  { apply Ok_inj. rewrite <- !to_typeof_small. rewrite (vc_to_typeof rec_laid H' _ Int64 V); [reflexivity |]. vm_compute. reflexivity. }
  rewrite Es. split; [| apply (vc_size rec_laid H' V); vm_compute; reflexivity].
  unfold jl_is_primitivetype, jl_is_datatype. rewrite (vc_is_tag rec_laid H' V jl_datatype_tag Int64 true) by (vm_compute; reflexivity). cbn [obind].
  rewrite after_datatype by (apply list_elem_of_In; cbn; by auto). vm_compute. reflexivity.
Qed.
End After.

Definition rec_junk (_ : heap) (i : Z) : Z := i.

(** The booleans of the heap. *)
Lemma rec_bools : is_value rec_laid 9264 (small_typeof rec_laid jl_bool_tag) [1] /\ is_value rec_laid 9280 (small_typeof rec_laid jl_bool_tag) [0].
Proof. split; split; vm_compute; done. Qed.

Lemma init_box_caches_correct_witness : exists B H', jl_init_box_caches rec_alloc rec_junk 9264 9280 rec_laid = Ok (Ret B, H') /\ grows rec_laid H' /\ boxes_ok B H'.
Proof.
  exact (init_box_caches_correct rec_alloc rec_junk rec_laid 9264 9280 rec_alloc_fresh rec_alloc_nonnull (proj1 rec_bools) (proj2 rec_bools)).
Defined.

(** With the boxes. *)
Lemma rec_boxed : exists B H', jl_init_box_caches rec_alloc rec_junk 9264 9280 rec_laid = Ok (Ret B, H') /\ adds rec_laid H' /\ boxes_ok B H' /\ not_a_box B 9200.
Proof.
  destruct (init_box_caches_spec rec_alloc rec_junk rec_alloc_fresh rec_alloc_nonnull rec_laid 9264 9280 (proj1 rec_bools) (proj2 rec_bools)) as (B & H' & E & A & HB & Ht & Hf & Hc).
  exists B, H'. split; [done |]. split; [done |]. split; [done |]. split; [by rewrite Ht |]. split; [by rewrite Hf |]. intros t i p bs Ec Ep ->.
  pose proof (Hc t i 9200 bs Ec Ep) as En. assert (Hs : is_Some (objects rec_laid !! 9200)) by (vm_compute; by eexists). rewrite En in Hs. by destruct Hs.
Qed.

(** Storing an [Inner] in the atomic field takes the lock. *)
Lemma set_get_field_witness : exists B H', jl_init_box_caches rec_alloc rec_junk 9264 9280 rec_laid = Ok (Ret B, H') /\
  exists H1 data1 r H2, set_nth_field 5 1 Rec 9200 1 9216 true H' = Ok (Ret tt, H1) /\ wrote H' H1 9200 Rec data1 /\
    (forall j fdj, Z.of_nat j <> 1 -> fields (rec_ly Rec) !! j = Some fdj -> slice data1 (fd_offset fdj) (fd_size fdj) = slice (replicate 80 0) (fd_offset fdj) (fd_size fdj)) /\
    jl_get_nth_field 5 rec_alloc rec_junk 1 B 9200 1 H1 = Ok (Ret r, H2) /\ is_value H2 r Inner demo_inner.
Proof.
  destruct rec_boxed as (B & H' & E & A & HB & Hnb). exists B, H'. split; [exact E |].
  destruct (after_field H' A 1 ltac:(lia)) as (Ed & Ef & Ea).
  apply (set_get_field 5 rec_alloc rec_junk 1 B H' 9200 Rec (rec_d Rec) (rec_ly Rec) Rec (replicate 80 0) 1 (rec_field 1).1.1 Inner true 9216 (Some (Inner, demo_inner))
    rec_alloc_fresh rec_alloc_nonnull ltac:(lia) HB Hnb (after_struct_at H' A)).
  - vm_compute. split; [discriminate | reflexivity].
  - exact Ed.
  - exact Ef.
  - exact Ea.
  - destruct (after_plain H' A Inner) as [Hu Hn]; [apply list_elem_of_In; cbn; by auto |].
    apply (value_inline _ _ _ _ _ _ _ _ _ _ Inner (rec_d Inner) (rec_ly Inner)); [reflexivity | exact Hu | exact Hn | | reflexivity | discriminate].
    apply (after_inline B H' A 9200 9216 Inner); [apply list_elem_of_In; cbn; by auto | discriminate].
  - intros _ _. vm_compute. reflexivity.
Defined.

(** Equality, or being a component. *)
Definition rec_isa (H : heap) (x t : ptr) : outcome bool :=
  let! ty := jl_typeof H x in let! (found, _) := jl_find_union_component H 5 t ty in Ok found.

Lemma rec_isa_holds H' j x : adds rec_laid H' -> [9232; 9216; 9248] !! j = Some x ->
  exists fld, jl_field_type_concrete H' (rec_d Rec) (Z.of_nat j) = Ok fld /\ rec_isa H' x fld = Ok true.
Proof.
  intros A Ex. pose proof (grows_change _ _ (ad_grows _ _ A)) as V. assert (Hj : (j < 3)%nat) by (apply lookup_lt_Some in Ex; cbn in Ex; lia).
  destruct (after_field H' A (Z.of_nat j) ltac:(lia)) as (_ & Ef & _). exists (rec_field (Z.of_nat j)).1.2. split; [exact Ef |].
  unfold rec_isa. do 3 (destruct j as [| j]; [injection Ex as <-; erewrite (vc_typeof rec_laid H' V) by (vm_compute; reflexivity); cbn [obind];
    unfold jl_find_union_component; erewrite (vc_find rec_laid H' V) by (vm_compute; reflexivity); reflexivity |]). lia.
Qed.

(** A new [Rec] without [next]. *)
Lemma rec_args B H' : adds rec_laid H' ->
  args_fit 5 rec_alloc rec_junk B H' (rec_d Rec) (rec_ly Rec) 0 [9232; 9216; 9248] [Some (Int8, [253]); Some (Inner, demo_inner); Some (Int64, le_bytes 8 1000000)].
Proof.
  intros A. pose proof (grows_change _ _ (ad_grows _ _ A)) as V.
  assert (Hpl : forall k x t bs fd fld i, 0 <= k < 4 -> field_view 5 H' (rec_d Rec) (rec_ly Rec) k fd fld i -> (rec_field k).1.2 = t -> fd_isptr (rec_field k).1.1 = false -> t ∈ [Int8; Inner] ->
    (x, t) ∈ [(9232, Int8); (9248, Int64); (9216, Inner)] -> x <> 0 -> slice (data_of rec_laid x) 0 (size (rec_ly t)) = bs ->
    field_value 5 rec_alloc rec_junk B H' 0 fd fld false x (Some (t, bs))).
  { intros k x t bs fd fld i Hk Hfv Er Hp Ht Hx Hx0 <-. destruct (after_view H' A k fd fld i Hk Hfv) as [-> ->]. rewrite Er. destruct (after_plain H' A t Ht) as [Hu Hn].
    apply (value_inline _ _ _ _ _ _ _ _ _ _ t (rec_d t) (rec_ly t)); [exact Hp | exact Hu | exact Hn | | done | exact Hx0]. by apply (after_inline B H' A). }
  split; [| split; [| split; [| exact I]]]; intros fd fld i Hfv.
  - apply (Hpl 0 9232 Int8 [253] fd fld i ltac:(lia) Hfv eq_refl eq_refl); [by left | by left | discriminate | vm_compute; reflexivity].
  - apply (Hpl 1 9216 Inner demo_inner fd fld i ltac:(lia) Hfv eq_refl eq_refl); [apply list_elem_of_In; cbn; by auto | apply list_elem_of_In; cbn; by auto | discriminate | vm_compute; reflexivity].
  - destruct (after_view H' A 2 fd fld i ltac:(lia) Hfv) as [-> ->].
    apply (value_union _ _ _ _ _ _ _ _ _ _ Int64 (rec_d Int64) (rec_ly Int64) _ 1 2); [reflexivity | apply (vc_is_tag rec_laid H' V); vm_compute; reflexivity
      | apply (vc_union_count rec_laid H' 5 V); vm_compute; reflexivity | lia | apply (vc_find rec_laid H' V); vm_compute; reflexivity | | discriminate].
    apply (after_inline B H' A 0 9248 Int64); [apply list_elem_of_In; cbn; by auto | discriminate].
Qed.

Lemma new_structv_fields_witness : exists B H', jl_init_box_caches rec_alloc rec_junk 9264 9280 rec_laid = Ok (Ret B, H') /\
  exists jv H1, jl_new_structv 5 rec_alloc rec_junk 1 rec_isa Rec [9232; 9216; 9248] H' = Ok (Ret jv, H1) /\ objects H' !! jv = None /\ grows H' H1 /\ jl_typeof H1 jv = Ok Rec /\
    (forall j x w, [9232; 9216; 9248] !! j = Some x -> [Some (Int8, [253]); Some (Inner, demo_inner); Some (Int64, le_bytes 8 1000000)] !! j = Some w ->
       exists r H2, jl_get_nth_field 5 rec_alloc rec_junk 1 B jv (Z.of_nat j) H1 = Ok (Ret r, H2) /\ reads_as H2 r x w) /\
    (forall k fd, (3 <= k)%nat -> fields (rec_ly Rec) !! k = Some fd -> fd_isptr fd = true ->
       jl_get_nth_field_checked 5 rec_alloc rec_junk 1 B jv (Z.of_nat k) H1 = Ok (Throw undefref_exception, H1)).
Proof.
  destruct rec_boxed as (B & H' & E & A & HB & _). exists B, H'. split; [exact E |].
  refine (new_structv_fields 5 rec_alloc rec_junk 1 B rec_isa H' Rec (rec_d Rec) (rec_ly Rec) [9232; 9216; 9248] [Some (Int8, [253]); Some (Inner, demo_inner); Some (Int64, le_bytes 8 1000000)]
    rec_alloc_fresh rec_alloc_nonnull _ HB (after_struct_type H' A) _ (fun j x => rec_isa_holds H' j x A) (rec_args B H' A)); [lia |].
  destruct (after_typename H' A) as (nm & En & Hu). exists nm. split; [exact En |]. rewrite Hu. vm_compute. repeat split; discriminate.
Defined.

Lemma union_component_roundtrip_witness : (0 <= 1 < 2 /\ jl_nth_union_component rec_laid 5 Union_Int8_Int64 1 = Ok (Some Int64)) /\
  forall j y, 0 <= j -> (true = true -> j < 1) -> jl_nth_union_component rec_laid 5 Union_Int8_Int64 j = Ok (Some y) -> y <> Int64.
Proof. apply (union_component_roundtrip rec_laid 5 Union_Int8_Int64 Int64 2 true 1); vm_compute; reflexivity. Defined.

(** The [Int64] 5 from the cache. *)
Lemma box_unbox_witness : exists B H', jl_init_box_caches rec_alloc rec_junk 9264 9280 rec_laid = Ok (Ret B, H') /\
  exists p H1, SIBOX_FUNC rec_alloc rec_junk B jl_int64_tag 8 (to_signed 8 5) H' = Ok (Ret p, H1) /\ jl_typeof H1 p = Ok (small_typeof H' jl_int64_tag) /\ UNBOX_FUNC 5 8 p H1 = Ok (Ret 5, H1).
Proof.
  destruct rec_boxed as (B & H' & E & A & HB & _). exists B, H'. split; [exact E |]. pose proof (grows_change _ _ (ad_grows _ _ A)) as V.
  destruct (after_primitive H' A) as [Hp Hs].
  apply (box_unbox 5 rec_alloc rec_junk B H' jl_int64_tag 8 (fun x => SIBOX_FUNC rec_alloc rec_junk B jl_int64_tag 8 (to_signed 8 x)) 5 rec_alloc_fresh rec_alloc_nonnull HB eq_refl Hp Hs);
    [lia | discriminate].
Defined.

(** ** Where the code goes wrong *)

(** A [Rec] whose field [u] holds the [Int8] 5, with the boxes of 5 and 6, and
    the [Int64] 1029, whose first byte is 5 too. *)
Definition modify_heap : heap := with_objects rec_laid (
  <[9200 := Obj 0 Rec (BData (replicate 56 0 ++ [5] ++ replicate 23 0))]>
  (<[20080 := demo_small jl_int8_tag (BData (le_bytes 8 5))]> (<[20096 := demo_small jl_int8_tag (BData (le_bytes 8 6))]>
  (<[9312 := demo_small jl_int64_tag (BData (le_bytes 8 1029))]> (objects rec_laid))))).
Definition modify_boxes : boxes := Boxes 9264 9280 (fun t => match t with jl_int8_tag => map (fun i => 20000 + 16 * i) (seqZ 0 256) | _ => [] end).

(** A function that, given an [Int8], stores the [Int64] 1029 in the field and
    returns the [Int8] 6; it has no method for another type. *)
Definition modify_op (op r rhs : ptr) : M ptr :=
  let* t := reads (fun H => jl_typeof H r) in
  if t =? Int8 then set_nth_field 5 1 Rec 9200 2 9312 false ;; ret 20096 else throw (type_error Int8 r).

Definition modify_u : M ptr := modify_nth_field 5 rec_alloc rec_junk 1 modify_boxes rec_isa 5 2 (fun _ => undefined) modify_op Rec 9200 2 0 0 false.
Definition result_of (m : M ptr) (H : heap) : option (result ptr) := match m H with Ok (r, _) => Some r | _ => None end.
Definition final (m : M ptr) (H : heap) : heap := match m H with Ok (_, H') => H' | _ => H end.

(** C38: Modifying a field with an inline union corrupts it if the field gets a value of another type
    meanwhile. The function stores the [Int64] 1029 in place of the [Int8] 5, whose byte it shares;
    [modify_bits] finds the bytes equal, sees that the type is another one and will try again, but
    first writes its new value over the field, without the selector: the field then reads as the
    [Int64] 1030, which nobody stored, and the function is called with it. *)
Theorem modify_union_corrupts :
  result_of (jl_get_nth_field 5 rec_alloc rec_junk 1 modify_boxes 9200 2) modify_heap = Some (Ret 20080) /\
  (exists r, result_of modify_u modify_heap = Some (Throw (type_error Int8 r)) /\ jl_typeof (final modify_u modify_heap) r = Ok Int64 /\
     load_uint (final modify_u modify_heap) (r, 0) 8 = Ok 1030) /\
  load_uint (final modify_u modify_heap) (9200, 56) 8 = Ok 1030 /\ load_uint (final modify_u modify_heap) (9200, 64) 1 = Ok 1.
Proof. split; [vm_compute; reflexivity |]. split; [exists 50241; repeat split; vm_compute; reflexivity | split; vm_compute; reflexivity]. Qed.
