(* ===== verification/GenericMemory.v ===== *)
(** * Memories (genericmemory.c)

    A memory is an object with its length and the address of its data, which
    follow it or lie in a block of their own; the selectors of inline unions
    come after the elements.  A reference is a memory with the address of an
    element, or its index if the elements are inline unions or have no size.
    The addresses of data are locations here: [mem_ptr] finds the block a
    memory points to.  The barriers of stores change nothing here (the one of
    [jl_genericmemory_copyto] copies some of the references itself, with the
    same result), and memory can be had. *)

From stdpp Require Import base gmap numbers option list.
From Stdlib Require Import ZArith Lia.
From S2P Require Import Prelude Probe Identity SmallIntSet Hashing Bytes Objects Egal HeapMonad LayoutCore Layout Bits Fields.

Definition GC_MAX_SZCLASS : Z := 2032 - 8.
Definition MAXINTVAL : Z := Z.shiftr SIZE_MAX 1.
Definition sizeof_jl_genericmemory_t : Z := 16.

Definition arrayelem_isboxed (ly : jl_datatype_layout_t) : bool := Z.testbit (arrayelem ly) 0.
Definition arrayelem_isunion (ly : jl_datatype_layout_t) : bool := Z.testbit (arrayelem ly) 1.
Definition arrayelem_isatomic (ly : jl_datatype_layout_t) : bool := Z.testbit (arrayelem ly) 2.
Definition arrayelem_islocked (ly : jl_datatype_layout_t) : bool := Z.testbit (arrayelem ly) 3.

(** [ptr_or_offset] *)
Inductive element := Ptr (p : loc) | Offset (i : Z).
Record jl_genericmemoryref_t := Memoryref { mr_mem : ptr; mr_elem : element }.

Section Access.
Context (H : heap).

Definition mem_datatype (m : ptr) : outcome jl_datatype_t := let! t := jl_typetagof H m in get_datatype H t.
Definition mem_layout (m : ptr) : outcome jl_datatype_layout_t := let! d := mem_datatype m in the_layout d.
Definition mem_eltype (m : ptr) : outcome ptr := let! d := mem_datatype m in jl_tparam H d 1.
Definition mem_length (m : ptr) : outcome Z := load_uint H (m, 0) 8.

(** [m->ptr] *)
Definition mem_ptr (m : ptr) : outcome loc :=
  let! p := load_uint H (m, 8) 8 in
  Ok (if p =? m + JL_SMALL_BYTE_ALIGNMENT then (m, JL_SMALL_BYTE_ALIGNMENT) else (p, 0)).

Definition jl_genericmemory_typetagdata (m : ptr) : outcome loc :=
  let! ly := mem_layout m in
  let! p := mem_ptr m in
  let! len := mem_length m in
  if negb (arrayelem_isunion ly) then UB else Ok (shift p (u64 (len * size ly))).

(** [p - m->ptr < sz * m->length] *)
Definition within (m : ptr) (p : loc) (sz : Z) : outcome bool :=
  let! q := mem_ptr m in
  let! len := mem_length m in
  if negb (p.1 =? q.1) then UB else Ok (u64 (p.2 - q.2) <? u64 (sz * len)).
End Access.

Definition layout_of (m : ptr) : M jl_datatype_layout_t := reads (fun H => mem_layout H m).
Definition eltype_of (m : ptr) : M ptr := reads (fun H => mem_eltype H m).
Definition assert_ (b : bool) : M unit := if b then ret tt else undefined.
Definition assert_within (m : ptr) (p : loc) (sz : Z) : M unit := let* b := reads (fun H => within H m p sz) in assert_ b.

(** The address of an element that is not given by its index. *)
Definition address (e : element) : M loc := match e with Ptr p => ret p | Offset _ => undefined end.

(** An element of inline unions: its data and its selector. *)
Definition union_element (m : ptr) (ly : jl_datatype_layout_t) (e : element) : M (loc * loc) :=
  match e with
  | Ptr _ => undefined
  | Offset i =>
      let* len := reads (fun H => mem_length H m) in
      assert_ (i <? len) ;;
      let* tags := reads (fun H => jl_genericmemory_typetagdata H m) in
      let* p := reads (fun H => mem_ptr H m) in
      ret (shift p (i * size ly), shift tags i)
  end.

Section Memory.
Context (depth : nat) (alloc : heap -> Z -> ptr) (junk : heap -> Z -> Z) (self : ptr) (B : boxes).

(** ** Constructors *)

(** The block of [jl_gc_managed_malloc] has no type. *)
Definition jl_alloc_genericmemory_unchecked (nbytes : Z) (mtype : ptr) : M ptr :=
  let tot := u64 (nbytes + LLT_ALIGN sizeof_jl_genericmemory_t JL_SMALL_BYTE_ALIGNMENT) in
  if tot <=? GC_MAX_SZCLASS then
    let* m := jl_gc_alloc alloc junk tot mtype in
    store (m, 8) 8 (m + JL_SMALL_BYTE_ALIGNMENT) ;;
    ret m
  else
    let* data := jl_gc_alloc alloc junk nbytes 0 in
    let* m := jl_gc_alloc alloc junk (sizeof_jl_genericmemory_t + 8) mtype in
    store (m, 16) 8 m ;;
    store (m, 8) 8 data ;;
    ret m.

Definition _new_genericmemory_ (mtype : ptr) (nel : Z) (isunion zeroinit : bool) (elsz : Z) : M ptr :=
  let* d := datatype mtype in
  if nel =? 0 then ret (dt_instance d)
  else
    let nbytes := u64 (nel * elsz) in
    let overflow := SIZE_MAX <? nel * elsz in
    let overflow := overflow || (isunion && (SIZE_MAX <? nel + nbytes)) in
    let nbytes := if isunion then u64 (nel + nbytes) else nbytes in
    if (MAXINTVAL - 1 <=? nel) || (MAXINTVAL - 1 <=? nbytes) || overflow then throw invalid_memory_size
    else
      let* m := jl_alloc_genericmemory_unchecked nbytes mtype in
      store (m, 0) 8 nel ;;
      (if zeroinit then let* p := reads (fun H => mem_ptr H m) in memset0 p nbytes else ret tt) ;;
      ret m.

Definition jl_alloc_genericmemory (jl_type_type mtype : ptr) (nel : Z) : M ptr :=
  let* isd := reads (fun H => jl_is_datatype H mtype) in
  assert_ isd ;;
  let* d := datatype mtype in
  let m := dt_instance d in
  if m =? 0 then
    let* kind := reads (fun H => jl_tparam H d 0) in
    let* known := reads (fun H => Ok ((kind =? jl_not_atomic_sym H) || (kind =? jl_atomic_sym H))) in
    if negb known then throw invalid_memory_kind
    else
      let* addrspace := reads (fun H => jl_tparam H d 2) in
      let* isa := reads (fun H => is_tag H jl_addrspacecore_tag addrspace) in
      let* cpu := if (isa : bool) then let* x := UNBOX_FUNC depth 1 addrspace in ret (x =? 0) else ret false in
      if negb cpu then throw invalid_addrspace
      else
        let* el := reads (fun H => jl_tparam H d 1) in
        if negb (dt_has_concrete_subtype d) || match dt_layout d with None => true | Some _ => false end then throw (type_error jl_type_type el)
        else undefined
  else
    let* ly := reads (fun _ => the_layout d) in
    assert_ (dt_has_concrete_subtype d) ;;
    if nel =? 0 then ret m
    else
      let elsz := if arrayelem_isboxed ly then 8 else size ly in
      _new_genericmemory_ mtype nel (arrayelem_isunion ly) (dt_zeroinit d) elsz.

Definition jl_new_genericmemory (jl_type_type mtype nel : ptr) : M ptr :=
  let* n := UNBOX_FUNC depth 8 nel in jl_alloc_genericmemory jl_type_type mtype n.

(** ** Copies *)

(** The arguments are positions as in a reference. *)
Definition jl_genericmemory_copyto (dest : ptr) (destdata : element) (src : ptr) (srcdata : element) (n : Z) : M unit :=
  let* dt := reads (fun H => jl_typetagof H dest) in
  let* st := reads (fun H => jl_typetagof H src) in
  if negb (dt =? st) then throw mixed_memories
  else
    let* ly := layout_of dest in
    if arrayelem_isboxed ly then
      let* d := address destdata in
      let* s := address srcdata in
      memmove_refs d s n
    else
      let elsz := size ly in
      let* (d, s) :=
        if arrayelem_isunion ly then
          match destdata, srcdata with
          | Offset i, Offset j =>
              let* stags := reads (fun H => jl_genericmemory_typetagdata H src) in
              let* dtags := reads (fun H => jl_genericmemory_typetagdata H dest) in
              memcpy (shift dtags i) (shift stags j) n ;;
              let* sp := reads (fun H => mem_ptr H src) in
              let* dp := reads (fun H => mem_ptr H dest) in
              ret (shift dp (elsz * i), shift sp (elsz * j))
          | _, _ => undefined
          end
        else let* d := address destdata in let* s := address srcdata in ret (d, s) in
      if negb (first_ptr ly =? -1) then memmove_refs d s (u64 (n * elsz) / 8) else memcpy d s (u64 (n * elsz)).

(** [data] is where the slice begins. *)
Definition jl_genericmemory_copy_slice (mem : ptr) (data : element) (len : Z) : M ptr :=
  let* mtype := reads (fun H => jl_typetagof H mem) in
  let* ly := layout_of mem in
  let elsz := size ly in
  let isunion := arrayelem_isunion ly in
  let* new_mem := _new_genericmemory_ mtype len isunion false elsz in
  let* np := reads (fun H => mem_ptr H new_mem) in
  (if isunion then
     match data with
     | Ptr _ => undefined
     | Offset i =>
         let* p := reads (fun H => mem_ptr H mem) in
         memcpy np (shift p (i * elsz)) (u64 (len * elsz)) ;;
         let* ntags := reads (fun H => jl_genericmemory_typetagdata H new_mem) in
         let* tags := reads (fun H => jl_genericmemory_typetagdata H mem) in
         memcpy ntags (shift tags i) len
     end
   else
     match data with
     | Ptr p => if negb (first_ptr ly =? -1) then memmove_refs np p (u64 (len * elsz) / 8) else memcpy np p (u64 (len * elsz))
     | Offset i => if i =? 0 then if first_ptr ly =? -1 then ret tt else assert_ (u64 (len * elsz) / 8 =? 0) else undefined
     end) ;;
  ret new_mem.

Definition jl_genericmemory_copy (mem : ptr) : M ptr :=
  let* ly := layout_of mem in
  let* len := reads (fun H => mem_length H mem) in
  let* p := reads (fun H => mem_ptr H mem) in
  jl_genericmemory_copy_slice mem (if arrayelem_isunion ly || (size ly =? 0) then Offset 0 else Ptr p) len.

(** ** References *)

Definition jl_memoryrefindex (m : jl_genericmemoryref_t) (idx : Z) : M jl_genericmemoryref_t :=
  let* ly := layout_of (mr_mem m) in
  if (arrayelem_isboxed ly || negb (arrayelem_isunion ly)) && negb (size ly =? 0) then
    let* p := address (mr_elem m) in
    let p := shift p (idx * size ly) in
    assert_within (mr_mem m) p (size ly) ;;
    ret (Memoryref (mr_mem m) (Ptr p))
  else
    match mr_elem m with
    | Ptr _ => undefined
    | Offset i =>
        let i := u64 (i + idx) in
        let* len := reads (fun H => mem_length H (mr_mem m)) in
        assert_ (i <? len) ;;
        ret (Memoryref (mr_mem m) (Offset i))
    end.

Definition jl_ptrmemrefget (m : jl_genericmemoryref_t) : M ptr :=
  let* p := address (mr_elem m) in
  assert_within (mr_mem m) p 8 ;;
  let* elt := load p 8 in
  if elt =? 0 then throw undefref_exception else ret elt.

(** The offset of the data behind the lock of an element. *)
Definition lock_offset : Z := LLT_ALIGN sizeof_jl_mutex_t JL_SMALL_BYTE_ALIGNMENT.

Definition atomic_elements (ly : jl_datatype_layout_t) : bool := arrayelem_isatomic ly || arrayelem_islocked ly.

Definition jl_memoryrefget (m : jl_genericmemoryref_t) (isatomic : bool) : M ptr :=
  let* ly := layout_of (mr_mem m) in
  assert_ (Bool.eqb isatomic (atomic_elements ly)) ;;
  if arrayelem_isboxed ly then jl_ptrmemrefget m
  else
    let* eltype := eltype_of (mr_mem m) in
    let* (eltype, data) :=
      if arrayelem_isunion ly then
        assert_ (negb isatomic) ;;
        let* u := reads (fun H => jl_is_uniontype H eltype) in
        assert_ u ;;
        let* (data, psel) := union_element (mr_mem m) ly (mr_elem m) in
        let* sel := load psel 1 in
        let* t := reads (fun H => jl_nth_union_component H depth eltype sel) in
        match t with Some t => ret (t, Ptr data) | None => undefined end
      else ret (eltype, mr_elem m) in
    let* d := datatype eltype in
    if size ly =? 0 then
      let* single := reads (fun _ => jl_is_datatype_singleton d) in
      assert_ single ;;
      ret (dt_instance d)
    else
      let* data := address data in
      assert_within (mr_mem m) data (size ly) ;;
      let* fsz := reads (fun H => jl_datatype_size H depth eltype) in
      let needlock := arrayelem_islocked ly in
      let* r :=
        if isatomic && negb needlock then jl_atomic_new_bits depth alloc junk B eltype data
        else if needlock then
          let* r := jl_gc_alloc alloc junk fsz eltype in
          jl_lock_field self data ;;
          memcpy (r, 0) (shift data lock_offset) fsz ;;
          jl_unlock_field self data ;;
          ret r
        else jl_new_bits depth alloc junk B eltype data in
      let* r := checked d r in
      if r =? 0 then throw undefref_exception else ret r.

Definition jl_genericmemoryref (mem : ptr) (i : Z) : M ptr :=
  let* ly := layout_of mem in
  let* p := reads (fun H => mem_ptr H mem) in
  jl_memoryrefget (Memoryref mem (if arrayelem_isunion ly || (size ly =? 0) then Offset i else Ptr (shift p (size ly * i)))) (atomic_elements ly).

Definition jl_memoryref_isassigned (m : jl_genericmemoryref_t) : M bool :=
  let* ly := layout_of (mr_mem m) in
  if arrayelem_isboxed ly then let* p := address (mr_elem m) in let* x := load p 8 in ret (negb (x =? 0))
  else if 0 <=? first_ptr ly then
    let* p := address (mr_elem m) in let* x := load (shift p (8 * first_ptr ly)) 8 in ret (negb (x =? 0))
  else ret true.

(** [jl_atomic_store_bits] from a buffer of zeros on the stack. *)
Definition store_zero_bits (dst : loc) (nb : Z) : M unit :=
  if nb =? 0 then ret tt
  else store dst (if nb =? 1 then 1 else if nb =? 2 then 2 else if nb <=? 4 then 4 else if nb <=? 8 then 8 else 16) 0.

Definition jl_memoryrefunset (m : jl_genericmemoryref_t) (isatomic : bool) : M unit :=
  let* ly := layout_of (mr_mem m) in
  assert_ (Bool.eqb isatomic (atomic_elements ly)) ;;
  if arrayelem_isboxed ly then
    let* p := address (mr_elem m) in
    assert_within (mr_mem m) p 8 ;;
    store p 8 0
  else if arrayelem_isunion ly then ret tt
  else if first_ptr ly <? 0 then ret tt
  else
    let* dt := eltype_of (mr_mem m) in
    let* isd := reads (fun H => jl_is_datatype H dt) in
    assert_ isd ;;
    let* fsz := reads (fun H => jl_datatype_size H depth dt) in
    let* data := address (mr_elem m) in
    let needlock := arrayelem_islocked ly in
    if isatomic && negb needlock then
      assert_ (fsz <=? MAX_ATOMIC_SIZE) ;;
      store_zero_bits data fsz
    else if needlock then
      jl_lock_field self data ;;
      memset0 (shift data lock_offset) fsz ;;
      jl_unlock_field self data
    else memset0 data fsz.

Section Open.
Context (jl_isa : heap -> ptr -> ptr -> outcome bool) (egal_fuel tries : nat).
Context (jl_apply_cmpswap_type jl_apply_modify_type : ptr -> M ptr) (jl_apply_generic : ptr -> ptr -> ptr -> M ptr).

(** The subtype test is skipped for [Any] and for the type itself. *)
Definition check_element (eltype rhs : ptr) : M unit :=
  let* any := reads (fun H => Ok (eltype =? jl_any_type H)) in
  let* t := reads (fun H => jl_typeof H rhs) in
  if negb any && negb (t =? eltype) then check_isa jl_isa rhs eltype else ret tt.

Definition jl_memoryrefset (m : jl_genericmemoryref_t) (rhs : ptr) (isatomic : bool) : M unit :=
  let* ly := layout_of (mr_mem m) in
  assert_ (Bool.eqb isatomic (atomic_elements ly)) ;;
  let* eltype := eltype_of (mr_mem m) in
  check_element eltype rhs ;;
  if arrayelem_isboxed ly then
    let* p := address (mr_elem m) in
    assert_within (mr_mem m) p 8 ;;
    store p 8 rhs
  else
    let* rty := reads (fun H => jl_typeof H rhs) in
    let* (hasptr, data) :=
      if arrayelem_isunion ly then
        assert_ (negb isatomic) ;;
        let* u := reads (fun H => jl_is_uniontype H eltype) in
        assert_ u ;;
        let* (data, psel) := union_element (mr_mem m) ly (mr_elem m) in
        select depth eltype rty psel ;;
        ret (false, Ptr data)
      else ret (0 <=? first_ptr ly, mr_elem m) in
    if size ly =? 0 then ret tt
    else
      let* data := address data in
      assert_within (mr_mem m) data (size ly) ;;
      let needlock := arrayelem_islocked ly in
      let* fsz := reads (fun H => jl_datatype_size H depth rty) in
      if isatomic && negb needlock then jl_atomic_store_bits data rhs fsz
      else if needlock then
        jl_lock_field self data ;;
        memassign_safe depth hasptr (shift data lock_offset) rhs fsz ;;
        jl_unlock_field self data
      else memassign_safe depth hasptr data rhs fsz.

(** The data of an element and, in inline unions, its selector. *)
Definition element_data (m : jl_genericmemoryref_t) (ly : jl_datatype_layout_t) (eltype : ptr) (isatomic : bool) : M (loc * option loc) :=
  if arrayelem_isunion ly then
    assert_ (negb isatomic) ;;
    let* u := reads (fun H => jl_is_uniontype H eltype) in
    assert_ u ;;
    let* (data, psel) := union_element (mr_mem m) ly (mr_elem m) in
    ret (data, Some psel)
  else let* data := address (mr_elem m) in ret (data, None).

Definition elem_kind (isatomic : bool) : atomic_kind := if isatomic then isatomic_field else isatomic_none.

Definition jl_memoryrefswap (m : jl_genericmemoryref_t) (rhs : ptr) (isatomic : bool) : M ptr :=
  let* eltype := eltype_of (mr_mem m) in
  check_element eltype rhs ;;
  let* ly := layout_of (mr_mem m) in
  if arrayelem_isboxed ly then
    let* p := address (mr_elem m) in
    assert_within (mr_mem m) p 8 ;;
    let* r := atomic_exchange p 8 rhs in
    if r =? 0 then throw undefref_exception else ret r
  else
    let* (data, psel) := element_data m ly eltype isatomic in
    swap_bits depth alloc junk self B eltype data psel (mr_mem m) rhs (elem_kind isatomic).

Definition jl_memoryrefmodify (m : jl_genericmemoryref_t) (op rhs : ptr) (isatomic : bool) : M ptr :=
  let* eltype := eltype_of (mr_mem m) in
  let* ly := layout_of (mr_mem m) in
  if arrayelem_isboxed ly then
    let* p := address (mr_elem m) in
    assert_within (mr_mem m) p 8 ;;
    modify_value depth alloc junk self jl_isa tries jl_apply_modify_type jl_apply_generic eltype p op rhs
  else
    let* (data, psel) := element_data m ly eltype isatomic in
    modify_bits depth alloc junk self B jl_isa egal_fuel tries jl_apply_modify_type jl_apply_generic eltype data psel (mr_mem m) op rhs (elem_kind isatomic).

Definition jl_memoryrefreplace (m : jl_genericmemoryref_t) (expected rhs : ptr) (isatomic : bool) : M ptr :=
  let* eltype := eltype_of (mr_mem m) in
  check_element eltype rhs ;;
  let* ly := layout_of (mr_mem m) in
  if arrayelem_isboxed ly then
    let* p := address (mr_elem m) in
    assert_within (mr_mem m) p 8 ;;
    replace_value depth alloc junk self B egal_fuel tries jl_apply_cmpswap_type eltype p expected rhs
  else
    let* (data, psel) := element_data m ly eltype isatomic in
    replace_bits depth alloc junk self egal_fuel tries jl_apply_cmpswap_type eltype data psel (mr_mem m) expected rhs (elem_kind isatomic).

Definition jl_memoryrefsetonce (m : jl_genericmemoryref_t) (rhs : ptr) (isatomic : bool) : M bool :=
  let* eltype := eltype_of (mr_mem m) in
  check_element eltype rhs ;;
  let* ly := layout_of (mr_mem m) in
  if arrayelem_isboxed ly then
    let* p := address (mr_elem m) in
    assert_within (mr_mem m) p 8 ;;
    let* (success, _) := atomic_cmpswap p 8 0 rhs in
    ret success
  else if arrayelem_isunion ly then
    let* (_, _) := element_data m ly eltype isatomic in ret false
  else if first_ptr ly <? 0 then ret false
  else
    let* data := address (mr_elem m) in
    setonce_bits depth self tries eltype data (mr_mem m) rhs (elem_kind isatomic).
End Open.
End Memory.
