(* ===== verification/GenericMemoryFacts.v ===== *)
(** * Memories: storing and reading elements, allocation

    What is stored in an element of a memory is read back and the other
    elements stay as they are; a new memory has the length asked for, or its
    size is refused. *)

From stdpp Require Import base gmap numbers option list.
From Stdlib Require Import ZArith Lia.
From S2P Require Import Prelude Probe Identity SmallIntSet Hashing HashingFacts Bytes Objects Egal EgalFacts HeapMonad LayoutCore LayoutCoreFacts Layout LayoutHeap LayoutFacts LayoutSound Bits Fields BitsFacts FieldsFacts Construct GenericMemory.

(** ** Memories *)

(** The bytes of the elements and of the selectors. *)
Definition elements_size (ly : jl_datatype_layout_t) (len : Z) : Z := len * size ly + (if arrayelem_isunion ly then len else 0).

(** [m] is a memory of [len] elements; they begin at [off] in the block
    [blk], which is the memory itself or another object. *)
Record memory_at (H : heap) (m : ptr) (d : jl_datatype_t) (ly : jl_datatype_layout_t) (eltype : ptr) (len : Z) (blk off hb : Z) (data : list Z) : Prop := {
  ma_datatype : mem_datatype H m = Ok d;
  ma_layout : the_layout d = Ok ly;
  ma_eltype : jl_tparam H d 1 = Ok eltype;
  ma_length : mem_length H m = Ok len;
  ma_ptr : mem_ptr H m = Ok (blk, off);
  ma_block : holder H blk hb data;
  ma_own : blk = m -> sizeof_jl_genericmemory_t <= off;
  ma_range : 0 <= off /\ 0 <= len < 2 ^ 64 /\ 0 <= size ly;
  ma_fits : off + elements_size ly len <= Z.of_nat (length data) < 2 ^ 64;
  ma_boxed : arrayelem_isboxed ly = true -> arrayelem_isunion ly = false /\ size ly = 8
}.

(** The reference to the element number [i]. *)
Definition elem_at (ly : jl_datatype_layout_t) (blk off i : Z) : element :=
  if arrayelem_isunion ly || (size ly =? 0) then Offset i else Ptr (blk, off + i * size ly).

(** Where the selector of the element is. *)
Definition selector_at (ly : jl_datatype_layout_t) (off len i : Z) : Z := off + len * size ly + i.

Section Reads.
Context (H : heap) (m : ptr) (d : jl_datatype_t) (ly : jl_datatype_layout_t) (eltype : ptr) (len blk off hb : Z) (data : list Z).
Context (Hm : memory_at H m d ly eltype len blk off hb data).

Lemma layout_of_Ok {X} (k : jl_datatype_layout_t -> M X) : bind (layout_of m) k H = k ly H.
Proof. apply bind_reads_Ok. unfold mem_layout. rewrite (ma_datatype _ _ _ _ _ _ _ _ _ _ Hm). apply Hm. Qed.

Lemma eltype_of_Ok {X} (k : ptr -> M X) : bind (eltype_of m) k H = k eltype H.
Proof. apply bind_reads_Ok. unfold mem_eltype. rewrite (ma_datatype _ _ _ _ _ _ _ _ _ _ Hm). apply Hm. Qed.

Lemma bind_assert {X} b (k : unit -> M X) (H0 : heap) : b = true -> bind (assert_ b) k H0 = k tt H0.
Proof. by intros ->. Qed.

Lemma elements_room i : 0 <= i < len -> 0 <= i * size ly /\ i * size ly + size ly <= len * size ly /\ off + len * size ly <= Z.of_nat (length data) /\
  (arrayelem_isunion ly = true -> selector_at ly off len i < Z.of_nat (length data)).
Proof.
  intros Hi. destruct (ma_range _ _ _ _ _ _ _ _ _ _ Hm) as (Ho & Hl & Hs). pose proof (ma_fits _ _ _ _ _ _ _ _ _ _ Hm) as Hf. unfold elements_size, selector_at in *.
  destruct (arrayelem_isunion ly); repeat split; intros; try done; try lia; nia.
Qed.

Lemma assert_within_Ok {X} i sz (k : unit -> M X) : 0 <= i < len -> 0 < size ly -> sz = size ly -> bind (assert_within m (blk, off + i * size ly) sz) k H = k tt H.
Proof.
  intros Hi Hp ->. destruct (elements_room i Hi) as (H1 & H2 & H3 & _). destruct (ma_range _ _ _ _ _ _ _ _ _ _ Hm) as (Ho & Hl & Hs).
  pose proof (ma_fits _ _ _ _ _ _ _ _ _ _ Hm) as [_ Hf].
  unfold assert_within. rewrite bind_bind, (bind_reads_Ok _ _ H true); [done |]. unfold within.
  rewrite (ma_ptr _ _ _ _ _ _ _ _ _ _ Hm). cbn [obind]. rewrite (ma_length _ _ _ _ _ _ _ _ _ _ Hm). cbn [obind fst snd]. rewrite Z.eqb_refl. cbn [negb].
  rewrite !u64_small by lia. f_equal. apply Z.ltb_lt. lia.
Qed.

Lemma union_element_Ok {X} i (k : loc * loc -> M X) : 0 <= i < len -> arrayelem_isunion ly = true ->
  bind (union_element m ly (Offset i)) k H = k ((blk, off + i * size ly), (blk, selector_at ly off len i)) H.
Proof.
  intros Hi Hu. destruct (elements_room i Hi) as (H1 & H2 & H3 & _). destruct (ma_range _ _ _ _ _ _ _ _ _ _ Hm) as (Ho & Hl & Hs).
  pose proof (ma_fits _ _ _ _ _ _ _ _ _ _ Hm) as [_ Hf].
  unfold union_element. rewrite bind_bind, (bind_reads_Ok _ _ H len) by apply Hm. rewrite bind_bind, bind_assert by (apply Z.ltb_lt; lia).
  rewrite bind_bind, (bind_reads_Ok _ _ H (blk, off + len * size ly)).
  - rewrite bind_bind, (bind_reads_Ok _ _ H (blk, off)) by apply Hm. rewrite bind_ret. done.
  - unfold jl_genericmemory_typetagdata, mem_layout. rewrite (ma_datatype _ _ _ _ _ _ _ _ _ _ Hm). cbn [obind]. rewrite (ma_layout _ _ _ _ _ _ _ _ _ _ Hm). cbn [obind].
    rewrite (ma_ptr _ _ _ _ _ _ _ _ _ _ Hm). cbn [obind]. rewrite (ma_length _ _ _ _ _ _ _ _ _ _ Hm). cbn [obind]. rewrite Hu. cbn [negb].
    rewrite u64_small by lia. done.
Qed.

(** Moving a reference from the first element. *)
Lemma memoryrefindex_Ok i : 0 <= i < len -> jl_memoryrefindex (Memoryref m (elem_at ly blk off 0)) i H = Ok (Ret (Memoryref m (elem_at ly blk off i)), H).
Proof.
  intros Hi. unfold jl_memoryrefindex, elem_at. cbn [mr_mem mr_elem]. rewrite layout_of_Ok. destruct (ma_range _ _ _ _ _ _ _ _ _ _ Hm) as (Ho & Hl & Hs).
  assert (Eb : (arrayelem_isboxed ly || negb (arrayelem_isunion ly)) && negb (size ly =? 0) = negb (arrayelem_isunion ly || (size ly =? 0))).
  { pose proof (ma_boxed _ _ _ _ _ _ _ _ _ _ Hm) as Hb. destruct (arrayelem_isboxed ly), (arrayelem_isunion ly), (size ly =? 0); try done; by destruct (Hb eq_refl). }
  rewrite Eb. destruct (arrayelem_isunion ly || (size ly =? 0)) eqn:E; cbn [negb].
  - rewrite Z.add_0_l, u64_small by lia. rewrite (bind_reads_Ok _ _ H len) by apply Hm. by rewrite bind_assert by (apply Z.ltb_lt; lia).
  - apply orb_false_elim in E as [_ E%Z.eqb_neq]. cbn [address]. rewrite bind_ret. unfold shift. cbn [fst snd]. rewrite Z.mul_0_l, Z.add_0_r.
    by rewrite assert_within_Ok by (done || lia).
Qed.
End Reads.

(** Writing to elements leaves the memory as it is. *)
Lemma mem_word_wrote H H1 m d ly eltype len blk off hb data data1 o : memory_at H m d ly eltype len blk off hb data -> wrote H H1 blk hb data1 -> length data1 = length data ->
  (blk = m -> slice data1 0 sizeof_jl_genericmemory_t = slice data 0 sizeof_jl_genericmemory_t) -> o = 0 \/ o = 8 -> load_uint H1 (m, o) 8 = load_uint H (m, o) 8.
Proof.
  intros Hm W Hl Hh Ho. destruct (decide (blk = m)) as [-> | Hne].
  - pose proof (ma_own _ _ _ _ _ _ _ _ _ _ Hm eq_refl) as Hoff. pose proof (ma_range _ _ _ _ _ _ _ _ _ _ Hm) as (_ & Hlen & Hs). pose proof (ma_fits _ _ _ _ _ _ _ _ _ _ Hm) as [Hf _].
    unfold elements_size, sizeof_jl_genericmemory_t in *. assert (16 <= Z.of_nat (length data)) by (destruct (arrayelem_isunion ly); nia).
    rewrite (load_uint_data H1 m hb data1) by (apply W || lia). rewrite (load_uint_data H m hb data) by (apply Hm || lia). do 2 f_equal.
    specialize (Hh eq_refl). pose proof (slice_slice data1 0 16 o 8) as E1. pose proof (slice_slice data 0 16 o 8) as E2. rewrite Z.add_0_l in E1, E2.
    rewrite <- E1, <- E2 by lia. by rewrite Hh.
  - unfold load_uint, load_bytes, data_at, deref. cbn [fst]. by rewrite (wr_other _ _ _ _ _ W) by done.
Qed.

Lemma vc_tparam H H' d i t : value_change H H' -> jl_tparam H d i = Ok t -> jl_tparam H' d i = Ok t.
Proof. intros V (l & El%(vc_svec H H' V) & E)%obind_Ok_inv. unfold jl_tparam. by rewrite El. Qed.

Lemma vc_mem_datatype H H' m d : value_change H H' -> mem_datatype H m = Ok d -> mem_datatype H' m = Ok d.
Proof. intros V (t & Et%(vc_typetagof H H' V) & E%(vc_datatype H H' V))%obind_Ok_inv. unfold mem_datatype. by rewrite Et. Qed.

Lemma memory_at_wrote H H1 m d ly eltype len blk off hb data data1 : memory_at H m d ly eltype len blk off hb data -> wrote H H1 blk hb data1 -> length data1 = length data ->
  Forall is_byte data1 -> (blk = m -> slice data1 0 sizeof_jl_genericmemory_t = slice data 0 sizeof_jl_genericmemory_t) -> memory_at H1 m d ly eltype len blk off hb data1.
Proof.
  intros Hm W Hl Hb Hh. pose proof (ma_block _ _ _ _ _ _ _ _ _ _ Hm) as [Hd _ Hth]. pose proof (wrote_change _ _ _ _ _ _ Hd Hth W) as V.
  split; try apply Hm.
  - apply (vc_mem_datatype H H1 _ _ V), Hm.
  - apply (vc_tparam H H1 _ _ _ V), Hm.
  - unfold mem_length. rewrite (mem_word_wrote H H1 m d ly eltype len blk off hb data data1 0) by (done || auto). apply Hm.
  - unfold mem_ptr. rewrite (mem_word_wrote H H1 m d ly eltype len blk off hb data data1 8) by (done || auto). apply Hm.
  - split; [apply W | done | done].
  - rewrite Hl. apply Hm.
Qed.

(** ** Storing and reading back *)

Section Elements.
Context (depth : nat) (alloc : heap -> Z -> ptr) (junk : heap -> Z -> Z) (self : ptr) (B : boxes) (jl_isa : heap -> ptr -> ptr -> outcome bool).
Context (alloc_fresh : forall H sz, objects H !! alloc H sz = None) (alloc_nonnull : forall H sz, alloc H sz <> 0) (Hself : 0 < self < 2 ^ 64).

(** The value [rhs] can be stored in the elements of a memory that have no
    locks; if it is stored inline, its type and bytes. *)
Inductive element_value (H : heap) (blk : ptr) (ly : jl_datatype_layout_t) (eltype rhs : ptr) : option (ptr * list Z) -> Prop :=
| elem_boxed t : arrayelem_isboxed ly = true -> jl_typeof H rhs = Ok t -> 0 < rhs < 2 ^ 64 -> element_value H blk ly eltype rhs None
| elem_inline rd rl bs : arrayelem_isboxed ly = false -> arrayelem_isunion ly = false -> arrayelem_islocked ly = false ->
    inline_value alloc junk B H blk rhs eltype rd rl bs -> room (atomic_elements ly) (size rl) <= size ly -> is_locked (atomic_elements ly) (size rl) = false ->
    (size ly = 0 -> npointers rl = 0) -> element_value H blk ly eltype rhs (Some (eltype, bs))
| elem_union rty rd rl bs nth c : arrayelem_isboxed ly = false -> arrayelem_isunion ly = true -> atomic_elements ly = false ->
    jl_is_uniontype H eltype = Ok true -> union_count H depth eltype = Ok c -> c < 127 -> jl_find_union_component H depth eltype rty = Ok (true, nth) ->
    inline_value alloc junk B H blk rhs rty rd rl bs -> size rl <= size ly -> (size ly = 0 -> npointers rl = 0) -> element_value H blk ly eltype rhs (Some (rty, bs)).

(** The block holds the value in the element number [i]. *)
Inductive element_holds (H : heap) (ly : jl_datatype_layout_t) (eltype : ptr) (off len : Z) (data : list Z) (i : Z) (rhs : ptr) : option (ptr * list Z) -> Prop :=
| eh_boxed : arrayelem_isboxed ly = true -> 0 < rhs < 2 ^ 64 -> slice data (off + i * size ly) 8 = le_bytes 8 rhs -> element_holds H ly eltype off len data i rhs None
| eh_inline rd rl bs : arrayelem_isboxed ly = false -> arrayelem_isunion ly = false -> arrayelem_islocked ly = false ->
    value_type alloc junk B H eltype rd rl -> (forall t, smalltag rd = Some t -> bool_bits t bs) -> defined_bits rl bs ->
    room (atomic_elements ly) (size rl) <= size ly -> is_locked (atomic_elements ly) (size rl) = false -> (size ly = 0 -> npointers rl = 0) ->
    slice data (off + i * size ly) (size rl) = bs -> element_holds H ly eltype off len data i rhs (Some (eltype, bs))
| eh_union rty rd rl bs nth j : arrayelem_isboxed ly = false -> arrayelem_isunion ly = true -> atomic_elements ly = false ->
    jl_is_uniontype H eltype = Ok true -> nth_union_component H depth eltype nth = Ok (Some rty, j) -> is_byte nth ->
    value_type alloc junk B H rty rd rl -> (forall t, smalltag rd = Some t -> bool_bits t bs) -> defined_bits rl bs ->
    size rl <= size ly -> (size ly = 0 -> npointers rl = 0) -> slice data (off + i * size ly) (size rl) = bs ->
    slice data (selector_at ly off len i) 1 = [nth] -> element_holds H ly eltype off len data i rhs (Some (rty, bs)).

(** The rest of the block is as before. *)
Definition same_rest (ly : jl_datatype_layout_t) (off len i : Z) (data data1 : list Z) : Prop :=
  forall o n, 0 <= o -> 0 <= n -> o + n <= off + i * size ly \/ off + i * size ly + size ly <= o ->
    (arrayelem_isunion ly = true -> o + n <= selector_at ly off len i \/ selector_at ly off len i + 1 <= o) -> slice data1 o n = slice data o n.

Lemma check_element_Ok {X} H eltype rhs t (k : unit -> M X) : jl_typeof H rhs = Ok t -> eltype = jl_any_type H \/ t = eltype \/ jl_isa H rhs eltype = Ok true ->
  bind (check_element jl_isa eltype rhs) k H = k tt H.
Proof.
  intros Ht Hc. unfold check_element. rewrite bind_bind, (bind_reads_Ok _ _ H (eltype =? jl_any_type H)) by done. rewrite bind_bind, (bind_reads_Ok _ _ H t) by done.
  destruct (Z.eqb_spec eltype (jl_any_type H)); cbn [negb andb]; [done |]. destruct (Z.eqb_spec t eltype); cbn [negb]; [done |].
  destruct Hc as [? | [? | Hc]]; [done | done |]. unfold check_isa. by rewrite bind_bind, (bind_reads_Ok _ _ H true).
Qed.

(** The last part of a store that takes no lock. *)
Lemma store_inline_spec H blk hb data o ty rty rhs rd rl bs hasptr a : inline_value alloc junk B H blk rhs rty rd rl bs -> holder H blk hb data -> 0 <= o ->
  o + room a (size rl) <= Z.of_nat (length data) -> is_locked a (size rl) = false -> (a = true -> rty = ty) ->
  exists H1 data1, (let* fsz := reads (fun H => jl_datatype_size H depth rty) in
      if a then jl_atomic_store_bits (blk, o) rhs fsz else memassign_safe depth hasptr (blk, o) rhs fsz) H = Ok (Ret tt, H1) /\
    wrote H H1 blk hb data1 /\ updated false data data1 o (room a (size rl)) bs.
Proof.
  intros Hiv [Hd Hb Hth] Ho Hl Hlk Hty. destruct (write_inline_spec depth alloc junk self B Hself H blk hb data o ty rty rhs rd rl bs hasptr a Hiv Hd Hb Hth Ho Hl Hty) as (H1 & data1 & E & W & U);
    [by rewrite Hlk |]. rewrite Hlk in U. exists H1, data1. split; [| done]. rewrite <- E. unfold write_inline.
  assert (Es : jl_datatype_size H depth rty = Ok (size rl)) by (apply (value_size depth alloc junk B H rty rd), Hiv).
  rewrite !(bind_reads_Ok _ _ H (size rl)) by done. unfold is_locked in Hlk. destruct a; cbn [andb negb] in *; [| done]. rewrite Hlk, Hty, Z.eqb_refl by done. done.
Qed.

Lemma same_rest_updated ly off len i data data1 n bs : updated false data data1 (off + i * size ly) n bs -> n <= size ly -> same_rest ly off len i data data1.
Proof. intros U Hn o k Ho Hk Hd _. apply (up_frame _ _ _ _ _ _ U); (done || lia). Qed.

Section Memory.
Context (H : heap) (m : ptr) (d : jl_datatype_t) (ly : jl_datatype_layout_t) (eltype : ptr) (len blk off hb : Z) (data : list Z) (i : Z).
Context (Hm : memory_at H m d ly eltype len blk off hb data) (Hi : 0 <= i < len).
Let e := Memoryref m (elem_at ly blk off i).

(** Down to the kind of the elements. *)
Lemma set_start rhs t : jl_typeof H rhs = Ok t -> eltype = jl_any_type H \/ t = eltype \/ jl_isa H rhs eltype = Ok true ->
  jl_memoryrefset depth self jl_isa e rhs (atomic_elements ly) H =
    (if arrayelem_isboxed ly then
       let* p := address (mr_elem e) in assert_within m p 8 ;; store p 8 rhs
     else
       let* (hasptr, data) :=
         if arrayelem_isunion ly then
           assert_ (negb (atomic_elements ly)) ;;
           let* u := reads (fun H => jl_is_uniontype H eltype) in
           assert_ u ;;
           let* (data, psel) := union_element m ly (mr_elem e) in
           select depth eltype t psel ;;
           ret (false, Ptr data)
         else ret (0 <=? first_ptr ly, mr_elem e) in
       if size ly =? 0 then ret tt
       else
         let* data := address data in
         assert_within m data (size ly) ;;
         let* fsz := reads (fun H => jl_datatype_size H depth t) in
         if atomic_elements ly && negb (arrayelem_islocked ly) then jl_atomic_store_bits data rhs fsz
         else if arrayelem_islocked ly then
           jl_lock_field self data ;;
           memassign_safe depth hasptr (shift data lock_offset) rhs fsz ;;
           jl_unlock_field self data
         else memassign_safe depth hasptr data rhs fsz) H.
Proof.
  intros Ht Hc. unfold jl_memoryrefset, e. cbn [mr_mem]. rewrite (layout_of_Ok H m d ly eltype len blk off hb data Hm). rewrite bind_assert by (apply eqb_reflx).
  rewrite (eltype_of_Ok H m d ly eltype len blk off hb data Hm). rewrite (check_element_Ok H eltype rhs t) by done.
  destruct (arrayelem_isboxed ly); [done |]. by rewrite (bind_reads_Ok _ _ H t).
Qed.

Lemma elem_ptr : arrayelem_isunion ly = false -> size ly <> 0 -> elem_at ly blk off i = Ptr (blk, off + i * size ly).
Proof. intros Hu Hz. unfold elem_at. rewrite Hu, (proj2 (Z.eqb_neq _ _) Hz). done. Qed.

Lemma set_boxed rhs t : arrayelem_isboxed ly = true -> jl_typeof H rhs = Ok t -> 0 < rhs < 2 ^ 64 -> eltype = jl_any_type H \/ t = eltype \/ jl_isa H rhs eltype = Ok true ->
  exists H1 data1, jl_memoryrefset depth self jl_isa e rhs (atomic_elements ly) H = Ok (Ret tt, H1) /\ wrote H H1 blk hb data1 /\ length data1 = length data /\ Forall is_byte data1 /\
    element_holds H1 ly eltype off len data1 i rhs None /\ same_rest ly off len i data data1.
Proof.
  intros Hb Ht Hr Hc. destruct (ma_boxed _ _ _ _ _ _ _ _ _ _ Hm Hb) as [Hu H8]. destruct (elements_room H m d ly eltype len blk off hb data Hm i Hi) as (R1 & R2 & R3 & _).
  destruct (ma_range _ _ _ _ _ _ _ _ _ _ Hm) as (Ho & _ & _). pose proof (ma_block _ _ _ _ _ _ _ _ _ _ Hm) as [Hd Hbs Hth].
  rewrite (set_start rhs t Ht Hc), Hb. unfold e. cbn [mr_elem]. rewrite elem_ptr by (done || lia). cbn [address]. rewrite bind_ret.
  rewrite (assert_within_Ok H m d ly eltype len blk off hb data Hm i 8) by (done || lia).
  destruct (store_wrote H blk hb data (off + i * size ly) (le_bytes 8 rhs) Hd) as (H1 & E1 & W1); [lia | rewrite length_le_bytes; lia |].
  assert (U : updated false data (splice data (off + i * size ly) (le_bytes 8 rhs)) (off + i * size ly) 8 (le_bytes 8 rhs)).
  { apply updated_splice; [done | apply le_bytes_bytes | lia | rewrite length_le_bytes; lia | lia | by rewrite take_ge]. }
  exists H1, (splice data (off + i * size ly) (le_bytes 8 rhs)). split; [unfold store, writes; change (Z.to_nat 8) with 8%nat; by rewrite E1 |].
  split; [done |]. split; [apply U |]. split; [apply U |]. split; [| eapply same_rest_updated; [exact U | lia]].
  apply eh_boxed; [done | done |]. pose proof (up_value _ _ _ _ _ _ U) as UV. by rewrite length_le_bytes in UV.
Qed.

(** The bytes of a value. *)
Lemma inline_length rhs rty rd rl bs : inline_value alloc junk B H blk rhs rty rd rl bs -> Z.of_nat (length bs) = size rl.
Proof.
  intros Hiv. destruct (in_data _ _ _ _ _ _ _ _ _ _ Hiv) as (hr & rdata & _ & _ & Hl & ->). pose proof (vt_size _ _ _ _ _ _ _ (in_vt _ _ _ _ _ _ _ _ _ _ Hiv)) as Hs.
  pose proof (word_align _ Hs) as [? _]. rewrite length_slice; lia.
Qed.

Lemma set_inline_elem rhs rd rl bs : arrayelem_isboxed ly = false -> arrayelem_isunion ly = false -> arrayelem_islocked ly = false ->
  inline_value alloc junk B H blk rhs eltype rd rl bs -> room (atomic_elements ly) (size rl) <= size ly -> is_locked (atomic_elements ly) (size rl) = false ->
  (size ly = 0 -> npointers rl = 0) ->
  exists H1 data1, jl_memoryrefset depth self jl_isa e rhs (atomic_elements ly) H = Ok (Ret tt, H1) /\ wrote H H1 blk hb data1 /\ length data1 = length data /\ Forall is_byte data1 /\
    element_holds H1 ly eltype off len data1 i rhs (Some (eltype, bs)) /\ same_rest ly off len i data data1.
Proof.
  intros Hb Hu Hlk Hiv Hroom Hil Hnp. pose proof (in_vt _ _ _ _ _ _ _ _ _ _ Hiv) as Hvt. pose proof (vt_size _ _ _ _ _ _ _ Hvt) as Hs. pose proof (room_bound (atomic_elements ly) (size rl) ltac:(lia)) as Hrb.
  destruct (elements_room H m d ly eltype len blk off hb data Hm i Hi) as (R1 & R2 & R3 & _). pose proof (ma_block _ _ _ _ _ _ _ _ _ _ Hm) as Hho. pose proof (inline_length _ _ _ _ _ Hiv) as Hbl.
  destruct (ma_range _ _ _ _ _ _ _ _ _ _ Hm) as (Ho & _ & _).
  rewrite (set_start rhs eltype (in_type _ _ _ _ _ _ _ _ _ _ Hiv)) by auto. rewrite Hb, Hu, bind_ret. unfold e. cbn [mr_elem]. destruct (Z.eqb_spec (size ly) 0) as [E0 | E0].
  - exists H, data. split; [done |]. split; [by apply wrote_refl; apply Hho |]. split; [done |]. split; [apply Hho |]. split; [| by intros o n].
    apply (eh_inline _ _ _ _ _ _ _ _ rd rl bs); try done; [apply Hiv | by eapply inline_value_defined |]. replace (size rl) with 0 in * by lia. unfold slice. cbn. by destruct bs.
  - rewrite elem_ptr by done. cbn [address]. rewrite bind_ret. rewrite (assert_within_Ok H m d ly eltype len blk off hb data Hm i (size ly)) by (done || lia). rewrite Hlk. cbn [negb].
    rewrite andb_true_r.
    destruct (store_inline_spec H blk hb data (off + i * size ly) eltype eltype rhs rd rl bs (0 <=? first_ptr ly) (atomic_elements ly) Hiv Hho) as (H1 & data1 & E & W & U);
      [lia | lia | done | done |].
    exists H1, data1. split; [exact E |]. split; [done |]. split; [apply U |]. split; [apply U |]. split; [| by eapply same_rest_updated].
    pose proof (wrote_change _ _ _ _ _ _ (ho_data _ _ _ _ Hho) (ho_header _ _ _ _ Hho) W) as V.
    apply (eh_inline _ _ _ _ _ _ _ _ rd rl bs); try done; [by apply (value_type_change alloc junk B H) | apply Hiv | by eapply inline_value_defined |]. rewrite <- Hbl. apply U.
Qed.

Lemma set_union_elem rhs rty rd rl bs nth c : arrayelem_isboxed ly = false -> arrayelem_isunion ly = true -> atomic_elements ly = false ->
  jl_is_uniontype H eltype = Ok true -> union_count H depth eltype = Ok c -> c < 127 -> jl_find_union_component H depth eltype rty = Ok (true, nth) ->
  inline_value alloc junk B H blk rhs rty rd rl bs -> size rl <= size ly -> (size ly = 0 -> npointers rl = 0) ->
  eltype = jl_any_type H \/ rty = eltype \/ jl_isa H rhs eltype = Ok true ->
  exists H1 data1, jl_memoryrefset depth self jl_isa e rhs (atomic_elements ly) H = Ok (Ret tt, H1) /\ wrote H H1 blk hb data1 /\ length data1 = length data /\ Forall is_byte data1 /\
    element_holds H1 ly eltype off len data1 i rhs (Some (rty, bs)) /\ same_rest ly off len i data data1.
Proof.
  intros Hb Hu Ha Hun Hcount Hc127 Hfind Hiv Hsz Hnp Hc. pose proof (in_vt _ _ _ _ _ _ _ _ _ _ Hiv) as Hvt. pose proof (vt_size _ _ _ _ _ _ _ Hvt) as Hs.
  destruct (elements_room H m d ly eltype len blk off hb data Hm i Hi) as (R1 & R2 & R3 & R4). specialize (R4 Hu). pose proof (ma_block _ _ _ _ _ _ _ _ _ _ Hm) as Hho. pose proof (inline_length _ _ _ _ _ Hiv) as Hbl.
  destruct (ma_range _ _ _ _ _ _ _ _ _ _ Hm) as (Ho & _ & _).
  destruct (find_nth H depth eltype c rty 0 true nth Hcount ltac:(lia) ltac:(lia) Hfind) as [Hn Hnth]. rewrite Z.sub_0_r in Hnth. assert (Hnb : is_byte nth) by (unfold is_byte; lia).
  assert (Hlkd : arrayelem_islocked ly = false) by (unfold atomic_elements in Ha; apply orb_false_elim in Ha; by destruct Ha).
  rewrite (set_start rhs rty (in_type _ _ _ _ _ _ _ _ _ _ Hiv)) by auto. rewrite Hb, Hu, Ha. unfold e. cbn [mr_elem negb andb]. unfold elem_at. rewrite Hu. cbn [orb].
  rewrite bind_bind, bind_assert by done. rewrite bind_bind, (bind_reads_Ok _ _ H true) by done. rewrite bind_bind, bind_assert by done.
  rewrite bind_bind, (union_element_Ok H m d ly eltype len blk off hb data Hm i) by done. set (so := selector_at ly off len i) in *.
  assert (Hso : off + len * size ly <= so) by (unfold so, selector_at; lia).
  unfold select. rewrite !bind_bind, (bind_reads_Ok _ _ H (true, nth)) by done.
  destruct (store_wrote H blk hb data so [nth] (ho_data _ _ _ _ Hho)) as (H1 & E1 & W1); [lia | cbn [length]; lia |].
  assert (Enb : le_bytes 1 nth = [nth]) by (cbn; by rewrite Z.mod_small by apply Hnb).
  unfold store. change (Z.to_nat 1) with 1%nat. rewrite Enb, (bind_writes_Ok _ _ _ H1) by exact E1. rewrite bind_ret.
  pose proof (wrote_change _ _ _ _ _ _ (ho_data _ _ _ _ Hho) (ho_header _ _ _ _ Hho) W1) as V1.
  set (data0 := splice data so [nth]) in *. assert (Hl0 : length data0 = length data) by (apply length_splice; cbn [length]; lia).
  assert (Hb0 : Forall is_byte data0) by (apply splice_bytes; [apply Hho | constructor; [exact Hnb | constructor]]).
  assert (Hsel : slice data0 so 1 = [nth]) by (unfold data0; rewrite slice_splice_in by (cbn [length]; lia); by rewrite Z.sub_diag).
  assert (Hfr : forall o n, 0 <= o -> 0 <= n -> o + n <= so \/ so + 1 <= o -> slice data0 o n = slice data o n) by (intros; apply slice_splice_other; cbn [length]; lia).
  pose proof (inline_value_wrote alloc junk B _ _ _ _ _ _ _ _ _ _ _ (ho_data _ _ _ _ Hho) (ho_header _ _ _ _ Hho) W1 Hiv) as Hiv1.
  assert (Hm1 : memory_at H1 m d ly eltype len blk off hb data0).
  { apply (memory_at_wrote H H1 m d ly eltype len blk off hb data data0 Hm W1 Hl0 Hb0). intros Eb. pose proof (ma_own _ _ _ _ _ _ _ _ _ _ Hm Eb). apply Hfr; unfold sizeof_jl_genericmemory_t in *; lia. }
  assert (Hend : forall H2 data2, wrote H1 H2 blk hb data2 -> length data2 = length data0 -> slice data2 (off + i * size ly) (size rl) = bs -> slice data2 so 1 = [nth] ->
    element_holds H2 ly eltype off len data2 i rhs (Some (rty, bs))).
  { intros H2 data2 W2 Hl2 Hv Hs2. pose proof (wrote_change _ _ _ _ _ _ (wr_data _ _ _ _ _ W1) (ho_header _ _ _ _ Hho) W2) as V2. assert (V : value_change H H2) by (by etrans).
    apply (eh_union _ _ _ _ _ _ _ _ rty rd rl bs nth 0); try done; [by apply (vc_is_tag H H2 V) | by apply (vc_nth_union H H2 V) | by apply (value_type_change alloc junk B H) | apply Hiv | by eapply inline_value_defined]. }
  destruct (Z.eqb_spec (size ly) 0) as [E0 | E0].
  - exists H1, data0. split; [done |]. split; [done |]. split; [done |]. split; [done |]. split.
    + apply Hend; [by apply wrote_refl, W1 | done | | done]. replace (size rl) with 0 in * by lia. unfold slice. cbn. by destruct bs.
    + intros o n Hon Hn2 _ Hd. apply Hfr; [done | done | by apply Hd].
  - cbn [address]. rewrite bind_ret. rewrite (assert_within_Ok H1 m d ly eltype len blk off hb data0 Hm1 i (size ly)) by (done || lia). rewrite Hlkd.
    destruct (store_inline_spec H1 blk hb data0 (off + i * size ly) rty rty rhs rd rl bs false false Hiv1 (ma_block _ _ _ _ _ _ _ _ _ _ Hm1)) as (H2 & data2 & E & W & U);
      [lia | unfold room; cbn [andb]; lia | done | done |].
    unfold room in U. cbn [andb] in U. exists H2, data2. split; [exact E |]. split; [by eapply wrote_trans |]. split; [rewrite (up_length _ _ _ _ _ _ U); done |]. split; [apply U |]. split.
    + apply Hend; [done | apply U | rewrite <- Hbl; apply U |]. rewrite (up_frame _ _ _ _ _ _ U) by (done || lia). done.
    + intros o n Hon Hn2 Hd1 Hd2. rewrite (up_frame _ _ _ _ _ _ U) by (done || lia). apply Hfr; [done | done | by apply Hd2].
Qed.

Lemma set_element rhs w t : element_value H blk ly eltype rhs w -> jl_typeof H rhs = Ok t -> eltype = jl_any_type H \/ t = eltype \/ jl_isa H rhs eltype = Ok true ->
  exists H1 data1, jl_memoryrefset depth self jl_isa e rhs (atomic_elements ly) H = Ok (Ret tt, H1) /\ wrote H H1 blk hb data1 /\ length data1 = length data /\ Forall is_byte data1 /\
    element_holds H1 ly eltype off len data1 i rhs w /\ same_rest ly off len i data data1.
Proof.
  intros [t' Hb Ht' Hr | rd rl bs Hb Hu Hlk Hiv Hroom Hil Hnp | rty rd rl bs nth c Hb Hu Ha Hun Hcount Hc127 Hfind Hiv Hsz Hnp] Ht Hc.
  - by apply (set_boxed rhs t).
  - by apply (set_inline_elem rhs rd rl bs).
  - pose proof (in_type _ _ _ _ _ _ _ _ _ _ Hiv) as Ht2. rewrite Ht in Ht2. injection Ht2 as ->. by apply (set_union_elem rhs rty rd rl bs nth c).
Qed.

(** *** Reading *)

Lemma singleton_Ok q rd rl : value_type alloc junk B H q rd rl -> size rl = 0 -> npointers rl = 0 -> jl_is_datatype_singleton rd = Ok true /\ is_value H (dt_instance rd) q [].
Proof.
  intros Hvt E0 Hn. destruct (vt_single _ _ _ _ _ _ _ Hvt E0) as [_ Hv]. split; [| done]. unfold jl_is_datatype_singleton.
  rewrite (proj2 (Z.eqb_neq _ _) (iv_addr _ _ _ _ Hv)), (value_the_layout _ _ _ _ _ _ _ Hvt). cbn [obind]. by rewrite E0, Hn.
Qed.

(** The last part of reading an inline element without a lock. *)
Lemma read_inline_elem q rd rl bs a : boxes_ok B H -> value_type alloc junk B H q rd rl -> (forall t, smalltag rd = Some t -> bool_bits t bs) -> defined_bits rl bs ->
  room a (size rl) <= size ly -> is_locked a (size rl) = false -> slice data (off + i * size ly) (size rl) = bs ->
  exists r H', (let* r := if a then jl_atomic_new_bits depth alloc junk B q (blk, off + i * size ly) else jl_new_bits depth alloc junk B q (blk, off + i * size ly) in
      let* r := checked rd r in if r =? 0 then throw undefref_exception else ret r) H = Ok (Ret r, H') /\ is_value H' r q bs.
Proof.
  intros HB Hvt Hbool Hdef Hroom Hil Hs. pose proof (ma_block _ _ _ _ _ _ _ _ _ _ Hm) as [Hd Hbs Hth]. destruct (elements_room H m d ly eltype len blk off hb data Hm i Hi) as (R1 & R2 & R3 & _).
  destruct (ma_range _ _ _ _ _ _ _ _ _ _ Hm) as (Ho & _ & _).
  destruct (read_inline_spec depth alloc junk self B alloc_fresh alloc_nonnull Hself H blk hb data (off + i * size ly) q rd rl bs a HB Hvt Hd Hbs Hth) as (r & H' & E & Hv & V);
    [lia | lia | done | done | done | by rewrite Hil |]. exists r, H'. split; [| done]. revert E. unfold read_inline.
  rewrite (bind_reads_Ok _ _ H (size rl)) by (by apply (value_size depth alloc junk B H q rd)). unfold is_locked in Hil. rewrite Hil. cbn [negb]. rewrite andb_true_r.
  intros (r0 & H1 & E0 & (d' & H2 & Ed & Ec)%bind_Ret_inv)%bind_Ret_inv. rewrite (bind_Ret _ _ _ _ _ E0).
  unfold datatype in Ed. apply reads_inv in Ed as (d2 & Ed & [= ->] & ->). pose proof Ec as (u & H3 & (u' & _ & _ & ->)%reads_inv & [= _ EH])%bind_Ret_inv. subst H'.
  rewrite (vc_datatype H H1 V q rd) in Ed by apply Hvt. injection Ed as <-. rewrite (bind_Ret _ _ _ _ _ Ec).
  by rewrite (proj2 (Z.eqb_neq _ _) (iv_addr _ _ _ _ Hv)).
Qed.

Lemma get_element rhs w : boxes_ok B H -> element_holds H ly eltype off len data i rhs w ->
  exists r H', jl_memoryrefget depth alloc junk self B e (atomic_elements ly) H = Ok (Ret r, H') /\ reads_as H' r rhs w.
Proof.
  intros HB Hh. pose proof (ma_block _ _ _ _ _ _ _ _ _ _ Hm) as [Hd Hbs Hth]. destruct (elements_room H m d ly eltype len blk off hb data Hm i Hi) as (R1 & R2 & R3 & R4).
  destruct (ma_range _ _ _ _ _ _ _ _ _ _ Hm) as (Ho & _ & Hs0).
  unfold jl_memoryrefget, e. cbn [mr_mem]. rewrite (layout_of_Ok H m d ly eltype len blk off hb data Hm). rewrite bind_assert by (apply eqb_reflx).
  destruct Hh as [Hb Hr Hs | rd rl bs Hb Hu Hlk Hvt Hbool Hdef Hroom Hil Hnp Hs | rty rd rl bs nth j Hb Hu Ha Hun Hnth Hnb Hvt Hbool Hdef Hsz Hnp Hs Hsel]; rewrite Hb.
  - destruct (ma_boxed _ _ _ _ _ _ _ _ _ _ Hm Hb) as [Hu H8]. exists rhs, H. split; [| done]. unfold jl_ptrmemrefget. cbn [mr_mem mr_elem]. rewrite elem_ptr by (done || lia).
    cbn [address]. rewrite bind_ret, (assert_within_Ok H m d ly eltype len blk off hb data Hm i 8) by (done || lia). unfold Bits.load.
    rewrite (bind_reads_Ok _ _ H rhs); [by rewrite (proj2 (Z.eqb_neq rhs 0)) by lia |]. rewrite (load_uint_data H blk hb data) by (done || lia).
    by rewrite Hs, le_word_le_bytes, Z.mod_small by lia.
  - rewrite (eltype_of_Ok H m d ly eltype len blk off hb data Hm). cbn [mr_elem]. rewrite Hu, bind_ret. rewrite (datatype_Ok eltype rd) by apply Hvt.
    pose proof (vt_size _ _ _ _ _ _ _ Hvt) as Hz. pose proof (room_bound (atomic_elements ly) (size rl) ltac:(lia)). destruct (Z.eqb_spec (size ly) 0) as [E0 | E0].
    + destruct (singleton_Ok eltype rd rl Hvt ltac:(lia) (Hnp E0)) as [Es Hv]. exists (dt_instance rd), H. rewrite (bind_reads_Ok _ _ H true) by done. split; [done |].
      replace (size rl) with 0 in Hs by lia. unfold slice in Hs. cbn in Hs. by subst bs.
    + rewrite elem_ptr by done. cbn [address]. rewrite bind_ret, (assert_within_Ok H m d ly eltype len blk off hb data Hm i (size ly)) by (done || lia).
      rewrite (bind_reads_Ok _ _ H (size rl)) by (by apply (value_size depth alloc junk B H eltype rd)). rewrite Hlk. cbn [negb]. rewrite andb_true_r.
      by apply (read_inline_elem eltype rd rl bs (atomic_elements ly)).
  - rewrite (eltype_of_Ok H m d ly eltype len blk off hb data Hm). cbn [mr_elem]. rewrite Hu, Ha. cbn [negb andb]. unfold elem_at. rewrite Hu. cbn [orb]. specialize (R4 Hu).
    assert (Hso : off + len * size ly <= selector_at ly off len i) by (unfold selector_at; lia).
    assert (Hlkd : arrayelem_islocked ly = false) by (unfold atomic_elements in Ha; apply orb_false_elim in Ha; by destruct Ha).
    rewrite bind_bind, bind_assert by done. rewrite bind_bind, (bind_reads_Ok _ _ H true) by done. rewrite bind_bind, bind_assert by done.
    rewrite bind_bind, (union_element_Ok H m d ly eltype len blk off hb data Hm i) by done. unfold Bits.load. rewrite bind_bind, (bind_reads_Ok _ _ H nth).
    + rewrite bind_bind, (bind_reads_Ok _ _ H (Some rty)) by (unfold jl_nth_union_component; by rewrite Hnth). rewrite bind_ret. rewrite (datatype_Ok rty rd) by apply Hvt.
      pose proof (vt_size _ _ _ _ _ _ _ Hvt) as Hz. destruct (Z.eqb_spec (size ly) 0) as [E0 | E0].
      * destruct (singleton_Ok rty rd rl Hvt ltac:(lia) (Hnp E0)) as [Es Hv]. exists (dt_instance rd), H. rewrite (bind_reads_Ok _ _ H true) by done. split; [done |].
        replace (size rl) with 0 in Hs by lia. unfold slice in Hs. cbn in Hs. by subst bs.
      * cbn [address]. rewrite bind_ret, (assert_within_Ok H m d ly eltype len blk off hb data Hm i (size ly)) by (done || lia).
        rewrite (bind_reads_Ok _ _ H (size rl)) by (by apply (value_size depth alloc junk B H rty rd)). rewrite Hlkd.
        by apply (read_inline_elem rty rd rl bs false).
    + rewrite (load_uint_data H blk hb data) by (done || lia). rewrite Hsel. cbn [le_word]. f_equal. lia.
Qed.
End Memory.
End Elements.

(** ** Allocation *)

(** The next object is new, in the address space, and no object begins where
    the data of a memory would. *)
Definition alloc_ok (alloc : heap -> Z -> ptr) (H : heap) (sz : Z) : Prop :=
  let p := alloc H sz in objects H !! p = None /\ 0 < p /\ p + JL_SMALL_BYTE_ALIGNMENT < 2 ^ 64 /\ objects H !! (p + JL_SMALL_BYTE_ALIGNMENT) = None.

(** [mt] is a type of memories. *)
Record memory_type (H : heap) (mt : ptr) (d : jl_datatype_t) (ly : jl_datatype_layout_t) (eltype : ptr) : Prop := {
  mt_isd : jl_is_datatype H mt = Ok true;
  mt_datatype : get_datatype H mt = Ok d;
  mt_layout : dt_layout d = Some ly;
  mt_instance : dt_instance d <> 0;
  mt_concrete : dt_has_concrete_subtype d = true;
  mt_eltype : jl_tparam H d 1 = Ok eltype;
  mt_header : Z.land mt (Z.lnot 15) = mt /\ type_header mt = false;
  mt_size : 0 <= size ly < 2 ^ 32;
  mt_boxed : arrayelem_isboxed ly = true -> arrayelem_isunion ly = false /\ size ly = 8
}.

(** The test for sizes the address space does not have. *)
Lemma size_test nel elsz (isunion : bool) : 0 <= nel < 2 ^ 64 -> 0 <= elsz < 2 ^ 32 ->
  let nbytes := u64 (nel * elsz) in
  let total := nel * elsz + (if isunion then nel else 0) in
  let bytes := if isunion then u64 (nel + nbytes) else nbytes in
  (MAXINTVAL - 1 <=? nel) || (MAXINTVAL - 1 <=? bytes) || ((SIZE_MAX <? nel * elsz) || (isunion && (SIZE_MAX <? nel + nbytes))) =
    (2 ^ 63 - 2 <=? nel) || (2 ^ 63 - 2 <=? total) /\ (total < 2 ^ 63 - 2 -> bytes = total).
Proof.
  intros Hn He nbytes total bytes. change (MAXINTVAL - 1) with (2 ^ 63 - 2). change SIZE_MAX with (2 ^ 64 - 1).
  assert (H0 : 0 <= nel * elsz) by nia. assert (Hlo : nel * elsz < 2 ^ 64 -> nbytes = nel * elsz) by (intros; unfold nbytes; by rewrite u64_small by lia).
  destruct (Z.ltb_spec (2 ^ 64 - 1) (nel * elsz)) as [Hov | Hok].
  - rewrite orb_true_l, orb_true_r. split; [| unfold total; destruct isunion; lia]. symmetry. apply orb_true_intro. right. apply Z.leb_le. unfold total. destruct isunion; lia.
  - specialize (Hlo ltac:(lia)). unfold bytes, total. rewrite Hlo. rewrite orb_false_l. destruct isunion; rewrite ?andb_true_l, ?andb_false_l.
    + destruct (Z.ltb_spec (2 ^ 64 - 1) (nel + nel * elsz)).
      * rewrite orb_true_r. split; [| lia]. symmetry. apply orb_true_intro. right. apply Z.leb_le. lia.
      * rewrite orb_false_r, u64_small by lia. rewrite (Z.add_comm nel). split; [done | lia].
    + rewrite orb_false_r, Z.add_0_r. split; [done | lia].
Qed.

Lemma align8 x : 0 <= x < 2 ^ 63 -> x <= LLT_ALIGN x 8 < x + 8.
Proof. intros Hx. rewrite LLT_ALIGN_align_up by (lia || by exists 3). pose proof (align_up_spec x 8 ltac:(lia)). lia. Qed.

Section Allocation.
Context (alloc : heap -> Z -> ptr) (junk : heap -> Z -> Z) (H : heap).

Lemma gc_alloc_spec sz ty : 0 <= sz < 2 ^ 63 -> objects H !! alloc H sz = None ->
  exists H1 data, jl_gc_alloc alloc junk sz ty H = Ok (Ret (alloc H sz), H1) /\ H1 = put_obj (alloc H sz) (Obj 0 ty (BData data)) H /\ grows H H1 /\
    wrote H H1 (alloc H sz) ty data /\ sz <= Z.of_nat (length data) < sz + 8 /\ Forall is_byte data.
Proof.
  intros Hs Hf. pose proof (align8 sz Hs). eexists _, _. split; [reflexivity |]. split; [reflexivity |]. split; [by apply grows_new |].
  split; [split; [exists 0; unfold put_obj; cbn; by rewrite lookup_insert_eq | intros q Hq; unfold put_obj; cbn; by rewrite lookup_insert_ne | done] |].
  split; [rewrite length_uninitialized; lia | apply uninitialized_bytes].
Qed.

(** A new memory of [nel] elements before its data is cleared. *)
Record new_memory (mt m : ptr) (H2 : heap) (nel nbytes : Z) (blk off hb : Z) (data : list Z) : Prop := {
  nm_new : objects H !! m = None;
  nm_grows : grows H H2;
  nm_tag : exists mdata, has_data H2 m mt mdata;
  nm_length : mem_length H2 m = Ok nel;
  nm_ptr : mem_ptr H2 m = Ok (blk, off);
  nm_block : holder H2 blk hb data;
  nm_own : blk = m /\ off = JL_SMALL_BYTE_ALIGNMENT \/ blk <> m /\ off = 0;
  nm_fits : off + nbytes <= Z.of_nat (length data) < 2 ^ 64;
  nm_blk : objects H !! blk = None
}.

(** The words of the memory. *)
Lemma memory_words H2 m h mdata nel p : has_data H2 m h mdata -> 16 <= Z.of_nat (length mdata) -> slice mdata 0 8 = le_bytes 8 nel -> slice mdata 8 8 = le_bytes 8 p ->
  0 <= nel < 2 ^ 64 -> 0 <= p < 2 ^ 64 ->
  mem_length H2 m = Ok nel /\ mem_ptr H2 m = Ok (if p =? m + JL_SMALL_BYTE_ALIGNMENT then (m, JL_SMALL_BYTE_ALIGNMENT) else (p, 0)).
Proof.
  intros Hd Hl S0 S8 Hn Hp. unfold mem_length, mem_ptr. rewrite !(load_uint_data H2 m h mdata) by (done || lia). rewrite S0, S8, !le_word_le_bytes, !Z.mod_small by lia. done.
Qed.

(** Storing the two words of a new memory. *)
Lemma store_words H1 m h mdata p nel : has_data H1 m h mdata -> 16 <= Z.of_nat (length mdata) -> Forall is_byte mdata ->
  exists H2 H3 mdata3, store_bytes (m, 8) (le_bytes 8 p) H1 = Ok H2 /\ store_bytes (m, 0) (le_bytes 8 nel) H2 = Ok H3 /\ wrote H1 H2 m h (splice mdata 8 (le_bytes 8 p)) /\
    wrote H1 H3 m h mdata3 /\ length mdata3 = length mdata /\ Forall is_byte mdata3 /\ slice mdata3 0 8 = le_bytes 8 nel /\ slice mdata3 8 8 = le_bytes 8 p.
Proof.
  intros Hd Hl Hb. destruct (store_wrote H1 m h mdata 8 (le_bytes 8 p) Hd) as (H2 & E2 & W2); [lia | rewrite length_le_bytes; lia |].
  assert (L2 : length (splice mdata 8 (le_bytes 8 p)) = length mdata) by (apply length_splice; rewrite ?length_le_bytes; lia).
  destruct (store_wrote H2 m h _ 0 (le_bytes 8 nel) (wr_data _ _ _ _ _ W2)) as (H3 & E3 & W3); [lia | rewrite length_le_bytes; lia |].
  exists H2, H3, (splice (splice mdata 8 (le_bytes 8 p)) 0 (le_bytes 8 nel)). split; [done |]. split; [done |]. split; [done |]. split; [by eapply wrote_trans |].
  split; [rewrite length_splice; rewrite ?length_le_bytes; lia |].
  split; [repeat apply splice_bytes; try done; apply le_bytes_bytes |]. split.
  - rewrite slice_splice_in by (rewrite ?length_le_bytes; lia). by apply slice_whole.
  - rewrite slice_splice_other by (rewrite ?length_le_bytes; lia). rewrite slice_splice_in by (rewrite ?length_le_bytes; lia). by apply slice_whole.
Qed.

Lemma unchecked_spec mt nel nbytes : type_header mt = false -> 0 <= nel < 2 ^ 64 -> 0 <= nbytes < 2 ^ 63 - 2 ->
  (forall sz, alloc_ok alloc H sz) -> (forall sz1 o sz, alloc_ok alloc (put_obj (alloc H sz1) o H) sz) ->
  exists m H1 H2 blk off hb data, jl_alloc_genericmemory_unchecked alloc junk nbytes mt H = Ok (Ret m, H1) /\ store_bytes (m, 0) (le_bytes 8 nel) H1 = Ok H2 /\
    new_memory mt m H2 nel nbytes blk off hb data.
Proof.
  intros Hth Hn Hb Ha Ha2. unfold jl_alloc_genericmemory_unchecked, JL_SMALL_BYTE_ALIGNMENT in *. change (LLT_ALIGN sizeof_jl_genericmemory_t 16) with 16. rewrite u64_small by lia.
  destruct (Z.leb_spec (nbytes + 16) GC_MAX_SZCLASS) as [Hp | Hp]; unfold GC_MAX_SZCLASS in Hp.
  - destruct (Ha (nbytes + 16)) as (Hf & Hp0 & Hp1 & _). set (m := alloc H (nbytes + 16)) in *. unfold JL_SMALL_BYTE_ALIGNMENT in *.
    destruct (gc_alloc_spec (nbytes + 16) mt ltac:(lia) Hf) as (H1 & data & E1 & _ & Hg & W1 & Hl & Hby). fold m in E1, W1. rewrite (bind_Ret _ _ _ _ _ E1).
    destruct (store_words H1 m mt data (m + 16) nel (wr_data _ _ _ _ _ W1) ltac:(lia) Hby) as (H2 & H3 & d3 & E2 & E3 & _ & W3 & L3 & B3 & S0 & S8).
    destruct (memory_words H3 m mt d3 nel (m + 16) (wr_data _ _ _ _ _ W3) ltac:(lia) S0 S8 Hn ltac:(lia)) as [ML MP]. unfold JL_SMALL_BYTE_ALIGNMENT in MP. rewrite Z.eqb_refl in MP.
    exists m, H2, H3, m, 16, mt, d3. split; [unfold store; change (Z.to_nat 8) with 8%nat; by rewrite (bind_writes_Ok _ _ _ H2) |]. split; [done |].
    split; [done | by eapply grows_wrote | exists d3; apply W3 | done | done | split; [apply W3 | done | done] | by left | lia | done].
  - destruct (Ha nbytes) as (Hf & Hd0 & Hd1 & _). unfold JL_SMALL_BYTE_ALIGNMENT in *. destruct (gc_alloc_spec nbytes 0 ltac:(lia) Hf) as (H1 & data & E1 & EH1 & Hg & W1 & Hl & Hby). rewrite (bind_Ret _ _ _ _ _ E1).
    pose proof (Ha2 nbytes (Obj 0 0 (BData data)) (sizeof_jl_genericmemory_t + 8)) as Hm. rewrite <- EH1 in Hm. destruct Hm as (Hmf & Hm0 & Hm1 & Hapart). unfold JL_SMALL_BYTE_ALIGNMENT in *.
    set (blk := alloc H nbytes) in *. assert (Hdat : has_data H1 blk 0 data) by apply W1. 
    set (m := alloc H1 (sizeof_jl_genericmemory_t + 8)) in *. unfold jl_gc_alloc at 1. change (LLT_ALIGN (sizeof_jl_genericmemory_t + 8) 8) with 24. fold m.
    set (md := uninitialized junk H1 24). set (H2 := put_obj m (Obj 0 mt (BData md)) H1). assert (Hlmd : length md = 24%nat) by (unfold md; by rewrite length_uninitialized).
    assert (Hne : blk <> m) by (intros E; destruct Hdat as [? Hd]; congruence). assert (Hne16 : blk <> m + 16) by (intros E; destruct Hdat as [? Hd]; congruence).
    assert (W2 : wrote H1 H2 m mt md) by (split; [exists 0; unfold H2, put_obj; cbn; by rewrite lookup_insert_eq | intros q Hq; unfold H2, put_obj; cbn; by rewrite lookup_insert_ne | done]).
    rewrite (bind_Ret _ _ H1 m H2) by done.
    destruct (store_wrote H2 m mt md 16 (le_bytes 8 m) (wr_data _ _ _ _ _ W2)) as (H3 & E3 & W3); [lia | rewrite length_le_bytes; lia |].
    assert (L3 : length (splice md 16 (le_bytes 8 m)) = 24%nat) by (rewrite length_splice; rewrite ?length_le_bytes; lia).
    assert (Bm : Forall is_byte (splice md 16 (le_bytes 8 m))) by (apply splice_bytes; [apply uninitialized_bytes | apply le_bytes_bytes]).
    destruct (store_words H3 m mt _ blk nel (wr_data _ _ _ _ _ W3) ltac:(lia) Bm) as (H4 & H5 & d5 & E4 & E5 & W4 & W5 & L5 & B5 & S0 & S8).
    destruct (memory_words H5 m mt d5 nel blk (wr_data _ _ _ _ _ W5) ltac:(lia) S0 S8 Hn ltac:(lia)) as [ML MP]. unfold JL_SMALL_BYTE_ALIGNMENT in MP. rewrite (proj2 (Z.eqb_neq _ _) Hne16) in MP.
    assert (Hmnew : objects H !! m = None) by (destruct (objects H !! m) eqn:E; [apply (gr_old _ _ Hg) in E; congruence | done]).
    assert (W : wrote H1 H5 m mt d5) by (eapply wrote_trans; [exact W2 | eapply wrote_trans; [exact W3 | exact W5]]).
    exists m, H4, H5, blk, 0, 0, data. split; [unfold store; change (Z.to_nat 8) with 8%nat; rewrite (bind_writes_Ok _ _ _ H3) by done; by rewrite (bind_writes_Ok _ _ _ H4) |]. split; [done |].
    split; [done | by eapply grows_wrote | exists d5; apply W | done | done | split; [by apply (wrote_keeps _ _ _ _ _ _ _ _ W Hne) | done | done] | by right | lia | done].
Qed.

(** A new memory, cleared if its type asks for it. *)
Lemma new_memory_at mt d ly eltype m H2 nel blk off hb data : memory_type H mt d ly eltype -> 0 <= nel < 2 ^ 64 -> new_memory mt m H2 nel (elements_size ly nel) blk off hb data ->
  memory_at H2 m d ly eltype nel blk off hb data.
Proof.
  intros Hmt Hn Hnm. pose proof (grows_change _ _ (nm_grows _ _ _ _ _ _ _ _ _ Hnm)) as V. destruct (nm_tag _ _ _ _ _ _ _ _ _ Hnm) as [mdata Hd].
  pose proof (mt_size _ _ _ _ _ Hmt). pose proof (nm_own _ _ _ _ _ _ _ _ _ Hnm) as Hown. unfold JL_SMALL_BYTE_ALIGNMENT in Hown.
  split; try apply Hnm.
  - unfold mem_datatype. rewrite (has_data_typetag H2 m mt mdata Hd). cbn [obind]. rewrite (proj1 (mt_header _ _ _ _ _ Hmt)). apply (vc_datatype H H2 V), Hmt.
  - unfold the_layout. by rewrite (mt_layout _ _ _ _ _ Hmt).
  - apply (vc_tparam H H2 _ _ _ V), Hmt.
  - unfold sizeof_jl_genericmemory_t. intros E. destruct Hown as [[_ ->] | [? _]]; [lia | done].
  - destruct Hown as [[_ ->] | [_ ->]]; lia.
  - apply Hmt.
Qed.

Lemma new_genericmemory_spec mt d ly eltype nel : memory_type H mt d ly eltype -> 0 < nel < 2 ^ 63 - 2 -> elements_size ly nel < 2 ^ 63 - 2 ->
  (forall sz, alloc_ok alloc H sz) -> (forall sz1 o sz, alloc_ok alloc (put_obj (alloc H sz1) o H) sz) ->
  exists m H', _new_genericmemory_ alloc junk mt nel (arrayelem_isunion ly) (dt_zeroinit d) (size ly) H = Ok (Ret m, H') /\ objects H !! m = None /\ grows H H' /\
    exists blk off hb data, memory_at H' m d ly eltype nel blk off hb data /\
      (dt_zeroinit d = true -> slice data off (elements_size ly nel) = replicate (Z.to_nat (elements_size ly nel)) 0).
Proof.
  intros Hmt Hn Ht Ha Ha2. pose proof (mt_size _ _ _ _ _ Hmt) as Hs. destruct (size_test nel (size ly) (arrayelem_isunion ly)) as [ET EB]; [lia | lia |]. fold (elements_size ly nel) in ET, EB. specialize (EB Ht).
  assert (H0 : 0 <= elements_size ly nel) by (unfold elements_size; destruct (arrayelem_isunion ly); nia).
  unfold _new_genericmemory_. rewrite (datatype_Ok mt d) by apply Hmt. rewrite (proj2 (Z.eqb_neq nel 0)) by lia. cbn zeta. rewrite ET, EB.
  destruct (Z.leb_spec (2 ^ 63 - 2) nel) as [| Hle1]; [lia |]. destruct (Z.leb_spec (2 ^ 63 - 2) (elements_size ly nel)) as [| Hle2]; [lia |]. cbn [orb].
  destruct (unchecked_spec mt nel (elements_size ly nel)) as (m & H1 & H2 & blk & off & hb & data & E1 & E2 & Hnm); [apply Hmt | lia | lia | done | done |].
  pose proof (new_memory_at mt d ly eltype m H2 nel blk off hb data Hmt ltac:(lia) Hnm) as Hma.
  rewrite (bind_Ret _ _ _ _ _ E1). unfold store at 1. change (Z.to_nat 8) with 8%nat. rewrite (bind_writes_Ok _ _ _ H2) by done.
  destruct (dt_zeroinit d).
  - rewrite bind_bind, (bind_reads_Ok _ _ H2 (blk, off)) by apply Hma. destruct (ma_range _ _ _ _ _ _ _ _ _ _ Hma) as (Ho & _ & _). pose proof (ma_fits _ _ _ _ _ _ _ _ _ _ Hma) as [Hf _].
    pose proof (ma_block _ _ _ _ _ _ _ _ _ _ Hma) as [Hd Hby Hth]. set (zs := replicate (Z.to_nat (elements_size ly nel)) 0).
    assert (Hz : Z.of_nat (length zs) = elements_size ly nel) by (unfold zs; rewrite length_replicate; lia).
    destruct (store_wrote H2 blk hb data off zs Hd) as (H3 & E3 & W3); [lia | lia |]. unfold memset0. fold zs. rewrite (bind_writes_Ok _ _ _ H3) by done.
    exists m, H3. split; [done |]. split; [apply Hnm |]. split; [exact (grows_wrote _ _ _ _ _ _ (nm_grows _ _ _ _ _ _ _ _ _ Hnm) (nm_blk _ _ _ _ _ _ _ _ _ Hnm) W3) |]. exists blk, off, hb, (splice data off zs). split.
    + apply (memory_at_wrote H2 H3 m d ly eltype nel blk off hb data); [done | done | apply length_splice; lia | |].
      * apply splice_bytes; [done |]. apply Forall_replicate. unfold is_byte. lia.
      * intros E. pose proof (ma_own _ _ _ _ _ _ _ _ _ _ Hma E). unfold sizeof_jl_genericmemory_t in *. apply slice_splice_other; lia.
    + intros _. rewrite slice_splice_in by lia. rewrite Z.sub_diag. by apply slice_whole.
  - exists m, H2. rewrite bind_ret. split; [done |]. split; [apply Hnm |]. split; [apply Hnm |]. exists blk, off, hb, data. done.
Qed.

Lemma new_genericmemory_too_large mt d ly eltype nel : memory_type H mt d ly eltype -> 0 < nel < 2 ^ 64 -> 2 ^ 63 - 2 <= nel \/ 2 ^ 63 - 2 <= elements_size ly nel ->
  _new_genericmemory_ alloc junk mt nel (arrayelem_isunion ly) (dt_zeroinit d) (size ly) H = Ok (Throw invalid_memory_size, H).
Proof.
  intros Hmt Hn Hbig. destruct (size_test nel (size ly) (arrayelem_isunion ly)) as [ET _]; [lia | apply Hmt |]. fold (elements_size ly nel) in ET.
  unfold _new_genericmemory_. rewrite (datatype_Ok mt d) by apply Hmt. rewrite (proj2 (Z.eqb_neq nel 0)) by lia. cbn zeta. rewrite ET.
  assert ((2 ^ 63 - 2 <=? nel) || (2 ^ 63 - 2 <=? elements_size ly nel) = true) as ->; [| done]. apply orb_true_intro. destruct Hbig; [left | right]; by apply Z.leb_le.
Qed.

Lemma alloc_start depth ty mt d ly eltype nel : memory_type H mt d ly eltype ->
  jl_alloc_genericmemory depth alloc junk ty mt nel H =
    if nel =? 0 then Ok (Ret (dt_instance d), H) else _new_genericmemory_ alloc junk mt nel (arrayelem_isunion ly) (dt_zeroinit d) (size ly) H.
Proof.
  intros Hmt. unfold jl_alloc_genericmemory. rewrite (bind_reads_Ok _ _ H true) by apply Hmt. rewrite bind_assert by done. rewrite (datatype_Ok mt d) by apply Hmt.
  rewrite (proj2 (Z.eqb_neq _ _) (mt_instance _ _ _ _ _ Hmt)). rewrite (bind_reads_Ok _ _ H ly) by (unfold the_layout; by rewrite (mt_layout _ _ _ _ _ Hmt)).
  rewrite bind_assert by apply Hmt. destruct (nel =? 0); [done |]. cbn zeta. destruct (arrayelem_isboxed ly) eqn:E; [| done]. by destruct (mt_boxed _ _ _ _ _ Hmt E) as [-> ->].
Qed.
End Allocation.
