(* ===== verification/GenericMemorySound.v ===== *)
(** * Memories: the theorems

    The properties of [GenericMemory], and a heap in which they apply. *)

From stdpp Require Import base gmap numbers option list.
From Stdlib Require Import ZArith Lia.
From S2P Require Import Prelude Probe Identity SmallIntSet Hashing HashingFacts Bytes Objects Egal EgalFacts HeapMonad LayoutCore LayoutCoreFacts Layout LayoutHeap LayoutFacts LayoutSound Bits Fields BitsFacts BoxCaches FieldsFacts Construct FieldsSound GenericMemory GenericMemoryFacts.

(** C9: Storing a value in an element of a memory and reading the element gives the value back, for
    references, inline values, small atomic values and inline unions, in every memory whose elements
    have no locks; both succeed. The memory keeps its length, type and place, and the bytes and
    selectors of all other elements stay as they are. The reference used is the one
    [jl_memoryrefindex] makes from that to the first element. *)
Theorem memoryref_set_get (depth : nat) alloc junk self B jl_isa H m d ly eltype len blk off hb data i rhs t w :
  (forall H sz, objects H !! alloc H sz = None) -> (forall H sz, alloc H sz <> 0) -> 0 < self < 2 ^ 64 -> boxes_ok B H -> not_a_box B blk ->
  memory_at H m d ly eltype len blk off hb data -> 0 <= i < len -> element_value depth alloc junk B H blk ly eltype rhs w ->
  jl_typeof H rhs = Ok t -> eltype = jl_any_type H \/ t = eltype \/ jl_isa H rhs eltype = Ok true ->
  exists e, jl_memoryrefindex (Memoryref m (elem_at ly blk off 0)) i H = Ok (Ret e, H) /\
  exists H1 data1 r H2, jl_memoryrefset depth self jl_isa e rhs (atomic_elements ly) H = Ok (Ret tt, H1) /\ memory_at H1 m d ly eltype len blk off hb data1 /\
    (forall q, q <> blk -> objects H1 !! q = objects H !! q) /\
    (forall j, 0 <= j < len -> j <> i -> slice data1 (off + j * size ly) (size ly) = slice data (off + j * size ly) (size ly) /\
       (arrayelem_isunion ly = true -> slice data1 (selector_at ly off len j) 1 = slice data (selector_at ly off len j) 1)) /\
    jl_memoryrefget depth alloc junk self B e (atomic_elements ly) H1 = Ok (Ret r, H2) /\ reads_as H2 r rhs w.
Proof.
  intros Hf Hn0 Hself HB (Nt & Nf & Nc) Hm Hi Hv Ht Hc. exists (Memoryref m (elem_at ly blk off i)). split; [by eapply memoryrefindex_Ok |].
  destruct (set_element depth alloc junk self B jl_isa Hself H m d ly eltype len blk off hb data i Hm Hi rhs w t Hv Ht Hc) as (H1 & data1 & E1 & W & Hl & Hb & Hh & Hr).
  pose proof (ma_block _ _ _ _ _ _ _ _ _ _ Hm) as Hho. destruct (ma_range _ _ _ _ _ _ _ _ _ _ Hm) as (Ho & _ & Hs).
  destruct (elements_room H m d ly eltype len blk off hb data Hm i Hi) as (R1 & R2 & R3 & R4).
  assert (Hm1 : memory_at H1 m d ly eltype len blk off hb data1).
  { apply (memory_at_wrote H H1 m d ly eltype len blk off hb data); try done. intros E. pose proof (ma_own _ _ _ _ _ _ _ _ _ _ Hm E). unfold sizeof_jl_genericmemory_t in *.
    apply Hr; unfold selector_at; lia. }
  destruct (get_element depth alloc junk self B Hf Hn0 Hself H1 m d ly eltype len blk off hb data1 i Hm1 Hi rhs w) as (r & H2 & E2 & Hrd);
    [by eapply (boxes_ok_wrote B H H1 blk hb data data1); try done; apply Hho | done |].
  exists H1, data1, r, H2. split; [done |]. split; [done |]. split; [apply W |]. split; [| done].
  intros j Hj Hne. destruct (elements_room H m d ly eltype len blk off hb data Hm j Hj) as (J1 & J2 & J3 & _).
  assert (Hdis : off + j * size ly + size ly <= off + i * size ly \/ off + i * size ly + size ly <= off + j * size ly) by (destruct (Z.lt_total i j) as [? | [? | ?]]; [right | lia | left]; nia).
  split; [apply Hr; unfold selector_at; lia |]. intros _. apply Hr; unfold selector_at in *; lia.
Qed.

(** C10: Allocating a memory of [nel] elements: none gives the empty memory of the type; if the number
    of elements or the bytes they take, selectors included, reach the largest positive signed word but
    one, the size is refused and nothing is allocated, also where the products wrap around; otherwise
    the result is a new memory of [nel] elements with room for all of them, cleared if the type asks
    for it, and no other object changes. *)
Theorem alloc_genericmemory_correct (depth : nat) alloc junk jl_type_type H mt d ly eltype nel :
  memory_type H mt d ly eltype -> (forall sz, alloc_ok alloc H sz) -> (forall sz1 o sz, alloc_ok alloc (put_obj (alloc H sz1) o H) sz) -> 0 <= nel < 2 ^ 64 ->
  (nel = 0 -> jl_alloc_genericmemory depth alloc junk jl_type_type mt nel H = Ok (Ret (dt_instance d), H)) /\
  (0 < nel -> 2 ^ 63 - 2 <= nel \/ 2 ^ 63 - 2 <= elements_size ly nel ->
     jl_alloc_genericmemory depth alloc junk jl_type_type mt nel H = Ok (Throw invalid_memory_size, H)) /\
  (0 < nel -> nel < 2 ^ 63 - 2 -> elements_size ly nel < 2 ^ 63 - 2 ->
     exists m H', jl_alloc_genericmemory depth alloc junk jl_type_type mt nel H = Ok (Ret m, H') /\ objects H !! m = None /\ grows H H' /\
     exists blk off hb data, memory_at H' m d ly eltype nel blk off hb data /\
       (dt_zeroinit d = true -> slice data off (elements_size ly nel) = replicate (Z.to_nat (elements_size ly nel)) 0)).
Proof.
  intros Hmt Ha Ha2 Hn. rewrite !(alloc_start alloc junk H depth jl_type_type mt d ly eltype nel Hmt).
  split; [by intros -> |]. split; intros Hp; rewrite (proj2 (Z.eqb_neq nel 0)) by lia.
  - intros Hbig. apply (new_genericmemory_too_large alloc junk H mt d ly eltype nel Hmt); [lia | done].
  - intros Hl Ht. apply (new_genericmemory_spec alloc junk H mt d ly eltype nel Hmt); [lia | done | done | done].
Qed.

(** ** A heap

    The heap of [FieldsSound] with the type of memories of [Union{Int8,Int64}],
    laid out, and a memory of three such elements. *)
Definition MemU : Z := 17504.

Definition mem_objects : list (Z * obj) :=
  [(MemU, demo_small jl_datatype_tag (BDatatype (Datatype 4 9344 8192 0 None 0 true false false false false true false false 0)));
   (4, Obj 0 4096 (BTypename (Typename MemU MemU false true false 0 None None)));
   (9344, demo_small jl_simplevector_tag (BSvec [7; Union_Int8_Int64; 9360]));
   (9360, demo_small jl_addrspacecore_tag (BData (le_bytes 8 0)))].

Definition mem_types : heap := with_objects rec_laid (list_to_map mem_objects ∪ objects rec_laid).
Definition mem_laid : heap := after (jl_compute_field_offsets 5 rec_alloc 5 MemU) mem_types.
Definition mem_d : jl_datatype_t := demo_get mem_laid MemU.
Definition mem_ly : jl_datatype_layout_t := demo_layout mem_laid MemU.

Definition mem_heap : heap := final (jl_alloc_genericmemory 5 rec_alloc rec_junk 0 MemU 3) mem_laid.
Definition mem_m : ptr := 50242.

Lemma mem_alloc_ok sz : alloc_ok rec_alloc mem_laid sz.
Proof. repeat split; vm_compute; reflexivity. Qed.

Lemma mem_alloc_ok2 sz1 o sz : alloc_ok rec_alloc (put_obj (rec_alloc mem_laid sz1) o mem_laid) sz.
Proof. repeat split; vm_compute; reflexivity. Qed.

Lemma mem_type : memory_type mem_laid MemU mem_d mem_ly Union_Int8_Int64.
Proof. split; try (vm_compute; done). Qed.

Lemma alloc_genericmemory_correct_witness :
  jl_alloc_genericmemory 5 rec_alloc rec_junk 0 MemU (2 ^ 61) mem_laid = Ok (Throw invalid_memory_size, mem_laid) /\
  exists m H', jl_alloc_genericmemory 5 rec_alloc rec_junk 0 MemU 300 mem_laid = Ok (Ret m, H') /\ objects mem_laid !! m = None /\ grows mem_laid H' /\
  exists blk off hb data, memory_at H' m mem_d mem_ly Union_Int8_Int64 300 blk off hb data /\ (dt_zeroinit mem_d = true -> slice data off 2700 = replicate 2700 0).
Proof.
  split.
  - refine (proj1 (proj2 (alloc_genericmemory_correct 5 rec_alloc rec_junk 0 mem_laid MemU mem_d mem_ly Union_Int8_Int64 (2 ^ 61) mem_type mem_alloc_ok mem_alloc_ok2 _)) _ _); [lia | lia |].
    right. vm_compute. discriminate.
  - refine (proj2 (proj2 (alloc_genericmemory_correct 5 rec_alloc rec_junk 0 mem_laid MemU mem_d mem_ly Union_Int8_Int64 300 mem_type mem_alloc_ok mem_alloc_ok2 _)) _ _ _); [lia | lia | lia |].
    vm_compute. reflexivity.
Defined.

Lemma mem_bools : is_value mem_heap 9264 (small_typeof mem_heap jl_bool_tag) [1] /\ is_value mem_heap 9280 (small_typeof mem_heap jl_bool_tag) [0].
Proof. split; split; vm_compute; done. Qed.

Lemma mem_boxed : exists B H', jl_init_box_caches rec_alloc rec_junk 9264 9280 mem_heap = Ok (Ret B, H') /\ grows mem_heap H' /\ boxes_ok B H' /\ not_a_box B mem_m.
Proof.
  destruct (init_box_caches_spec rec_alloc rec_junk rec_alloc_fresh rec_alloc_nonnull mem_heap 9264 9280 (proj1 mem_bools) (proj2 mem_bools)) as (B & H' & E & A & HB & Ht & Hf & Hc).
  exists B, H'. split; [done |]. split; [apply A |]. split; [done |]. split; [by rewrite Ht |]. split; [by rewrite Hf |]. intros t i p bs Ec Ep ->.
  pose proof (Hc t i mem_m bs Ec Ep) as En. assert (Hs : is_Some (objects mem_heap !! mem_m)) by (vm_compute; by eexists). rewrite En in Hs. by destruct Hs.
Qed.

Lemma memory_at_grows H H1 m d ly eltype len blk off hb data : grows H H1 -> memory_at H m d ly eltype len blk off hb data -> memory_at H1 m d ly eltype len blk off hb data.
Proof.
  intros Hg Hm. pose proof (grows_change _ _ Hg) as V. assert (HU : forall o n x, load_uint H (m, o) n = Ok x -> load_uint H1 (m, o) n = Ok x).
  { intros o n x (bs & Eb & [= <-])%obind_Ok_inv. unfold load_uint. by rewrite (load_bytes_grows H H1 _ _ _ Hg Eb). }
  split; try apply Hm.
  - apply (vc_mem_datatype H H1 _ _ V), Hm.
  - apply (vc_tparam H H1 _ _ _ V), Hm.
  - apply HU, Hm.
  - pose proof (ma_ptr _ _ _ _ _ _ _ _ _ _ Hm) as (p & Ep%HU & E)%obind_Ok_inv. unfold mem_ptr. by rewrite Ep.
  - destruct (ma_block _ _ _ _ _ _ _ _ _ _ Hm) as [Hd Hb Hth]. split; [by apply (grows_data H H1) | done | done].
Qed.

(** The memory at first. *)
Definition mem_data : list Z := data_of mem_heap mem_m.

Lemma mem_memory : memory_at mem_heap mem_m mem_d mem_ly Union_Int8_Int64 3 mem_m 16 MemU mem_data.
Proof.
  split; [vm_compute; reflexivity .. | | vm_compute; discriminate | vm_compute; repeat split; discriminate | vm_compute; repeat split; discriminate | vm_compute; discriminate].
  split; [exists 0; vm_compute; reflexivity | | vm_compute; reflexivity]. apply Forall_forall. intros z Hz%list_elem_of_In.
  assert (Hall : forallb (fun z => (0 <=? z) && (z <? 256)) mem_data = true) by (vm_compute; reflexivity).
  pose proof (proj1 (forallb_forall _ _) Hall z Hz) as [?%Z.leb_le ?%Z.ltb_lt]%andb_prop. unfold is_byte. lia.
Qed.

Lemma mem_value B H' : grows mem_heap H' ->
  element_value 5 rec_alloc rec_junk B H' mem_m mem_ly Union_Int8_Int64 9248 (Some (Int64, le_bytes 8 1000000)).
Proof.
  intros Hg. pose proof (grows_change _ _ Hg) as V.
  assert (Hvt : value_type rec_alloc rec_junk B mem_heap Int64 (rec_d Int64) (rec_ly Int64)) by (apply (value_type_b_spec rec_alloc rec_junk B mem_heap Int64 _ _ jl_int64_tag); vm_compute; reflexivity).
  apply (elem_union _ _ _ _ _ _ _ _ _ Int64 (rec_d Int64) (rec_ly Int64) _ 1 2); [vm_compute; reflexivity .. | | | lia | | | vm_compute; discriminate | vm_compute; discriminate].
  - apply (vc_is_tag mem_heap H' V). vm_compute. reflexivity.
  - apply (vc_union_count mem_heap H' 5 V). vm_compute. reflexivity.
  - apply (vc_find mem_heap H' V). vm_compute. reflexivity.
  - apply (inline_value_grows rec_alloc rec_junk B mem_heap H' mem_m); [done | discriminate |].
    apply (inline_b_spec rec_alloc rec_junk B mem_heap mem_m 9248 Int64); [done | vm_compute; discriminate | discriminate | vm_compute; reflexivity].
Qed.

(** The [Int64] 1000000 in the second element. *)
Lemma memoryref_set_get_witness : exists B H', jl_init_box_caches rec_alloc rec_junk 9264 9280 mem_heap = Ok (Ret B, H') /\
  exists e, jl_memoryrefindex (Memoryref mem_m (elem_at mem_ly mem_m 16 0)) 1 H' = Ok (Ret e, H') /\
  exists H1 data1 r H2, jl_memoryrefset 5 1 rec_isa e 9248 false H' = Ok (Ret tt, H1) /\ memory_at H1 mem_m mem_d mem_ly Union_Int8_Int64 3 mem_m 16 MemU data1 /\
    (forall q, q <> mem_m -> objects H1 !! q = objects H' !! q) /\
    (forall j, 0 <= j < 3 -> j <> 1 -> slice data1 (16 + j * size mem_ly) (size mem_ly) = slice mem_data (16 + j * size mem_ly) (size mem_ly) /\
       (arrayelem_isunion mem_ly = true -> slice data1 (selector_at mem_ly 16 3 j) 1 = slice mem_data (selector_at mem_ly 16 3 j) 1)) /\
    jl_memoryrefget 5 rec_alloc rec_junk 1 B e false H1 = Ok (Ret r, H2) /\ reads_as H2 r 9248 (Some (Int64, le_bytes 8 1000000)).
Proof.
  destruct mem_boxed as (B & H' & E & Hg & HB & Hnb). exists B, H'. split; [exact E |]. pose proof (grows_change _ _ Hg) as V.
  refine (memoryref_set_get 5 rec_alloc rec_junk 1 B rec_isa H' mem_m mem_d mem_ly Union_Int8_Int64 3 mem_m 16 MemU mem_data 1 9248 Int64 (Some (Int64, le_bytes 8 1000000))
    rec_alloc_fresh rec_alloc_nonnull _ HB Hnb (memory_at_grows _ _ _ _ _ _ _ _ _ _ _ Hg mem_memory) _ (mem_value B H' Hg) _ _); [lia | lia | |].
  - apply (vc_typeof mem_heap H' V). vm_compute. reflexivity.
  - right. right. unfold rec_isa. erewrite (vc_typeof mem_heap H' V) by (vm_compute; reflexivity). cbn [obind].
    unfold jl_find_union_component. erewrite (vc_find mem_heap H' V) by (vm_compute; reflexivity). reflexivity.
Defined.
