(* ===== verification/ArrayList.v ===== *)
(** * Growing arrays (support/arraylist.c)

    [arraylist_t] and [small_arraylist_t] have the same code; they differ in
    the number of words inside the structure, the argument [inline] here.  The
    words at [items] are a list: those of [_space], or an allocation.
    [malloc n] is what [n] new bytes hold, word by word, or [None] for NULL;
    [realloc] keeps the words that were there. *)

From stdpp Require Import base numbers option list.
From Stdlib Require Import ZArith Lia.
From S2P Require Import Prelude.

Definition AL_N_INLINE : Z := 29.
Definition SMALL_AL_N_INLINE : Z := 5.

(** [al_alloc] is [None] while [items] points to [_space]. *)
Record arraylist_t := Arraylist { al_len : Z; al_max : Z; al_alloc : option (list Z); al_space : list Z }.

Definition items (a : arraylist_t) : list Z := match al_alloc a with None => al_space a | Some l => l end.
Definition set_items (a : arraylist_t) (l : list Z) : arraylist_t :=
  match al_alloc a with
  | None => Arraylist (al_len a) (al_max a) None l
  | Some _ => Arraylist (al_len a) (al_max a) (Some l) (al_space a)
  end.
Definition set_len (a : arraylist_t) (n : Z) : arraylist_t := Arraylist n (al_max a) (al_alloc a) (al_space a).

Section ArrayList.
Context (inline : Z) (malloc : Z -> option (list Z)).

(** [space] is what the inline words hold; the result is [None] for NULL. *)
Definition arraylist_new (space : list Z) (size : Z) : option arraylist_t :=
  if size <=? inline then Some (Arraylist 0 inline None space)
  else
    match malloc (u64 (size * 8)) with
    | None => None
    | Some p => Some (Arraylist 0 size (Some p) space)
    end.

Definition arraylist_free (a : arraylist_t) : arraylist_t := Arraylist 0 inline None (al_space a).

Fixpoint double_until (fuel : nat) (newlen nm : Z) : outcome Z :=
  if nm <? newlen then match fuel with O => Timeout | S fuel' => double_until fuel' newlen (u64 (nm * 2)) end else Ok nm.

(** [p] after [memcpy(p, s, n * 8)] *)
Definition copy_into (p s : list Z) (n : Z) : outcome (list Z) :=
  if (n <=? Z.of_nat (length p)) && (n <=? Z.of_nat (length s)) then Ok (take (Z.to_nat n) s ++ drop (Z.to_nat n) p) else UB.

(** [realloc] to [bytes]: the old words as far as they fit, then new ones. *)
Definition realloc (s : list Z) (bytes : Z) : option (list Z) :=
  match malloc bytes with None => None | Some p => Some (take (length p) s ++ drop (length s) p) end.

Definition arraylist_grow (a : arraylist_t) (n : Z) : outcome arraylist_t :=
  let len := al_len a in
  let newlen := u64 (len + n) in
  if al_max a <? newlen then
    match al_alloc a with
    | None =>
        match malloc (u64 (u64 (al_len a + n) * 8)) with
        | None => Ok a
        | Some p => let! p := copy_into p (al_space a) len in Ok (Arraylist newlen newlen (Some p) (al_space a))
        end
    | Some l =>
        let nm := u64 (al_max a * 2) in
        let nm := if nm =? 0 then 1 else nm in
        let! nm := double_until 64 newlen nm in
        match realloc l (u64 (nm * 8)) with
        | None => Ok a
        | Some p => Ok (Arraylist newlen nm (Some p) (al_space a))
        end
    end
  else Ok (set_len a newlen).

Definition arraylist_push (a : arraylist_t) (elt : Z) : outcome arraylist_t :=
  let! a := arraylist_grow a 1 in
  let! l := wr (items a) (u64 (al_len a - 1)) elt in
  Ok (set_items a l).

(** The element is NULL if there is none. *)
Definition arraylist_pop (a : arraylist_t) : outcome (Z * arraylist_t) :=
  if al_len a =? 0 then Ok (0, a)
  else
    let len := u64 (al_len a - 1) in
    let! p := rd (items a) len in
    let! l := wr (items a) len 0 in
    Ok (p, set_items (set_len a len) l).

(** ** Facts *)

(** The elements. *)
Definition elements (a : arraylist_t) : list Z := take (Z.to_nat (al_len a)) (items a).

Record al_ok (a : arraylist_t) : Prop := {
  ok_len : 0 <= al_len a <= al_max a;
  ok_max : al_max a = Z.of_nat (length (items a)) /\ al_max a < 2 ^ 60
}.

(** Memory is enough for [n] words. *)
Definition memory_for (n : Z) : Prop := forall k, 0 <= k <= 2 * n -> exists p, malloc (8 * k) = Some p /\ Z.of_nat (length p) = k.

Lemma length_elements a : al_ok a -> length (elements a) = Z.to_nat (al_len a).
Proof. intros [Hl [Hm _]]. unfold elements. rewrite length_take. lia. Qed.

Lemma al_double_until_spec fuel newlen : forall nm, 1 <= nm -> newlen < 2 ^ 60 -> newlen <= nm * 2 ^ Z.of_nat fuel -> nm < 2 ^ 61 ->
  exists r, double_until fuel newlen nm = Ok r /\ newlen <= r /\ (r = nm \/ r < 2 * newlen) /\ nm <= r.
Proof.
  induction fuel as [| fuel IH]; intros nm Hn Hb Hf H61; cbn [double_until]; destruct (Z.ltb_spec nm newlen); try (exists nm; split; [done | lia]); [cbn in Hf; lia |].
  rewrite u64_small by lia. destruct (IH (nm * 2)) as (r & -> & Hr & Hc & Hm); [lia | lia | rewrite Nat2Z.inj_succ, Z.pow_succ_r in Hf by lia; lia | lia |].
  exists r. split; [done |]. lia.
Qed.

Lemma al_grow_spec a n : al_ok a -> 0 <= n -> al_len a + n < 2 ^ 58 -> memory_for (al_max a + n) ->
  exists a', arraylist_grow a n = Ok a' /\ al_ok a' /\ al_len a' = al_len a + n /\ take (Z.to_nat (al_len a)) (items a') = elements a /\
    (al_max a' <= Z.max (al_max a) (2 * (al_len a + n)))%Z.
Proof.
  intros [Hl [Hm Hm2]] Hn Hb Hmem. unfold arraylist_grow. rewrite !(u64_small (al_len a + n)) by lia.
  destruct (Z.ltb_spec (al_max a) (al_len a + n)) as [Hg | Hg].
  - unfold items in *. destruct (al_alloc a) as [l |] eqn:Ea; cbn [al_alloc] in *.
    + rewrite u64_small by lia. set (nm := if al_max a * 2 =? 0 then 1 else al_max a * 2). assert (Hnm : 1 <= nm <= 2 ^ 61 - 1 /\ (nm = 1 /\ al_max a = 0 \/ nm = 2 * al_max a)).
      { unfold nm. destruct (Z.eqb_spec (al_max a * 2) 0); lia. }
      destruct (al_double_until_spec 64 (al_len a + n) nm) as (r & -> & Hr & Hc & Hmr); [lia | lia | change (Z.of_nat 64) with 64; lia | lia |]. cbn [obind].
      rewrite u64_small by lia. unfold realloc. destruct (Hmem r) as (p & Ep & Hp); [lia |]. replace (r * 8) with (8 * r) by lia. rewrite Ep.
      eexists. split; [done |]. cbn [al_len al_max al_alloc items elements].
      assert (Hlen : length (take (length p) l ++ drop (length l) p) = length p) by (rewrite length_app, length_take, length_drop; lia).
      split; [split; cbn; lia |]. split; [done |]. split; [| lia]. unfold elements, items. rewrite Ea. cbn [al_alloc al_space]. rewrite take_app_le by (rewrite length_take; lia). rewrite take_take. f_equal. lia.
    + destruct (Hmem (al_len a + n)) as (p & Ep & Hp); [lia |]. rewrite u64_small by lia. replace ((al_len a + n) * 8) with (8 * (al_len a + n)) by lia. rewrite Ep. unfold copy_into.
      destruct (Z.leb_spec (al_len a) (Z.of_nat (length p))), (Z.leb_spec (al_len a) (Z.of_nat (length (al_space a)))); try lia. cbn [andb obind].
      eexists. split; [done |]. cbn [al_len al_max al_alloc].
      assert (Hlen : Z.of_nat (length (take (Z.to_nat (al_len a)) (al_space a) ++ drop (Z.to_nat (al_len a)) p)) = al_len a + n) by (rewrite length_app, length_take, length_drop; lia).
      split; [split; unfold items; cbn; lia |]. split; [done |]. split; [| lia]. unfold elements, items. rewrite Ea. cbn [al_alloc al_space]. rewrite take_app_le by (rewrite length_take; lia). rewrite take_take. f_equal. lia.
  - eexists. split; [done |]. split; [split; cbn; unfold items in *; cbn; lia |]. split; [done |]. split; [done |]. cbn. lia.
Qed.

Lemma items_set_items a l : items (set_items a l) = l.
Proof. unfold items, set_items. by destruct (al_alloc a). Qed.
Lemma len_set_items a l : al_len (set_items a l) = al_len a /\ al_max (set_items a l) = al_max a.
Proof. unfold set_items. by destruct (al_alloc a). Qed.

Lemma push_spec a x : al_ok a -> al_len a + 1 < 2 ^ 58 -> memory_for (al_max a + 1) ->
  exists a', arraylist_push a x = Ok a' /\ al_ok a' /\ elements a' = elements a ++ [x].
Proof.
  intros Hok Hb Hmem. destruct (al_grow_spec a 1 Hok ltac:(lia) Hb Hmem) as (a1 & E & Hok1 & Hl & He & _). unfold arraylist_push. rewrite E. cbn [obind].
  destruct Hok as [Hl0 _], Hok1 as [Hl1 [Hm1 Hm2]]. rewrite u64_small by lia. rewrite wr_in_range by lia. cbn [obind]. eexists. split; [done |].
  pose proof (len_set_items a1 (<[Z.to_nat (al_len a1 - 1):=x]> (items a1))) as [L M].
  split; [split; rewrite ?L, ?M, ?items_set_items, ?length_insert; lia |]. unfold elements. rewrite L, items_set_items. rewrite Hl.
  replace (Z.to_nat (al_len a + 1)) with (S (Z.to_nat (al_len a))) by lia. replace (Z.to_nat (al_len a + 1 - 1)) with (Z.to_nat (al_len a)) by lia.
  erewrite take_S_r by (apply list_lookup_insert_eq; lia). rewrite take_insert_ge by lia. fold (elements a). by rewrite <- He.
Qed.

Lemma pop_spec a l x : al_ok a -> elements a = l ++ [x] -> exists a', arraylist_pop a = Ok (x, a') /\ al_ok a' /\ elements a' = l.
Proof.
  intros Hok He. pose proof (length_elements a Hok) as Hle. rewrite He, length_app in Hle. cbn [length] in Hle. destruct Hok as [Hl [Hm Hm2]]. unfold arraylist_pop.
  destruct (Z.eqb_spec (al_len a) 0); [lia |]. rewrite u64_small by lia. set (k := al_len a - 1).
  assert (Hx : items a !! Z.to_nat k = Some x).
  { unfold elements in He. assert (E : take (Z.to_nat (al_len a)) (items a) !! Z.to_nat k = Some x); [rewrite He, lookup_app_r by lia; by replace (Z.to_nat k - length l)%nat with 0%nat by lia |].
    by rewrite lookup_take_lt in E by lia. }
  rewrite (proj2 (rd_lookup (items a) k x)) by (split; [lia | done]). cbn [obind]. rewrite wr_in_range by lia. cbn [obind]. eexists. split; [done |].
  pose proof (len_set_items (set_len a k) (<[Z.to_nat k:=0]> (items a))) as [L M]. cbn [set_len al_len al_max] in L, M.
  split; [split; rewrite ?L, ?M, ?items_set_items, ?length_insert; lia |]. unfold elements in *. rewrite L, items_set_items, take_insert_ge by lia.
  replace (Z.to_nat (al_len a)) with (S (Z.to_nat k)) in He by lia. erewrite take_S_r in He by done. by apply app_inj_tail in He as [? _].
Qed.
End ArrayList.

(** The small lists; sizes and increments are 32-bit numbers. *)
Definition small_arraylist_new (malloc : Z -> option (list Z)) (space : list Z) (size : Z) : option arraylist_t := arraylist_new SMALL_AL_N_INLINE malloc space size.
Definition small_arraylist_free (a : arraylist_t) : arraylist_t := arraylist_free SMALL_AL_N_INLINE a.
Definition small_arraylist_grow (malloc : Z -> option (list Z)) (a : arraylist_t) (n : Z) : outcome arraylist_t := arraylist_grow malloc a n.
Definition small_arraylist_push (malloc : Z -> option (list Z)) (a : arraylist_t) (elt : Z) : outcome arraylist_t :=
  let! a := small_arraylist_grow malloc a 1 in
  let! l := wr (items a) (u64 (al_len a - 1)) elt in
  Ok (set_items a l).
Definition small_arraylist_pop (a : arraylist_t) : outcome (Z * arraylist_t) := arraylist_pop a.

(** An allocation that fails is not reported: the element that is pushed onto a
    full list replaces the last one. *)
Example push_overwrites : arraylist_push (fun _ => None) (Arraylist 5 5 None [1; 2; 3; 4; 5]) 6 = Ok (Arraylist 5 5 None [1; 2; 3; 4; 6]).
Proof. reflexivity. Qed.
