(* ===== verification/BitVector.v ===== *)
(** * Bit vectors (support/bitvector.c)

    A vector is an array of 32-bit words.  [realloc n] is what new memory of
    [n] words holds; the words that were there are kept.  [1 << 31] is taken
    as the word with only its highest bit, as compilers do. *)

From stdpp Require Import base numbers option list.
From Stdlib Require Import ZArith Lia.
From S2P Require Import Prelude.

Definition bitvector_nwords (nbits : Z) : Z := Z.shiftr (u64 (nbits + 31)) 5.

Section Resize.
Context (realloc : Z -> option (list Z)).

(** The result is [None] for NULL. *)
Definition bitvector_resize (b : list Z) (oldsz newsz : Z) (initzero : bool) : outcome (option (list Z)) :=
  let nw := bitvector_nwords newsz in
  match realloc nw with
  | None => Ok None
  | Some new =>
      let p := take (Z.to_nat nw) b ++ drop (length b) new in
      if initzero && (oldsz <? newsz) then
        let osz := bitvector_nwords oldsz in
        if osz <=? Z.of_nat (length p) then Ok (Some (take (Z.to_nat osz) p ++ replicate (Z.to_nat (nw - osz)) 0)) else UB
      else Ok (Some p)
  end.

Definition bitvector_new (n : Z) (initzero : bool) : outcome (option (list Z)) := bitvector_resize [] 0 n initzero.
End Resize.

Definition bitvector_set (b : list Z) (n c : Z) : outcome (list Z) :=
  let w := Z.shiftr n 5 in
  let bit := Z.shiftl 1 (Z.land n 31) in
  let! x := rd b w in
  if negb (c =? 0) then wr b w (Z.lor x bit) else wr b w (Z.land x (u32 (Z.lnot bit))).

Definition bitvector_get (b : list Z) (n : Z) : outcome Z :=
  let! x := rd b (Z.shiftr n 5) in Ok (Z.land x (Z.shiftl 1 (Z.land n 31))).

(** ** Facts *)

(** The bit number [n]. *)
Definition bit (b : list Z) (n : Z) : outcome bool := let! x := bitvector_get b n in Ok (negb (x =? 0)).

Definition words (b : list Z) : Prop := Forall (fun x => 0 <= x < 2 ^ 32) b.

Lemma index_split n : 0 <= n -> n = 32 * Z.shiftr n 5 + Z.land n 31 /\ 0 <= Z.land n 31 < 32 /\ 0 <= Z.shiftr n 5.
Proof.
  intros Hn. change 31 with (Z.ones 5). rewrite Z.land_ones, Z.shiftr_div_pow2 by lia. change (2 ^ 5) with 32.
  pose proof (Z.div_mod n 32 ltac:(lia)). pose proof (Z.mod_pos_bound n 32 ltac:(lia)). pose proof (Z.div_pos n 32 ltac:(lia) ltac:(lia)). lia.
Qed.

Lemma nwords_cover n k : 0 <= k < n -> n < 2 ^ 63 -> 0 <= Z.shiftr k 5 < bitvector_nwords n.
Proof.
  intros Hk Hn. unfold bitvector_nwords. rewrite u64_small by lia. rewrite !Z.shiftr_div_pow2 by lia. change (2 ^ 5) with 32. split; [apply Z.div_pos; lia |].
  apply Z.div_lt_upper_bound; [lia |]. pose proof (Z.div_mod (n + 31) 32 ltac:(lia)). pose proof (Z.mod_pos_bound (n + 31) 32 ltac:(lia)). lia.
Qed.

Lemma land_bit x i : 0 <= i -> negb (Z.land x (Z.shiftl 1 i) =? 0) = Z.testbit x i.
Proof.
  intros Hi. rewrite Z.shiftl_1_l. destruct (Z.testbit x i) eqn:E.
  - apply negb_true_iff, Z.eqb_neq. intros H0. apply (f_equal (fun y => Z.testbit y i)) in H0. rewrite Z.land_spec, Z.pow2_bits_true, E, Z.bits_0 in H0 by lia. done.
  - apply negb_false_iff, Z.eqb_eq. apply Z.bits_inj'. intros j Hj. rewrite Z.land_spec, Z.bits_0. destruct (Z.eq_dec j i) as [-> |]; [by rewrite E | by rewrite Z.pow2_bits_false, andb_false_r by lia].
Qed.

Lemma bit_testbit b n x : 0 <= n -> rd b (Z.shiftr n 5) = Ok x -> bit b n = Ok (Z.testbit x (Z.land n 31)).
Proof. intros Hn E. destruct (index_split n Hn) as (_ & ? & _). unfold bit, bitvector_get. rewrite E. cbn [obind]. by rewrite land_bit by lia. Qed.

(** Setting a bit sets it and no other. *)
Lemma set_bit b n c : words b -> 0 <= n -> Z.shiftr n 5 < Z.of_nat (length b) ->
  exists b', bitvector_set b n c = Ok b' /\ words b' /\ length b' = length b /\
    forall k, 0 <= k -> Z.shiftr k 5 < Z.of_nat (length b) -> bit b' k = if k =? n then Ok (negb (c =? 0)) else bit b k.
Proof.
  intros Hw Hn Hl. destruct (index_split n Hn) as (En & Hi & Hs). destruct (rd_in_range b (Z.shiftr n 5)) as (x & Ex & Lx); [lia |]. unfold bitvector_set. rewrite Ex. cbn [obind].
  set (y := if negb (c =? 0) then Z.lor x (Z.shiftl 1 (Z.land n 31)) else Z.land x (u32 (Z.lnot (Z.shiftl 1 (Z.land n 31))))).
  assert (Hx : 0 <= x < 2 ^ 32) by (unfold words in Hw; rewrite Forall_lookup in Hw; by apply (Hw (Z.to_nat (Z.shiftr n 5)))).
  assert (Hxb : forall j, 32 <= j -> Z.testbit x j = false) by (intros j Hj; apply Z.bits_above_log2; [lia |]; destruct (Z.eq_dec x 0) as [-> |]; [cbn; lia |]; apply Z.log2_lt_pow2; [lia |]; apply (Z.lt_le_trans _ (2 ^ 32)); [lia |]; apply Z.pow_le_mono_r; lia).
  assert (Hy : forall j, 0 <= j < 32 -> Z.testbit y j = if j =? Z.land n 31 then negb (c =? 0) else Z.testbit x j).
  { intros j Hj. unfold y. rewrite Z.shiftl_1_l. destruct (c =? 0); cbn [negb].
    - unfold u32. rewrite Z.land_spec, Z.mod_pow2_bits_low, Z.lnot_spec by lia. destruct (Z.eqb_spec j (Z.land n 31)) as [-> |]; [by rewrite Z.pow2_bits_true, andb_false_r by lia | by rewrite Z.pow2_bits_false, andb_true_r by lia].
    - rewrite Z.lor_spec. destruct (Z.eqb_spec j (Z.land n 31)) as [-> |]; [by rewrite Z.pow2_bits_true, orb_true_r by lia | by rewrite Z.pow2_bits_false, orb_false_r by lia]. }
  assert (Hyr : 0 <= y < 2 ^ 32).
  { assert (0 <= y) by (unfold y; destruct (c =? 0); cbn [negb]; [apply Z.land_nonneg; left; lia | apply Z.lor_nonneg; split; [lia | rewrite Z.shiftl_1_l; apply Z.pow_nonneg; lia]]). split; [done |].
    destruct (Z.eq_dec y 0) as [-> |]; [lia |]. apply Z.log2_lt_pow2; [lia |]. destruct (Z.ltb_spec (Z.log2 y) 32); [done |]. exfalso. pose proof (Z.bit_log2 y ltac:(lia)) as Hb. unfold y in Hb at 1.
    destruct (c =? 0); cbn [negb] in Hb; [rewrite Z.land_spec, Hxb in Hb by lia; done |]. rewrite Z.lor_spec, Hxb, Z.shiftl_1_l, Z.pow2_bits_false in Hb by lia. done. }
  exists (<[Z.to_nat (Z.shiftr n 5) := y]> b). assert (E : wr b (Z.shiftr n 5) y = Ok (<[Z.to_nat (Z.shiftr n 5) := y]> b)) by (apply wr_in_range; lia).
  split; [rewrite <- E; unfold y; by destruct (negb (c =? 0)) |]. split; [by apply Forall_insert |]. split; [apply length_insert |]. intros k Hk Hkl. destruct (index_split k Hk) as (Ek & Hik & Hsk).
  destruct (Z.eq_dec (Z.shiftr k 5) (Z.shiftr n 5)) as [Es | Es].
  - rewrite (bit_testbit _ k y Hk) by (rewrite Es; apply rd_lookup; split; [lia |]; apply list_lookup_insert_eq; lia). rewrite Hy by lia. rewrite (bit_testbit b k x Hk) by (by rewrite Es).
    destruct (Z.eqb_spec k n) as [-> |]; [by rewrite Z.eqb_refl |]. destruct (Z.eqb_spec (Z.land k 31) (Z.land n 31)); [lia | done].
  - destruct (Z.eqb_spec k n) as [-> |]; [done |]. destruct (rd_in_range b (Z.shiftr k 5)) as (z & Ez & Lz); [lia |]. rewrite (bit_testbit b k z Hk Ez).
    apply (bit_testbit _ k z Hk). apply rd_lookup. split; [lia |]. rewrite list_lookup_insert_ne by lia. done.
Qed.

(** A new vector has no bits set. *)
Lemma new_zero realloc n : 0 < n < 2 ^ 63 -> (exists l, realloc (bitvector_nwords n) = Some l /\ Z.of_nat (length l) = bitvector_nwords n) ->
  exists b, bitvector_new realloc n true = Ok (Some b) /\ words b /\ forall k, 0 <= k < n -> bit b k = Ok false.
Proof.
  intros Hn (l & El & Hl). unfold bitvector_new, bitvector_resize. rewrite El. cbn [andb]. destruct (Z.ltb_spec 0 n); [| lia]. change (bitvector_nwords 0) with 0.
  destruct (Z.leb_spec 0 (Z.of_nat (length (take (Z.to_nat (bitvector_nwords n)) [] ++ drop (length (@nil Z)) l)))); [| lia]. eexists. split; [done |]. rewrite Z.sub_0_r.
  change (take (Z.to_nat 0) (take (Z.to_nat (bitvector_nwords n)) [] ++ drop (length (@nil Z)) l)) with (@nil Z). cbn [app]. split; [apply Forall_replicate; lia |].
  intros k Hk. pose proof (nwords_cover n k Hk ltac:(lia)).
  assert (Ez : rd (replicate (Z.to_nat (bitvector_nwords n)) 0) (Z.shiftr k 5) = Ok 0) by (apply rd_lookup; split; [lia |]; apply lookup_replicate; split; [done | lia]).
  rewrite (bit_testbit _ k 0 ltac:(lia) Ez). by rewrite Z.bits_0.
Qed.
