(* ===== verification/Eytzinger.v ===== *)
(** * Address ranges in an Eytzinger tree (support/eytzinger.c, eytzinger.h)

    The boundaries of all ranges are sorted and stored as a binary search tree
    in an array, the children of the node [k] at [2k] and [2k + 1]; the images
    of a process are found by their addresses this way.  Operations run under
    the lock of the tree and are single steps.  [qsort] sorts; the array of
    ranges can always grow. *)

From stdpp Require Import base numbers option sorting list.
From Stdlib Require Import ZArith Lia.
From S2P Require Import Prelude ArrayList.

Definition EYT_NOTFOUND : Z := 1.

Record eyt_range_t := EytRange { er_start : Z; er_end : Z; er_data : Z }.
Record eyt_tree_t := EytTree {
  et_n : Z;
  et_tree : arraylist_t;
  et_idxs : arraylist_t;
  et_min_addr : Z;
  et_max_addr : Z;
  et_ranges : list eyt_range_t
}.

(** ** Search *)

(** [__builtin_ctzll] *)
Definition ctzll (k : Z) : Z := Z.log2 (Z.land k (- k)).

Fixpoint eyt_walk (fuel : nat) (addr : Z) (tree : list Z) (n k : Z) : outcome Z :=
  if k <=? n then
    match fuel with
    | O => Timeout
    | S fuel' =>
        let! t := rd tree (k - 1) in
        let greater := if t <? addr then 1 else 0 in
        eyt_walk fuel' addr tree n (Z.lor (u64 (Z.shiftl k 1)) greater)
    end
  else Ok k.

Definition _eyt_obj_idx (addr : Z) (tree : list Z) (n min_addr max_addr : Z) : outcome Z :=
  if n =? 0 then Ok n
  else if negb (n mod 2 =? 0) then UB
  else if (addr <=? min_addr) || (max_addr <? addr) then Ok n
  else
    let! k := eyt_walk 64 addr tree n 1 in
    let k := Z.shiftr k (ctzll k + 1) in
    if (k =? 0) || (n <? k) then UB
    else
      let! t := rd tree (k - 1) in
      if negb (t <? addr) then UB else Ok (k - 1).

(** ** Building *)

(** The nodes from [k] down get the values from [src] on, in order.  The
    function returns an [int]. *)
Fixpoint eytzinger (fuel : nat) (src dest : list Z) (i k n : Z) : outcome (Z * list Z) :=
  if k <=? n then
    match fuel with
    | O => Timeout
    | S fuel' =>
        let! (i, dest) := eytzinger fuel' src dest i (u64 (2 * k)) n in
        let! x := rd src i in
        let! dest := wr dest (k - 1) x in
        let! (i, dest) := eytzinger fuel' src dest (u64 (i + 1)) (u64 (2 * k + 1)) n in
        Ok (u64 (i32 i), dest)
    end
  else Ok (u64 (i32 i), dest).

Definition ptr_cmp (left right : Z) : Z := (if right <? left then 1 else 0) - (if left <? right then 1 else 0).
Definition ptr_le (left right : Z) : Prop := ptr_cmp left right <= 0.
#[export] Instance ptr_le_dec left right : Decision (ptr_le left right) := Z_le_dec _ _.

(** [qsort] of the first [n] words, with [ptr_cmp]. *)
Definition qsort (l : list Z) (n : Z) : outcome (list Z) :=
  if n <=? Z.of_nat (length l) then Ok (merge_sort ptr_le (take (Z.to_nat n) l) ++ drop (Z.to_nat n) l) else UB.

(** The boundary number [i]: the end of a range is odd. *)
Definition boundary (ranges : list eyt_range_t) (i : Z) : outcome Z :=
  let! r := rd ranges (i / 2) in
  let val := if Z.testbit i 0 then er_end r else er_start r in
  if negb (val mod 4 =? 0) then UB else Ok (u64 (val + Z.land i 1)).

Fixpoint fill_boundaries (ranges : list eyt_range_t) (idxs : list Z) (todo : list Z) : outcome (list Z) :=
  match todo with
  | [] => Ok idxs
  | i :: todo => let! b := boundary ranges i in let! idxs := wr idxs i b in fill_boundaries ranges idxs todo
  end.

(** The second loop does not test the alignment again. *)
Fixpoint fill_data (ranges : list eyt_range_t) (tree idxs : list Z) (end_ min_addr max_addr : Z) (todo : list Z) : outcome (list Z) :=
  match todo with
  | [] => Ok idxs
  | i :: todo =>
      let! r := rd ranges (i / 2) in
      let val := if Z.testbit i 0 then er_end r else er_start r in
      let eyt_val := u64 (val + Z.land i 1) in
      let! eyt_idx := _eyt_obj_idx (u64 (eyt_val + 1)) tree end_ min_addr max_addr in
      if negb (eyt_idx <? end_) then UB
      else
        let! t := rd tree eyt_idx in
        if negb (t =? eyt_val) then UB
        else
          let! idxs := wr idxs eyt_idx (if Z.testbit i 0 then EYT_NOTFOUND else er_data r) in
          fill_data ranges tree idxs end_ min_addr max_addr todo
  end.

Section Trees.
Context (malloc : Z -> option (list Z)).

Definition rebuild_tree (t : eyt_tree_t) : outcome eyt_tree_t :=
  let nranges := Z.of_nat (length (et_ranges t)) in
  let end_ := u64 (2 * nranges) in
  let needed := u64 (end_ + 1) in
  let! tr := arraylist_grow malloc (et_tree t) (u64 (needed - al_len (et_tree t))) in
  let! ix := arraylist_grow malloc (et_idxs t) (u64 (needed - al_len (et_idxs t))) in
  let! idxs := wr (items ix) end_ EYT_NOTFOUND in
  let! tree := wr (items tr) end_ 1 in
  let! idxs := fill_boundaries (et_ranges t) idxs (seqZ 0 end_) in
  let! idxs := qsort idxs end_ in
  let! min_addr := rd idxs 0 in
  let! last := rd idxs (end_ - 1) in
  let max_addr := u64 (last + 1) in
  let! (_, tree) := eytzinger 64 idxs tree 0 1 end_ in
  let! idxs := fill_data (et_ranges t) tree idxs end_ min_addr max_addr (seqZ 0 end_) in
  Ok (EytTree end_ (set_items tr tree) (set_items ix idxs) min_addr max_addr (et_ranges t)).

(** [space] is what the words inside the structure hold: [memset] clears them. *)
Definition eyt_tree_init : outcome eyt_tree_t :=
  let space := replicate (Z.to_nat AL_N_INLINE) 0 in
  match arraylist_new AL_N_INLINE malloc space 0, arraylist_new AL_N_INLINE malloc space 0 with
  | Some tr, Some ix =>
      let! tr := arraylist_push malloc tr 1 in
      let! ix := arraylist_push malloc ix EYT_NOTFOUND in
      Ok (EytTree 0 tr ix 0 0 [])
  | _, _ => UB
  end.

Definition eyt_tree_add_range (t : eyt_tree_t) (start end_ data : Z) : outcome eyt_tree_t :=
  if negb (start mod 4 =? 0) || negb (end_ mod 4 =? 0) || negb (start <? end_) then UB
  else
    rebuild_tree (EytTree (et_n t) (et_tree t) (et_idxs t) (et_min_addr t) (et_max_addr t)
      (et_ranges t ++ [EytRange start end_ data])).
End Trees.

(** ** Lookup *)

Definition eyt_tree_is_in_range (t : eyt_tree_t) (addr : Z) : outcome bool :=
  let! idx := _eyt_obj_idx addr (items (et_tree t)) (et_n t) (et_min_addr t) (et_max_addr t) in
  let! x := rd (items (et_tree t)) idx in
  Ok (Z.land x 1 =? 0).

Definition eyt_tree_find_data (t : eyt_tree_t) (addr : Z) : outcome Z :=
  let! idx := _eyt_obj_idx addr (items (et_tree t)) (et_n t) (et_min_addr t) (et_max_addr t) in
  rd (items (et_idxs t)) idx.
