(* ===== verification/EytzingerFacts.v ===== *)
(** * Looking up addresses

    The tree holds the sorted boundaries in order, the walk finds the largest
    boundary below an address, and so the range around the address. *)

From stdpp Require Import base numbers option sorting list.
From Stdlib Require Import ZArith Lia.
From S2P Require Import Prelude ArrayList Eytzinger.

(** ** Trailing zeros *)

Lemma land_even a b : Z.land (2 * a) (2 * b) = 2 * Z.land a b.
Proof. apply Z.bits_inj'. intros n Hn. destruct (Z.eq_dec n 0) as [-> |]; [by rewrite Z.land_spec, !Z.testbit_even_0 |]. replace n with (Z.succ (n - 1)) by lia. by rewrite Z.land_spec, !Z.testbit_even_succ, Z.land_spec by lia. Qed.
Lemma land_odd a b : Z.land (2 * a + 1) (2 * b + 1) = 2 * Z.land a b + 1.
Proof. apply Z.bits_inj'. intros n Hn. destruct (Z.eq_dec n 0) as [-> |]; [by rewrite Z.land_spec, !Z.testbit_odd_0 |]. replace n with (Z.succ (n - 1)) by lia. by rewrite Z.land_spec, !Z.testbit_odd_succ, Z.land_spec by lia. Qed.

Lemma low_odd k : Z.land (2 * k + 1) (- (2 * k + 1)) = 1.
Proof. replace (- (2 * k + 1)) with (2 * Z.lnot k + 1) by (unfold Z.lnot; lia). by rewrite land_odd, Z.land_lnot_diag. Qed.
Lemma low_even k : Z.land (2 * k) (- (2 * k)) = 2 * Z.land k (- k).
Proof. replace (- (2 * k)) with (2 * - k) by lia. apply land_even. Qed.
Lemma low_pos k : 0 < k -> 0 < Z.land k (- k).
Proof.
  destruct k as [| p |]; try lia. intros _. induction p as [p IH | p IH |]; [| | done].
  - rewrite Pos2Z.inj_xI, low_odd. lia.
  - rewrite Pos2Z.inj_xO, low_even. lia.
Qed.

(** The node at which the walk to [k] went right last. *)
Definition last_right (k : Z) : Z := Z.shiftr k (ctzll k + 1).

Lemma last_right_even k : 0 < k -> last_right (2 * k) = last_right k.
Proof.
  intros Hk. unfold last_right, ctzll. rewrite low_even, Z.log2_double by (by apply low_pos). pose proof (Z.log2_nonneg (Z.land k (- k))) as Hl.
  set (c := Z.log2 (Z.land k (- k))) in *. rewrite !Z.shiftr_div_pow2 by lia. replace (Z.succ c + 1) with (Z.succ (c + 1)) by lia. rewrite Z.pow_succ_r by lia. apply Z.div_mul_cancel_l; lia.
Qed.
Lemma last_right_odd k : last_right (2 * k + 1) = k.
Proof. unfold last_right, ctzll. rewrite low_odd. cbn [Z.log2 Z.add]. rewrite Z.shiftr_div_pow2 by lia. change (2 ^ 1) with 2. symmetry. apply (Z.div_unique _ _ _ 1); lia. Qed.

(** ** Nodes *)

(** The nodes from [k] down, in order. *)
Fixpoint nodes (fuel : nat) (n k : Z) : list Z :=
  if k <=? n then match fuel with O => [] | S fuel' => nodes fuel' n (2 * k) ++ k :: nodes fuel' n (2 * k + 1) end else [].

Definition below (k m : Z) : Prop := exists d, 0 <= d /\ m / 2 ^ d = k.

Lemma below_child k m c : 0 <= c <= 1 -> below (2 * k + c) m -> below k m.
Proof.
  intros Hc (d & Hd & E). exists (d + 1). split; [lia |]. rewrite Z.pow_add_r, <- Z.div_div by lia. rewrite E. change (2 ^ 1) with 2. symmetry. apply (Z.div_unique _ _ _ c); lia.
Qed.

Lemma below_trichotomy k m : 0 < k -> below k m <-> m = k \/ below (2 * k) m \/ below (2 * k + 1) m.
Proof.
  intros Hk. split.
  - intros (d & Hd & E). destruct (Z.eq_dec d 0) as [-> |]; [left; rewrite Z.div_1_r in E; done | right].
    assert (E2 : m / 2 ^ (d - 1) / 2 = k) by (rewrite Z.div_div by lia; change 2 with (2 ^ 1) at 2; rewrite <- Z.pow_add_r by lia; rewrite <- E; do 2 f_equal; lia).
    pose proof (Z.div_mod (m / 2 ^ (d - 1)) 2 ltac:(lia)). pose proof (Z.mod_pos_bound (m / 2 ^ (d - 1)) 2 ltac:(lia)).
    destruct (Z.eq_dec (m / 2 ^ (d - 1) mod 2) 0); [left | right]; exists (d - 1); lia.
  - intros [-> | [H | H]]; [exists 0; split; [lia | by rewrite Z.div_1_r] | apply (below_child k m 0); [lia | by rewrite Z.add_0_r] | by apply (below_child k m 1)].
Qed.

Lemma below_ge k m : 0 < k -> below k m -> k <= m.
Proof.
  intros Hk (d & Hd & <-). pose proof (Z.pow_pos_nonneg 2 d ltac:(lia) Hd). destruct (Z.leb_spec 0 m); [apply Z.div_le_upper_bound; nia |].
  pose proof (Z.div_lt_upper_bound m (2 ^ d) 0). lia.
Qed.

(** The subtrees are disjoint. *)
Lemma below_disjoint k m : 0 < k -> below (2 * k) m -> below (2 * k + 1) m -> False.
Proof.
  intros Hk (d & Hd & Ed) (e & He & Ee).
  assert (Hlt : forall a b x y, 0 <= a < b -> m / 2 ^ a = x -> m / 2 ^ b = y -> 0 < x -> y <= x / 2).
  { intros a b x y Hab <- <- Hx. replace b with (a + 1 + (b - a - 1)) by lia. rewrite !Z.pow_add_r, <- !Z.div_div by (try lia; apply Z.pow_nonzero; lia). change (2 ^ 1) with 2.
    pose proof (Z.pow_pos_nonneg 2 (b - a - 1) ltac:(lia) ltac:(lia)). pose proof (Z.div_pos (m / 2 ^ a) 2 ltac:(lia) ltac:(lia)). apply Z.div_le_upper_bound; nia. }
  destruct (Z.lt_trichotomy d e) as [Hde | [-> | Hde]]; [| lia |].
  - pose proof (Hlt d e _ _ ltac:(lia) Ed Ee ltac:(lia)). replace (2 * k / 2) with k in * by (apply (Z.div_unique _ _ _ 0); lia). lia.
  - pose proof (Hlt e d _ _ ltac:(lia) Ee Ed ltac:(lia)). replace ((2 * k + 1) / 2) with k in * by (apply (Z.div_unique _ _ _ 1); lia). lia.
Qed.

Lemma elem_of_nodes fuel n : forall k m, 0 < k -> n < k * 2 ^ Z.of_nat fuel -> m ∈ nodes fuel n k <-> below k m /\ m <= n.
Proof.
  induction fuel as [| fuel IH]; intros k m Hk Hf; cbn [nodes].
  - cbn in Hf. destruct (Z.leb_spec k n); [lia |]. split; [intros Hm; by apply elem_of_nil in Hm | intros [Hb Hm]; apply below_ge in Hb; lia].
  - rewrite Nat2Z.inj_succ, Z.pow_succ_r in Hf by lia. destruct (Z.leb_spec k n).
    + rewrite elem_of_app, elem_of_cons, !IH by lia. rewrite (below_trichotomy k m Hk). intuition lia.
    + split; [intros Hm; by apply elem_of_nil in Hm | intros [Hb Hm]; apply below_ge in Hb; lia].
Qed.

Lemma nodes_NoDup fuel n : forall k, 0 < k -> n < k * 2 ^ Z.of_nat fuel -> NoDup (nodes fuel n k).
Proof.
  induction fuel as [| fuel IH]; intros k Hk Hf; cbn [nodes]; destruct (k <=? n); try constructor. rewrite Nat2Z.inj_succ, Z.pow_succ_r in Hf by lia.
  apply NoDup_app. split; [apply IH; lia |]. split.
  - intros m Hm1 Hm2. apply elem_of_nodes in Hm1 as [Hb1 _]; [| lia | lia]. apply elem_of_cons in Hm2 as [-> | Hm2]; [apply below_ge in Hb1; lia |].
    apply elem_of_nodes in Hm2 as [Hb2 _]; [| lia | lia]. by apply (below_disjoint k m).
  - constructor; [| apply IH; lia]. intros Hm. apply elem_of_nodes in Hm as [Hb _]; [apply below_ge in Hb; lia | lia | lia].
Qed.

(** All nodes. *)
Lemma nodes_length n : 0 <= n < 2 ^ 60 -> length (nodes 64 n 1) = Z.to_nat n.
Proof.
  intros Hn. assert (P : nodes 64 n 1 ≡ₚ seqZ 1 n).
  { apply NoDup_Permutation; [apply nodes_NoDup; [lia |]; change (Z.of_nat 64) with 64; lia | apply NoDup_seqZ |]. intros m. rewrite elem_of_nodes, elem_of_seqZ by (change (Z.of_nat 64) with 64; lia).
    split; [intros [Hb%below_ge Hm]; lia |]. intros Hm. split; [| lia]. exists (Z.log2 m). split; [apply Z.log2_nonneg |]. destruct (Z.log2_spec m ltac:(lia)) as [H1 H2].
    rewrite Z.pow_succ_r in H2 by apply Z.log2_nonneg. symmetry. apply (Z.div_unique _ _ _ (m - 2 ^ Z.log2 m)); lia. }
  by rewrite P, length_seqZ.
Qed.

(** ** Building the tree *)

Lemma rd_wr (l : list Z) i x : 0 <= i < Z.of_nat (length l) -> exists l', wr l i x = Ok l' /\ length l' = length l /\ rd l' i = Ok x /\ forall j, j <> i -> rd l' j = rd l j.
Proof.
  intros Hi. rewrite wr_in_range by done. eexists. split; [done |]. split; [apply length_insert |]. split.
  - apply rd_lookup. split; [lia |]. apply list_lookup_insert_eq. lia.
  - intros j Hj. unfold rd. destruct (Z.ltb_spec j 0); [done |]. by rewrite list_lookup_insert_ne by lia.
Qed.

Lemma eytzinger_spec n src fuel : n < 2 ^ 31 -> forall dest i k, 0 < k -> n < k * 2 ^ Z.of_nat fuel -> 0 <= i -> i + Z.of_nat (length (nodes fuel n k)) <= n -> n <= Z.of_nat (length src) -> n <= Z.of_nat (length dest) ->
  exists dest', eytzinger fuel src dest i k n = Ok (i + Z.of_nat (length (nodes fuel n k)), dest') /\ length dest' = length dest /\
    (forall j m, nodes fuel n k !! j = Some m -> rd dest' (m - 1) = rd src (i + Z.of_nat j)) /\ (forall m, ~ (below k m /\ m <= n) -> rd dest' (m - 1) = rd dest (m - 1)).
Proof.
  intros Hn. induction fuel as [| fuel IH]; intros dest i k Hk Hf Hi Hs Hsn Hd; cbn [nodes eytzinger] in *.
  - cbn in Hf, Hs. destruct (Z.leb_spec k n); [lia |]. exists dest. by rewrite Z.add_0_r, i32_small, u64_small by lia.
  - rewrite Nat2Z.inj_succ, Z.pow_succ_r in Hf by lia. destruct (Z.leb_spec k n); [| cbn in Hs; exists dest; by rewrite Z.add_0_r, i32_small, u64_small by lia]. rewrite length_app in *. cbn [length] in *. rewrite (u64_small (2 * k)), (u64_small (2 * k + 1)) by lia.
    destruct (IH dest i (2 * k)) as (d1 & -> & L1 & V1 & F1); [lia | lia | lia | lia | lia | lia |]. cbn [obind]. set (nl := length (nodes fuel n (2 * k))) in *.
    destruct (rd_in_range src (i + Z.of_nat nl)) as (x & Ex & _); [lia |]. rewrite Ex. cbn [obind].
    destruct (rd_wr d1 (k - 1) x) as (d2 & E2 & L2 & V2 & F2); [lia |]. rewrite E2. cbn [obind].
    rewrite u64_small by lia. destruct (IH d2 (i + Z.of_nat nl + 1) (2 * k + 1)) as (d3 & -> & L3 & V3 & F3); [lia | lia | lia | lia | lia | lia |]. cbn [obind]. rewrite i32_small, u64_small by lia. exists d3. split; [f_equal; f_equal; lia |]. split; [lia |].
    assert (Hk2 : ~ below (2 * k) k /\ ~ below (2 * k + 1) k) by (split; intros Hb%below_ge; lia). split.
    + intros j m. rewrite lookup_app_Some. fold nl. intros [Hj | [Hj Hm]].
      * assert (Hbm : below (2 * k) m) by (apply list_elem_of_lookup_2, elem_of_nodes in Hj; [by destruct Hj | lia | lia]).
        rewrite F3 by (intros [Hb _]; by apply (below_disjoint k m)). rewrite F2; [by apply V1 |]. intros E. assert (m = k) as -> by lia. by destruct Hk2.
      * destruct (j - nl)%nat as [| j'] eqn:Ej; cbn in Hm; [injection Hm as <- | ].
        -- rewrite F3 by (intros [Hb _]; by destruct Hk2). rewrite V2, <- Ex. f_equal. lia.
        -- rewrite (V3 j' m Hm). f_equal. lia.
    + intros m Hm. rewrite (below_trichotomy k m Hk) in Hm. rewrite F3 by tauto. rewrite F2 by (intros E; assert (m = k) as -> by lia; tauto). apply F1. tauto.
Qed.

(** ** The walk *)

(** The values of the nodes. *)
Definition holds_values (tree : list Z) (ms vs : list Z) : Prop := Forall2 (fun m v => rd tree (m - 1) = Ok v) ms vs.

Definition sorted (vs : list Z) : Prop := forall i j v w, (i < j)%nat -> vs !! i = Some v -> vs !! j = Some w -> v <= w.

Lemma sorted_app vs ws : sorted (vs ++ ws) -> sorted vs /\ sorted ws /\ forall v w, v ∈ vs -> w ∈ ws -> v <= w.
Proof.
  intros Hs. assert (Hr : forall i, (vs ++ ws) !! (length vs + i)%nat = ws !! i) by (intros i; rewrite lookup_app_r by lia; f_equal; lia). split; [| split].
  - intros i j v w Hij Hi Hj. apply (Hs i j v w Hij); by apply lookup_app_l_Some.
  - intros i j v w Hij Hi Hj. apply (Hs (length vs + i)%nat (length vs + j)%nat v w); [lia | by rewrite Hr | by rewrite Hr].
  - intros v w [i Hi]%list_elem_of_lookup [j Hj]%list_elem_of_lookup. apply (Hs i (length vs + j)%nat v w); [apply lookup_lt_Some in Hi; lia | by apply lookup_app_l_Some | by rewrite Hr].
Qed.

Lemma walk_spec n tree addr fuel : n < 2 ^ 60 -> forall k vs, 0 < k -> n < k * 2 ^ Z.of_nat fuel -> holds_values tree (nodes fuel n k) vs -> sorted vs ->
  exists k', eyt_walk fuel addr tree n k = Ok k' /\
    ((forall v, v ∈ vs -> addr <= v) /\ last_right k' = last_right k \/
     exists m v, m ∈ nodes fuel n k /\ v ∈ vs /\ rd tree (m - 1) = Ok v /\ v < addr /\ (forall w, w ∈ vs -> w <= v \/ addr <= w) /\ last_right k' = m).
Proof.
  intros Hn. induction fuel as [| fuel IH]; intros k vs Hk Hf Hv Hs; cbn [nodes eyt_walk] in *.
  - cbn in Hf. destruct (Z.leb_spec k n); [lia |]. apply Forall2_nil_inv_l in Hv as ->. exists k. split; [done |]. left. split; [| done]. intros v Hx. by apply elem_of_nil in Hx.
  - rewrite Nat2Z.inj_succ, Z.pow_succ_r in Hf by lia. destruct (Z.leb_spec k n).
    2:{ apply Forall2_nil_inv_l in Hv as ->. exists k. split; [done |]. left. split; [| done]. intros v Hx. by apply elem_of_nil in Hx. }
    apply Forall2_app_inv_l in Hv as (vl & vr' & Hvl & Hvr & ->). apply Forall2_cons_inv_l in Hvr as (x & vr & Hx & Hvr & ->). rewrite Hx. cbn [obind].
    apply sorted_app in Hs as (Hsl & Hsr & Hlr). change (x :: vr) with ([x] ++ vr) in Hsr. apply sorted_app in Hsr as (_ & Hsr & Hxr).
    rewrite Z.shiftl_mul_pow2, u64_small by lia. change (2 ^ 1) with 2. replace (k * 2) with (2 * k) by lia.
    assert (Hin : forall w, w ∈ vl ++ x :: vr <-> w ∈ vl \/ w = x \/ w ∈ vr) by (intros w; rewrite elem_of_app, elem_of_cons; tauto).
    destruct (Z.ltb_spec x addr) as [Hlt | Hge].
    + replace (Z.lor (2 * k) 1) with (2 * k + 1) by (symmetry; apply Z.bits_inj'; intros b Hb; destruct (Z.eq_dec b 0) as [-> |]; [by rewrite Z.lor_spec, Z.testbit_even_0, Z.testbit_odd_0 |]; replace b with (Z.succ (b - 1)) by lia;
        rewrite Z.lor_spec, Z.testbit_even_succ, Z.testbit_odd_succ by lia; change 1 with (2 * 0 + 1); rewrite Z.testbit_odd_succ by lia; by rewrite Z.bits_0, orb_false_r).
      destruct (IH (2 * k + 1) vr) as (k' & Ek & Hc); [lia | lia | done | done |]. exists k'. split; [done |]. right. destruct Hc as [[Hno Hl] | (m & v & Hm & Hv & Er & Hva & Hpred & Hl)].
      * exists k, x. rewrite last_right_odd in Hl. split; [apply elem_of_app; right; apply elem_of_cons; by left |]. split; [rewrite Hin; tauto |]. split; [done |]. split; [done |]. split; [| done].
        intros w [Hw | [-> | Hw]]%Hin; [left; apply Hlr; [done | apply elem_of_cons; by left] | left; lia | right; by apply Hno].
      * exists m, v. split; [apply elem_of_app; right; apply elem_of_cons; by right |]. split; [rewrite Hin; tauto |]. split; [done |]. split; [done |]. split; [| done].
        assert (Hxv : x <= v) by (apply Hxr; [by apply list_elem_of_singleton | done]).
        intros w [Hw | [-> | Hw]]%Hin; [left; assert (w <= x) by (apply Hlr; [done | apply elem_of_cons; by left]); lia | by left | by apply Hpred].
    + rewrite Z.lor_0_r. destruct (IH (2 * k) vl) as (k' & Ek & Hc); [lia | lia | done | done |]. exists k'. split; [done |].
      assert (Hright : forall w, w = x \/ w ∈ vr -> addr <= w) by (intros w [-> | Hw]; [lia |]; assert (x <= w) by (apply Hxr; [by apply list_elem_of_singleton | done]); lia).
      destruct Hc as [[Hno Hl] | (m & v & Hm & Hv & Er & Hva & Hpred & Hl)]; [left | right].
      * rewrite last_right_even in Hl by done. split; [| done]. intros w [Hw | Hw]%Hin; [by apply Hno | by apply Hright].
      * exists m, v. split; [apply elem_of_app; by left |]. split; [rewrite Hin; tauto |]. split; [done |]. split; [done |]. split; [| done].
        intros w [Hw | Hw]%Hin; [by apply Hpred | right; by apply Hright].
Qed.

Lemma obj_idx_spec n tree src addr mn mx : 0 < n < 2 ^ 60 -> n mod 2 = 0 -> holds_values tree (nodes 64 n 1) src -> sorted src -> (exists v, v ∈ src /\ v < addr) -> mn < addr <= mx ->
  exists p v, _eyt_obj_idx addr tree n mn mx = Ok p /\ 0 <= p < n /\ rd tree p = Ok v /\ v ∈ src /\ v < addr /\ forall w, w ∈ src -> w <= v \/ addr <= w.
Proof.
  intros Hn Hev Hv Hs (v0 & Hv0 & Hlt0) Hmm. unfold _eyt_obj_idx. destruct (Z.eqb_spec n 0); [lia |]. rewrite Hev. cbn [Z.eqb negb].
  destruct (Z.leb_spec addr mn); [lia |]. destruct (Z.ltb_spec mx addr); [lia |]. cbn [orb].
  destruct (walk_spec n tree addr 64 ltac:(lia) 1 src ltac:(lia) ltac:(change (Z.of_nat 64) with 64; lia) Hv Hs) as (k' & -> & [[Hno _] | (m & v & Hm & Hvs & Er & Hva & Hpred & Hl)]); [apply Hno in Hv0; lia |]. cbn [obind].
  unfold last_right in Hl. rewrite Hl. apply elem_of_nodes in Hm as [Hb Hmn]; [| lia | change (Z.of_nat 64) with 64; lia]. apply below_ge in Hb; [| lia].
  destruct (Z.eqb_spec m 0); [lia |]. destruct (Z.ltb_spec n m); [lia |]. cbn [orb]. rewrite Er. cbn [obind]. rewrite (proj2 (Z.ltb_lt _ _) Hva). cbn [negb].
  exists (m - 1), v. split; [done |]. split; [lia |]. done.
Qed.

(** Outside all boundaries. *)
Lemma obj_idx_outside n tree addr mn mx : n mod 2 = 0 -> addr <= mn \/ mx < addr -> _eyt_obj_idx addr tree n mn mx = Ok n.
Proof.
  intros Hev Ho. unfold _eyt_obj_idx. destruct (n =? 0); [done |]. rewrite Hev. cbn [Z.eqb negb]. destruct (Z.leb_spec addr mn), (Z.ltb_spec mx addr); try done. lia.
Qed.

(** ** Boundaries *)

Definition bound (r : eyt_range_t) (e : bool) : Z := if e then er_end r + 1 else er_start r.
Definition bounds (rs : list eyt_range_t) : list Z := flat_map (fun r => [bound r false; bound r true]) rs.

Record range_ok (r : eyt_range_t) : Prop := {
  ro_start : 0 <= er_start r < er_end r;
  ro_end : er_end r < 2 ^ 64 - 4;
  ro_aligned : er_start r mod 4 = 0 /\ er_end r mod 4 = 0
}.

(** There is a gap between any two ranges. *)
Definition separated (rs : list eyt_range_t) : Prop :=
  forall i j r s, rs !! i = Some r -> rs !! j = Some s -> i <> j -> er_end r < er_start s \/ er_end s < er_start r.

Lemma length_bounds rs : length (bounds rs) = (2 * length rs)%nat.
Proof. induction rs as [| r rs IH]; [done |]. cbn [bounds flat_map app length]. fold (bounds rs). lia. Qed.

Lemma bounds_lookup rs : forall k b, bounds rs !! k = Some b <-> exists q r e, k = (2 * q + Nat.b2n e)%nat /\ rs !! q = Some r /\ b = bound r e.
Proof.
  induction rs as [| r rs IH]; intros k b.
  - split; [done |]. intros (q & r & e & _ & H & _). done.
  - cbn [bounds flat_map app]. fold (bounds rs). destruct k as [| [| k]]; cbn [lookup list_lookup].
    + split; [intros [= <-]; by exists 0%nat, r, false |]. intros (q & r' & e & Hk & Hq & ->). destruct q, e; cbn in Hk; try lia. cbn in Hq. by injection Hq as ->.
    + split; [intros [= <-]; by exists 0%nat, r, true |]. intros (q & r' & e & Hk & Hq & ->). destruct q, e; cbn in Hk; try lia. cbn in Hq. by injection Hq as ->.
    + change (bounds rs !! k = Some b <-> exists q r' e, S (S k) = (2 * q + Nat.b2n e)%nat /\ (r :: rs) !! q = Some r' /\ b = bound r' e). rewrite IH. split.
      * intros (q & r' & e & -> & Hq & ->). exists (S q), r', e. split; [lia | done].
      * intros (q & r' & e & Hk & Hq & ->). destruct q as [| q]; [destruct e; cbn in Hk; lia |]. exists q, r', e. split; [lia | done].
Qed.

Lemma elem_of_bounds rs b : b ∈ bounds rs <-> exists q r e, rs !! q = Some r /\ b = bound r e.
Proof.
  rewrite list_elem_of_lookup. split.
  - intros (k & (q & r & e & _ & Hq & ->)%bounds_lookup). by exists q, r, e.
  - intros (q & r & e & Hq & ->). exists (2 * q + Nat.b2n e)%nat. apply bounds_lookup. by exists q, r, e.
Qed.

Lemma bounds_NoDup rs : Forall range_ok rs -> separated rs -> NoDup (bounds rs).
Proof.
  intros Hok Hsep. apply NoDup_alt. intros i j b (q & r & e & -> & Hq & ->)%bounds_lookup (q' & r' & e' & -> & Hq' & E)%bounds_lookup. rewrite Forall_lookup in Hok.
  destruct (Hok q r Hq) as [H1 _ [H3 H4]], (Hok q' r' Hq') as [H1' _ [H3' H4']]. destruct (decide (q = q')) as [<- | Hne].
  - rewrite Hq in Hq'. injection Hq' as <-. destruct e, e'; cbn in E; lia.
  - destruct (Hsep q q' r r' Hq Hq' Hne); destruct e, e'; cbn in E; Z.div_mod_to_equations; lia.
Qed.

Lemma boundary_spec rs i : Forall range_ok rs -> 0 <= i < 2 * Z.of_nat (length rs) ->
  exists r, rd rs (i / 2) = Ok r /\ range_ok r /\ Z.land i 1 = (if Z.testbit i 0 then 1 else 0) /\ boundary rs i = Ok (bound r (Z.testbit i 0)) /\ rd (bounds rs) i = Ok (bound r (Z.testbit i 0)).
Proof.
  intros Hok Hi. destruct (rd_in_range rs (i / 2)) as (r & Er & El); [Z.div_mod_to_equations; lia |]. exists r. rewrite Forall_lookup in Hok. pose proof (Hok _ r El) as Hr.
  assert (Hb : Z.land i 1 = if Z.testbit i 0 then 1 else 0).
  { rewrite Z.bit0_odd. change 1 with (Z.ones 1) at 1. rewrite Z.land_ones by lia. change (2 ^ 1) with 2. rewrite Zmod_odd. done. }
  split; [done |]. split; [done |]. split; [done |]. destruct Hr as [H1 H2 [H3 H4]]. split.
  - unfold boundary. rewrite Er. cbn [obind]. rewrite Hb. unfold bound. destruct (Z.testbit i 0); rewrite ?H3, ?H4; cbn [Z.eqb negb]; rewrite u64_small by lia; f_equal; lia.
  - apply rd_lookup. split; [lia |]. apply bounds_lookup. exists (Z.to_nat (i / 2)), r, (Z.testbit i 0). split; [| done]. rewrite Z.bit0_odd.
    pose proof (Z.div_mod i 2 ltac:(lia)) as Hd. rewrite Zmod_odd in Hd. destruct (Z.odd i); cbn [Nat.b2n]; Z.div_mod_to_equations; lia.
Qed.

Lemma fill_boundaries_spec rs : Forall range_ok rs -> forall m i idxs, 0 <= i -> i + Z.of_nat m <= 2 * Z.of_nat (length rs) -> 2 * Z.of_nat (length rs) <= Z.of_nat (length idxs) ->
  exists idxs', fill_boundaries rs idxs (seqZ i (Z.of_nat m)) = Ok idxs' /\ length idxs' = length idxs /\
    forall j, rd idxs' j = if (i <=? j) && (j <? i + Z.of_nat m) then rd (bounds rs) j else rd idxs j.
Proof.
  intros Hok. induction m as [| m IH]; intros i idxs Hi Hm Hl.
  - exists idxs. split; [done |]. split; [done |]. intros j. destruct (Z.leb_spec i j), (Z.ltb_spec j (i + Z.of_nat 0)); try done. lia.
  - rewrite seqZ_cons by lia. cbn [fill_boundaries]. destruct (boundary_spec rs i Hok ltac:(lia)) as (r & _ & _ & _ & Eb & Ebs). rewrite Eb. cbn [obind].
    destruct (rd_wr idxs i (bound r (Z.testbit i 0))) as (l & -> & Ll & Vl & Fl); [lia |]. cbn [obind]. replace (Z.pred (Z.of_nat (S m))) with (Z.of_nat m) by lia.
    destruct (IH (Z.succ i) l) as (idxs' & -> & L & V); [lia | lia | lia |]. exists idxs'. split; [done |]. split; [lia |]. intros j. rewrite V.
    destruct (Z.eq_dec j i) as [-> | Hne].
    + destruct (Z.leb_spec (Z.succ i) i); [lia |]. cbn [andb]. rewrite Vl, Ebs. destruct (Z.leb_spec i i), (Z.ltb_spec i (i + Z.of_nat (S m))); try lia. done.
    + rewrite Fl by done. destruct (Z.leb_spec (Z.succ i) j), (Z.leb_spec i j), (Z.ltb_spec j (Z.succ i + Z.of_nat m)), (Z.ltb_spec j (i + Z.of_nat (S m))); try done; lia.
Qed.

(** ** The data of the boundaries *)

Section Lookup.
Context (rs : list eyt_range_t) (src tree : list Z) (mn mx : Z).
Let n := 2 * Z.of_nat (length rs).
Context (Hok : Forall range_ok rs) (Hsep : separated rs) (Hn : 0 < n < 2 ^ 60).
Context (Hsrc : src ≡ₚ bounds rs) (Hsort : sorted src) (Htree : holds_values tree (nodes 64 n 1) src).
Context (Hmn : forall v, v ∈ src -> mn <= v) (Hmn_in : mn ∈ src) (Hmx : forall v, v ∈ src -> v + 1 <= mx).

Lemma n_even : n mod 2 = 0.
Proof. unfold n. rewrite Z.mul_comm. apply Z_mod_mult. Qed.

(** The positions of the tree hold different values. *)
Lemma tree_inj p q v : 0 <= p < n -> 0 <= q < n -> rd tree p = Ok v -> rd tree q = Ok v -> p = q.
Proof using Hok Hsep Hn Hsrc Htree.
  intros Hp Hq Ep Eq. assert (Hpos : forall p, 0 <= p < n -> exists j w, nodes 64 n 1 !! j = Some (p + 1) /\ src !! j = Some w /\ rd tree p = Ok w).
  { intros p' Hp'. assert (Hin : p' + 1 ∈ nodes 64 n 1).
    { apply elem_of_nodes; [lia | change (Z.of_nat 64) with 64; lia |]. split; [| lia]. exists (Z.log2 (p' + 1)). split; [apply Z.log2_nonneg |]. destruct (Z.log2_spec (p' + 1) ltac:(lia)) as [H1 H2].
      rewrite Z.pow_succ_r in H2 by apply Z.log2_nonneg. symmetry. apply (Z.div_unique _ _ _ (p' + 1 - 2 ^ Z.log2 (p' + 1))); lia. }
    apply list_elem_of_lookup in Hin as [j Hj]. destruct (Forall2_lookup_l _ _ _ _ _ Htree Hj) as (w & Hw & Er). exists j, w. replace (p' + 1 - 1) with p' in Er by lia. done. }
  destruct (Hpos p Hp) as (j & w & Hj & Hw & Er), (Hpos q Hq) as (j' & w' & Hj' & Hw' & Er'). rewrite Ep in Er. rewrite Eq in Er'. injection Er as <-. injection Er' as <-.
  assert (NoDup src) as Hnd by (rewrite Hsrc; by apply bounds_NoDup). pose proof (NoDup_lookup _ _ _ _ Hnd Hw Hw') as <-. rewrite Hj in Hj'. injection Hj' as ?. lia.
Qed.

(** A boundary is found from the address after it. *)
Lemma find_boundary b : b ∈ bounds rs -> exists p, _eyt_obj_idx (b + 1) tree n mn mx = Ok p /\ 0 <= p < n /\ rd tree p = Ok b.
Proof using Hn Hsrc Hsort Htree Hmn Hmx.
  intros Hb. rewrite <- Hsrc in Hb. destruct (obj_idx_spec n tree src (b + 1) mn mx) as (p & v & E & Hp & Er & Hv & Hlt & Hpred);
    [done | apply n_even | done | done | exists b; split; [done | lia] | split; [specialize (Hmn b Hb); lia | by apply Hmx] |].
  exists p. split; [done |]. split; [done |]. destruct (Hpred b Hb) as [Hle |]; [| lia]. by replace b with v by lia.
Qed.

(** What is stored for a boundary. *)
Definition data_at (i : Z) : outcome Z := let! r := rd rs (i / 2) in Ok (if Z.testbit i 0 then EYT_NOTFOUND else er_data r).

Lemma fill_data_spec : forall m i idxs, 0 <= i -> i + Z.of_nat m <= n -> n <= Z.of_nat (length idxs) ->
  exists idxs', fill_data rs tree idxs n mn mx (seqZ i (Z.of_nat m)) = Ok idxs' /\ length idxs' = length idxs /\ (forall p, n <= p -> rd idxs' p = rd idxs p) /\
    (forall p, (forall j, i <= j < i + Z.of_nat m -> rd tree p <> rd (bounds rs) j) -> rd idxs' p = rd idxs p) /\
    forall j p, i <= j < i + Z.of_nat m -> 0 <= p < n -> rd tree p = rd (bounds rs) j -> rd idxs' p = data_at j.
Proof using Hok Hsep Hn Hsrc Hsort Htree Hmn Hmx.
  induction m as [| m IH]; intros i idxs Hi Hm Hl; [exists idxs; split; [done |]; split; [done |]; split; [done |]; split; [done | lia] |].
  rewrite seqZ_cons by lia. cbn [fill_data]. destruct (boundary_spec rs i Hok ltac:(lia)) as (r & Er & Hr & Hb & _ & Ebs). rewrite Er. cbn [obind]. set (b := bound r (Z.testbit i 0)) in *.
  assert (Hval : u64 ((if Z.testbit i 0 then er_end r else er_start r) + Z.land i 1) = b /\ u64 (b + 1) = b + 1).
  { destruct Hr as [H1 H2 _]. rewrite Hb. unfold b, bound. destruct (Z.testbit i 0); rewrite !u64_small by lia; lia. }
  destruct Hval as [Ev Ev1]. rewrite Ev, Ev1. destruct (find_boundary b) as (p0 & -> & Hp0 & Et); [apply rd_lookup in Ebs as [_ Ebs]; by eapply list_elem_of_lookup_2 |]. cbn [obind].
  destruct (Z.ltb_spec p0 n); [| lia]. cbn [negb]. rewrite Et. cbn [obind]. rewrite Z.eqb_refl. cbn [negb].
  destruct (rd_wr idxs p0 (if Z.testbit i 0 then EYT_NOTFOUND else er_data r)) as (l & -> & Ll & Vl & Fl); [lia |]. cbn [obind]. replace (Z.pred (Z.of_nat (S m))) with (Z.of_nat m) by lia.
  destruct (IH (Z.succ i) l) as (idxs' & -> & L & O & F & V); [lia | lia | lia |]. exists idxs'. split; [done |]. split; [lia |]. split; [intros p Hp; rewrite O by done; apply Fl; lia |]. split.
  - intros p Hp. rewrite F by (intros j Hj; apply Hp; lia). apply Fl. intros ->. apply (Hp i); [lia | by rewrite Et, Ebs].
  - intros j p Hj Hp Ej. destruct (Z.eq_dec j i) as [-> | Hne]; [| apply V; (done || lia)]. rewrite Ebs in Ej. pose proof (tree_inj p p0 b Hp Hp0 Ej Et) as ->.
    rewrite F; [rewrite Vl; unfold data_at; by rewrite Er |]. intros j Hj' E. rewrite Et in E. symmetry in E. apply rd_lookup in E as [_ E]. apply rd_lookup in Ebs as [_ Ebs].
    pose proof (NoDup_lookup _ _ _ _ (bounds_NoDup rs Hok Hsep) E Ebs). lia.
Qed.

(** The range around an address, as the search sees it. *)
Definition covers (r : eyt_range_t) (addr : Z) : Prop := er_start r < addr <= er_end r + 1.

Lemma lookup_spec idxs addr : rd tree n = Ok 1 -> rd idxs n = Ok EYT_NOTFOUND -> (forall j p, 0 <= j < n -> 0 <= p < n -> rd tree p = rd (bounds rs) j -> rd idxs p = data_at j) ->
  exists p x, _eyt_obj_idx addr tree n mn mx = Ok p /\ rd tree p = Ok x /\
    ((exists r, r ∈ rs /\ covers r addr /\ rd idxs p = Ok (er_data r) /\ Z.land x 1 = 0) \/
     (forall r, r ∈ rs -> ~ covers r addr) /\ rd idxs p = Ok EYT_NOTFOUND /\ Z.land x 1 = 1).
Proof using Hok Hsep Hn Hsrc Hsort Htree Hmn Hmn_in Hmx.
  intros Hsent Hsenti Hdata. assert (Hbin : forall r e, r ∈ rs -> bound r e ∈ src).
  { intros r e [q Hq]%list_elem_of_lookup. rewrite Hsrc. apply elem_of_bounds. by exists q, r, e. }
  destruct (decide (mn < addr <= mx)) as [Hin | Hout].
  2:{ exists n, 1. split; [apply obj_idx_outside; [apply n_even | lia] |]. split; [done |]. right. split; [| done]. intros r Hr [H1 H2].
      pose proof (Hmn _ (Hbin r false Hr)) as Hs. pose proof (Hmx _ (Hbin r true Hr)) as He. cbn [bound] in *. lia. }
  destruct (obj_idx_spec n tree src addr mn mx) as (p & v & E & Hp & Er & Hv & Hlt & Hpred); [done | apply n_even | done | done | exists mn; split; [done | lia] | done |].
  exists p, v. split; [done |]. split; [done |]. pose proof Hv as Hv'. rewrite Hsrc in Hv'. apply list_elem_of_lookup in Hv' as [k Hk]. pose proof Hk as (q & r & e & -> & Hq & ->)%bounds_lookup.
  assert (Hr : r ∈ rs) by (by eapply list_elem_of_lookup_2). assert (Hql : (q < length rs)%nat) by (by eapply lookup_lt_Some). rewrite Forall_forall in Hok. pose proof (Hok r Hr) as Hrok.
  set (j := Z.of_nat (2 * q + Nat.b2n e)). assert (Hjn : 0 <= j < n) by (unfold j, n; destruct e; cbn [Nat.b2n]; lia).
  assert (Hidx : rd idxs p = Ok (if e then EYT_NOTFOUND else er_data r)).
  { rewrite (Hdata j p Hjn Hp); [| rewrite Er; symmetry; apply rd_lookup; split; [lia |]; unfold j; by rewrite Nat2Z.id]. unfold data_at. assert (Hj2 : j / 2 = Z.of_nat q /\ Z.testbit j 0 = e).
    { assert (Hje : j = Z.b2z e + 2 * Z.of_nat q) by (unfold j; destruct e; cbn [Nat.b2n Z.b2z]; lia). split; [| rewrite Z.bit0_odd, Hje, Z.odd_add_mul_2; by destruct e].
      symmetry. apply (Z.div_unique _ _ _ (Z.b2z e)); [left; destruct e; cbn [Z.b2z] |]; lia. }
    destruct Hj2 as [-> ->]. rewrite (proj2 (rd_lookup rs (Z.of_nat q) r)); [done |]. split; [lia |]. by rewrite Nat2Z.id. }
  destruct Hrok as [Hse _ [Ha1 Ha2]]. destruct e; cbn [bound] in *.
  - right. split; [| split; [done |]; change 1 with (Z.ones 1) at 2; rewrite Z.land_ones by lia; change (2 ^ 1) with 2; Z.div_mod_to_equations; lia].
    intros s Hs [Hc1 Hc2]. apply list_elem_of_lookup in Hs as [qs Hs]. destruct (decide (q = qs)) as [<- | Hne]; [rewrite Hq in Hs; injection Hs as <-; lia |].
    destruct (Hpred _ (Hbin s false ltac:(by eapply list_elem_of_lookup_2))) as [Hle | Hle]; cbn [bound] in Hle; [| lia].
    destruct (Hsep q qs r s Hq Hs Hne) as [Hx | Hx]; [| lia]. assert (er_start s mod 4 = 0) by (apply Hok; by eapply list_elem_of_lookup_2). Z.div_mod_to_equations; lia.
  - left. exists r. split; [done |]. split; [| split; [done |]; change 1 with (Z.ones 1); rewrite Z.land_ones by lia; change (2 ^ 1) with 2; Z.div_mod_to_equations; lia].
    split; [done |]. destruct (Hpred _ (Hbin r true Hr)) as [Hle | Hle]; cbn [bound] in Hle; lia.
Qed.
End Lookup.

(** ** Trees of ranges *)

Section Trees.
Context (malloc : Z -> option (list Z)) (Hmem : memory_for malloc (2 ^ 34)).

(** What looking up an address gives for a list of ranges. *)
Definition answers (t : eyt_tree_t) (rs : list eyt_range_t) : Prop := forall addr,
  (exists r, r ∈ rs /\ covers r addr /\ eyt_tree_find_data t addr = Ok (er_data r) /\ eyt_tree_is_in_range t addr = Ok true) \/
  (forall r, r ∈ rs -> ~ covers r addr) /\ eyt_tree_find_data t addr = Ok EYT_NOTFOUND /\ eyt_tree_is_in_range t addr = Ok false.

Record array_for (a : arraylist_t) (rs : list eyt_range_t) : Prop := {
  af_ok : al_ok a;
  af_len : al_len a = 2 * Z.of_nat (length rs) + 1;
  af_max : al_max a <= 2 ^ 33
}.

Record tree_for (t : eyt_tree_t) (rs : list eyt_range_t) : Prop := {
  tf_ranges : et_ranges t = rs;
  tf_tree : array_for (et_tree t) rs;
  tf_idxs : array_for (et_idxs t) rs;
  tf_answers : answers t rs
}.

Lemma memory_for_le n m : 0 <= m <= n -> memory_for malloc n -> memory_for malloc m.
Proof. intros Hm H k Hk. apply H. lia. Qed.

Lemma array_grow a rs r : array_for a rs -> Z.of_nat (length rs) < 2 ^ 30 ->
  exists a', arraylist_grow malloc a (u64 (2 * Z.of_nat (length (rs ++ [r])) + 1 - al_len a)) = Ok a' /\ array_for a' (rs ++ [r]) /\ 2 * Z.of_nat (length (rs ++ [r])) + 1 <= Z.of_nat (length (items a')).
Proof using Hmem.
  intros [Hok Hl Hm] Hb. pose proof (ok_len _ Hok). rewrite length_app. cbn [length]. rewrite u64_small by lia. destruct (al_grow_spec malloc a (2 * Z.of_nat (length rs + 1) + 1 - al_len a) Hok) as (a' & E & Hok' & Hl' & _ & Hm');
    [lia | lia | apply (memory_for_le (2 ^ 34)); [lia | done] |].
  exists a'. split; [done |]. pose proof (ok_len _ Hok'). pose proof (ok_max _ Hok') as [? _]. split; [split; [done | rewrite length_app; cbn [length]; lia | lia] | lia].
Qed.

Lemma ptr_le_iff left right : ptr_le left right <-> left <= right.
Proof. unfold ptr_le, ptr_cmp. destruct (Z.ltb_spec right left), (Z.ltb_spec left right); lia. Qed.
#[local] Instance ptr_le_total : Total ptr_le.
Proof. intros x y. rewrite !ptr_le_iff. lia. Qed.
#[local] Instance ptr_le_trans : Transitive ptr_le.
Proof. intros x y z. rewrite !ptr_le_iff. lia. Qed.

Lemma sorted_merge_sort l : sorted (merge_sort ptr_le l).
Proof.
  intros i j v w Hij Hi Hj. pose proof (StronglySorted_merge_sort ptr_le l) as Hs. revert i j Hij Hi Hj. induction Hs as [| x xs Hs IH Hx]; intros i j Hij Hi Hj; [done |].
  destruct i as [| i], j as [| j]; cbn in Hi, Hj; try lia; [| by apply (IH i j); [lia | |]]. injection Hi as ->. rewrite Forall_forall in Hx. apply ptr_le_iff, Hx. by eapply list_elem_of_lookup_2.
Qed.

(** The arrays after rebuilding. *)
Lemma rebuild_arrays rs tree0 idxs0 : Forall range_ok rs -> separated rs -> 0 < Z.of_nat (length rs) < 2 ^ 30 ->
  2 * Z.of_nat (length rs) + 1 <= Z.of_nat (length tree0) -> 2 * Z.of_nat (length rs) + 1 <= Z.of_nat (length idxs0) ->
  let n := 2 * Z.of_nat (length rs) in
  exists mn mx tree idxs, (let! idxs := wr idxs0 n EYT_NOTFOUND in
      let! tree := wr tree0 n 1 in
      let! idxs := fill_boundaries rs idxs (seqZ 0 n) in
      let! idxs := qsort idxs n in
      let! min_addr := rd idxs 0 in
      let! last := rd idxs (n - 1) in
      let max_addr := u64 (last + 1) in
      let! (_, tree) := eytzinger 64 idxs tree 0 1 n in
      let! idxs := fill_data rs tree idxs n min_addr max_addr (seqZ 0 n) in
      Ok (min_addr, max_addr, tree, idxs)) = Ok (mn, mx, tree, idxs) /\ length tree = length tree0 /\ length idxs = length idxs0 /\
    forall addr, exists p x, _eyt_obj_idx addr tree n mn mx = Ok p /\ rd tree p = Ok x /\
      ((exists r, r ∈ rs /\ covers r addr /\ rd idxs p = Ok (er_data r) /\ Z.land x 1 = 0) \/ (forall r, r ∈ rs -> ~ covers r addr) /\ rd idxs p = Ok EYT_NOTFOUND /\ Z.land x 1 = 1).
Proof.
  intros Hok Hsep Hlen Ht Hi n. assert (Hn : 0 < n < 2 ^ 60) by (unfold n; lia).
  destruct (rd_wr idxs0 n EYT_NOTFOUND) as (i1 & -> & L1 & V1 & _); [lia |]. destruct (rd_wr tree0 n 1) as (t1 & -> & LT & VT & _); [lia |]. cbn [obind].
  destruct (fill_boundaries_spec rs Hok (Z.to_nat n) 0 i1) as (i2 & E2 & L2 & V2); [lia | lia | lia |]. rewrite Z2Nat.id in E2, V2 by lia. rewrite E2. cbn [obind].
  assert (Etake : take (Z.to_nat n) i2 = bounds rs).
  { apply list_eq_same_length with (n := Z.to_nat n); [rewrite length_bounds; unfold n; lia | rewrite length_take; lia |]. intros k x y Hk Hx Hy. rewrite lookup_take_lt in Hx by lia.
    pose proof (V2 (Z.of_nat k)) as E. destruct (Z.leb_spec 0 (Z.of_nat k)), (Z.ltb_spec (Z.of_nat k) (0 + n)); try lia. cbn [andb] in E.
    rewrite (proj2 (rd_lookup i2 (Z.of_nat k) x)), (proj2 (rd_lookup (bounds rs) (Z.of_nat k) y)) in E by (split; [lia | by rewrite Nat2Z.id]). by injection E. }
  set (src := merge_sort ptr_le (bounds rs)). assert (Hsrc : src ≡ₚ bounds rs) by apply merge_sort_Permutation. assert (Hsl : length src = Z.to_nat n) by (rewrite Hsrc, length_bounds; unfold n; lia).
  unfold qsort. destruct (Z.leb_spec n (Z.of_nat (length i2))); [| lia]. rewrite Etake. fold src. cbn [obind]. set (i3 := src ++ drop (Z.to_nat n) i2).
  assert (L3 : length i3 = length i2) by (unfold i3; rewrite length_app, length_drop; lia). pose proof (sorted_merge_sort (bounds rs)) as Hsort. fold src in Hsort.
  assert (R3 : forall j, j < n -> rd i3 j = rd src j) by (intros j Hj; apply rd_app_l; lia).
  destruct (rd_in_range src 0) as (mn & Emn & Lmn); [lia |]. destruct (rd_in_range src (n - 1)) as (ls & Els & Lls); [lia |]. rewrite !R3, Emn, Els by lia. cbn [obind].
  assert (Hbnd : forall v, v ∈ src -> 0 <= v < 2 ^ 64 - 2).
  { intros v Hv. rewrite Hsrc in Hv. apply elem_of_bounds in Hv as (q & r & e & Hq & ->). rewrite Forall_lookup in Hok. destruct (Hok q r Hq) as [? ? _]. destruct e; cbn [bound]; lia. }
  rewrite (u64_small (ls + 1)) by (pose proof (Hbnd ls ltac:(by eapply list_elem_of_lookup_2)); lia).
  destruct (eytzinger_spec n i3 64 ltac:(lia) t1 0 1) as (tree & Et & Lt & Vt & Ft); [lia | change (Z.of_nat 64) with 64; lia | lia | rewrite nodes_length by lia; lia | lia | lia |]. rewrite Et. cbn [obind].
  assert (Htree : holds_values tree (nodes 64 n 1) src).
  { apply Forall2_same_length_lookup. split; [rewrite nodes_length by lia; lia |]. intros j m v Hm Hv. rewrite (Vt j m Hm), R3 by (apply lookup_lt_Some in Hv; lia). apply rd_lookup. split; [lia |]. by rewrite Z.add_0_l, Nat2Z.id. }
  assert (Hmn : forall v, v ∈ src -> mn <= v) by (intros v [j Hj]%list_elem_of_lookup; change (Z.to_nat 0) with 0%nat in Lmn; destruct j; [rewrite Lmn in Hj; injection Hj; lia | by apply (Hsort 0%nat (S j) mn v); [lia | |]]).
  assert (Hmx : forall v, v ∈ src -> v + 1 <= ls + 1).
  { intros v [j Hj]%list_elem_of_lookup. pose proof (lookup_lt_Some _ _ _ Hj). destruct (decide (j = Z.to_nat (n - 1))) as [-> |]; [rewrite Lls in Hj; injection Hj; lia |].
    assert (v <= ls) by (apply (Hsort j (Z.to_nat (n - 1)) v ls); [lia | done | done]). lia. }
  destruct (fill_data_spec rs src tree mn (ls + 1) Hok Hsep Hn Hsrc Hsort Htree Hmn Hmx (Z.to_nat n) 0 i3) as (idxs & E4 & L4 & O4 & _ & V4); [lia | lia | lia |]. rewrite Z2Nat.id in E4, V4 by lia. fold n in E4, O4, V4. rewrite E4. cbn [obind].
  exists mn, (ls + 1), tree, idxs. split; [done |]. split; [lia |]. split; [lia |]. intros addr.
  apply (lookup_spec rs src tree mn (ls + 1) Hok Hsep Hn Hsrc Hsort Htree Hmn ltac:(by eapply list_elem_of_lookup_2) Hmx idxs addr).
  - fold n. replace n with (n + 1 - 1) at 1 by lia. rewrite Ft by lia. by replace (n + 1 - 1) with n by lia.
  - fold n. rewrite O4 by lia. unfold i3. rewrite rd_app_r by lia. rewrite Hsl, Z2Nat.id by lia. rewrite Z.sub_diag. pose proof (V2 n) as E. destruct (Z.ltb_spec n (0 + n)); [lia |]. rewrite andb_false_r, V1 in E.
    apply rd_lookup in E as [_ E]. apply rd_lookup. split; [lia |]. rewrite lookup_drop. by rewrite Nat.add_0_r.
  - exact V4.
Qed.

(** Adding a range. *)
Lemma add_range_spec t rs r : tree_for t rs -> Forall range_ok (rs ++ [r]) -> separated (rs ++ [r]) -> Z.of_nat (length rs) < 2 ^ 30 - 1 ->
  exists t', eyt_tree_add_range malloc t (er_start r) (er_end r) (er_data r) = Ok t' /\ tree_for t' (rs ++ [r]).
Proof using Hmem.
  intros [Hr Htr Hix _] Hok Hsep Hb. unfold eyt_tree_add_range.
  assert (Hrok : range_ok r) by (rewrite Forall_forall in Hok; apply Hok, elem_of_app; right; by apply list_elem_of_singleton). destruct Hrok as [H1 _ [-> ->]].
  destruct (Z.ltb_spec (er_start r) (er_end r)); [| lia]. cbn [Z.eqb negb orb]. unfold rebuild_tree. cbn [et_ranges et_tree et_idxs]. rewrite Hr. set (rs' := rs ++ [r]) in *.
  replace (EytRange (er_start r) (er_end r) (er_data r)) with r by (by destruct r). fold rs'.
  assert (Hl' : Z.of_nat (length rs') = Z.of_nat (length rs) + 1) by (unfold rs'; rewrite length_app; cbn; lia). rewrite (u64_small (2 * Z.of_nat (length rs'))), (u64_small (2 * Z.of_nat (length rs') + 1)) by lia.
  destruct (array_grow (et_tree t) rs r Htr ltac:(lia)) as (tr & E1 & A1 & I1). destruct (array_grow (et_idxs t) rs r Hix ltac:(lia)) as (ix & E2 & A2 & I2). fold rs' in E1, E2, A1, A2, I1, I2.
  rewrite E1, E2. cbn [obind]. destruct (rebuild_arrays rs' (items tr) (items ix) Hok Hsep) as (mn & mx & tree & idxs & E & Lt & Li & Hans); [lia | lia | lia |].
  apply obind_Ok_inv in E as (i1 & -> & (t1 & -> & (i2 & F2 & (i3 & F3 & (m1 & F4 & (l1 & F5 & ([x t2] & F6 & (i4 & F7 & E)%obind_Ok_inv)%obind_Ok_inv)%obind_Ok_inv)%obind_Ok_inv)%obind_Ok_inv)%obind_Ok_inv)%obind_Ok_inv).
  injection E as <- <- <- <-. cbn [obind]. rewrite F2. cbn [obind]. rewrite F3. cbn [obind]. rewrite F4. cbn [obind]. rewrite F5. cbn [obind]. rewrite F6. cbn [obind]. rewrite F7. cbn [obind].
  eexists. split; [done |]. split; cbn [et_ranges et_tree et_idxs]; [done | | |].
  - destruct A1 as [[K1 [K2 K3]] B1 C1]. split; [split |..]; rewrite ?(proj1 (len_set_items tr t2)), ?(proj2 (len_set_items tr t2)), ?items_set_items; lia.
  - destruct A2 as [[K1 [K2 K3]] B1 C1]. split; [split |..]; rewrite ?(proj1 (len_set_items ix i4)), ?(proj2 (len_set_items ix i4)), ?items_set_items; lia.
  - intros addr. unfold eyt_tree_find_data, eyt_tree_is_in_range. cbn [et_tree et_idxs et_n et_min_addr et_max_addr]. rewrite !items_set_items.
    destruct (Hans addr) as (p & y & -> & Ey & Hc). cbn [obind]. rewrite Ey. cbn [obind]. destruct Hc as [(s & Hs & Hcov & -> & ->) | (Hno & -> & ->)]; [left; by exists s | right; done].
Qed.
End Trees.

Fixpoint add_ranges (malloc : Z -> option (list Z)) (t : eyt_tree_t) (rs : list eyt_range_t) : outcome eyt_tree_t :=
  match rs with
  | [] => Ok t
  | r :: rs => let! t := eyt_tree_add_range malloc t (er_start r) (er_end r) (er_data r) in add_ranges malloc t rs
  end.

Lemma init_tree malloc : exists t, eyt_tree_init malloc = Ok t /\ tree_for t [].
Proof.
  eexists. split; [reflexivity |]. split; [done | | |]; cbn [et_tree et_idxs]; try (split; [split; vm_compute; split; congruence | reflexivity | vm_compute; congruence]).
  intros addr. right. split; [intros r Hr; by apply elem_of_nil in Hr | done].
Qed.

Lemma separated_prefix rs rs' : separated (rs ++ rs') -> separated rs.
Proof. intros Hs i j r s Hi Hj. apply Hs; by apply lookup_app_l_Some. Qed.

Lemma add_ranges_spec malloc todo : memory_for malloc (2 ^ 34) -> forall t rs, tree_for t rs -> Forall range_ok (rs ++ todo) -> separated (rs ++ todo) -> Z.of_nat (length (rs ++ todo)) < 2 ^ 30 ->
  exists t', add_ranges malloc t todo = Ok t' /\ tree_for t' (rs ++ todo).
Proof.
  intros Hm. induction todo as [| r todo IH]; intros t rs Ht Hok Hsep Hlen; [exists t; by rewrite app_nil_r |]. cbn [add_ranges].
  replace (rs ++ r :: todo) with ((rs ++ [r]) ++ todo) in * by (by rewrite <- app_assoc). rewrite length_app in Hlen.
  destruct (add_range_spec malloc Hm t rs r Ht) as (t' & -> & Ht'); [by apply Forall_app in Hok as [? _] | by eapply separated_prefix | rewrite length_app in Hlen; cbn [length] in Hlen; lia |]. cbn [obind].
  apply (IH t' (rs ++ [r]) Ht' Hok Hsep). by rewrite length_app.
Qed.

(** ** The theorems *)

(** C16: Address lookup. If there are less than 2^30 ranges with 4-byte aligned bounds and gaps between
    them, adding them one after the other to an empty tree succeeds. Looking up an address [addr] in the
    tree then gives the data of the range with [start < addr <= end + 1] and "in range", if there is such
    a range, and [EYT_NOTFOUND] and "not in range" otherwise. These are not the addresses of the range as
    the header documents it, [start, end): the start itself is not found, and the address [end] and the
    one after it are. *)
Theorem eyt_lookup_correct (malloc : Z -> option (list Z)) (rs : list eyt_range_t) :
  memory_for malloc (2 ^ 34) -> Forall range_ok rs -> separated rs -> Z.of_nat (length rs) < 2 ^ 30 ->
  exists t, (let! t := eyt_tree_init malloc in add_ranges malloc t rs) = Ok t /\ answers t rs.
Proof.
  intros Hm Hok Hsep Hlen. destruct (init_tree malloc) as (t0 & -> & Ht0). cbn [obind]. destruct (add_ranges_spec malloc rs Hm t0 [] Ht0 Hok Hsep Hlen) as (t & E & Ht).
  exists t. split; [done | apply Ht].
Qed.

Definition demo_malloc (bytes : Z) : option (list Z) := Some (replicate (Z.to_nat (bytes / 8)) 7).
Definition demo_ranges : list eyt_range_t := [EytRange 1000 2000 16; EytRange 4000 5000 32; EytRange 2004 3000 48].

Lemma demo_memory_for n : memory_for demo_malloc n.
Proof.
  intros k Hk. eexists. split; [done |]. rewrite length_replicate. replace (8 * k / 8) with k by (apply (Z.div_unique _ _ _ 0); lia). lia.
Qed.

Lemma eyt_lookup_correct_witness : exists t, (let! t := eyt_tree_init demo_malloc in add_ranges demo_malloc t demo_ranges) = Ok t /\ answers t demo_ranges.
Proof.
  apply (eyt_lookup_correct demo_malloc demo_ranges (demo_memory_for _)).
  - repeat constructor; cbn; lia.
  - intros i j r s Hi Hj Hne. do 3 (destruct i as [| i]; [do 3 (destruct j as [| j]; [cbn in Hi, Hj; injection Hi as <-; injection Hj as <-; cbn; lia |]); done |]). done.
  - cbn. lia.
Defined.

(** C39: Two ranges that touch, added to an empty tree: of [1000, 2000) with data 16 and [2000, 3000)
    with data 48, the end of the first is stored as 2001, after the start of the second. The address 1000
    is not found; 1001 to 2000 have the data 16, so 2000 has the data of the wrong range; 2001 has the
    data 48; and 2002 to 2999, inside the second range, are reported to be in no range. *)
Theorem eyt_touching_ranges :
  exists t, (let! t := eyt_tree_init demo_malloc in add_ranges demo_malloc t [EytRange 1000 2000 16; EytRange 2000 3000 48]) = Ok t /\
    eyt_tree_is_in_range t 1000 = Ok false /\ map (eyt_tree_find_data t) (seqZ 1001 1000) = replicate 1000 (Ok 16) /\
    eyt_tree_find_data t 2001 = Ok 48 /\ map (eyt_tree_is_in_range t) (seqZ 2002 998) = replicate 998 (Ok false) /\
    map (eyt_tree_find_data t) (seqZ 2002 998) = replicate 998 (Ok EYT_NOTFOUND).
Proof. eexists. split; [vm_compute; reflexivity |]. repeat split; vm_compute; reflexivity. Qed.
