(* ===== verification/HTable.v ===== *)
(** * Pointer hash tables (support/htable.inc, htable.c, ptrhash.c)

    The instance [ptrhash] of the hash tables: keys are words compared with
    [==], copying and freeing keys does nothing.  The table is an array of
    words, slot [i] with its key at [2 * i] and its value at [2 * i + 1]; both
    are [HT_NOTFOUND] in an unused slot, and a deleted entry keeps its key.
    [malloc n] says if [n] bytes can be allocated; their contents do not
    matter because the code overwrites them. *)

From stdpp Require Import base numbers option list.
From Stdlib Require Import ZArith Lia.
From S2P Require Import Prelude Identity SmallIntSet.

Definition HT_NOTFOUND : Z := 1.

(** [ht_inline] says that [table] points to [_space]. *)
Record htable_t := Htable { ht_size : Z; ht_table : list Z; ht_inline : bool; ht_count : Z; ht_live : Z }.

Definition ht_hash_size (h : htable_t) : Z := ht_size h / 2.
Definition ht_max_probe (size : Z) : Z := if size <=? HT_N_INLINE * 2 then HT_N_INLINE / 2 else Z.shiftr size 3.
Definition ptrhash_hash (key : Z) : Z := Z.lxor (Z.shiftr key 4) (Z.shiftr key 9).

(** How a probe ends: at an entry for the key, or with the slot to use. *)
Inductive ht_probe := HtFound (index : Z) | HtMissing (empty_slot : option Z).

(** The inner loop; [n] is [maxprobe - iter]. *)
Fixpoint lookup_probe (n : nat) (tab : list Z) (key sz index orig iter : Z) (empty_slot : option Z) : outcome ht_probe :=
  let! k := rd tab index in
  if k =? HT_NOTFOUND then Ok (HtMissing (Some (default index empty_slot)))
  else
    let! v := rd tab (index + 1) in
    let empty_slot := if v =? HT_NOTFOUND then Some (default index empty_slot) else empty_slot in
    if key =? k then Ok (HtFound index)
    else
      let iter := iter + 1 in
      let index := Z.land (index + iter * 2) (sz - 1) in
      match n with
      | O => Ok (HtMissing empty_slot)
      | S n' => if index =? orig then Ok (HtMissing empty_slot) else lookup_probe n' tab key sz index orig iter empty_slot
      end.

(** The new number of words. *)
Definition ht_newsz (grow : bool) (sz : Z) : Z :=
  if negb grow then sz
  else if sz <? HT_N_INLINE then HT_N_INLINE
  else if (Z.shiftl 1 19 <=? sz) || (sz <=? Z.shiftl 1 8) then u64 (Z.shiftl sz 1)
  else u64 (Z.shiftl sz 2).

(** [*bp = val] *)
Definition ht_store (h : htable_t) (bp val : Z) : outcome htable_t :=
  let! tab := wr (ht_table h) bp val in
  Ok (Htable (ht_size h) tab (ht_inline h) (ht_count h) (ht_live h)).

(** Entering the old pairs: [n] are left from index [i] on; [lookup] is the
    recursive call. *)
Fixpoint ht_reinsert (lookup : htable_t -> Z -> outcome (option Z * htable_t)) (n : nat) (ol : list Z) (i : Z) (h : htable_t)
    : outcome htable_t :=
  match n with
  | O => Ok h
  | S n' =>
      let! v := rd ol (i + 1) in
      if negb (v =? HT_NOTFOUND) then
        let! k := rd ol i in
        let! (bp, h) := lookup h k in
        match bp with
        | None => UB
        | Some bp => let! h := ht_store h bp v in ht_reinsert lookup n' ol (i + 2) h
        end
      else ht_reinsert lookup n' ol (i + 2) h
  end.

Section Tables.
Context (malloc : Z -> bool).

Definition htable_fill (size : Z) (inline : bool) : htable_t := Htable size (replicate (Z.to_nat size) HT_NOTFOUND) inline 0 0.

Definition htable_new (size : Z) : option htable_t :=
  if size <=? HT_N_INLINE / 2 then Some (htable_fill HT_N_INLINE true)
  else
    let size := u64 (u64 (next_power_of_two size * 2) * 2) in
    if malloc (u64 (size * 8)) then Some (htable_fill size false) else None.

(** The inline table needs no allocation. *)
Definition htable_reset (h : htable_t) (sz : Z) : option htable_t :=
  let sz := next_power_of_two sz in
  if (u64 (sz * 4) <? ht_size h) && (HT_N_INLINE <? ht_size h) then
    match htable_new sz with Some h => Some h | None => htable_new 0 end
  else Some (htable_fill (ht_size h) (ht_inline h)).

(** The index of the value of [key], which is entered if it is not there, or
    [None] for NULL. *)
Fixpoint lookup_bp_impl (fuel : nat) (h : htable_t) (key : Z) : outcome (option Z * htable_t) :=
  match fuel with
  | O => Timeout
  | S fuel' =>
      let sz := ht_hash_size h in
      let maxprobe := ht_max_probe sz in
      let tab := ht_table h in
      let hv := ptrhash_hash key in
      let index := Z.land hv (sz - 1) * 2 in
      let! r := lookup_probe (Z.to_nat maxprobe) tab key (sz * 2) index index 0 None in
      match r with
      | HtFound index =>
          let! v := rd tab (index + 1) in
          let live := if v =? HT_NOTFOUND then u64 (ht_live h + 1) else ht_live h in
          Ok (Some (index + 1), Htable (ht_size h) tab (ht_inline h) (ht_count h) live)
      | HtMissing empty_slot =>
          let empty_slot :=
            match empty_slot with
            | Some e => if u64 (ht_hash_size h * 3) <=? u64 (ht_live h * 4) then None else Some e
            | None => None
            end in
          let grow := match empty_slot with None => true | Some _ => false end in
          let empty_slot :=
            match empty_slot with
            | Some e => if u64 (8 * u64 (ht_hash_size h - ht_count h)) <=? ht_hash_size h then None else Some e
            | None => None
            end in
          match empty_slot with
          | Some e =>
              let! k := rd tab e in
              let count := if k =? HT_NOTFOUND then u64 (ht_count h + 1) else ht_count h in
              let! tab := wr tab e key in
              Ok (Some (e + 1), Htable (ht_size h) tab (ht_inline h) count (u64 (ht_live h + 1)))
          | None =>
              let sz := ht_size h in
              let newsz := ht_newsz grow sz in
              if malloc (u64 (newsz * 8)) then
                let! h := ht_reinsert (lookup_bp_impl fuel') (Z.to_nat ((sz + 1) / 2)) tab 0 (htable_fill newsz false) in
                lookup_bp_impl fuel' h key
              else Ok (None, h)
          end
      end
  end.

(** Nested calls grow the table; ten levels are always enough. *)
Definition lookup_bp (h : htable_t) (key : Z) : outcome (option Z * htable_t) := lookup_bp_impl 10 h key.

Definition ptrhash_put (h : htable_t) (key val : Z) : outcome htable_t :=
  let! (bp, h) := lookup_bp h key in
  match bp with None => UB | Some bp => ht_store h bp val end.

Definition ptrhash_bp (h : htable_t) (key : Z) : outcome (option Z * htable_t) := lookup_bp h key.

Fixpoint ht_peek_probe (n : nat) (tab : list Z) (key sz index orig iter : Z) : outcome (option Z) :=
  let! k := rd tab index in
  if k =? HT_NOTFOUND then Ok None
  else if key =? k then Ok (Some (index + 1))
  else
    let iter := iter + 1 in
    let index := Z.land (index + iter * 2) (sz - 1) in
    match n with
    | O => Ok None
    | S n' => if index =? orig then Ok None else ht_peek_probe n' tab key sz index orig iter
    end.

Definition peek_bp (h : htable_t) (key : Z) : outcome (option Z) :=
  let sz := ht_hash_size h in
  let maxprobe := ht_max_probe sz in
  let index := Z.land (ptrhash_hash key) (sz - 1) * 2 in
  ht_peek_probe (Z.to_nat maxprobe) (ht_table h) key (sz * 2) index index 0.

Definition ptrhash_get (h : htable_t) (key : Z) : outcome Z :=
  let! bp := peek_bp h key in
  match bp with None => Ok HT_NOTFOUND | Some bp => rd (ht_table h) bp end.

Definition ptrhash_has (h : htable_t) (key : Z) : outcome bool :=
  let! v := ptrhash_get h key in Ok (negb (v =? HT_NOTFOUND)).

Definition ptrhash_remove (h : htable_t) (key : Z) : outcome (bool * htable_t) :=
  let! bp := peek_bp h key in
  match bp with
  | None => Ok (false, h)
  | Some bp =>
      let! v := rd (ht_table h) bp in
      if negb (v =? HT_NOTFOUND) then
        let! h := ht_store h bp HT_NOTFOUND in
        Ok (true, Htable (ht_size h) (ht_table h) (ht_inline h) (ht_count h) (u64 (ht_live h - 1)))
      else Ok (false, h)
  end.

Definition ptrhash_adjoin (h : htable_t) (key val : Z) : outcome htable_t :=
  let! (bp, h) := lookup_bp h key in
  match bp with
  | None => UB
  | Some bp =>
      let! v := rd (ht_table h) bp in
      if v =? HT_NOTFOUND then ht_store h bp val else Ok h
  end.

(** ** Sequences of operations *)

Inductive ht_op := HtPut (key val : Z) | HtGet (key : Z) | HtRemove (key : Z) | HtAdjoin (key val : Z) | HtReset (sz : Z).

(** What [get] and [remove] return. *)
Inductive ht_answer := HtValue (v : Z) | HtRemoved (b : bool).

Fixpoint ht_run (ops : list ht_op) (h : htable_t) : outcome (list ht_answer * htable_t) :=
  match ops with
  | [] => Ok ([], h)
  | HtPut key val :: ops => let! h := ptrhash_put h key val in ht_run ops h
  | HtGet key :: ops => let! v := ptrhash_get h key in let! (rs, h) := ht_run ops h in Ok (HtValue v :: rs, h)
  | HtRemove key :: ops => let! (b, h) := ptrhash_remove h key in let! (rs, h) := ht_run ops h in Ok (HtRemoved b :: rs, h)
  | HtAdjoin key val :: ops => let! h := ptrhash_adjoin h key val in ht_run ops h
  | HtReset sz :: ops => match htable_reset h sz with None => UB | Some h => ht_run ops h end
  end.
End Tables.

Example ht_run_ex :
  (let! h := match htable_new (fun _ => true) 0 with Some h => Ok h | None => UB end in
   let! (rs, h) := ht_run (fun _ => true) (map (fun i => HtPut (16 * i) (i + 100)) (seqZ 1 40) ++ [HtGet 320; HtRemove 320; HtGet 320; HtRemove 320; HtAdjoin 320 7; HtAdjoin 320 8; HtGet 320; HtGet 16]) h in
   Ok (rs, ht_size h)) = Ok ([HtValue 120; HtRemoved true; HtValue 1; HtRemoved false; HtValue 7; HtValue 101], 128).
Proof. vm_compute. reflexivity. Qed.

(** [next_power_of_two] takes 32 bits: a table for more than 2^31 entries has
    no slots at all. *)
Example htable_new_wraps : htable_new (fun _ => true) (2 ^ 31 + 1) = Some (Htable 0 [] false 0 0).
Proof. vm_compute. reflexivity. Qed.
