(* ===== verification/HTableFacts.v ===== *)
(** * Correctness of the pointer hash tables

    A probe visits the slots at triangular distances from the home slot, which
    are different from each other as long as there are no more of them than
    slots.  The invariant says that an entry, live or deleted, is found by
    probing for its key, that no key is entered twice, and that the counters
    are right.  It follows that tables are maps and that the table grows only
    when it has many live entries, which bounds the nesting of calls. *)

From stdpp Require Import base numbers option gmap list.
From Stdlib Require Import ZArith Lia.
From S2P Require Import Prelude Probe Identity SmallIntSet HTable.

(** ** Triangular numbers *)

Definition tri (d : Z) : Z := d * (d + 1) / 2.

Lemma tri_double d : 2 * tri d = d * (d + 1).
Proof.
  unfold tri. symmetry. apply Z_div_exact_full_2; [lia |]. rewrite Z.mul_mod, (Z.add_mod d 1 2) by lia.
  pose proof (Z.mod_pos_bound d 2 ltac:(lia)). assert (d mod 2 = 0 \/ d mod 2 = 1) as [-> | ->] by lia; done.
Qed.

Lemma tri_succ d : tri (d + 1) = tri d + (d + 1).
Proof. pose proof (tri_double d). pose proof (tri_double (d + 1)). lia. Qed.

Lemma divide_odd_pow2 m x y : 0 <= m -> Z.odd x = true -> (2 ^ m | x * y) -> (2 ^ m | y).
Proof.
  intros Hm Hx H. apply (Z.gauss _ _ _ H). apply Z.coprime_pow_l; [done |]. unfold Z.coprime.
  apply Z.odd_spec in Hx as [q ->]. rewrite Z.gcd_comm. replace (2 * q + 1) with (1 + q * 2) by lia. rewrite Z.gcd_comm, Z.gcd_add_mult_diag_r. done.
Qed.

Lemma tri_inj n o a b : pow2 n -> 0 <= a < b -> a + b + 1 < 2 * n -> (o + tri a) mod n <> (o + tri b) mod n.
Proof.
  intros (m & Hm & ->) Hab Hb E. set (n := 2 ^ m) in *. assert (0 < n) by (apply Z.pow_pos_nonneg; lia).
  assert (Hd : (2 ^ (m + 1) | (b - a) * (b + a + 1))).
  { exists ((o + tri b) / n - (o + tri a) / n). rewrite Z.pow_add_r by lia. fold n. pose proof (Z.div_mod (o + tri a) n ltac:(lia)). pose proof (Z.div_mod (o + tri b) n ltac:(lia)).
    pose proof (tri_double a). pose proof (tri_double b). nia. }
  assert (Hp : 2 ^ (m + 1) = 2 * n) by (rewrite Z.pow_add_r by lia; unfold n; lia).
  destruct (Z.odd (b - a)) eqn:Eo.
  - apply divide_odd_pow2 in Hd; [| lia | done]. apply Z.divide_pos_le in Hd; lia.
  - assert (Eo2 : Z.odd (b + a + 1) = true) by (replace (b + a + 1) with ((b - a) + 1 + 2 * a) by lia; rewrite Z.odd_add_mul_2, Z.odd_add, Eo; done).
    rewrite Z.mul_comm in Hd. apply divide_odd_pow2 in Hd; [| lia | done]. apply Z.divide_pos_le in Hd; lia.
Qed.

(** ** Slots of a table *)

Definition hkey (tab : list Z) (i : Z) : Z := default HT_NOTFOUND (tab !! Z.to_nat (2 * i)).
Definition hval (tab : list Z) (i : Z) : Z := default HT_NOTFOUND (tab !! Z.to_nat (2 * i + 1)).

Section Slots.
Context (tab : list Z) (n : Z) (Hlen : Z.of_nat (length tab) = 2 * n).

Lemma rd_hkey i : 0 <= i < n -> rd tab (2 * i) = Ok (hkey tab i).
Proof using Hlen. intros Hi. destruct (rd_in_range tab (2 * i)) as (x & -> & E); [lia |]. unfold hkey. by rewrite E. Qed.
Lemma rd_hval i : 0 <= i < n -> rd tab (2 * i + 1) = Ok (hval tab i).
Proof using Hlen. intros Hi. destruct (rd_in_range tab (2 * i + 1)) as (x & -> & E); [lia |]. unfold hval. by rewrite E. Qed.

Lemma wr_hkey i k : 0 <= i < n -> exists t, wr tab (2 * i) k = Ok t /\ Z.of_nat (length t) = 2 * n /\
  (forall j, 0 <= j < n -> hkey t j = if j =? i then k else hkey tab j) /\ (forall j, 0 <= j < n -> hval t j = hval tab j).
Proof using Hlen.
  intros Hi. rewrite wr_in_range by lia. eexists. split; [done |]. rewrite length_insert. split; [done |]. unfold hkey, hval. split; intros j Hj.
  - destruct (Z.eqb_spec j i) as [-> |]; [rewrite list_lookup_insert_eq by lia; done | by rewrite list_lookup_insert_ne by lia].
  - by rewrite list_lookup_insert_ne by lia.
Qed.
Lemma wr_hval i v : 0 <= i < n -> exists t, wr tab (2 * i + 1) v = Ok t /\ Z.of_nat (length t) = 2 * n /\
  (forall j, 0 <= j < n -> hval t j = if j =? i then v else hval tab j) /\ (forall j, 0 <= j < n -> hkey t j = hkey tab j).
Proof using Hlen.
  intros Hi. rewrite wr_in_range by lia. eexists. split; [done |]. rewrite length_insert. split; [done |]. unfold hkey, hval. split; intros j Hj.
  - destruct (Z.eqb_spec j i) as [-> |]; [rewrite list_lookup_insert_eq by lia; done | by rewrite list_lookup_insert_ne by lia].
  - by rewrite list_lookup_insert_ne by lia.
Qed.
End Slots.

(** ** Paths *)

(** [m] slots of the path from the home slot [o], from the [d]-th on. *)
Fixpoint path (n o d : Z) (m : nat) : list Z :=
  match m with O => [] | S m' => (o + tri d) mod n :: path n o (d + 1) m' end.

Lemma path_S n o d m : path n o d (S m) = (o + tri d) mod n :: path n o (d + 1) m.
Proof. done. Qed.

Lemma path_lookup n o m : forall d j s, path n o d m !! j = Some s <-> (j < m)%nat /\ s = (o + tri (d + Z.of_nat j)) mod n.
Proof.
  induction m as [| m IH]; intros d j s; cbn [path]; [rewrite lookup_nil; split; [done | lia] |]. destruct j as [| j]; cbn.
  - rewrite Z.add_0_r. split; [intros [= <-]; split; [lia | done] | by intros [_ ->]].
  - rewrite IH. replace (d + 1 + Z.of_nat j) with (d + Z.of_nat (S j)) by lia. split; intros [? ->]; (split; [lia | done]).
Qed.

Lemma path_length n o d m : length (path n o d m) = m.
Proof. revert d. induction m as [| m IH]; intros d; cbn [path length]; [done | by rewrite IH]. Qed.

Lemma path_NoDup n o m : pow2 n -> Z.of_nat m <= n -> NoDup (path n o 0 m).
Proof.
  intros Hp Hm. apply NoDup_alt. intros i j x Hi Hj. rewrite path_lookup in Hi, Hj. destruct Hi as [Hi ->], Hj as [Hj E].
  destruct (Nat.lt_trichotomy i j) as [H | [H | H]]; [| done |]; exfalso; [apply (tri_inj n o (0 + Z.of_nat i) (0 + Z.of_nat j)) in E | symmetry in E; apply (tri_inj n o (0 + Z.of_nat j) (0 + Z.of_nat i)) in E]; try done; lia.
Qed.

Lemma path_range n o d m s : 0 < n -> s ∈ path n o d m -> 0 <= s < n.
Proof. intros Hn [j (_ & ->)%path_lookup]%list_elem_of_lookup. by apply Z.mod_pos_bound. Qed.

(** The path that is probed for [key]. *)
Definition key_path (n key : Z) : list Z := path n (ptrhash_hash key mod n) 0 (S (Z.to_nat (ht_max_probe n))).

Lemma probe_step n o d : pow2 n -> 0 <= d -> Z.land (2 * ((o + tri d) mod n) + (d + 1) * 2) (n * 2 - 1) = 2 * ((o + tri (d + 1)) mod n).
Proof.
  intros Hp Hd. pose proof (pow2_pos _ Hp). rewrite land_pow2 by (pose proof (pow2_double _ Hp) as H'; by rewrite shiftl_pow in H' by lia).
  replace (2 * ((o + tri d) mod n) + (d + 1) * 2) with (2 * ((o + tri d) mod n + (d + 1))) by lia. rewrite (Z.mul_comm n 2), Z.mul_mod_distr_l by lia.
  rewrite Z.add_mod_idemp_l by lia. rewrite tri_succ. do 2 f_equal. lia.
Qed.

Lemma probe_orig n o d : pow2 n -> 0 <= o < n -> 0 <= d < 2 * n - 2 -> (2 * ((o + tri (d + 1)) mod n) =? 2 * o) = false.
Proof.
  intros Hp Ho Hd. apply Z.eqb_neq. intros E. apply (tri_inj n o 0 (d + 1) Hp); [lia | lia |]. change (tri 0) with 0. rewrite Z.add_0_r, (Z.mod_small o) by lia. lia.
Qed.

(** The probe loop as a walk over the path; slots are numbered. *)
Fixpoint lookup_list (tab : list Z) (key : Z) (l : list Z) (empty : option Z) : ht_probe :=
  match l with
  | [] => HtMissing empty
  | s :: l =>
      if hkey tab s =? HT_NOTFOUND then HtMissing (Some (default s empty))
      else
        let empty := if hval tab s =? HT_NOTFOUND then Some (default s empty) else empty in
        if key =? hkey tab s then HtFound s else lookup_list tab key l empty
  end.

Definition word_index (r : ht_probe) : ht_probe :=
  match r with HtFound s => HtFound (2 * s) | HtMissing e => HtMissing (Z.mul 2 <$> e) end.

Section Probes.
Context (tab : list Z) (n : Z) (Hlen : Z.of_nat (length tab) = 2 * n) (Hp : pow2 n).

Lemma lookup_probe_list key o m : 0 <= o < n -> forall d empty, 0 <= d -> d + Z.of_nat m < 2 * n - 2 ->
  lookup_probe m tab key (n * 2) (2 * ((o + tri d) mod n)) (2 * o) d (Z.mul 2 <$> empty) = Ok (word_index (lookup_list tab key (path n o d (S m)) empty)).
Proof using Hlen Hp.
  intros Ho. pose proof (pow2_pos _ Hp). induction m as [| m IH]; intros d empty Hd Hm; rewrite path_S; cbn [lookup_probe lookup_list];
    set (s := (o + tri d) mod n); assert (Hs : 0 <= s < n) by (apply Z.mod_pos_bound; lia); rewrite (rd_hkey tab n Hlen s Hs); cbn [obind]; destruct (hkey tab s =? HT_NOTFOUND);
    try (by destruct empty); rewrite (rd_hval tab n Hlen s Hs); cbn [obind]; destruct (Z.eqb_spec key (hkey tab s)); try done; try (by destruct (hval tab s =? HT_NOTFOUND), empty).
  unfold s. rewrite probe_step, probe_orig by (done || lia). rewrite <- IH by lia.
  f_equal. by destruct (_ =? HT_NOTFOUND), empty.
Qed.

Definition found_slot (r : ht_probe) : option Z := match r with HtFound s => Some (2 * s + 1) | HtMissing _ => None end.

Lemma peek_probe_list key o m : 0 <= o < n -> forall d empty, 0 <= d -> d + Z.of_nat m < 2 * n - 2 ->
  ht_peek_probe m tab key (n * 2) (2 * ((o + tri d) mod n)) (2 * o) d = Ok (found_slot (lookup_list tab key (path n o d (S m)) empty)).
Proof using Hlen Hp.
  intros Ho. pose proof (pow2_pos _ Hp). induction m as [| m IH]; intros d empty Hd Hm; rewrite path_S; cbn [ht_peek_probe lookup_list];
    set (s := (o + tri d) mod n); assert (Hs : 0 <= s < n) by (apply Z.mod_pos_bound; lia); rewrite (rd_hkey tab n Hlen s Hs); cbn [obind]; destruct (hkey tab s =? HT_NOTFOUND);
    try done; destruct (Z.eqb_spec key (hkey tab s)); try done.
  unfold s. rewrite probe_step, probe_orig by (done || lia). apply IH; lia.
Qed.
End Probes.

(** ** What a walk finds *)

(** [s] is on the path [l], with no unused slot before it. *)
Definition reached (tab l : list Z) (s : Z) : Prop := exists pre post, l = pre ++ s :: post /\ forall x, x ∈ pre -> hkey tab x <> HT_NOTFOUND.

Lemma reached_cons tab x l s : hkey tab x <> HT_NOTFOUND -> reached tab l s -> reached tab (x :: l) s.
Proof. intros Hx (pre & post & -> & Hpre). exists (x :: pre), post. split; [done |]. intros y [-> |]%elem_of_cons; [done | by apply Hpre]. Qed.
Lemma reached_head tab l s : reached tab (s :: l) s.
Proof. exists [], l. split; [done |]. intros x Hx. by apply elem_of_nil in Hx. Qed.

Lemma lookup_list_found tab key l : forall empty s, lookup_list tab key l empty = HtFound s -> reached tab l s /\ hkey tab s = key.
Proof.
  induction l as [| x l IH]; intros empty s; cbn [lookup_list]; [done |]. destruct (Z.eqb_spec (hkey tab x) HT_NOTFOUND) as [| Hx]; [done |].
  destruct (Z.eqb_spec key (hkey tab x)) as [-> |]; [intros [= <-]; split; [apply reached_head | done] |]. intros [Hr Hk]%IH. split; [by apply reached_cons | done].
Qed.

Lemma lookup_list_missing tab key l : key <> HT_NOTFOUND -> forall empty e, lookup_list tab key l empty = HtMissing e -> forall s, reached tab l s -> hkey tab s <> key.
Proof.
  intros Hkey. induction l as [| x l IH]; intros empty e E s (pre & post & El & Hpre); [by destruct pre |]. cbn [lookup_list] in E. destruct pre as [| y pre]; injection El as -> ->.
  - destruct (Z.eqb_spec (hkey tab s) HT_NOTFOUND) as [-> |]; [done |]. destruct (Z.eqb_spec key (hkey tab s)); [done | congruence].
  - destruct (Z.eqb_spec (hkey tab y) HT_NOTFOUND) as [Hy |]; [exfalso; apply (Hpre y); [left | done] |]. destruct (Z.eqb_spec key (hkey tab y)); [done |].
    apply (IH _ _ E). exists pre, post. split; [done |]. intros z Hz. apply Hpre. by right.
Qed.

Lemma lookup_list_kept tab key l : forall x e, lookup_list tab key l (Some x) = HtMissing e -> e = Some x.
Proof.
  induction l as [| y l IH]; intros x e; cbn [lookup_list default]; [by intros [= <-] |]. destruct (_ =? _); [by intros [= <-] |]. destruct (key =? _); [done |].
  destruct (_ =? _); apply IH.
Qed.

Lemma lookup_list_empty tab key l e : lookup_list tab key l None = HtMissing e ->
  match e with
  | Some t => reached tab l t /\ (hkey tab t = HT_NOTFOUND \/ hval tab t = HT_NOTFOUND)
  | None => forall s, s ∈ l -> hkey tab s <> HT_NOTFOUND /\ hval tab s <> HT_NOTFOUND
  end.
Proof.
  induction l as [| x l IH]; cbn [lookup_list default]; [intros [= <-] s Hs; by apply elem_of_nil in Hs |]. destruct (Z.eqb_spec (hkey tab x) HT_NOTFOUND) as [Hx | Hx].
  - intros [= <-]. split; [apply reached_head | by left].
  - destruct (key =? hkey tab x); [done |]. destruct (Z.eqb_spec (hval tab x) HT_NOTFOUND) as [Hv | Hv].
    + intros ->%lookup_list_kept. split; [apply reached_head | by right].
    + intros H%IH. destruct e as [t |]; [destruct H; split; [by apply reached_cons | done] |]. intros s [-> |]%elem_of_cons; [done | by apply H].
Qed.

(** ** Counting slots *)

Fixpoint cnt (P : Z -> bool) (n : nat) : Z :=
  match n with O => 0 | S m => cnt P m + Z.b2z (P (Z.of_nat m)) end.

Lemma cnt_ext P Q n : (forall i, 0 <= i < Z.of_nat n -> P i = Q i) -> cnt P n = cnt Q n.
Proof. induction n as [| n IH]; intros H; cbn [cnt]; [done |]. rewrite IH by (intros; apply H; lia). rewrite H by lia. done. Qed.

Lemma cnt_change P Q n i : 0 <= i < Z.of_nat n -> (forall j, 0 <= j < Z.of_nat n -> j <> i -> P j = Q j) -> cnt Q n = cnt P n - Z.b2z (P i) + Z.b2z (Q i).
Proof.
  induction n as [| n IH]; intros Hi H; [lia |]. cbn [cnt]. destruct (Z.eq_dec i (Z.of_nat n)) as [-> |].
  - rewrite (cnt_ext P Q n) by (intros; apply H; lia). lia.
  - rewrite IH by (try lia; intros; apply H; lia). rewrite (H (Z.of_nat n)) by lia. lia.
Qed.

Lemma cnt_bounds P n : 0 <= cnt P n <= Z.of_nat n.
Proof. induction n as [| n IH]; cbn [cnt]; [lia |]. destruct (P (Z.of_nat n)); cbn [Z.b2z]; lia. Qed.

Lemma cnt_le P n m : (m <= n)%nat -> cnt P m <= cnt P n.
Proof. induction 1 as [| n _ IH]; cbn [cnt]; [lia |]. destruct (P (Z.of_nat n)); cbn [Z.b2z]; lia. Qed.

Lemma cnt_mono P Q n : (forall i, 0 <= i < Z.of_nat n -> P i = true -> Q i = true) -> cnt P n <= cnt Q n.
Proof.
  induction n as [| n IH]; intros H; cbn [cnt]; [lia |]. assert (cnt P n <= cnt Q n) by (apply IH; intros; apply H; [lia | done]).
  pose proof (H (Z.of_nat n) ltac:(lia)). destruct (P (Z.of_nat n)), (Q (Z.of_nat n)); cbn [Z.b2z]; (lia || (exfalso; naive_solver)).
Qed.

Lemma cnt_same P Q n i : (forall i, 0 <= i < Z.of_nat n -> P i = true -> Q i = true) -> cnt P n = cnt Q n -> 0 <= i < Z.of_nat n -> Q i = true -> P i = true.
Proof.
  intros H E Hi Hq. destruct (P i) eqn:Ep; [done |]. exfalso. set (R := fun j => (j =? i) || P j).
  assert (cnt R n <= cnt Q n) by (apply cnt_mono; intros j Hj [->%Z.eqb_eq | ?]%orb_prop; [done | by apply H]).
  rewrite (cnt_change P R n i Hi) in H0 by (intros j _ Hj; unfold R; by destruct (Z.eqb_spec j i)). unfold R in H0. rewrite Ep, Z.eqb_refl in H0. cbn in H0. lia.
Qed.

Lemma cnt_list P n l : NoDup l -> (forall x, x ∈ l -> 0 <= x < Z.of_nat n /\ P x = true) -> Z.of_nat (length l) <= cnt P n.
Proof.
  revert l. induction n as [| n IH]; intros l Hl H.
  - destruct l as [| x l]; [cbn; lia |]. destruct (H x); [left | lia].
  - cbn [cnt]. destruct (decide (Z.of_nat n ∈ l)) as [Hn | Hn].
    + apply list_elem_of_split in Hn as (l1 & l2 & ->). destruct (H (Z.of_nat n)) as [_ ->]; [set_solver |]. cbn [Z.b2z].
      assert (Z.of_nat (length (l1 ++ l2)) <= cnt P n); [| rewrite !length_app in *; cbn [length]; lia].
      rewrite NoDup_app, NoDup_cons in Hl. destruct Hl as (? & Hd & ? & ?). apply IH.
      * apply NoDup_app. split; [done |]. split; [set_solver | done].
      * intros x Hx. destruct (H x) as [? ?]; [set_solver |]. split; [| done]. assert (x <> Z.of_nat n); [| lia]. intros ->. apply elem_of_app in Hx as [Hx | Hx]; [apply (Hd _ Hx); left | done].
    + assert (Z.of_nat (length l) <= cnt P n); [| destruct (P (Z.of_nat n)); cbn [Z.b2z]; lia]. apply IH; [done |]. intros x Hx. destruct (H x Hx). split; [| done].
      assert (x <> Z.of_nat n) by (by intros ->). lia.
Qed.

Lemma cnt_false n : cnt (fun _ => false) n = 0.
Proof. induction n as [| n IH]; [done |]. cbn [cnt]. by rewrite IH. Qed.

(** ** The invariant *)

Definition occupied (tab : list Z) (i : Z) : bool := negb (hkey tab i =? HT_NOTFOUND).
Definition alive (tab : list Z) (i : Z) : bool := negb (hval tab i =? HT_NOTFOUND).

(** A table of [n] slots; [extra] more live entries are counted than there are
    values. *)
Record ht_ok (extra : Z) (h : htable_t) (n : Z) : Prop := {
  k_size : ht_size h = 2 * n;
  k_len : Z.of_nat (length (ht_table h)) = 2 * n;
  k_pow : pow2 n;
  k_range : 16 <= n <= 2 ^ 56;
  k_empty : forall i, 0 <= i < n -> hkey (ht_table h) i = HT_NOTFOUND -> hval (ht_table h) i = HT_NOTFOUND;
  k_reach : forall i, 0 <= i < n -> hkey (ht_table h) i <> HT_NOTFOUND -> reached (ht_table h) (key_path n (hkey (ht_table h) i)) i;
  k_uniq : forall i j, 0 <= i < n -> 0 <= j < n -> hkey (ht_table h) i <> HT_NOTFOUND -> hkey (ht_table h) i = hkey (ht_table h) j -> i = j;
  k_count : ht_count h = cnt (occupied (ht_table h)) (Z.to_nat n);
  k_live : ht_live h = cnt (alive (ht_table h)) (Z.to_nat n) + extra
}.

(** [k] is mapped to [v]. *)
Definition ht_holds (h : htable_t) (n k v : Z) : Prop :=
  k <> HT_NOTFOUND /\ v <> HT_NOTFOUND /\ exists i, 0 <= i < n /\ hkey (ht_table h) i = k /\ hval (ht_table h) i = v.

Lemma ht_max_probe_range n : 16 <= n -> 0 <= ht_max_probe n <= n /\ n / 8 <= ht_max_probe n.
Proof.
  intros Hn. unfold ht_max_probe, HT_N_INLINE. destruct (Z.leb_spec n (32 * 2)); [change (32 / 2) with 16 | rewrite shiftr_pow by lia; change (2 ^ 3) with 8];
    pose proof (Z.div_mod n 8 ltac:(lia)); pose proof (Z.mod_pos_bound n 8 ltac:(lia)); lia.
Qed.

Section Ok.
Context (extra : Z) (h : htable_t) (n : Z) (Hok : ht_ok extra h n).
Local Notation tab := (ht_table h) (only parsing).

Lemma ok_hash_size : ht_hash_size h = n.
Proof using Hok. unfold ht_hash_size. rewrite (k_size _ _ _ Hok), Z.mul_comm. by apply Z.div_mul. Qed.

Lemma home_slot key : Z.land (ptrhash_hash key) (n - 1) * 2 = 2 * ((ptrhash_hash key mod n + tri 0) mod n) /\ 0 <= ptrhash_hash key mod n < n /\ (ptrhash_hash key mod n + tri 0) mod n = ptrhash_hash key mod n.
Proof using Hok.
  pose proof (k_range _ _ _ Hok). rewrite land_pow2 by apply Hok. change (tri 0) with 0. pose proof (Z.mod_pos_bound (ptrhash_hash key) n ltac:(lia)).
  rewrite Z.add_0_r, Z.mod_mod by lia. lia.
Qed.

Lemma lookup_probe_ok key : lookup_probe (Z.to_nat (ht_max_probe n)) tab key (n * 2) (Z.land (ptrhash_hash key) (n - 1) * 2) (Z.land (ptrhash_hash key) (n - 1) * 2) 0 None =
  Ok (word_index (lookup_list tab key (key_path n key) None)).
Proof using Hok.
  destruct (home_slot key) as (E & Ho & E2). pose proof (k_range _ _ _ Hok). pose proof (ht_max_probe_range n ltac:(lia)). rewrite E. rewrite E2 at 2.
  apply (lookup_probe_list tab n (k_len _ _ _ Hok) (k_pow _ _ _ Hok) key _ _ Ho 0 None); lia.
Qed.

Lemma peek_bp_ok key : peek_bp h key = Ok (found_slot (lookup_list tab key (key_path n key) None)).
Proof using Hok.
  unfold peek_bp. rewrite ok_hash_size. destruct (home_slot key) as (E & Ho & E2). pose proof (k_range _ _ _ Hok). pose proof (ht_max_probe_range n ltac:(lia)). rewrite E. rewrite E2 at 2.
  apply (peek_probe_list tab n (k_len _ _ _ Hok) (k_pow _ _ _ Hok) key _ _ Ho 0 None); lia.
Qed.

Lemma reached_in key s : reached tab (key_path n key) s -> 0 <= s < n.
Proof using Hok. intros (pre & post & E & _). pose proof (k_range _ _ _ Hok). apply (path_range n (ptrhash_hash key mod n) 0 (S (Z.to_nat (ht_max_probe n)))); [lia |]. fold (key_path n key). rewrite E. set_solver. Qed.

Lemma missing_nowhere key e : key <> HT_NOTFOUND -> lookup_list tab key (key_path n key) None = HtMissing e -> forall s, 0 <= s < n -> hkey tab s <> key.
Proof using Hok.
  intros Hkey E s Hs Hk. apply (lookup_list_missing _ _ _ Hkey _ _ E s); [| done]. rewrite <- Hk. apply (k_reach _ _ _ Hok s Hs). by rewrite Hk.
Qed.

Lemma cnt_alive_occupied : cnt (alive tab) (Z.to_nat n) <= cnt (occupied tab) (Z.to_nat n).
Proof using Hok.
  apply cnt_mono. intros i Hi. unfold alive, occupied. pose proof (k_empty _ _ _ Hok i ltac:(lia)). destruct (Z.eqb_spec (hkey tab i) HT_NOTFOUND), (Z.eqb_spec (hval tab i) HT_NOTFOUND); naive_solver.
Qed.

(** A probe that finds neither the key nor a free slot shows that many entries
    are alive. *)
Lemma full_path key : lookup_list tab key (key_path n key) None = HtMissing None -> n < 8 * cnt (alive tab) (Z.to_nat n).
Proof using Hok.
  intros E%lookup_list_empty. pose proof (k_range _ _ _ Hok) as Hr. pose proof (ht_max_probe_range n ltac:(lia)) as [? ?].
  set (m := Z.to_nat (Z.min n (n / 8 + 1))).
  assert (Hm : (m <= S (Z.to_nat (ht_max_probe n)))%nat) by lia.
  assert (Hsub : forall x, x ∈ path n (ptrhash_hash key mod n) 0 m -> x ∈ key_path n key).
  { intros x [j (Hj & ->)%path_lookup]%list_elem_of_lookup. apply list_elem_of_lookup. exists j. apply path_lookup. split; [lia | done]. }
  pose proof (cnt_list (alive tab) (Z.to_nat n) (path n (ptrhash_hash key mod n) 0 m)) as Hc. rewrite path_length in Hc.
  assert (Z.of_nat m <= cnt (alive tab) (Z.to_nat n)).
  { apply Hc; [apply path_NoDup; [apply Hok | lia] |]. intros x Hx. split; [apply (path_range n) in Hx; lia |]. apply negb_true_iff, Z.eqb_neq. by apply E, Hsub. }
  pose proof (Z.div_mod n 8 ltac:(lia)). pose proof (Z.mod_pos_bound n 8 ltac:(lia)). lia.
Qed.
End Ok.

(** ** Single updates *)

Lemma reached_mono tab tab' l s : reached tab l s -> (forall x, x ∈ l -> hkey tab x <> HT_NOTFOUND -> hkey tab' x <> HT_NOTFOUND) -> reached tab' l s.
Proof. intros (pre & post & -> & Hpre) H. exists pre, post. split; [done |]. intros x Hx. apply H; [set_solver | by apply Hpre]. Qed.

(** Tables that differ in the value of one slot, where there is a key. *)
Lemma set_value_ok e e' h n i v tab' live : ht_ok e h n -> 0 <= i < n -> hkey (ht_table h) i <> HT_NOTFOUND ->
  Z.of_nat (length tab') = 2 * n -> (forall j, 0 <= j < n -> hval tab' j = if j =? i then v else hval (ht_table h) j) -> (forall j, 0 <= j < n -> hkey tab' j = hkey (ht_table h) j) ->
  live = ht_live h - e - Z.b2z (alive (ht_table h) i) + Z.b2z (negb (v =? HT_NOTFOUND)) + e' ->
  ht_ok e' (Htable (ht_size h) tab' (ht_inline h) (ht_count h) live) n.
Proof.
  intros Hok Hi Hki Hl Hv Hk Hlive. pose proof (k_range _ _ _ Hok). split; cbn [ht_size ht_table ht_count ht_live]; [by apply (k_size _ _ _ Hok) | done | by apply (k_pow _ _ _ Hok) | done |..].
  - intros j Hj. rewrite Hk, Hv by done. intros Hj1. destruct (Z.eqb_spec j i) as [-> |]; [done | by apply (k_empty _ _ _ Hok)].
  - intros j Hj. rewrite Hk by done. intros Hj1. apply (reached_mono (ht_table h)); [by apply Hok |]. intros x Hx. rewrite Hk; [done |]. apply (path_range n) in Hx; lia.
  - intros j k Hj Hk'. rewrite !Hk by done. by apply Hok.
  - rewrite (k_count _ _ _ Hok). apply cnt_ext. intros j Hj. unfold occupied. by rewrite Hk by lia.
  - rewrite Hlive, (k_live _ _ _ Hok). rewrite (cnt_change (alive (ht_table h)) (alive tab') (Z.to_nat n) i); [| lia |].
    + replace (alive tab' i) with (negb (v =? HT_NOTFOUND)) by (unfold alive; by rewrite Hv, Z.eqb_refl by done). lia.
    + intros j Hj Hne. unfold alive. rewrite Hv by lia. by rewrite (proj2 (Z.eqb_neq j i) Hne).
Qed.

Lemma ok_unique e h n i j : ht_ok e h n -> 0 <= i < n -> 0 <= j < n -> hkey (ht_table h) i <> HT_NOTFOUND -> hkey (ht_table h) j = hkey (ht_table h) i -> j = i.
Proof. intros Hok Hi Hj Hk E. symmetry. by apply (k_uniq _ _ _ Hok i j). Qed.

(** The value of a new or old entry is stored. *)
Lemma ht_store_ok h n i v : ht_ok (Z.b2z (hval (ht_table h) i =? HT_NOTFOUND)) h n -> 0 <= i < n -> hkey (ht_table h) i <> HT_NOTFOUND -> v <> HT_NOTFOUND ->
  exists h', ht_store h (2 * i + 1) v = Ok h' /\ ht_ok 0 h' n /\ ht_live h' = ht_live h /\ ht_count h' = ht_count h /\
    forall k w, ht_holds h' n k w <-> if k =? hkey (ht_table h) i then w = v else ht_holds h n k w.
Proof.
  intros Hok Hi Hk Hv. destruct (wr_hval (ht_table h) n (k_len _ _ _ Hok) i v Hi) as (t & E & Hl & Hvs & Hks). unfold ht_store. rewrite E. cbn [obind]. eexists. split; [done |].
  cbn [ht_live ht_count]. split; [| split; [done | split; [done |]]].
  - eapply set_value_ok; try done. unfold alive. rewrite (proj2 (Z.eqb_neq v HT_NOTFOUND) Hv). destruct (_ =? HT_NOTFOUND); cbn; lia.
  - intros k w. unfold ht_holds. cbn [ht_table]. destruct (Z.eqb_spec k (hkey (ht_table h) i)) as [-> | Hne].
    + split.
      * intros (_ & _ & j & Hj & Ek & Ew). rewrite Hks, Hvs in * by done. assert (j = i) as -> by (by apply (ok_unique _ h n i j Hok)). by rewrite Z.eqb_refl in Ew.
      * intros ->. split; [done |]. split; [done |]. exists i. rewrite Hks, Hvs, Z.eqb_refl by done. done.
    + split; intros (? & ? & j & Hj & Ek & Ew); (split; [done |]; split; [done |]; exists j; split; [done |]); rewrite Hks, Hvs in * by done; (split; [done |]); destruct (Z.eqb_spec j i) as [-> |]; congruence.
Qed.

(** A key is entered into a free slot. *)
Lemma enter_ok h n key t tab' : ht_ok 0 h n -> key <> HT_NOTFOUND -> (forall s, 0 <= s < n -> hkey (ht_table h) s <> key) -> reached (ht_table h) (key_path n key) t ->
  hval (ht_table h) t = HT_NOTFOUND -> Z.of_nat (length tab') = 2 * n ->
  (forall j, 0 <= j < n -> hkey tab' j = if j =? t then key else hkey (ht_table h) j) -> (forall j, 0 <= j < n -> hval tab' j = hval (ht_table h) j) ->
  let h' := Htable (ht_size h) tab' (ht_inline h) (if hkey (ht_table h) t =? HT_NOTFOUND then ht_count h + 1 else ht_count h) (ht_live h + 1) in
  ht_ok 1 h' n /\ forall k v, ht_holds h' n k v <-> ht_holds h n k v.
Proof.
  intros Hok Hkey Hnone Hr Hvt Hl Hk Hv. pose proof (reached_in _ _ _ Hok _ _ Hr) as Ht. cbn [ht_size ht_table ht_count ht_live]. pose proof (k_range _ _ _ Hok).
  assert (Hmono : forall x, 0 <= x < n -> hkey (ht_table h) x <> HT_NOTFOUND -> hkey tab' x <> HT_NOTFOUND) by (intros x Hx Hx1; rewrite Hk by done; by destruct (x =? t)).
  split.
  - split; cbn [ht_size ht_table ht_count ht_live]; [by apply (k_size _ _ _ Hok) | done | by apply (k_pow _ _ _ Hok) | done |..].
    + intros i Hi. rewrite Hk, Hv by done. destruct (Z.eqb_spec i t) as [-> |]; [done | by apply Hok].
    + intros i Hi. rewrite Hk by done. intros Hi1. assert (Hri : reached (ht_table h) (key_path n (if i =? t then key else hkey (ht_table h) i)) i) by (destruct (Z.eqb_spec i t) as [-> |]; [done | by apply Hok]).
      apply (reached_mono _ _ _ _ Hri). intros x Hx. apply Hmono. apply (path_range n) in Hx; lia.
    + intros i j Hi Hj. rewrite !Hk by done. destruct (Z.eqb_spec i t) as [-> | Hit], (Z.eqb_spec j t) as [-> | Hjt]; intros Hn Heq; try done; [by destruct (Hnone j Hj) | by destruct (Hnone i Hi) | by apply (k_uniq _ _ _ Hok)].
    + rewrite (cnt_change (occupied (ht_table h)) (occupied tab') (Z.to_nat n) t); [| lia |].
      * rewrite <- (k_count _ _ _ Hok). unfold occupied. rewrite Hk, Z.eqb_refl by done. rewrite (proj2 (Z.eqb_neq key HT_NOTFOUND) Hkey). destruct (_ =? HT_NOTFOUND); cbn; lia.
      * intros j Hj Hne. unfold occupied. rewrite Hk by lia. by rewrite (proj2 (Z.eqb_neq j t) Hne).
    + rewrite (k_live _ _ _ Hok), Z.add_0_r. f_equal. apply cnt_ext. intros j Hj. unfold alive. by rewrite Hv by lia.
  - intros k v. unfold ht_holds. cbn [ht_table]. split; intros (Hk0 & Hv0 & j & Hj & Ek & Ev); (split; [done |]; split; [done |]; exists j; split; [done |]).
    + rewrite Hk, Hv in * by done. destruct (Z.eqb_spec j t) as [-> |]; [congruence | done].
    + rewrite Hk, Hv by done. destruct (Z.eqb_spec j t) as [-> |]; [congruence | done].
Qed.

(** An entry is deleted. *)
Lemma ht_delete_ok h n i : ht_ok 0 h n -> 0 <= i < n -> hkey (ht_table h) i <> HT_NOTFOUND -> hval (ht_table h) i <> HT_NOTFOUND ->
  exists h', ht_store h (2 * i + 1) HT_NOTFOUND = Ok h' /\ ht_ok 0 (Htable (ht_size h') (ht_table h') (ht_inline h') (ht_count h') (u64 (ht_live h' - 1))) n /\
    forall k w, ht_holds h' n k w <-> k <> hkey (ht_table h) i /\ ht_holds h n k w.
Proof.
  intros Hok Hi Hk Hv. destruct (wr_hval (ht_table h) n (k_len _ _ _ Hok) i HT_NOTFOUND Hi) as (t & E & Hl & Hvs & Hks). unfold ht_store. rewrite E. cbn [obind]. eexists. split; [done |].
  assert (Hal : alive (ht_table h) i = true) by (by apply negb_true_iff, Z.eqb_neq). cbn [ht_size ht_table ht_inline ht_count ht_live]. split.
  - pose proof (k_live _ _ _ Hok). pose proof (cnt_bounds (alive (ht_table h)) (Z.to_nat n)). pose proof (k_range _ _ _ Hok).
    pose proof (cnt_list (alive (ht_table h)) (Z.to_nat n) [i] (NoDup_singleton _) ltac:(intros x ->%list_elem_of_singleton; split; [lia | done])) as Hc1. cbn [length] in Hc1.
    rewrite u64_small by lia. eapply set_value_ok; try done. rewrite Hal. cbn. lia.
  - intros k w. unfold ht_holds. cbn [ht_table]. split.
    + intros (? & ? & j & Hj & Ek & Ew). rewrite Hks, Hvs in * by done. destruct (Z.eqb_spec j i) as [-> | Hne]; [congruence |]. split; [| naive_solver]. intros ->. apply Hne. by apply (ok_unique _ _ _ i j Hok).
    + intros (Hne & ? & ? & j & Hj & Ek & Ew). split; [done |]. split; [done |]. exists j. rewrite Hks, Hvs by done. split; [done |]. split; [done |]. destruct (Z.eqb_spec j i) as [-> |]; congruence.
Qed.

(** ** Looking up and growing *)

Lemma fill_ok m inline : pow2 m -> 16 <= m <= 2 ^ 56 -> ht_ok 0 (htable_fill (2 * m) inline) m /\ (forall k v, ~ ht_holds (htable_fill (2 * m) inline) m k v).
Proof.
  intros Hp Hm. assert (Hk : forall i, hkey (replicate (Z.to_nat (2 * m)) HT_NOTFOUND) i = HT_NOTFOUND /\ hval (replicate (Z.to_nat (2 * m)) HT_NOTFOUND) i = HT_NOTFOUND).
  { intros i. unfold hkey, hval. split; destruct (_ !! _) eqn:E; try done; apply lookup_replicate in E as [-> _]; done. }
  split; [split; cbn [htable_fill ht_size ht_table ht_count ht_live] |]; try done.
  - rewrite length_replicate. lia.
  - intros i _ _. apply Hk.
  - intros i _ []. apply Hk.
  - intros i j _ _ []. apply Hk.
  - rewrite (cnt_ext _ (fun _ => false)) by (intros i _; unfold occupied; by rewrite (proj1 (Hk i))). by rewrite cnt_false.
  - rewrite (cnt_ext _ (fun _ => false)) by (intros i _; unfold alive; by rewrite (proj2 (Hk i))). by rewrite cnt_false.
  - intros k v (Hk0 & _ & i & _ & E & _). apply Hk0. rewrite <- E. apply Hk.
Qed.

Definition clean (h : htable_t) : Prop := ht_count h = ht_live h.

Lemma clean_alive h n i : ht_ok 0 h n -> clean h -> 0 <= i < n -> hkey (ht_table h) i <> HT_NOTFOUND -> hval (ht_table h) i <> HT_NOTFOUND.
Proof.
  unfold clean. intros Hok Hc Hi Hk. rewrite (k_count _ _ _ Hok), (k_live _ _ _ Hok), Z.add_0_r in Hc.
  apply Z.eqb_neq, negb_true_iff. apply (cnt_same (alive (ht_table h)) (occupied (ht_table h)) (Z.to_nat n)); [| done | lia | by apply negb_true_iff, Z.eqb_neq].
  intros j Hj Ha. apply negb_true_iff, Z.eqb_neq. intros E. apply (k_empty _ _ _ Hok j) in E; [| lia]. unfold alive in Ha. by rewrite E in Ha.
Qed.

(** [fuel] levels suffice for another entry. *)
Definition ht_enough (fuel : nat) (h : htable_t) (n : Z) : Prop :=
  exists j, 0 <= j /\ 8 * (ht_live h + 1) <= n * 2 ^ j /\ 2 * j + (if bool_decide (clean h) then 1 else 2) <= Z.of_nat fuel.

(** The result of looking up [key] in [h]: the slot [i] of [h'] is its entry. *)
Record ht_entered (h : htable_t) (n key : Z) (h' : htable_t) (n' i : Z) : Prop := {
  en_ok : ht_ok (Z.b2z (hval (ht_table h') i =? HT_NOTFOUND)) h' n';
  en_slot : 0 <= i < n' /\ hkey (ht_table h') i = key;
  en_holds : forall k v, ht_holds h' n' k v <-> ht_holds h n k v;
  en_live : ht_live h' = ht_live h + Z.b2z (hval (ht_table h') i =? HT_NOTFOUND);
  en_clean : clean h -> clean h';
  en_size : n <= n' <= Z.max n (32 * (ht_live h + 1))
}.

Section Lookup.
Context (malloc : Z -> bool) (Hmem : forall b, 0 < b <= 2 ^ 60 -> malloc b = true).

Definition looks_up (fuel : nat) : Prop := forall h n key, ht_ok 0 h n -> key <> HT_NOTFOUND -> ht_live h <= 2 ^ 50 -> ht_enough fuel h n ->
  exists h' n' i, lookup_bp_impl malloc fuel h key = Ok (Some (2 * i + 1), h') /\ ht_entered h n key h' n' i.

(** The entries of the slots below [s]. *)
Definition holds_below (h : htable_t) (s k v : Z) : Prop :=
  k <> HT_NOTFOUND /\ v <> HT_NOTFOUND /\ exists i, 0 <= i < s /\ hkey (ht_table h) i = k /\ hval (ht_table h) i = v.

Lemma holds_below_succ e h n s k v : ht_ok e h n -> 0 <= s < n -> hval (ht_table h) s = HT_NOTFOUND -> holds_below h (s + 1) k v <-> holds_below h s k v.
Proof.
  intros Hok Hs Hv. unfold holds_below. split; intros (? & ? & i & Hi & Ek & Ev); (split; [done |]; split; [done |]; exists i); [| split; [lia | done]].
  split; [| done]. destruct (Z.eq_dec i s) as [-> |]; [congruence | lia].
Qed.

Lemma holds_below_entry e h n s k v : ht_ok e h n -> 0 <= s < n -> hval (ht_table h) s <> HT_NOTFOUND ->
  holds_below h (s + 1) k v <-> (if k =? hkey (ht_table h) s then v = hval (ht_table h) s else holds_below h s k v).
Proof.
  intros Hok Hs Hv. assert (Hks : hkey (ht_table h) s <> HT_NOTFOUND) by (intros E; by apply Hv, (k_empty _ _ _ Hok)). unfold holds_below. destruct (Z.eqb_spec k (hkey (ht_table h) s)) as [-> | Hne].
  - split; [| intros ->; split; [done |]; split; [done |]; exists s; split; [lia | done]]. intros (_ & _ & i & Hi & Ek & Ev). assert (i = s) as -> by (apply (ok_unique _ _ _ s i Hok); (lia || done)). done.
  - split; intros (? & ? & i & Hi & Ek & Ev); (split; [done |]; split; [done |]; exists i; split; [| done]); [| lia]. destruct (Z.eq_dec i s) as [-> |]; [congruence | lia].
Qed.

(** The old pairs are entered into a new table. *)
Lemma reinsert_ok fuel h n : looks_up fuel -> ht_ok 0 h n -> ht_live h <= 2 ^ 50 -> forall c s h1 n1, 0 <= s -> s + Z.of_nat c = n -> ht_ok 0 h1 n1 -> clean h1 ->
  (forall k v, ht_holds h1 n1 k v <-> holds_below h s k v) -> ht_live h1 = cnt (alive (ht_table h)) (Z.to_nat s) ->
  (exists j, 0 <= j /\ 8 * ht_live h <= n1 * 2 ^ j /\ 2 * j + 1 <= Z.of_nat fuel) ->
  exists h2 n2, ht_reinsert (lookup_bp_impl malloc fuel) c (ht_table h) (2 * s) h1 = Ok h2 /\ ht_ok 0 h2 n2 /\ clean h2 /\ (forall k v, ht_holds h2 n2 k v <-> ht_holds h n k v) /\
    ht_live h2 = ht_live h /\ n1 <= n2 <= Z.max n1 (32 * ht_live h).
Proof using.
  intros Hlook Hok Hbound c. induction c as [| c IH]; intros s h1 n1 Hs Hc Hok1 Hcl1 Hh1 Hl1 Hfuel; cbn [ht_reinsert].
  - assert (s = n) as -> by lia. exists h1, n1. split; [done |]. split; [done |]. split; [done |]. split; [done |]. rewrite (k_live _ _ _ Hok), Z.add_0_r. split; [done | lia].
  - rewrite (rd_hval _ n (k_len _ _ _ Hok)) by lia. cbn [obind]. assert (Ha : cnt (alive (ht_table h)) (Z.to_nat (s + 1)) = cnt (alive (ht_table h)) (Z.to_nat s) + Z.b2z (alive (ht_table h) s)).
    { replace (Z.to_nat (s + 1)) with (S (Z.to_nat s)) by lia. cbn [cnt]. by rewrite Z2Nat.id by lia. }
    pose proof (cnt_le (alive (ht_table h)) (Z.to_nat n) (Z.to_nat (s + 1)) ltac:(lia)) as Hle. pose proof (k_live _ _ _ Hok) as Hlv. rewrite Ha in Hle. unfold alive in Ha at 3, Hle at 2.
    replace (2 * s + 2) with (2 * (s + 1)) by lia. destruct (Z.eqb_spec (hval (ht_table h) s) HT_NOTFOUND) as [Hv | Hv]; cbn [negb Z.b2z] in *.
    + apply IH; try done; try lia. intros k v. rewrite Hh1. by rewrite (holds_below_succ _ _ _ s _ _ Hok) by (lia || done).
    + assert (Hks : hkey (ht_table h) s <> HT_NOTFOUND) by (intros E; apply Hv, (k_empty _ _ _ Hok s); [lia | done]).
      rewrite (rd_hkey _ n (k_len _ _ _ Hok)) by lia. cbn [obind]. pose proof (cnt_bounds (alive (ht_table h)) (Z.to_nat s)). destruct Hfuel as (j & Hj & Hj1 & Hj2).
      destruct (Hlook h1 n1 (hkey (ht_table h) s) Hok1 Hks) as (h2 & n2 & i & -> & He); [lia | exists j; split; [done |]; rewrite bool_decide_true by done; split; lia |]. cbn [obind].
      destruct He as [Eok [Ei Ek] Eh El Ec En]. assert (Hnew : hval (ht_table h2) i = HT_NOTFOUND).
      { destruct (Z.eq_dec (hval (ht_table h2) i) HT_NOTFOUND) as [| Hne]; [done |]. exfalso. assert (Hx : ht_holds h2 n2 (hkey (ht_table h) s) (hval (ht_table h2) i)) by (split; [done |]; split; [done |]; by exists i).
        rewrite Eh, Hh1 in Hx. destruct Hx as (_ & _ & q & Hq & Eq & _). apply (ok_unique _ _ _ s q Hok) in Eq; [lia | lia | lia | done]. }
      destruct (ht_store_ok h2 n2 i (hval (ht_table h) s) Eok Ei) as (h3 & -> & Hok3 & El3 & Ec3 & Eh3); [by rewrite Ek | done |]. cbn [obind]. rewrite Hnew in El. cbn in El.
      destruct (IH (s + 1) h3 n2) as (h4 & n4 & E4 & Hok4 & Hcl4 & Hh4 & Hl4 & Hn4); [lia | lia | done | unfold clean in *; rewrite El3, Ec3; by apply Ec | | lia | exists j; split; [done |]; split; [nia | done] |].
      * intros k v. rewrite Eh3, Ek, (holds_below_entry _ _ _ s _ _ Hok) by (lia || done). destruct (k =? _); [done |]. by rewrite Eh.
      * exists h4, n4. split; [done |]. split; [done |]. split; [done |]. split; [done |]. split; [done |]. lia.
Qed.

Lemma live_bounds h n : ht_ok 0 h n -> 0 <= ht_live h <= ht_count h /\ ht_count h <= n.
Proof using.
  intros Hok. pose proof (k_range _ _ _ Hok). rewrite (k_live _ _ _ Hok), (k_count _ _ _ Hok). pose proof (cnt_alive_occupied _ _ _ Hok). pose proof (cnt_bounds (alive (ht_table h)) (Z.to_nat n)).
  pose proof (cnt_bounds (occupied (ht_table h)) (Z.to_nat n)). lia.
Qed.

Lemma count_extra h n e live : ht_ok 0 h n -> live = ht_live h + e -> ht_ok e (Htable (ht_size h) (ht_table h) (ht_inline h) (ht_count h) live) n.
Proof using. intros [] ->. split; cbn [ht_size ht_table ht_count ht_live]; try done. lia. Qed.

(** The key is in the table. *)
Lemma entered_found h n key s live : ht_ok 0 h n -> key <> HT_NOTFOUND -> lookup_list (ht_table h) key (key_path n key) None = HtFound s ->
  live = ht_live h + Z.b2z (hval (ht_table h) s =? HT_NOTFOUND) -> ht_entered h n key (Htable (ht_size h) (ht_table h) (ht_inline h) (ht_count h) live) n s.
Proof using.
  intros Hok Hkey [Hr Hk]%lookup_list_found Hl. pose proof (reached_in _ _ _ Hok _ _ Hr) as Hs. split; cbn [ht_table ht_live]; [by apply count_extra | done | done | done | | lia].
  intros Hc. unfold clean. cbn [ht_count ht_live]. rewrite Hl, Hc. pose proof (clean_alive h n s Hok Hc Hs ltac:(congruence)) as Ha. apply Z.eqb_neq in Ha. rewrite Ha. cbn. lia.
Qed.

(** The key is entered into a free slot. *)
Lemma entered_new h n key t : ht_ok 0 h n -> key <> HT_NOTFOUND -> lookup_list (ht_table h) key (key_path n key) None = HtMissing (Some t) ->
  exists tab', rd (ht_table h) (2 * t) = Ok (hkey (ht_table h) t) /\ wr (ht_table h) (2 * t) key = Ok tab' /\
    ht_entered h n key (Htable (ht_size h) tab' (ht_inline h) (if hkey (ht_table h) t =? HT_NOTFOUND then u64 (ht_count h + 1) else ht_count h) (u64 (ht_live h + 1))) n t.
Proof using.
  intros Hok Hkey E. pose proof (missing_nowhere _ _ _ Hok key _ Hkey E) as Hno. apply lookup_list_empty in E as [Hr Hfree]. pose proof (reached_in _ _ _ Hok _ _ Hr) as Ht.
  pose proof (k_range _ _ _ Hok). pose proof (live_bounds _ _ Hok). rewrite !u64_small by lia.
  assert (Hv : hval (ht_table h) t = HT_NOTFOUND) by (destruct Hfree; [by apply (k_empty _ _ _ Hok) | done]).
  destruct (wr_hkey (ht_table h) n (k_len _ _ _ Hok) t key Ht) as (tab' & E & Hl & Hk & Hv'). exists tab'. split; [by apply (rd_hkey _ n), Ht; apply Hok |]. split; [done |].
  destruct (enter_ok h n key t tab' Hok Hkey Hno Hr Hv Hl Hk Hv') as [Hok' Hh]. split; cbn [ht_table ht_live].
  - rewrite Hv', Hv by done. done.
  - split; [done |]. by rewrite Hk, Z.eqb_refl by done.
  - done.
  - rewrite Hv', Hv by done. done.
  - intros Hc. destruct (Z.eqb_spec (hkey (ht_table h) t) HT_NOTFOUND) as [Ek | Ek]; [unfold clean in *; cbn [ht_count ht_live]; lia |]. exfalso. by apply (clean_alive h n t Hok Hc Ht Ek).
  - lia.
Qed.

Lemma newsz_ok grow n : pow2 n -> 16 <= n <= 2 ^ 54 \/ grow = false -> exists n1, ht_newsz grow (2 * n) = 2 * n1 /\ pow2 n1 /\ (if grow then 2 * n <= n1 <= 4 * n else n1 = n).
Proof using.
  intros Hp Hn. unfold ht_newsz. destruct grow; cbn [negb]; [| by exists n]. assert (Hn' : 16 <= n <= 2 ^ 54) by (by destruct Hn). unfold HT_N_INLINE. destruct (Z.ltb_spec (2 * n) 32); [lia |].
  destruct (_ || _); rewrite !shiftl_pow by lia; [exists (n * 2) | exists (n * 4)]; (split; [rewrite u64_small by lia; lia |]); split; try lia.
  - rewrite <- (Z.pow_1_r 2), <- shiftl_pow by lia. by apply pow2_double.
  - change 4 with (2 ^ 2). rewrite <- shiftl_pow by lia. by apply pow2_quadruple.
Qed.

(** The table is rebuilt with [n1] slots and the key is looked up again. *)
Lemma rebuilt fuel h n key newsz n1 : looks_up fuel -> ht_ok 0 h n -> key <> HT_NOTFOUND -> ht_live h <= 2 ^ 50 -> newsz = 2 * n1 -> pow2 n1 -> n <= n1 <= 2 ^ 56 ->
  (exists j, 0 <= j /\ 8 * (ht_live h + 1) <= n1 * 2 ^ j /\ 2 * j + 1 <= Z.of_nat fuel) -> n1 <= Z.max n (32 * (ht_live h + 1)) ->
  exists h' n' i, (let! h := ht_reinsert (lookup_bp_impl malloc fuel) (Z.to_nat ((ht_size h + 1) / 2)) (ht_table h) 0 (htable_fill newsz false) in lookup_bp_impl malloc fuel h key) = Ok (Some (2 * i + 1), h') /\
    ht_entered h n key h' n' i.
Proof using.
  intros Hlook Hok Hkey Hb -> Hp Hn1 (j & Hj & Hj1 & Hj2) Hmax. pose proof (k_range _ _ _ Hok). pose proof (live_bounds _ _ Hok).
  assert (Hhalf : (ht_size h + 1) / 2 = n) by (rewrite (k_size _ _ _ Hok); symmetry; apply (Z.div_unique _ _ _ 1); lia). rewrite Hhalf.
  destruct (fill_ok n1 false Hp ltac:(lia)) as [Hok1 Hno]. destruct (reinsert_ok fuel h n Hlook Hok Hb (Z.to_nat n) 0 (htable_fill (2 * n1) false) n1) as (h2 & n2 & E2 & Hok2 & Hcl2 & Hh2 & Hl2 & Hn2);
    [lia | lia | done | done | intros k v; split; [by intros ?%Hno | by intros (_ & _ & i & Hi & _); lia] | done | exists j; split; [done |]; split; [lia | done] |].
  change (2 * 0) with 0 in E2. rewrite E2. cbn [obind].
  destruct (Hlook h2 n2 key Hok2 Hkey) as (h3 & n3 & i & E3 & [Eok Es Eh El Ec En]); [lia | exists j; split; [done |]; rewrite bool_decide_true by done; split; [nia | lia] |].
  exists h3, n3, i. split; [done |]. split; [done | done | intros k v; by rewrite Eh | lia | intros _; by apply Ec | lia].
Qed.

Lemma lookup_ok fuel : looks_up fuel.
Proof using Hmem.
  induction fuel as [| fuel IH]; intros h n key Hok Hkey Hb (j & Hj & Hj1 & Hj2); [destruct (bool_decide _); lia |]. cbn [lookup_bp_impl]. rewrite (ok_hash_size _ _ _ Hok), (lookup_probe_ok _ _ _ Hok). cbn [obind].
  pose proof (k_range _ _ _ Hok) as Hr. pose proof (live_bounds _ _ Hok) as Hlb. destruct (lookup_list (ht_table h) key (key_path n key) None) as [s | e] eqn:E; cbn [word_index].
  { pose proof (lookup_list_found _ _ _ _ _ E) as [Hrs _]. apply (reached_in _ _ _ Hok) in Hrs. rewrite (rd_hval _ n (k_len _ _ _ Hok) s Hrs). cbn [obind]. exists (Htable (ht_size h) (ht_table h) (ht_inline h) (ht_count h) (ht_live h + Z.b2z (hval (ht_table h) s =? HT_NOTFOUND))), n, s.
    split; [| by apply entered_found]. do 4 f_equal. destruct (_ =? HT_NOTFOUND); [rewrite u64_small by lia |]; cbn; lia. }
  rewrite (u64_small (n * 3)), (u64_small (ht_live h * 4)), (u64_small (n - ht_count h)), (u64_small (8 * (n - ht_count h))), (u64_small (ht_live h + 1)), (u64_small (ht_count h + 1)) by lia.
  assert (Hgrow : e = None \/ n * 3 <= ht_live h * 4 -> n < 8 * ht_live h).
  { intros [-> | H]; [| lia]. rewrite (k_live _ _ _ Hok), Z.add_0_r. by apply (full_path _ _ _ Hok key). }
  assert (Hsame : forall grow n1, (grow = true -> n < 8 * ht_live h /\ 2 * n <= n1 <= 4 * n) -> (grow = false -> n1 = n /\ ~ clean h) -> ht_newsz grow (ht_size h) = 2 * n1 -> pow2 n1 ->
    exists h' n' i, (if malloc (u64 (ht_newsz grow (ht_size h) * 8)) then let! h := ht_reinsert (lookup_bp_impl malloc fuel) (Z.to_nat ((ht_size h + 1) / 2)) (ht_table h) 0 (htable_fill (ht_newsz grow (ht_size h)) false) in lookup_bp_impl malloc fuel h key else Ok (None, h)) = Ok (Some (2 * i + 1), h') /\
      ht_entered h n key h' n' i).
  { intros grow n1 Hg Hng Hsz Hp1. assert (Hn1 : n <= n1 <= 2 ^ 56 /\ n1 <= Z.max n (32 * (ht_live h + 1))) by (destruct grow; [destruct (Hg eq_refl); lia | destruct (Hng eq_refl) as [-> _]; lia]).
    rewrite Hsz, u64_small, Hmem by lia. apply (rebuilt fuel h n key _ n1); try done; try lia. destruct grow.
    - destruct (Hg eq_refl) as [H8 [H2 _]]. assert (Hj0 : j <> 0) by (intros ->; change (2 ^ 0) with 1 in Hj1; lia). exists (j - 1). split; [lia |].
      replace j with ((j - 1) + 1) in Hj1 by lia. rewrite Z.pow_add_r in Hj1 by lia. split; [nia | destruct (bool_decide _); lia].
    - destruct (Hng eq_refl) as [-> Hcl]. rewrite bool_decide_false in Hj2 by done. exists j. split; [done |]. split; [done | lia]. }
  destruct e as [t |]; cbn [fmap option_fmap option_map].
  - destruct (Z.leb_spec (n * 3) (ht_live h * 4)) as [Hfull | Hfull].
    + destruct (newsz_ok true n (k_pow _ _ _ Hok)) as (n1 & En1 & Hp1 & Hn1); [left; lia |]. apply (Hsame true n1); [intros _; split; [apply Hgrow; by right | done] | done | by rewrite (k_size _ _ _ Hok) | done].
    + destruct (Z.leb_spec (8 * (n - ht_count h)) n) as [Ht | Ht].
      * destruct (newsz_ok false n (k_pow _ _ _ Hok)) as (n1 & En1 & Hp1 & Hn1); [by right |]. apply (Hsame false n1); [done | intros _; split; [done |]; unfold clean; lia | by rewrite (k_size _ _ _ Hok) | done].
      * destruct (entered_new h n key t Hok Hkey E) as (tab' & -> & W & He). cbn [obind]. rewrite W. cbn [obind]. rewrite !u64_small in He by lia. by exists (Htable (ht_size h) tab' (ht_inline h) (if hkey (ht_table h) t =? HT_NOTFOUND then ht_count h + 1 else ht_count h) (ht_live h + 1)), n, t.
  - destruct (newsz_ok true n (k_pow _ _ _ Hok)) as (n1 & En1 & Hp1 & Hn1); [left; pose proof (Hgrow (or_introl eq_refl)); lia |]. apply (Hsame true n1); [intros _; split; [apply Hgrow; by left | done] | done | by rewrite (k_size _ _ _ Hok) | done].
Qed.

Lemma lookup_bp_ok h n key : ht_ok 0 h n -> key <> HT_NOTFOUND -> ht_live h <= 2 ^ 50 ->
  exists h' n' i, lookup_bp malloc h key = Ok (Some (2 * i + 1), h') /\ ht_entered h n key h' n' i.
Proof using Hmem.
  intros Hok Hkey Hb. apply lookup_ok; try done. pose proof (live_bounds _ _ Hok). pose proof (k_range _ _ _ Hok). exists 4. split; [lia |]. split; [change (2 ^ 4) with 16; lia | destruct (bool_decide _); lia].
Qed.
End Lookup.

(** ** Tables as maps *)

Definition ht_represents (h : htable_t) (n : Z) (m : gmap Z Z) : Prop := ht_ok 0 h n /\ forall k v, m !! k = Some v <-> ht_holds h n k v.

Section Operations.
Context (malloc : Z -> bool) (Hmem : forall b, 0 < b <= 2 ^ 60 -> malloc b = true).

(** What a probe that changes nothing finds. *)
Lemma peek_bp_spec h n m key : ht_represents h n m -> key <> HT_NOTFOUND ->
  (exists s, peek_bp h key = Ok (Some (2 * s + 1)) /\ 0 <= s < n /\ hkey (ht_table h) s = key /\ rd (ht_table h) (2 * s + 1) = Ok (hval (ht_table h) s) /\ hval (ht_table h) s = default HT_NOTFOUND (m !! key)) \/
  peek_bp h key = Ok None /\ m !! key = None.
Proof using.
  intros [Hok Hm] Hkey. rewrite (peek_bp_ok _ _ _ Hok). destruct (lookup_list _ _ _ _) as [s | e] eqn:E; cbn [found_slot]; [left | right].
  - apply lookup_list_found in E as [Hr Hk]. apply (reached_in _ _ _ Hok) in Hr. exists s. split; [done |]. split; [done |]. split; [done |]. split; [by apply (rd_hval _ n); [apply Hok |] |].
    destruct (m !! key) as [v |] eqn:Ev; cbn [default].
    + apply Hm in Ev as (_ & _ & i & Hi & Ek & <-). by assert (i = s) as -> by (apply (ok_unique _ _ _ s i Hok); congruence).
    + destruct (Z.eq_dec (hval (ht_table h) s) HT_NOTFOUND) as [| Hne]; [done |]. assert (Hx : ht_holds h n key (hval (ht_table h) s)) by (split; [done |]; split; [done |]; by exists s). apply Hm in Hx. congruence.
  - split; [done |]. apply eq_None_not_Some. intros [v (_ & _ & i & Hi & Ek & _)%Hm]. by apply (missing_nowhere _ _ _ Hok key e Hkey E i).
Qed.

Lemma ptrhash_get_ok h n m key : ht_represents h n m -> key <> HT_NOTFOUND -> ptrhash_get h key = Ok (default HT_NOTFOUND (m !! key)).
Proof using.
  intros Hr Hkey. unfold ptrhash_get. destruct (peek_bp_spec h n m key Hr Hkey) as [(s & -> & _ & _ & E & Ev) | [-> ->]]; cbn [obind]; [by rewrite E, Ev | done].
Qed.

Lemma ptrhash_put_ok h n m key v : ht_represents h n m -> key <> HT_NOTFOUND -> v <> HT_NOTFOUND -> ht_live h <= 2 ^ 50 ->
  exists h' n', ptrhash_put malloc h key v = Ok h' /\ ht_represents h' n' (<[key := v]> m) /\ ht_live h' <= ht_live h + 1.
Proof using Hmem.
  intros [Hok Hm] Hkey Hv Hb. destruct (lookup_bp_ok malloc Hmem h n key Hok Hkey Hb) as (h1 & n1 & i & E & [Eok [Ei Ek] Eh El _ _]). unfold ptrhash_put. rewrite E. cbn [obind].
  destruct (ht_store_ok h1 n1 i v Eok Ei) as (h2 & -> & Hok2 & El2 & _ & Eh2); [congruence | done |]. exists h2, n1. split; [done |]. split; [| rewrite El2, El; destruct (_ =? HT_NOTFOUND); cbn; lia].
  split; [done |]. intros k w. rewrite Eh2, Ek. destruct (Z.eqb_spec k key) as [-> | Hne]; [rewrite lookup_insert_eq; naive_solver | by rewrite lookup_insert_ne, Hm, Eh by done].
Qed.

Lemma ptrhash_adjoin_ok h n m key v : ht_represents h n m -> key <> HT_NOTFOUND -> v <> HT_NOTFOUND -> ht_live h <= 2 ^ 50 ->
  exists h' n', ptrhash_adjoin malloc h key v = Ok h' /\ ht_represents h' n' (<[key := default v (m !! key)]> m) /\ ht_live h' <= ht_live h + 1.
Proof using Hmem.
  intros [Hok Hm] Hkey Hv Hb. destruct (lookup_bp_ok malloc Hmem h n key Hok Hkey Hb) as (h1 & n1 & i & E & [Eok [Ei Ek] Eh El _ _]). unfold ptrhash_adjoin. rewrite E. cbn [obind].
  rewrite (rd_hval _ n1 (k_len _ _ _ Eok) i Ei). cbn [obind]. destruct (Z.eqb_spec (hval (ht_table h1) i) HT_NOTFOUND) as [Ev | Ev].
  - destruct (ht_store_ok h1 n1 i v) as (h2 & -> & Hok2 & El2 & _ & Eh2); [by rewrite Ev | done | congruence | done |]. exists h2, n1. split; [done |]. split; [| rewrite El2, El; cbn; lia].
    assert (m !! key = None) as ->. { apply eq_None_not_Some. intros [w (_ & Hw & j & Hj & Ekj & Evj)%Hm%Eh]. assert (j = i) as -> by (apply (ok_unique _ h1 n1 i j Eok); congruence). congruence. }
    split; [done |]. intros k w. cbn [default]. rewrite Eh2, Ek. destruct (Z.eqb_spec k key) as [-> | Hne]; [rewrite lookup_insert_eq; naive_solver | by rewrite lookup_insert_ne, Hm, Eh by done].
  - assert (m !! key = Some (hval (ht_table h1) i)) as Em by (apply Hm, Eh; split; [done |]; split; [done |]; by exists i). rewrite Em. cbn [default]. rewrite insert_id by done.
    exists h1, n1. split; [done |]. cbn in Eok. split; [split; [done |]; intros k w; by rewrite Hm, Eh | cbn in El; lia].
Qed.

Lemma ptrhash_remove_ok h n m key : ht_represents h n m -> key <> HT_NOTFOUND ->
  exists h' b, ptrhash_remove h key = Ok (b, h') /\ b = bool_decide (is_Some (m !! key)) /\ ht_represents h' n (delete key m) /\ ht_live h' <= ht_live h.
Proof using.
  intros Hr Hkey. unfold ptrhash_remove. destruct (peek_bp_spec h n m key Hr Hkey) as [(s & -> & Hs & Hk & E0 & Hv) | [-> Hno]]; cbn [obind]; rewrite ?E0; cbn [obind]; destruct Hr as [Hok Hm].
  - destruct (m !! key) as [v |] eqn:Em; cbn in Hv.
    + assert (Hne : hval (ht_table h) s <> HT_NOTFOUND) by (apply Hm in Em as (_ & ? & _); congruence). rewrite (proj2 (Z.eqb_neq _ _) Hne). cbn [negb].
      destruct (ht_delete_ok h n s Hok Hs) as (h' & E & Hok' & Hh'); [congruence | done |]. rewrite E. cbn [obind]. eexists _, _. split; [done |]. rewrite bool_decide_true by done. split; [done |]. split.
      * split; [done |]. intros k w. change (ht_holds _ n k w) with (ht_holds h' n k w). rewrite Hh', Hk, <- Hm, lookup_delete_Some. naive_solver.
      * pose proof (live_bounds _ _ Hok). pose proof (live_bounds _ _ Hok'). pose proof (k_range _ _ _ Hok). assert (ht_live h' = ht_live h) as El by (unfold ht_store in E; destruct (wr _ _ _); cbn in E; by inversion E). cbn [ht_live] in *. rewrite El in *.
        destruct (Z.eq_dec (ht_live h) 0) as [EL0 |]; [rewrite EL0 in *; vm_compute (u64 (0 - 1)) in *; lia | rewrite u64_small by lia; lia].
    + rewrite Hv. cbn [Z.eqb negb]. exists h, false. split; [done |]. rewrite bool_decide_false by (by intros [? ?]). split; [done |]. rewrite delete_id by done. done.
  - exists h, false. split; [done |]. rewrite Hno, bool_decide_false by (by intros [? ?]). split; [done |]. rewrite delete_id by done. done.
Qed.

Lemma htable_new_ok size : 0 <= size <= 2 ^ 31 -> exists h n, htable_new malloc size = Some h /\ ht_represents h n ∅ /\ ht_live h = 0.
Proof using Hmem.
  intros Hs. assert (Hfill : forall m b, pow2 m -> 16 <= m <= 2 ^ 56 -> ht_represents (htable_fill (2 * m) b) m ∅).
  { intros m b Hp Hm. destruct (fill_ok m b Hp Hm) as [Hok Hno]. split; [done |]. intros k v. rewrite lookup_empty. split; [done | by intros ?%Hno]. }
  unfold htable_new, HT_N_INLINE. change (32 / 2) with 16. destruct (Z.leb_spec size 16).
  - exists (htable_fill (2 * 16) true), 16. split; [done |]. split; [| done]. apply Hfill; [by exists 4 | lia].
  - destruct (next_power_of_two_spec size ltac:(lia)) as [Hp Hr]. set (p := next_power_of_two size) in *. rewrite (u64_small (p * 2)), (u64_small (p * 2 * 2)), (u64_small (p * 2 * 2 * 8)), Hmem by lia.
    replace (p * 2 * 2) with (2 * (p * 2)) by lia. eexists _, (p * 2). split; [done |]. split; [| done]. apply Hfill; [| lia].
    rewrite <- (Z.pow_1_r 2), <- shiftl_pow by lia. by apply pow2_double.
Qed.

Lemma next_power_of_two_le sz : 0 <= sz <= 2 ^ 31 -> 0 <= next_power_of_two sz <= 2 ^ 31.
Proof using.
  intros Hs. destruct (Z.eq_dec sz 0) as [-> |]; [vm_compute; split; congruence |]. destruct (next_power_of_two_spec sz ltac:(lia)) as [(q & Hq & E) Hr]. split; [lia |]. rewrite E in *.
  apply Z.pow_le_mono_r; [lia |]. assert (q < 32); [| lia]. apply (Z.pow_lt_mono_r_iff 2); lia.
Qed.

Lemma htable_reset_ok h n m sz : ht_represents h n m -> 0 <= sz <= 2 ^ 31 -> exists h' n', htable_reset malloc h sz = Some h' /\ ht_represents h' n' ∅ /\ ht_live h' = 0.
Proof using Hmem.
  intros [Hok Hm] Hs. unfold htable_reset. destruct (_ && _).
  - destruct (htable_new_ok (next_power_of_two sz)) as (h' & n' & -> & Hr & Hl); [by apply next_power_of_two_le |]. by exists h', n'.
  - rewrite (k_size _ _ _ Hok). destruct (fill_ok n (ht_inline h) (k_pow _ _ _ Hok) (k_range _ _ _ Hok)) as [Hok' Hno]. eexists _, n. split; [done |]. split; [| done]. split; [done |].
    intros k v. rewrite lookup_empty. split; [done | by intros ?%Hno].
Qed.

(** The same operations on a map. *)
Fixpoint map_run (ops : list ht_op) (m : gmap Z Z) : list ht_answer :=
  match ops with
  | [] => []
  | HtPut key val :: ops => map_run ops (<[key := val]> m)
  | HtGet key :: ops => HtValue (default HT_NOTFOUND (m !! key)) :: map_run ops m
  | HtRemove key :: ops => HtRemoved (bool_decide (is_Some (m !! key))) :: map_run ops (delete key m)
  | HtAdjoin key val :: ops => map_run ops (<[key := default val (m !! key)]> m)
  | HtReset _ :: ops => map_run ops ∅
  end.

(** [HT_NOTFOUND] is neither a key nor a value. *)
Definition ht_op_valid (op : ht_op) : bool :=
  match op with
  | HtPut key val | HtAdjoin key val => negb (key =? HT_NOTFOUND) && negb (val =? HT_NOTFOUND)
  | HtGet key | HtRemove key => negb (key =? HT_NOTFOUND)
  | HtReset sz => (0 <=? sz) && (sz <=? 2 ^ 31)
  end.

Lemma ht_run_ok ops : forall h n m, ht_represents h n m -> Forall (fun op => ht_op_valid op = true) ops -> ht_live h + Z.of_nat (length ops) <= 2 ^ 50 ->
  exists h', ht_run malloc ops h = Ok (map_run ops m, h').
Proof using Hmem.
  induction ops as [| op ops IH]; intros h n m Hr Hval Hlen; [by exists h |]. apply Forall_cons in Hval as [Hv Hval]. cbn [length] in Hlen. assert (0 <= ht_live h) by (destruct Hr as [Hok _]; pose proof (live_bounds _ _ Hok); lia).
  destruct op as [key val | key | key | key val | sz]; cbn [ht_run map_run ht_op_valid] in *; rewrite ?andb_true_iff, ?negb_true_iff, ?Z.eqb_neq, ?Z.leb_le in Hv.
  - destruct (ptrhash_put_ok h n m key val Hr) as (h' & n' & -> & Hr' & Hl); [tauto | tauto | lia |]. apply (IH h' n'); [done | done | lia].
  - rewrite (ptrhash_get_ok h n m key Hr) by done. cbn [obind]. destruct (IH h n m Hr Hval ltac:(lia)) as (h' & ->). by exists h'.
  - destruct (ptrhash_remove_ok h n m key Hr Hv) as (h' & b & -> & -> & Hr' & Hl). cbn [obind]. destruct (IH h' n (delete key m) Hr' Hval ltac:(lia)) as (h'' & ->). by exists h''.
  - destruct (ptrhash_adjoin_ok h n m key val Hr) as (h' & n' & -> & Hr' & Hl); [tauto | tauto | lia |]. apply (IH h' n'); [done | done | lia].
  - destruct (htable_reset_ok h n m sz Hr Hv) as (h' & n' & -> & Hr' & Hl). apply (IH h' n'); [done | done | lia].
Qed.
End Operations.

(** C15: A pointer hash table is a map: starting from a new table, any sequence of up to 2^50 insertions,
    lookups, deletions, adjoins and resets succeeds and answers what a finite map answers, while entries
    are deleted and revived and the table is rehashed and grown by nested insertions.  Ten levels of
    nesting are enough.  Memory is available up to 2^60 bytes. *)
Theorem ptrhash_refines_map (malloc : Z -> bool) (size : Z) (ops : list ht_op) :
  (forall b, 0 < b <= 2 ^ 60 -> malloc b = true) -> 0 <= size <= 2 ^ 31 -> Forall (fun op => ht_op_valid op = true) ops -> Z.of_nat (length ops) <= 2 ^ 50 ->
  exists h h', htable_new malloc size = Some h /\ ht_run malloc ops h = Ok (map_run ops ∅, h').
Proof.
  intros Hmem Hs Hv Hl. destruct (htable_new_ok malloc Hmem size Hs) as (h & n & -> & Hr & H0). destruct (ht_run_ok malloc Hmem ops h n ∅ Hr Hv) as (h' & E); [lia |]. by exists h, h'.
Qed.

Lemma ptrhash_refines_map_witness : exists h h', htable_new (fun _ => true) 17 = Some h /\
  ht_run (fun _ => true) [HtPut 16 5; HtAdjoin 16 6; HtGet 16; HtRemove 16; HtGet 16; HtReset 3; HtPut 32 9; HtGet 32] h =
    Ok (map_run [HtPut 16 5; HtAdjoin 16 6; HtGet 16; HtRemove 16; HtGet 16; HtReset 3; HtPut 32 9; HtGet 32] ∅, h').
Proof. apply ptrhash_refines_map; [done | lia | by repeat constructor | cbn; lia]. Defined.
