(* ===== verification/Crc32c.v ===== *)
(** * Checksums (crc32c.c)

    CRC-32C of a buffer: the table-driven version, the versions for the crc32
    instructions of SSE4.2 and ARMv8, and the program that generates the
    tables.  [data] is the buffer, at the address [addr]; positions in it stand
    for the pointer [buf].  The instructions are parameters. *)

From stdpp Require Import base numbers option list.
From Stdlib Require Import ZArith Lia.
From S2P Require Import Prelude Hashing Bytes Crc32cTables.

Definition POLY : Z := 0x82f63b78.
Definition LONG : Z := 8192.
Definition SHORT : Z := 256.

Definition table_at (t : list (list Z)) (k n : Z) : outcome Z := let! row := rd t k in rd row n.

(** A [char] as an operand of 64 bits. *)
Definition char_word (b : Z) : Z := u64 (if b <? 128 then b else b - 256).

(** An unaligned or aligned read of [n] bytes, little-endian. *)
Definition load_le (data : list Z) (p : Z) (n : nat) : outcome Z :=
  if (0 <=? p) && (p + Z.of_nat n <=? Z.of_nat (length data)) then Ok (le_word (take n (drop (Z.to_nat p) data))) else UB.

(** ** The software version *)

Definition sw_byte (crc b : Z) : outcome Z :=
  let! t := table_at crc32c_table 0 (Z.land (Z.lxor crc (char_word b)) 0xff) in
  Ok (Z.lxor t (Z.shiftr crc 8)).

Definition sw_word (crc w : Z) : outcome Z :=
  let crc := Z.lxor crc w in
  let! t7 := table_at crc32c_table 7 (Z.land crc 0xff) in
  let! t6 := table_at crc32c_table 6 (Z.land (Z.shiftr crc 8) 0xff) in
  let! t5 := table_at crc32c_table 5 (Z.land (Z.shiftr crc 16) 0xff) in
  let! t4 := table_at crc32c_table 4 (Z.land (Z.shiftr crc 24) 0xff) in
  let! t3 := table_at crc32c_table 3 (Z.land (Z.shiftr crc 32) 0xff) in
  let! t2 := table_at crc32c_table 2 (Z.land (Z.shiftr crc 40) 0xff) in
  let! t1 := table_at crc32c_table 1 (Z.land (Z.shiftr crc 48) 0xff) in
  let! t0 := table_at crc32c_table 0 (Z.shiftr crc 56) in
  Ok (Z.lxor (Z.lxor (Z.lxor (Z.lxor (Z.lxor (Z.lxor (Z.lxor t7 t6) t5) t4) t3) t2) t1) t0).

(** [while (len && (buf & 7) != 0)]; with [all], [while (len)].  The results
    are the position, the length and the checksum. *)
Fixpoint bytes_loop (step : Z -> Z -> outcome Z) (all : bool) (addr : Z) (data : list Z) (fuel : nat) (p len crc : Z) : outcome (Z * Z * Z) :=
  if negb (len =? 0) && (all || negb (Z.land (addr + p) 7 =? 0)) then
    match fuel with
    | O => Timeout
    | S fuel' =>
        let! b := rd data p in
        let! crc := step crc b in
        bytes_loop step all addr data fuel' (p + 1) (len - 1) crc
    end
  else Ok (p, len, crc).

Fixpoint sw_words (data : list Z) (fuel : nat) (p len crc : Z) : outcome (Z * Z * Z) :=
  if 8 <=? len then
    match fuel with
    | O => Timeout
    | S fuel' =>
        let! w := load_le data p 8 in
        let! crc := sw_word crc w in
        sw_words data fuel' (p + 8) (len - 8) crc
    end
  else Ok (p, len, crc).

Definition jl_crc32c_sw (addr crci : Z) (data : list Z) (len : Z) : outcome Z :=
  let fuel := length data in
  let! (p, len, crc) := bytes_loop sw_byte false addr data fuel 0 len (Z.lxor crci 0xffffffff) in
  let! (p, len, crc) := sw_words data fuel p len crc in
  let! (p, len, crc) := bytes_loop sw_byte true addr data fuel p len crc in
  Ok (Z.lxor (u32 crc) 0xffffffff).

(** ** The versions for crc instructions *)

Definition crc32c_shift (zeros : list (list Z)) (crc : Z) : outcome Z :=
  let! z0 := table_at zeros 0 (Z.land crc 0xff) in
  let! z1 := table_at zeros 1 (Z.land (Z.shiftr crc 8) 0xff) in
  let! z2 := table_at zeros 2 (Z.land (Z.shiftr crc 16) 0xff) in
  let! z3 := table_at zeros 3 (Z.shiftr crc 24) in
  Ok (Z.lxor (Z.lxor (Z.lxor z0 z1) z2) z3).

Section Hardware.
(** [crc32q] and [crc32b] (SSE4.2), or [crc32cx], [crc32cw], [crc32ch] and
    [crc32cb] (ARMv8): the checksum of the operand appended. *)
Context (crc32q crc32w crc32h crc32b : Z -> Z -> Z).

(** Three blocks of [size] bytes at once. *)
Fixpoint three_way (data : list Z) (size : Z) (fuel : nat) (p end_ crc0 crc1 crc2 : Z) : outcome (Z * Z * Z * Z) :=
  let! w0 := load_le data p 8 in
  let! w1 := load_le data (p + size) 8 in
  let! w2 := load_le data (p + size * 2) 8 in
  let crc0 := crc32q crc0 w0 in
  let crc1 := crc32q crc1 w1 in
  let crc2 := crc32q crc2 w2 in
  let p := p + 8 in
  if p <? end_ then match fuel with O => Timeout | S fuel' => three_way data size fuel' p end_ crc0 crc1 crc2 end
  else Ok (p, crc0, crc1, crc2).

Fixpoint three_way_blocks (zeros : list (list Z)) (data : list Z) (size : Z) (fuel : nat) (p len crc : Z) : outcome (Z * Z * Z) :=
  if size * 3 <=? len then
    match fuel with
    | O => Timeout
    | S fuel' =>
        let! (p, crc0, crc1, crc2) := three_way data size (length data) p (p + size) crc 0 0 in
        let! s := crc32c_shift zeros (u32 crc0) in
        let crc0 := Z.lxor s crc1 in
        let! s := crc32c_shift zeros (u32 crc0) in
        let crc0 := Z.lxor s crc2 in
        three_way_blocks zeros data size fuel' (p + size * 2) (len - size * 3) crc0
    end
  else Ok (p, len, crc).

(** [while (buf < end)] *)
Fixpoint hw_words (data : list Z) (fuel : nat) (p end_ crc : Z) : outcome (Z * Z) :=
  if p <? end_ then
    match fuel with
    | O => Timeout
    | S fuel' => let! w := load_le data p 8 in hw_words data fuel' (p + 8) end_ (crc32q crc w)
    end
  else Ok (p, crc).

Definition crc32c_sse42 (addr crc : Z) (data : list Z) (len : Z) : outcome Z :=
  let fuel := length data in
  let step c b := Ok (crc32b c b) in
  let crc0 := Z.lxor crc 0xffffffff in
  let! (p, len, crc0) := bytes_loop step false addr data fuel 0 len crc0 in
  let! (p, len, crc0) := three_way_blocks crc32c_long data LONG fuel p len crc0 in
  let! (p, len, crc0) := three_way_blocks crc32c_short data SHORT fuel p len crc0 in
  let! (p, crc0) := hw_words data fuel p (p + (len - Z.land len 7)) crc0 in
  let! (p, len, crc0) := bytes_loop step true addr data fuel p (Z.land len 7) crc0 in
  Ok (Z.lxor (u32 crc0) 0xffffffff).

(** Two blocks of [SHORT] bytes at once. *)
Fixpoint two_way (data : list Z) (size : Z) (fuel : nat) (p end_ crc crc1 : Z) : outcome (Z * Z * Z) :=
  let! w0 := load_le data p 8 in
  let! w1 := load_le data (p + size) 8 in
  let crc := crc32q crc w0 in
  let crc1 := crc32q crc1 w1 in
  let p := p + 8 in
  if p <? end_ then match fuel with O => Timeout | S fuel' => two_way data size fuel' p end_ crc crc1 end
  else Ok (p, crc, crc1).

Definition two_way_block (data : list Z) (p len crc : Z) : outcome (Z * Z * Z) :=
  if SHORT * 2 <=? len then
    let! (p, crc, crc1) := two_way data SHORT (length data) p (p + SHORT) crc 0 in
    let! s := crc32c_shift crc32c_short crc in
    Ok (p + SHORT, len - SHORT * 2, Z.lxor s crc1)
  else Ok (p, len, crc).

(** [while (buf <= end)] *)
Fixpoint arm_words (data : list Z) (fuel : nat) (p end_ crc : Z) : outcome (Z * Z) :=
  if p <=? end_ then
    match fuel with
    | O => Timeout
    | S fuel' => let! w := load_le data p 8 in arm_words data fuel' (p + 8) end_ (crc32q crc w)
    end
  else Ok (p, crc).

Definition crc32c_armv8 (crc : Z) (data : list Z) (len : Z) : outcome Z :=
  let fuel := length data in
  let crc := u32 (Z.lnot crc) in
  let! (p, len, crc) := three_way_blocks crc32c_long data LONG fuel 0 len crc in
  let! (p, len, crc) := three_way_blocks crc32c_short data SHORT fuel p len crc in
  let! (p, len, crc) := two_way_block data p len crc in
  let! (p, crc) := arm_words data fuel p (p + len - 8) crc in
  let! (p, crc) := if negb (Z.land len 4 =? 0) then let! w := load_le data p 4 in Ok (p + 4, crc32w crc w) else Ok (p, crc) in
  let! (p, crc) := if negb (Z.land len 2 =? 0) then let! w := load_le data p 2 in Ok (p + 2, crc32h crc w) else Ok (p, crc) in
  let! crc := if negb (Z.land len 1 =? 0) then let! b := rd data p in Ok (crc32b crc (u32 (char_word b))) else Ok crc in
  Ok (u32 (Z.lnot crc)).
End Hardware.

(** ** The generator of the tables *)

(** One step of the division. *)
Definition crc_bit (crc : Z) : Z := if Z.odd crc then Z.lxor (Z.shiftr crc 1) POLY else Z.shiftr crc 1.

Fixpoint steps (n : nat) (crc : Z) : Z := match n with O => crc | S n' => crc_bit (steps n' crc) end.

(** The rows [table[k][n]] for [k] from 1 on, from the row before. *)
Fixpoint init_rows (t0 row : list Z) (k : nat) : outcome (list (list Z)) :=
  match k with
  | O => Ok []
  | S k' =>
      let! next := foldr (fun crc acc => let! acc := acc in let! t := rd t0 (Z.land crc 0xff) in Ok (Z.lxor t (Z.shiftr crc 8) :: acc)) (Ok []) row in
      let! rows := init_rows t0 next k' in
      Ok (next :: rows)
  end.

Definition crc32c_init_sw : outcome (list (list Z)) :=
  let t0 := map (fun n => steps 8 n) (seqZ 0 256) in
  let! rows := init_rows t0 t0 7 in
  Ok (t0 :: rows).

Fixpoint gf2_matrix_times (mat : list Z) (vec : Z) (fuel : nat) (sum : Z) {struct fuel} : outcome Z :=
  if vec =? 0 then Ok sum
  else
    match fuel with
    | O => Timeout
    | S fuel' =>
        match mat with
        | [] => UB
        | row :: mat => gf2_matrix_times mat (Z.shiftr vec 1) fuel' (if Z.odd vec then Z.lxor sum row else sum)
        end
    end.

Definition gf2_times (mat : list Z) (vec : Z) : outcome Z := gf2_matrix_times mat vec 32 0.

Definition gf2_matrix_square (mat : list Z) : outcome (list Z) :=
  foldr (fun row acc => let! acc := acc in let! x := gf2_times mat row in Ok (x :: acc)) (Ok []) mat.

(** The loop of [crc32c_zeros_op]: [odd] is the operator for half as many
    zeros as [even] will have. *)
Fixpoint zeros_loop (fuel : nat) (odd : list Z) (len : Z) : outcome (list Z) :=
  match fuel with
  | O => Timeout
  | S fuel' =>
      let! even := gf2_matrix_square odd in
      let len := Z.shiftr len 1 in
      if len =? 0 then Ok even
      else
        let! odd := gf2_matrix_square even in
        let len := Z.shiftr len 1 in
        if len =? 0 then Ok odd else zeros_loop fuel' odd len
  end.

Definition crc32c_zeros_op (len : Z) : outcome (list Z) :=
  let odd := POLY :: map (fun n => Z.shiftl 1 (n - 1)) (seqZ 1 31) in
  let! even := gf2_matrix_square odd in
  let! odd := gf2_matrix_square even in
  zeros_loop 32 odd len.

Definition zeros_row (op : list Z) (shift : Z) : outcome (list Z) :=
  foldr (fun n acc => let! acc := acc in let! x := gf2_times op (u32 (Z.shiftl n shift)) in Ok (x :: acc)) (Ok []) (seqZ 0 256).

Definition crc32c_zeros (len : Z) : outcome (list (list Z)) :=
  let! op := crc32c_zeros_op len in
  let! r0 := zeros_row op 0 in
  let! r1 := zeros_row op 8 in
  let! r2 := zeros_row op 16 in
  let! r3 := zeros_row op 24 in
  Ok [r0; r1; r2; r3].

Definition crc32c_init_hw : outcome (list (list Z) * list (list Z)) :=
  let! l := crc32c_zeros LONG in
  let! s := crc32c_zeros SHORT in
  Ok (l, s).
