(* ===== verification/Crc32cFacts.v ===== *)
(** * Correctness of the checksums

    The reference is division bit by bit: appending a byte is eight steps of
    [crc_bit] on the checksum with the byte added to it.  A step is linear, so
    the checksum of many bytes is the sum of what the tables say for each of
    them, and blocks can be computed apart and shifted over each other. *)

From stdpp Require Import base numbers option list.
From Stdlib Require Import ZArith Lia.
From S2P Require Import Prelude Hashing HashingFacts Bytes Crc32cTables Crc32c.

(** ** Division *)

Definition crc_bytes (c : Z) (l : list Z) : Z := foldl (fun c b => steps 8 (Z.lxor c b)) c l.

(** The checksum by definition. *)
Definition crc32c_ref (crc : Z) (l : list Z) : Z := Z.lxor (crc_bytes (Z.lxor crc 0xffffffff) l) 0xffffffff.

Definition linear (F : Z -> Z) : Prop := forall x y, F (Z.lxor x y) = Z.lxor (F x) (F y).

Lemma linear_0 F : linear F -> F 0 = 0.
Proof. intros H. rewrite <- (Z.lxor_nilpotent 0), H. apply Z.lxor_nilpotent. Qed.

Lemma lxor_swap a b c d : Z.lxor (Z.lxor a b) (Z.lxor c d) = Z.lxor (Z.lxor a c) (Z.lxor b d).
Proof. rewrite !Z.lxor_assoc. f_equal. rewrite <- !Z.lxor_assoc. f_equal. apply Z.lxor_comm. Qed.

Lemma crc_bit_linear : linear crc_bit.
Proof.
  intros x y. unfold crc_bit. rewrite <- !Z.bit0_odd, Z.lxor_spec, Z.shiftr_lxor.
  destruct (Z.testbit x 0), (Z.testbit y 0); cbn [xorb].
  - by rewrite lxor_swap, Z.lxor_nilpotent, Z.lxor_0_r.
  - rewrite !Z.lxor_assoc. f_equal. apply Z.lxor_comm.
  - by rewrite !Z.lxor_assoc.
  - done.
Qed.

Lemma steps_lxor n x y : steps n (Z.lxor x y) = Z.lxor (steps n x) (steps n y).
Proof. induction n as [| n IH]; cbn [steps]; [done |]. by rewrite IH, crc_bit_linear. Qed.

Lemma steps_add n m x : steps (n + m) x = steps n (steps m x).
Proof. induction n as [| n IH]; cbn [steps Nat.add]; [done |]. by rewrite IH. Qed.

Lemma steps_shift n x : steps n (Z.shiftl x (Z.of_nat n)) = x.
Proof.
  induction n as [| n IH]; [apply Z.shiftl_0_r |]. rewrite Nat2Z.inj_succ, <- Z.add_1_r. replace (S n) with (n + 1)%nat by lia. rewrite steps_add. cbn [steps].
  replace (crc_bit (Z.shiftl x (Z.of_nat n + 1))) with (Z.shiftl x (Z.of_nat n)); [done |]. unfold crc_bit. rewrite <- Z.bit0_odd, Z.shiftl_spec_low, Z.shiftr_shiftl_l by lia. f_equal. lia.
Qed.

Lemma crc_bit_range x : 0 <= x < 2 ^ 32 -> 0 <= crc_bit x < 2 ^ 32.
Proof.
  intros Hx. unfold crc_bit. assert (0 <= Z.shiftr x 1 < 2 ^ 32) by (rewrite Z.shiftr_div_pow2 by lia; change (2 ^ 1) with 2; split; [apply Z.div_pos; lia | apply Z.div_lt_upper_bound; lia]).
  destruct (Z.odd x); [| done]. apply lxor_range; [lia | done | unfold POLY; lia].
Qed.

Lemma steps_range n x : 0 <= x < 2 ^ 32 -> 0 <= steps n x < 2 ^ 32.
Proof. intros Hx. induction n as [| n IH]; cbn [steps]; [done | by apply crc_bit_range]. Qed.

Lemma crc_bytes_app c l1 l2 : crc_bytes c (l1 ++ l2) = crc_bytes (crc_bytes c l1) l2.
Proof. apply foldl_app. Qed.

Lemma crc_bytes_range c l : 0 <= c < 2 ^ 32 -> Forall is_byte l -> 0 <= crc_bytes c l < 2 ^ 32.
Proof.
  intros Hc Hl. revert c Hc. induction Hl as [| b l Hb Hl IH]; intros c Hc; [done |]. cbn [crc_bytes foldl]. apply IH, steps_range, lxor_range; [lia | done |]. unfold is_byte in Hb. lia.
Qed.

(** Words and bytes. *)
Lemma add_lxor b w : is_byte b -> 0 <= w -> b + 256 * w = Z.lxor b (Z.shiftl w 8).
Proof.
  intros Hb Hw. unfold is_byte in Hb. rewrite <- Z.add_nocarry_lxor; [rewrite Z.shiftl_mul_pow2 by lia; lia |]. apply Z.bits_inj'. intros i Hi. rewrite Z.land_spec, Z.bits_0.
  destruct (Z.ltb_spec i 8); [rewrite Z.shiftl_spec_low, andb_false_r by lia; done |].
  rewrite (Z.bits_above_log2 b i); [done | lia |]. destruct (Z.eq_dec b 0) as [-> |]; [cbn; lia |]. apply (Z.lt_le_trans _ 8); [| lia]. apply Z.log2_lt_pow2; lia.
Qed.

Lemma low_byte x : 0 <= x -> x = Z.lxor (Z.land x 0xff) (Z.shiftl (Z.shiftr x 8) 8).
Proof.
  intros Hx. change 0xff with (Z.ones 8). rewrite Z.land_ones, Z.shiftr_div_pow2 by lia. change (2 ^ 8) with 256. rewrite <- add_lxor; [| apply Z.mod_pos_bound; lia | apply Z.div_pos; lia]. rewrite Z.add_comm. by apply Z.div_mod.
Qed.

(** The low byte comes out first. *)
Lemma steps_peel m k x : m = (k + 8)%nat -> 0 <= x -> steps m x = Z.lxor (steps m (Z.land x 0xff)) (steps k (Z.shiftr x 8)).
Proof.
  intros -> Hx. rewrite (low_byte x Hx) at 1. rewrite steps_lxor. f_equal. rewrite steps_add. f_equal. apply (steps_shift 8).
Qed.

Lemma crc_bytes_word l : Forall is_byte l -> forall c, crc_bytes c l = steps (8 * length l) (Z.lxor c (le_word l)).
Proof.
  induction 1 as [| b l Hb Hl IH]; intros c; [symmetry; apply Z.lxor_0_r |]. cbn [crc_bytes foldl le_word length]. change (foldl _ _ l) with (crc_bytes (steps 8 (Z.lxor c b)) l). rewrite IH.
  replace (8 * S (length l))%nat with (8 * length l + 8)%nat by lia. rewrite steps_add. f_equal. pose proof (le_word_range l Hl). rewrite add_lxor by (done || lia).
  rewrite <- Z.lxor_assoc, (steps_lxor 8 (Z.lxor c b)). f_equal. symmetry. apply (steps_shift 8).
Qed.

Lemma crc_bytes_split c l : Forall is_byte l -> crc_bytes c l = Z.lxor (steps (8 * length l) c) (crc_bytes 0 l).
Proof. intros Hl. rewrite !(crc_bytes_word l Hl), <- steps_lxor. do 2 f_equal. Qed.

(** ** The software version *)

Lemma table_spec k n : 0 <= k < 8 -> 0 <= n < 256 -> table_at crc32c_table k n = Ok (steps (Z.to_nat (8 * (k + 1))) n).
Proof.
  intros Hk Hn. assert (H : all_below 8 (fun k => all_below 256 (fun n => bool_decide (table_at crc32c_table k n = Ok (steps (Z.to_nat (8 * (k + 1))) n)))) = true) by (vm_compute; reflexivity).
  apply (all_below_spec _ _ H k) in Hk. apply (all_below_spec _ _ Hk n) in Hn. by apply bool_decide_eq_true in Hn.
Qed.

Lemma land_ff_range x : 0 <= Z.land x 0xff < 256.
Proof. change 0xff with (Z.ones 8). rewrite Z.land_ones by lia. apply Z.mod_pos_bound. lia. Qed.

Lemma land_char crc b : is_byte b -> Z.land (Z.lxor crc (char_word b)) 0xff = Z.land (Z.lxor crc b) 0xff.
Proof.
  intros Hb. change 0xff with (Z.ones 8). rewrite !Z.land_ones, !lxor_mod by lia. f_equal. unfold char_word, u64, is_byte in *. rewrite Z.mod_mod_divide by (by exists (2 ^ 56)). change (2 ^ 8) with 256.
  destruct (Z.ltb_spec b 128); [done |]. replace (b - 256) with (b + (-1) * 256) by lia. by rewrite Z.mod_add by lia.
Qed.

Lemma shiftr_byte crc b n : is_byte b -> 8 <= n -> Z.shiftr (Z.lxor crc b) n = Z.shiftr crc n.
Proof. intros Hb Hn. unfold is_byte in Hb. rewrite Z.shiftr_lxor. replace (Z.shiftr b n) with 0; [apply Z.lxor_0_r |]. symmetry. rewrite Z.shiftr_div_pow2 by lia. apply Z.div_small. assert (2 ^ 8 <= 2 ^ n) by (apply Z.pow_le_mono_r; lia). lia. Qed.

Lemma sw_byte_spec crc b : 0 <= crc -> is_byte b -> sw_byte crc b = Ok (steps 8 (Z.lxor crc b)).
Proof.
  intros Hc Hb. unfold sw_byte. rewrite land_char by done. pose proof (land_ff_range (Z.lxor crc b)). rewrite table_spec by lia. cbn [obind]. change (Z.to_nat (8 * (0 + 1))) with 8%nat.
  rewrite (steps_peel 8 0 (Z.lxor crc b)) by (done || apply Z.lxor_nonneg; unfold is_byte in Hb; lia). cbn [steps Nat.add]. by rewrite shiftr_byte by (done || lia).
Qed.

Lemma sw_word_spec crc w : 0 <= crc < 2 ^ 32 -> 0 <= w < 2 ^ 64 -> sw_word crc w = Ok (steps 64 (Z.lxor crc w)).
Proof.
  intros Hc Hw. unfold sw_word. set (x := Z.lxor crc w). assert (Hx : 0 <= x < 2 ^ 64) by (apply lxor_range; lia).
  assert (Hs : forall n, 0 <= Z.shiftr x n) by (intros n; apply Z.shiftr_nonneg; lia).
  assert (H56 : 0 <= Z.shiftr x 56 < 256) by (split; [apply Hs |]; rewrite Z.shiftr_div_pow2 by lia; apply Z.div_lt_upper_bound; lia).
  pose proof (land_ff_range x). pose proof (fun n => land_ff_range (Z.shiftr x n)) as Hl. rewrite !table_spec by (done || lia || apply Hl). cbn [obind]. f_equal.
 rewrite (steps_peel 64 56 x) by (done || lia). rewrite (steps_peel 56 48 (Z.shiftr x 8)), (Z.shiftr_shiftr x 8 8) by (done || lia).
  rewrite (steps_peel 48 40 (Z.shiftr x (8 + 8))), (Z.shiftr_shiftr x (8 + 8) 8) by (done || lia). rewrite (steps_peel 40 32 (Z.shiftr x (8 + 8 + 8))), (Z.shiftr_shiftr x (8 + 8 + 8) 8) by (done || lia).
  rewrite (steps_peel 32 24 (Z.shiftr x (8 + 8 + 8 + 8))), (Z.shiftr_shiftr x (8 + 8 + 8 + 8) 8) by (done || lia). rewrite (steps_peel 24 16 (Z.shiftr x (8 + 8 + 8 + 8 + 8))), (Z.shiftr_shiftr x (8 + 8 + 8 + 8 + 8) 8) by (done || lia).
  rewrite (steps_peel 16 8 (Z.shiftr x (8 + 8 + 8 + 8 + 8 + 8))), (Z.shiftr_shiftr x (8 + 8 + 8 + 8 + 8 + 8) 8) by (done || lia). by rewrite !Z.lxor_assoc.
Qed.

(** ** Loops over the buffer *)

Section Buffer.
Context (data : list Z) (Hdata : Forall is_byte data).

Definition part (p n : Z) : list Z := take (Z.to_nat n) (drop (Z.to_nat p) data).

Lemma slice_app p n m : 0 <= p -> 0 <= n -> 0 <= m -> part p (n + m) = part p n ++ part (p + n) m.
Proof using. intros. unfold part. rewrite Z2Nat.inj_add by lia. rewrite <- take_take_drop, drop_drop. by rewrite <- Z2Nat.inj_add by lia. Qed.

Lemma part_bytes p n : Forall is_byte (part p n).
Proof using Hdata. by apply Forall_take, Forall_drop. Qed.

Lemma length_part p n : 0 <= p -> 0 <= n -> p + n <= Z.of_nat (length data) -> length (part p n) = Z.to_nat n.
Proof using. intros. unfold part. rewrite length_take, length_drop. lia. Qed.

Lemma rd_slice p : 0 <= p < Z.of_nat (length data) -> exists b, rd data p = Ok b /\ is_byte b /\ part p 1 = [b].
Proof using Hdata.
  intros Hp. destruct (rd_in_range data p Hp) as (b & E & L). exists b. split; [done |]. split; [rewrite Forall_lookup in Hdata; by eapply Hdata |]. unfold part. by rewrite (drop_S _ _ _ L).
Qed.

(** A read of [n] bytes. *)
Lemma load_le_spec p n : 0 <= p -> p + Z.of_nat n <= Z.of_nat (length data) ->
  load_le data p n = Ok (le_word (part p (Z.of_nat n))) /\ 0 <= le_word (part p (Z.of_nat n)) < 2 ^ (8 * Z.of_nat n) /\
  forall c, steps (8 * n) (Z.lxor c (le_word (part p (Z.of_nat n)))) = crc_bytes c (part p (Z.of_nat n)).
Proof using Hdata.
  intros Hp Hn. pose proof (length_part p (Z.of_nat n) Hp ltac:(lia) Hn) as Hl. rewrite Nat2Z.id in Hl. pose proof (le_word_range _ (part_bytes p (Z.of_nat n))) as Hr. rewrite Hl in Hr. split; [| split; [done |]].
  - unfold load_le. destruct (Z.leb_spec 0 p), (Z.leb_spec (p + Z.of_nat n) (Z.of_nat (length data))); try lia. cbn [andb]. unfold part. by rewrite Nat2Z.id.
  - intros c. by rewrite (crc_bytes_word _ (part_bytes _ _)), Hl.
Qed.

(** The bytes from [p] to [p'] have been added to the checksum; [len] were
    left at [p] and [len'] are at [p']. *)
Record advances (p len c p' len' c' : Z) : Prop := {
  adv_order : 0 <= p <= p' /\ 0 <= len';
  adv_len : p + len = p' + len' /\ p + len <= Z.of_nat (length data);
  adv_crc : c' = crc_bytes c (part p (p' - p))
}.

Lemma advances_refl p len c : 0 <= p -> 0 <= len -> p + len <= Z.of_nat (length data) -> advances p len c p len c.
Proof using. intros. split; [lia | lia |]. by rewrite Z.sub_diag. Qed.

Lemma advances_trans p len c p1 len1 c1 p2 len2 c2 : advances p len c p1 len1 c1 -> advances p1 len1 c1 p2 len2 c2 -> advances p len c p2 len2 c2.
Proof using.
  intros [] []. split; [lia | lia |]. subst c2 c1. rewrite <- crc_bytes_app. f_equal. replace (p2 - p) with ((p1 - p) + (p2 - p1)) by lia. rewrite slice_app by lia. by replace (p + (p1 - p)) with p1 by lia.
Qed.

Lemma advances_by p len c n : 0 <= p -> 0 <= n <= len -> p + len <= Z.of_nat (length data) -> advances p len c (p + n) (len - n) (crc_bytes c (part p n)).
Proof using. intros. split; [lia | lia |]. by replace (p + n - p) with n by lia. Qed.

Lemma advances_range p len c p' len' c' : advances p len c p' len' c' -> 0 <= c < 2 ^ 32 -> 0 <= c' < 2 ^ 32.
Proof using Hdata. intros [_ _ ->] Hc. by apply crc_bytes_range, part_bytes. Qed.

Section Bytes.
Context (step : Z -> Z -> outcome Z) (Hstep : forall c b, 0 <= c < 2 ^ 32 -> is_byte b -> step c b = Ok (steps 8 (Z.lxor c b))).

Lemma bytes_loop_spec all addr fuel : forall p len c, 0 <= c < 2 ^ 32 -> 0 <= p -> 0 <= len <= Z.of_nat fuel -> p + len <= Z.of_nat (length data) ->
  exists p' len' c', bytes_loop step all addr data fuel p len c = Ok (p', len', c') /\ advances p len c p' len' c' /\ (all = true -> len' = 0).
Proof using Hstep Hdata.
  induction fuel as [| fuel IH]; intros p len c Hc Hp Hl Hd; cbn [bytes_loop].
  - assert (len = 0) as -> by lia. cbn [Z.eqb negb andb]. exists p, 0, c. split; [done |]. split; [apply advances_refl; lia | done].
  - destruct (Z.eqb_spec len 0) as [-> | Hne]; cbn [negb andb]; [exists p, 0, c; split; [done |]; split; [apply advances_refl; lia | done] |].
    destruct (all || _) eqn:Ea; [| exists p, len, c; split; [done |]; split; [apply advances_refl; lia | intros ->; done]].
    destruct (rd_slice p) as (b & -> & Hb & Es); [lia |]. cbn [obind]. rewrite Hstep by done. cbn [obind].
    pose proof (advances_by p len c 1 Hp ltac:(lia) Hd) as A. rewrite Es in A. cbn [crc_bytes foldl] in A.
    destruct (IH (p + 1) (len - 1) (steps 8 (Z.lxor c b))) as (p' & len' & c' & E & B & H0); [by apply (advances_range _ _ _ _ _ _ A) | lia | lia | lia |].
    exists p', len', c'. split; [done |]. split; [by eapply advances_trans | done].
Qed.
End Bytes.

Lemma sw_words_spec fuel : forall p len c, 0 <= c < 2 ^ 32 -> 0 <= p -> 0 <= len <= Z.of_nat fuel -> p + len <= Z.of_nat (length data) ->
  exists p' len' c', sw_words data fuel p len c = Ok (p', len', c') /\ advances p len c p' len' c'.
Proof using Hdata.
  induction fuel as [| fuel IH]; intros p len c Hc Hp Hl Hd; cbn [sw_words]; (destruct (Z.leb_spec 8 len); [| exists p, len, c; split; [done |]; apply advances_refl; lia]); [lia |].
  destruct (load_le_spec p 8 Hp ltac:(lia)) as (-> & Hw & Hs). cbn [obind]. rewrite sw_word_spec by done. cbn [obind]. change 64%nat with (8 * 8)%nat. rewrite Hs.
  pose proof (advances_by p len c 8 Hp ltac:(lia) Hd) as A. destruct (IH (p + 8) (len - 8) (crc_bytes c (part p 8))) as (p' & len' & c' & E & B); [by apply (advances_range _ _ _ _ _ _ A) | lia | lia | lia |].
  exists p', len', c'. split; [done |]. by eapply advances_trans.
Qed.

(** The whole buffer has been added. *)
Lemma advances_all len crc p' c' : 0 <= crc < 2 ^ 32 -> advances 0 len (Z.lxor crc 0xffffffff) p' 0 c' -> Z.lxor (u32 c') 0xffffffff = crc32c_ref crc (take (Z.to_nat len) data).
Proof using Hdata.
  intros Hc A. assert (0 <= Z.lxor crc 0xffffffff < 2 ^ 32) as Hx by (apply lxor_range; lia). pose proof (advances_range _ _ _ _ _ _ A Hx). rewrite u32_small by done.
  destruct A as [_ [Hl _] ->]. unfold crc32c_ref. do 2 f_equal. unfold part. cbn. rewrite drop_0. f_equal. lia.
Qed.

Lemma crc32c_sw_ref addr crc len : 0 <= crc < 2 ^ 32 -> 0 <= len <= Z.of_nat (length data) -> jl_crc32c_sw addr crc data len = Ok (crc32c_ref crc (take (Z.to_nat len) data)).
Proof using Hdata.
  intros Hc Hl. unfold jl_crc32c_sw. assert (0 <= Z.lxor crc 0xffffffff < 2 ^ 32) as Hx by (apply lxor_range; lia).
  assert (Hst : forall c b, 0 <= c < 2 ^ 32 -> is_byte b -> sw_byte c b = Ok (steps 8 (Z.lxor c b))) by (intros; apply sw_byte_spec; [lia | done]).
  destruct (bytes_loop_spec sw_byte Hst false addr (length data) 0 len (Z.lxor crc 0xffffffff)) as (p1 & l1 & c1 & -> & A1 & _); [done | lia | lia | lia |]. cbn [obind].
  pose proof (advances_range _ _ _ _ _ _ A1 Hx) as H1. destruct (sw_words_spec (length data) p1 l1 c1) as (p2 & l2 & c2 & -> & A2); [done | destruct A1; lia.. |]. cbn [obind].
  pose proof (advances_range _ _ _ _ _ _ A2 H1) as H2. destruct (bytes_loop_spec sw_byte Hst true addr (length data) p2 l2 c2) as (p3 & l3 & c3 & -> & A3 & H0); [done | destruct A1, A2; lia.. |]. cbn [obind].
  rewrite (H0 eq_refl) in A3. f_equal. apply (advances_all len crc p3); [done |]. eapply advances_trans; [| done]. by eapply advances_trans.
Qed.
End Buffer.

(** ** Zeros operators *)

Definition keeps32 (F : Z -> Z) : Prop := forall x, 0 <= x < 2 ^ 32 -> 0 <= F x < 2 ^ 32.

(** The matrix of a linear function: its values on the powers of two. *)
Definition mat_of (F : Z -> Z) : list Z := map (fun n => F (2 ^ n)) (seqZ 0 32).

Lemma shiftl_odd v j : 0 <= j -> Z.shiftl v j = Z.lxor (if Z.odd v then 2 ^ j else 0) (Z.shiftl (Z.shiftr v 1) (j + 1)).
Proof.
  intros Hj. apply Z.bits_inj'. intros i Hi. rewrite Z.lxor_spec. destruct (Z.ltb_spec i j); [| destruct (Z.eqb_spec i j) as [-> |]].
  - rewrite !Z.shiftl_spec_low by lia. destruct (Z.odd v); [by rewrite Z.pow2_bits_false by lia | by rewrite Z.bits_0].
  - rewrite (Z.shiftl_spec_low _ (j + 1)), Z.shiftl_spec, Z.sub_diag, Z.bit0_odd by lia. destruct (Z.odd v); [by rewrite Z.pow2_bits_true by lia | by rewrite Z.bits_0].
  - rewrite !Z.shiftl_spec, Z.shiftr_spec by lia. replace (i - (j + 1) + 1) with (i - j) by lia. destruct (Z.odd v); [rewrite Z.pow2_bits_false by lia | rewrite Z.bits_0]; by destruct (Z.testbit v (i - j)).
Qed.

Lemma gf2_matrix_times_spec F (HF : linear F) n : forall j vec sum, 0 <= j -> 0 <= vec < 2 ^ Z.of_nat n ->
  gf2_matrix_times (map (fun n => F (2 ^ n)) (seqZ j (Z.of_nat n))) vec n sum = Ok (Z.lxor sum (F (Z.shiftl vec j))).
Proof.
  induction n as [| n IH]; intros j vec sum Hj Hv; cbn [gf2_matrix_times].
  - assert (vec = 0) as -> by (cbn in Hv; lia). cbn [Z.eqb]. by rewrite Z.shiftl_0_l, (linear_0 F HF), Z.lxor_0_r.
  - destruct (Z.eqb_spec vec 0) as [-> |]; [by rewrite Z.shiftl_0_l, (linear_0 F HF), Z.lxor_0_r |]. rewrite seqZ_cons by lia. cbn [map]. replace (Z.pred (Z.of_nat (S n))) with (Z.of_nat n) by lia.
    rewrite Nat2Z.inj_succ, Z.pow_succ_r in Hv by lia. replace (Z.succ j) with (j + 1) by lia.
    rewrite IH; [| lia | rewrite Z.shiftr_div_pow2 by lia; change (2 ^ 1) with 2; split; [apply Z.div_pos; lia | apply Z.div_lt_upper_bound; lia]].
    f_equal. rewrite (shiftl_odd vec j Hj), HF. destruct (Z.odd vec); [apply Z.lxor_assoc | by rewrite (linear_0 F HF), Z.lxor_0_l].
Qed.

Lemma gf2_times_spec F vec : linear F -> 0 <= vec < 2 ^ 32 -> gf2_times (mat_of F) vec = Ok (F vec).
Proof. intros HF Hv. unfold gf2_times, mat_of. change 32 with (Z.of_nat 32) at 1. rewrite gf2_matrix_times_spec by (done || lia). by rewrite Z.lxor_0_l, Z.shiftl_0_r. Qed.

(** Mapping a total function over a list. *)
Lemma foldr_map (g : Z -> outcome Z) (f : Z -> Z) l : (forall x, x ∈ l -> g x = Ok (f x)) ->
  foldr (fun x acc => let! acc := acc in let! y := g x in Ok (y :: acc)) (Ok []) l = Ok (map f l).
Proof. induction l as [| x l IH]; intros H; cbn [foldr map]; [done |]. rewrite IH by (intros; apply H; by right). cbn [obind]. by rewrite H by left. Qed.

Lemma pow2_range n : 0 <= n < 32 -> 0 <= 2 ^ n < 2 ^ 32.
Proof. intros Hn. split; [apply Z.pow_nonneg; lia | apply Z.pow_lt_mono_r; lia]. Qed.

Lemma gf2_matrix_square_spec F : linear F -> keeps32 F -> gf2_matrix_square (mat_of F) = Ok (mat_of (fun x => F (F x))).
Proof.
  intros HF Hk. unfold gf2_matrix_square. rewrite (foldr_map (gf2_times (mat_of F)) F).
  - unfold mat_of. by rewrite map_map.
  - intros x (n & -> & Hn)%list_elem_of_fmap. apply elem_of_seqZ in Hn. apply gf2_times_spec; [done |]. apply Hk, pow2_range. lia.
Qed.

Lemma mat_of_ext F G : (forall x, F x = G x) -> mat_of F = mat_of G.
Proof. intros H. unfold mat_of. apply map_ext. intros n. apply H. Qed.

Lemma square_steps n : gf2_matrix_square (mat_of (steps n)) = Ok (mat_of (steps (2 * n))).
Proof.
  rewrite gf2_matrix_square_spec; [| intros x y; apply steps_lxor | intros x; apply steps_range]. f_equal. apply mat_of_ext. intros x. rewrite <- steps_add. f_equal. lia.
Qed.

Lemma zeros_loop_spec fuel : forall m k, (k < 2 * fuel)%nat -> zeros_loop fuel (mat_of (steps m)) (2 ^ Z.of_nat k) = Ok (mat_of (steps (2 * m * 2 ^ k))).
Proof.
  induction fuel as [| fuel IH]; intros m k Hk; [lia |]. cbn [zeros_loop]. rewrite square_steps. cbn [obind]. rewrite !Z.shiftr_div_pow2 by lia. change (2 ^ 1) with 2. destruct k as [| [| k]].
  - cbn [Z.of_nat Z.pow Z.pow_pos]. change (1 / 2 =? 0) with true. cbn iota. do 3 f_equal. cbn. lia.
  - change (2 ^ Z.of_nat 1 / 2 =? 0) with false. cbn iota. rewrite square_steps. cbn [obind]. change (2 ^ Z.of_nat 1 / 2 / 2 =? 0) with true. cbn iota. do 3 f_equal. cbn. lia.
  - assert (E : 2 ^ Z.of_nat (S (S k)) = 2 ^ Z.of_nat k * 2 * 2) by (rewrite !Nat2Z.inj_succ, !Z.pow_succ_r by lia; lia). rewrite E, !Z.div_mul by lia. assert (0 < 2 ^ Z.of_nat k) by (apply Z.pow_pos_nonneg; lia).
    destruct (Z.eqb_spec (2 ^ Z.of_nat k * 2) 0); [lia |]. rewrite square_steps. cbn [obind]. destruct (Z.eqb_spec (2 ^ Z.of_nat k) 0); [lia |]. rewrite IH by lia. do 3 f_equal. cbn [Nat.pow]. lia.
Qed.

Lemma crc32c_zeros_op_spec k : (k < 64)%nat -> crc32c_zeros_op (2 ^ Z.of_nat k) = Ok (mat_of (steps (8 * 2 ^ k))).
Proof.
  intros Hk. unfold crc32c_zeros_op. assert (POLY :: map (fun n => Z.shiftl 1 (n - 1)) (seqZ 1 31) = mat_of (steps 1)) as -> by (vm_compute; reflexivity).
  rewrite square_steps. cbn [obind]. rewrite square_steps. cbn [obind]. rewrite zeros_loop_spec by lia. done.
Qed.

Lemma zeros_row_spec m shift : 0 <= shift <= 24 -> zeros_row (mat_of (steps m)) shift = Ok (map (fun n => steps m (Z.shiftl n shift)) (seqZ 0 256)).
Proof.
  intros Hs. unfold zeros_row. apply foldr_map. intros n Hn%elem_of_seqZ. assert (Hr : 0 <= Z.shiftl n shift < 2 ^ 32).
  { rewrite Z.shiftl_mul_pow2 by lia. assert (1 <= 2 ^ shift <= 2 ^ 24) by (split; [apply (Z.pow_le_mono_r 2 0); lia | apply Z.pow_le_mono_r; lia]). nia. }
  rewrite u32_small by done. apply gf2_times_spec; [intros x y; apply steps_lxor | done].
Qed.

(** The tables for [2 ^ k] zero bytes. *)
Definition zeros_tables (m : nat) : list (list Z) := map (fun s => map (fun n => steps m (Z.shiftl n s)) (seqZ 0 256)) [0; 8; 16; 24].

Lemma crc32c_zeros_spec k : (k < 64)%nat -> crc32c_zeros (2 ^ Z.of_nat k) = Ok (zeros_tables (8 * 2 ^ k)).
Proof. intros Hk. unfold crc32c_zeros. rewrite crc32c_zeros_op_spec by done. cbn [obind]. rewrite !zeros_row_spec by lia. done. Qed.

Lemma table_at_zeros m j n : 0 <= j < 4 -> 0 <= n < 256 -> table_at (zeros_tables m) j n = Ok (steps m (Z.shiftl n (8 * j))).
Proof.
  intros Hj Hn. assert (Hrow : forall s, rd (map (fun n => steps m (Z.shiftl n s)) (seqZ 0 256)) n = Ok (steps m (Z.shiftl n s))).
  { intros s. apply rd_lookup. split; [lia |]. change (map ?f ?l) with (f <$> l). rewrite list_lookup_fmap, lookup_seqZ_lt by lia. cbn [fmap option_fmap option_map]. by rewrite Z2Nat.id, Z.add_0_l by lia. }
  unfold table_at. assert (j = 0 \/ j = 1 \/ j = 2 \/ j = 3) as [-> | [-> | [-> | ->]]] by lia; apply Hrow.
Qed.

Lemma steps_bytes4 m c : 0 <= c ->
  steps m c = Z.lxor (Z.lxor (Z.lxor (steps m (Z.land c 0xff)) (steps m (Z.shiftl (Z.land (Z.shiftr c 8) 0xff) 8))) (steps m (Z.shiftl (Z.land (Z.shiftr c 16) 0xff) 16))) (steps m (Z.shiftl (Z.shiftr c 24) 24)).
Proof.
  intros Hc. rewrite <- !steps_lxor. f_equal. assert (Hs : forall n, 0 <= n -> Z.shiftl (Z.shiftr c n) n = Z.lxor (Z.shiftl (Z.land (Z.shiftr c n) 0xff) n) (Z.shiftl (Z.shiftr c (n + 8)) (n + 8))).
  { intros n Hn. rewrite (low_byte (Z.shiftr c n)) at 1 by (by apply Z.shiftr_nonneg). rewrite Z.shiftl_lxor, Z.shiftr_shiftr, Z.shiftl_shiftl by lia. by replace (8 + n) with (n + 8) by lia. }
  rewrite (low_byte c Hc) at 1. rewrite (Hs 8), (Hs (8 + 8)) by lia. by rewrite !Z.lxor_assoc.
Qed.

Lemma crc32c_shift_spec m c : 0 <= c < 2 ^ 32 -> crc32c_shift (zeros_tables m) c = Ok (steps m c).
Proof.
  intros Hc. unfold crc32c_shift. pose proof (land_ff_range c). pose proof (fun n => land_ff_range (Z.shiftr c n)) as Hl.
  assert (0 <= Z.shiftr c 24 < 256) by (rewrite Z.shiftr_div_pow2 by lia; split; [apply Z.div_pos; lia | apply Z.div_lt_upper_bound; lia]).
  rewrite !table_at_zeros by (done || lia || apply Hl). cbn [obind]. rewrite (steps_bytes4 m c) by lia. by rewrite Z.shiftl_0_r.
Qed.

Lemma ok_pair_inj {A B} (a a' : A) (b b' : B) : Ok (a, b) = Ok (a', b') -> a' = a /\ b' = b.
Proof. by intros [= <- <-]. Qed.

(** The tables of the source are the generated ones. *)
Lemma init_hw_tables : crc32c_init_hw = Ok (crc32c_long, crc32c_short).
Proof. vm_compute. reflexivity. Qed.

Lemma block_sizes : LONG = 2 ^ Z.of_nat 13 /\ SHORT = 2 ^ Z.of_nat 8.
Proof. done. Qed.

Lemma init_hw_spec : crc32c_init_hw = Ok (zeros_tables (8 * 2 ^ 13), zeros_tables (8 * 2 ^ 8)).
Proof.
  unfold crc32c_init_hw. destruct block_sizes as [-> ->]. rewrite (crc32c_zeros_spec 13), (crc32c_zeros_spec 8) by lia. cbn [obind]. reflexivity.
Qed.

Lemma long_tables : crc32c_long = zeros_tables (8 * 2 ^ 13) /\ crc32c_short = zeros_tables (8 * 2 ^ 8).
Proof. apply ok_pair_inj. rewrite <- init_hw_spec. apply init_hw_tables. Qed.

Lemma to_nat_pow2 n : Z.to_nat (2 ^ Z.of_nat n) = (2 ^ n)%nat.
Proof. rewrite <- (Nat2Z.id (2 ^ n)), Nat2Z.inj_pow. done. Qed.

Lemma shift_long c : 0 <= c < 2 ^ 32 -> crc32c_shift crc32c_long c = Ok (steps (8 * Z.to_nat LONG) c).
Proof.
  intros Hc. destruct long_tables as [-> _]. rewrite crc32c_shift_spec by done. destruct block_sizes as [-> _]. by rewrite (to_nat_pow2 13).
Qed.
Lemma shift_short c : 0 <= c < 2 ^ 32 -> crc32c_shift crc32c_short c = Ok (steps (8 * Z.to_nat SHORT) c).
Proof.
  intros Hc. destruct long_tables as [_ ->]. rewrite crc32c_shift_spec by done. destruct block_sizes as [_ ->]. by rewrite (to_nat_pow2 8).
Qed.

(** ** The versions for crc instructions *)

Section Hardware.
Context (crc32q crc32w crc32h crc32b : Z -> Z -> Z).
(** The instructions append their operand to the checksum; that for a byte
    ignores the other bits. *)
Hypothesis Hq : forall c w, 0 <= c < 2 ^ 32 -> 0 <= w < 2 ^ 64 -> crc32q c w = steps 64 (Z.lxor c w).
Hypothesis Hw : forall c w, 0 <= c < 2 ^ 32 -> 0 <= w < 2 ^ 32 -> crc32w c w = steps 32 (Z.lxor c w).
Hypothesis Hh : forall c w, 0 <= c < 2 ^ 32 -> 0 <= w < 2 ^ 16 -> crc32h c w = steps 16 (Z.lxor c w).
Hypothesis Hb : forall c w, 0 <= c < 2 ^ 32 -> 0 <= w < 2 ^ 32 -> crc32b c w = steps 8 (Z.lxor c (Z.land w 0xff)).
Context (data : list Z) (Hdata : Forall is_byte data).
Local Notation part := (part data) (only parsing).

Lemma land_ff_byte b : is_byte b -> Z.land b 0xff = b.
Proof using. intros H. change 0xff with (Z.ones 8). rewrite Z.land_ones by lia. apply Z.mod_small. exact H. Qed.

Lemma q_step p c : 0 <= c < 2 ^ 32 -> 0 <= p -> p + 8 <= Z.of_nat (length data) ->
  exists w, load_le data p 8 = Ok w /\ crc32q c w = crc_bytes c (part p 8).
Proof using Hq Hdata.
  intros Hc Hp Hl. destruct (load_le_spec data Hdata p 8 Hp Hl) as (E & Hr & Hs). eexists. split; [done |]. rewrite Hq by done. change 64%nat with (8 * 8)%nat. apply Hs.
Qed.

Lemma slice_step p n : 0 <= p -> 8 <= n -> part p n = part p 8 ++ part (p + 8) (n - 8).
Proof using. intros Hp Hn. rewrite <- slice_app by lia. f_equal. lia. Qed.

Lemma three_way_spec size fuel : forall p end_ c0 c1 c2, 0 <= c0 < 2 ^ 32 -> 0 <= c1 < 2 ^ 32 -> 0 <= c2 < 2 ^ 32 -> 0 <= p < end_ -> (8 | end_ - p) -> end_ - p <= 8 * (Z.of_nat fuel + 1) ->
  0 <= size -> end_ + size * 2 <= Z.of_nat (length data) ->
  three_way crc32q data size fuel p end_ c0 c1 c2 = Ok (end_, crc_bytes c0 (part p (end_ - p)), crc_bytes c1 (part (p + size) (end_ - p)), crc_bytes c2 (part (p + size * 2) (end_ - p))).
Proof using Hq Hdata.
  induction fuel as [| fuel IH]; intros p end_ c0 c1 c2 H0 H1 H2 Hp [q Hdiv] Hf Hs Hl; cbn [three_way];
    (destruct (q_step p c0 H0) as (w0 & -> & E0); [lia | lia |]); (destruct (q_step (p + size) c1 H1) as (w1 & -> & E1); [lia | lia |]); (destruct (q_step (p + size * 2) c2 H2) as (w2 & -> & E2); [lia | lia |]); cbn [obind]; rewrite E0, E1, E2.
  - assert (end_ = p + 8) as -> by lia. rewrite Z.ltb_irrefl. by replace (p + 8 - p) with 8 by lia.
  - destruct (Z.ltb_spec (p + 8) end_) as [Hlt |]; [| assert (end_ = p + 8) as -> by lia; by replace (p + 8 - p) with 8 by lia].
    rewrite IH; try lia; [| by apply crc_bytes_range, part_bytes.. | exists (q - 1); lia]. rewrite !(slice_step _ (end_ - p)) by lia. rewrite !crc_bytes_app. replace (end_ - p - 8) with (end_ - (p + 8)) by lia.
    by replace (p + 8 + size) with (p + size + 8) by lia; replace (p + 8 + size * 2) with (p + size * 2 + 8) by lia.
Qed.

Lemma crc_bytes_shift c p n : 0 <= p -> 0 <= n -> p + n <= Z.of_nat (length data) -> Z.lxor (steps (8 * Z.to_nat n) c) (crc_bytes 0 (part p n)) = crc_bytes c (part p n).
Proof using Hdata. intros Hp Hn Hl. rewrite (crc_bytes_split c) by (by apply part_bytes). by rewrite length_part by done. Qed.

Lemma three_way_blocks_spec zeros size fuel : 0 < size -> (8 | size) -> (forall c, 0 <= c < 2 ^ 32 -> crc32c_shift zeros c = Ok (steps (8 * Z.to_nat size) c)) ->
  forall p len c, 0 <= c < 2 ^ 32 -> 0 <= p -> 0 <= len <= Z.of_nat fuel -> p + len <= Z.of_nat (length data) ->
  exists p' len' c', three_way_blocks crc32q zeros data size fuel p len c = Ok (p', len', c') /\ advances data p len c p' len' c'.
Proof using Hq Hdata.
  intros Hs Hdiv Hz. induction fuel as [| fuel IH]; intros p len c Hc Hp Hl Hd; cbn [three_way_blocks]; (destruct (Z.leb_spec (size * 3) len); [| exists p, len, c; split; [done |]; apply advances_refl; lia]); [lia |].
  assert (Hr : forall c p n, 0 <= c < 2 ^ 32 -> 0 <= crc_bytes c (part p n) < 2 ^ 32) by (intros; by apply crc_bytes_range, part_bytes).
  rewrite three_way_spec; try lia; [| by replace (p + size - p) with size by lia]. cbn [obind]. replace (p + size - p) with size by lia. rewrite u32_small, Hz by (by apply Hr). cbn [obind].
  rewrite crc_bytes_shift by lia. rewrite u32_small, Hz by (by do 2 apply Hr). cbn [obind]. rewrite crc_bytes_shift by lia.
  assert (A : advances data p len c (p + size + size * 2) (len - size * 3) (crc_bytes (crc_bytes (crc_bytes c (part p size)) (part (p + size) size)) (part (p + size * 2) size))).
  { split; [lia | lia |]. rewrite <- !crc_bytes_app. f_equal. replace (p + size + size * 2 - p) with (size + (size + size)) by lia. rewrite !slice_app by lia. rewrite ?app_assoc. by replace (p + size * 2) with (p + size + size) by lia. }
  destruct (IH (p + size + size * 2) (len - size * 3) (crc_bytes (crc_bytes (crc_bytes c (part p size)) (part (p + size) size)) (part (p + size * 2) size))) as (p' & len' & c' & E & B); [by apply Hr, Hr, Hr | lia | lia | lia |].
  exists p', len', c'. split; [done |]. by eapply advances_trans.
Qed.

Lemma hw_words_spec fuel : forall p end_ c, 0 <= c < 2 ^ 32 -> 0 <= p <= end_ -> (8 | end_ - p) -> end_ - p <= Z.of_nat fuel -> end_ <= Z.of_nat (length data) ->
  hw_words crc32q data fuel p end_ c = Ok (end_, crc_bytes c (part p (end_ - p))).
Proof using Hq Hdata.
  induction fuel as [| fuel IH]; intros p end_ c Hc Hp [q Hdiv] Hf Hl; cbn [hw_words]; (destruct (Z.ltb_spec p end_) as [Hlt |]; [| assert (end_ = p) as -> by lia; by rewrite Z.sub_diag]); [lia |].
  destruct (q_step p c Hc) as (w & -> & Ew); [lia | lia |]. cbn [obind]. rewrite Ew, IH; try lia; [| by apply crc_bytes_range, part_bytes | exists (q - 1); lia].
  rewrite (slice_step p (end_ - p)), crc_bytes_app by lia. by replace (end_ - p - 8) with (end_ - (p + 8)) by lia.
Qed.

Lemma land_7 len : 0 <= len -> 0 <= Z.land len 7 < 8 /\ Z.land len 7 <= len /\ (8 | len - Z.land len 7).
Proof using.
  intros Hl. change 7 with (Z.ones 3). rewrite Z.land_ones by lia. change (2 ^ 3) with 8. pose proof (Z.mod_pos_bound len 8 ltac:(lia)). pose proof (Z.div_mod len 8 ltac:(lia)). pose proof (Z.div_pos len 8 Hl ltac:(lia)).
  split; [lia |]. split; [lia |]. exists (len / 8). lia.
Qed.

Lemma sse42_ref addr crc len : 0 <= crc < 2 ^ 32 -> 0 <= len <= Z.of_nat (length data) -> crc32c_sse42 crc32q crc32b addr crc data len = Ok (crc32c_ref crc (take (Z.to_nat len) data)).
Proof using Hq Hb Hdata.
  intros Hc Hl. unfold crc32c_sse42. assert (0 <= Z.lxor crc 0xffffffff < 2 ^ 32) as Hx by (apply lxor_range; lia).
  assert (Hst : forall c b, 0 <= c < 2 ^ 32 -> is_byte b -> Ok (crc32b c b) = Ok (steps 8 (Z.lxor c b))) by (intros c b ? Hbb; rewrite Hb, land_ff_byte by (done || unfold is_byte in Hbb; lia); done).
  destruct (bytes_loop_spec data Hdata _ Hst false addr (length data) 0 len (Z.lxor crc 0xffffffff)) as (p1 & l1 & c1 & -> & A1 & _); [done | lia | lia | lia |]. cbn [obind].
  pose proof (advances_range _ Hdata _ _ _ _ _ _ A1 Hx) as H1. destruct (three_way_blocks_spec crc32c_long LONG (length data) ltac:(done) ltac:(by exists 1024) shift_long p1 l1 c1) as (p2 & l2 & c2 & -> & A2); [done | destruct A1; lia.. |]. cbn [obind].
  pose proof (advances_range _ Hdata _ _ _ _ _ _ A2 H1) as H2. destruct (three_way_blocks_spec crc32c_short SHORT (length data) ltac:(done) ltac:(by exists 32) shift_short p2 l2 c2) as (p3 & l3 & c3 & -> & A3); [done | destruct A1, A2; lia.. |]. cbn [obind].
  pose proof (advances_range _ Hdata _ _ _ _ _ _ A3 H2) as H3. destruct (land_7 l3) as (L1 & L2 & L3); [destruct A3; lia |].
  rewrite hw_words_spec; [| done | destruct A1, A2, A3; lia | by replace (p3 + (l3 - Z.land l3 7) - p3) with (l3 - Z.land l3 7) by lia | destruct A1, A2, A3; lia..]. cbn [obind].
  set (n := l3 - Z.land l3 7) in *. replace (p3 + n - p3) with n by lia. pose proof (advances_by data p3 l3 c3 n ltac:(destruct A1, A2, A3; lia) ltac:(lia) ltac:(destruct A1, A2, A3; lia)) as A4. replace (l3 - n) with (Z.land l3 7) in A4 by lia.
  pose proof (advances_range _ Hdata _ _ _ _ _ _ A4 H3) as H4. destruct (bytes_loop_spec data Hdata _ Hst true addr (length data) (p3 + n) (Z.land l3 7) (crc_bytes c3 (part p3 n))) as (p5 & l5 & c5 & -> & A5 & H0); [done | destruct A1, A2, A3, A4; lia.. |]. cbn [obind].
  rewrite (H0 eq_refl) in A5. f_equal. apply (advances_all data Hdata len crc p5); [done |]. eapply advances_trans; [| done]. eapply advances_trans; [| done]. eapply advances_trans; [| done]. by eapply advances_trans.
Qed.

Lemma two_way_spec size fuel : forall p end_ c0 c1, 0 <= c0 < 2 ^ 32 -> 0 <= c1 < 2 ^ 32 -> 0 <= p < end_ -> (8 | end_ - p) -> end_ - p <= 8 * (Z.of_nat fuel + 1) ->
  0 <= size -> end_ + size <= Z.of_nat (length data) ->
  two_way crc32q data size fuel p end_ c0 c1 = Ok (end_, crc_bytes c0 (part p (end_ - p)), crc_bytes c1 (part (p + size) (end_ - p))).
Proof using Hq Hdata.
  induction fuel as [| fuel IH]; intros p end_ c0 c1 H0 H1 Hp [q Hdiv] Hf Hs Hl; cbn [two_way];
    (destruct (q_step p c0 H0) as (w0 & -> & E0); [lia | lia |]); (destruct (q_step (p + size) c1 H1) as (w1 & -> & E1); [lia | lia |]); cbn [obind]; rewrite E0, E1.
  - assert (end_ = p + 8) as -> by lia. rewrite Z.ltb_irrefl. by replace (p + 8 - p) with 8 by lia.
  - destruct (Z.ltb_spec (p + 8) end_) as [Hlt |]; [| assert (end_ = p + 8) as -> by lia; by replace (p + 8 - p) with 8 by lia].
    rewrite IH; try lia; [| by apply crc_bytes_range, part_bytes.. | exists (q - 1); lia]. rewrite !(slice_step _ (end_ - p)) by lia. rewrite !crc_bytes_app. replace (end_ - p - 8) with (end_ - (p + 8)) by lia.
    by replace (p + 8 + size) with (p + size + 8) by lia.
Qed.

Lemma two_way_block_spec p len c : 0 <= c < 2 ^ 32 -> 0 <= p -> 0 <= len -> p + len <= Z.of_nat (length data) ->
  exists p' len' c', two_way_block crc32q data p len c = Ok (p', len', c') /\ advances data p len c p' len' c'.
Proof using Hq Hdata.
  intros Hc Hp Hl Hd. unfold two_way_block. destruct (Z.leb_spec (SHORT * 2) len) as [Hs |]; [| exists p, len, c; split; [done |]; apply advances_refl; lia]. change SHORT with 256 in *.
  rewrite two_way_spec; try lia; [| exists 32; lia]. cbn [obind]. replace (p + 256 - p) with 256 by lia. pose proof (shift_short (crc_bytes c (part p 256))) as Hsh. change SHORT with 256 in Hsh.
  rewrite Hsh by (by apply crc_bytes_range, part_bytes). cbn [obind]. rewrite crc_bytes_shift by lia. eexists _, _, _. split; [done |]. split; [lia | lia |].
  rewrite <- crc_bytes_app. f_equal. replace (p + 256 + 256 - p) with (256 + 256) by lia. by rewrite slice_app by lia.
Qed.

Lemma arm_words_spec fuel : forall p rem c, 0 <= c < 2 ^ 32 -> 0 <= p -> 0 <= rem <= Z.of_nat fuel -> p + rem <= Z.of_nat (length data) ->
  exists p' c', arm_words crc32q data fuel p (p + rem - 8) c = Ok (p', c') /\ advances data p rem c p' (Z.land rem 7) c'.
Proof using Hq Hdata.
  assert (Hsmall : forall r, 0 <= r < 8 -> Z.land r 7 = r) by (intros r Hr; change 7 with (Z.ones 3); rewrite Z.land_ones by lia; by apply Z.mod_small).
  induction fuel as [| fuel IH]; intros p rem c Hc Hp Hr Hl; cbn [arm_words]; (destruct (Z.leb_spec p (p + rem - 8)) as [Hle |]; [| exists p, c; split; [done |]; rewrite Hsmall by lia; apply advances_refl; lia]); [lia |].
  destruct (q_step p c Hc) as (w & -> & Ew); [lia | lia |]. cbn [obind]. rewrite Ew. replace (p + rem - 8) with (p + 8 + (rem - 8) - 8) by lia. pose proof (advances_by data p rem c 8 Hp ltac:(lia) Hl) as A.
  destruct (IH (p + 8) (rem - 8) (crc_bytes c (part p 8))) as (p' & c' & E & B); [by apply crc_bytes_range, part_bytes | lia | lia | lia |]. exists p', c'. split; [done |].
  assert (Z.land (rem - 8) 7 = Z.land rem 7) as E7. { change 7 with (Z.ones 3). rewrite !Z.land_ones by lia. replace (rem - 8) with (rem + (-1) * 2 ^ 3) by lia. by rewrite Z.mod_add by lia. }
  rewrite E7 in B. by eapply advances_trans.
Qed.

(** One of the last reads, of [k] bytes. *)
Lemma tail_step instr k kz (bit : bool) p len c : Z.of_nat k = kz -> (forall c w, 0 <= c < 2 ^ 32 -> 0 <= w < 2 ^ (8 * Z.of_nat k) -> instr c w = steps (8 * k) (Z.lxor c w)) ->
  0 <= c < 2 ^ 32 -> 0 <= p -> (if bit then kz else 0) <= len -> p + len <= Z.of_nat (length data) ->
  exists p' c', (if bit then let! w := load_le data p k in Ok (p + kz, instr c w) else Ok (p, c)) = Ok (p', c') /\ advances data p len c p' (len - if bit then kz else 0) c' /\ 0 <= c' < 2 ^ 32.
Proof using Hdata.
  intros <- Hi Hc Hp Hl Hd. destruct bit; [| exists p, c; split; [done |]; rewrite Z.sub_0_r; split; [apply advances_refl; lia | done]].
  destruct (load_le_spec data Hdata p k Hp ltac:(lia)) as (-> & Hr & Hs). cbn [obind]. rewrite Hi, Hs by done. eexists _, _. split; [done |]. split; [apply advances_by; lia | by apply crc_bytes_range, part_bytes].
Qed.

Lemma last_byte (bit : bool) p len c : 0 <= c < 2 ^ 32 -> 0 <= p -> len = (if bit then 1 else 0) -> p + len <= Z.of_nat (length data) ->
  exists p' c', (if bit then let! b := rd data p in Ok (crc32b c (u32 (char_word b))) else Ok c) = Ok c' /\ advances data p len c p' 0 c'.
Proof using Hb Hdata.
  intros Hc Hp -> Hd. destruct bit; [| exists p, c; split; [done |]; apply advances_refl; lia]. destruct (rd_slice data Hdata p) as (b & -> & Hbb & Es); [lia |]. cbn [obind].
  pose proof (advances_by data p 1 c 1 Hp ltac:(lia) Hd) as A. rewrite Es in A. cbn [crc_bytes foldl] in A. exists (p + 1), (steps 8 (Z.lxor c b)). split; [| done]. rewrite Hb by (done || apply u32_range). do 3 f_equal.
  change 0xff with (Z.ones 8). rewrite Z.land_ones by lia. unfold u32, char_word, u64. rewrite (Z.mod_mod_divide _ (2 ^ 32) (2 ^ 8)), (Z.mod_mod_divide _ (2 ^ 64) (2 ^ 8)) by ((by exists (2 ^ 24)) || by exists (2 ^ 56)). change (2 ^ 8) with 256. unfold is_byte in Hbb.
  destruct (Z.ltb_spec b 128); [apply Z.mod_small; lia |]. replace (b - 256) with (b + (-1) * 256) by lia. rewrite Z.mod_add by lia. apply Z.mod_small. lia.
Qed.

Lemma u32_lnot x : 0 <= x < 2 ^ 32 -> u32 (Z.lnot x) = Z.lxor x 0xffffffff.
Proof using.
  intros Hx. unfold u32. change 0xffffffff with (Z.ones 32). apply Z.bits_inj'. intros i Hi. rewrite Z.lxor_spec, Z.testbit_ones_nonneg by lia. destruct (Z.ltb_spec i 32).
  - rewrite Z.mod_pow2_bits_low, Z.lnot_spec by lia. by destruct (Z.testbit x i).
  - rewrite Z.mod_pow2_bits_high by lia. rewrite (Z.bits_above_log2 x i); [done | lia |]. destruct (Z.eq_dec x 0) as [-> |]; [cbn; lia |]. apply (Z.lt_le_trans _ 32); [apply Z.log2_lt_pow2; lia | done].
Qed.

(** The bits of the last bytes. *)
Lemma tail_bits len : 0 <= len -> let b k := negb (Z.land len k =? 0) in
  (if b 4 then 4 else 0) + (if b 2 then 2 else 0) + (if b 1 then 1 else 0) = Z.land len 7.
Proof using.
  intros Hl b. destruct (land_7 len Hl) as [Hr _]. assert (Hk : forall k, Z.land 7 k = k -> Z.land len k = Z.land (Z.land len 7) k) by (intros k E; by rewrite <- Z.land_assoc, E).
  unfold b. rewrite (Hk 4), (Hk 2), (Hk 1) by done. set (r := Z.land len 7) in *. assert (r = 0 \/ r = 1 \/ r = 2 \/ r = 3 \/ r = 4 \/ r = 5 \/ r = 6 \/ r = 7) as [-> | [-> | [-> | [-> | [-> | [-> | [-> | ->]]]]]]] by lia; done.
Qed.

Lemma armv8_ref crc len : 0 <= crc < 2 ^ 32 -> 0 <= len <= Z.of_nat (length data) -> crc32c_armv8 crc32q crc32w crc32h crc32b crc data len = Ok (crc32c_ref crc (take (Z.to_nat len) data)).
Proof using Hq Hw Hh Hb Hdata.
  intros Hc Hl. unfold crc32c_armv8. rewrite u32_lnot by done. assert (0 <= Z.lxor crc 0xffffffff < 2 ^ 32) as Hx by (apply lxor_range; lia).
  destruct (three_way_blocks_spec crc32c_long LONG (length data) ltac:(done) ltac:(by exists 1024) shift_long 0 len _ Hx) as (p1 & l1 & c1 & -> & A1); [lia.. |]. cbn [obind].
  pose proof (advances_range _ Hdata _ _ _ _ _ _ A1 Hx) as H1. destruct (three_way_blocks_spec crc32c_short SHORT (length data) ltac:(done) ltac:(by exists 32) shift_short p1 l1 c1 H1) as (p2 & l2 & c2 & -> & A2); [destruct A1; lia.. |]. cbn [obind].
  pose proof (advances_trans _ _ _ _ _ _ _ _ _ _ A1 A2) as B2. pose proof (advances_range _ Hdata _ _ _ _ _ _ B2 Hx) as H2. destruct (two_way_block_spec p2 l2 c2 H2) as (p3 & l3 & c3 & -> & A3); [destruct B2; lia.. |]. cbn [obind].
  pose proof (advances_trans _ _ _ _ _ _ _ _ _ _ B2 A3) as B3. pose proof (advances_range _ Hdata _ _ _ _ _ _ B3 Hx) as H3. destruct (arm_words_spec (length data) p3 l3 c3 H3) as (p4 & c4 & -> & A4); [destruct B3; lia.. |]. cbn [obind].
  pose proof (advances_trans _ _ _ _ _ _ _ _ _ _ B3 A4) as B4. pose proof (advances_range _ Hdata _ _ _ _ _ _ B4 Hx) as H4. pose proof (tail_bits l3 ltac:(destruct B3; lia)) as Ht. cbv beta zeta in Ht.
  destruct (tail_step crc32w 4 4 (negb (Z.land l3 4 =? 0)) p4 (Z.land l3 7) c4 eq_refl Hw H4) as (p5 & c5 & -> & A5 & H5); [destruct B4; lia | destruct (negb (Z.land l3 4 =? 0)), (negb (Z.land l3 2 =? 0)), (negb (Z.land l3 1 =? 0)); lia | destruct B4; lia |]. cbn [obind].
  pose proof (advances_trans _ _ _ _ _ _ _ _ _ _ B4 A5) as B5.
  destruct (tail_step crc32h 2 2 (negb (Z.land l3 2 =? 0)) p5 (Z.land l3 7 - if negb (Z.land l3 4 =? 0) then 4 else 0) c5 eq_refl Hh H5) as (p6 & c6 & -> & A6 & H6); [destruct B5; lia | destruct (negb (Z.land l3 4 =? 0)), (negb (Z.land l3 2 =? 0)), (negb (Z.land l3 1 =? 0)); lia | destruct B5; lia |]. cbn [obind].
  pose proof (advances_trans _ _ _ _ _ _ _ _ _ _ B5 A6) as B6.
  destruct (last_byte (negb (Z.land l3 1 =? 0)) p6 (Z.land l3 7 - (if negb (Z.land l3 4 =? 0) then 4 else 0) - (if negb (Z.land l3 2 =? 0) then 2 else 0)) c6 H6 ltac:(destruct B6; lia) ltac:(destruct (negb (Z.land l3 4 =? 0)), (negb (Z.land l3 2 =? 0)), (negb (Z.land l3 1 =? 0)); lia) ltac:(destruct B6; lia)) as (p7 & c7 & -> & A7). cbn [obind].
  pose proof (advances_trans _ _ _ _ _ _ _ _ _ _ B6 A7) as B7. pose proof (advances_range _ Hdata _ _ _ _ _ _ B7 Hx) as H7. rewrite u32_lnot by done. f_equal. rewrite <- (advances_all data Hdata len crc p7 c7 Hc B7). by rewrite u32_small by done.
Qed.
End Hardware.

Lemma crc_bytes_zeros n : crc_bytes 0 (replicate n 0) = 0.
Proof. induction n as [| n IH]; [done |]. cbn [replicate]. exact IH. Qed.

(** ** The theorems *)

(** C19: The table-driven checksum is the division by definition: jl_crc32c_sw, with its lookups of one byte and
    of eight bytes at once, returns the CRC-32C of the first [len] bytes for every buffer, starting value
    and alignment of the address, and reads nothing else. *)
Theorem crc32c_sw_correct (addr crc : Z) (data : list Z) (len : Z) : Forall is_byte data -> 0 <= crc < 2 ^ 32 -> 0 <= len <= Z.of_nat (length data) ->
  jl_crc32c_sw addr crc data len = Ok (crc32c_ref crc (take (Z.to_nat len) data)).
Proof. intros Hd. by apply crc32c_sw_ref. Qed.

Lemma crc32c_sw_correct_witness : jl_crc32c_sw 3 0 [49; 50; 51; 52; 53; 54; 55; 56; 57] 9 = Ok (crc32c_ref 0 (take (Z.to_nat 9) [49; 50; 51; 52; 53; 54; 55; 56; 57])) /\
  crc32c_ref 0 [49; 50; 51; 52; 53; 54; 55; 56; 57] = 0xe3069283.
Proof. split; [apply crc32c_sw_correct; [repeat constructor; done | lia | cbn; lia] | vm_compute; reflexivity]. Defined.

(** C20: The versions for crc instructions compute the same: if the instructions append their operand to the
    checksum, crc32c_sse42 and crc32c_armv8, which compute the checksums of two or three blocks at once and
    combine them with the tables of zeros, return the CRC-32C by definition. *)
Theorem crc32c_hw_correct (crc32q crc32w crc32h crc32b : Z -> Z -> Z) (addr crc : Z) (data : list Z) (len : Z) :
  (forall c w, 0 <= c < 2 ^ 32 -> 0 <= w < 2 ^ 64 -> crc32q c w = steps 64 (Z.lxor c w)) ->
  (forall c w, 0 <= c < 2 ^ 32 -> 0 <= w < 2 ^ 32 -> crc32w c w = steps 32 (Z.lxor c w)) ->
  (forall c w, 0 <= c < 2 ^ 32 -> 0 <= w < 2 ^ 16 -> crc32h c w = steps 16 (Z.lxor c w)) ->
  (forall c w, 0 <= c < 2 ^ 32 -> 0 <= w < 2 ^ 32 -> crc32b c w = steps 8 (Z.lxor c (Z.land w 0xff))) ->
  Forall is_byte data -> 0 <= crc < 2 ^ 32 -> 0 <= len <= Z.of_nat (length data) ->
  crc32c_sse42 crc32q crc32b addr crc data len = Ok (crc32c_ref crc (take (Z.to_nat len) data)) /\
  crc32c_armv8 crc32q crc32w crc32h crc32b crc data len = Ok (crc32c_ref crc (take (Z.to_nat len) data)).
Proof. intros Hq Hw Hh Hb Hd Hc Hl. split; [by apply sse42_ref | by apply armv8_ref]. Qed.

Lemma crc32c_hw_correct_witness :
  let q c w := steps 64 (Z.lxor c w) in
  let b c w := steps 8 (Z.lxor c (Z.land w 0xff)) in
  let data := replicate 2000 97 in
  crc32c_sse42 q b 5 1 data 1999 = Ok (crc32c_ref 1 (take (Z.to_nat 1999) data)) /\
  crc32c_armv8 q (fun c w => steps 32 (Z.lxor c w)) (fun c w => steps 16 (Z.lxor c w)) b 1 data 1999 = Ok (crc32c_ref 1 (take (Z.to_nat 1999) data)).
Proof.
  intros q b data. apply crc32c_hw_correct; try done. apply Forall_replicate. unfold is_byte. lia.
Defined.

(** C40: The generator and its tables: the tables of the source are what crc32c_init_sw and crc32c_init_hw compute,
    and the tables that crc32c_zeros computes for a power of two, with its matrices over GF(2), append that
    many zero bytes to a checksum. *)
Theorem crc32c_tables_correct : crc32c_init_sw = Ok crc32c_table /\ crc32c_init_hw = Ok (crc32c_long, crc32c_short) /\
  forall k, (k < 64)%nat -> exists t, crc32c_zeros (2 ^ Z.of_nat k) = Ok t /\
    forall crc, 0 <= crc < 2 ^ 32 -> crc32c_shift t crc = Ok (crc_bytes crc (replicate (2 ^ k) 0)).
Proof.
  split; [vm_compute; reflexivity |]. split; [apply init_hw_tables |]. intros k Hk. exists (zeros_tables (8 * 2 ^ k)). split; [by apply crc32c_zeros_spec |].
  intros crc Hc. rewrite crc32c_shift_spec by done. f_equal. rewrite crc_bytes_split by (apply Forall_replicate; unfold is_byte; lia). rewrite length_replicate, crc_bytes_zeros. by rewrite Z.lxor_0_r.
Qed.

Lemma crc32c_tables_correct_witness : exists t, crc32c_zeros (2 ^ Z.of_nat 3) = Ok t /\ crc32c_shift t 0xdeadbeef = Ok (crc_bytes 0xdeadbeef (replicate (2 ^ 3) 0)).
Proof. destruct crc32c_tables_correct as (_ & _ & H). destruct (H 3%nat ltac:(lia)) as (t & E & Hs). exists t. split; [done |]. apply Hs. lia. Defined.
